(* ===== verification/_CoqProject ===== *)
-Q . S2P
Prelude.v
PyDict.v
Effects.v
Glob.v
PyStr.v
Url.v
Json.v
Themes.v
Subproc.v
Wizard.v
Installer.v
CliConfig.v
ServerManager.v
TuiApp.v
CliTui.v
ServerRegistry.v
Versions.v
Search.v
Elicitation.v
Schema.v
BackendForm.v
Images.v
Catalog.v
EnvFlags.v
Redaction.v
Secrets.v
ConfigIO.v
ClientGen.v
Conflict.v
Filter.v
Registry.v
Lifecycle.v
CircuitBreaker.v
Health.v
Authz.v
Auth.v
Jwt.v
Chain.v
Handlers.v
AuditLog.v
SessionPool.v
Retry.v
Workflow.v
Executor.v
Plugins.v
Builtins.v
PolicyPlugins.v
Groups.v
Skills.v
RateLimit.v
PayloadLimits.v
Session.v
ConfigDiff.v
Container.v
Clean.v
Watcher.v
Loader.v
OutgoingAuth.v
Pkce.v
Discovery.v
AuthDiscovery.v
HttpEdge.v
Transport.v
ServerConfig.v
App.v
Backend.v
Startup.v
Service.v
EventStream.v
Lifespan.v
Management.v
ArgusClient.v
DaemonClient.v
Repl.v
RegistrySearch.v
ProcSessions.v
