(* ===== verification/Prelude.v ===== *)
(** * Argus MCP: a verification development

    Argus MCP is a gateway: it connects to a set of MCP backends, merges the
    tools, resources and prompts they offer into one catalogue, and forwards the
    requests of its clients to the backend that owns the capability.  This
    library models the Python code under src/argus_mcp that decides what is
    exposed, to whom, where a request goes, how the gateway is configured and
    authenticates, and what happens when something fails, and the programs that
    operate it (the terminal interface, and the command-line package under
    src/packages/argus_cli), and proves what that code guarantees.

    ** The program and its parts

    - The service (runtime/service.py) reads the configuration (config/loader.py,
      validated by config/schema_backends.py, with environment variables and
      secrets filled in), connects the backends through the start-up coordinator
      and the client manager (bridge/startup_coordinator.py, client_manager.py,
      backend_connection.py), and later reloads what changed (config/diff.py),
      on request or when the file changes (config/watcher.py).
    - Discovery asks every backend for its lists and registers them
      (bridge/capability_registry.py) through per-backend filters and renames
      (bridge/filter.py, bridge/rename.py) and one conflict strategy
      (bridge/conflict.py).  The result is three lists and a route map.
    - A request comes in through ASGI layers (server/origin.py,
      server/payload_limits.py, server/rate_limit.py), reaches a protocol
      handler (server/handlers.py) and is dispatched through a chain of
      middlewares (bridge/middleware, plugins/middleware.py, assembled in
      server/lifespan.py) that authenticates it (server/auth), runs the plugin
      hooks (plugins), records telemetry and audit events, and finally routes it
      by the route map to a backend session (bridge/session_pool.py,
      bridge/retry.py).
    - To its backends the gateway authenticates with static tokens or OAuth
      (bridge/auth): providers, token cache and files, PKCE, discovery and
      registration.
    - Commands can run in containers (bridge/container): a runtime is chosen, an
      image built from a template, a hardened container created and its command
      put in place of the original; every container is entered in a table and
      removed at the end.
    - The lifespan (server/lifespan.py) starts the service, attaches it to the
      MCP server, installs the authentication that the transports
      (server/transport.py, server/sse_resilience.py) enforce, and cleans up.
      Detached servers are tracked by files (sessions.py, cli/_stop.py,
      cli/_server.py).
    - In the background the health checker (bridge/health) probes the backends,
      opens their circuit breakers, takes the capabilities of a dead backend out
      of the registry and puts them back, and keeps their status records
      (runtime/models.py) in step.
    - Operators use the management API (server/management), exports, imports and
      catalogs of configurations (config/export.py, config/import_handler.py,
      registry/catalog.py), public registries (registry), skills (skills) and
      the secret store (secrets).
    - Workflows (workflows) are DAGs of tool calls that the gateway offers as
      composite tools.
    - Two programs use the management API from outside: the terminal interface
      (tui), which polls the servers it knows and shows their state and events,
      and the command-line package (packages/argus_cli) with its client, its
      interactive shell, its daemon for containers and its own copy of the
      interface.  The start of the server is shown by display/installer.py.

    ** Files

    The base:
    - Prelude.v, PyDict.v, Effects.v: automation (the hint database and rewrite
      database [argus], [reflect_bools], [case_test], [by_decide]), generic
      lemmas, labelled runs of a step function ([steps], [steps_invariant]);
      insertion-ordered dictionaries and JSON-like values; the monad of state
      and exceptions.
    - Glob.v: [fnmatch], the pattern language of filters and policies, with a
      declarative semantics and its correctness.
    - PyStr.v, Url.v, Json.v: the string methods, [urlparse], and JSON text with
      [loads] inverse to [dumps].

    Exposing and routing capabilities:
    - Conflict.v (bridge/conflict.py): the abstract class is the type class
      [Strategy], its four subclasses are instances.
    - Filter.v (bridge/filter.py, bridge/rename.py).
    - Registry.v (bridge/capability_registry.py): [registry] is the mutable
      state, [register_one] an iteration of the registration loop, [run_task] a
      discovery task, [discover_and_register] the start-up for one completion
      order of the tasks, [reg_step] every operation on a live registry.
    - Chain.v (bridge/middleware, server/lifespan.py, [_dispatch] of
      server/handlers.py): a handler is a computation over the mutable request
      context and the observable effects of a request.
    - Handlers.v (server/handlers.py): the six protocol handlers.
    - SessionPool.v, Retry.v (bridge/session_pool.py, bridge/retry.py): pool
      entries are heap objects shared with their users.
    - Groups.v, Search.v, Elicitation.v (bridge/groups.py,
      bridge/optimizer/search.py, bridge/elicitation.py).
    - Workflow.v, Executor.v (workflows): parsing, levels, interpolation,
      execution with retries and the composite tool.
    - Plugins.v, Builtins.v, PolicyPlugins.v (plugins): loading, selection, order,
      execution modes and the middleware, which plugs into the chain of Chain.v;
      the hooks of the stateful and scanning built-in plugins; those of the
      plugins that ask policy engines, scanners and moderation services.

    Running the service:
    - Lifecycle.v (runtime/models.py): the two transition tables and
      [BackendStatusRecord].
    - CircuitBreaker.v, Health.v (bridge/health): a check is split at its only
      await into [check_begin] and [check_finish], so that other steps can run
      in between; the sharing of list objects between a removal and a
      suspended re-discovery has its own heap.
    - Backend.v, Startup.v (bridge/backend_connection.py, client_manager.py,
      startup_coordinator.py): one attempt to connect, the tables of the
      manager with the exit stacks that own the resources of a connection, the
      first pass and the retry rounds.
    - Service.v (runtime/service.py): the service as a state and exception
      computation over all of these; registries are objects in a heap, because
      the service, the health checker and the server hold references to them.
    - Lifespan.v (server/lifespan.py): start-up with its signals, attaching,
      serving and shutdown, over Service.v and Transport.v.
    - Images.v, Container.v (bridge/container, with its callers in
      transport_factory.py, backend_connection.py and cli/_build.py): the state
      is the table of containers and the history of the commands sent to the
      container program, which answers as a function of that history.
    - Clean.v (cli/_clean.py): the clean command, over such a program too.
    - ProcSessions.v (sessions.py, cli/_stop.py, cli/_server.py): the commands are
      written against an interface ([SessionStore]) with two instances, the
      files and a map; [os.kill] answers as a function of the earlier calls.

    Configuration:
    - Schema.v (config/schema_backends.py): the models of a backend and the
      validators written in the source.
    - EnvFlags.v (config/migration.py, config/flags.py), Secrets.v (secrets),
      Redaction.v (display/logging_config.py): environment variables, feature
      flags, the secret store with its providers as instances of a type class,
      and the log filter.
    - Loader.v (config/loader.py, bridge/transport_factory.py), ConfigDiff.v,
      Watcher.v (config/diff.py, config/watcher.py).
    - ConfigIO.v, ClientGen.v (config/export.py, import_handler.py,
      client_gen.py), Catalog.v, ServerRegistry.v (registry), Versions.v
      (bridge/version_checker.py), Skills.v (skills).

    Authentication and the edge:
    - Authz.v, Auth.v, Jwt.v (server/authz, server/auth): policies, providers,
      validation of JWTs, discovery of an issuer.
    - OutgoingAuth.v, Pkce.v, Discovery.v, AuthDiscovery.v (bridge/auth,
      bridge/auth_discovery.py): tasks that share a token provider and flows that
      share a callback handler are step functions; the discovery of a backend's
      authentication composes the others.
    - Transport.v (server/transport.py, sse_resilience.py, well_known.py,
      auth_context.py): the gate of both transports with the context variables
      it sets, the sessions of interleaved connections, the guarded streams.
    - ServerConfig.v (config/schema.py, schema_server.py, schema_security.py,
      schema_rate_limits.py, schema_registry.py, schema_client.py): the sections
      of the configuration beside the backends and the model of all of it.
    - App.v (server/app.py): the layers below, Transport.v and the token layer of
      the management API as one ASGI application.
    - RateLimit.v, PayloadLimits.v, Session.v, HttpEdge.v (server): the sliding
      window with lockout over an interface for its TTL cache, the body limits,
      client sessions with frozen routing, the origin check, the bearer token of
      the management API and the security headers.
    - Management.v (server/management/router.py): the endpoints and routes over
      the service of Service.v, behind the token layer of HttpEdge.v.

    - EventStream.v, RegistrySearch.v (server/management/router.py, api/client.py):
      the stream of events from the queues of the service to the client, and the
      search over the configured registries.
    - AuditLog.v (audit/logger.py): the loggers with the handlers they share; names
      of files and open files are kept apart.

    Operating it:
    - ArgusClient.v (argus_cli/client.py): the client of the management API with its
      retries, over the endpoints of Management.v.
    - Repl.v (argus_cli/repl): the interactive shell as a state with one step for
      each line; the command application that it dispatches to is a parameter.
    - DaemonClient.v (argus_cli/daemon_client.py): the client of the container
      daemon, its streams and the start of the daemon.
    - CliConfig.v, Themes.v (argus_cli/config.py, theme.py, themes): the precedence
      of the settings, and the module-level state of a theme.
    - ServerManager.v (tui/server_manager.py, tui/settings.py): servers and their
      HTTP clients, which are shared objects.
    - TuiApp.v, CliTui.v (tui/app.py of both packages): the workers of the interface
      run in groups, and starting an exclusive one cancels the others of its group;
      a poll is cut off after any of its requests.
    - Wizard.v, BackendForm.v (tui/screens/setup_wizard.py, backend_config.py,
      tui/_config_ops.py): the screens that write the configuration file; the form
      is composed with the models of Schema.v.
    - Installer.v (display/braille.py, display/installer.py): the display of the
      backends during start-up.
    - Subproc.v (bridge/subprocess_utils.py, bridge/go_stdio_wrapper.py): child
      processes; a cancellation can arrive at every await of their clean-up.

    ** What the theorems show

    - Service: over every history of starts, stops, reloads and reconnects the
      service is ready exactly while it runs, sessions belong to configured
      backends and sit on open exit stacks, and no stack is lost; a reload
      disconnects, keeps and reconnects exactly what the difference says and
      reports the rest; start-up attempts every backend within its budget,
      whatever the order of the tasks; a single edit of the file is reloaded
      exactly once; clients never see the result of a reload.  Lemmas show that
      an edit followed by a second one within the debounce is lost, that an
      invalid file makes a reload raise and that a backend without retries
      stays in the phase [RETRYING].
    - Registry: in every reachable state the route map and the lists agree; the
      priority strategy ends with a most preferred owner, and the prefix
      strategy loses nothing, whatever the completion order; only filtered
      items are routable.  Lemmas give the exact effect of a removal, and show
      where the behaviour differs from the comments of the source: a conflict
      under the error strategy truncates a list silently, prefixes can collide,
      and a re-discovery shows an empty route map while it waits.
    - Lifecycle, breaker and health: phases follow the table and each change is
      logged (lemmas); the breaker refines a specification of two numbers;
      failing probes hide exactly the routes of their backend at the threshold.
    - Dispatch: the exact effect of a request through the installed stack; a
      rejected request has no effect; every listed tool can be called.  A lemma
      describes the single backend call of a request.
    - Security: an accepted JWT was verified as configured; without the token
      the management API changes nothing; the window bounds the accepted requests.
      Lemmas: an accepted container section keeps its hardening; payload limits are exact, answers of the management API are redacted,
      policies are first-match with a closed default, a configured provider
      never accepts a missing or wrong token, client addresses cannot be
      spoofed past untrusted proxies, and the findings about each part.
    - The way in: the server serves only with the authentication of its
      configuration, in the gate and in the stack; what passes the gate carries
      an accepted token, and both agree on its identity; a session belongs to an
      open connection or to one whose loop raised; whatever start-up and serving
      do, the lifespan releases what it took.  Lemmas: permissive mode ends at
      the gate, flags come too late for the start they are meant for, and an
      interrupt during a successful start is forgotten; the spin detection of a
      stream equals its reference.
    - The application: whatever lies behind the layers, it can only matter for a
      request that passed all of them (non-interference).  Lemmas: every response
      carries the security headers; five refusals lock an address out of all the
      paths; a regular end of an SSE connection raises.
    - Observation: the client of the event stream reads what the service emitted,
      in order, and misses nothing unless its queue was full; the audit log keeps
      the last events without a gap.  Lemmas: the registries are searched in the
      order of the file, up to the first answer.
    - Containers: wrapping isolates with the whole baseline or not at all, and
      every container it creates is in the table, removed, or lost to a failure
      of its removal.
    - Detached servers: every history of commands acts on the session files as
      on a map, signals included.  A theorem beside it says what stopping does.
    - Outgoing authentication: callers share one token request; a code is
      exchanged only by the flow it was issued for; a discovered login is used by
      later connections (lemma).  Lemmas: tokens survive a restart; discovery contacts
      only what it has checked.
    - Configuration: every backend that the schema accepts gives a transport; an
      accepted configuration meets the assumptions of the components its sections
      are for, and (lemma) is accepted again unchanged;
      expansion equals a declarative description (secret resolution in a lemma);
      the three secret providers refine a map; export and import are inverse.
      Lemmas: staging a catalog announces what the commit does; installed skills
      survive a restart; a registry stays readable offline.
    - Resources: sessions of the pool are conserved.  Lemmas: the retry loop stops at
      the right attempt; a hit of the response cache is sound; when the block that
      uses a child process is left without a cancellation, the process has ended.
    - Workflows: the levels are a topological order and exist exactly for
      acyclic workflows; an accepted workflow always runs to a result per step.
    - Plugins: hooks run in priority order over isolated contexts.  Lemmas: what
      the combined decision of policy engines means, and that the virus scanner
      is sent the data.
    - Operation: what the client of the command line returns or raises is what the
      endpoint answered to its one request; as long as the server is not switched,
      the interface shows every event once, whatever polls are cut off.  Theorems beside these: the servers of the interface are
      read back from their file; whatever is typed, the shell keeps its aliases in step
      with their file and its configuration free of the options of single commands;
      at most one spinner is active in the start-up display; the wizard saves only
      text that it has validated (an export is not checked); an accepted form for a local backend or an http
      address is read by the server as the backend it describes; adding a backend
      to the file changes nothing else in it.  Lemmas show where the interfaces
      fail their purpose: polls that are cancelled before their timeout, fields
      of the form that the server ignores, snippets that break the file.

    ** Conventions

    - Time is [Z] milliseconds (whole seconds in OutgoingAuth.v, Jwt.v,
      Elicitation.v and ServerRegistry.v); an operation that reads a clock takes
      the reading as an argument, one argument for each reading, so that
      theorems hold for clocks that advance between two reads.  Durations that
      the source keeps as floats are exact rationals in Retry.v.
    - Python integers are unbounded, so [Z] is exact.  Strings are sequences of
      8-bit characters.
    - Code between two awaits is atomic.  Where tasks interleave, the model has
      a completion order (Registry.v), a split of the operation at the await
      (Health.v, Elicitation.v) or a step function with its reachable states.
    - Exceptions are values of a sum type; state changed before an exception
      stays changed, as in Python.
    - Logging, spans and docstrings are not modelled.
    - Fuel, each time with a proof that it is enough: the eviction loop of the
      session pool (the length of the list), the levels of a workflow (the
      number of steps), the tokens of a pattern, the references of a string,
      the variables of a string, the replacement of secrets and the JSON parser
      (their length: [parse_glob_fuel], [sub_refs_fuel], [sub_vars_expands],
      [sub_alts_scrubbed], [loads_dumps]), and the body loop (the number of
      chunks; without an end of body no fuel is enough, and that is proved too),
      the chunks sent to the virus scanner (the length of the data:
      [instream_roundtrip]) and the polling of a stopping process (one turn per
      100 ms: [poll_session_probes] shows that it ends at the deadline), and the wait
      for the socket of the daemon ([wait_ends]).
      Redirects and registry pages are counted by the source itself.

    ** Parameters

    Code outside the repository is an argument of the definitions that use it,
    with its documented behaviour as a law where a theorem needs one: YAML,
    pydantic's construction of models, the number parsing and [str()] of Python,
    the iteration order of its sets, random bytes and jitter, SHA-256, Fernet
    and the keyring, the patterns of the scanners, PyJWT, the similarity of
    scikit-learn, DNS and the classification of IP addresses, [urljoin], the
    replies of networks, backends, browsers and disks, the invoker of a
    workflow, the hooks of plugins, the TTL cache of cachetools (a type
    class with its documented laws and an instance), the template engine, the
    container program and its adapter, policy engines and scanners, [os.kill],
    [realpath], the MCP SDK, the command application of Typer, httpx and the
    cancellation of workers that Textual documents.

    ** Not modelled, and the plan

    Outside, because it is input and output or formatting: the network and browsers,
    the exporters of telemetry (telemetry), argument parsing and the console output
    of the commands (cli/__init__.py, argus_cli/main.py and its commands), the layout,
    tables and key bindings of the Textual screens and widgets (tui/screens and
    tui/widgets beside the two screens above), and the substitutions of regular
    expressions in the Markdown cleaner.  The native accelerators are optional
    replacements of the Python code in Rust, the container daemon is a program in
    Go.  A stop that arrives in the middle of a start is not interleaved with it.
    Of the management API the list of client sessions is missing; of the containers
    the list of images and the search for the adapter; the build command
    (cli/_build.py) is modelled only as far as the images go.  The sections of the
    configuration that no code reads (rate limits, security, pools, retry, SSE
    resilience, audit) are modelled as far as the models go.  What could follow:
    the build command as a whole, the composite workflows of the lifespan and the
    remaining screens. *)
From stdpp Require Export base tactics list gmap strings.
From Stdlib Require Export ZArith Lia Permutation Sorted.
#[global] Set Default Proof Using "Type".
#[export] Set Warnings "-clear-no-such-hyp,-register-all".
#[global] Open Scope string_scope.
#[global] Open Scope list_scope.
#[global] Open Scope Z_scope.

(** ** Automation *)

Create HintDb argus.
Create Rewrite HintDb argus.
#[export] Hint Resolve Permutation_refl NoDup_nil_2 : argus.
#[export] Hint Extern 4 (_ <= _)%Z => lia : argus.
#[export] Hint Extern 4 (_ < _)%Z => lia : argus.
#[export] Hint Extern 4 (_ ≤ _)%nat => lia : argus.

(** Reflect every boolean test of the source that occurs in the context. *)
Ltac reflect_bools :=
  repeat match goal with
  | H : bool_decide _ = true |- _ => apply bool_decide_eq_true_1 in H
  | H : bool_decide _ = false |- _ => apply bool_decide_eq_false_1 in H
  | H : (_ <? _)%Z = true |- _ => apply Z.ltb_lt in H
  | H : (_ <? _)%Z = false |- _ => apply Z.ltb_ge in H
  | H : (_ <=? _)%Z = true |- _ => apply Z.leb_le in H
  | H : (_ <=? _)%Z = false |- _ => apply Z.leb_gt in H
  | H : (_ >=? _)%Z = true |- _ => rewrite Z.geb_leb in H; apply Z.leb_le in H
  | H : (_ >=? _)%Z = false |- _ => rewrite Z.geb_leb in H; apply Z.leb_gt in H
  | H : (_ >? _)%Z = true |- _ => rewrite Z.gtb_ltb in H; apply Z.ltb_lt in H
  | H : (_ >? _)%Z = false |- _ => rewrite Z.gtb_ltb in H; apply Z.ltb_ge in H
  | H : negb _ = true |- _ => apply negb_true_iff in H
  | H : negb _ = false |- _ => apply negb_false_iff in H
  | H : andb _ _ = true |- _ => apply andb_true_iff in H as [? ?]
  | H : orb _ _ = false |- _ => apply orb_false_iff in H as [? ?]
  end.

(** Case analysis on the test of the first conditional of the goal. *)
Ltac case_test :=
  match goal with
  | |- context [if ?b then _ else _] => destruct b eqn:?
  end.

Ltac case_tests := repeat (case_test; simplify_eq/=); reflect_bools.

(** Prove a closed decidable fact by evaluating its decision procedure. *)
Ltac by_decide := apply (bool_decide_unpack _); vm_compute; exact Logic.I.

(** ** Lists *)

Section lists.
Context {A B : Type}.
Implicit Types (l : list A).

Lemma existsb_elem_of (f : A → bool) l :
  existsb f l = true ↔ ∃ x, x ∈ l ∧ f x = true.
Proof.
  rewrite existsb_exists. split; intros (x & Hx & Hf); exists x; split; auto;
    by apply list_elem_of_In.
Qed.

Lemma forallb_elem_of (f : A → bool) l :
  forallb f l = true ↔ ∀ x, x ∈ l → f x = true.
Proof.
  rewrite forallb_forall. split; intros H x Hx; apply H; by apply list_elem_of_In.
Qed.

(** First-match search, the shape of every `for x in xs: if p(x): return`. *)
Lemma find_first (f : A → bool) l x :
  List.find f l = Some x →
  ∃ l1 l2, l = l1 ++ x :: l2 ∧ f x = true ∧ Forall (λ y, f y = false) l1.
Proof.
  induction l as [|a l IH]; simpl; [done|].
  destruct (f a) eqn:Ha; intros Hf; simplify_eq.
  - by exists [], l.
  - destruct (IH Hf) as (l1 & l2 & -> & Hx & Hall). exists (a :: l1), l2.
    repeat split; auto.
Qed.

Lemma find_nothing (f : A → bool) l :
  List.find f l = None ↔ Forall (λ y, f y = false) l.
Proof.
  induction l as [|a l IH]; simpl.
  - by split.
  - destruct (f a) eqn:Ha; split; intros H; simplify_eq.
    + inversion H; congruence.
    + constructor; [done|by apply IH].
    + inversion H; subst. by apply IH.
Qed.
End lists.

(** Reading a list after an assignment to one of its positions. *)
Lemma list_insert_cases {A} (l : list A) i t j u :
  <[i := t]> l !! j = Some u → (j = i ∧ u = t) ∨ (j ≠ i ∧ l !! j = Some u).
Proof.
  destruct (decide (j = i)) as [->|Hne].
  - intros H. left. apply list_lookup_insert_Some in H. naive_solver.
  - rewrite list_lookup_insert_ne by done. auto.
Qed.

(** Python's list comprehension with a test. *)
Abbreviation keep := List.filter (only parsing).

Lemma elem_of_keep {A} (f : A → bool) l x :
  x ∈ keep f l ↔ x ∈ l ∧ f x = true.
Proof. by rewrite !list_elem_of_In, filter_In. Qed.

Lemma keep_length {A} (f : A → bool) l : (length (keep f l) ≤ length l)%nat.
Proof. induction l as [|x l IH]; simpl; [done|]. case_test; simpl; lia. Qed.

Lemma keep_all {A} (f : A → bool) l : (∀ x, x ∈ l → f x = true) → keep f l = l.
Proof.
  induction l as [|x l IH]; intros H; simpl; [done|].
  rewrite (H x) by set_solver. f_equal. apply IH. set_solver.
Qed.

Lemma keep_app {A} (f : A → bool) l1 l2 : keep f (l1 ++ l2) = keep f l1 ++ keep f l2.
Proof. induction l1 as [|x l1 IH]; simpl; [done|]. by case_test; rewrite IH. Qed.

Lemma keep_ext {A} (f g : A → bool) l : (∀ x, x ∈ l → f x = g x) → keep f l = keep g l.
Proof.
  induction l as [|x l IH]; intros H; simpl; [done|]. rewrite (H x) by left.
  rewrite IH by (intros y Hy; apply H; by right). done.
Qed.

(** The two halves of a list under a test. *)
Lemma keep_partition {A} (f : A → bool) l : Permutation (keep (λ x, negb (f x)) l ++ keep f l) l.
Proof.
  induction l as [|x l IH]; simpl; [done|]. destruct (f x); simpl; [|by constructor].
  rewrite <-Permutation_middle. by constructor.
Qed.

Lemma keep_idemp {A} (f : A → bool) l : keep f (keep f l) = keep f l.
Proof. apply keep_all. by intros x [_ ?]%elem_of_keep. Qed.

Lemma NoDup_keep {A} (f : A → bool) l : NoDup l → NoDup (keep f l).
Proof.
  induction 1 as [|x l Hx Hl IH]; simpl; [constructor|].
  case_test; [constructor|]; auto. rewrite elem_of_keep. tauto.
Qed.

Lemma NoDup_fmap_keep {A B} (g : A → B) (f : A → bool) l :
  NoDup (g <$> l) → NoDup (g <$> keep f l).
Proof.
  induction l as [|x l IH]; simpl; [done|]. intros [Hx Hl]%NoDup_cons.
  case_test; simpl; [apply NoDup_cons|]; auto. split; [|auto].
  intros (y & Hy & Hin)%list_elem_of_fmap. apply Hx.
  rewrite Hy. apply list_elem_of_fmap. exists y. split; [done|].
  by apply elem_of_keep in Hin as [? _].
Qed.

(** ** Stable insertion sort by an integer key: Python's [sorted(xs, key=k)]. *)

Section sort_by.
Context {A : Type} (key : A → Z).

Fixpoint insert_by (x : A) (l : list A) : list A :=
  match l with
  | [] => [x]
  | y :: ys => if (key x <=? key y)%Z then x :: y :: ys else y :: insert_by x ys
  end.

Definition sort_by (l : list A) : list A := foldr insert_by [] l.

Definition key_le (x y : A) : Prop := key x <= key y.

Lemma insert_by_perm x l : Permutation (x :: l) (insert_by x l).
Proof.
  induction l as [|y l IH]; simpl; [done|].
  case_test; [done|]. rewrite perm_swap. by rewrite IH.
Qed.

Lemma sort_by_perm l : Permutation l (sort_by l).
Proof. induction l as [|x l IH]; simpl; [done|]. by rewrite <-insert_by_perm, <-IH. Qed.

Lemma insert_by_sorted x l : StronglySorted key_le l → StronglySorted key_le (insert_by x l).
Proof.
  unfold key_le. induction 1 as [|y l Hs IH Hall]; simpl.
  - repeat constructor.
  - case_test; reflect_bools.
    + constructor; [by constructor|]. constructor; [done|].
      eapply Forall_impl; [exact Hall|]. simpl. lia.
    + constructor; [done|]. rewrite <-insert_by_perm. constructor; [lia|done].
Qed.

Lemma sort_by_sorted l : StronglySorted key_le (sort_by l).
Proof. induction l; simpl; [constructor|by apply insert_by_sorted]. Qed.

(** Stability: elements of equal key keep their relative order. *)
Lemma insert_by_keep k x l :
  keep (λ y, key y =? k)%Z (insert_by x l) = keep (λ y, key y =? k)%Z (x :: l).
Proof.
  induction l as [|y l IH]; [done|]. cbn [insert_by].
  destruct (key x <=? key y)%Z eqn:E; [done|]. simpl in *. rewrite IH. reflect_bools.
  destruct (key x =? k)%Z eqn:E1, (key y =? k)%Z eqn:E2; try done; lia.
Qed.

Lemma sort_by_stable k l :
  keep (λ y, key y =? k)%Z (sort_by l) = keep (λ y, key y =? k)%Z l.
Proof.
  induction l as [|x l IH]; [done|]. cbn [sort_by foldr].
  fold (sort_by l). rewrite insert_by_keep. simpl. by rewrite IH.
Qed.

(** Sorting commutes with filtering and with the removal of one element. *)
Lemma insert_by_front x l : Forall (key_le x) l → insert_by x l = x :: l.
Proof.
  destruct l as [|y l]; [done|]. intros [Hy _]%Forall_cons. unfold key_le in Hy. simpl.
  by replace (key x <=? key y)%Z with true by (symmetry; by apply Z.leb_le).
Qed.

Lemma insert_by_filter (f : A → bool) x l :
  StronglySorted key_le l →
  keep f (insert_by x l) = if f x then insert_by x (keep f l) else keep f l.
Proof.
  induction 1 as [|y l Hs IH Hall]; simpl; [done|].
  destruct (key x <=? key y)%Z eqn:E; reflect_bools.
  - assert (Forall (key_le x) (y :: l)) as Hx.
    { constructor; [done|]. eapply Forall_impl; [exact Hall|]. unfold key_le. simpl. lia. }
    simpl. destruct (f x); [|done]. symmetry. apply insert_by_front.
    rewrite Forall_forall in Hx |- *. intros z Hz. apply Hx.
    destruct (f y); [|apply elem_of_keep in Hz as [? _]; by right].
    apply elem_of_cons in Hz as [->|[? _]%elem_of_keep]; [left|by right].
  - simpl. rewrite IH. destruct (f y), (f x); try done. simpl.
    by replace (key x <=? key y)%Z with false by (symmetry; by apply Z.leb_gt).
Qed.

Lemma sort_by_filter (f : A → bool) l : keep f (sort_by l) = sort_by (keep f l).
Proof.
  induction l as [|x l IH]; [done|]. cbn [sort_by foldr]. fold (sort_by l).
  rewrite insert_by_filter by apply sort_by_sorted. simpl. rewrite IH. by destruct (f x).
Qed.

Lemma insert_by_split x l : ∃ l1 l2, insert_by x l = l1 ++ x :: l2 ∧ l = l1 ++ l2.
Proof.
  induction l as [|y l (l1 & l2 & IH & E)]; simpl; [by exists [], []|].
  case_test; [by exists [], (y :: l)|]. exists (y :: l1), l2. simpl. by rewrite IH, <-E.
Qed.

Lemma insert_by_remove x y l1 l2 :
  StronglySorted key_le (l1 ++ y :: l2) →
  ∃ l1' l2', insert_by x (l1 ++ y :: l2) = l1' ++ y :: l2' ∧ insert_by x (l1 ++ l2) = l1' ++ l2'.
Proof.
  induction l1 as [|z l1 IH]; cbn [app insert_by]; intros Hs; apply StronglySorted_inv in Hs as [Hs Hall].
  - destruct (key x <=? key y)%Z eqn:E; reflect_bools.
    + exists [x], l2. split; [done|]. simpl. apply insert_by_front.
      eapply Forall_impl; [exact Hall|]. unfold key_le. simpl. lia.
    + by exists [], (insert_by x l2).
  - case_test; [by exists (x :: z :: l1), l2|]. destruct (IH Hs) as (l1' & l2' & -> & ->).
    by exists (z :: l1'), l2'.
Qed.

Lemma sort_by_remove a y b :
  ∃ l1 l2, sort_by (a ++ y :: b) = l1 ++ y :: l2 ∧ sort_by (a ++ b) = l1 ++ l2.
Proof.
  induction a as [|x a (l1 & l2 & IH1 & IH2)]; cbn [app sort_by foldr].
  - destruct (insert_by_split y (sort_by b)) as (l1 & l2 & H & E). exists l1, l2. split; [exact H|exact E].
  - fold (sort_by (a ++ y :: b)) (sort_by (a ++ b)). rewrite IH1, IH2.
    apply insert_by_remove. rewrite <-IH1. apply sort_by_sorted.
Qed.
End sort_by.
#[export] Hint Resolve sort_by_perm sort_by_sorted : argus.

(** ** Clock readings *)

Lemma last_cons_default {A} (x d : A) l : List.last (x :: l) d = List.last l x.
Proof. revert x d. induction l as [|y l IH]; intros x d; [done|]. rewrite (IH y x). exact (IH y d). Qed.

(** A non-decreasing sequence of readings ends below its last one. *)
Lemma sorted_snoc t l now :
  StronglySorted Z.le (t :: l ++ [now]) → StronglySorted Z.le (t :: l) ∧ List.last l t <= now.
Proof.
  revert t. induction l as [|x l IH]; intros t H; simpl app in H; apply StronglySorted_inv in H as [Hs Hall].
  - split; [repeat constructor|]. by inversion Hall.
  - destruct (IH x Hs) as [Ha Hb]. split; [|by rewrite last_cons_default].
    constructor; [done|]. apply Forall_cons in Hall as [Htx Hrest]. constructor; [done|].
    by apply Forall_app in Hrest as [? _].
Qed.

(** ** Reachability *)

(** Reflexive transitive closure of a labelled step, as the list of labels. *)
Inductive steps {S L : Type} (step : S → L → S → Prop) : S → list L → S → Prop :=
  | steps_nil s : steps step s [] s
  | steps_cons s l s' ls s'' :
      step s l s' → steps step s' ls s'' → steps step s (l :: ls) s''.

Lemma steps_invariant {S L : Type} (step : S → L → S → Prop) (I : S → Prop) :
  (∀ s l s', I s → step s l s' → I s') →
  ∀ s ls s', steps step s ls s' → I s → I s'.
Proof. intros Hp s ls s'. induction 1; eauto. Qed.

Lemma steps_app {S L : Type} (step : S → L → S → Prop) s ls1 s' ls2 s'' :
  steps step s ls1 s' → steps step s' ls2 s'' → steps step s (ls1 ++ ls2) s''.
Proof. induction 1; simpl; eauto using steps_cons. Qed.
