(* ===== verification/PyDict.v ===== *)
(** * Python dictionaries and values

    [odict] is a Python [dict]: an association list in insertion order, where
    assigning to a present key keeps its position and [del] forgets it.  It is
    used wherever the source iterates over a dictionary and the order matters;
    where only look-ups matter the components use stdpp's [gmap].

    [pyval] are the JSON-like values the program passes around as [Any]. *)
From S2P Require Import Prelude.

Definition odict (K V : Type) : Type := list (K * V).

Section odict.
Context {K V : Type} `{!EqDecision K}.
Implicit Types (d : odict K V) (k : K) (v : V).

(** [d.get(k)] *)
Fixpoint dget (d : odict K V) (k : K) : option V :=
  match d with
  | [] => None
  | (k', v) :: d' => if decide (k' = k) then Some v else dget d' k
  end.

(** [d[k] = v] *)
Fixpoint dset (d : odict K V) (k : K) (v : V) : odict K V :=
  match d with
  | [] => [(k, v)]
  | (k', v') :: d' => if decide (k' = k) then (k', v) :: d' else (k', v') :: dset d' k v
  end.

(** [del d[k]] / [d.pop(k, None)] *)
Fixpoint ddel (d : odict K V) (k : K) : odict K V :=
  match d with
  | [] => []
  | (k', v') :: d' => if decide (k' = k) then d' else (k', v') :: ddel d' k
  end.

(** [d1.update(d2)] / [{**d1, **d2}] *)
Definition dupdate (d1 d2 : odict K V) : odict K V :=
  foldl (λ d kv, dset d kv.1 kv.2) d1 d2.

Definition dkeys (d : odict K V) : list K := d.*1.
Definition dvalues (d : odict K V) : list V := d.*2.
Definition dmem (d : odict K V) (k : K) : bool := bool_decide (is_Some (dget d k)).

(** A dictionary holds each key once. *)
Definition dict_wf (d : odict K V) : Prop := NoDup (dkeys d).

Lemma dget_dset d k v k' :
  dget (dset d k v) k' = if decide (k = k') then Some v else dget d k'.
Proof. induction d as [|[a b] d IH]; simpl; repeat (case_decide; simplify_eq/=); auto. Qed.

Lemma dget_dset_eq d k v : dget (dset d k v) k = Some v.
Proof. by rewrite dget_dset, decide_True. Qed.

Lemma dget_dset_ne d k v k' : k ≠ k' → dget (dset d k v) k' = dget d k'.
Proof. intros. by rewrite dget_dset, decide_False. Qed.

Lemma dget_Some_elem d k v : dget d k = Some v → (k, v) ∈ d.
Proof.
  induction d as [|[a b] d IH]; simpl; [done|].
  case_decide; intros; simplify_eq; [left|right; auto].
Qed.

Lemma dget_None d k : dget d k = None ↔ k ∉ dkeys d.
Proof.
  unfold dkeys. induction d as [|[a b] d IH]; simpl.
  - split; [intros _; apply not_elem_of_nil|done].
  - rewrite not_elem_of_cons. case_decide as Ha; simplify_eq; [split; [done|by intros [? ?]]|].
    rewrite IH. intuition congruence.
Qed.

Lemma dget_is_Some d k : is_Some (dget d k) ↔ k ∈ dkeys d.
Proof.
  rewrite <-not_eq_None_Some, dget_None. destruct (decide (k ∈ dkeys d)); tauto.
Qed.

Lemma elem_dget d k v : dict_wf d → (k, v) ∈ d → dget d k = Some v.
Proof.
  unfold dict_wf, dkeys. induction d as [|[a b] d IH]; simpl; [set_solver|].
  intros [Ha Hd]%NoDup_cons [?|Hin]%elem_of_cons; simplify_eq/=.
  - by rewrite decide_True.
  - rewrite decide_False; [auto|]. intros ->. apply Ha.
    apply list_elem_of_fmap. by exists (k, v).
Qed.

Lemma dkeys_dset d k v :
  dkeys (dset d k v) = if decide (k ∈ dkeys d) then dkeys d else dkeys d ++ [k].
Proof.
  unfold dkeys. induction d as [|[a b] d IH]; [done|]. cbn [dset].
  destruct (decide (a = k)) as [->|Ha]; csimpl.
  - rewrite decide_True; [done|]. apply elem_of_cons; auto.
  - rewrite IH. destruct (decide (k ∈ d.*1)).
    + rewrite decide_True; [done|]. apply elem_of_cons; auto.
    + rewrite decide_False; [done|]. by intros [?|?]%elem_of_cons.
Qed.

Lemma elem_dkeys_dset d k v k' : k' ∈ dkeys (dset d k v) ↔ k' = k ∨ k' ∈ dkeys d.
Proof. rewrite dkeys_dset. case_decide; set_solver. Qed.

(** A new key goes to the end. *)
Lemma dset_fresh d k v : k ∉ dkeys d → dset d k v = d ++ [(k, v)].
Proof.
  unfold dkeys. induction d as [|[a b] d IH]; simpl; [done|]. intros [Ha Hd]%not_elem_of_cons.
  rewrite decide_False by done. f_equal. by apply IH.
Qed.

Lemma dict_wf_nil : dict_wf [].
Proof. constructor. Qed.

Lemma dict_wf_dset d k v : dict_wf d → dict_wf (dset d k v).
Proof.
  unfold dict_wf. rewrite dkeys_dset. case_decide; [done|].
  intros Hd. apply NoDup_app. repeat split; [done|set_solver|apply NoDup_singleton].
Qed.

Lemma dkeys_ddel_sub d k k' : k' ∈ dkeys (ddel d k) → k' ∈ dkeys d.
Proof.
  unfold dkeys. induction d as [|[a b] d IH]; simpl; [done|].
  case_decide; set_solver.
Qed.

Lemma dict_wf_ddel d k : dict_wf d → dict_wf (ddel d k).
Proof.
  unfold dict_wf. induction d as [|[a b] d IH]; simpl; [done|].
  intros [Ha Hd]%NoDup_cons. case_decide; [done|].
  apply NoDup_cons. split; [|auto]. contradict Ha. by eapply dkeys_ddel_sub.
Qed.

Lemma dget_ddel d k k' :
  dict_wf d → dget (ddel d k) k' = if decide (k = k') then None else dget d k'.
Proof.
  unfold dict_wf. induction d as [|[a b] d IH]; simpl.
  - intros _. by case_decide.
  - intros [Ha Hd]%NoDup_cons. repeat (case_decide; simplify_eq/=); auto.
    by apply dget_None.
Qed.

Lemma dget_ddel_eq d k : dict_wf d → dget (ddel d k) k = None.
Proof. intros. by rewrite dget_ddel, decide_True. Qed.

Lemma dget_ddel_ne d k k' : dict_wf d → k ≠ k' → dget (ddel d k) k' = dget d k'.
Proof. intros. by rewrite dget_ddel, decide_False. Qed.

Lemma elem_dkeys_ddel d k k' : dict_wf d → k' ∈ dkeys (ddel d k) ↔ k' ∈ dkeys d ∧ k' ≠ k.
Proof.
  intros Hd. rewrite <-!dget_is_Some, dget_ddel by done.
  case_decide; simplify_eq; rewrite ?is_Some_alt; naive_solver.
Qed.

Lemma ddel_split d k v : dget d k = Some v → ∃ a b, d = a ++ (k, v) :: b ∧ ddel d k = a ++ b.
Proof.
  induction d as [|[k' v'] d IH]; simpl; [done|]. case_decide; intros; simplify_eq.
  - by exists [], d.
  - destruct IH as (a & b & -> & ->); [done|]. by exists ((k', v') :: a), b.
Qed.

Lemma dupdate_app d d1 d2 : dupdate d (d1 ++ d2) = dupdate (dupdate d d1) d2.
Proof. apply foldl_app. Qed.

Lemma dict_wf_dupdate d1 d2 : dict_wf d1 → dict_wf (dupdate d1 d2).
Proof.
  unfold dupdate. revert d1. induction d2 as [|[a b] d2 IH]; intros d1 H; simpl; [done|].
  apply IH. by apply dict_wf_dset.
Qed.

(** The right operand of an update wins. *)
Lemma dget_dupdate d1 d2 k :
  dict_wf d2 →
  dget (dupdate d1 d2) k = match dget d2 k with Some v => Some v | None => dget d1 k end.
Proof.
  unfold dupdate. revert d1. induction d2 as [|[a b] d2 IH]; intros d1 H; simpl; [done|].
  apply NoDup_cons in H as [Ha H]. rewrite IH by done. rewrite dget_dset.
  case_decide; simplify_eq; [|done].
  replace (dget d2 k) with (None : option V); [done|]. symmetry. by apply dget_None.
Qed.

Lemma elem_dkeys_dupdate d1 d2 k : k ∈ dkeys (dupdate d1 d2) ↔ k ∈ dkeys d1 ∨ k ∈ dkeys d2.
Proof.
  unfold dupdate, dkeys. revert d1. induction d2 as [|[a b] d2 IH]; intros d1; simpl; [set_solver|].
  rewrite IH. fold (dkeys (dset d1 a b)). rewrite elem_dkeys_dset. set_solver.
Qed.

Lemma dmem_spec d k : dmem d k = true ↔ k ∈ dkeys d.
Proof. unfold dmem. by rewrite bool_decide_eq_true, dget_is_Some. Qed.
End odict.
#[export] Hint Resolve dict_wf_nil dict_wf_dset dict_wf_ddel dict_wf_dupdate : argus.
#[export] Hint Rewrite @dget_dset_eq : argus.

(** ** JSON-like values *)

Inductive pyval :=
  | PNone
  | PBool (b : bool)
  | PInt (z : Z)
  | PStr (s : string)
  | PList (l : list pyval)
  | PDict (d : list (string * pyval)).

(** Induction principle that goes under lists and dictionaries. *)
Section pyval_ind.
Context (P : pyval → Prop).
Hypothesis (Hnone : P PNone) (Hbool : ∀ b, P (PBool b)) (Hint : ∀ z, P (PInt z))
  (Hstr : ∀ s, P (PStr s))
  (Hlist : ∀ l, Forall P l → P (PList l))
  (Hdict : ∀ d, Forall (λ kv, P kv.2) d → P (PDict d)).

Fixpoint pyval_nested_ind (v : pyval) : P v :=
  match v with
  | PNone => Hnone
  | PBool b => Hbool b
  | PInt z => Hint z
  | PStr s => Hstr s
  | PList l => Hlist l ((fix go l : Forall P l :=
      match l with
      | [] => Forall_nil_2 _
      | x :: l' => Forall_cons_2 _ x l' (pyval_nested_ind x) (go l')
      end) l)
  | PDict d => Hdict d ((fix go d : Forall (λ kv, P kv.2) d :=
      match d with
      | [] => Forall_nil_2 _
      | kv :: d' => Forall_cons_2 (λ kv, P kv.2) kv d' (pyval_nested_ind kv.2) (go d')
      end) d)
  end.
End pyval_ind.

(** The number of containers around the innermost value. *)
Fixpoint height (v : pyval) : Z :=
  match v with
  | PDict d => (fix go (d : list (string * pyval)) : Z :=
      match d with [] => 0 | (_, v) :: d' => Z.max (1 + height v) (go d') end) d
  | PList l => (fix go (l : list pyval) : Z :=
      match l with [] => 0 | v :: l' => Z.max (1 + height v) (go l') end) l
  | _ => 0
  end.

Lemma height_list_cons v l : height (PList (v :: l)) = Z.max (1 + height v) (height (PList l)).
Proof. done. Qed.
Lemma height_dict_cons k v d : height (PDict ((k, v) :: d)) = Z.max (1 + height v) (height (PDict d)).
Proof. done. Qed.

Lemma height_nonneg v : 0 <= height v.
Proof.
  induction v as [| | | |l IH|d IH] using pyval_nested_ind; try (simpl; lia).
  - induction IH as [|v l Hv _ IHl]; simpl in *; lia.
  - induction IH as [|[k v] d Hv _ IHd]; simpl in *; lia.
Qed.

(** Python truthiness, [bool(v)]. *)
Definition truthy (v : pyval) : bool :=
  match v with
  | PNone => false
  | PBool b => b
  | PInt z => negb (z =? 0)
  | PStr s => negb (bool_decide (s = ""))
  | PList l => negb (bool_decide (l = []))
  | PDict d => match d with [] => false | _ => true end
  end.

(** [a or b] *)
Definition py_or (a b : pyval) : pyval := if truthy a then a else b.
(** [d.get(k, default)] *)
Definition get_or (d : list (string * pyval)) (k : string) (v : pyval) : pyval := default v (dget d k).
(** A number, as Python's arithmetic sees it. *)
Definition as_num (v : pyval) : option Z :=
  match v with PInt z => Some z | PBool b => Some (if b then 1 else 0) | _ => None end.

(** [bool(x)] of an optional string: present and not empty. *)
Definition str_truthy (s : option string) : bool :=
  match s with Some s => negb (bool_decide (s = "")) | None => false end.

(** [s or default] *)
Definition str_or (s : option string) (default : string) : string :=
  match s with Some s => if bool_decide (s = "") then default else s | None => default end.
