(* ===== verification/Effects.v ===== *)
(** * Effects: state and exceptions

    Python code that mutates objects and raises is modelled in the monad
    [M S E A = S → (E + A) * S]: an exception does not roll the state back, as
    in Python.  [try_except] is [try: … except]; [finally_] is [try: … finally]. *)
From S2P Require Import Prelude.

Definition M (S E A : Type) : Type := S → (E + A) * S.

Section monad.
Context {S E : Type}.

#[global] Instance M_ret : MRet (M S E) := λ A a s, (inr a, s).
#[global] Instance M_bind : MBind (M S E) := λ A B k m s,
  match m s with
  | (inl e, s') => (inl e, s')
  | (inr a, s') => k a s'
  end.

Definition raise {A} (e : E) : M S E A := λ s, (inl e, s).
Definition get_state : M S E S := λ s, (inr s, s).
Definition put_state (s : S) : M S E () := λ _, (inr (), s).
Definition modify (f : S → S) : M S E () := λ s, (inr (), f s).

(** [try: m  except E as e: h e] *)
Definition try_except {A} (m : M S E A) (h : E → M S E A) : M S E A := λ s,
  match m s with
  | (inl e, s') => h e s'
  | (inr a, s') => (inr a, s')
  end.

(** [try: m  finally: fin] where [fin] does not raise. *)
Definition finally_ {A} (m : M S E A) (fin : S → S) : M S E A := λ s,
  let '(r, s') := m s in (r, fin s').

(** Two computations that agree on every state. *)
Definition M_eq {A} (m1 m2 : M S E A) : Prop := ∀ s, m1 s = m2 s.

#[global] Instance M_eq_equiv {A} : Equivalence (@M_eq A).
Proof. split; unfold M_eq; [done|by intros ?? H s|intros ??? H1 H2 s; by rewrite H1]. Qed.

#[global] Instance M_bind_proper {A B} :
  Proper (pointwise_relation A (@M_eq B) ==> @M_eq A ==> @M_eq B) (@mbind (M S E) _ A B).
Proof.
  intros k1 k2 Hk m1 m2 Hm s. unfold mbind, M_bind. rewrite (Hm s).
  destruct (m2 s) as [[e|a] s']; [done|]. apply Hk.
Qed.

#[global] Instance try_except_proper {A} :
  Proper (@M_eq A ==> pointwise_relation E (@M_eq A) ==> @M_eq A) try_except.
Proof.
  intros m1 m2 Hm h1 h2 Hh s. unfold try_except. rewrite (Hm s).
  destruct (m2 s) as [[e|a] s']; [apply Hh|done].
Qed.

Lemma bind_ret_l {A B} (a : A) (k : A → M S E B) : M_eq (mret a ≫= k) (k a).
Proof. done. Qed.

Lemma bind_ret_r {A} (m : M S E A) : M_eq (m ≫= mret) m.
Proof. intros s. unfold mbind, M_bind. by destruct (m s) as [[]]. Qed.

Lemma bind_assoc {A B C} (m : M S E A) (k : A → M S E B) (h : B → M S E C) :
  M_eq ((m ≫= k) ≫= h) (m ≫= λ a, k a ≫= h).
Proof. intros s. unfold mbind, M_bind. by destruct (m s) as [[]]. Qed.

(** Running the first step of a computation. *)
Lemma run_get {A} (k : S → M S E A) s : (get_state ≫= k) s = k s s.
Proof. done. Qed.
Lemma run_modify {A} f (k : () → M S E A) s : (modify f ≫= k) s = k () (f s).
Proof. done. Qed.
Lemma run_bind {A B} (m : M S E A) (k : A → M S E B) s :
  (m ≫= k) s = match m s with (inl e, s') => (inl e, s') | (inr a, s') => k a s' end.
Proof. done. Qed.

Lemma bind_raise {A B} (e : E) (k : A → M S E B) : M_eq (raise e ≫= k) (raise e).
Proof. done. Qed.

Lemma try_except_ret {A} (a : A) (h : E → M S E A) : M_eq (try_except (mret a) h) (mret a).
Proof. done. Qed.

Lemma try_except_raise {A} (e : E) (h : E → M S E A) : M_eq (try_except (raise e) h) (h e).
Proof. done. Qed.

(** A handler that never raises makes the whole statement total. *)
Lemma try_except_total {A} (m : M S E A) (h : E → M S E A) :
  (∀ e s, ∃ a s', h e s = (inr a, s')) →
  ∀ s, ∃ a s', try_except m h s = (inr a, s').
Proof.
  intros Hh s. unfold try_except. destruct (m s) as [[e|a] s']; eauto.
Qed.
End monad.

(** Unfold the plumbing of the monad in a goal or hypothesis. *)
Ltac unfold_M :=
  repeat (unfold mbind, M_bind, mret, M_ret, raise, get_state, put_state, modify,
          try_except, finally_ in *; simpl in *).

(** ** Errors only *)

#[export] Instance sum_ret {E} : MRet (sum E) := λ A a, inr a.
#[export] Instance sum_bind {E} : MBind (sum E) := λ A B k m,
  match m with inl e => inl e | inr a => k a end.

(** A bind that succeeds ran both of its parts. *)
Lemma sum_bind_inr {E A B} (m : E + A) (k : A → E + B) b :
  (m ≫= k) = inr b ↔ ∃ a, m = inr a ∧ k a = inr b.
Proof. destruct m; unfold mbind, sum_bind; naive_solver. Qed.

(** Take the first step of a successful computation apart. *)
Tactic Notation "peel" hyp(H) "as" ident(x) ident(E) := apply sum_bind_inr in H as (x & E & H).

(** [for x in l: check(x)] where a check may raise *)
Fixpoint check_each {E A} (f : A → E + unit) (l : list A) : E + unit :=
  match l with [] => inr tt | x :: l' => _ ← f x; check_each f l' end.

Lemma check_each_inr {E A} (f : A → E + unit) l u :
  check_each f l = inr u ↔ Forall (λ x, f x = inr tt) l.
Proof.
  destruct u. induction l as [|x l IH]; simpl; [by split|].
  rewrite sum_bind_inr, Forall_cons, <-IH. split; [by intros ([] & ? & ?)|]. intros [-> ?]. by exists tt.
Qed.

(** [[f(x) for x in l]] where [f] may raise *)
Fixpoint map_each {E A B} (f : A → E + B) (l : list A) : E + list B :=
  match l with
  | [] => inr []
  | x :: l' => y ← f x; ys ← map_each f l'; inr (y :: ys)
  end.

Lemma map_each_inr {E A B} (f : A → E + B) l ys : map_each f l = inr ys ↔ Forall2 (λ x y, f x = inr y) l ys.
Proof.
  revert ys. induction l as [|x l IH]; intros ys; simpl.
  - split; [intros [= <-]; constructor|by intros ->%Forall2_nil_inv_l].
  - rewrite sum_bind_inr. split.
    + intros (y & Hy & (zs & Hzs & [= <-])%sum_bind_inr). constructor; [done|by apply IH].
    + intros (y & zs & Hy & Hzs & ->)%Forall2_cons_inv_l. exists y. split; [done|].
      apply sum_bind_inr. exists zs. split; [by apply IH|done].
Qed.

(** Writing and reading back, element by element. *)
Lemma map_each_inverse {E A B} (f : A → E + B) (g : B → E + A) l :
  Forall (λ x, ∃ y, f x = inr y ∧ g y = inr x) l → ∃ ys, map_each f l = inr ys ∧ map_each g ys = inr l.
Proof.
  intros H. induction H as [|x l (y & Hf & Hg) _ (ys & Hfs & Hgs)]; [by exists []|]. exists (y :: ys). simpl.
  by rewrite Hf, Hg; unfold mbind, sum_bind; rewrite Hfs, Hgs.
Qed.
