(* ===== verification/Glob.v ===== *)
(** * Shell-style patterns

    A model of Python's [fnmatch.fnmatch] on a POSIX system (where
    [os.path.normcase] is the identity), the standard-library function that
    capability filters and authorization policies match names with.  Names are
    lists of 8-bit characters.  [*] matches any sequence, [?] any character,
    [[seq]] and [[!seq]] character sets with ranges; an unclosed bracket is a
    literal. *)
From S2P Require Import Prelude.
From Stdlib Require Import Ascii.
From Stdlib Require String.
Abbreviation list_ascii_of_string := Stdlib.Strings.String.list_ascii_of_string.
Abbreviation string_of_list_ascii := Stdlib.Strings.String.string_of_list_ascii.

Inductive gtok :=
  | GStar
  | GAny
  | GLit (c : ascii)
  | GSet (neg : bool) (items : list (ascii * ascii)).

#[export] Instance gtok_eq_dec : EqDecision gtok.
Proof. solve_decision. Defined.

Local Open Scope char_scope.

(** The text before the first closing bracket, and the text after it. *)
Fixpoint until_bracket (p : list ascii) : option (list ascii * list ascii) :=
  match p with
  | [] => None
  | "]" :: r => Some ([], r)
  | c :: r =>
      match until_bracket r with
      | Some (b, r') => Some (c :: b, r')
      | None => None
      end
  end.

(** Body of a set: a closing bracket in first position is a member. *)
Definition set_body (p : list ascii) : option (list ascii * list ascii) :=
  match p with
  | "]" :: r =>
      match until_bracket r with Some (b, r') => Some ("]" :: b, r') | None => None end
  | _ => until_bracket p
  end.

Fixpoint set_items (b : list ascii) : list (ascii * ascii) :=
  match b with
  | [] => []
  | lo :: (("-" :: hi :: r) as r') => (lo, hi) :: set_items r
  | c :: r => (c, c) :: set_items r
  end.

Definition parse_set (p : list ascii) : option (gtok * list ascii) :=
  match p with
  | "!" :: p' =>
      match set_body p' with Some (b, r) => Some (GSet true (set_items b), r) | None => None end
  | _ =>
      match set_body p with Some (b, r) => Some (GSet false (set_items b), r) | None => None end
  end.

(** Tokens of a pattern; the fuel is the length of what is left to read. *)
Fixpoint parse_glob (fuel : nat) (p : list ascii) : list gtok :=
  match fuel, p with
  | O, _ | _, [] => []
  | S n, "*" :: r => GStar :: parse_glob n r
  | S n, "?" :: r => GAny :: parse_glob n r
  | S n, "[" :: r =>
      match parse_set r with
      | Some (t, r') => t :: parse_glob n r'
      | None => GLit "[" :: parse_glob n r
      end
  | S n, c :: r => GLit c :: parse_glob n r
  end.

Definition in_range (c : ascii) (i : ascii * ascii) : bool :=
  (N_of_ascii i.1 <=? N_of_ascii c)%N && (N_of_ascii c <=? N_of_ascii i.2)%N.

Definition tok_matches (t : gtok) (c : ascii) : bool :=
  match t with
  | GStar | GAny => true
  | GLit a => bool_decide (a = c)
  | GSet neg items => xorb neg (existsb (in_range c) items)
  end.

Fixpoint gmatch (ts : list gtok) (s : list ascii) : bool :=
  match ts with
  | [] => match s with [] => true | _ => false end
  | GStar :: ts' =>
      (fix star (s : list ascii) : bool :=
         gmatch ts' s || match s with [] => false | _ :: s' => star s' end) s
  | t :: ts' =>
      match s with [] => false | c :: s' => tok_matches t c && gmatch ts' s' end
  end.

Definition glob_tokens (pat : string) : list gtok :=
  let p := list_ascii_of_string pat in parse_glob (length p) p.

(** [fnmatch.fnmatch(name, pat)] *)
Definition fnmatch (name pat : string) : bool :=
  gmatch (glob_tokens pat) (list_ascii_of_string name).

(** ** The fuel of the tokenizer is enough. *)

Lemma until_bracket_shorter p b r : until_bracket p = Some (b, r) → (length r < length p)%nat.
Proof.
  revert b r. induction p as [|c p IH]; intros b r; [done|].
  assert ((if ascii_dec c "]" then Some ([], p) else
            match until_bracket p with Some (b, r') => Some (c :: b, r') | None => None end) =
          Some (b, r) → (length r < length (c :: p))%nat) as H.
  { destruct (ascii_dec c "]"); [intros; simplify_eq/=; lia|].
    destruct (until_bracket p) as [[b' r']|]; [|done]. intros; simplify_eq/=.
    specialize (IH _ _ eq_refl). lia. }
  intros E. apply H. rewrite <-E. destruct c as [[][][][][][][][]]; reflexivity.
Qed.

Lemma set_body_shorter p b r : set_body p = Some (b, r) → (length r < length p)%nat.
Proof.
  destruct p as [|c p]; [done|].
  assert (set_body (c :: p) = if ascii_dec c "]" then
    match until_bracket p with Some (b, r') => Some ("]" :: b, r') | None => None end
    else until_bracket (c :: p)) as -> by (destruct c as [[][][][][][][][]]; reflexivity).
  destruct (ascii_dec c "]"); [|apply until_bracket_shorter].
  destruct (until_bracket p) as [[b' r']|] eqn:E; [|done]. intros; simplify_eq/=.
  apply until_bracket_shorter in E. lia.
Qed.

Lemma parse_set_shorter p t r : parse_set p = Some (t, r) → (length r < length p)%nat.
Proof.
  destruct p as [|c p]; [done|].
  assert (parse_set (c :: p) = if ascii_dec c "!" then
    match set_body p with Some (b, r) => Some (GSet true (set_items b), r) | None => None end
    else match set_body (c :: p) with Some (b, r) => Some (GSet false (set_items b), r) | None => None end)
    as -> by (destruct c as [[][][][][][][][]]; reflexivity).
  destruct (ascii_dec c "!").
  - destruct (set_body p) as [[b' r']|] eqn:E; [|done]. intros; simplify_eq/=.
    apply set_body_shorter in E. lia.
  - destruct (set_body (c :: p)) as [[b' r']|] eqn:E; [|done]. intros; simplify_eq.
    by apply set_body_shorter in E.
Qed.

Lemma parse_glob_fuel n m p :
  (length p ≤ n)%nat → (length p ≤ m)%nat → parse_glob n p = parse_glob m p.
Proof.
  revert m p. induction n as [|n IH]; intros m [|c p] Hn Hm; simpl in Hn; try lia; [by destruct m..|].
  destruct m as [|m]; simpl in Hm; [lia|].
  assert (parse_glob n p = parse_glob m p) as Hp by (apply IH; lia).
  cbn [parse_glob]. rewrite Hp. destruct (parse_set p) as [[t r]|] eqn:E; [|done].
  apply parse_set_shorter in E. by rewrite (IH m r) by lia.
Qed.

(** ** Denotation of a token list, and correctness of the matcher. *)

Inductive denotes : list gtok → list ascii → Prop :=
  | denotes_nil : denotes [] []
  | denotes_star ts s1 s2 : denotes ts s2 → denotes (GStar :: ts) (s1 ++ s2)
  | denotes_char t ts c s :
      t ≠ GStar → tok_matches t c = true → denotes ts s → denotes (t :: ts) (c :: s).

Lemma gmatch_star ts s :
  gmatch (GStar :: ts) s = gmatch ts s || match s with [] => false | _ :: s' => gmatch (GStar :: ts) s' end.
Proof. by destruct s. Qed.

Lemma gmatch_sound ts s : gmatch ts s = true → denotes ts s.
Proof.
  revert s. induction ts as [|t ts IH]; intros s.
  - destruct s; [constructor|done].
  - destruct (decide_rel eq t GStar) as [->|Ht]; [|destruct s as [|c s]; intros H;
      [by destruct t|]; assert (tok_matches t c && gmatch ts s = true) as [? ?]%andb_true_iff
      by (by destruct t); apply denotes_char; auto].
    induction s as [|c s IHs]; rewrite gmatch_star; intros [H|H]%orb_true_iff; try done.
    + apply (denotes_star ts [] []). by apply IH.
    + apply (denotes_star ts [] (c :: s)). by apply IH.
    + specialize (IHs H). inversion IHs; simplify_eq.
      by apply (denotes_star ts (c :: s1) s2).
Qed.

Lemma gmatch_complete ts s : denotes ts s → gmatch ts s = true.
Proof.
  induction 1 as [|ts s1 s2 _ IH|t ts c s Ht Hc _ IH]; [done| |].
  - induction s1 as [|c s1 IHs]; rewrite gmatch_star; [by rewrite app_nil_l, IH|].
    rewrite orb_true_iff. right. exact IHs.
  - destruct t; try done; simpl in *; by rewrite Hc, IH.
Qed.

Lemma gmatch_spec ts s : gmatch ts s = true ↔ denotes ts s.
Proof. split; [apply gmatch_sound|apply gmatch_complete]. Qed.

(** ** Patterns without special characters, and prefixes. *)

Definition plain_char (c : ascii) : bool :=
  negb (bool_decide (c ∈ ["*"; "?"; "["])).

Definition plain (s : string) : bool := forallb plain_char (list_ascii_of_string s).

Lemma parse_plain p rest n :
  forallb plain_char p = true → (length p ≤ n)%nat →
  parse_glob n (p ++ rest) = (GLit <$> p) ++ parse_glob (n - length p) rest.
Proof.
  revert n. induction p as [|c p IH]; intros n Hp Hn; simpl.
  - by rewrite Nat.sub_0_r.
  - simpl in Hp. apply andb_true_iff in Hp as [Hc Hp]. destruct n as [|n]; simpl in *; [lia|].
    rewrite <-IH by (done || lia). unfold plain_char in Hc. reflect_bools.
    assert (c ≠ "*" ∧ c ≠ "?" ∧ c ≠ "[") as (H1 & H2 & H3).
    { repeat split; intros ->; apply Hc; set_solver. }
    destruct c as [[] [] [] [] [] [] [] []]; try done.
Qed.

Lemma gmatch_lits p ts s :
  gmatch ((GLit <$> p) ++ ts) s = true ↔ ∃ s', s = p ++ s' ∧ gmatch ts s' = true.
Proof.
  revert s. induction p as [|c p IH]; intros s; simpl; [naive_solver|].
  destruct s as [|c' s]; [naive_solver|].
  rewrite andb_true_iff, IH, bool_decide_eq_true. naive_solver.
Qed.

Lemma string_ascii_inj s1 s2 : list_ascii_of_string s1 = list_ascii_of_string s2 → s1 = s2.
Proof.
  intros H. rewrite <-(String.string_of_list_ascii_of_string s1), <-(String.string_of_list_ascii_of_string s2).
  by rewrite H.
Qed.

Lemma fnmatch_plain name pat : plain pat = true → fnmatch name pat = true ↔ name = pat.
Proof.
  intros Hp. unfold fnmatch, glob_tokens. set (p := list_ascii_of_string pat).
  pose proof (parse_plain p [] (length p) Hp (le_n _)) as Hparse.
  rewrite app_nil_r in Hparse. rewrite Hparse, gmatch_lits, Nat.sub_diag. simpl.
  split.
  - intros (s' & Hs & Hm). destruct s'; [|done]. rewrite app_nil_r in Hs.
    by apply string_ascii_inj.
  - intros ->. exists []. by rewrite app_nil_r.
Qed.

Lemma gmatch_all s : gmatch [GStar] s = true.
Proof. apply gmatch_spec. rewrite <-(app_nil_r s). repeat constructor. Qed.

Lemma fnmatch_star name : fnmatch name "*"%string = true.
Proof.
  exact (gmatch_all (list_ascii_of_string name)).
Qed.

Lemma list_ascii_app s1 s2 :
  list_ascii_of_string (s1 +:+ s2) = list_ascii_of_string s1 ++ list_ascii_of_string s2.
Proof. induction s1 as [|c s1 IH]; simpl; [done|]. by rewrite IH. Qed.

(** ["tool:read_*"]: a plain prefix followed by a star matches its extensions. *)
Lemma fnmatch_prefix name pre :
  plain pre = true → fnmatch name (pre +:+ "*"%string) = true ↔ ∃ s, name = pre +:+ s.
Proof.
  intros Hp. unfold fnmatch, glob_tokens. rewrite list_ascii_app.
  rewrite parse_plain; [|done|rewrite length_app; simpl; lia].
  rewrite length_app. simpl. replace (_ + 1 - _)%nat with 1%nat by lia. simpl.
  rewrite gmatch_lits. split.
  - intros (s' & Hs & _). exists (string_of_list_ascii s'). apply string_ascii_inj.
    by rewrite list_ascii_app, String.list_ascii_of_string_of_list_ascii.
  - intros (s & ->). exists (list_ascii_of_string s). split; [apply list_ascii_app|].
    exact (gmatch_all _).
Qed.

Section examples.
Local Open Scope string_scope.
Example fnmatch_range : fnmatch "b7" "[a-c][!0-5]" = true. Proof. reflexivity. Qed.
Example fnmatch_unclosed : fnmatch "[x" "[x" = true. Proof. reflexivity. Qed.
Example fnmatch_empty_range : fnmatch "x" "[z-a]" = false. Proof. reflexivity. Qed.
Example fnmatch_mid : fnmatch "db_query_all" "db_*_a?l" = true. Proof. reflexivity. Qed.
Example fnmatch_bracket : fnmatch "]" "[]]" = true. Proof. reflexivity. Qed.
End examples.
