(* ===== verification/PyStr.v ===== *)
(** * Python strings

    The methods of [str] that the components below use, on strings of 8-bit
    characters: prefixes and suffixes, trimming, case, replacement, splitting,
    and the sorting of names.  Case mapping is that of the ASCII letters; other
    characters are left alone. *)
From S2P Require Import Prelude Glob.
From stdpp Require Export sorting pretty.
From Stdlib Require Import Ascii.
#[global] Open Scope Z_scope.

Abbreviation chars := list_ascii_of_string (only parsing).
Abbreviation text := string_of_list_ascii (only parsing).

Lemma chars_text l : chars (text l) = l.
Proof. apply Stdlib.Strings.String.list_ascii_of_string_of_list_ascii. Qed.
Lemma text_chars s : text (chars s) = s.
Proof. apply Stdlib.Strings.String.string_of_list_ascii_of_string. Qed.
Lemma chars_inj s1 s2 : chars s1 = chars s2 → s1 = s2.
Proof. intros H. by rewrite <-(text_chars s1), H, text_chars. Qed.
Lemma text_inj l1 l2 : text l1 = text l2 → l1 = l2.
Proof. intros H. by rewrite <-(chars_text l1), H, chars_text. Qed.
Lemma chars_app s1 s2 : chars (s1 +:+ s2) = chars s1 ++ chars s2.
Proof. induction s1 as [|c s1 IH]; simpl; [done|]. by rewrite IH. Qed.
Lemma text_app l1 l2 : text (l1 ++ l2) = text l1 +:+ text l2.
Proof. apply chars_inj. by rewrite chars_app, !chars_text. Qed.
Create Rewrite HintDb pystr.
#[export] Hint Rewrite chars_text text_chars chars_app : pystr.

(** [len(s)] *)
Definition strlen (s : string) : Z := Z.of_nat (length (chars s)).

(** [s.startswith(p)], [s.endswith(p)], [p in s] *)
Definition startswith (s p : string) : bool := bool_decide (chars p `prefix_of` chars s).
Definition endswith (s p : string) : bool := bool_decide (chars p `suffix_of` chars s).
Fixpoint contains_at (p l : list ascii) : bool :=
  bool_decide (p `prefix_of` l) ||
  match l with [] => false | _ :: l' => contains_at p l' end.
Definition contains (s p : string) : bool := contains_at (chars p) (chars s).

Lemma startswith_app s p : startswith s p = true ↔ ∃ r, s = p +:+ r.
Proof.
  unfold startswith. rewrite bool_decide_eq_true. split.
  - intros [r Hr]. exists (text r). apply chars_inj. by rewrite chars_app, chars_text.
  - intros [r ->]. exists (chars r). by rewrite chars_app.
Qed.

Lemma endswith_app s p : endswith s p = true ↔ ∃ r, s = r +:+ p.
Proof.
  unfold endswith. rewrite bool_decide_eq_true. split.
  - intros [r Hr]. exists (text r). apply chars_inj. by rewrite chars_app, chars_text.
  - intros [r ->]. exists (chars r). by rewrite chars_app.
Qed.

Lemma contains_at_spec p l : contains_at p l = true ↔ ∃ a b, l = a ++ p ++ b.
Proof.
  induction l as [|c l IH]; simpl; rewrite orb_true_iff, bool_decide_eq_true.
  - split; [intros [[b Hb]|?]; [by exists [], b|done]|].
    intros (a & b & E). left. exists b. destruct a; done.
  - rewrite IH. split.
    + intros [[b Hb]|(a & b & ->)]; [by exists [], b|by exists (c :: a), b].
    + intros ([|c' a] & b & E); [left; by exists b|].
      right. injection E as -> ->. by exists a, b.
Qed.

(** [s[n:]] and [s[:n]] for a non-negative [n] *)
Definition drop_chars (n : nat) (s : string) : string := text (drop n (chars s)).
Definition take_chars (n : nat) (s : string) : string := text (take n (chars s)).

Lemma drop_chars_app p s : drop_chars (length (chars p)) (p +:+ s) = s.
Proof. unfold drop_chars. by rewrite chars_app, drop_app_length, text_chars. Qed.

(** [l.strip()] for the blanks of ASCII, and [rstrip] of a set of characters *)
Definition is_blank_char (c : ascii) : bool :=
  let n := nat_of_ascii c in (Nat.leb 9 n && Nat.leb n 13) || (Nat.leb 28 n && Nat.leb n 32).
Fixpoint drop_while (f : ascii → bool) (l : list ascii) : list ascii :=
  match l with [] => [] | c :: l' => if f c then drop_while f l' else l end.
Definition rstrip_chars (f : ascii → bool) (l : list ascii) : list ascii :=
  reverse (drop_while f (reverse l)).
Definition str_strip (s : string) : string :=
  text (rstrip_chars is_blank_char (drop_while is_blank_char (chars s))).
Definition rstrip_by (f : ascii → bool) (s : string) : string := text (rstrip_chars f (chars s)).

Lemma drop_while_split f l : ∃ a, l = a ++ drop_while f l ∧ Forall (λ c, f c = true) a.
Proof.
  induction l as [|c l (a & E & Ha)]; simpl; [by exists []|].
  destruct (f c) eqn:Hc; [|by exists []]. exists (c :: a). simpl. rewrite <-E. by auto.
Qed.

Lemma drop_while_idemp f l : drop_while f (drop_while f l) = drop_while f l.
Proof.
  induction l as [|c l IH]; simpl; [done|]. destruct (f c) eqn:Hc; [done|]. simpl. by rewrite Hc.
Qed.

Lemma rstrip_chars_split f l : ∃ b, l = rstrip_chars f l ++ b ∧ Forall (λ c, f c = true) b.
Proof.
  unfold rstrip_chars. destruct (drop_while_split f (reverse l)) as (a & E & Ha).
  exists (reverse a). split; [|by apply Forall_reverse]. rewrite <-reverse_app, <-E.
  by rewrite reverse_involutive.
Qed.

Lemma rstrip_chars_keep f l c : f c = false → rstrip_chars f (l ++ [c]) = l ++ [c].
Proof.
  intros Hc. unfold rstrip_chars. rewrite reverse_app. simpl. rewrite Hc.
  by rewrite reverse_cons, reverse_involutive.
Qed.

Lemma rstrip_idemp f l : rstrip_chars f (rstrip_chars f l) = rstrip_chars f l.
Proof. unfold rstrip_chars. by rewrite reverse_involutive, drop_while_idemp. Qed.

Lemma drop_while_head f l : match drop_while f l with c :: _ => f c = false | [] => True end.
Proof. induction l as [|c l IH]; simpl; [done|]. by destruct (f c) eqn:Hc. Qed.

Lemma drop_while_rstrip f l :
  match l with c :: _ => f c = false | [] => True end → drop_while f (rstrip_chars f l) = rstrip_chars f l.
Proof.
  intros Hl. destruct (rstrip_chars_split f l) as (b & E & Hb).
  destruct (rstrip_chars f l) as [|c r] eqn:Er; [done|]. simpl in E. rewrite E in Hl. simpl. by rewrite Hl.
Qed.

Lemma str_strip_idemp s : str_strip (str_strip s) = str_strip s.
Proof.
  unfold str_strip. rewrite chars_text, drop_while_rstrip by apply drop_while_head. by rewrite rstrip_idemp.
Qed.

(** ** Classes of characters *)

Definition code (c : ascii) : nat := nat_of_ascii c.
Definition is_char (n : nat) (c : ascii) : bool := Nat.eqb (code c) n.

(** [a-zA-Z0-9_] *)
Definition is_word (c : ascii) : bool :=
  let n := code c in
  (Nat.leb 97 n && Nat.leb n 122) || (Nat.leb 65 n && Nat.leb n 90) ||
  (Nat.leb 48 n && Nat.leb n 57) || Nat.eqb n 95.
(** The ASCII characters of [\s]. *)
Definition is_space (c : ascii) : bool :=
  let n := code c in (Nat.leb 9 n && Nat.leb n 13) || (Nat.leb 28 n && Nat.leb n 32).

Fixpoint span (f : ascii → bool) (l : list ascii) : list ascii * list ascii :=
  match l with
  | [] => ([], [])
  | c :: l' => if f c then let '(a, b) := span f l' in (c :: a, b) else ([], l)
  end.

Lemma is_char_eq n c : is_char n c = true → c = ascii_of_nat n.
Proof. unfold is_char, code. intros H%Nat.eqb_eq. by rewrite <-H, ascii_nat_embedding. Qed.

Lemma span_app f l : l = (span f l).1 ++ (span f l).2 ∧ Forall (λ c, f c = true) (span f l).1 ∧
  match (span f l).2 with c :: _ => f c = false | [] => True end.
Proof.
  induction l as [|c l (E & Ha & Hb)]; simpl; [done|]. destruct (f c) eqn:Hc; [|done].
  destruct (span f l) as [a b]. simpl in *. split_and!; [by rewrite E|by constructor|done].
Qed.

Lemma span_all f a c b : Forall (λ c, f c = true) a → f c = false → span f (a ++ c :: b) = (a, c :: b).
Proof. induction 1 as [|x a Hx _ IH]; intros Hc; simpl; [by rewrite Hc|]. by rewrite Hx, IH. Qed.

(** [s.lower()], [s.upper()], [s.replace(a, b)] for single characters *)
Definition lower_char (c : ascii) : ascii :=
  let n := nat_of_ascii c in if Nat.leb 65 n && Nat.leb n 90 then ascii_of_nat (n + 32) else c.
Definition upper_char (c : ascii) : ascii :=
  let n := nat_of_ascii c in if Nat.leb 97 n && Nat.leb n 122 then ascii_of_nat (n - 32) else c.
Definition lower (s : string) : string := text (lower_char <$> chars s).
Definition upper (s : string) : string := text (upper_char <$> chars s).
Definition swap_char (a b c : ascii) : ascii := if bool_decide (c = a) then b else c.
Definition replace_char (a b : ascii) (s : string) : string := text (swap_char a b <$> chars s).

Lemma lower_idemp s : lower (lower s) = lower s.
Proof.
  unfold lower. rewrite chars_text, <-list_fmap_compose. f_equal. apply list_fmap_ext.
  intros _ c _. destruct c as [[] [] [] [] [] [] [] []]; reflexivity.
Qed.

(** [s.split(c)]: the pieces between the occurrences of a separator *)
Fixpoint split_on (c : ascii) (l : list ascii) : list (list ascii) :=
  match l with
  | [] => [[]]
  | x :: l' =>
      if bool_decide (x = c) then [] :: split_on c l'
      else match split_on c l' with p :: ps => (x :: p) :: ps | [] => [[x]] end
  end.
Definition str_split (c : ascii) (s : string) : list string := text <$> split_on c (chars s).

(** [c.join(parts)] *)
Fixpoint join_with (c : ascii) (ps : list (list ascii)) : list ascii :=
  match ps with
  | [] => []
  | [p] => p
  | p :: ps' => p ++ c :: join_with c ps'
  end.
(** A line feed. *)
Definition nl : string := String (ascii_of_nat 10) "".

Definition str_join (sep : string) (l : list string) : string :=
  match l with [] => "" | x :: l' => foldl (λ acc s, acc +:+ sep +:+ s) x l' end.

Lemma split_on_cons c l : ∃ p ps, split_on c l = p :: ps.
Proof.
  destruct l as [|x l]; simpl; [eauto|]. case_bool_decide; [eauto|].
  destruct (split_on c l); eauto.
Qed.

Lemma join_split c l : join_with c (split_on c l) = l.
Proof.
  induction l as [|x l IH]; simpl; [done|]. destruct (split_on_cons c l) as (p & ps & E).
  rewrite E in IH |- *. case_bool_decide as Hx.
  - rewrite Hx. simpl in *. by rewrite IH.
  - simpl in *. destruct ps; by rewrite <-IH.
Qed.

Lemma split_on_no_sep c l : Forall (λ p, c ∉ p) (split_on c l).
Proof.
  induction l as [|x l IH]; simpl; [repeat constructor; set_solver|].
  case_bool_decide as Hx; [constructor; [set_solver|done]|].
  destruct (split_on c l) as [|p ps]; [repeat constructor; set_solver|].
  apply Forall_cons in IH as [Hp Hps]. constructor; [set_solver|done].
Qed.

(** ** Sorted names: [sorted(names)] *)

Definition sorted_names (l : list string) : list string := merge_sort String.le l.

Lemma sorted_names_perm l : sorted_names l ≡ₚ l.
Proof. apply merge_sort_Permutation. Qed.
Lemma sorted_names_sorted l : Sorted String.le (sorted_names l).
Proof. apply Sorted_merge_sort, _. Qed.
Lemma elem_of_sorted_names x l : x ∈ sorted_names l ↔ x ∈ l.
Proof. by rewrite sorted_names_perm. Qed.
#[export] Hint Rewrite elem_of_sorted_names : argus.

(** [str(n)] of an integer *)
Definition str_of_int (z : Z) : string := pretty z.
