(* ===== verification/Url.v ===== *)
(** * URLs

    [urllib.parse.urlparse] as far as the program uses it: the scheme, the
    network location and the host name, on strings of 8-bit characters.  The
    check of the text between brackets (an IP literal) is the parameter
    [bracket_ok]; [None] is the [ValueError] of a malformed location. *)
From S2P Require Import Prelude Glob PyStr.
From Stdlib Require Import Ascii.

Definition is_alpha (c : ascii) : bool :=
  let n := code c in (Nat.leb 97 n && Nat.leb n 122) || (Nat.leb 65 n && Nat.leb n 90).
Definition is_digit (c : ascii) : bool := let n := code c in Nat.leb 48 n && Nat.leb n 57.
(** Letters, digits, plus, dash and dot. *)
Definition is_scheme_char (c : ascii) : bool :=
  is_alpha c || is_digit c || is_char 43 c || is_char 45 c || is_char 46 c.

(** [s.partition(c)]: before and after the first occurrence *)
Fixpoint partition_at (n : nat) (l : list ascii) : list ascii * option (list ascii) :=
  match l with
  | [] => ([], None)
  | c :: l' => if is_char n c then ([], Some l')
               else let '(a, b) := partition_at n l' in (c :: a, b)
  end.
(** [s.rpartition(c)[2]]: after the last occurrence *)
Definition after_last (n : nat) (l : list ascii) : list ascii :=
  reverse (partition_at n (reverse l)).1.

Definition has_char (n : nat) (l : list ascii) : bool := existsb (is_char n) l.

(** Blanks and control characters in front are dropped, tabs and line ends
    everywhere. *)
Definition clean_url (l : list ascii) : list ascii :=
  keep (λ c, negb (is_char 9 c || is_char 10 c || is_char 13 c)) (drop_while (λ c, Nat.leb (code c) 32) l).

(** The scheme in lower case, and what follows its colon. *)
Definition split_scheme (l : list ascii) : list ascii * list ascii :=
  match partition_at 58 l with
  | ((c :: _) as s, Some rest) =>
      if is_alpha c && forallb is_scheme_char s then (lower_char <$> s, rest) else ([], l)
  | _ => ([], l)
  end.

Definition is_netloc_end (c : ascii) : bool := is_char 47 c || is_char 63 c || is_char 35 c.

Section urlparse.
Context (bracket_ok : string → bool).

Record parsed_url := { url_scheme : string; url_netloc : string; url_rest : string }.

Definition urlparse (url : string) : option parsed_url :=
  let '(scheme, rest) := split_scheme (clean_url (chars url)) in
  match rest with
  | a :: b :: l =>
      if is_char 47 a && is_char 47 b then
        let '(netloc, tail) := span (λ c, negb (is_netloc_end c)) l in
        if bool_decide (has_char 91 netloc = has_char 93 netloc) &&
           (negb (has_char 91 netloc) || bracket_ok (text netloc))
        then Some {| url_scheme := text scheme; url_netloc := text netloc; url_rest := text tail |}
        else None
      else Some {| url_scheme := text scheme; url_netloc := ""; url_rest := text rest |}
  | _ => Some {| url_scheme := text scheme; url_netloc := ""; url_rest := text rest |}
  end.
End urlparse.

(** The [hostname] attribute: without user, port and brackets, in lower case;
    [None] when it is empty. *)
Definition url_hostname (u : parsed_url) : option string :=
  let hostinfo := after_last 64 (chars (url_netloc u)) in
  let host := match partition_at 91 hostinfo with
              | (_, Some bracketed) => (partition_at 93 bracketed).1
              | (h, None) => (partition_at 58 h).1
              end in
  match host with
  | [] => None
  | _ => let '(h, zone) := partition_at 37 host in
         Some (text ((lower_char <$> h) ++ match zone with Some z => ascii_of_nat 37 :: z | None => [] end))
  end.

Example parse_local : urlparse (λ _, true) "http://LocalHost:8080/x" =
  Some {| url_scheme := "http"; url_netloc := "LocalHost:8080"; url_rest := "/x" |}.
Proof. reflexivity. Qed.
Example host_of_userinfo :
  url_hostname {| url_scheme := "http"; url_netloc := "localhost@evil.com:80"; url_rest := "" |} = Some "evil.com".
Proof. reflexivity. Qed.
Example host_of_v6 :
  url_hostname {| url_scheme := "http"; url_netloc := "[::1]:80"; url_rest := "" |} = Some "::1".
Proof. reflexivity. Qed.
