(* ===== verification/Json.v ===== *)
(** * JSON text

    [json.dumps] and [json.loads] of the Python standard library, for values
    without fractional numbers and strings of 8-bit characters: the escapes of
    [ensure_ascii], the layouts with and without [indent], and a parser that
    accepts any layout.  The components that persist data use them through the
    law [loads_dumps]. *)
From S2P Require Import Prelude PyDict Glob PyStr.
From Stdlib Require Import Ascii DecimalString DecimalZ.

Definition nth_char (c : ascii) (n : nat) : bool := Nat.eqb (nat_of_ascii c) n.
Abbreviation chr := ascii_of_nat (only parsing).

(** ** Printing *)

Definition hex_digit (n : nat) : ascii := if Nat.ltb n 10 then chr (48 + n) else chr (87 + n).

(** [ESCAPE_ASCII]: a quote, a backslash and what is not printable ASCII *)
Definition escape_char (c : ascii) : list ascii :=
  let n := nat_of_ascii c in
  if nth_char c 34 then [chr 92; chr 34]
  else if nth_char c 92 then [chr 92; chr 92]
  else if Nat.leb 32 n && Nat.leb n 126 then [c]
  else if nth_char c 10 then [chr 92; chr 110]
  else if nth_char c 13 then [chr 92; chr 114]
  else if nth_char c 9 then [chr 92; chr 116]
  else if nth_char c 12 then [chr 92; chr 102]
  else if nth_char c 8 then [chr 92; chr 98]
  else [chr 92; chr 117; chr 48; chr 48; hex_digit (Nat.div n 16); hex_digit (Nat.modulo n 16)].

Definition quote_chars (l : list ascii) : list ascii :=
  chr 34 :: mjoin (escape_char <$> l) ++ [chr 34].

Definition print_int (z : Z) : string := NilZero.string_of_int (Z.to_int z).

(** [indent=None] separates with a comma and a blank; [indent=n] starts a line. *)
Definition new_line (indent : option nat) (lvl : nat) : list ascii :=
  match indent with None => [] | Some n => chr 10 :: repeat (chr 32) (n * lvl) end.
Definition item_sep (indent : option nat) (lvl : nat) : list ascii :=
  chr 44 :: match indent with None => [chr 32] | Some _ => new_line indent lvl end.

Section dump.
Context (indent : option nat).

Definition brackets (o c : ascii) (lvl : nat) (items : list (list ascii)) : list ascii :=
  match items with
  | [] => [o; c]
  | x :: xs => o :: new_line indent (S lvl) ++ x ++
      mjoin ((λ y, item_sep indent (S lvl) ++ y) <$> xs) ++ new_line indent lvl ++ [c]
  end.

Fixpoint dump (lvl : nat) (v : pyval) : list ascii :=
  match v with
  | PNone => chars "null"
  | PBool true => chars "true"
  | PBool false => chars "false"
  | PInt z => chars (print_int z)
  | PStr s => quote_chars (chars s)
  | PList l => brackets (chr 91) (chr 93) lvl (dump (S lvl) <$> l)
  | PDict d => brackets (chr 123) (chr 125) lvl
      ((λ kv, quote_chars (chars kv.1) ++ chr 58 :: chr 32 :: dump (S lvl) kv.2) <$> d)
  end.
End dump.

Definition dumps (indent : option nat) (v : pyval) : string := text (dump indent 0 v).

(** ** Parsing *)

Definition is_ws (c : ascii) : bool := nth_char c 32 || nth_char c 9 || nth_char c 10 || nth_char c 13.
Definition skip_ws (l : list ascii) : list ascii := drop_while is_ws l.

Definition hex_value (c : ascii) : option nat :=
  let n := nat_of_ascii c in
  if Nat.leb 48 n && Nat.leb n 57 then Some (n - 48)%nat
  else if Nat.leb 97 n && Nat.leb n 102 then Some (n - 87)%nat
  else if Nat.leb 65 n && Nat.leb n 70 then Some (n - 55)%nat else None.

Definition simple_escape (c : ascii) : option ascii :=
  if nth_char c 34 || nth_char c 92 || nth_char c 47 then Some c
  else if nth_char c 110 then Some (chr 10)
  else if nth_char c 114 then Some (chr 13)
  else if nth_char c 116 then Some (chr 9)
  else if nth_char c 102 then Some (chr 12)
  else if nth_char c 98 then Some (chr 8) else None.

Definition unicode_escape (h1 h2 h3 h4 : ascii) : option ascii :=
  match hex_value h1, hex_value h2, hex_value h3, hex_value h4 with
  | Some 0%nat, Some 0%nat, Some a, Some b => Some (chr (16 * a + b))
  | _, _, _, _ => None
  end.

Definition push (c : ascii) (r : option (list ascii * list ascii)) : option (list ascii * list ascii) :=
  match r with Some (s, rest) => Some (c :: s, rest) | None => None end.

(** After the opening quote: the string and what follows the closing quote. *)
Fixpoint parse_str (l : list ascii) : option (list ascii * list ascii) :=
  match l with
  | [] => None
  | c :: r =>
      if nth_char c 34 then Some ([], r)
      else if nth_char c 92 then
        match r with
        | [] => None
        | e :: r1 =>
            match simple_escape e with
            | Some x => push x (parse_str r1)
            | None =>
                if nth_char e 117 then
                  match r1 with
                  | h1 :: h2 :: h3 :: h4 :: r2 =>
                      match unicode_escape h1 h2 h3 h4 with
                      | Some x => push x (parse_str r2)
                      | None => None
                      end
                  | _ => None
                  end
                else None
            end
        end
      else if Nat.ltb (nat_of_ascii c) 32 then None
      else push c (parse_str r)
  end.

Definition is_num_char (c : ascii) : bool :=
  let n := nat_of_ascii c in (Nat.leb 48 n && Nat.leb n 57) || Nat.eqb n 45.
(** The start of a fraction or an exponent, which make a number a float. *)
Definition starts_fraction (l : list ascii) : bool :=
  match l with c :: _ => nth_char c 46 || nth_char c 101 || nth_char c 69 | [] => false end.

Fixpoint take_num (l : list ascii) : list ascii * list ascii :=
  match l with
  | [] => ([], [])
  | c :: l' => if is_num_char c then let '(a, b) := take_num l' in (c :: a, b) else ([], l)
  end.

(** A literal is an integer in canonical form (or minus zero). *)
Definition parse_num (l : list ascii) : option (pyval * list ascii) :=
  let '(s, rest) := take_num l in
  match NilZero.int_of_string (text s) with
  | None => None
  | Some d =>
      let z := Z.of_int d in
      if negb (starts_fraction rest) && (bool_decide (text s = print_int z) || bool_decide (text s = "-0"))
      then Some (PInt z, rest) else None
  end.

Definition parse_lit (l : list ascii) : option (pyval * list ascii) :=
  if bool_decide (chars "null" `prefix_of` l) then Some (PNone, drop 4 l)
  else if bool_decide (chars "true" `prefix_of` l) then Some (PBool true, drop 4 l)
  else if bool_decide (chars "false" `prefix_of` l) then Some (PBool false, drop 5 l)
  else parse_num l.

(** One value; the items of a list up to its bracket; the members of a
    dictionary up to its brace.  The fuel bounds the number of nested calls. *)
Fixpoint parse_value (fuel : nat) (l : list ascii) : option (pyval * list ascii) :=
  match fuel, l with
  | S n, c :: r =>
      if nth_char c 34 then
        match parse_str r with Some (s, rest) => Some (PStr (text s), rest) | None => None end
      else if nth_char c 91 then
        match skip_ws r with
        | c' :: r' =>
            if nth_char c' 93 then Some (PList [], r')
            else match parse_items n (c' :: r') with Some (vs, rest) => Some (PList vs, rest) | None => None end
        | [] => None
        end
      else if nth_char c 123 then
        match skip_ws r with
        | c' :: r' =>
            if nth_char c' 125 then Some (PDict [], r')
            else match parse_members n (c' :: r') with
                 | Some (kvs, rest) => Some (PDict (dupdate [] kvs), rest) | None => None end
        | [] => None
        end
      else parse_lit l
  | _, _ => None
  end
with parse_items (fuel : nat) (l : list ascii) : option (list pyval * list ascii) :=
  match fuel with
  | O => None
  | S n =>
      match parse_value n l with
      | None => None
      | Some (v, r) =>
          match skip_ws r with
          | c :: r' =>
              if nth_char c 93 then Some ([v], r')
              else if nth_char c 44 then
                match parse_items n (skip_ws r') with Some (vs, rest) => Some (v :: vs, rest) | None => None end
              else None
          | [] => None
          end
      end
  end
with parse_members (fuel : nat) (l : list ascii) : option (list (string * pyval) * list ascii) :=
  match fuel, l with
  | S n, q :: r =>
      if negb (nth_char q 34) then None else
      match parse_str r with
      | None => None
      | Some (k, r1) =>
          match skip_ws r1 with
          | c :: r2 =>
              if negb (nth_char c 58) then None else
              match parse_value n (skip_ws r2) with
              | None => None
              | Some (v, r3) =>
                  match skip_ws r3 with
                  | c' :: r4 =>
                      if nth_char c' 125 then Some ([(text k, v)], r4)
                      else if nth_char c' 44 then
                        match parse_members n (skip_ws r4) with
                        | Some (kvs, rest) => Some ((text k, v) :: kvs, rest) | None => None end
                      else None
                  | [] => None
                  end
              end
          | [] => None
          end
      end
  | _, _ => None
  end.

(** [json.loads(s)]: [None] for [JSONDecodeError] *)
Definition loads (s : string) : option pyval :=
  let l := chars s in
  match parse_value (2 * length l + 2) (skip_ws l) with
  | Some (v, rest) => if bool_decide (skip_ws rest = []) then Some v else None
  | None => None
  end.

(** ** Round trip *)

(** Every dictionary inside the value has distinct keys. *)
Inductive pv_wf : pyval → Prop :=
  | wf_none : pv_wf PNone
  | wf_bool b : pv_wf (PBool b)
  | wf_int z : pv_wf (PInt z)
  | wf_str s : pv_wf (PStr s)
  | wf_list l : Forall pv_wf l → pv_wf (PList l)
  | wf_dict d : dict_wf d → Forall (λ kv, pv_wf kv.2) d → pv_wf (PDict d).
#[export] Hint Constructors pv_wf : argus.

Lemma dupdate_nil_app (d1 d2 : odict string pyval) :
  dict_wf (d1 ++ d2) → dupdate d1 d2 = d1 ++ d2.
Proof.
  unfold dupdate. revert d1. induction d2 as [|[k v] d2 IH]; intros d1 H; simpl; [by rewrite app_nil_r|].
  rewrite dset_fresh.
  - rewrite IH; rewrite <-app_assoc; done.
  - unfold dict_wf, dkeys in H. rewrite fmap_app in H. simpl in H.
    apply NoDup_app in H as (_ & Hk & _). intros Hin. apply (Hk k Hin). left.
Qed.

Lemma mjoin_fmap_cons {A B} (f : A → list B) x l : mjoin (f <$> x :: l) = f x ++ mjoin (f <$> l).
Proof. done. Qed.

Lemma parse_str_escape c l : parse_str (escape_char c ++ l) = push c (parse_str l).
Proof. destruct c as [[] [] [] [] [] [] [] []]; reflexivity. Qed.

Lemma parse_str_quoted s rest :
  parse_str ((mjoin (escape_char <$> s) ++ [chr 34]) ++ rest) = Some (s, rest).
Proof.
  rewrite <-app_assoc. induction s as [|c s IH]; [done|].
  by rewrite mjoin_fmap_cons, <-app_assoc, parse_str_escape, IH.
Qed.

(** What may follow a number. *)
Definition stops (l : list ascii) : Prop :=
  match l with [] => True | c :: _ => is_num_char c = false ∧ starts_fraction l = false end.

Lemma take_num_app a rest :
  Forall (λ c, is_num_char c = true) a → stops rest → take_num (a ++ rest) = (a, rest).
Proof.
  induction 1 as [|c a Hc _ IH]; intros Hs; simpl.
  - destruct rest as [|c r]; [done|]. simpl. by rewrite (proj1 Hs).
  - by rewrite Hc, IH.
Qed.

Lemma uint_chars d : Forall (λ c, is_num_char c = true) (chars (NilEmpty.string_of_uint d)).
Proof. induction d; simpl; by constructor. Qed.

Lemma print_int_chars z : Forall (λ c, is_num_char c = true) (chars (print_int z)).
Proof.
  unfold print_int, NilZero.string_of_int, NilZero.string_of_uint.
  destruct (Z.to_int z) as [d|d]; destruct d; simpl; repeat constructor; apply uint_chars.
Qed.

Lemma print_int_nonempty z : ∃ c l, chars (print_int z) = c :: l.
Proof.
  unfold print_int, NilZero.string_of_int, NilZero.string_of_uint.
  destruct (Z.to_int z) as [d|d]; destruct d; simpl; eauto.
Qed.

Lemma print_int_inv z : ∃ d, NilZero.int_of_string (print_int z) = Some d ∧ Z.of_int d = z.
Proof.
  exists (Z.to_int z). split; [|by rewrite of_to]. unfold print_int.
  apply NilZero.isi; destruct z as [|p|p]; simpl; try discriminate.
  - intros [=E]. pose proof (DecimalPos.Unsigned.to_uint_nonnil p). congruence.
  - intros [=E]. pose proof (DecimalPos.Unsigned.to_uint_nonnil p). congruence.
Qed.

Lemma parse_num_print z rest : stops rest → parse_num (chars (print_int z) ++ rest) = Some (PInt z, rest).
Proof.
  intros Hs. unfold parse_num. rewrite take_num_app by (done || apply print_int_chars).
  rewrite text_chars. destruct (print_int_inv z) as (d & -> & ->).
  replace (starts_fraction rest) with false by (destruct rest; [done|symmetry; apply Hs]).
  by rewrite bool_decide_true.
Qed.

(** A number is not one of the literals, quotes or brackets. *)
Lemma parse_value_num n c l :
  is_num_char c = true → parse_value (S n) (c :: l) = parse_num (c :: l).
Proof.
  intros Hc. assert (∀ k, is_num_char (chr k) = false → k < 256 → nth_char c k = false)%nat as Hne.
  { intros k Hk Hlt. unfold nth_char. apply Nat.eqb_neq. intros E. rewrite <-E, ascii_nat_embedding in Hk. congruence. }
  cbn [parse_value]. rewrite !Hne by (reflexivity || lia). unfold parse_lit.
  rewrite !bool_decide_false; [done|..]; intros [r E]; injection E as -> _; done.
Qed.

Lemma skip_ws_app a l : Forall (λ c, is_ws c = true) a → skip_ws (a ++ l) = skip_ws l.
Proof. induction 1 as [|c a Hc _ IH]; [done|]. unfold skip_ws in *. simpl. by rewrite Hc. Qed.

Lemma skip_ws_cons c l : is_ws c = false → skip_ws (c :: l) = c :: l.
Proof. intros H. unfold skip_ws. simpl. by rewrite H. Qed.

Lemma new_line_ws indent lvl : Forall (λ c, is_ws c = true) (new_line indent lvl).
Proof.
  destruct indent as [n|]; simpl; [|done]. constructor; [done|].
  induction (n * lvl)%nat; simpl; by constructor.
Qed.

Lemma item_sep_skip indent lvl l : ∃ a, item_sep indent lvl = chr 44 :: a ∧ skip_ws (a ++ l) = skip_ws l.
Proof.
  destruct indent as [n|]; eexists; (split; [reflexivity|]); apply skip_ws_app; [apply new_line_ws|].
  by repeat constructor.
Qed.

(** The first character of a printed value. *)
Lemma dump_head indent lvl v :
  ∃ c l, dump indent lvl v = c :: l ∧ is_ws c = false ∧ nth_char c 93 = false ∧ nth_char c 125 = false.
Proof.
  destruct v as [|[]|z|s|[|x l]|[|x d]]; try (eexists _, _; split; [reflexivity|done]).
  destruct (print_int_nonempty z) as (c & l & E). exists c, l. simpl. split; [done|].
  pose proof (print_int_chars z) as H. rewrite E in H. apply Forall_cons in H as [H _].
  clear E. destruct c as [[] [] [] [] [] [] [] []]; try done; repeat split; vm_compute in *; congruence.
Qed.

Lemma skip_ws_dump indent lvl v rest : skip_ws (dump indent lvl v ++ rest) = dump indent lvl v ++ rest.
Proof.
  destruct (dump_head indent lvl v) as (c & l & -> & H & _). unfold skip_ws. simpl. by rewrite H.
Qed.

Fixpoint need (v : pyval) : nat :=
  match v with
  | PList l => 2 + sum_list ((λ v, S (need v)) <$> l)
  | PDict d => 2 + sum_list ((λ kv, S (need kv.2)) <$> d)
  | _ => 1
  end.

Section round_trip.
Context (indent : option nat).

(** The text after an item: a separator and more items, or the closing bracket. *)
Definition tail (c : ascii) (lvl : nat) (ys : list (list ascii)) (rest : list ascii) : list ascii :=
  mjoin ((λ y, item_sep indent (S lvl) ++ y) <$> ys) ++ new_line indent lvl ++ c :: rest.

Lemma tail_cons c lvl y ys rest :
  ∃ a, tail c lvl (y :: ys) rest = chr 44 :: a ++ y ++ tail c lvl ys rest ∧
       skip_ws (a ++ y ++ tail c lvl ys rest) = skip_ws (y ++ tail c lvl ys rest).
Proof.
  destruct (item_sep_skip indent (S lvl) (y ++ tail c lvl ys rest)) as (a & E & H).
  exists a. split; [|done]. unfold tail. rewrite mjoin_fmap_cons, E.
  rewrite <-!app_assoc. reflexivity.
Qed.

Lemma tail_nil c lvl rest : is_ws c = false → skip_ws (tail c lvl [] rest) = c :: rest.
Proof.
  intros Hc. unfold tail. simpl. rewrite skip_ws_app by apply new_line_ws.
  unfold skip_ws. simpl. by rewrite Hc.
Qed.

Lemma tail_stops c lvl ys rest : stops (c :: rest) → stops (tail c lvl ys rest).
Proof.
  intros Hc. destruct ys as [|y ys]; [|by destruct (tail_cons c lvl y ys rest) as (a & -> & _)].
  unfold tail. simpl. by destruct indent.
Qed.

Lemma brackets_cons o c lvl x xs rest :
  brackets indent o c lvl (x :: xs) ++ rest = o :: new_line indent (S lvl) ++ x ++ tail c lvl xs rest.
Proof. unfold brackets, tail. by rewrite <-app_comm_cons, <-!app_assoc. Qed.

Definition reads (lvl : nat) (v : pyval) : Prop :=
  ∀ fuel rest, (need v ≤ fuel)%nat → stops rest →
    parse_value fuel (dump indent lvl v ++ rest) = Some (v, rest).

Lemma parse_items_dump lvl x xs fuel rest :
  Forall (reads (S lvl)) (x :: xs) → (sum_list ((λ v, S (need v)) <$> x :: xs) ≤ fuel)%nat →
  parse_items fuel (dump indent (S lvl) x ++ tail (chr 93) lvl (dump indent (S lvl) <$> xs) rest)
    = Some (x :: xs, rest).
Proof.
  revert x fuel. induction xs as [|y ys IH]; intros x fuel [Hx Hxs]%Forall_cons Hf;
    (destruct fuel as [|n]; [simpl in Hf; lia|]); cbn [parse_items];
    (rewrite Hx; [|simpl in Hf; lia|apply tail_stops; done]).
  - cbn [fmap list_fmap]. rewrite tail_nil by done. done.
  - cbn [fmap list_fmap]. change (list_fmap ?a ?b ?f ?l) with (@fmap list list_fmap a b f l).
    destruct (tail_cons (chr 93) lvl (dump indent (S lvl) y) (dump indent (S lvl) <$> ys) rest) as (a & E & H).
    rewrite E, skip_ws_cons by done.
    change (nth_char (chr 44) 93) with false. change (nth_char (chr 44) 44) with true. cbn match.
    rewrite H, skip_ws_dump, IH; [done|done|]. simpl in Hf |- *. lia.
Qed.

Definition member (lvl : nat) (kv : string * pyval) : list ascii :=
  quote_chars (chars kv.1) ++ chr 58 :: chr 32 :: dump indent lvl kv.2.

Lemma dump_dict lvl d :
  dump indent lvl (PDict d) = brackets indent (chr 123) (chr 125) lvl (member (S lvl) <$> d).
Proof. done. Qed.

Lemma member_app lvl kv r :
  member lvl kv ++ r = chr 34 :: (mjoin (escape_char <$> chars kv.1) ++ [chr 34]) ++
    chr 58 :: chr 32 :: dump indent lvl kv.2 ++ r.
Proof. unfold member, quote_chars. by rewrite <-!app_comm_cons, <-!app_assoc, <-!app_comm_cons. Qed.

Lemma skip_ws_member lvl kv r : skip_ws (member lvl kv ++ r) = member lvl kv ++ r.
Proof. rewrite member_app. by apply skip_ws_cons. Qed.

Lemma parse_member_head lvl k v n rest :
  reads lvl v → (need v ≤ n)%nat → stops rest →
  parse_members (S n) (member lvl (k, v) ++ rest) =
  match skip_ws rest with
  | c' :: r4 =>
      if nth_char c' 125 then Some ([(k, v)], r4)
      else if nth_char c' 44 then
        match parse_members n (skip_ws r4) with
        | Some (kvs, rest) => Some ((k, v) :: kvs, rest) | None => None end
      else None
  | [] => None
  end.
Proof.
  intros Hv Hn Hs. rewrite member_app. cbn [parse_members fst snd].
  change (nth_char (chr 34) 34) with true. cbn [negb]. rewrite parse_str_quoted.
  rewrite skip_ws_cons by done. cbn match.
  change (nth_char (chr 58) 58) with true. cbn [negb].
  change (skip_ws (chr 32 :: ?l)) with (skip_ws l). rewrite skip_ws_dump, Hv by done. by rewrite text_chars.
Qed.

Lemma parse_members_dump lvl x xs fuel rest :
  Forall (λ kv, reads (S lvl) kv.2) (x :: xs) → (sum_list ((λ kv, S (need kv.2)) <$> x :: xs) ≤ fuel)%nat →
  parse_members fuel (member (S lvl) x ++ tail (chr 125) lvl (member (S lvl) <$> xs) rest)
    = Some (x :: xs, rest).
Proof.
  revert x fuel. induction xs as [|y ys IH]; intros [k v] fuel [Hx Hxs]%Forall_cons Hf;
    (destruct fuel as [|n]; [simpl in Hf; lia|]);
    (rewrite parse_member_head; [|done|simpl in Hf; lia|apply tail_stops; done]).
  - cbn [fmap list_fmap]. rewrite tail_nil by done. done.
  - cbn [fmap list_fmap]. change (list_fmap ?a ?b ?f ?l) with (@fmap list list_fmap a b f l).
    destruct (tail_cons (chr 125) lvl (member (S lvl) y) (member (S lvl) <$> ys) rest) as (a & E & H).
    rewrite E, skip_ws_cons by done.
    change (nth_char (chr 44) 125) with false. change (nth_char (chr 44) 44) with true. cbn match.
    rewrite H, skip_ws_member.
    rewrite IH; [done|done|]. simpl in Hf |- *. lia.
Qed.

Lemma parse_value_dump v : pv_wf v → ∀ lvl, reads lvl v.
Proof.
  induction v as [|b|z|s|l IH|d IH] using pyval_nested_ind; intros Hwf lvl fuel rest Hf Hs;
    (destruct fuel as [|n]; [simpl in Hf; lia|]).
  - simpl. unfold parse_lit. rewrite bool_decide_true by (by exists rest). done.
  - destruct b; simpl; unfold parse_lit.
    + rewrite bool_decide_false by (by intros [r [=]]). by rewrite bool_decide_true by (by exists rest).
    + rewrite !bool_decide_false by (by intros [r [=]]). by rewrite bool_decide_true by (by exists rest).
  - cbn [dump]. destruct (print_int_nonempty z) as (c & l & E). pose proof (print_int_chars z) as H.
    pose proof (parse_num_print z rest Hs) as Hp. rewrite E in H, Hp |- *.
    apply Forall_cons in H as [H _]. rewrite <-app_comm_cons in *. by rewrite parse_value_num.
  - cbn [dump]. unfold quote_chars. rewrite <-app_comm_cons. cbn [parse_value].
    change (nth_char (chr 34) 34) with true. cbn match. by rewrite parse_str_quoted, text_chars.
  - inversion Hwf as [| | | |l' Hl|]; subst. destruct l as [|x xs]; [done|].
    cbn [dump fmap list_fmap]. rewrite brackets_cons. cbn [parse_value].
    change (nth_char (chr 91) 34) with false. change (nth_char (chr 91) 91) with true. cbn match.
    rewrite skip_ws_app by apply new_line_ws. rewrite skip_ws_dump.
    destruct (dump_head indent (S lvl) x) as (c & t & E & _ & H93 & _).
    pose proof (parse_items_dump lvl x xs n rest) as Hi. rewrite E in Hi |- *. rewrite <-app_comm_cons in *.
    rewrite H93. rewrite Hi; [done| |simpl in Hf |- *; lia].
    apply Forall_forall. intros y Hy lv. apply (proj1 (Forall_forall _ _) IH); [done|].
    by apply (proj1 (Forall_forall _ _) Hl).
  - inversion Hwf as [| | | | |d' Hd Hl]; subst. destruct d as [|x xs]; [done|].
    rewrite dump_dict. cbn [fmap list_fmap]. rewrite brackets_cons. cbn [parse_value].
    change (nth_char (chr 123) 34) with false. change (nth_char (chr 123) 91) with false.
    change (nth_char (chr 123) 123) with true. cbn match.
    rewrite skip_ws_app by apply new_line_ws.
    pose proof (parse_members_dump lvl x xs n rest) as Hi.
    rewrite member_app in Hi |- *. rewrite skip_ws_cons by done. change (nth_char (chr 34) 125) with false. cbn match.
    rewrite Hi; [by rewrite (dupdate_nil_app [])| |simpl in Hf |- *; lia].
    apply Forall_forall. intros y Hy lv. apply (proj1 (Forall_forall _ _) IH); [done|].
    by apply (proj1 (Forall_forall _ _) Hl).
Qed.
End round_trip.

(** The fuel of [loads] is enough: each nested call reads a character. *)
Lemma brackets_length indent o c lvl items :
  (2 + sum_list (length <$> items) + length items ≤ length (brackets indent o c lvl items) + 1)%nat.
Proof.
  destruct items as [|x xs]; [simpl; lia|]. unfold brackets.
  assert (sum_list (length <$> xs) + length xs ≤
    length (mjoin ((λ y, item_sep indent (S lvl) ++ y) <$> xs)))%nat as H.
  { induction xs as [|y ys IH]; [simpl; lia|]. rewrite mjoin_fmap_cons, !length_app, fmap_cons.
    assert (1 ≤ length (item_sep indent (S lvl)))%nat by (simpl; lia).
    cbn [sum_list id length]. lia. }
  rewrite fmap_cons. cbn [sum_list id length]. rewrite !length_app. cbn [length]. lia.
Qed.

Lemma need_length indent v : ∀ lvl, (need v ≤ 2 * length (dump indent lvl v))%nat.
Proof.
  induction v as [|b|z|s|l IH|d IH] using pyval_nested_ind; intros lvl.
  - simpl. lia.
  - destruct b; simpl; lia.
  - destruct (print_int_nonempty z) as (c & l & E). cbn [dump]. rewrite E. simpl. lia.
  - simpl. lia.
  - pose proof (brackets_length indent (chr 91) (chr 93) lvl (dump indent (S lvl) <$> l)) as H.
    change (dump indent lvl (PList l)) with (brackets indent (chr 91) (chr 93) lvl (dump indent (S lvl) <$> l)).
    assert (sum_list ((λ v, S (need v)) <$> l) ≤
      2 * sum_list (length <$> (dump indent (S lvl) <$> l)) + length (dump indent (S lvl) <$> l))%nat as Hs.
    { clear H. induction IH as [|v l Hv _ IHl]; [simpl; lia|]. specialize (Hv (S lvl)).
      rewrite !fmap_cons. cbn [sum_list id length]. lia. }
    cbn [need]. lia.
  - pose proof (brackets_length indent (chr 123) (chr 125) lvl (member indent (S lvl) <$> d)) as H.
    rewrite dump_dict.
    assert (sum_list ((λ kv, S (need kv.2)) <$> d) ≤
      2 * sum_list (length <$> (member indent (S lvl) <$> d)) + length (member indent (S lvl) <$> d))%nat as Hs.
    { clear H. induction IH as [|v l Hv _ IHl]; [simpl; lia|]. specialize (Hv (S lvl)).
      rewrite !fmap_cons. cbn [sum_list id length]. unfold member at 1.
      rewrite length_app. cbn [length]. simpl in *. lia. }
    cbn [need]. lia.
Qed.

(** [json.loads(json.dumps(v, indent=i)) == v], for every layout. *)
Lemma loads_dumps indent v : pv_wf v → loads (dumps indent v) = Some v.
Proof.
  intros Hv. unfold loads, dumps. rewrite chars_text.
  pose proof (skip_ws_dump indent 0 v []) as E. rewrite app_nil_r in E. rewrite E.
  pose proof (parse_value_dump indent v Hv 0 (2 * length (dump indent 0 v) + 2)%nat []) as H.
  rewrite app_nil_r in H. rewrite H; [done| |done]. pose proof (need_length indent v 0). lia.
Qed.

Lemma dumps_inj indent v1 v2 : pv_wf v1 → pv_wf v2 → dumps indent v1 = dumps indent v2 → v1 = v2.
Proof. intros H1 H2 E. apply (inj Some). by rewrite <-(loads_dumps indent v1), E, loads_dumps. Qed.

Example loads_layout : loads (dumps (Some 2%nat) (PDict [("a", PInt (-7)); ("b", PList [PNone; PStr "x"])])) =
  Some (PDict [("a", PInt (-7)); ("b", PList [PNone; PStr "x"])]).
Proof. vm_compute. reflexivity. Qed.
