(* ===== verification/Themes.v ===== *)
(** * The colour themes of the command line

    packages/argus_cli/argus_cli/theme.py and _console.py: palettes are read from
    two directories of YAML files, one of them becomes the active one, and the
    console is built from it when it is first needed.  The state is that of the
    two modules: the global names and the objects they are bound to.

    Parameters: [safe_load] is YAML parsing ([None]: it raises [YAMLError]),
    [py_str] is [str(v)].  A directory is [None] when it is missing; a file that
    cannot be read is [None]. *)
From S2P Require Import Prelude PyDict Effects PyStr.
#[local] Open Scope Z_scope.

Definition palette : Type := odict string string.
Definition directory : Type := option (odict string (option string)).

Definition _REQUIRED_KEYS : list string :=
  ["success"; "error"; "warning"; "highlight"; "info"; "accent"; "secondary"; "surface"; "text"; "subtext"; "overlay"].
Definition _DEFAULT_THEME : string := "catppuccin-mocha".

(** [path.stem] of a name that the pattern [*.yaml] matched. *)
Definition theme_stem (name : string) : string :=
  if bool_decide (strlen name <= 5) then name else take_chars (length (chars name) - 5) name.

(** ** Styles *)

Definition _STATUS_TAG_MAP : odict string string :=
  [("healthy", "success"); ("connected", "success"); ("running", "success"); ("degraded", "warning");
   ("warning", "warning"); ("pending", "warning"); ("unhealthy", "error"); ("disconnected", "error"); ("error", "error");
   ("stopped", "error"); ("enabled", "success"); ("disabled", "error"); ("true", "success"); ("false", "error");
   ("unknown", "overlay"); ("info", "info")].
Definition _BOLD_STATUSES : list string := ["healthy"; "degraded"; "unhealthy"; "error"].
Definition _ITALIC_STATUSES : list string := ["unknown"].

Record Style := { st_color : option string; st_bold : bool; st_italic : bool }.
Definition plain_style : Style := {| st_color := None; st_bold := false; st_italic := false |}.

Definition add_status_style (colors : palette) (styles : odict string Style) (kv : string * string) : odict string Style :=
  match dget colors kv.2 with
  | None => styles
  | Some color => dset styles kv.1 {| st_color := Some color; st_bold := bool_decide (kv.1 ∈ _BOLD_STATUSES);
                                      st_italic := bool_decide (kv.1 ∈ _ITALIC_STATUSES) |}
  end.
Definition _build_status_styles (colors : palette) : odict string Style :=
  foldl (add_status_style colors) [] _STATUS_TAG_MAP.

(** [colors[key]] *)
Definition color (colors : palette) (key : string) : option string := dget colors key.
(** [None]: the [KeyError] of a missing colour. *)
Definition _build_rich_theme (colors : palette) : option (odict string string) :=
  match colors with
  | [] => Some []
  | _ =>
      info ← color colors "info"; warning ← color colors "warning"; error ← color colors "error";
      success ← color colors "success"; highlight ← color colors "highlight"; muted ← color colors "subtext";
      value ← color colors "text";
      Some [("info", info); ("warning", warning); ("error", error); ("success", success); ("highlight", highlight);
            ("muted", muted); ("argus.header", "bold " +:+ info); ("argus.key", highlight); ("argus.value", value);
            ("argus.url", "underline " +:+ info)]
  end.

Definition status_markup (status : string) : string :=
  let tag := default "dim" (dget _STATUS_TAG_MAP (lower status)) in
  "[" +:+ tag +:+ "]" +:+ status +:+ "[/" +:+ tag +:+ "]".

(** ** The state of the modules *)

Inductive theme_exn := YAMLError | KeyErr.
Record themes := {
  th_loaded : bool;
  th_palettes : odict string palette;
  th_names : list string;
  th_active : string;
  th_colors : palette;
  th_styles : odict string Style;
  th_theme : odict string string;
  th_console : option (odict string string * bool) }.
Definition initial_themes : themes :=
  {| th_loaded := false; th_palettes := []; th_names := []; th_active := _DEFAULT_THEME; th_colors := [];
     th_styles := []; th_theme := []; th_console := None |}.
Abbreviation tm := (M themes theme_exn).

Definition set_loaded (s : themes) : themes :=
  {| th_loaded := true; th_palettes := th_palettes s; th_names := th_names s; th_active := th_active s;
     th_colors := th_colors s; th_styles := th_styles s; th_theme := th_theme s; th_console := th_console s |}.
Definition set_palettes (p : odict string palette) (s : themes) : themes :=
  {| th_loaded := th_loaded s; th_palettes := p; th_names := sorted_names (dkeys p); th_active := th_active s;
     th_colors := th_colors s; th_styles := th_styles s; th_theme := th_theme s; th_console := th_console s |}.
Definition set_colors (c : palette) (styles : odict string Style) (s : themes) : themes :=
  {| th_loaded := th_loaded s; th_palettes := th_palettes s; th_names := th_names s; th_active := th_active s;
     th_colors := c; th_styles := styles; th_theme := th_theme s; th_console := th_console s |}.
Definition set_theme (t : odict string string) (s : themes) : themes :=
  {| th_loaded := th_loaded s; th_palettes := th_palettes s; th_names := th_names s; th_active := th_active s;
     th_colors := th_colors s; th_styles := th_styles s; th_theme := t; th_console := th_console s |}.
Definition set_active_name (n : string) (s : themes) : themes :=
  {| th_loaded := th_loaded s; th_palettes := th_palettes s; th_names := th_names s; th_active := n;
     th_colors := th_colors s; th_styles := th_styles s; th_theme := th_theme s; th_console := th_console s |}.
Definition set_console (c : option (odict string string * bool)) (s : themes) : themes :=
  {| th_loaded := th_loaded s; th_palettes := th_palettes s; th_names := th_names s; th_active := th_active s;
     th_colors := th_colors s; th_styles := th_styles s; th_theme := th_theme s; th_console := c |}.

Section themes.
Context (safe_load : string → option pyval) (py_str : pyval → string).
Context (builtin user : directory).

(** A file that is no theme is skipped; a syntax error of the YAML goes to the
    caller. *)
Definition _load_theme_file (content : option string) : theme_exn + option palette :=
  match content with
  | None => inr None
  | Some raw =>
      match safe_load raw with
      | None => inl YAMLError
      | Some (PDict data) =>
          match dget data "colors" with
          | Some (PDict colors) =>
              if forallb (λ k, dmem colors k) _REQUIRED_KEYS
              then inr (Some ((λ kv, (kv.1, py_str kv.2)) <$> colors)) else inr None
          | _ => inr None
          end
      | Some _ => inr None
      end
  end.

Fixpoint load_files (files : odict string (option string)) (names : list string) (palettes : odict string palette)
    : theme_exn + odict string palette :=
  match names with
  | [] => inr palettes
  | name :: names' =>
      c ← _load_theme_file (default None (dget files name));
      load_files files names' (match c with Some colors => dset palettes (theme_stem name) colors | None => palettes end)
  end.
Definition load_directory (d : directory) (palettes : odict string palette) : theme_exn + odict string palette :=
  match d with
  | None => inr palettes
  | Some files => load_files files (sorted_names (keep (λ n, endswith n ".yaml") (dkeys files))) palettes
  end.
Definition _discover_themes : theme_exn + odict string palette :=
  p ← load_directory builtin []; load_directory user p.

Definition lift_err {A} (r : theme_exn + A) : tm A := match r with inl e => raise e | inr a => mret a end.
Definition build_theme (c : palette) : tm () :=
  match _build_rich_theme c with Some t => modify (set_theme t) | None => raise KeyErr end.

Definition _ensure_loaded : tm () :=
  s ← get_state;
  if th_loaded s then mret ()
  else
    modify set_loaded ;;
    found ← lift_err _discover_themes;
    modify (λ s, set_palettes (dupdate (th_palettes s) found) s) ;;
    modify (λ s, set_colors (dupdate (th_colors s) (default [] (dget (th_palettes s) _DEFAULT_THEME))) (th_styles s) s) ;;
    modify (λ s, set_colors (th_colors s) (dupdate (th_styles s) (_build_status_styles (th_colors s))) s) ;;
    s ← get_state; build_theme (th_colors s).

Definition refresh_themes : tm () :=
  modify (set_palettes []) ;; found ← lift_err _discover_themes; modify (set_palettes found).

Definition set_active_theme (name : string) : tm bool :=
  _ensure_loaded ;;
  s ← get_state;
  match dget (th_palettes s) name with
  | None => mret false
  | Some colors =>
      modify (set_active_name name) ;;
      modify (set_colors colors (_build_status_styles colors)) ;;
      build_theme colors ;;
      modify (set_console None) ;;
      mret true
  end.

Definition status_style (status : string) : tm Style :=
  _ensure_loaded ;;
  s ← get_state;
  mret (match dget (th_styles s) (lower status) with
        | Some st => st
        | None => default plain_style (dget (th_styles s) "unknown")
        end).

Definition TEXTUAL_TO_YAML : odict string string :=
  [("textual-dark", "catppuccin-mocha"); ("textual-light", "catppuccin-latte"); ("catppuccin-mocha", "catppuccin-mocha");
   ("catppuccin-latte", "catppuccin-latte"); ("catppuccin-frappe", "catppuccin-frappe");
   ("catppuccin-macchiato", "catppuccin-macchiato"); ("dracula", "dracula"); ("gruvbox", "gruvbox"); ("monokai", "monokai");
   ("nord", "nord"); ("solarized-light", "solarized-light"); ("solarized-dark", "solarized-dark"); ("tokyo-night", "tokyo-night")].
Definition sync_with_textual_theme (textual_theme : string) : tm string :=
  _ensure_loaded ;;
  s ← get_state;
  let name := default _DEFAULT_THEME (dget TEXTUAL_TO_YAML textual_theme) in
  let name := if dmem (th_palettes s) name then name else _DEFAULT_THEME in
  _ ← set_active_theme name; mret name.

(** The import binds the theme before [_ensure_loaded] replaces it. *)
Definition get_console (no_color : option bool) (configured : bool) : tm (odict string string * bool) :=
  s ← get_state;
  match th_console s with
  | Some c => mret c
  | None =>
      let imported := th_theme s in
      _ensure_loaded ;;
      let c := (imported, default configured no_color) in
      modify (set_console (Some c)) ;; mret c
  end.
Definition reset_console : tm () := modify (set_console None).
End themes.

(** ** Every reachable state is consistent *)

Definition complete (p : palette) : Prop := ∀ k, k ∈ _REQUIRED_KEYS → is_Some (dget p k).
Record consistent (s : themes) : Prop := {
  cs_palettes : Forall (λ kv, complete kv.2) (th_palettes s);
  cs_colors : th_colors s = [] ∨ complete (th_colors s);
  cs_styles : th_styles s = _build_status_styles (th_colors s);
  cs_theme : _build_rich_theme (th_colors s) = Some (th_theme s);
  cs_unloaded : th_loaded s = false → th_colors s = [] }.

Lemma dget_fmap_str {V V'} (f : V → V') (d : odict string V) k : dget ((λ kv, (kv.1, f kv.2)) <$> d) k = f <$> dget d k.
Proof. induction d as [|[a b] d IH]; simpl; [done|]. by case_decide. Qed.

Lemma styles_wf colors : dict_wf (_build_status_styles colors).
Proof.
  unfold _build_status_styles. generalize _STATUS_TAG_MAP. assert (dict_wf ([] : odict string Style)) as H by apply dict_wf_nil.
  revert H. generalize ([] : odict string Style). intros d H l. revert d H.
  induction l as [|kv l IH]; intros d H; simpl; [done|]. apply IH. unfold add_status_style. case_match; auto with argus.
Qed.

Lemma dupdate_nil_wf {V} (d : odict string V) : dict_wf d → dupdate [] d = d.
Proof.
  unfold dupdate. intros H. change d with ([] ++ d) at 2.
  assert (∀ k, k ∈ dkeys d → k ∉ dkeys ([] : odict string V)) as Hd by set_solver.
  revert H Hd. generalize ([] : odict string V). unfold dict_wf, dkeys.
  induction d as [|[k v] d IH]; intros a H Hd; simpl; [by rewrite app_nil_r|]. apply NoDup_cons in H as [Hk Hw].
  rewrite dset_fresh by (apply Hd; left). rewrite IH; [by rewrite <-app_assoc|done|].
  intros k' Hk' Hin. rewrite fmap_app in Hin. apply elem_of_app in Hin as [Hin|Hin].
  - apply (Hd k'); [by right|done].
  - simpl in Hin. apply list_elem_of_singleton in Hin as ->. done.
Qed.

Lemma Forall_dset {V} (P : string * V → Prop) (d : odict string V) k v :
  Forall P d → P (k, v) → Forall P (dset d k v).
Proof.
  intros Hd Hp. induction Hd as [|[a b] d Ha Hd IH]; simpl; [by constructor|].
  case_decide; simplify_eq; by constructor.
Qed.
Lemma Forall_dupdate {V} (P : string * V → Prop) (d1 d2 : odict string V) :
  Forall P d1 → Forall P d2 → Forall P (dupdate d1 d2).
Proof.
  intros H1 H2. revert d1 H1. induction H2 as [|[k v] d2 Hk _ IH]; intros d1 H1; simpl; [done|].
  apply IH. by apply Forall_dset.
Qed.

Lemma complete_update p : complete p → complete (dupdate [] p).
Proof. intros H k Hk. apply dget_is_Some, elem_dkeys_dupdate. right. by apply dget_is_Some, H. Qed.

Lemma palette_complete ps n : Forall (λ kv : string * palette, complete kv.2) ps →
  default [] (dget ps n) = [] ∨ complete (default [] (dget ps n)).
Proof.
  intros H. destruct (dget ps n) as [p|] eqn:E; simpl; [|by left]. right.
  rewrite Forall_forall in H. by apply (H (n, p)), dget_Some_elem.
Qed.

Lemma complete_theme p : complete p → ∃ t, _build_rich_theme p = Some t.
Proof.
  intros H. unfold _build_rich_theme, color. destruct p as [|kv p]; [eauto|].
  destruct (H "info") as [i ->]; [by_decide|]. destruct (H "warning") as [w ->]; [by_decide|].
  destruct (H "error") as [e ->]; [by_decide|]. destruct (H "success") as [o ->]; [by_decide|].
  destruct (H "highlight") as [h ->]; [by_decide|]. destruct (H "subtext") as [u ->]; [by_decide|].
  destruct (H "text") as [t ->]; [by_decide|]. simpl. eauto.
Qed.

Lemma consistent_initial : consistent initial_themes.
Proof. by split; [|left|..]. Qed.

Section facts.
Context (safe_load : string → option pyval) (py_str : pyval → string) (builtin user : directory).

Local Abbreviation all_complete := (Forall (λ kv : string * palette, complete kv.2)).

Lemma load_theme_complete c p : _load_theme_file safe_load py_str c = inr (Some p) → complete p.
Proof.
  unfold _load_theme_file. intros H. repeat (case_match; simplify_eq).
  intros k Hk. rewrite dget_fmap_str, fmap_is_Some. rewrite forallb_elem_of in *.
  apply dget_is_Some, dmem_spec. eauto.
Qed.

Lemma load_files_complete files names : ∀ ps ps',
  all_complete ps → load_files safe_load py_str files names ps = inr ps' → all_complete ps'.
Proof.
  induction names as [|n names IH]; simpl; intros ps ps' Hps H; [by simplify_eq|].
  peel H as c E. eapply IH; [|exact H]. destruct c as [p|]; [|done].
  apply Forall_dset; [done|]. by eapply load_theme_complete.
Qed.

Lemma load_directory_complete d ps ps' :
  all_complete ps → load_directory safe_load py_str d ps = inr ps' → all_complete ps'.
Proof. destruct d; simpl; [apply load_files_complete|by intros ? [= <-]]. Qed.

Lemma discover_complete ps : _discover_themes safe_load py_str builtin user = inr ps → all_complete ps.
Proof.
  unfold _discover_themes. intros H. peel H as p E.
  eapply load_directory_complete; [|exact H]. by eapply load_directory_complete; [|exact E].
Qed.

(** The operations of the two modules that other code calls. *)
Inductive theme_op :=
  | SetActive (name : string) | Refresh | Sync (name : string) | AskStyle (status : string)
  | GetConsole (no_color : option bool) (configured : bool) | ResetConsole.
Definition theme_do (o : theme_op) (s : themes) : option theme_exn * themes :=
  let drop {A} (r : (theme_exn + A) * themes) := (match r.1 with inl e => Some e | inr _ => None end, r.2) in
  match o with
  | SetActive n => drop (set_active_theme safe_load py_str builtin user n s)
  | Refresh => drop (refresh_themes safe_load py_str builtin user s)
  | Sync n => drop (sync_with_textual_theme safe_load py_str builtin user n s)
  | AskStyle n => drop (status_style safe_load py_str builtin user n s)
  | GetConsole a b => drop (get_console safe_load py_str builtin user a b s)
  | ResetConsole => drop (reset_console s)
  end.

(** A computation that keeps the state consistent and never misses a colour. *)
Definition safe_theme {A} (m : tm A) : Prop :=
  ∀ s, consistent s → consistent (m s).2 ∧ (m s).1 ≠ inl KeyErr.

Lemma safe_theme_bind {A B} (m : tm A) (k : A → tm B) :
  safe_theme m → (∀ a, safe_theme (k a)) → safe_theme (m ≫= k).
Proof.
  intros Hm Hk s Hs. destruct (Hm s Hs) as [H1 H2]. rewrite run_bind.
  destruct (m s) as [[e|a] s']; simpl in *; [|by apply Hk]. split; [done|congruence].
Qed.
Lemma safe_theme_ret {A} (a : A) : safe_theme (mret a).
Proof. by intros s Hs. Qed.
Lemma safe_theme_modify f : (∀ s, consistent s → consistent (f s)) → safe_theme (modify f).
Proof. intros H s Hs. split; [by apply H|done]. Qed.
Lemma found_or_yaml : (∃ ps, _discover_themes safe_load py_str builtin user = inr ps) ∨
  _discover_themes safe_load py_str builtin user = inl YAMLError.
Proof.
  assert (∀ files names ps, (∃ ps', load_files safe_load py_str files names ps = inr ps') ∨
    load_files safe_load py_str files names ps = inl YAMLError) as Hf.
  { intros files names. induction names as [|n names IH]; intros ps; simpl; [eauto|].
    destruct (_load_theme_file safe_load py_str (default None (dget files n))) as [[]|c] eqn:E; simpl; auto.
    exfalso. unfold _load_theme_file in E. repeat (case_match; simplify_eq). }
  unfold _discover_themes, load_directory. destruct builtin as [f|], user as [f'|]; simpl; eauto.
  - destruct (Hf f (sorted_names (keep (λ n, endswith n ".yaml") (dkeys f))) []) as [[ps ->]| ->]; simpl; auto.
  - destruct (Hf f (sorted_names (keep (λ n, endswith n ".yaml") (dkeys f))) []) as [[ps ->]| ->]; simpl; eauto.
Qed.

Lemma consistent_palettes ps s : all_complete ps → consistent s → consistent (set_palettes ps s).
Proof. intros Hp []. by split. Qed.

Lemma consistent_loaded colors t s :
  consistent s → colors = [] ∨ complete colors → _build_rich_theme colors = Some t →
  consistent (set_loaded (set_theme t (set_colors colors (_build_status_styles colors) s))).
Proof. intros [] Hc Ht. by split. Qed.

Lemma ensure_loaded_safe : safe_theme (_ensure_loaded safe_load py_str builtin user).
Proof.
  intros s Hs. unfold _ensure_loaded. rewrite run_get. destruct (th_loaded s) eqn:El; [done|].
  rewrite run_modify. unfold lift_err. destruct found_or_yaml as [[ps E]|E]; rewrite E.
  2:{ rewrite run_bind. simpl. split; [|done]. destruct Hs. by split. }
  destruct Hs as [Hp Hc Hst Ht Hu]. pose proof (discover_complete ps E) as Hps.
  rewrite (Hu El) in Hst. change (_build_status_styles []) with ([] : odict string Style) in Hst.
  unfold mbind, M_bind, modify, mret, M_ret, get_state. simpl. rewrite (Hu El), Hst.
  rewrite (dupdate_nil_wf (_build_status_styles _)) by apply styles_wf.
  pose proof (Forall_dupdate _ _ _ Hp Hps) as Hall.
  set (c := dupdate [] (default [] (dget (dupdate (th_palettes s) ps) _DEFAULT_THEME))) in *.
  assert (c = [] ∨ complete c) as Hc'.
  { destruct (palette_complete _ _DEFAULT_THEME Hall) as [E'|Hk]; [left; unfold c; by rewrite E'|].
    right. by apply complete_update. }
  assert (∃ t, _build_rich_theme c = Some t) as [t Et] by (destruct Hc' as [->|]; [by eexists|by apply complete_theme]).
  unfold build_theme. rewrite Et. split; [|done]. by split.
Qed.

Lemma ensure_loaded_flag s : th_loaded (_ensure_loaded safe_load py_str builtin user s).2 = true.
Proof.
  unfold _ensure_loaded. rewrite run_get. destruct (th_loaded s) eqn:E; [done|]. unfold lift_err.
  destruct (_discover_themes _ _ _ _); [done|]. unfold_M. unfold build_theme. by case_match.
Qed.

(** What the caller of [_ensure_loaded] goes on with. *)
Lemma after_ensure {A} (k : tm A) :
  (∀ s, consistent s → th_loaded s = true → consistent (k s).2 ∧ (k s).1 ≠ inl KeyErr) →
  safe_theme (_ensure_loaded safe_load py_str builtin user ;; k).
Proof.
  intros Hk s Hs. destruct (ensure_loaded_safe s Hs) as [H1 H2]. pose proof (ensure_loaded_flag s) as H3.
  rewrite run_bind. destruct (_ensure_loaded _ _ _ _ s) as [[e|[]] s1]; simpl in *; [|by apply Hk]. split; [done|congruence].
Qed.

Lemma set_active_safe name : safe_theme (set_active_theme safe_load py_str builtin user name).
Proof.
  apply after_ensure. intros s Hs Hl. rewrite run_get.
  destruct (dget (th_palettes s) name) as [c|] eqn:E; [|done].
  assert (complete c) as Hc.
  { destruct Hs as [Hp]. rewrite Forall_forall in Hp. by apply (Hp (name, c)), dget_Some_elem. }
  destruct (complete_theme c Hc) as [t Et]. unfold build_theme. rewrite Et. split; [|done].
  destruct Hs. split; simpl; auto. congruence.
Qed.

Lemma theme_do_safe o s : consistent s →
  consistent (theme_do o s).2 ∧ (theme_do o s).1 ≠ Some KeyErr.
Proof.
  assert (∀ A (m : tm A), safe_theme m → consistent s →
    consistent (m s).2 ∧ (match (m s).1 with inl e => Some e | inr _ => None end) ≠ Some KeyErr) as Hdrop.
  { intros A m Hm Hs. destruct (Hm s Hs) as [H1 H2]. split; [done|]. destruct (m s) as [[]]; simpl in *; congruence. }
  destruct o; cbn [theme_do]; apply Hdrop.
  - apply set_active_safe.
  - unfold refresh_themes, lift_err. intros s0 Hs0. destruct found_or_yaml as [[ps E]|E]; rewrite E.
    + split; [|done]. simpl. apply consistent_palettes; [by apply discover_complete|]. by apply consistent_palettes.
    + split; [|done]. by apply consistent_palettes.
  - apply after_ensure. intros s0 Hs0 _. rewrite run_get. apply safe_theme_bind; [apply set_active_safe| |done].
    intros _. apply safe_theme_ret.
  - by apply after_ensure.
  - intros s0 Hs0. unfold get_console. rewrite run_get. destruct (th_console s0); [done|].
    apply after_ensure; [|done]. intros s1 [] _. split; [|done]. by split.
  - intros s0 []. split; [|done]. by split.
Qed.

Definition theme_step (s : themes) (o : theme_op) (s' : themes) : Prop := s' = (theme_do o s).2.

(** Whatever is loaded, refreshed and selected, the colours of every palette are
    complete, styles and theme are those of the active colours, and no operation
    fails for a missing colour: the only failure is a file that is not YAML. *)
Theorem themes_consistent ops s o : steps theme_step initial_themes ops s →
  consistent s ∧ (theme_do o s).1 ≠ Some KeyErr.
Proof.
  intros H. assert (consistent s) as Hs.
  { eapply steps_invariant; [|exact H|apply consistent_initial]. intros s1 l s2 H1 ->. by apply theme_do_safe. }
  split; [done|]. by apply theme_do_safe.
Qed.

(** A selected theme is the one that is shown. *)
Lemma set_active_shows name s s' : set_active_theme safe_load py_str builtin user name s = (inr true, s') →
  th_active s' = name ∧ dget (th_palettes s') name = Some (th_colors s') ∧ th_console s' = None.
Proof.
  unfold set_active_theme. rewrite run_bind. destruct (_ensure_loaded _ _ _ _ s) as [[e|[]] s1]; [done|].
  rewrite run_get. destruct (dget (th_palettes s1) name) as [c|] eqn:E; [|done].
  unfold build_theme. destruct (_build_rich_theme c); [|done]. intros [= <-]. by simpl.
Qed.

(** One file with a syntax error breaks the first use of the themes; after that
    there are none, the built-in ones included. *)
Lemma broken_file_hides_all s : th_loaded s = false → _discover_themes safe_load py_str builtin user = inl YAMLError →
  set_active_theme safe_load py_str builtin user "nord" s = (inl YAMLError, set_loaded s) ∧
  (th_palettes s = [] → set_active_theme safe_load py_str builtin user "nord" (set_loaded s) = (inr false, set_loaded s)).
Proof.
  intros Hl E. unfold set_active_theme, _ensure_loaded, lift_err. split.
  - rewrite run_bind, run_get, Hl, run_modify, E. done.
  - intros Hp. rewrite run_bind, run_get. simpl. rewrite run_get. simpl. by rewrite Hp.
Qed.

(** A console that is asked for before anything has loaded the themes has none. *)
Lemma first_console_plain a b c s' :
  get_console safe_load py_str builtin user a b initial_themes = (inr c, s') → c.1 = [].
Proof.
  unfold get_console. rewrite run_get. simpl. rewrite run_bind.
  destruct (_ensure_loaded _ _ _ _ initial_themes) as [[e|[]] s1]; [done|]. by intros [= <- _].
Qed.
End facts.
