(* ===== verification/Subproc.v ===== *)
(** * Child processes of the backends

    bridge/subprocess_utils.py and bridge/go_stdio_wrapper.py: starting a command,
    logging its output, and stopping it when the block that uses it is left.

    What the operating system does is a record of answers; every await of the clean-up
    can be interrupted by a cancellation, which is no [Exception] for Python. *)
From S2P Require Import Prelude PyDict Effects PyStr.
#[local] Open Scope Z_scope.

Inductive exn := FileNotFoundError | ProcessLookupError | CancelledError | OtherException (what : string).
#[global] Instance exn_eq_dec : EqDecision exn.
Proof. solve_decision. Defined.
Inductive signal := SIGTERM | SIGKILL.

(** ** The command and its environment *)

Definition actual_cmd (sys_executable cmd_to_exec : string) : string :=
  if bool_decide (lower cmd_to_exec = "python") then (if bool_decide (sys_executable = "") then "python" else sys_executable) else cmd_to_exec.
Definition current_env (environ : odict string string) (proc_env : option (odict string string)) : odict string string :=
  match proc_env with Some e => dupdate environ e | None => environ end.

(** ** Logging a stream *)

Inductive reading := Line (s : string) | EndOfStream | ReadFails (e : exn).
(** The lines that are logged, and the reads that are left when the task ends. *)
Fixpoint log_subproc_stream (reads : list reading) : list string * list reading :=
  match reads with
  | [] => ([], [])
  | Line s :: rest =>
      let '(l, unread) := log_subproc_stream rest in
      ((if bool_decide (str_strip s = "") then l else str_strip s :: l), unread)
  | EndOfStream :: rest | ReadFails _ :: rest => ([], rest)
  end.

(** ** Stopping *)

(** The answers of the system to one process: [terminate()] raises or not, the process
    ends within the time that is waited or not, [kill()] raises or not; and where a
    cancellation arrives. *)
Record system := {
  os_terminate : option exn; os_obeys : bool; os_kill : option exn;
  os_cancel_gather : bool; os_cancel_wait : bool; os_cancel_last : bool }.
Record child := { ch_alive : bool; ch_signals : list signal }.
Definition send_signal (s : signal) (dies : bool) (c : child) : child :=
  {| ch_alive := ch_alive c && negb dies; ch_signals := ch_signals c ++ [s] |}.
Abbreviation ch A := (M child exn A).

Definition raises (e : option exn) : ch () := match e with Some e => raise e | None => mret () end.
Definition kill_and_wait (o : system) : ch () :=
  raises (os_kill o) ;;
  modify (send_signal SIGKILL true) ;;
  if os_cancel_last o then raise CancelledError else mret ().
(** The clause of the time-out is outside of the [try], so what it raises is not
    caught. *)
Definition terminate_subproc (o : system) : ch () := λ c,
  match raises (os_terminate o) c with
  | (inl CancelledError, c) => (inl CancelledError, c)
  | (inl _, c) => (inr (), c)
  | (inr _, c) =>
      let c := send_signal SIGTERM (os_obeys o) c in
      if os_cancel_wait o then (inl CancelledError, c)
      else if ch_alive c then kill_and_wait o c else (inr (), c)
  end.

(** [gather] with [return_exceptions] of the cancelled tasks. *)
Definition cancel_stream_loggers (o : system) (loggers : list bool) : ch (list bool) :=
  if os_cancel_gather o && negb (bool_decide (loggers = [])) then raise CancelledError else mret (replicate (length loggers) false).

(** ** The block *)

Record result (A : Type) := { rs_value : exn + A; rs_child : option child; rs_loggers : list bool }.
Arguments rs_value {A}. Arguments rs_child {A}. Arguments rs_loggers {A}.
Definition started : child := {| ch_alive := true; ch_signals := [] |}.
(** [spawn] is the exception of the start, if there is one; [body] what is done with the
    process, during which it may end. The loggers belong to its two pipes. *)
Definition manage_subproc {A} (spawn : option exn) (o : system) (body : ch A) : result A :=
  match spawn with
  | Some e => {| rs_value := inl e; rs_child := None; rs_loggers := [] |}
  | None =>
      let '(r, c) := body started in
      match cancel_stream_loggers o [true; true] c with
      | (inl e, c) => {| rs_value := inl e; rs_child := Some c; rs_loggers := [false; false] |}
      | (inr loggers, c) =>
          let '(q, c) := if ch_alive c then terminate_subproc o c else (inr (), c) in
          {| rs_value := match q with inl e => inl e | inr _ => r end; rs_child := Some c; rs_loggers := loggers |}
      end
  end.

(** ** The wrapper in Go *)

Record go_cache := { go_binary : option string; go_checked : bool }.
Section go.
Context (realpath : string → string) (executable : string → bool) (project_root : string) (which : option string).
Definition _find_go_binary (env_path : option string) (g : go_cache) : option string * go_cache :=
  if go_checked g then (go_binary g, g)
  else
    let from_env := match env_path with Some p => if bool_decide (p = "") then [] else [realpath p] | None => [] end in
    let in_project := (λ n, project_root +:+ "/tools/mcp-stdio-wrapper/" +:+ n) <$> ["mcp-stdio-wrapper"; "mcp-stdio-wrapper.exe"] in
    let found := match List.find executable (from_env ++ in_project) with
                 | Some b => Some b
                 | None => if str_truthy which then which else None
                 end in
    (found, {| go_binary := found; go_checked := true |}).
Definition wrapper_cmd (binary server_name kill_timeout buf_size : string) (command : list string) : list string :=
  [binary; "--kill-timeout"; kill_timeout +:+ "s"; "--log-prefix"; server_name; "--buf-size"; buf_size; "--"] ++ command.
End go.
(** Here the time-out is handled inside of the [try] that expects a process that is
    gone. *)
Definition stop_wrapper (o : system) : ch () := λ c,
  match raises (os_terminate o) c with
  | (inl ProcessLookupError, c) => (inr (), c)
  | (inl e, c) => (inl e, c)
  | (inr _, c) =>
      let c := send_signal SIGTERM (os_obeys o) c in
      if os_cancel_wait o then (inl CancelledError, c)
      else if ch_alive c then
        match kill_and_wait o c with
        | (inl ProcessLookupError, c) => (inr (), c)
        | r => r
        end
      else (inr (), c)
  end.
(** With the binary; without it the block is [manage_subproc]. *)
Definition manage_subproc_go {A} (binary : option string) (spawn : option exn) (o : system) (body : ch A) : result A :=
  match binary with
  | None => manage_subproc spawn o body
  | Some _ =>
      match spawn with
      | Some e => {| rs_value := inl e; rs_child := None; rs_loggers := [] |}
      | None =>
          let '(r, c) := body started in
          let '(q, c) := if ch_alive c then stop_wrapper o c else (inr (), c) in
          {| rs_value := match q with inl e => inl e | inr _ => r end; rs_child := Some c; rs_loggers := [] |}
      end
  end.

(** ** Leaving the block *)

Definition uninterrupted (o : system) : Prop := os_cancel_gather o = false ∧ os_cancel_wait o = false ∧ os_cancel_last o = false.

(** Stopping a live process: it gets the polite signal, and the other one exactly when it
    does not obey; afterwards it has ended. *)
Lemma terminate_ends o c : uninterrupted o → os_terminate o = None → os_kill o = None → ch_alive c = true →
  terminate_subproc o c = (inr (), {| ch_alive := false; ch_signals := ch_signals c ++ SIGTERM :: (if os_obeys o then [] else [SIGKILL]) |}).
Proof.
  intros (_ & Hw & Hl) Ht Hk Ha. unfold terminate_subproc, kill_and_wait, raises. rewrite Ht, Hk. simpl. rewrite Hw. unfold send_signal. simpl.
  rewrite Ha. destruct (os_obeys o); simpl; [done|]. unfold mbind, M_bind. simpl. rewrite Hl. by rewrite <-app_assoc.
Qed.

(** A block that is left, in whatever way, leaves no logger and no process behind, and
    returns or raises what its body did; unless a cancellation interrupts the clean-up or
    the system refuses a signal. *)
Theorem subproc_cleaned {A} spawn o (body : ch A) binary : uninterrupted o → os_terminate o = None → os_kill o = None →
  let r := manage_subproc_go binary spawn o body in
  Forall (λ alive, alive = false) (rs_loggers r) ∧
  match spawn with
  | Some e => rs_child r = None ∧ rs_value r = inl e
  | None => rs_value r = (body started).1 ∧ ∃ c, rs_child r = Some c ∧ ch_alive c = false ∧
      ch_signals c = ch_signals (body started).2 ++
        (if ch_alive (body started).2 then SIGTERM :: (if os_obeys o then [] else [SIGKILL]) else [])
  end.
Proof.
  intros Ho Ht Hk. pose proof Ho as (Hg & Hw & Hl). cbv zeta.
  destruct spawn as [e|].
  { destruct binary; simpl; (split; [constructor|done]). }
  assert (∀ c, ch_alive c = true → stop_wrapper o c = terminate_subproc o c) as Hgo.
  { intros c Ha. rewrite terminate_ends by done. unfold stop_wrapper, kill_and_wait, raises. rewrite Ht, Hk. simpl. rewrite Hw.
    unfold send_signal. simpl. rewrite Ha. destruct (os_obeys o); simpl; [done|]. unfold mbind, M_bind. simpl. rewrite Hl. by rewrite <-app_assoc. }
  unfold manage_subproc_go, manage_subproc. destruct (body started) as [r c]. cbn [fst snd].
  unfold cancel_stream_loggers. rewrite Hg. cbn [andb].
  destruct binary; simpl; destruct (ch_alive c) eqn:Ea; try (rewrite ?(Hgo c Ea), terminate_ends by done); simpl;
    (split; [repeat first [apply Forall_nil_2|apply Forall_cons_2; [reflexivity|]]|]); (split; [done|]); eexists;
    (split; [reflexivity|]); by rewrite ?app_nil_r.
Qed.
Lemma subproc_cleaned_witness :
  let o := {| os_terminate := None; os_obeys := false; os_kill := None; os_cancel_gather := false; os_cancel_wait := false; os_cancel_last := false |} in
  let body : ch () := raise (OtherException "lost") in
  let r := manage_subproc_go None None o body in
  Forall (λ alive, alive = false) (rs_loggers r) ∧ rs_value r = inl (OtherException "lost") ∧
  ∃ c, rs_child r = Some c ∧ ch_alive c = false ∧ ch_signals c = [SIGTERM; SIGKILL].
Proof.
  cbv zeta.
  apply (subproc_cleaned None {| os_terminate := None; os_obeys := false; os_kill := None; os_cancel_gather := false; os_cancel_wait := false;
    os_cancel_last := false |} (raise (OtherException "lost") : ch ()) None); done.
Defined.

(** A cancellation that arrives while the loggers are awaited skips the rest of the
    clean-up: the process goes on, without any signal. *)
Lemma cancelled_cleanup_leaks {A} o (body : ch A) r c : os_cancel_gather o = true → body started = (r, c) →
  rs_child (manage_subproc None o body) = Some c ∧ rs_value (manage_subproc None o body) = inl CancelledError.
Proof. intros Hg Hb. unfold manage_subproc, cancel_stream_loggers. rewrite Hb, Hg. done. Qed.
(** A process that ends between the time-out and the second signal makes the block raise
    in the place of its own result; the wrapper handles this case. *)
Lemma kill_race_raises {A} o (body : ch A) r c : uninterrupted o → os_terminate o = None → os_obeys o = false →
  os_kill o = Some ProcessLookupError → body started = (r, c) → ch_alive c = true →
  rs_value (manage_subproc None o body) = inl ProcessLookupError ∧ rs_value (manage_subproc_go (Some "wrapper") None o body) = r.
Proof.
  intros (Hg & Hw & Hl) Ht Hno Hk Hb Ha.
  unfold manage_subproc_go, manage_subproc, cancel_stream_loggers, terminate_subproc, stop_wrapper, kill_and_wait, raises.
  rewrite Hb, Hg. cbn [andb]. simpl. rewrite Ha, Ht, Hk. simpl. rewrite Hw. unfold send_signal. simpl. rewrite Ha, Hno. simpl. done.
Qed.

(** Logging reads up to the end of the stream; but after a read that fails, for instance
    because a line is longer than the buffer, nobody reads the pipe any more. *)
Lemma log_all ls rest : log_subproc_stream ((Line <$> ls) ++ EndOfStream :: rest) = (keep (λ l, negb (bool_decide (l = ""))) (str_strip <$> ls), rest).
Proof.
  induction ls as [|l ls IH]; [done|]. rewrite !fmap_cons. cbn [app log_subproc_stream]. rewrite IH. simpl. by case_bool_decide.
Qed.
Lemma long_line_stops_reading ls e rest : (log_subproc_stream ((Line <$> ls) ++ ReadFails e :: rest)).2 = rest.
Proof.
  induction ls as [|l ls IH]; [done|]. rewrite fmap_cons. cbn [app log_subproc_stream]. destruct (log_subproc_stream _) as [x y]. exact IH.
Qed.

(** The variables of the backend take precedence over those of the server. *)
Lemma env_of_backend environ e k v : dget e k = Some v → dict_wf e → dget (current_env environ (Some e)) k = Some v.
Proof. intros Hk Hw. unfold current_env. rewrite dget_dupdate by done. by rewrite Hk. Qed.

(** The search is made once: what is found does not depend on later changes. *)
Lemma binary_cached realpath executable root which env1 env2 realpath' executable' root' which' g r g' :
  _find_go_binary realpath executable root which env1 g = (r, g') →
  _find_go_binary realpath' executable' root' which' env2 g' = (r, g').
Proof.
  unfold _find_go_binary. destruct (go_checked g) eqn:E; intros [= <- <-]; simpl; [by rewrite E|done].
Qed.
