(* ===== verification/Wizard.v ===== *)
(** * The set-up wizard

    tui/screens/setup_wizard.py: an editor for the configuration file, templates for
    backends, and starting points.  YAML, the file system outside of the files of the
    state, [expanduser] and the search for the configuration file are parameters. *)
From S2P Require Import Prelude PyDict Effects PyStr.
From Stdlib Require Import Ascii.
#[local] Open Scope Z_scope.

Definition newline : ascii := ascii_of_nat 10.
Definition quote : string := text [ascii_of_nat 34].
Definition unlines (l : list string) : string := String.concat "" ((λ s, s +:+ nl) <$> l).
Definition lines_of : string → list string := str_split newline.
Definition join_lines (l : list string) : string := text (join_with newline (chars <$> l)).

(** ** Templates *)

Definition quoted (s : string) : string := quote +:+ s +:+ quote.
Definition times : list string := ["    timeouts:"; "      init: 60"; "      cap_fetch: 30"].
Definition _STDIO_TEMPLATE (name command arg : string) : string :=
  unlines (["  " +:+ name +:+ ":"; "    type: stdio"; "    command: " +:+ command; "    args:"; "      - " +:+ quoted arg] ++ times).
Definition remote_template (type name url : string) : string :=
  unlines (["  " +:+ name +:+ ":"; "    type: " +:+ type; "    url: " +:+ quoted url; "    headers:";
            "      Authorization: " +:+ quoted "Bearer ${API_TOKEN}"] ++ times).
Definition _SSE_TEMPLATE : string → string → string := remote_template "sse".
Definition _HTTP_TEMPLATE : string → string → string := remote_template "streamable-http".
Definition _MINIMAL_CONFIG : string :=
  unlines ["# Argus MCP Configuration"; "# Documentation: docs/configuration.md"; ""; "version: " +:+ quoted "1"; ""; "server:";
           "  host: " +:+ quoted "127.0.0.1"; "  port: 9000"; "  transport: streamable-http"; "  management:"; "    enabled: true"; "";
           "backends:"; "  # Add your MCP server backends below."; "  # Use the " +:+ quoted "Add Backend" +:+ " tab for quick templates."; "  {}"; "";
           "conflict_resolution:"; "  strategy: first-wins"; ""; "audit:"; "  enabled: true"; "  file: " +:+ quoted "logs/audit.jsonl"; "";
           "feature_flags:"; "  hot_reload: true"].

(** [s.split(None, 1)] of a stripped string. *)
Definition first_and_rest (s : string) : string * option string :=
  let '(w, rest) := span (λ c, negb (is_blank_char c)) (chars s) in
  (text w, match drop_while is_blank_char rest with [] => None | r => Some (text r) end).
Inductive backend_type := Stdio | Sse | StreamableHttp.
Definition _generate_snippet (name : string) (btype : backend_type) (cmd_or_url : string) : string :=
  let name := str_or (Some (str_strip name)) "my-server" in
  let cmd_or_url := str_strip cmd_or_url in
  match btype with
  | Stdio =>
      let '(command, arg) := if bool_decide (cmd_or_url = "") then ("python", Some "server.py") else first_and_rest cmd_or_url in
      _STDIO_TEMPLATE name command (default "server.py" arg)
  | Sse => _SSE_TEMPLATE name (str_or (Some cmd_or_url) "http://127.0.0.1:8000/mcp_sse")
  | StreamableHttp => _HTTP_TEMPLATE name (str_or (Some cmd_or_url) "http://127.0.0.1:8000/mcp")
  end.

(** ** Adding a snippet to the text *)

Fixpoint index_of (f : string → bool) (l : list string) : option nat :=
  match l with
  | [] => None
  | x :: rest => if f x then Some 0%nat else S <$> index_of f rest
  end.
Definition is_backends (line : string) : bool := startswith (str_strip line) "backends:".
(** What the source takes for the next key of the top level. *)
Definition next_key (line : string) : bool :=
  let stripped := str_strip line in
  negb (bool_decide (stripped = "")) && negb (startswith stripped "#") && negb (startswith stripped " ") && contains stripped ":".
Definition insert_at (i : nat) (x : string) (l : list string) : list string := take i l ++ x :: drop i l.
Definition with_snippet (current preview : string) : string :=
  if contains current "backends:" then
    let lines := lines_of current in
    match index_of is_backends lines with
    | Some i =>
        let start := S i in
        let end_idx := match index_of next_key (drop start lines) with Some j => (start + j)%nat | None => length lines end in
        join_lines (insert_at end_idx preview lines)
    | None => current +:+ nl +:+ preview
    end
  else current +:+ nl +:+ "backends:" +:+ nl +:+ preview.

(** ** The screen *)

Record wizard := {
  wz_editor : string; wz_path : string; wz_preview : string; wz_files : odict string string; wz_notes : list string }.
Definition set_editor (s : string) (w : wizard) : wizard :=
  {| wz_editor := s; wz_path := wz_path w; wz_preview := wz_preview w; wz_files := wz_files w; wz_notes := wz_notes w |}.
Definition set_path (p : string) (w : wizard) : wizard :=
  {| wz_editor := wz_editor w; wz_path := p; wz_preview := wz_preview w; wz_files := wz_files w; wz_notes := wz_notes w |}.
Definition set_preview (s : string) (w : wizard) : wizard :=
  {| wz_editor := wz_editor w; wz_path := wz_path w; wz_preview := s; wz_files := wz_files w; wz_notes := wz_notes w |}.
Definition tell (s : string) (w : wizard) : wizard :=
  {| wz_editor := wz_editor w; wz_path := wz_path w; wz_preview := wz_preview w; wz_files := wz_files w; wz_notes := wz_notes w ++ [s] |}.
Definition write_text (p s : string) (w : wizard) : wizard :=
  {| wz_editor := wz_editor w; wz_path := wz_path w; wz_preview := wz_preview w; wz_files := dset (wz_files w) p s; wz_notes := wz_notes w |}.

Section wizard.
Context (safe_load : string → string + pyval) (expanduser : string → string) (find_config_file project_root : string).
(** A path at which a file cannot be written. *)
Context (refused : string → bool).

Definition _validate_yaml (s : string) : option string :=
  match safe_load s with
  | inl e => Some ("YAML parse error: " +:+ e)
  | inr (PDict data) => if dmem data "version" then None else Some "Missing required field: 'version'"
  | inr _ => Some "Config must be a YAML mapping (dict) at the top level."
  end.
Definition _find_config_path (w : wizard) : string :=
  if dmem (wz_files w) find_config_file then find_config_file else project_root +:+ "/config.yaml".
Definition _load_config_text (w : wizard) : string := default _MINIMAL_CONFIG (dget (wz_files w) (_find_config_path w)).

Definition try_write (p s : string) (ok : wizard → wizard) (failed : string) (w : wizard) : wizard :=
  if refused p then tell failed w else ok (write_text p s w).
Definition _save (w : wizard) : wizard :=
  match _validate_yaml (wz_editor w) with
  | Some err => tell ("Cannot save — invalid YAML: " +:+ err) w
  | None => try_write (wz_path w) (wz_editor w) (tell ("Configuration saved to " +:+ wz_path w)) "Save failed" w
  end.
(** The path is what the dialogue was left with. *)
Definition _save_as (path_str : option string) (w : wizard) : wizard :=
  if str_truthy path_str then
    match _validate_yaml (wz_editor w) with
    | Some err => tell ("Invalid YAML: " +:+ err) w
    | None =>
        let dest := expanduser (default "" path_str) in
        try_write dest (wz_editor w) (λ w, tell ("Saved to " +:+ dest) (set_path dest w)) "Save failed" w
    end
  else w.
Definition _import_config (path_str : option string) (w : wizard) : wizard :=
  if str_truthy path_str then
    let src := expanduser (default "" path_str) in
    match dget (wz_files w) src with
    | None => tell ("File not found: " +:+ src) w
    | Some content =>
        let w := match _validate_yaml content with Some err => tell ("Imported file has errors: " +:+ err) w | None => w end in
        tell ("Imported: " +:+ src) (set_path src (set_editor content w))
    end
  else w.
Definition _export_config (path_str : option string) (w : wizard) : wizard :=
  if str_truthy path_str then
    let dest := expanduser (default "" path_str) in
    try_write dest (wz_editor w) (tell ("Exported to " +:+ dest)) "Export failed" w
  else w.
Definition _reset (w : wizard) : wizard := tell "Editor reset to saved config." (set_path (_find_config_path w) (set_editor (_load_config_text w) w)).
Definition _copy_to_editor (w : wizard) : wizard :=
  if bool_decide (str_strip (wz_preview w) = "") then tell "Generate a snippet first." w
  else tell "Snippet added to Config Editor." (set_editor (with_snippet (wz_editor w) (wz_preview w)) w).
Definition _load_template (s name : string) (w : wizard) : wizard := tell ("Loaded '" +:+ name +:+ "' template into editor.") (set_editor s w).
Definition _load_template_from_file (p name : string) (w : wizard) : wizard :=
  match dget (wz_files w) p with Some s => _load_template s name w | None => tell ("File not found: " +:+ p) w end.
Definition _load_selected (row : Z) (w : wizard) : wizard :=
  if row =? 0 then _load_template _MINIMAL_CONFIG "Minimal" w
  else if row =? 1 then _load_template_from_file (project_root +:+ "/example_config.yaml") "Example" w
  else if row =? 2 then _load_template (_load_config_text w) "Current" w
  else w.

Inductive wizard_op :=
  | WType (s : string) | WSave | WSaveAs (p : option string) | WImport (p : option string) | WExport (p : option string) | WReset
  | WGenerate (name : string) (btype : backend_type) (cmd : string) | WCopy | WLoad (row : Z).
Definition wizard_do (o : wizard_op) (w : wizard) : wizard :=
  match o with
  | WType s => set_editor s w
  | WSave => _save w
  | WSaveAs p => _save_as p w
  | WImport p => _import_config p w
  | WExport p => _export_config p w
  | WReset => _reset w
  | WGenerate n t c => set_preview (_generate_snippet n t c) w
  | WCopy => _copy_to_editor w
  | WLoad row => _load_selected row w
  end.

(** ** What reaches the files *)

Lemma try_write_files p s ok failed w : (∀ w, wz_files (ok w) = wz_files w) →
  wz_files (try_write p s ok failed w) = wz_files w ∨ wz_files (try_write p s ok failed w) = dset (wz_files w) p s.
Proof. intros Hok. unfold try_write. destruct (refused p); [by left|right]. by rewrite Hok. Qed.

(** The effect of one operation on the files: none, or the text of the editor at one
    place, which is checked before unless it is an export. *)
Lemma wizard_writes o w :
  wz_files (wizard_do o w) = wz_files w ∨
  ∃ p, wz_files (wizard_do o w) = dset (wz_files w) p (wz_editor w) ∧
    (_validate_yaml (wz_editor w) = None ∨ ∃ q, o = WExport q).
Proof.
  destruct o as [s| |p|p|p| |n t c| |row]; simpl; try by left.
  - unfold _save. destruct (_validate_yaml (wz_editor w)) eqn:E; [by left|].
    destruct (try_write_files (wz_path w) (wz_editor w) (tell ("Configuration saved to " +:+ wz_path w)) "Save failed" w) as [->| ->];
      [done|by left|right; eauto].
  - unfold _save_as. destruct (str_truthy p); [|by left]. destruct (_validate_yaml (wz_editor w)) eqn:E; [by left|]. cbv zeta.
    set (dest := expanduser _).
    destruct (try_write_files dest (wz_editor w) (λ w, tell ("Saved to " +:+ dest) (set_path dest w)) "Save failed" w) as [->| ->];
      [done|by left|right; eauto].
  - left. unfold _import_config. destruct (str_truthy p); [|done]. destruct (dget _ _) as [content|]; [|done]. by destruct (_validate_yaml content).
  - unfold _export_config. destruct (str_truthy p); [|by left]. cbv zeta. set (dest := expanduser _).
    destruct (try_write_files dest (wz_editor w) (tell ("Exported to " +:+ dest)) "Export failed" w) as [->| ->]; [done|by left|right; eauto].
  - left. unfold _copy_to_editor. by case_bool_decide.
  - left. unfold _load_selected, _load_template_from_file. repeat (case_match; try done).
Qed.

(** The files that the wizard wrote are valid: over every history without an export, a
    file is unchanged, or holds a mapping with a version. *)
Theorem written_files_valid w0 ops w : Forall (λ o, ∀ q, o ≠ WExport q) ops → steps (λ w o w', w' = wizard_do o w) w0 ops w →
  ∀ p s, dget (wz_files w) p = Some s → dget (wz_files w0) p = Some s ∨ _validate_yaml s = None.
Proof.
  intros Hall Hs. induction Hs as [w|w1 o w2 ops w3 Hstep Hs IH]; [by left|]. subst.
  apply Forall_cons in Hall as [Ho Hall]. intros p s Hp. destruct (IH Hall p s Hp) as [H|H]; [|by right].
  destruct (wizard_writes o w1) as [E|(q & E & [Hv|[x ->]])].
  - rewrite E in H. by left.
  - rewrite E, dget_dset in H. case_decide; [simplify_eq; by right|by left].
  - by destruct (Ho x).
Qed.

(** Importing a file makes it the one that [Save] writes. *)
Lemma import_then_save p content s w : p ≠ "" → dget (wz_files w) (expanduser p) = Some content → refused (expanduser p) = false →
  _validate_yaml s = None →
  dget (wz_files (wizard_do WSave (wizard_do (WType s) (wizard_do (WImport (Some p)) w)))) (expanduser p) = Some s.
Proof.
  intros Hp Hc Hr Hv. simpl. unfold _import_config. destruct p as [|a p]; [done|]. simpl. simpl in Hc, Hr. rewrite Hc.
  unfold _save, try_write. destruct (_validate_yaml content); simpl; rewrite Hv, Hr; simpl; by rewrite dget_dset_eq.
Qed.
End wizard.

(** ** Where a snippet goes *)

(** The lines are stripped before they are looked at, so the first backend counts as the
    next key of the top level: the snippet is put before it, not at the end. *)
Example snippet_before_first_backend :
  with_snippet (join_lines ["backends:"; "  a:"; "    type: stdio"; "audit:"]) "  b:" =
  join_lines ["backends:"; "  b:"; "  a:"; "    type: stdio"; "audit:"].
Proof. vm_compute. reflexivity. Qed.
(** In the minimal configuration the empty mapping stays in front of the snippet, which
    is no YAML. *)
Example snippet_after_empty_mapping :
  contains (with_snippet _MINIMAL_CONFIG (_generate_snippet "x" Stdio "")) (join_lines ["  {}"; ""; "  x:"; "    type: stdio"]) = true.
Proof. vm_compute. reflexivity. Qed.
(** All the words after the command become one argument, also for the command that the
    field shows as an example. *)
Example one_argument :
  contains (_generate_snippet "x" Stdio "npx -y @org/mcp-server") (join_lines ["    command: npx"; "    args:"; "      - " +:+ quoted "-y @org/mcp-server"]) = true.
Proof. vm_compute. reflexivity. Qed.

Lemma written_files_valid_witness :
  let load (s : string) : string + pyval := if contains s "version" then inr (PDict [("version", PStr "1")]) else inl "syntax" in
  let w0 := {| wz_editor := ""; wz_path := "/c"; wz_preview := ""; wz_files := []; wz_notes := [] |} in
  let ops := [WType "broken"; WSave; WLoad 0; WSave] in
  let w := foldl (λ w o, wizard_do load id "/c" "/" (λ _, false) o w) w0 ops in
  wz_files w = [("/c", _MINIMAL_CONFIG)] ∧
  ∀ p s, dget (wz_files w) p = Some s → dget (wz_files w0) p = Some s ∨ _validate_yaml load s = None.
Proof.
  cbv zeta. split; [vm_compute; reflexivity|].
  apply (written_files_valid (λ s, if contains s "version" then inr (PDict [("version", PStr "1")]) else inl "syntax") id "/c" "/" (λ _, false) _
    [WType "broken"; WSave; WLoad 0; WSave]); [repeat constructor; done|]. repeat (econstructor; [reflexivity|]). constructor.
Defined.
