(* ===== verification/Installer.v ===== *)
(** * The display of start-up progress

    display/braille.py: bars of braille cells; display/installer.py: the state of
    every backend, what is shown for it, and the updates that the start-up sends.

    A bar is a list of cells, a cell a mask of eight dots with a style.  Fractions
    are pairs of integers where the source has floats.  What is shown is kept as
    data: rows with icon, label, bar, status and timer.  Time is in milliseconds;
    a reading of 0 is the "not set" of the source.  A call that reads the clock
    takes the readings as arguments. *)
From S2P Require Import Prelude PyDict PyStr Url Json.
From Stdlib Require Import Ascii.
#[local] Open Scope Z_scope.

(** ** Bars *)

Definition BRAILLE_BASE : Z := 0x2800.
Definition DOT_BITS : list Z := [0x01; 0x02; 0x04; 0x40; 0x80; 0x20; 0x10; 0x08].
Definition SPARSE_MASKS : list Z :=
  [0x00; 0x01; 0x02; 0x04; 0x08; 0x10; 0x20; 0x40; 0x80; 0x03; 0x18; 0x24; 0x42; 0x81].
Definition braille (mask : Z) : Z := BRAILLE_BASE + Z.land mask 0xFF.

(** A fraction [num / den] with a positive denominator. *)
Record frac := { fr_num : Z; fr_den : Z }.
Definition _clamp01 (f : frac) : frac :=
  if fr_num f <? 0 then {| fr_num := 0; fr_den := 1 |}
  else if fr_den f <? fr_num f then {| fr_num := 1; fr_den := 1 |} else f.

(** [round(a / b)]: to the nearest integer, halves to the even one. *)
Definition round_div (a b : Z) : Z :=
  let q := a / b in let r := 2 * (a mod b) in
  if r <? b then q else if b <? r then q + 1 else if Z.even q then q else q + 1.

Definition _hash32 (a b c : Z) : Z :=
  let value := Z.lxor (Z.lxor (a * 0x45D9F3B) (b * 0x27D4EB2D)) (c * 0x165667B1) in
  let value := Z.lxor value (Z.shiftr value 15) in
  let value := value * 0x2C1B3C6D in
  let value := Z.lxor value (Z.shiftr value 12) in
  Z.land value 0xFFFFFFFF.

Definition _base_shard_masks (frame : Z) (width : nat) (salt : Z) : list Z :=
  (λ i, nth (Z.to_nat (_hash32 frame (Z.of_nat i) salt mod Z.of_nat (length SPARSE_MASKS))) SPARSE_MASKS 0) <$> seq 0 width.
Definition _ordered_missing_bits (base_mask index salt : Z) : list Z :=
  sort_by (λ bit, _hash32 index salt bit) (keep (λ bit, Z.land base_mask bit =? 0) DOT_BITS).
Definition add_bits (mask : Z) (bits : list Z) : Z := foldl Z.lor mask bits.
Definition _fill_mask_from_gaps (base_mask : Z) (local_progress : frac) (index salt : Z) : Z :=
  if fr_num local_progress <=? 0 then base_mask
  else if fr_den local_progress <=? fr_num local_progress then 0xFF
  else
    let missing := _ordered_missing_bits base_mask index salt in
    match missing with
    | [] => 0xFF
    | _ =>
        let add_count := Z.max 1 (round_div (fr_num local_progress * Z.of_nat (length missing)) (fr_den local_progress)) in
        add_bits base_mask (take (Z.to_nat add_count) missing)
    end.

(** The cells of a bar without its brackets, with the style that all callers give. *)
Definition cell : Type := Z * string.
Definition _build_mask_line (masks : list Z) (style : string) : list cell :=
  (λ mask, (mask, if mask =? 0 then "grey23" else style)) <$> masks.
Definition render_solid_bar (width : nat) (style : string) : list cell := replicate width (0xFF, style).
Definition render_empty_bar (width : nat) : list cell := replicate width (0x00, "grey23").

(** The cell at position [i] of a bar that is filled to [exact / den] cells. *)
Definition progress_cell (exact den : Z) (style : string) (i : nat) : cell :=
  let full_cells := exact / den in let partial := exact mod den in
  if Z.of_nat i <? full_cells then (0xFF, style)
  else if (Z.of_nat i =? full_cells) && (0 <? partial) then
    (add_bits 0 (take (Z.to_nat (Z.max 1 (round_div (partial * 8) den))) DOT_BITS), style)
  else (0x00, "grey23").
Definition render_progress_bar (progress : frac) (width : nat) (style : string) : list cell :=
  let p := _clamp01 progress in progress_cell (fr_num p * Z.of_nat width) (fr_den p) style <$> seq 0 width.

(** 8.8 seconds to rise, 2.6 seconds to hold. *)
Definition _solidify_progress (elapsed rise hold : Z) : frac :=
  let moment := elapsed mod (rise + hold) in
  if rise <=? moment then {| fr_num := 1; fr_den := 1 |} else {| fr_num := moment; fr_den := rise |}.
Definition _threshold_scattered (index : Z) : frac :=
  {| fr_num := 8 * 0xFFFF + 72 * Z.land (_hash32 index 211 911) 0xFFFF; fr_den := 100 * 0xFFFF |}.
(** [(a - b) / 0.22] *)
Definition local_progress (a b : frac) : frac :=
  {| fr_num := 100 * (fr_num a * fr_den b - fr_num b * fr_den a); fr_den := 22 * (fr_den a * fr_den b) |}.
Definition render_scattered_bar (elapsed : Z) (width : nat) (style : string) (salt : Z) : list cell :=
  let frame := elapsed * 54 / 10000 in
  let progress := _solidify_progress elapsed 8800 2600 in
  let base_masks := _base_shard_masks frame width salt in
  _build_mask_line
    (imap (λ i base_mask, _fill_mask_from_gaps base_mask (_clamp01 (local_progress progress (_threshold_scattered (Z.of_nat i))))
                            (Z.of_nat i) (salt + 100)) base_masks) style.

(** The dots of a cell and of a bar. *)
Definition dots (mask : Z) : Z := Z.of_nat (length (keep (λ bit, negb (Z.land mask bit =? 0)) DOT_BITS)).
Definition bar_dots (bar : list cell) : Z := foldr (λ c n, dots c.1 + n) 0 bar.

Example third_of_bar : bar_dots (render_progress_bar {| fr_num := 1; fr_den := 3 |} 17 "x") = 45.
Proof. vm_compute. reflexivity. Qed.
Example scattered_ends_solid : bar_dots (render_scattered_bar 9000 17 "x" 68) = 136.
Proof. vm_compute. reflexivity. Qed.

(** ** A progress bar shows the progress *)

Lemma bar_dots_app a b : bar_dots (a ++ b) = bar_dots a + bar_dots b.
Proof. induction a as [|c a IH]; simpl; lia. Qed.

Lemma dots_prefix n : (n ≤ 8)%nat → dots (add_bits 0 (take n DOT_BITS)) = Z.of_nat n.
Proof. intros H. do 9 (destruct n as [|n]; [vm_compute; reflexivity|]). lia. Qed.

(** The dots of the cell that is partly filled. *)
Definition partial_dots (exact den : Z) : Z :=
  if 0 <? exact mod den then Z.max 1 (round_div (exact mod den * 8) den) else 0.

Lemma round_div_bounds a b : 0 < b → 2 * a - b <= 2 * b * round_div a b <= 2 * a + b.
Proof.
  intros Hb. unfold round_div. cbv zeta. pose proof (Z.div_mod a b ltac:(lia)) as E. pose proof (Z.mod_pos_bound a b Hb) as Hr.
  set (q := a / b) in *. set (r := a mod b) in *. case_tests; nia.
Qed.
Lemma round_div_mono a a' b : 0 < b → a <= a' → round_div a b <= round_div a' b.
Proof.
  intros Hb Ha. unfold round_div. cbv zeta.
  pose proof (Z.div_mod a b ltac:(lia)) as E. pose proof (Z.mod_pos_bound a b Hb) as Hr.
  pose proof (Z.div_mod a' b ltac:(lia)) as E'. pose proof (Z.mod_pos_bound a' b Hb) as Hr'.
  pose proof (Z.div_le_mono a a' b Hb Ha) as Hq.
  set (q := a / b) in *. set (r := a mod b) in *. set (q' := a' / b) in *. set (r' := a' mod b) in *.
  destruct (decide (q = q')) as [Eq|Hne]; [|case_tests; lia].
  assert (r <= r') by nia. rewrite Eq in *. case_tests; lia.
Qed.

Lemma partial_dots_bounds exact den : 0 < den → 0 <= partial_dots exact den <= 8.
Proof.
  intros Hd. unfold partial_dots. pose proof (Z.mod_pos_bound exact den Hd) as Hm. case_test; [|lia].
  pose proof (round_div_bounds (exact mod den * 8) den Hd) as Hb. nia.
Qed.

Lemma cell_dots exact den style i : 0 < den → 0 <= exact →
  dots (progress_cell exact den style i).1 =
    if Z.of_nat i <? exact / den then 8 else if Z.of_nat i =? exact / den then partial_dots exact den else 0.
Proof.
  intros Hd He. unfold progress_cell, partial_dots. cbv zeta. pose proof (partial_dots_bounds exact den Hd) as Hp. unfold partial_dots in Hp.
  destruct (Z.of_nat i <? exact / den); [vm_compute; reflexivity|]. destruct (Z.of_nat i =? exact / den); [|vm_compute; reflexivity].
  destruct (0 <? exact mod den); simpl; [|vm_compute; reflexivity]. rewrite dots_prefix; lia.
Qed.

Lemma cells_dots exact den style width : 0 < den → 0 <= exact →
  bar_dots (progress_cell exact den style <$> seq 0 width) =
    8 * Z.min (Z.of_nat width) (exact / den) + (if exact / den <? Z.of_nat width then partial_dots exact den else 0).
Proof.
  intros Hd He. assert (0 <= exact / den) as Hq by (apply Z.div_pos; lia).
  induction width as [|w IH]; [simpl; case_tests; lia|].
  rewrite seq_S, fmap_app, bar_dots_app, IH. cbn [fmap list_fmap bar_dots foldr]. rewrite cell_dots by done. simpl Nat.add.
  rewrite Nat2Z.inj_succ. case_tests; lia.
Qed.

Lemma bar_dots_formula num den width style : 0 < den → 0 <= num <= den →
  bar_dots (render_progress_bar {| fr_num := num; fr_den := den |} width style) =
    8 * (num * Z.of_nat width / den) + partial_dots (num * Z.of_nat width) den.
Proof.
  intros Hd Hn. unfold render_progress_bar, _clamp01. simpl.
  destruct (num <? 0) eqn:E1; reflect_bools; [lia|]. destruct (den <? num) eqn:E2; reflect_bools; [lia|]. simpl.
  rewrite cells_dots by nia. assert (num * Z.of_nat width / den <= Z.of_nat width) as Hle.
  { apply Z.div_le_upper_bound; nia. }
  rewrite Z.min_r by done. destruct (_ <? _) eqn:E; reflect_bools; [done|].
  assert (num * Z.of_nat width / den = Z.of_nat width) as Eq by lia.
  assert (num * Z.of_nat width mod den = 0) as Hz.
  { pose proof (Z.div_mod (num * Z.of_nat width) den ltac:(lia)). pose proof (Z.mod_pos_bound (num * Z.of_nat width) den Hd). nia. }
  unfold partial_dots. rewrite Hz. simpl. lia.
Qed.

(** The dots of a bar differ from the progress by at most one dot, and more steps of
    the same build never show fewer. *)
Theorem progress_bar_faithful num num' den width style : 0 < den → 0 <= num <= num' → num' <= den →
  bar_dots (render_progress_bar {| fr_num := num; fr_den := den |} width style)
    <= bar_dots (render_progress_bar {| fr_num := num'; fr_den := den |} width style) ∧
  Z.abs (den * bar_dots (render_progress_bar {| fr_num := num; fr_den := den |} width style) - 8 * Z.of_nat width * num) <= den.
Proof.
  intros Hd Hn Hn'. rewrite !bar_dots_formula by lia. split.
  - pose proof (partial_dots_bounds (num * Z.of_nat width) den Hd). pose proof (partial_dots_bounds (num' * Z.of_nat width) den Hd).
    assert (num * Z.of_nat width / den <= num' * Z.of_nat width / den) as Hq by (apply Z.div_le_mono; nia).
    destruct (decide (num * Z.of_nat width / den = num' * Z.of_nat width / den)) as [Eq|]; [|lia]. rewrite Eq.
    assert (num * Z.of_nat width mod den <= num' * Z.of_nat width mod den) as Hm by (rewrite !Z.mod_eq by lia; nia).
    pose proof (Z.mod_pos_bound (num * Z.of_nat width) den Hd).
    pose proof (round_div_mono (num * Z.of_nat width mod den * 8) (num' * Z.of_nat width mod den * 8) den Hd ltac:(lia)).
    unfold partial_dots. case_tests; lia.
  - pose proof (Z.div_mod (num * Z.of_nat width) den ltac:(lia)) as E. pose proof (Z.mod_pos_bound (num * Z.of_nat width) den Hd) as Hm.
    pose proof (round_div_bounds (num * Z.of_nat width mod den * 8) den Hd) as Hr. unfold partial_dots.
    set (q := num * Z.of_nat width / den) in *. set (r := num * Z.of_nat width mod den) in *.
    case_test; reflect_bools; [|nia]. destruct (Z.max_spec 1 (round_div (r * 8) den)) as [[_ ->]|[Hle ->]]; nia.
Qed.

(** ** Backends and their phases *)

Inductive DisplayPhase := PENDING | BUILDING | INITIALIZING | DOWNLOADING | RETRYING | READY | FAILED | SKIPPED.
#[export] Instance DisplayPhase_eq_dec : EqDecision DisplayPhase.
Proof. solve_decision. Defined.
Definition phase_value (p : DisplayPhase) : string :=
  match p with
  | PENDING => "pending" | BUILDING => "building" | INITIALIZING => "initializing" | DOWNLOADING => "downloading"
  | RETRYING => "retrying" | READY => "ready" | FAILED => "failed" | SKIPPED => "skipped"
  end.
(** [DisplayPhase(text)]; [None]: [ValueError]. *)
Definition phase_of (s : string) : option DisplayPhase :=
  List.find (λ p, bool_decide (phase_value p = s)) [PENDING; BUILDING; INITIALIZING; DOWNLOADING; RETRYING; READY; FAILED; SKIPPED].
Definition _PARALLEL_PHASE_PROGRESS (p : DisplayPhase) : frac :=
  match p with
  | INITIALIZING => {| fr_num := 4; fr_den := 10 |}
  | DOWNLOADING => {| fr_num := 7; fr_den := 10 |}
  | _ => {| fr_num := 3; fr_den := 10 |}
  end.
Definition is_terminal (p : DisplayPhase) : bool := bool_decide (p ∈ [READY; FAILED; SKIPPED]).
Definition in_progress (p : DisplayPhase) : bool := negb (bool_decide (p ∈ [READY; FAILED; SKIPPED; PENDING])).
(** [phase.value.title()] *)
Definition phase_title (p : DisplayPhase) : string :=
  match chars (phase_value p) with c :: l => text (upper_char c :: l) | [] => "" end.

Inductive RuntimeKind := UVX | NPX | DOCKER | PYTHON | NODE | REMOTE | UNKNOWN.
#[export] Instance RuntimeKind_eq_dec : EqDecision RuntimeKind.
Proof. solve_decision. Defined.
(** A backend section: its type, and its command in [params] and at the top. *)
Record backend_conf := { bk_type : option string; bk_params_command : option string; bk_command : option string }.
Definition detect_runtime (c : backend_conf) : RuntimeKind :=
  let svr_type := default "" (bk_type c) in
  let command := str_or (bk_params_command c) (str_or (bk_command c) "") in
  let cmd_lower := str_strip (lower command) in
  if bool_decide (cmd_lower ∈ ["uvx"; "uv"]) then UVX
  else if bool_decide (cmd_lower ∈ ["npx"; "npm"]) then NPX
  else if bool_decide (cmd_lower ∈ ["docker"; "podman"]) then DOCKER
  else if bool_decide (cmd_lower ∈ ["python"; "python3"]) || contains cmd_lower "python" then PYTHON
  else if bool_decide (cmd_lower ∈ ["node"; "tsx"; "ts-node"; "bun"; "deno"]) then NODE
  else if bool_decide (svr_type ∈ ["sse"; "streamable-http"]) && bool_decide (command = "") then REMOTE
  else UNKNOWN.

Record _RuntimeStyle := { spinner_style : string; name_style : string; status_style : string; tag_style : string; style_label : string }.
Definition _STYLES (k : RuntimeKind) : _RuntimeStyle :=
  match k with
  | UVX => {| spinner_style := "bold bright_blue"; name_style := "cyan"; status_style := "blue"; tag_style := "bright_cyan"; style_label := "uvx" |}
  | PYTHON => {| spinner_style := "bold blue"; name_style := "bright_cyan"; status_style := "bright_blue"; tag_style := "cyan"; style_label := "python" |}
  | NPX => {| spinner_style := "bold bright_red"; name_style := "dark_orange"; status_style := "orange3"; tag_style := "bright_red"; style_label := "npx" |}
  | NODE => {| spinner_style := "bold red"; name_style := "orange3"; status_style := "bright_red"; tag_style := "dark_orange"; style_label := "node" |}
  | DOCKER => {| spinner_style := "bold bright_magenta"; name_style := "magenta"; status_style := "bright_magenta"; tag_style := "magenta"; style_label := "docker" |}
  | REMOTE => {| spinner_style := "bold white"; name_style := "white"; status_style := "white"; tag_style := "dim"; style_label := "remote" |}
  | UNKNOWN => {| spinner_style := "bold white"; name_style := "white"; status_style := "white"; tag_style := "dim"; style_label := "stdio" |}
  end.

Record _BackendEntry := {
  be_name : string; be_runtime : RuntimeKind; be_phase : DisplayPhase; be_message : string;
  be_start : Z; be_end : Z; be_progress : frac }.
Definition be_style (e : _BackendEntry) : _RuntimeStyle := _STYLES (be_runtime e).
Definition new_entry (name : string) (c : backend_conf) : _BackendEntry :=
  {| be_name := name; be_runtime := detect_runtime c; be_phase := PENDING; be_message := "Pending..."; be_start := 0; be_end := 0;
     be_progress := {| fr_num := 0; fr_den := 1 |} |}.

(** ** What is shown *)

Record row := { rw_icon : string; rw_label : string; rw_bar : option (list cell); rw_status : string; rw_timer : string }.
Inductive renderable := Row (r : row) | SpinnerLine (name : string) (header style : string) | TextLine (s : string).

(** [entry.start_time] and [entry.end_time] are falsy when they are not set. *)
Definition elapsed_at (e : _BackendEntry) (now : Z) : Z :=
  if be_start e =? 0 then 0 else (if be_end e =? 0 then now else be_end e) - be_start e.
Definition two_digits (n : Z) : string := if n <? 10 then "0" +:+ str_of_int n else str_of_int n.
Definition timer_text (elapsed : Z) : string :=
  let secs := elapsed / 1000 in str_of_int (secs / 60) +:+ ":" +:+ two_digits (secs mod 60).
Definition name_tag (e : _BackendEntry) : string :=
  "[" +:+ name_style (be_style e) +:+ "]" +:+ be_name e +:+ "[/] (" +:+ style_label (be_style e) +:+ "):".
Definition or_text (s def : string) : string := if bool_decide (s = "") then def else s.

Definition _format_completed_line (e : _BackendEntry) (now : Z) : row :=
  let timer := timer_text (elapsed_at e now) in
  if bool_decide (be_phase e = READY) then
    {| rw_icon := "✓"; rw_label := "Connected " +:+ name_tag e; rw_bar := None; rw_status := "Ready"; rw_timer := timer |}
  else if bool_decide (be_phase e = FAILED) then
    {| rw_icon := "✗"; rw_label := "Connecting " +:+ name_tag e; rw_bar := None; rw_status := or_text (be_message e) "Failed"; rw_timer := timer |}
  else {| rw_icon := "-"; rw_label := "Connecting " +:+ name_tag e; rw_bar := None; rw_status := "Skipped"; rw_timer := timer |}.

Definition _parallel_entry_cells (e : _BackendEntry) (elapsed : Z) : row :=
  let style := be_style e in let timer := timer_text elapsed in
  match be_phase e with
  | READY => {| rw_icon := "✓"; rw_label := "Connected " +:+ name_tag e; rw_bar := Some (render_solid_bar 17 (spinner_style style));
                rw_status := "Ready"; rw_timer := timer |}
  | FAILED => {| rw_icon := "✗"; rw_label := "Connecting " +:+ name_tag e; rw_bar := Some (render_solid_bar 17 "bold red");
                 rw_status := or_text (be_message e) "Failed"; rw_timer := timer |}
  | SKIPPED => {| rw_icon := "-"; rw_label := "Connecting " +:+ name_tag e; rw_bar := Some (render_empty_bar 17); rw_status := "Skipped"; rw_timer := timer |}
  | PENDING => {| rw_icon := "…"; rw_label := "Pending " +:+ name_tag e; rw_bar := Some (render_empty_bar 17); rw_status := "Pending..."; rw_timer := "" |}
  | BUILDING => {| rw_icon := "…"; rw_label := "Deploying " +:+ name_tag e;
                   rw_bar := Some (render_progress_bar (be_progress e) 17 (spinner_style style));
                   rw_status := or_text (be_message e) "Building..."; rw_timer := timer |}
  | phase =>
      {| rw_icon := "…"; rw_label := "Connecting " +:+ name_tag e;
         rw_bar := Some (if bool_decide (be_runtime e = REMOTE) then render_scattered_bar elapsed 17 (spinner_style style) 68
                         else render_progress_bar (_PARALLEL_PHASE_PROGRESS phase) 17 (spinner_style style));
         rw_status := or_text (be_message e) (phase_title phase +:+ "..."); rw_timer := timer |}
  end.

(** ** The display *)

Record spinner := { sp_name : string; sp_header : string; sp_style : string }.
Record InstallerDisplay := {
  ds_entries : list _BackendEntry;
  ds_live : bool;
  ds_finalized : bool;
  ds_build_lines : odict string (list string);
  ds_parallel : bool;
  ds_all_terminal_at : option Z;
  ds_verbosity : Z;
  ds_max_build_lines : nat;
  ds_focused : option string;
  ds_active : option (string * spinner);
  ds_shown : list renderable;
  ds_printed : list string }.

Definition type_prio (c : backend_conf) : Z :=
  match default "stdio" (bk_type c) with "streamable-http" => 0 | "sse" => 1 | _ => 2 end.
Definition max_lines (parallel : bool) (verbosity : Z) : nat :=
  if verbosity =? 0 then 0 else if verbosity =? 1 then (if parallel then 5 else 15) else (if parallel then 10 else 30).
Definition new_display (backends : odict string backend_conf) (verbose parallel : bool) (verbosity : option Z) : InstallerDisplay :=
  let v := default (if verbose then 1 else 0) verbosity in
  {| ds_entries := (λ kv, new_entry kv.1 kv.2) <$> sort_by (λ kv, type_prio kv.2) backends; ds_live := false; ds_finalized := false;
     ds_build_lines := []; ds_parallel := parallel; ds_all_terminal_at := None; ds_verbosity := v;
     ds_max_build_lines := max_lines parallel v; ds_focused := None; ds_active := None; ds_shown := []; ds_printed := [] |}.

Definition set_entries (l : list _BackendEntry) (d : InstallerDisplay) : InstallerDisplay :=
  {| ds_entries := l; ds_live := ds_live d; ds_finalized := ds_finalized d; ds_build_lines := ds_build_lines d; ds_parallel := ds_parallel d;
     ds_all_terminal_at := ds_all_terminal_at d; ds_verbosity := ds_verbosity d; ds_max_build_lines := ds_max_build_lines d;
     ds_focused := ds_focused d; ds_active := ds_active d; ds_shown := ds_shown d; ds_printed := ds_printed d |}.
Definition set_lines (l : odict string (list string)) (d : InstallerDisplay) : InstallerDisplay :=
  {| ds_entries := ds_entries d; ds_live := ds_live d; ds_finalized := ds_finalized d; ds_build_lines := l; ds_parallel := ds_parallel d;
     ds_all_terminal_at := ds_all_terminal_at d; ds_verbosity := ds_verbosity d; ds_max_build_lines := ds_max_build_lines d;
     ds_focused := ds_focused d; ds_active := ds_active d; ds_shown := ds_shown d; ds_printed := ds_printed d |}.
Definition set_focused (n : option string) (d : InstallerDisplay) : InstallerDisplay :=
  {| ds_entries := ds_entries d; ds_live := ds_live d; ds_finalized := ds_finalized d; ds_build_lines := ds_build_lines d; ds_parallel := ds_parallel d;
     ds_all_terminal_at := ds_all_terminal_at d; ds_verbosity := ds_verbosity d; ds_max_build_lines := ds_max_build_lines d;
     ds_focused := n; ds_active := ds_active d; ds_shown := ds_shown d; ds_printed := ds_printed d |}.
Definition set_spinner (a : option (string * spinner)) (d : InstallerDisplay) : InstallerDisplay :=
  {| ds_entries := ds_entries d; ds_live := ds_live d; ds_finalized := ds_finalized d; ds_build_lines := ds_build_lines d; ds_parallel := ds_parallel d;
     ds_all_terminal_at := ds_all_terminal_at d; ds_verbosity := ds_verbosity d; ds_max_build_lines := ds_max_build_lines d;
     ds_focused := ds_focused d; ds_active := a; ds_shown := ds_shown d; ds_printed := ds_printed d |}.
Definition set_shown (at_ : option Z) (l : list renderable) (d : InstallerDisplay) : InstallerDisplay :=
  {| ds_entries := ds_entries d; ds_live := ds_live d; ds_finalized := ds_finalized d; ds_build_lines := ds_build_lines d; ds_parallel := ds_parallel d;
     ds_all_terminal_at := at_; ds_verbosity := ds_verbosity d; ds_max_build_lines := ds_max_build_lines d;
     ds_focused := ds_focused d; ds_active := ds_active d; ds_shown := l; ds_printed := ds_printed d |}.
Definition set_live (b : bool) (d : InstallerDisplay) : InstallerDisplay :=
  {| ds_entries := ds_entries d; ds_live := b; ds_finalized := ds_finalized d; ds_build_lines := ds_build_lines d; ds_parallel := ds_parallel d;
     ds_all_terminal_at := ds_all_terminal_at d; ds_verbosity := ds_verbosity d; ds_max_build_lines := ds_max_build_lines d;
     ds_focused := ds_focused d; ds_active := ds_active d; ds_shown := ds_shown d; ds_printed := ds_printed d |}.
Definition print (s : string) (d : InstallerDisplay) : InstallerDisplay :=
  {| ds_entries := ds_entries d; ds_live := ds_live d; ds_finalized := ds_finalized d; ds_build_lines := ds_build_lines d; ds_parallel := ds_parallel d;
     ds_all_terminal_at := ds_all_terminal_at d; ds_verbosity := ds_verbosity d; ds_max_build_lines := ds_max_build_lines d;
     ds_focused := ds_focused d; ds_active := ds_active d; ds_shown := ds_shown d; ds_printed := ds_printed d ++ [s] |}.
Definition mark_final (d : InstallerDisplay) : InstallerDisplay :=
  {| ds_entries := ds_entries d; ds_live := ds_live d; ds_finalized := true; ds_build_lines := []; ds_parallel := ds_parallel d;
     ds_all_terminal_at := ds_all_terminal_at d; ds_verbosity := ds_verbosity d; ds_max_build_lines := ds_max_build_lines d;
     ds_focused := ds_focused d; ds_active := None; ds_shown := ds_shown d; ds_printed := ds_printed d |}.

(** The entry of a name, and assignment to its fields. *)
Definition find_entry (name : string) (d : InstallerDisplay) : option _BackendEntry :=
  List.find (λ e, bool_decide (be_name e = name)) (ds_entries d).
Definition on_entry (name : string) (f : _BackendEntry → _BackendEntry) (d : InstallerDisplay) : InstallerDisplay :=
  set_entries ((λ e, if bool_decide (be_name e = name) then f e else e) <$> ds_entries d) d.
Definition with_phase (p : DisplayPhase) (start : Z) (e : _BackendEntry) : _BackendEntry :=
  {| be_name := be_name e; be_runtime := be_runtime e; be_phase := p; be_message := be_message e; be_start := start; be_end := be_end e;
     be_progress := be_progress e |}.
Definition with_message (m : string) (e : _BackendEntry) : _BackendEntry :=
  {| be_name := be_name e; be_runtime := be_runtime e; be_phase := be_phase e; be_message := m; be_start := be_start e; be_end := be_end e;
     be_progress := be_progress e |}.
Definition with_end (t : Z) (e : _BackendEntry) : _BackendEntry :=
  {| be_name := be_name e; be_runtime := be_runtime e; be_phase := be_phase e; be_message := be_message e; be_start := be_start e; be_end := t;
     be_progress := be_progress e |}.
Definition with_progress (p : frac) (e : _BackendEntry) : _BackendEntry :=
  {| be_name := be_name e; be_runtime := be_runtime e; be_phase := be_phase e; be_message := be_message e; be_start := be_start e; be_end := be_end e;
     be_progress := p |}.

(** [l[-n:]] for a positive [n] *)
Definition last_lines (n : nat) (l : list string) : list string := drop (length l - n) l.
Definition output_lines (n : nat) (l : list string) : list renderable := (λ ln, TextLine ("    " +:+ ln)) <$> last_lines n l.
Definition output_title (e : _BackendEntry) : list renderable :=
  [TextLine ""; TextLine ("  [" +:+ name_style (be_style e) +:+ "]" +:+ be_name e +:+ "[/]:")].

Definition _render_build_output (d : InstallerDisplay) : list renderable :=
  let limit := ds_max_build_lines d in
  if 2 <=? ds_verbosity d then
    mjoin ((λ e, if bool_decide (be_phase e = BUILDING) then
                   match default [] (dget (ds_build_lines d) (be_name e)) with
                   | [] => []
                   | lines => output_title e ++ output_lines limit lines
                   end
                 else []) <$> ds_entries d)
  else if 1 <=? ds_verbosity d then
    match ds_focused d with
    | Some "" => []
    | Some n =>
        match default [] (dget (ds_build_lines d) n), find_entry n d with
        | (_ :: _) as lines, Some e => output_title e ++ output_lines limit lines
        | _, _ => []
        end
    | None => []
    end
  else [].

Definition no_bar (r : row) : row :=
  {| rw_icon := rw_icon r; rw_label := rw_label r; rw_bar := None; rw_status := rw_status r; rw_timer := rw_timer r |}.
(** The new [_all_terminal_at] and what is shown. *)
Definition _build_parallel_renderable (now : Z) (d : InstallerDisplay) : option Z * list renderable :=
  let at_ := match ds_all_terminal_at d with
             | None => if forallb (λ e, is_terminal (be_phase e)) (ds_entries d) then Some now else None
             | some => some
             end in
  let show_bars := match at_ with None => true | Some t => now - t <=? 500 end in
  let rows := (λ e, let r := _parallel_entry_cells e (elapsed_at e now) in Row (if show_bars then r else no_bar r)) <$> ds_entries d in
  (at_, rows ++ (if Nat.eqb (ds_max_build_lines d) 0 then [] else _render_build_output d)).

Definition sequential_part (now : Z) (d : InstallerDisplay) (e : _BackendEntry) : list renderable :=
  if bool_decide (be_phase e = PENDING) then []
  else if is_terminal (be_phase e) then [Row (_format_completed_line e now)]
  else
    match ds_active d with
    | Some (n, sp) =>
        if bool_decide (n = be_name e) then
          SpinnerLine n (sp_header sp) (sp_style sp) ::
          (if Nat.eqb (ds_max_build_lines d) 0 then []
           else output_lines (ds_max_build_lines d) (default [] (dget (ds_build_lines d) (be_name e))))
        else [TextLine ("  [dim]…[/] [bold]Connecting[/] " +:+ name_tag e +:+ " " +:+ or_text (be_message e) (phase_title (be_phase e) +:+ "..."))]
    | None => [TextLine ("  [dim]…[/] [bold]Connecting[/] " +:+ name_tag e +:+ " " +:+ or_text (be_message e) (phase_title (be_phase e) +:+ "..."))]
    end.
Definition _build_renderable (now : Z) (d : InstallerDisplay) : option Z * list renderable :=
  if ds_parallel d then _build_parallel_renderable now d
  else
    let parts := mjoin (sequential_part now d <$> ds_entries d) in
    (ds_all_terminal_at d, match parts with [] => [TextLine ""] | _ => parts end).
Definition _refresh (now : Z) (d : InstallerDisplay) : InstallerDisplay :=
  if ds_live d then let '(at_, l) := _build_renderable now d in set_shown at_ l d else d.

(** ** Updates *)

(** The first occurrence of [[n/m]] in a line of the build. *)
Definition digits_value (l : list ascii) : Z := foldl (λ n c, 10 * n + Z.of_nat (code c - 48)) 0 l.
Definition step_at (l : list ascii) : option (Z * Z) :=
  let '(a, r1) := span is_digit l in
  match a, r1 with
  | _ :: _, c :: r1' =>
      if is_char 47 c then
        let '(b, r2) := span is_digit r1' in
        match b, r2 with
        | _ :: _, c' :: _ => if is_char 93 c' then Some (digits_value a, digits_value b) else None
        | _, _ => None
        end
      else None
  | _, _ => None
  end.
Fixpoint _BUILDKIT_STEP_RE (l : list ascii) : option (Z * Z) :=
  match l with
  | [] => None
  | c :: l' =>
      match (if is_char 91 c then step_at l' else None) with Some s => Some s | None => _BUILDKIT_STEP_RE l' end
  end.
Example buildkit_step : _BUILDKIT_STEP_RE (chars "#6 [x] [2/8] RUN apt-get update") = Some (2, 8).
Proof. reflexivity. Qed.

Definition _set_active (name : string) (e : _BackendEntry) (d : InstallerDisplay) : InstallerDisplay :=
  let style := be_style e in
  let tag := "[" +:+ name_style style +:+ "]" +:+ name +:+ "[/] (" +:+ style_label style +:+ ")" in
  let sp :=
    if bool_decide (be_phase e = BUILDING) then {| sp_name := name; sp_header := " [bold]Deploying[/] " +:+ tag; sp_style := "yellow" |}
    else {| sp_name := name;
            sp_header := " [bold]Connecting[/] " +:+ tag +:+ ": " +:+ or_text (be_message e) (phase_title (be_phase e) +:+ "...");
            sp_style := spinner_style style |} in
  set_spinner (Some (name, sp)) d.
Definition _promote_next_active (d : InstallerDisplay) : InstallerDisplay :=
  match ds_active d with
  | Some _ => d
  | None =>
      match List.find (λ e, in_progress (be_phase e)) (ds_entries d) with
      | Some e => _set_active (be_name e) e d
      | None => d
      end
  end.
Definition is_active (name : string) (d : InstallerDisplay) : bool :=
  match ds_active d with Some (n, _) => bool_decide (n = name) | None => false end.
Definition _collapse_to_completed (name : string) (now : Z) (d : InstallerDisplay) : InstallerDisplay :=
  let d1 := set_lines (ddel (ds_build_lines d) name) (on_entry name (with_end now) d) in
  if is_active name d1 then _promote_next_active (set_spinner None d1) else d1.

Definition _apply_phase_update (e : _BackendEntry) (phase name : string) (now : Z) (d : InstallerDisplay) : InstallerDisplay :=
  match phase_of phase with
  | None => d
  | Some new_phase =>
      let d1 := if negb (bool_decide (new_phase = BUILDING)) && dmem (ds_build_lines d) name
                then set_lines (ddel (ds_build_lines d) name) d else d in
      let start := if bool_decide (be_phase e = PENDING) && negb (bool_decide (new_phase = PENDING)) then now else be_start e in
      on_entry name (with_phase new_phase start) d1
  end.

Definition add_line (name message : string) (lines : list string) : list string :=
  let lines := match lines with [] => ["$ docker build -t argus-mcp-" +:+ name +:+ " ."; ""] | _ => lines end ++ [message] in
  if Nat.ltb 200 (length lines) then drop 100 lines else lines.
Definition build_fraction (message : string) : option frac :=
  match _BUILDKIT_STEP_RE (chars message) with
  | Some (current, total) =>
      if 0 <? total then Some (if total <=? current then {| fr_num := 1; fr_den := 1 |} else {| fr_num := current; fr_den := total |}) else None
  | None => None
  end.
Definition _handle_build_output (message name : string) (d : InstallerDisplay) : InstallerDisplay :=
  let d1 :=
    if bool_decide (message = "") then d
    else
      let d1 := set_lines (dset (ds_build_lines d) name (add_line name message (default [] (dget (ds_build_lines d) name)))) d in
      match build_fraction message with Some p => on_entry name (with_progress p) d1 | None => d1 end in
  if ds_parallel d1 then set_focused (Some name) d1 else d1.

(** The readings of the clock: for the start, for the end and for the rendering. *)
Definition update (now1 now2 now3 : Z) (name : string) (phase message : option string) (d : InstallerDisplay) : InstallerDisplay :=
  match find_entry name d with
  | None => d
  | Some e =>
      if ds_finalized d || negb (ds_live d) then d
      else
        let d1 := match phase with Some p => _apply_phase_update e p name now1 d | None => d end in
        let d2 := match message with Some m => on_entry name (with_message m) d1 | None => d1 end in
        match find_entry name d2 with
        | None => d2
        | Some e2 =>
            if bool_decide (be_phase e2 ∈ [READY; FAILED]) then
              _refresh now3 (if ds_parallel d2 then on_entry name (with_end now2) d2 else _collapse_to_completed name now2 d2)
            else
              let d3 := if bool_decide (be_phase e2 = BUILDING) then _handle_build_output (be_message e2) name d2 else d2 in
              let e3 := default e2 (find_entry name d3) in
              let d4 :=
                if ds_parallel d3 then d3
                else if bool_decide (be_phase e2 = BUILDING) then _set_active name e3 d3
                else match ds_active d3 with
                     | None => _set_active name e3 d3
                     | Some (n, _) => if bool_decide (n = name) then _set_active name e3 d3 else d3
                     end in
              _refresh now3 d4
        end
  end.

Definition count_runtime (ks : list RuntimeKind) (d : InstallerDisplay) : Z :=
  Z.of_nat (length (keep (λ e, bool_decide (be_runtime e ∈ ks)) (ds_entries d))).
Definition counted (n : Z) (s : string) : list string := if n =? 0 then [] else [s].
Definition _build_runtime_summary (d : InstallerDisplay) : string :=
  let npx := count_runtime [NPX; NODE] d in let uvx := count_runtime [UVX; PYTHON] d in
  let docker := count_runtime [DOCKER] d in let remote := count_runtime [REMOTE] d in
  let other := Z.of_nat (length (ds_entries d)) - npx - uvx - docker - remote in
  str_join ", " (counted uvx ("[bright_blue]" +:+ str_of_int uvx +:+ " uvx[/bright_blue]") ++
                 counted npx ("[dark_orange]" +:+ str_of_int npx +:+ " npx[/dark_orange]") ++
                 counted docker ("[bright_magenta]" +:+ str_of_int docker +:+ " docker[/bright_magenta]") ++
                 counted remote ("[white]" +:+ str_of_int remote +:+ " remote[/white]") ++
                 counted other (str_of_int other +:+ " other")).
Definition render_initial (d : InstallerDisplay) : InstallerDisplay :=
  match ds_entries d with
  | [] => d
  | _ => set_live true (print ("[bold]Backend operations:[/bold] " +:+ str_of_int (Z.of_nat (length (ds_entries d))) +:+
                               " connections (" +:+ _build_runtime_summary d +:+ ")") d)
  end.

Definition count_phase (p : DisplayPhase) (d : InstallerDisplay) : Z :=
  Z.of_nat (length (keep (λ e, bool_decide (be_phase e = p)) (ds_entries d))).
Definition summary (ready failed total : Z) : string :=
  if failed =? 0 then "[bold bright_green]Backends: " +:+ str_of_int ready +:+ "/" +:+ str_of_int total +:+ " connected[/bold bright_green]"
  else "[bold bright_red]Backends: " +:+ str_of_int ready +:+ "/" +:+ str_of_int total +:+ " connected[/bold bright_red]  [red](" +:+
       str_of_int failed +:+ " failed)[/red]".
Definition finalize (now1 now2 : Z) (d : InstallerDisplay) : InstallerDisplay :=
  if ds_finalized d then d
  else
    let d1 := mark_final d in
    let d2 := set_entries ((λ e, if is_terminal (be_phase e) then e else with_end now1 (with_phase SKIPPED (be_start e) e)) <$> ds_entries d1) d1 in
    let d3 := _refresh now2 d2 in
    print (summary (count_phase READY d3) (count_phase FAILED d3) (Z.of_nat (length (ds_entries d3)))) d3.

(** ** The state of the display is consistent *)

(** The names and phases of the entries. *)
Definition phases (d : InstallerDisplay) : list (string * DisplayPhase) := (λ e, (be_name e, be_phase e)) <$> ds_entries d.
Definition set_phase (name : string) (p : DisplayPhase) (l : list (string * DisplayPhase)) : list (string * DisplayPhase) :=
  (λ x, if bool_decide (x.1 = name) then (x.1, p) else x) <$> l.

(** What holds whoever has the spinner. *)
Record base (d : InstallerDisplay) : Prop := {
  so_names : NoDup (phases d).*1;
  so_lines : ∀ n l, dget (ds_build_lines d) n = Some l → (length l <= 200)%nat ∧ (n, BUILDING) ∈ phases d;
  so_wf : dict_wf (ds_build_lines d);
  so_progress : ∀ e, e ∈ ds_entries d → 0 < fr_den (be_progress e) ∧ 0 <= fr_num (be_progress e) <= fr_den (be_progress e) }.
(** The spinner, for the names other than [but]: it is at an entry in progress, and
    it is away only when there is none. *)
Record sound (but : option string) (d : InstallerDisplay) : Prop := {
  so_base : base d;
  so_active : ∀ n sp, ds_parallel d = false → ds_active d = Some (n, sp) → Some n ≠ but → ∃ p, (n, p) ∈ phases d ∧ in_progress p = true;
  so_none : ∀ n p, ds_parallel d = false → ds_active d = None → (n, p) ∈ phases d → Some n ≠ but → in_progress p = false }.

Lemma phases_on_entry name f d : (∀ e, be_name (f e) = be_name e) → (∀ e, be_phase (f e) = be_phase e) →
  phases (on_entry name f d) = phases d.
Proof.
  intros Hn Hp. unfold phases, on_entry, set_entries. simpl. rewrite <-list_fmap_compose. apply list_fmap_ext.
  intros _ e _. simpl. case_bool_decide; [by rewrite Hn, Hp|done].
Qed.
Lemma phases_set_phase name p f d : (∀ e, be_name (f e) = be_name e) → (∀ e, be_phase (f e) = p) →
  phases (on_entry name f d) = set_phase name p (phases d).
Proof.
  intros Hn Hp. unfold phases, on_entry, set_entries, set_phase. simpl. rewrite <-!list_fmap_compose. apply list_fmap_ext.
  intros _ e _. simpl. case_bool_decide; [by rewrite Hn, Hp|done].
Qed.
Lemma set_phase_names name p l : (set_phase name p l).*1 = l.*1.
Proof. unfold set_phase. rewrite <-list_fmap_compose. apply list_fmap_ext. intros _ x _. simpl. by case_bool_decide. Qed.
Lemma elem_set_phase name p l n q : (n, q) ∈ set_phase name p l ↔ (n = name ∧ q = p ∧ name ∈ l.*1) ∨ (n ≠ name ∧ (n, q) ∈ l).
Proof.
  unfold set_phase. rewrite list_elem_of_fmap. split.
  - intros ([n' q'] & H & Hin). simpl in H. case_bool_decide; simplify_eq; [left|right; done].
    split_and!; [done..|]. apply list_elem_of_fmap. by exists (name, q').
  - intros [(-> & -> & ([n' q'] & -> & Hin)%list_elem_of_fmap)|[Hne Hin]].
    + exists (n', q'). simpl. by rewrite bool_decide_true.
    + exists (n, q). simpl. by rewrite bool_decide_false.
Qed.
Lemma find_entry_phase name d e : find_entry name d = Some e → (name, be_phase e) ∈ phases d ∧ be_name e = name ∧ e ∈ ds_entries d.
Proof.
  unfold find_entry. intros (l1 & l2 & E & Hn & _)%find_first. reflect_bools. subst name. unfold phases. rewrite E. split_and!.
  - apply list_elem_of_fmap. exists e. set_solver.
  - done.
  - set_solver.
Qed.
Lemma find_entry_some name d : name ∈ (phases d).*1 → is_Some (find_entry name d).
Proof.
  unfold phases. rewrite <-list_fmap_compose. intros (e & -> & He)%list_elem_of_fmap. unfold find_entry.
  destruct (List.find _ _) eqn:E; [by eexists|]. apply find_nothing in E. rewrite Forall_forall in E. specialize (E e He). reflect_bools.
  by destruct E.
Qed.
Lemma phase_unique d n p q : NoDup (phases d).*1 → (n, p) ∈ phases d → (n, q) ∈ phases d → p = q.
Proof.
  intros Hnd Hp Hq. apply (elem_dget (phases d)) in Hp; [|done]. apply (elem_dget (phases d)) in Hq; [|done]. congruence.
Qed.

(** Assignments that the invariant does not look at. *)
Lemma base_on_entry name f d : (∀ e, be_name (f e) = be_name e) → (∀ e, be_phase (f e) = be_phase e) →
  (∀ e, (0 < fr_den (be_progress e) ∧ 0 <= fr_num (be_progress e) <= fr_den (be_progress e)) →
        0 < fr_den (be_progress (f e)) ∧ 0 <= fr_num (be_progress (f e)) <= fr_den (be_progress (f e))) →
  base d → base (on_entry name f d).
Proof.
  intros Hn Hp Hf []. split; try (rewrite phases_on_entry by done); try done.
  intros e. simpl. intros (e0 & -> & He)%list_elem_of_fmap. case_bool_decide; auto.
Qed.
Lemma sound_on_entry but name f d : (∀ e, be_name (f e) = be_name e) → (∀ e, be_phase (f e) = be_phase e) →
  (∀ e, (0 < fr_den (be_progress e) ∧ 0 <= fr_num (be_progress e) <= fr_den (be_progress e)) →
        0 < fr_den (be_progress (f e)) ∧ 0 <= fr_num (be_progress (f e)) <= fr_den (be_progress (f e))) →
  sound but d → sound but (on_entry name f d).
Proof.
  intros Hn Hp Hf []. split; [by apply base_on_entry|..]; rewrite phases_on_entry by done; done.
Qed.
Lemma sound_refresh but now d : sound but d → sound but (_refresh now d).
Proof.
  intros H. unfold _refresh. case_match; [|done]. destruct (_build_renderable now d). destruct H as [[] ? ?]. by split.
Qed.

Lemma sound_focused but n d : sound but d → sound but (set_focused n d).
Proof. intros [[] ? ?]. by split. Qed.

Lemma sound_phase_update e phase name now d p :
  sound None d → find_entry name d = Some e → phase_of phase = Some p →
  let d1 := _apply_phase_update e phase name now d in
  sound (Some name) d1 ∧ phases d1 = set_phase name p (phases d) ∧ ds_parallel d1 = ds_parallel d ∧ ds_live d1 = ds_live d ∧
  ds_finalized d1 = ds_finalized d.
Proof.
  intros [[Hn Hl Hw Hp] Ha Hno] He Hph d1. unfold d1, _apply_phase_update. rewrite Hph. cbv zeta.
  set (keep_lines := if negb (bool_decide (p = BUILDING)) && dmem (ds_build_lines d) name
                     then set_lines (ddel (ds_build_lines d) name) d else d).
  generalize (if bool_decide (be_phase e = PENDING) && negb (bool_decide (p = PENDING)) then now else be_start e). intros start.
  assert (phases keep_lines = phases d ∧ ds_parallel keep_lines = ds_parallel d ∧ ds_live keep_lines = ds_live d ∧
    ds_finalized keep_lines = ds_finalized d ∧ ds_active keep_lines = ds_active d ∧ ds_entries keep_lines = ds_entries d)
    as (E1 & E2 & E3 & E4 & E5 & E6) by (unfold keep_lines; by case_match).
  assert (phases (on_entry name (with_phase p start) keep_lines) = set_phase name p (phases d)) as E.
  { rewrite <-E1. by apply phases_set_phase. }
  split; [|done]. destruct (find_entry_phase _ _ _ He) as (Hin & _ & _).
  assert (name ∈ (phases d).*1) as Hname by (apply list_elem_of_fmap; by exists (name, be_phase e)).
  split; [split|..]; rewrite ?E; simpl; rewrite ?E2, ?E5.
  - by rewrite set_phase_names.
  - intros n l Hl'. assert (n ≠ name → dget (ds_build_lines keep_lines) n = dget (ds_build_lines d) n) as Hsame.
    { intros Hne. unfold keep_lines. case_match; [|done]. simpl. by rewrite dget_ddel_ne. }
    destruct (decide (n = name)) as [->|Hne].
    + unfold keep_lines in Hl'. destruct (decide (p = BUILDING)) as [->|Hnb].
      * simpl in Hl'. destruct (Hl name l Hl') as [? _]. split; [done|]. apply elem_set_phase. by left.
      * exfalso. rewrite (bool_decide_false (p = BUILDING)) in Hl' by done. simpl in Hl'.
        destruct (dmem (ds_build_lines d) name) eqn:Em; simpl in Hl'; [by rewrite dget_ddel_eq in Hl'|].
        assert (dmem (ds_build_lines d) name = true); [|congruence]. apply dmem_spec, dget_is_Some. by eexists.
    + rewrite Hsame in Hl' by done. destruct (Hl n l Hl') as [? ?]. split; [done|]. apply elem_set_phase. by right.
  - unfold keep_lines. case_match; simpl; auto with argus.
  - rewrite E6. intros e' (e0 & -> & He0)%list_elem_of_fmap. case_bool_decide; simpl; auto.
  - intros n sp Hpar Hact Hne. destruct (Ha n sp Hpar Hact) as (q & Hq & Hpr); [done|]. exists q. split; [|done].
    apply elem_set_phase. right. split; [congruence|done].
  - intros n q Hpar Hact [(-> & _)|[_ Hq]]%elem_set_phase Hne; [done|]. by eapply Hno.
Qed.

(** Giving the spinner to an entry in progress restores the invariant. *)
Lemma sound_set_active name e p d : base d → (name, p) ∈ phases d → in_progress p = true → sound None (_set_active name e d).
Proof. intros [] Hin Hpr. split; [done| |done]. intros n sp Hpar [= <- _] _. eauto. Qed.

Lemma sound_promote d : base d → ds_active d = None → sound None (_promote_next_active d).
Proof.
  intros Hs Hact. unfold _promote_next_active. rewrite Hact.
  destruct (List.find _ (ds_entries d)) as [e|] eqn:E.
  - apply find_first in E as (l1 & l2 & El & Hpr & _). eapply sound_set_active; [done| |exact Hpr].
    unfold phases. rewrite El. apply list_elem_of_fmap. exists e. set_solver.
  - apply find_nothing in E. split; [done|by rewrite Hact|].
    intros n p _ _ (e & [= -> ->] & He)%list_elem_of_fmap _. rewrite Forall_forall in E. by apply E.
Qed.

Lemma sound_collapse name now d p : sound (Some name) d → (name, p) ∈ phases d → in_progress p = false →
  sound None (_collapse_to_completed name now d).
Proof.
  intros [Hb Ha Hno] Hin Hpr. unfold _collapse_to_completed.
  set (d1 := set_lines _ _). assert (phases d1 = phases d) as E by (by apply (phases_on_entry name (with_end now) d)).
  assert (base d1) as Hb1.
  { pose proof (base_on_entry name (with_end now) d ltac:(done) ltac:(done) ltac:(done) Hb) as []. split; try done.
    - intros n l. simpl. rewrite dget_ddel by apply (so_wf _ Hb). case_decide; [done|]. eauto.
    - simpl. apply dict_wf_ddel, (so_wf _ Hb). }
  destruct (is_active name d1) eqn:Ea; [apply sound_promote; [by destruct Hb1; split|done]|].
  unfold is_active in Ea. simpl in Ea. split; [done|..]; rewrite E.
  - intros n sp Hpar Hact _. simpl in Hact. rewrite Hact in Ea. reflect_bools. eapply Ha; [done..|congruence].
  - intros n q Hpar Hact Hq _. destruct (decide (n = name)) as [->|Hne]; [|eapply Hno; [done..|congruence]].
    by rewrite (phase_unique d name q p (so_names _ Hb) Hq Hin).
Qed.

Lemma add_line_bound name message lines : (length lines <= 200)%nat → (length (add_line name message lines) <= 200)%nat.
Proof.
  intros H. unfold add_line. cbv zeta. destruct (Nat.ltb 200 _) eqn:E; [|by apply Nat.ltb_ge in E].
  rewrite length_drop, length_app. destruct lines; simpl in *; lia.
Qed.

Lemma digits_nonneg l : 0 <= digits_value l.
Proof.
  unfold digits_value. assert (∀ l n, 0 <= n → 0 <= foldl (λ n c, 10 * n + Z.of_nat (code c - 48)) n l) as H; [|by apply H].
  clear l. induction l as [|c l IH]; intros n Hn; simpl; [done|]. apply IH. lia.
Qed.
Lemma step_nonneg l a b : _BUILDKIT_STEP_RE l = Some (a, b) → 0 <= a.
Proof.
  induction l as [|c l IH]; simpl; [done|]. destruct (is_char 91 c); [|exact IH].
  destruct (step_at l) as [[x y]|] eqn:E; [|exact IH]. intros [= <- _]. unfold step_at in E.
  repeat (case_match; simplify_eq/=). apply digits_nonneg.
Qed.
Lemma build_fraction_bounds message p : build_fraction message = Some p → 0 < fr_den p ∧ 0 <= fr_num p <= fr_den p.
Proof.
  unfold build_fraction. destruct (_BUILDKIT_STEP_RE _) as [[a b]|] eqn:E; [|done]. apply step_nonneg in E.
  destruct (0 <? b) eqn:Eb; [|done]. intros [= <-]. destruct (b <=? a) eqn:E'; reflect_bools; simpl; lia.
Qed.

Lemma sound_build but message name d : (name, BUILDING) ∈ phases d → sound but d →
  let d1 := _handle_build_output message name d in
  sound but d1 ∧ phases d1 = phases d ∧ ds_parallel d1 = ds_parallel d ∧ ds_active d1 = ds_active d ∧ ds_live d1 = ds_live d ∧
  ds_finalized d1 = ds_finalized d.
Proof.
  intros Hin Hs d1. unfold d1, _handle_build_output. clear d1.
  set (lines := dset (ds_build_lines d) name (add_line name message (default [] (dget (ds_build_lines d) name)))).
  assert (sound but (set_lines lines d)) as Hs1.
  { destruct Hs as [[Hn Hl Hw Hp] Ha Hno]. split; [split|..]; try done.
    - intros n l. unfold lines. simpl. rewrite dget_dset. case_decide; [|apply Hl]. intros [= <-]. subst n. split; [|done].
      apply add_line_bound. destruct (dget (ds_build_lines d) name) as [l'|] eqn:El; simpl; [by apply (Hl name)|lia].
    - unfold lines. simpl. auto with argus. }
  assert (∀ x, sound but x → ds_parallel x = ds_parallel d → ds_active x = ds_active d → phases x = phases d → ds_live x = ds_live d →
    ds_finalized x = ds_finalized d → let y := if ds_parallel x then set_focused (Some name) x else x in
    sound but y ∧ phases y = phases d ∧ ds_parallel y = ds_parallel d ∧ ds_active y = ds_active d ∧ ds_live y = ds_live d ∧
    ds_finalized y = ds_finalized d) as Hfin.
  { intros x Hx H1 H2 H3 H4 H5 y. unfold y. rewrite <-H1, <-H2, <-H3, <-H4, <-H5.
    destruct (ds_parallel x) eqn:Ex; split_and!; try done. by apply sound_focused. }
  case_bool_decide; [by apply Hfin|]. destruct (build_fraction message) as [p|] eqn:Ep; [|by apply Hfin].
  apply Hfin; try done; [|by rewrite phases_on_entry]. apply sound_on_entry; [done..| |done].
  intros e _. simpl. by eapply build_fraction_bounds.
Qed.

(** A phase that the start-up reports. *)
Definition reported (p : DisplayPhase) : bool := bool_decide (p ∈ [BUILDING; INITIALIZING; DOWNLOADING; RETRYING; READY; FAILED]).

Lemma sound_update now1 now2 now3 name phase p message d :
  phase_of phase = Some p → reported p = true → sound None d → sound None (update now1 now2 now3 name (Some phase) message d).
Proof.
  intros Hph Hr Hs. unfold update. destruct (find_entry name d) as [e|] eqn:He; [|done]. case_match; [done|].
  destruct (sound_phase_update e phase name now1 d p Hs He Hph) as (Hs1 & Ep & Epar & _).
  set (d1 := _apply_phase_update e phase name now1 d) in *.
  set (d2 := match message with Some m => on_entry name (with_message m) d1 | None => d1 end).
  assert (sound (Some name) d2 ∧ phases d2 = set_phase name p (phases d)) as [Hs2 Ep2].
  { unfold d2. destruct message; [|done]. split; [by apply sound_on_entry|by rewrite phases_on_entry]. }
  assert ((name, p) ∈ phases d2) as Hin.
  { rewrite Ep2. apply elem_set_phase. left. split_and!; [done..|]. destruct (find_entry_phase _ _ _ He) as (Hx & _).
    apply list_elem_of_fmap. by exists (name, be_phase e). }
  destruct (find_entry name d2) as [e2|] eqn:He2.
  2:{ destruct (find_entry_some name d2) as [? ?]; [|congruence]. apply list_elem_of_fmap. by exists (name, p). }
  destruct (find_entry_phase _ _ _ He2) as (Hin2 & Hne2 & _).
  assert (be_phase e2 = p) as E2 by (eapply (phase_unique d2); [apply Hs2|done|done]). rewrite E2.
  case_bool_decide as Hterm.
  - apply sound_refresh. destruct (ds_parallel d2) eqn:Epp.
    + apply (sound_on_entry _ name (with_end now2)) in Hs2 as [Hb _ _]; [|done..]. split; [done|..]; simpl; congruence.
    + eapply sound_collapse; [done|exact Hin|]. unfold in_progress. rewrite bool_decide_true; [done|set_solver].
  - assert (in_progress p = true) as Hpr by (unfold reported in Hr; destruct p; try done; reflect_bools; set_solver).
    apply sound_refresh.
    set (d3 := if bool_decide (p = BUILDING) then _handle_build_output (be_message e2) name d2 else d2).
    assert (sound (Some name) d3 ∧ phases d3 = phases d2) as [Hs3 Ep3].
    { unfold d3. case_bool_decide as Hb; [|done]. rewrite Hb in Hin.
      by destruct (sound_build (Some name) (be_message e2) name d2 Hin Hs2) as (H1 & H2 & _). }
    rewrite <-Ep3 in Hin. generalize (default e2 (find_entry name d3)). intros e3.
    destruct (ds_parallel d3) eqn:Epp; [destruct Hs3 as [Hb _ _]; split; [done|congruence..]|].
    case_bool_decide; [exact (sound_set_active name e3 p d3 (so_base _ _ Hs3) Hin Hpr)|].
    destruct (ds_active d3) as [[n sp]|] eqn:Ea; [|exact (sound_set_active name e3 p d3 (so_base _ _ Hs3) Hin Hpr)].
    case_bool_decide as Hn; [exact (sound_set_active name e3 p d3 (so_base _ _ Hs3) Hin Hpr)|].
    destruct Hs3 as [Hb Hact Hno]. split; [done| |congruence]. intros n' sp' Hpar Ha' _. rewrite Ea in Ha'. simplify_eq.
    eapply Hact; [done..|congruence].
Qed.

Lemma sound_initial backends verbose parallel verbosity : dict_wf backends →
  sound None (render_initial (new_display backends verbose parallel verbosity)).
Proof.
  intros Hw. set (d0 := new_display backends verbose parallel verbosity).
  assert (∀ n p, (n, p) ∈ phases d0 → p = PENDING) as Hp.
  { intros n p (e & [= -> ->] & (kv & -> & _)%list_elem_of_fmap)%list_elem_of_fmap. done. }
  assert (sound None d0) as Hs.
  { split; [split|..]; try done.
    - unfold phases, d0. simpl. rewrite <-!list_fmap_compose. unfold dict_wf, dkeys in Hw.
      rewrite (fmap_Permutation fst _ _ (sort_by_perm (λ kv : string * backend_conf, type_prio kv.2) backends)) in Hw. exact Hw.
    - apply dict_wf_nil.
    - intros e (kv & -> & _)%list_elem_of_fmap. simpl. lia.
    - intros n p _ _ H _. by rewrite (Hp _ _ H). }
  unfold render_initial. destruct (ds_entries d0); [done|]. destruct Hs as [[] ? ?]. by split.
Qed.

Lemma sound_finalize now1 now2 d : sound None d → sound None (finalize now1 now2 d).
Proof.
  intros [[Hn Hl Hw Hp] Ha Hno]. unfold finalize. destruct (ds_finalized d); [done|]. set (d2 := set_entries _ _).
  assert (sound None d2) as Hs2.
  { assert (∀ n p, (n, p) ∈ phases d2 → in_progress p = false) as Hend.
    { intros n p (e & [= -> ->] & (e0 & -> & _)%list_elem_of_fmap)%list_elem_of_fmap.
      destruct (is_terminal (be_phase e0)) eqn:Et; [|done]. unfold is_terminal in Et. unfold in_progress. reflect_bools.
      rewrite bool_decide_true; [done|set_solver]. }
    split; [split|..]; try done.
    - unfold phases, d2. simpl. rewrite <-!list_fmap_compose. unfold phases in Hn. rewrite <-list_fmap_compose in Hn.
      erewrite list_fmap_ext; [exact Hn|]. intros _ e _. simpl. by case_match.
    - apply dict_wf_nil.
    - intros e (e0 & -> & He)%list_elem_of_fmap. case_match; [|simpl]; by apply Hp.
    - intros n p _ _ H _. by apply (Hend n). }
  apply (sound_refresh _ now2) in Hs2 as [[] ? ?]. by split.
Qed.

(** ** One spinner *)

Definition is_spinner (r : renderable) : bool := match r with SpinnerLine _ _ _ => true | _ => false end.

Lemma no_spinner_lines n l : keep is_spinner (output_lines n l) = [].
Proof. unfold output_lines. induction (last_lines n l); simpl; auto. Qed.

Lemma part_spinner now d e :
  keep is_spinner (sequential_part now d e) =
    match ds_active d with
    | Some (n, sp) => if in_progress (be_phase e) && bool_decide (be_name e = n) then [SpinnerLine n (sp_header sp) (sp_style sp)] else []
    | None => []
    end.
Proof.
  unfold sequential_part, is_terminal. destruct (ds_active d) as [[n sp]|]; destruct (be_phase e); simpl; try done;
    (destruct (decide (be_name e = n)) as [E|E]; [rewrite !bool_decide_true by done|rewrite !bool_decide_false by congruence]; simpl; try done);
    case_match; simpl; by rewrite ?no_spinner_lines.
Qed.

Lemma parts_spinner now d l :
  keep is_spinner (mjoin (sequential_part now d <$> l)) =
    match ds_active d with
    | Some (n, sp) => (λ _, SpinnerLine n (sp_header sp) (sp_style sp)) <$> keep (λ e, in_progress (be_phase e) && bool_decide (be_name e = n)) l
    | None => []
    end.
Proof.
  induction l as [|e l IH]; [by destruct (ds_active d) as [[]|]|]. rewrite mjoin_fmap_cons, keep_app, part_spinner, IH.
  destruct (ds_active d) as [[n sp]|]; [|done]. cbn [List.filter]. by destruct (_ && _).
Qed.

Lemma keep_one {A B} (f : A → B) (g : A → bool) l x : NoDup (f <$> l) → x ∈ l → g x = true → (∀ y, y ∈ l → g y = true → f y = f x) →
  keep g l = [x].
Proof.
  intros Hnd Hx Hg Hu. apply list_elem_of_split in Hx as (l1 & l2 & ->). rewrite fmap_app, fmap_cons in Hnd.
  apply NoDup_app in Hnd as (_ & Hd1 & [Hd2 _]%NoDup_cons). rewrite keep_app. simpl. rewrite Hg.
  assert (∀ l, (∀ y, y ∈ l → y ∈ l1 ++ x :: l2) → f x ∉ f <$> l → keep g l = []) as Hnil.
  { intros l Hl Hf. induction l as [|y l IH]; simpl; [done|]. rewrite fmap_cons in Hf. apply not_elem_of_cons in Hf as [Hy Hf].
    destruct (g y) eqn:Ey; [destruct Hy; symmetry; apply Hu; [apply Hl; left|done]|]. apply IH; [|done]. intros z Hz. apply Hl. by right. }
  rewrite !Hnil; [done|set_solver|done|set_solver|].
  intros Hin. by apply (Hd1 (f x)); [|left].
Qed.

(** The operations of the start-up on the display. *)
Inductive display_op :=
  | OpUpdate (now1 now2 now3 : Z) (name phase : string) (message : option string)
  | OpFinalize (now1 now2 : Z).
Definition display_do (o : display_op) (d : InstallerDisplay) : InstallerDisplay :=
  match o with
  | OpUpdate n1 n2 n3 name phase message => update n1 n2 n3 name (Some phase) message d
  | OpFinalize n1 n2 => finalize n1 n2 d
  end.
Definition reports (o : display_op) : bool :=
  match o with OpUpdate _ _ _ _ phase _ => match phase_of phase with Some p => reported p | None => false end | OpFinalize _ _ => true end.
Definition display_step (d : InstallerDisplay) (o : display_op) (d' : InstallerDisplay) : Prop := reports o = true ∧ d' = display_do o d.

(** Whatever the start-up reports, in whatever order and for how many backends at
    the same time: the sequential display has exactly one spinner while some backend is
    in progress and none otherwise; build output is kept only for backends that are
    building, at most 200 lines of it; and the progress of every build is between none
    and all of it. *)
Theorem one_spinner backends verbose parallel verbosity ops d now
    (Hw : dict_wf backends) (Hrun : steps display_step (render_initial (new_display backends verbose parallel verbosity)) ops d) :
  (ds_parallel d = false →
   length (keep is_spinner (_build_renderable now d).2) = if existsb (λ e, in_progress (be_phase e)) (ds_entries d) then 1%nat else 0%nat) ∧
  (∀ n l, dget (ds_build_lines d) n = Some l → (length l <= 200)%nat ∧ (n, BUILDING) ∈ phases d) ∧
  (∀ e, e ∈ ds_entries d → 0 <= fr_num (be_progress e) <= fr_den (be_progress e)).
Proof.
  assert (sound None d) as [[Hn Hl Hwf Hp] Ha Hno].
  { eapply steps_invariant; [|exact Hrun|by apply sound_initial]. intros s o s' Hs [Hr ->].
    destruct o as [n1 n2 n3 name phase message|]; simpl in *; [|by apply sound_finalize].
    destruct (phase_of phase) as [p|] eqn:E; [|done]. by eapply sound_update. }
  split_and!; [|done|intros e He; apply (Hp e He)]. intros Hpar. unfold _build_renderable. rewrite Hpar. simpl.
  replace (keep is_spinner _) with (keep is_spinner (mjoin (sequential_part now d <$> ds_entries d))) by (by destruct (mjoin _)).
  rewrite parts_spinner. destruct (ds_active d) as [[n sp]|] eqn:Eact.
  - destruct (Ha n sp Hpar eq_refl) as (p & (e & [= -> ->] & He)%list_elem_of_fmap & Hpr); [done|].
    rewrite (keep_one be_name _ _ e); [|by unfold phases in Hn; rewrite <-list_fmap_compose in Hn|done|by rewrite Hpr, bool_decide_true|].
    2:{ intros y _ Hy. by reflect_bools. }
    rewrite (proj2 (existsb_elem_of _ _)); [done|]. by exists e.
  - destruct (existsb _ _) eqn:E; [|done]. apply existsb_elem_of in E as (e & He & Hpr).
    rewrite (Hno (be_name e) (be_phase e)) in Hpr; [done|done|done| |done]. apply list_elem_of_fmap. by exists e.
Qed.

Definition two_backends : odict string backend_conf :=
  [("files", {| bk_type := Some "stdio"; bk_params_command := Some "uvx"; bk_command := None |});
   ("search", {| bk_type := Some "sse"; bk_params_command := None; bk_command := None |})].
Definition demo_ops : list display_op :=
  [OpUpdate 1000 1000 1000 "search" "initializing" (Some "Connecting (sse)"); OpUpdate 1100 1100 1100 "files" "building" (Some "#6 [2/8] RUN");
   OpUpdate 1200 1200 1200 "files" "ready" None].

Lemma display_steps ops : ∀ d, forallb reports ops = true → steps display_step d ops (foldl (λ d o, display_do o d) d ops).
Proof.
  induction ops as [|o ops IH]; intros d H; [apply steps_nil|]. cbn [forallb] in H. reflect_bools.
  eapply steps_cons; [split; [done|reflexivity]|]. by apply IH.
Qed.

Lemma one_spinner_witness :
  let d := foldl (λ d o, display_do o d) (render_initial (new_display two_backends false false (Some 1))) demo_ops in
  be_name <$> ds_entries d = ["search"; "files"] ∧ length (keep is_spinner (_build_renderable 2000 d).2) = 1%nat.
Proof.
  cbv zeta. split; [vm_compute; reflexivity|].
  destruct (one_spinner two_backends false false (Some 1) demo_ops
    (foldl (λ d o, display_do o d) (render_initial (new_display two_backends false false (Some 1))) demo_ops) 2000) as [H _].
  - by_decide.
  - apply display_steps. vm_compute. reflexivity.
  - rewrite H by (vm_compute; reflexivity). vm_compute. reflexivity.
Defined.

(** ** The end *)

Lemma refresh_entries now d : ds_entries (_refresh now d) = ds_entries d ∧ ds_finalized (_refresh now d) = ds_finalized d ∧
  ds_printed (_refresh now d) = ds_printed d.
Proof. unfold _refresh. case_match; [|done]. by destruct (_build_renderable now d). Qed.

Lemma terminal_partition (l : list _BackendEntry) : Forall (λ e, is_terminal (be_phase e) = true) l →
  (length (keep (λ e, bool_decide (be_phase e = READY)) l) + length (keep (λ e, bool_decide (be_phase e = FAILED)) l) +
   length (keep (λ e, bool_decide (be_phase e = SKIPPED)) l) = length l)%nat.
Proof. induction 1 as [|e l He _ IH]; simpl; [done|]. destruct (be_phase e); simpl; try done; lia. Qed.

(** The end of the display: every backend is ready, failed or skipped, the summary
    counts them, and nothing that is reported later changes anything. *)
Theorem finalize_exact now1 now2 d o : ds_finalized d = false →
  let d' := finalize now1 now2 d in
  (∀ e, e ∈ ds_entries d' → is_terminal (be_phase e) = true) ∧
  count_phase READY d' = count_phase READY d ∧ count_phase FAILED d' = count_phase FAILED d ∧
  count_phase READY d' + count_phase FAILED d' + count_phase SKIPPED d' = Z.of_nat (length (ds_entries d)) ∧
  ds_printed d' = ds_printed d ++ [summary (count_phase READY d) (count_phase FAILED d) (Z.of_nat (length (ds_entries d)))] ∧
  display_do o d' = d'.
Proof.
  intros Hf d'. unfold d', finalize. rewrite Hf. set (d2 := set_entries _ _).
  destruct (refresh_entries now2 d2) as (E1 & E2 & E3).
  assert (ds_entries d2 = (λ e, if is_terminal (be_phase e) then e else with_end now1 (with_phase SKIPPED (be_start e) e)) <$> ds_entries d) as E by done.
  assert (∀ p, p ≠ SKIPPED → is_terminal p = true → keep (λ e, bool_decide (be_phase e = p)) (ds_entries d2) =
    keep (λ e, bool_decide (be_phase e = p)) (ds_entries d)) as Hk.
  { intros p Hp Ht. rewrite E. clear -Hp Ht. induction (ds_entries d) as [|e l IH]; [done|]. rewrite fmap_cons. cbn [List.filter].
    destruct (is_terminal (be_phase e)) eqn:Ee; cbn [be_phase with_end with_phase]; rewrite IH; [done|].
    rewrite (bool_decide_false (SKIPPED = p)) by done. by rewrite bool_decide_false by congruence. }
  assert (Forall (λ e, is_terminal (be_phase e) = true) (ds_entries d2)) as Hterm.
  { rewrite E. apply Forall_fmap, Forall_true. intros e. simpl. by destruct (is_terminal (be_phase e)) eqn:Ee. }
  assert (length (ds_entries d2) = length (ds_entries d)) as Elen by (by rewrite E, length_fmap).
  assert (∀ p, p ≠ SKIPPED → is_terminal p = true → count_phase p (_refresh now2 d2) = count_phase p d) as Hc.
  { intros p Hp Ht. unfold count_phase. by rewrite E1, Hk. }
  assert (∀ p s, count_phase p (print s (_refresh now2 d2)) = count_phase p (_refresh now2 d2)) as Hprint by done.
  rewrite !Hprint, !Hc by done. split_and!; [| done | done | | |].
  - simpl. rewrite E1. rewrite Forall_forall in Hterm. exact Hterm.
  - pose proof (terminal_partition _ Hterm) as Hpart. rewrite (Hk READY), (Hk FAILED) in Hpart by done.
    unfold count_phase. rewrite E1. lia.
  - simpl. by rewrite E3, E1, Elen.
  - destruct o; simpl.
    + unfold update. destruct (find_entry _ _); [|done]. simpl. by rewrite E2.
    + unfold finalize. simpl. by rewrite E2.
Qed.

(** ** Two surprises *)

(** When a backend is tried again after a failure, its timer stands still. *)
Lemma retry_timer_frozen e now now' : be_end e ≠ 0 → elapsed_at (with_phase RETRYING (be_start e) e) now = elapsed_at (with_phase RETRYING (be_start e) e) now'.
Proof. intros H. unfold elapsed_at. simpl. apply Z.eqb_neq in H. by rewrite H. Qed.

(** Once every backend had ended, the bars do not come back for a later retry. *)
Lemma bars_never_return now t d : ds_parallel d = true → ds_all_terminal_at d = Some t → t + 500 < now →
  (_build_renderable now d).1 = Some t ∧ ∀ r, Row r ∈ (_build_renderable now d).2 → rw_bar r = None.
Proof.
  intros Hp Ht Hn. unfold _build_renderable, _build_parallel_renderable. rewrite Hp, Ht. simpl. split; [done|].
  replace (now - t <=? 500) with false by (symmetry; apply Z.leb_gt; lia).
  assert (∀ n l r, Row r ∉ output_lines n l) as Hout by (unfold output_lines; by intros n l r (? & ? & _)%list_elem_of_fmap).
  assert (∀ e r, Row r ∉ output_title e) as Htitle by (unfold output_title; set_solver).
  intros r [(e & [= ->] & _)%list_elem_of_fmap|Hr]%elem_of_app; [done|]. exfalso. revert Hr.
  case_match; [by intros ?%not_elem_of_nil|]. unfold _render_build_output.
  case_match; [|case_match; [|by intros ?%not_elem_of_nil]].
  - intros (part & Hin & (e & -> & _)%list_elem_of_fmap)%list_elem_of_join. revert Hin.
    repeat case_match; rewrite ?elem_of_app; intros Hx; try (by apply not_elem_of_nil in Hx).
    destruct Hx as [Hx|Hx]; [by apply Htitle in Hx|by apply Hout in Hx].
  - repeat case_match; rewrite ?elem_of_app; intros Hx; try (by apply not_elem_of_nil in Hx).
    all: destruct Hx as [Hx|Hx]; [by apply Htitle in Hx|by apply Hout in Hx].
Qed.
