(* ===== verification/CliConfig.v ===== *)
(** * The configuration of the command line

    packages/argus_cli/argus_cli/config.py: flags, environment variables and a
    YAML file are resolved to a [CliConfig]; repl/handlers.py: the [set] command
    changes it and writes the change to the file.

    The files are the two candidates: config.yaml in the working directory and in
    the directory of the user.  Parameters: [safe_load] is YAML parsing ([None]:
    [YAMLError]), [yaml_dump] its inverse on dictionaries, [py_int] is [int(v)]
    ([None]: it raises), [bracket_ok] the check of bracketed hosts in [urlparse].
    The environment is the one after [load_dotenv]. *)
From S2P Require Import Prelude PyDict Effects PyStr Url Json Themes.
From Stdlib Require Import Ascii.
#[local] Open Scope Z_scope.

Definition DEFAULT_SERVER_URL : string := "http://127.0.0.1:9000".
Definition MANAGE_API_PREFIX : string := "/manage/v1".

Inductive config_path := CwdConfig | UserConfig.
(** The text of each file, [None] when there is none, and the module variable
    [_config_source]. *)
Record cli_files := { cf_cwd : option string; cf_user : option string; cf_source : option config_path }.
Definition file_at (w : cli_files) (p : config_path) : option string :=
  match p with CwdConfig => cf_cwd w | UserConfig => cf_user w end.

Record CliConfig := {
  cli_server_url : string;
  cli_token : pyval;
  cli_output_format : pyval;
  cli_no_color : bool;
  cli_theme : pyval;
  cli_show_toolbar : bool;
  cli_vi_mode : bool;
  cli_poll_interval : Z;
  cli_history_limit : Z;
  cli_argusd_auto_start : bool;
  cli_argusd_binary : pyval;
  cli_argusd_socket : pyval }.

Inductive cfg_exn := InvalidScheme (scheme : string) | NotAUrl | NotANumber.

(** The path of a URL: up to the query and the fragment, and without the
    parameters after a semicolon of its last segment. *)
Definition cut_params (l : list ascii) : list ascii :=
  let last := after_last 47 l in
  take (length l - length last) l ++ (span (λ c, negb (is_char 59 c)) last).1.
Definition parsed_path (u : parsed_url) : string :=
  text (cut_params (span (λ c, negb (is_char 63 c || is_char 35 c)) (chars (url_rest u))).1).
Definition rstrip_slash (s : string) : string := rstrip_by (is_char 47) s.

Section config.
Context (safe_load : string → option pyval) (yaml_dump : odict string pyval → string) (py_int : pyval → option Z)
  (bracket_ok : string → bool).

Fixpoint load_first (w : cli_files) (candidates : list config_path) : option (config_path * odict string pyval) :=
  match candidates with
  | [] => None
  | p :: rest =>
      match file_at w p with
      | None => load_first w rest
      | Some content =>
          match safe_load content with Some (PDict data) => Some (p, data) | _ => load_first w rest end
      end
  end.
Definition _load_yaml_config (w : cli_files) : odict string pyval * cli_files :=
  match load_first w [CwdConfig; UserConfig] with
  | Some (p, data) => (data, {| cf_cwd := cf_cwd w; cf_user := cf_user w; cf_source := Some p |})
  | None => ([], w)
  end.
Definition _save_yaml_config (data : odict string pyval) (w : cli_files) : cli_files :=
  {| cf_cwd := cf_cwd w; cf_user := Some (yaml_dump data); cf_source := cf_source w |}.

(** A path component only gives a warning: the text of it. *)
Definition _validate_server_url (url : pyval) : cfg_exn + (string * option string) :=
  match url with
  | PStr u =>
      match urlparse bracket_ok u with
      | None => inl NotAUrl
      | Some parsed =>
          if bool_decide (url_scheme parsed ∈ ["http"; "https"]) then
            let path := rstrip_slash (parsed_path parsed) in
            inr (u, if bool_decide (path = "") then None else Some path)
          else inl (InvalidScheme (url_scheme parsed))
      end
  | _ => inl NotAUrl
  end.

Definition cli_base_url (c : CliConfig) : string := rstrip_slash (cli_server_url c) +:+ MANAGE_API_PREFIX.

(** The options of the command line. *)
Record cli_flags := { fl_server : option string; fl_token : option string; fl_output : option string;
                      fl_no_color : bool; fl_theme : option string }.
Definition opt_val (s : option string) : pyval := match s with Some s => PStr s | None => PNone end.
(** [d.get(k)] *)
Definition yget (d : odict string pyval) (k : string) : pyval := get_or d k PNone.
Definition int_of (v : pyval) : cfg_exn + Z := match py_int v with Some z => inr z | None => inl NotANumber end.
Definition argusd_section (yaml_cfg : odict string pyval) : odict string pyval :=
  match get_or yaml_cfg "argusd" (PDict []) with PDict d => d | _ => [] end.

Definition resolve (terminal : bool) (environ : string → option string) (f : cli_flags) (yaml_cfg : odict string pyval)
    : cfg_exn + CliConfig :=
  let env k := opt_val (environ k) in
  let server := py_or (opt_val (fl_server f)) (py_or (env "ARGUS_SERVER_URL")
                  (py_or (yget yaml_cfg "server_url") (PStr DEFAULT_SERVER_URL))) in
  let token := py_or (opt_val (fl_token f)) (py_or (env "ARGUS_MGMT_TOKEN") (yget yaml_cfg "token")) in
  let explicit := py_or (opt_val (fl_output f)) (py_or (env "ARGUS_OUTPUT_FORMAT") (yget yaml_cfg "output_format")) in
  let output := py_or (opt_val (fl_output f)) (py_or (env "ARGUS_OUTPUT_FORMAT")
                  (py_or (yget yaml_cfg "output_format") (PStr "rich"))) in
  let theme := py_or (opt_val (fl_theme f)) (get_or yaml_cfg "theme" (PStr "catppuccin-mocha")) in
  let output := if negb (truthy explicit) && negb terminal then
                  match output with PStr "rich" => PStr "json" | _ => output end else output in
  let no_color := fl_no_color f || negb (bool_decide (default "" (environ "NO_COLOR") = "")) in
  let argusd := argusd_section yaml_cfg in
  let auto_start := bool_decide (lower (default "" (environ "ARGUSD_AUTO_START")) ∈ ["1"; "true"; "yes"]) ||
                    truthy (get_or argusd "auto_start" (PBool false)) in
  checked ← _validate_server_url server;
  poll ← int_of (get_or yaml_cfg "poll_interval" (PInt 30));
  limit ← int_of (get_or yaml_cfg "history_limit" (PInt 50));
  inr {| cli_server_url := checked.1; cli_token := token; cli_output_format := output; cli_no_color := no_color;
         cli_theme := theme; cli_show_toolbar := truthy (get_or yaml_cfg "show_toolbar" (PBool true));
         cli_vi_mode := truthy (get_or yaml_cfg "vi_mode" (PBool false)); cli_poll_interval := poll;
         cli_history_limit := limit; cli_argusd_auto_start := auto_start;
         cli_argusd_binary := py_or (env "ARGUSD_BINARY") (yget argusd "binary");
         cli_argusd_socket := py_or (env "ARGUSD_SOCKET") (yget argusd "socket") |}.
Definition resolve_now (terminal : bool) (environ : string → option string) (f : cli_flags) (w : cli_files)
    : (cfg_exn + CliConfig) * cli_files :=
  let '(yaml_cfg, w') := _load_yaml_config w in (resolve terminal environ f yaml_cfg, w').

(** ** The [set] command *)

Definition _SET_KEY_MAP : odict string string :=
  [("output", "output_format"); ("no-color", "no_color"); ("theme", "theme"); ("show-toolbar", "show_toolbar");
   ("vi-mode", "vi_mode")].
Definition _persist_setting (key value : string) (b : bool) (w : cli_files) : cli_files :=
  match dget _SET_KEY_MAP key with
  | None => w
  | Some yaml_key =>
      let '(data, w') := _load_yaml_config w in
      let v := if bool_decide (key ∈ ["output"; "theme"]) then PStr value else PBool b in
      _save_yaml_config (dset data yaml_key v) w'
  end.

Definition with_output (v : pyval) (c : CliConfig) : CliConfig :=
  {| cli_server_url := cli_server_url c; cli_token := cli_token c; cli_output_format := v; cli_no_color := cli_no_color c;
     cli_theme := cli_theme c; cli_show_toolbar := cli_show_toolbar c; cli_vi_mode := cli_vi_mode c;
     cli_poll_interval := cli_poll_interval c; cli_history_limit := cli_history_limit c;
     cli_argusd_auto_start := cli_argusd_auto_start c; cli_argusd_binary := cli_argusd_binary c;
     cli_argusd_socket := cli_argusd_socket c |}.
Definition with_no_color (b : bool) (c : CliConfig) : CliConfig :=
  {| cli_server_url := cli_server_url c; cli_token := cli_token c; cli_output_format := cli_output_format c;
     cli_no_color := b; cli_theme := cli_theme c; cli_show_toolbar := cli_show_toolbar c; cli_vi_mode := cli_vi_mode c;
     cli_poll_interval := cli_poll_interval c; cli_history_limit := cli_history_limit c;
     cli_argusd_auto_start := cli_argusd_auto_start c; cli_argusd_binary := cli_argusd_binary c;
     cli_argusd_socket := cli_argusd_socket c |}.
Definition with_theme (v : pyval) (c : CliConfig) : CliConfig :=
  {| cli_server_url := cli_server_url c; cli_token := cli_token c; cli_output_format := cli_output_format c;
     cli_no_color := cli_no_color c; cli_theme := v; cli_show_toolbar := cli_show_toolbar c; cli_vi_mode := cli_vi_mode c;
     cli_poll_interval := cli_poll_interval c; cli_history_limit := cli_history_limit c;
     cli_argusd_auto_start := cli_argusd_auto_start c; cli_argusd_binary := cli_argusd_binary c;
     cli_argusd_socket := cli_argusd_socket c |}.
Definition with_toolbar (b : bool) (c : CliConfig) : CliConfig :=
  {| cli_server_url := cli_server_url c; cli_token := cli_token c; cli_output_format := cli_output_format c;
     cli_no_color := cli_no_color c; cli_theme := cli_theme c; cli_show_toolbar := b; cli_vi_mode := cli_vi_mode c;
     cli_poll_interval := cli_poll_interval c; cli_history_limit := cli_history_limit c;
     cli_argusd_auto_start := cli_argusd_auto_start c; cli_argusd_binary := cli_argusd_binary c;
     cli_argusd_socket := cli_argusd_socket c |}.
Definition with_vi_mode (b : bool) (c : CliConfig) : CliConfig :=
  {| cli_server_url := cli_server_url c; cli_token := cli_token c; cli_output_format := cli_output_format c;
     cli_no_color := cli_no_color c; cli_theme := cli_theme c; cli_show_toolbar := cli_show_toolbar c; cli_vi_mode := b;
     cli_poll_interval := cli_poll_interval c; cli_history_limit := cli_history_limit c;
     cli_argusd_auto_start := cli_argusd_auto_start c; cli_argusd_binary := cli_argusd_binary c;
     cli_argusd_socket := cli_argusd_socket c |}.
Definition with_server (u : string) (c : CliConfig) : CliConfig :=
  {| cli_server_url := u; cli_token := cli_token c; cli_output_format := cli_output_format c;
     cli_no_color := cli_no_color c; cli_theme := cli_theme c; cli_show_toolbar := cli_show_toolbar c;
     cli_vi_mode := cli_vi_mode c; cli_poll_interval := cli_poll_interval c; cli_history_limit := cli_history_limit c;
     cli_argusd_auto_start := cli_argusd_auto_start c; cli_argusd_binary := cli_argusd_binary c;
     cli_argusd_socket := cli_argusd_socket c |}.

(** [known] are the themes: the result of [set_active_theme].  The printed text
    is left out; the result says whether the setting changed. *)
Definition handle_set (known : string → bool) (args : list string) (c : CliConfig) (w : cli_files) : bool * CliConfig * cli_files :=
  match args with
  | key :: value :: _ =>
      let b := bool_decide (lower value ∈ ["true"; "1"; "yes"]) in
      let '(changed, c') :=
        if bool_decide (key = "output") then
          if bool_decide (value ∈ ["rich"; "json"; "table"; "text"]) then (true, with_output (PStr value) c) else (false, c)
        else if bool_decide (key = "no-color") then (true, with_no_color b c)
        else if bool_decide (key = "theme") then
          if known value then (true, with_theme (PStr value) c) else (false, c)
        else if bool_decide (key = "show-toolbar") then (true, with_toolbar b c)
        else if bool_decide (key = "vi-mode") then (true, with_vi_mode b c)
        else (false, c) in
      (changed, c', if changed then _persist_setting key value b w else w)
  | _ => (false, c, w)
  end.
End config.

(** ** Settings survive *)

Section facts.
Context (safe_load : string → option pyval) (yaml_dump : odict string pyval → string) (py_int : pyval → option Z)
  (bracket_ok : string → bool) (known : string → bool).
Local Abbreviation set_cmd := (handle_set safe_load yaml_dump known).
Local Abbreviation load := (_load_yaml_config safe_load).
Local Abbreviation start := (resolve_now safe_load py_int bracket_ok).

Definition no_flags : cli_flags :=
  {| fl_server := None; fl_token := None; fl_output := None; fl_no_color := false; fl_theme := None |}.

Lemma get_or_dset_eq d k v w : get_or (dset d k v) k w = v.
Proof. unfold get_or. by rewrite dget_dset_eq. Qed.
Lemma get_or_dset_ne d k k' v w : k ≠ k' → get_or (dset d k v) k' w = get_or d k' w.
Proof. intros. unfold get_or. by rewrite dget_dset_ne. Qed.

(** The effect of an accepted [set] on the session and on the file. *)
Lemma set_cases args c w c' w' : set_cmd args c w = (true, c', w') →
  ∃ key value rest, args = key :: value :: rest ∧
  let b := bool_decide (lower value ∈ ["true"; "1"; "yes"]) in
  w' = _persist_setting safe_load yaml_dump key value b w ∧
  ((key = "output" ∧ value ∈ ["rich"; "json"; "table"; "text"] ∧ c' = with_output (PStr value) c) ∨
   (key = "no-color" ∧ c' = with_no_color b c) ∨
   (key = "theme" ∧ known value = true ∧ c' = with_theme (PStr value) c) ∨
   (key = "show-toolbar" ∧ c' = with_toolbar b c) ∨ (key = "vi-mode" ∧ c' = with_vi_mode b c)).
Proof.
  clear py_int bracket_ok. unfold handle_set. destruct args as [|key [|value rest]]; [done..|]. intros H. exists key, value, rest. split; [done|].
  repeat (case_bool_decide || case_match; simplify_eq/=); split; tauto || (split; tauto).
Qed.

(** The value that [resolve] reads for a key after it was written. *)
Lemma resolve_set terminal environ d key value b :
  str_truthy (environ "ARGUS_OUTPUT_FORMAT") = false →
  resolve py_int bracket_ok terminal environ no_flags (dset d "output_format" (PStr (String key value))) =
    match resolve py_int bracket_ok terminal environ no_flags d with
    | inl e => inl e | inr c => inr (with_output (PStr (String key value)) c) end ∧
  resolve py_int bracket_ok terminal environ no_flags (dset d "theme" (PStr (String key value))) =
    match resolve py_int bracket_ok terminal environ no_flags d with
    | inl e => inl e | inr c => inr (with_theme (PStr (String key value)) c) end ∧
  resolve py_int bracket_ok terminal environ no_flags (dset d "show_toolbar" (PBool b)) =
    match resolve py_int bracket_ok terminal environ no_flags d with inl e => inl e | inr c => inr (with_toolbar b c) end ∧
  resolve py_int bracket_ok terminal environ no_flags (dset d "vi_mode" (PBool b)) =
    match resolve py_int bracket_ok terminal environ no_flags d with inl e => inl e | inr c => inr (with_vi_mode b c) end ∧
  resolve py_int bracket_ok terminal environ no_flags (dset d "no_color" (PBool b)) =
    resolve py_int bracket_ok terminal environ no_flags d.
Proof.
  intros He. unfold resolve, argusd_section, yget.
  split_and!;
    repeat match goal with
      |- context [get_or (dset d ?a ?v) ?b ?w] =>
        first [rewrite (get_or_dset_eq d a v w)|rewrite (get_or_dset_ne d a b v w) by discriminate]
      end;
    destruct (_validate_server_url _ _) as [|[u pth]]; try done; simpl;
    destruct (int_of py_int (get_or d "poll_interval" (PInt 30))); try done; simpl;
    destruct (int_of py_int (get_or d "history_limit" (PInt 50))); try done; simpl.
  assert (truthy (PStr (String key value)) = true) as Ht by done.
  unfold py_or. destruct (environ "ARGUS_OUTPUT_FORMAT") as [s|]; simpl in He; cbn [opt_val truthy] in *;
    rewrite ?He; cbn; done.
Qed.

Lemma load_without_cwd w : load_first safe_load w [CwdConfig] = None →
  load_first safe_load w [CwdConfig; UserConfig] = load_first safe_load w [UserConfig].
Proof. simpl. destruct (cf_cwd w); [|done]. destruct (safe_load _) as [[]|]; done. Qed.

Lemma persisted w data yaml_key v :
  load_first safe_load w [CwdConfig] = None → safe_load (yaml_dump (dset data yaml_key v)) = Some (PDict (dset data yaml_key v)) →
  (load (_save_yaml_config yaml_dump (dset data yaml_key v) w)).1 = dset data yaml_key v.
Proof.
  intros Hc Hy. unfold _load_yaml_config. rewrite load_without_cwd by done. simpl. by rewrite Hy.
Qed.

Lemma pv_wf_dset d k v : pv_wf (PDict d) → pv_wf v → pv_wf (PDict (dset d k v)).
Proof. inversion 1; subst. intros Hv. constructor; [by apply dict_wf_dset|by apply Forall_dset]. Qed.

(** What the program of the next session reads after an accepted [set]: the
    configuration it would have read before, with the setting as in this session;
    the value of [no-color] is written and never read. *)
Theorem settings_survive terminal environ args c w c' w' :
  (∀ d, pv_wf (PDict d) → safe_load (yaml_dump d) = Some (PDict d)) →
  pv_wf (PDict (load w).1) →
  str_truthy (environ "ARGUS_OUTPUT_FORMAT") = false → known "" = false →
  load_first safe_load w [CwdConfig] = None →
  set_cmd args c w = (true, c', w') →
  ∃ change : CliConfig → CliConfig, c' = change c ∧
    (start terminal environ no_flags w').1 =
      match (start terminal environ no_flags w).1 with
      | inl e => inl e
      | inr r => inr (if bool_decide (head args = Some "no-color") then r else change r)
      end.
Proof.
  intros Hyaml Hwf He Hk Hc (key & value & rest & -> & -> & Hcases)%set_cases.
  unfold resolve_now. destruct (load w) as [data w1] eqn:El. simpl in Hwf.
  assert (load_first safe_load w1 [CwdConfig] = None) as Hc1.
  { unfold _load_yaml_config in El. destruct (load_first safe_load w _) as [[p d]|]; by simplify_eq. }
  assert (∀ yk v, dget _SET_KEY_MAP key = Some yk →
    (if bool_decide (key ∈ ["output"; "theme"]) then PStr value else PBool (bool_decide (lower value ∈ ["true"; "1"; "yes"]))) = v →
    (load (_persist_setting safe_load yaml_dump key value (bool_decide (lower value ∈ ["true"; "1"; "yes"])) w)).1
      = dset data yk v) as Hload.
  { intros yk v Hyk Hv. unfold _persist_setting. rewrite Hyk, El, Hv. apply persisted; [done|].
    apply Hyaml, pv_wf_dset; [done|]. rewrite <-Hv. case_bool_decide; constructor. }
  assert (∀ yk v, (load (_persist_setting safe_load yaml_dump key value (bool_decide (lower value ∈ ["true"; "1"; "yes"])) w)).1
      = dset data yk v → (let '(y, w2) := load (_persist_setting safe_load yaml_dump key value
        (bool_decide (lower value ∈ ["true"; "1"; "yes"])) w) in (resolve py_int bracket_ok terminal environ no_flags y, w2)).1
      = resolve py_int bracket_ok terminal environ no_flags (dset data yk v)) as Hrun.
  { intros yk v Hl. destruct (load (_persist_setting _ _ _ _ _ _)) as [y w2]. simpl in *. by rewrite Hl. }
  set (b := bool_decide (lower value ∈ _)) in *. simpl.
  destruct Hcases as [(-> & Hv & ->)|[(-> & ->)|[(-> & Hv & ->)|[(-> & ->)|(-> & ->)]]]];
    erewrite Hrun by (apply Hload; reflexivity).
  - destruct value as [|a s]; [exfalso; rewrite !elem_of_cons in Hv; by destruct Hv as [|[|[|[|?%not_elem_of_nil]]]]|].
    exists (with_output (PStr (String a s))). split; [done|]. by apply (resolve_set terminal environ data a s b).
  - exists (with_no_color b). split; [done|]. simpl.
    destruct (resolve_set terminal environ data "a" "" b He) as (_ & _ & _ & _ & ->). by destruct (resolve _ _ _ _ _ data).
  - destruct value as [|a s]; [congruence|].
    exists (with_theme (PStr (String a s))). split; [done|]. by apply (resolve_set terminal environ data a s b).
  - exists (with_toolbar b). split; [done|]. by apply (resolve_set terminal environ data "a" "" b).
  - exists (with_vi_mode b). split; [done|]. by apply (resolve_set terminal environ data "a" "" b).
Qed.

(** In a directory with a config.yaml of its own (the name of the file of the
    server) [set] copies that file over the one of the user, and has no effect. *)
Lemma project_file_copied terminal environ args c w c' w' p data :
  load_first safe_load w [CwdConfig] = Some (p, data) → set_cmd args c w = (true, c', w') →
  (∃ k v, cf_user w' = Some (yaml_dump (dset data k v))) ∧
  (start terminal environ no_flags w').1 = (start terminal environ no_flags w).1.
Proof.
  intros Hc (key & value & rest & -> & -> & Hcases)%set_cases.
  assert (∃ yk, dget _SET_KEY_MAP key = Some yk) as [yk Hyk].
  { destruct Hcases as [(-> & _)|[(-> & _)|[(-> & _)|[(-> & _)|(-> & _)]]]]; by eexists. }
  unfold _persist_setting, resolve_now, _load_yaml_config. rewrite Hyk. simpl in Hc |- *.
  destruct (cf_cwd w) as [t|]; [|done]. destruct (safe_load t) as [[]|] eqn:Et; simplify_eq. simpl. rewrite Et. eauto.
Qed.

(** The server of a resolved configuration is reached over HTTP. *)
Lemma resolved_scheme terminal environ f yaml_cfg c :
  resolve py_int bracket_ok terminal environ f yaml_cfg = inr c →
  ∃ u, urlparse bracket_ok (cli_server_url c) = Some u ∧ url_scheme u ∈ ["http"; "https"].
Proof.
  unfold resolve. intros H. peel H as checked E. peel H as poll E1. peel H as limit E2. simplify_eq/=.
  unfold _validate_server_url in E. destruct (py_or _ _) as [| | |s| |]; try done.
  destruct (urlparse bracket_ok s) as [u|] eqn:Eu; [|done]. case_bool_decide; simplify_eq/=. eauto.
Qed.
End facts.

Lemma settings_survive_witness :
  let dump d := dumps (Some 2%nat) (PDict d) in
  let w := {| cf_cwd := None; cf_user := Some (dump [("theme", PStr "nord")]); cf_source := None |} in
  let c := {| cli_server_url := DEFAULT_SERVER_URL; cli_token := PNone; cli_output_format := PStr "rich"; cli_no_color := false;
              cli_theme := PStr "nord"; cli_show_toolbar := true; cli_vi_mode := false; cli_poll_interval := 30;
              cli_history_limit := 50; cli_argusd_auto_start := false; cli_argusd_binary := PNone; cli_argusd_socket := PNone |} in
  let after := handle_set loads dump (λ _, false) ["output"; "json"] c w in
  cli_output_format after.1.2 = PStr "json" ∧
  ∃ change : CliConfig → CliConfig, after.1.2 = change c ∧
    (resolve_now loads as_num (λ _, true) true (λ _, None) no_flags after.2).1 =
      match (resolve_now loads as_num (λ _, true) true (λ _, None) no_flags w).1 with
      | inl e => inl e
      | inr r => inr (change r)
      end.
Proof.
  cbv zeta. split; [done|].
  apply (settings_survive loads (λ d, dumps (Some 2%nat) (PDict d)) as_num (λ _, true) (λ _, false) true (λ _, None)
    ["output"; "json"] _ _ _ _ (λ d, loads_dumps (Some 2%nat) (PDict d))); [|done..|vm_compute; reflexivity].
  replace (_load_yaml_config loads _).1 with [("theme", PStr "nord")] by (vm_compute; reflexivity).
  constructor; [by_decide|]. repeat constructor.
Defined.
