(* ===== verification/ServerManager.v ===== *)
(** * The servers of the terminal interface

    tui/server_manager.py (and the variant of packages/argus_cli): a named collection
    of servers with one API client each, kept in a JSON file; api/client.py: the life
    of an API client; tui/settings.py: the settings file.

    Entries and clients are objects: the manager maps names to entries, an entry
    refers to an API client, an API client to the HTTP client that it opened last.
    An HTTP client is open or closed.  A disconnect is split at its await, because an
    entry can be replaced meanwhile. *)
From S2P Require Import Prelude PyDict Effects PyStr Json CliConfig.
From Stdlib Require Import Ascii.
#[local] Open Scope Z_scope.

Record ApiClient := { ac_url : string; ac_token : option string; ac_http : option nat }.
Record ServerEntry := { se_name : string; se_url : string; se_token : option string; se_client : option nat; se_connected : bool }.
Record manager := {
  sm_servers : odict string nat;
  sm_active : option string;
  sm_entries : list ServerEntry;
  sm_clients : list ApiClient;
  sm_http : list bool }.
Definition new_manager : manager := {| sm_servers := []; sm_active := None; sm_entries := []; sm_clients := []; sm_http := [] |}.

Definition set_servers (s : odict string nat) (a : option string) (m : manager) : manager :=
  {| sm_servers := s; sm_active := a; sm_entries := sm_entries m; sm_clients := sm_clients m; sm_http := sm_http m |}.
Definition set_heap (e : list ServerEntry) (c : list ApiClient) (h : list bool) (m : manager) : manager :=
  {| sm_servers := sm_servers m; sm_active := sm_active m; sm_entries := e; sm_clients := c; sm_http := h |}.
Definition on_server (i : nat) (f : ServerEntry → ServerEntry) (m : manager) : manager :=
  set_heap (alter f i (sm_entries m)) (sm_clients m) (sm_http m) m.
Definition with_client (c : option nat) (b : bool) (e : ServerEntry) : ServerEntry :=
  {| se_name := se_name e; se_url := se_url e; se_token := se_token e; se_client := c; se_connected := b |}.

(** ** The API client *)

Definition new_api_client (url : string) (token : option string) : ApiClient :=
  {| ac_url := rstrip_slash url; ac_token := token; ac_http := None |}.
(** A new HTTP client takes the place of the old one, which stays as it is. *)
Definition api_connect (i : nat) (m : manager) : manager :=
  let h := length (sm_http m) in
  set_heap (sm_entries m) (alter (λ c, {| ac_url := ac_url c; ac_token := ac_token c; ac_http := Some h |}) i (sm_clients m))
    (sm_http m ++ [true]) m.
Definition api_close (i : nat) (m : manager) : manager :=
  match sm_clients m !! i with
  | Some {| ac_http := Some h |} =>
      set_heap (sm_entries m) (alter (λ c, {| ac_url := ac_url c; ac_token := ac_token c; ac_http := None |}) i (sm_clients m))
        (<[h := false]> (sm_http m)) m
  | _ => m
  end.
Definition api_is_connected (i : nat) (m : manager) : bool :=
  match sm_clients m !! i with Some {| ac_http := Some h |} => default false (sm_http m !! h) | _ => false end.

(** ** Looking things up *)

Definition entry_of (m : manager) (name : string) : option ServerEntry := i ← dget (sm_servers m) name; sm_entries m !! i.
Definition active_entry (m : manager) : option ServerEntry :=
  match sm_active m with
  | Some n => if bool_decide (n = "") then None else entry_of m n
  | None => None
  end.
Definition active_client (m : manager) : option nat :=
  match active_entry m with Some e => if se_connected e then se_client e else None | None => None end.
Definition sm_names (m : manager) : list string := sorted_names (dkeys (sm_servers m)).

(** ** Operations *)

Inductive mgr_exn := KeyError (name : string) | ConnectFails (what : string).
Abbreviation mgr A := (M manager mgr_exn A).

Definition new_server (name url : string) (token : option string) (m : manager) : manager :=
  let i := length (sm_entries m) in
  set_servers (dset (sm_servers m) name i) (sm_active m)
    (set_heap (sm_entries m ++ [{| se_name := name; se_url := url; se_token := token; se_client := None; se_connected := false |}])
       (sm_clients m) (sm_http m) m).
Definition add (name url : string) (token : option string) (set_active : bool) (m : manager) : manager :=
  let m1 := new_server name (rstrip_slash url) token m in
  if set_active || bool_decide (sm_active m1 = None) then set_servers (sm_servers m1) (Some name) m1 else m1.
Definition remove (name : string) : mgr () := λ m,
  if negb (dmem (sm_servers m) name) then (inl (KeyError name), m)
  else
    let servers := ddel (sm_servers m) name in
    (inr (), set_servers servers (if bool_decide (sm_active m = Some name) then head (dkeys servers) else sm_active m) m).
Definition set_active (name : string) : mgr () := λ m,
  if negb (dmem (sm_servers m) name) then (inl (KeyError name), m) else (inr (), set_servers (sm_servers m) (Some name) m).

(** [reuse] is the variant of the command-line package; [fails] says how the
    connection fails, if it does. *)
Definition connect (reuse : bool) (fails : option string) (name : string) : mgr () := λ m,
  match dget (sm_servers m) name with
  | None => (inl (KeyError name), m)
  | Some i =>
      match sm_entries m !! i with
      | None => (inl (KeyError name), m)
      | Some e =>
          match se_client e with
          | Some c =>
              if se_connected e then (inr (), m)
              else if reuse && api_is_connected c m then (inr (), on_server i (with_client (Some c) true) (api_connect c m))
              else
                match fails with
                | Some what => (inl (ConnectFails what), m)
                | None =>
                    let c' := length (sm_clients m) in
                    let m1 := set_heap (sm_entries m) (sm_clients m ++ [new_api_client (se_url e) (se_token e)]) (sm_http m) m in
                    (inr (), on_server i (with_client (Some c') true) (api_connect c' m1))
                end
          | None =>
              match fails with
              | Some what => (inl (ConnectFails what), m)
              | None =>
                  let c' := length (sm_clients m) in
                  let m1 := set_heap (sm_entries m) (sm_clients m ++ [new_api_client (se_url e) (se_token e)]) (sm_http m) m in
                  (inr (), on_server i (with_client (Some c') true) (api_connect c' m1))
              end
          end
      end
  end.
(** A disconnect up to its await: the entry it works on; and from there on. *)
Definition disconnect_begin (name : string) (m : manager) : option nat * manager :=
  match dget (sm_servers m) name with
  | None => (None, m)
  | Some i => (Some i, match sm_entries m !! i with Some {| se_client := Some c |} => api_close c m | _ => m end)
  end.
Definition disconnect_end (i : nat) (m : manager) : manager := on_server i (with_client None false) m.
Definition disconnect (name : string) (m : manager) : manager :=
  let '(i, m1) := disconnect_begin name m in match i with Some i => disconnect_end i m1 | None => m1 end.

Definition connect_each (reuse : bool) (fails : string → option string) (names : list string) (m : manager)
    : odict string (option mgr_exn) * manager :=
  foldl (λ '(results, m) name,
    match connect reuse (fails name) name m with
    | (inr _, m') => (dset results name None, m')
    | (inl e, m') => (dset results name (Some e), m')
    end) ([], m) names.
Definition connect_all (reuse : bool) (fails : string → option string) (m : manager) : odict string (option mgr_exn) * manager :=
  connect_each reuse fails (dkeys (sm_servers m)) m.
Definition close_all (m : manager) : manager := foldl (λ m name, disconnect name m) m (dkeys (sm_servers m)).

(** [has_close]: whether the HTTP client has a method [close]. *)
Definition close_sync (has_close : bool) (m : manager) (i : nat) : manager :=
  let m1 :=
    match sm_entries m !! i with
    | Some {| se_client := Some c |} =>
        match sm_clients m !! c with
        | Some {| ac_http := Some h |} =>
            if default false (sm_http m !! h) && has_close then set_heap (sm_entries m) (sm_clients m) (<[h := false]> (sm_http m)) m else m
        | _ => m
        end
    | _ => m
    end in
  on_server i (with_client None false) m1.
Definition close_all_sync (has_close : bool) (m : manager) : manager := foldl (close_sync has_close) m (dvalues (sm_servers m)).

Definition mark_connected (b : bool) (name : string) (m : manager) : manager :=
  match dget (sm_servers m) name with
  | Some i => on_server i (λ e, with_client (se_client e) b e) m
  | None => m
  end.

(** ** The file *)

Definition load_server (srv : pyval) : option (option (string * string * option string)) :=
  match srv with
  | PDict d =>
      match get_or d "name" (PStr ""), get_or d "url" (PStr "") with
      | PStr name, PStr url =>
          if bool_decide (name = "") || bool_decide (url = "") then Some None
          else match get_or d "token" PNone with
               | PNone => Some (Some (name, url, None))
               | PStr t => Some (Some (name, url, Some t))
               | _ => None
               end
      | _, _ => None
      end
  | _ => None
  end.
Fixpoint load_servers (l : list pyval) (m : manager) : option manager :=
  match l with
  | [] => Some m
  | srv :: rest =>
      match load_server srv with
      | Some (Some (name, url, token)) => load_servers rest (new_server name url token m)
      | Some None => load_servers rest m
      | None => None
      end
  end.
(** [None]: a value of an unexpected type, which the source does not look for. *)
Definition load (file : option string) (m : manager) : option manager :=
  match file with
  | None => Some m
  | Some content =>
      match loads content with
      | None => Some m
      | Some (PDict data) =>
          match get_or data "servers" (PList []) with
          | PList l =>
              m1 ← load_servers l m;
              let first := match head (dkeys (sm_servers m1)) with Some n => Some n | None => sm_active m1 end in
              match get_or data "active" PNone with
              | PStr a => Some (set_servers (sm_servers m1) (if negb (bool_decide (a = "")) && dmem (sm_servers m1) a then Some a else first) m1)
              | PList (_ :: _) | PDict (_ :: _) => None
              | _ => Some (set_servers (sm_servers m1) first m1)
              end
          | _ => None
          end
      | Some _ => None
      end
  end.
Definition saved_server (e : ServerEntry) : pyval :=
  PDict ([("name", PStr (se_name e)); ("url", PStr (se_url e))] ++
         (if str_truthy (se_token e) then [("token", opt_val (se_token e))] else [])).
Definition saved (m : manager) : pyval :=
  PDict [("servers", PList (saved_server <$> omap (λ i, sm_entries m !! i) (dvalues (sm_servers m))));
         ("active", opt_val (sm_active m))].
Definition save (m : manager) : string := dumps (Some 2%nat) (saved m).

Definition from_single (name url : string) (token : option string) : manager := add name url token true new_manager.
Definition from_config (file : option string) : option manager := load file new_manager.

(** ** The active server *)

Record managed (m : manager) : Prop := {
  mg_wf : dict_wf (sm_servers m);
  mg_named : ∀ n i, dget (sm_servers m) n = Some i → ∃ e, sm_entries m !! i = Some e ∧ se_name e = n;
  mg_active : ∀ a, sm_active m = Some a → a ∈ dkeys (sm_servers m);
  mg_some : sm_active m = None → sm_servers m = [] }.

Lemma managed_new : managed new_manager.
Proof. split; simpl; [apply dict_wf_nil|done..]. Qed.
(** An assignment to an entry that keeps its name. *)
Lemma managed_on_server i f m : (∀ e, se_name (f e) = se_name e) → managed m → managed (on_server i f m).
Proof.
  intros Hf [Hw Hn Ha Hs]. split; try done. simpl. intros n j Hj. destruct (Hn n j Hj) as (e & He & Hne).
  destruct (decide (i = j)) as [->|Hij].
  - exists (f e). rewrite list_lookup_alter_eq, He. split; [done|]. by rewrite Hf.
  - exists e. by rewrite list_lookup_alter_ne.
Qed.
(** Changes of the clients only. *)
Lemma managed_clients c h m : managed m → managed (set_heap (sm_entries m) c h m).
Proof. intros []. by split. Qed.
Lemma managed_api_connect i m : managed m → managed (api_connect i m).
Proof. apply managed_clients. Qed.
Lemma managed_api_close i m : managed m → managed (api_close i m).
Proof. intros H. unfold api_close. repeat case_match; try done. by apply managed_clients. Qed.
#[local] Hint Resolve managed_on_server managed_clients managed_api_connect managed_api_close : argus.

Lemma new_server_props name url token m : dict_wf (sm_servers m) →
  (∀ n i, dget (sm_servers m) n = Some i → ∃ e, sm_entries m !! i = Some e ∧ se_name e = n) →
  let m' := new_server name url token m in
  dict_wf (sm_servers m') ∧ (∀ n i, dget (sm_servers m') n = Some i → ∃ e, sm_entries m' !! i = Some e ∧ se_name e = n) ∧
  name ∈ dkeys (sm_servers m') ∧ (∀ n, n ∈ dkeys (sm_servers m) → n ∈ dkeys (sm_servers m')) ∧ sm_active m' = sm_active m.
Proof.
  intros Hw Hn m'. unfold m', new_server. simpl. split_and!; [by apply dict_wf_dset| | | |done].
  - intros n i. rewrite dget_dset. case_decide as Hc.
    + intros [= <-]. eexists. rewrite lookup_app_r, Nat.sub_diag by lia. split; [reflexivity|done].
    + intros Hi. destruct (Hn n i Hi) as (e & He & Hne). exists e. split; [|done]. by apply lookup_app_l_Some.
  - apply elem_dkeys_dset. by left.
  - intros n Hin. apply elem_dkeys_dset. by right.
Qed.

Lemma managed_add name url token act m : managed m → managed (add name url token act m).
Proof.
  intros [Hw Hn Ha Hs]. destruct (new_server_props name (rstrip_slash url) token m Hw Hn) as (H1 & H2 & H3 & H4 & H5).
  unfold add. set (m1 := new_server _ _ _ m) in *. rewrite H5. destruct (act || _) eqn:E; split; try done.
  - by intros a [= <-].
  - intros a. rewrite H5. intros Hact. by apply H4, Ha.
  - rewrite H5. intros Hact. rewrite Hact in E. by destruct act.
Qed.

Lemma managed_remove name m : managed m → managed (remove name m).2.
Proof.
  intros [Hw Hn Ha Hs]. unfold remove. destruct (dmem (sm_servers m) name) eqn:E; simpl; [|done].
  split; simpl; [by apply dict_wf_ddel| | |].
  - intros n i. rewrite dget_ddel by done. case_decide; [done|]. apply Hn.
  - intros a. case_bool_decide as Hact.
    + unfold dkeys. destruct (ddel (sm_servers m) name) as [|[k v] l]; [done|]. intros [= <-]. left.
    + intros H. apply elem_dkeys_ddel; [done|]. split; [by apply Ha|congruence].
  - case_bool_decide as Hact; [by destruct (ddel (sm_servers m) name) as [|[]]|].
    intros H. by rewrite (Hs H).
Qed.

Lemma managed_connect reuse fails name m : managed m → managed (connect reuse fails name m).2.
Proof.
  intros H. unfold connect. repeat (case_match; simplify_eq/=; try done);
    apply managed_on_server; try done; auto with argus; by apply managed_api_connect, managed_clients.
Qed.

Lemma managed_load_servers l : ∀ m m', dict_wf (sm_servers m) →
  (∀ n i, dget (sm_servers m) n = Some i → ∃ e, sm_entries m !! i = Some e ∧ se_name e = n) → load_servers l m = Some m' →
  dict_wf (sm_servers m') ∧ (∀ n i, dget (sm_servers m') n = Some i → ∃ e, sm_entries m' !! i = Some e ∧ se_name e = n) ∧
  (∀ n, n ∈ dkeys (sm_servers m) → n ∈ dkeys (sm_servers m')) ∧ sm_active m' = sm_active m.
Proof.
  induction l as [|srv l IH]; intros m m' Hw Hn; simpl; [by intros [= <-]|].
  destruct (load_server srv) as [[[[name url] token]|]|]; [|by apply IH|done]. intros H.
  destruct (new_server_props name url token m Hw Hn) as (H1 & H2 & H3 & H4 & H5).
  destruct (IH _ _ H1 H2 H) as (K1 & K2 & K3 & K4). split_and!; [done|done|auto|congruence].
Qed.

Lemma managed_load file m m' : managed m → load file m = Some m' → managed m'.
Proof.
  intros Hm. pose proof Hm as [Hw Hn Ha Hs]. unfold load. destruct file as [content|]; [|by intros [= <-]].
  destruct (loads content) as [v|]; [|by intros [= <-]]. destruct v as [| | | | |data]; try done.
  destruct (get_or data "servers" (PList [])) as [| | | |l|]; try done. intros (m1 & El & H)%bind_Some.
  destruct (managed_load_servers l m m1 Hw Hn El) as (K1 & K2 & K3 & K4).
  assert (∀ a, (a ∈ dkeys (sm_servers m1)) → managed (set_servers (sm_servers m1) (Some a) m1)) as Hset.
  { intros a Hin. split; try done. by intros b [= <-]. }
  assert (managed (set_servers (sm_servers m1) (match head (dkeys (sm_servers m1)) with Some n => Some n | None => sm_active m1 end) m1)) as Hhead.
  { destruct (sm_servers m1) as [|[k i] rest] eqn:Es; simpl; [|apply Hset; left].
    split; simpl; [done|done| |done]. intros a Hact. rewrite K4 in Hact. by apply K3, Ha. }
  destruct (get_or data "active" PNone) as [| | |a|[]|[]]; simplify_eq; try done.
  destruct (negb _ && dmem _ a) eqn:E; [|done]. apply Hset. reflect_bools. by apply dmem_spec.
Qed.

Inductive mgr_op :=
  | OpAdd (name url : string) (token : option string) (act : bool) | OpRemove (name : string) | OpActivate (name : string)
  | OpConnect (reuse : bool) (fails : option string) (name : string) | OpDisconnectBegin (name : string) | OpDisconnectEnd (i : nat)
  | OpMark (b : bool) (name : string) | OpCloseSync (has_close : bool) (i : nat).
Definition mgr_do (o : mgr_op) (m : manager) : manager :=
  match o with
  | OpAdd name url token act => add name url token act m
  | OpRemove name => (remove name m).2
  | OpActivate name => (set_active name m).2
  | OpConnect reuse fails name => (connect reuse fails name m).2
  | OpDisconnectBegin name => (disconnect_begin name m).2
  | OpDisconnectEnd i => disconnect_end i m
  | OpMark b name => mark_connected b name m
  | OpCloseSync has_close i => close_sync has_close m i
  end.

Lemma managed_do o m : managed m → managed (mgr_do o m).
Proof.
  intros H. destruct o; simpl.
  - by apply managed_add.
  - by apply managed_remove.
  - unfold set_active. destruct (dmem (sm_servers m) name) eqn:E; simpl; [|done]. destruct H. split; try done.
    intros a [= <-]. by apply dmem_spec.
  - by apply managed_connect.
  - unfold disconnect_begin. repeat (case_match; simpl; try done); auto with argus.
  - by apply managed_on_server.
  - unfold mark_connected. case_match; [|done]. by apply managed_on_server.
  - unfold close_sync. apply managed_on_server; [done|]. repeat (case_match; try done); auto with argus.
Qed.


(** Whatever is done with the servers from the start on (adding, removing,
    activating, connecting, disconnecting in two steps that others may fall between,
    marking, closing), every name is of an entry of that name, and there is an active
    server exactly when there is a server, which is then one of them. *)
Theorem active_server_listed file ops m0 m :
  from_config file = Some m0 → steps (λ m o m', m' = mgr_do o m) m0 ops m →
  managed m ∧ (sm_active m = None ↔ sm_servers m = []) ∧
  (∀ a, sm_active m = Some a → a ≠ "" → ∃ e, active_entry m = Some e ∧ se_name e = a).
Proof.
  intros H0 Hs.
  assert (managed m) as Hm.
  { refine (steps_invariant _ managed _ _ _ _ Hs _); [by intros s o s' ? ->; apply managed_do|].
    apply (managed_load file new_manager); [apply managed_new|done]. }
  split; [done|]. destruct Hm as [Hw Hn Ha Hsome]. split; [split; [done|]|].
  - intros E. destruct (sm_active m) as [a|]; [|done]. specialize (Ha a eq_refl). rewrite E in Ha. by apply not_elem_of_nil in Ha.
  - intros a Hact Hne. destruct (dget_is_Some (sm_servers m) a) as [_ Hd]. destruct (Hd (Ha a Hact)) as [i Hi].
    destruct (Hn a i Hi) as (e & He & Hname). exists e. split; [|done].
    unfold active_entry, entry_of. rewrite Hact, (bool_decide_false (a = "")) by done. by rewrite Hi.
Qed.

(** ** The file read back *)

Definition listed (m : manager) : list ServerEntry := omap (λ i, sm_entries m !! i) (dvalues (sm_servers m)).
(** What of an entry is in the file: no client, and no empty token. *)
Definition stored (e : ServerEntry) : ServerEntry :=
  {| se_name := se_name e; se_url := se_url e; se_token := if str_truthy (se_token e) then se_token e else None;
     se_client := None; se_connected := false |}.

Lemma load_saved_entry e : se_name e ≠ "" → se_url e ≠ "" →
  load_server (saved_server e) = Some (Some (se_name e, se_url e, se_token (stored e))).
Proof.
  destruct e as [name url token c b]. intros H1 H2. simpl in H1, H2. unfold load_server, saved_server. simpl se_name. simpl se_url.
  change (get_or _ "name" _) with (PStr name). change (get_or _ "url" _) with (PStr url). cbv beta iota.
  rewrite !bool_decide_false by done. by destruct token as [[]|].
Qed.

Lemma load_saved_servers es : ∀ m, NoDup (dkeys (sm_servers m) ++ (se_name <$> es)) →
  Forall (λ e, se_name e ≠ "" ∧ se_url e ≠ "") es →
  ∃ m', load_servers (saved_server <$> es) m = Some m' ∧ sm_active m' = sm_active m ∧
    sm_servers m' = sm_servers m ++ zip (se_name <$> es) (seq (length (sm_entries m)) (length es)) ∧
    sm_entries m' = sm_entries m ++ (stored <$> es).
Proof.
  induction es as [|e es IH]; intros m Hnd Hes; [exists m; simpl; by rewrite !app_nil_r|].
  apply Forall_cons in Hes as [[H1 H2] Hes]. rewrite !fmap_cons. cbn [load_servers]. rewrite load_saved_entry by done.
  assert (se_name e ∉ dkeys (sm_servers m)) as Hf.
  { rewrite fmap_cons in Hnd. apply NoDup_app in Hnd as (_ & Hd & _). intros Hin. apply (Hd _ Hin). left. }
  destruct (IH (new_server (se_name e) (se_url e) (se_token (stored e)) m)) as (m' & -> & Ha & Hsv & He); [|done|].
  { simpl. rewrite dset_fresh by done. unfold dkeys. rewrite fmap_app. simpl.
    rewrite fmap_cons in Hnd. by rewrite <-app_assoc. }
  exists m'. split; [done|]. split; [done|]. rewrite Hsv, He. simpl. rewrite dset_fresh by done.
  rewrite length_app. simpl. rewrite Nat.add_1_r, <-!app_assoc. done.
Qed.

(** The entries of a manager, under their names. *)
Lemma listed_names m : managed m → se_name <$> listed m = dkeys (sm_servers m).
Proof.
  intros [Hw Hn _ _]. unfold listed, dkeys, dvalues.
  assert (∀ n i, (n, i) ∈ sm_servers m → ∃ e, sm_entries m !! i = Some e ∧ se_name e = n) as H.
  { intros n i Hin. by apply Hn, elem_dget. }
  clear Hw Hn. induction (sm_servers m) as [|[n i] d IH]; [done|]. simpl.
  destruct (H n i) as (e & -> & He); [left|]. simpl. rewrite He. f_equal. apply IH. intros n' i' Hin. apply H. by right.
Qed.

Lemma omap_seq {A} (l : list A) : ∀ l', omap (λ i, (l' ++ l) !! i) (seq (length l') (length l)) = l.
Proof.
  induction l as [|x l IH]; intros l'; [done|]. simpl. rewrite list_lookup_middle by done. f_equal.
  specialize (IH (l' ++ [x])). rewrite length_app, Nat.add_1_r, <-app_assoc in IH. exact IH.
Qed.

Lemma pv_wf_saved m : pv_wf (saved m).
Proof.
  constructor; [by_decide|]. constructor; [|constructor; [|done]].
  - constructor. apply Forall_fmap, Forall_true. intros e. simpl. unfold saved_server.
    destruct (se_token e) as [[]|]; simpl; repeat constructor; by_decide.
  - simpl. destruct (sm_active m); constructor.
Qed.

(** The servers written and read back: the same servers in the same order, with
    their names, addresses and tokens (an empty token is none), the same one active,
    none connected; for every manager whose names and addresses are not empty. *)
Theorem servers_read_back m : managed m → Forall (λ e, se_name e ≠ "" ∧ se_url e ≠ "") (listed m) →
  ∃ m', from_config (Some (save m)) = Some m' ∧ listed m' = stored <$> listed m ∧
    dkeys (sm_servers m') = dkeys (sm_servers m) ∧ sm_active m' = sm_active m.
Proof.
  intros Hm Hne. pose proof (listed_names m Hm) as Hnames. destruct Hm as [Hw Hn Ha Hs].
  destruct (load_saved_servers (listed m) new_manager) as (m1 & E1 & Ea & Esv & Een); [simpl; by rewrite Hnames|done|].
  rewrite Hnames in Esv. simpl in Esv, Een, Ea.
  assert (length (dkeys (sm_servers m)) = length (listed m)) as Hlen by (by rewrite <-Hnames, length_fmap).
  assert (dkeys (sm_servers m1) = dkeys (sm_servers m)) as Hk.
  { unfold dkeys at 1. rewrite Esv. apply fst_zip. rewrite length_seq. lia. }
  assert (∀ a, listed (set_servers (sm_servers m1) a m1) = stored <$> listed m) as Hl.
  { intros a. unfold listed at 1. simpl. unfold dvalues. rewrite Esv, snd_zip by (rewrite length_seq; lia). rewrite Een.
    pose proof (omap_seq (stored <$> listed m) []) as E. simpl in E. by rewrite length_fmap in E. }
  unfold from_config, load, save. rewrite loads_dumps by apply pv_wf_saved. unfold saved.
  change (get_or _ "servers" _) with (PList (saved_server <$> listed m)). cbv beta iota. rewrite E1. simpl.
  change (get_or _ "active" _) with (opt_val (sm_active m)).
  destruct (sm_active m) as [a|] eqn:Eact; simpl.
  - specialize (Ha a eq_refl). pose proof Ha as Hm1. rewrite <-Hk in Hm1. apply dmem_spec in Hm1. rewrite Hm1, andb_true_r.
    destruct (decide (a = "")) as [->|Hne']; [|rewrite (bool_decide_false (a = "")) by done].
    + rewrite <-Hnames in Ha. apply list_elem_of_fmap in Ha as (e & He & Hin).
      rewrite Forall_forall in Hne. by destruct (Hne e Hin) as [[] _].
    + eexists. split; [reflexivity|]. by rewrite Hl.
  - eexists. split; [reflexivity|]. rewrite Hl. split_and!; [done..|]. simpl. rewrite Esv, Ea, (Hs eq_refl). done.
Qed.

Lemma servers_read_back_witness :
  let m := add "b" "http://b" (Some "t") true (add "a" "http://a/" (Some "") false new_manager) in
  sm_names m = ["a"; "b"] ∧
  ∃ m', from_config (Some (save m)) = Some m' ∧ listed m' = stored <$> listed m ∧
    dkeys (sm_servers m') = dkeys (sm_servers m) ∧ sm_active m' = sm_active m.
Proof.
  cbv zeta. split; [reflexivity|].
  apply (servers_read_back (add "b" "http://b" (Some "t") true (add "a" "http://a/" (Some "") false new_manager)));
    [by apply managed_add, managed_add, managed_new|].
  vm_compute. repeat constructor; discriminate.
Defined.
Lemma active_server_listed_witness :
  let ops := [OpAdd "a" "http://a" None false; OpAdd "b" "http://b" None false; OpConnect false None "a"; OpDisconnectBegin "a";
              OpRemove "a"; OpDisconnectEnd 0] in
  let m := foldl (λ m o, mgr_do o m) new_manager ops in
  sm_active m = Some "b" ∧ managed m ∧ (sm_active m = None ↔ sm_servers m = []) ∧
  (∀ a, sm_active m = Some a → a ≠ "" → ∃ e, active_entry m = Some e ∧ se_name e = a).
Proof.
  cbv zeta. split; [reflexivity|].
  apply (active_server_listed None [OpAdd "a" "http://a" None false; OpAdd "b" "http://b" None false; OpConnect false None "a";
    OpDisconnectBegin "a"; OpRemove "a"; OpDisconnectEnd 0] new_manager); [done|]. repeat (econstructor; [reflexivity|]). constructor.
Defined.

(** ** Connections that are lost *)

(** A server that was marked as disconnected and is connected again gets a new HTTP
    connection in both variants; the old one stays open, and the entry no longer leads
    to it. *)
Lemma reconnect_orphans reuse name m i e c k h :
  dget (sm_servers m) name = Some i → sm_entries m !! i = Some e → se_client e = Some c → se_connected e = false →
  sm_clients m !! c = Some k → ac_http k = Some h → sm_http m !! h = Some true →
  let m' := (connect reuse None name m).2 in
  sm_http m' !! h = Some true ∧
  ∃ e' c' k' h', sm_entries m' !! i = Some e' ∧ se_client e' = Some c' ∧ sm_clients m' !! c' = Some k' ∧
    ac_http k' = Some h' ∧ h' ≠ h ∧ sm_http m' !! h' = Some true.
Proof.
  intros Hi He Hc Hd Hk Hh Ho m'. pose proof (lookup_lt_Some _ _ _ Ho) as Hlt.
  unfold m', connect, api_is_connected. rewrite Hi, He, Hc, Hd, Hk. destruct k as [url token http]. simpl in Hh. rewrite Hh, Ho. simpl.
  rewrite andb_true_r. destruct reuse; simpl; (split; [by apply lookup_app_l_Some|]); rewrite list_lookup_alter_eq, He; simpl;
    do 4 eexists; (split; [reflexivity|]); (split; [reflexivity|]); rewrite list_lookup_alter_eq.
  - rewrite Hk. simpl. split_and!; [reflexivity|reflexivity|lia|]. by rewrite list_lookup_middle.
  - rewrite list_lookup_middle by done. simpl. split_and!; [reflexivity|reflexivity|lia|]. by rewrite list_lookup_middle.
Qed.

(** The synchronous clean-up of the shutdown closes no connection, because the HTTP
    client has no method of the name it calls (its error is caught). *)
Lemma sync_closes_nothing m : sm_http (close_all_sync false m) = sm_http m.
Proof.
  unfold close_all_sync. generalize (dvalues (sm_servers m)) as l. intros l. revert m.
  induction l as [|i l IH]; intros m; [done|]. simpl. rewrite IH. unfold close_sync. simpl.
  repeat (case_match; try done). by rewrite andb_false_r in *.
Qed.

(** After [close_all] no server has a client. *)
Lemma disconnected_kept name m j e :
  sm_entries m !! j = Some e → se_client e = None → ∃ e', sm_entries (disconnect name m) !! j = Some e' ∧ se_client e' = None.
Proof.
  intros He Hc. unfold disconnect, disconnect_begin, disconnect_end. destruct (dget (sm_servers m) name) as [i|]; [|eauto].
  assert (∀ m1, sm_entries m1 = sm_entries m → ∃ e', sm_entries (on_server i (with_client None false) m1) !! j = Some e' ∧ se_client e' = None) as H.
  { intros m1 E. simpl. rewrite E, list_lookup_alter. case_decide; subst; rewrite He; simpl; eauto. }
  apply H. unfold api_close. by repeat case_match.
Qed.
Lemma disconnect_servers name m : sm_servers (disconnect name m) = sm_servers m.
Proof. unfold disconnect, disconnect_begin, api_close. by repeat (case_match; simplify_eq/=). Qed.
Lemma disconnect_done name m i e : dget (sm_servers m) name = Some i → sm_entries m !! i = Some e →
  ∃ e', sm_entries (disconnect name m) !! i = Some e' ∧ se_client e' = None.
Proof.
  intros Hi He. unfold disconnect, disconnect_begin, disconnect_end. rewrite Hi. simpl. rewrite list_lookup_alter_eq.
  assert (∀ m1, sm_entries m1 = sm_entries m → ∃ e', (with_client None false) <$> sm_entries m1 !! i = Some e' ∧ se_client e' = None) as H.
  { intros m1 ->. rewrite He. simpl. eauto. }
  apply H. unfold api_close. by repeat case_match.
Qed.
Lemma close_all_disconnects m name i : managed m → dget (sm_servers m) name = Some i →
  ∃ e, sm_entries (close_all m) !! i = Some e ∧ se_client e = None.
Proof.
  intros [_ Hn _ _] Hi. destruct (Hn name i Hi) as (e & He & _).
  assert (name ∈ dkeys (sm_servers m)) as Hin by (apply dget_is_Some; eauto).
  unfold close_all. revert Hin. generalize (dkeys (sm_servers m)) as l. intros l. clear Hn.
  assert (∀ l m e, sm_entries m !! i = Some e → se_client e = None →
    ∃ e', sm_entries (foldl (λ m name, disconnect name m) m l) !! i = Some e' ∧ se_client e' = None) as Hkeep.
  { clear. induction l as [|n l IH]; intros m e He Hc; simpl; [eauto|].
    destruct (disconnected_kept n m i e He Hc) as (e' & He' & Hc'). eauto. }
  revert m e Hi He. induction l as [|n l IH]; intros m e Hi He Hin; [by apply not_elem_of_nil in Hin|]. simpl.
  destruct (decide (n = name)) as [->|Hne].
  - destruct (disconnect_done name m i e Hi He) as (e' & He' & Hc'). eauto.
  - apply elem_of_cons in Hin as [->|Hin]; [done|].
    assert (∃ e', sm_entries (disconnect n m) !! i = Some e') as [e' He'].
    { unfold disconnect, disconnect_begin, disconnect_end, api_close. repeat (case_match; simplify_eq/=); eauto;
        rewrite list_lookup_alter; case_decide; subst; rewrite He; simpl; eauto. }
    apply (IH (disconnect n m) e'); [by rewrite disconnect_servers|done|done].
Qed.

(** ** The settings *)

Definition DEFAULT_ENABLED : list string :=
  ["textual-dark"; "textual-light"; "nord"; "gruvbox"; "dracula"; "tokyo-night"; "monokai"; "catppuccin-mocha";
   "solarized-dark"; "solarized-light"; "rose-pine"; "atom-one-dark"].
Definition _default_settings : odict string pyval :=
  [("theme", PStr "textual-dark"); ("enabled_themes", PList (PStr <$> DEFAULT_ENABLED))].
Definition setdefault (d : odict string pyval) (kv : string * pyval) : odict string pyval :=
  if dmem d kv.1 then d else dset d kv.1 kv.2.
(** [None]: the file holds a value that has no [setdefault], which is not caught. *)
Definition load_settings (file : option string) : option (odict string pyval) :=
  match file with
  | None => Some _default_settings
  | Some content =>
      match loads content with
      | None => Some _default_settings
      | Some (PDict data) => Some (foldl setdefault data _default_settings)
      | Some _ => None
      end
  end.
Definition save_settings (settings : odict string pyval) : string := dumps (Some 2%nat) (PDict settings).

(** Settings written and read back are the same, with defaults for what they lack. *)
Lemma settings_read_back d : pv_wf (PDict d) →
  ∃ d', load_settings (Some (save_settings d)) = Some d' ∧
    (∀ k v, dget d k = Some v → dget d' k = Some v) ∧ (∀ k, k ∈ dkeys _default_settings → is_Some (dget d' k)).
Proof.
  intros H. unfold load_settings, save_settings. rewrite loads_dumps by done. eexists. split; [reflexivity|].
  assert (∀ d kv k v, dget d k = Some v → dget (setdefault d kv) k = Some v) as Hmono.
  { intros d0 [k0 v0] k v Hk. unfold setdefault. simpl. destruct (dmem d0 k0) eqn:E; [done|].
    rewrite dget_dset_ne; [done|]. intros ->. unfold dmem in E. apply bool_decide_eq_false in E. apply E. eauto. }
  assert (∀ d kv, is_Some (dget (setdefault d kv) kv.1)) as Hset.
  { intros d0 [k0 v0]. unfold setdefault. simpl. destruct (dmem d0 k0) eqn:E; [by apply dget_is_Some, dmem_spec|].
    rewrite dget_dset_eq. eauto. }
  split.
  - intros k v Hk. simpl. by apply Hmono, Hmono.
  - intros k Hk. simpl in Hk |- *. apply elem_of_cons in Hk as [->|[->|[]%not_elem_of_nil]%elem_of_cons].
    + destruct (Hset d ("theme", PStr "textual-dark")) as [v Hv]. exists v. apply Hmono, Hv.
    + match goal with |- is_Some (dget (setdefault ?d0 ?kv) _) => apply (Hset d0 kv) end.
Qed.
