(* ===== verification/TuiApp.v ===== *)
(** * The terminal interface: connection, polling and switching servers

    tui/app.py, over the server manager of ServerManager.v.  The coroutines that talk
    to the server run as workers of one group.  A worker is a process that is about to
    run or waits for an answer; what it does between two answers is atomic.  Starting
    an exclusive worker cancels all the workers of the group, which is how the
    framework documents it; a cancelled coroutine ends at the await where it is,
    because no handler of the source catches the cancellation.

    The widgets are those of the dashboard and the synchronisation table of the
    operations screen; they are changed only while their screen is the one shown.
    Messages are posted to a queue and handled later. *)
From S2P Require Import Prelude PyDict Effects PyStr Json CliConfig ServerManager.
From Stdlib Require Import Ascii.
#[local] Open Scope Z_scope.

(** ** The address of the server *)

Definition _TRANSPORT_SUFFIXES : list string := ["/mcp"; "/sse"; "/messages/"; "/messages"].
Fixpoint cut_suffix (suffixes : list string) (url : string) : string :=
  match suffixes with
  | [] => url
  | suffix :: rest => if endswith url suffix then text (take (String.length url - String.length suffix) (chars url)) else cut_suffix rest url
  end.
Definition _normalise_server_url (url : option string) : option string :=
  match url with
  | None => None
  | Some url => let url := cut_suffix _TRANSPORT_SUFFIXES (rstrip_slash url) in if bool_decide (url = "") then None else Some url
  end.

(** ** What the server answers *)

Record StatusResponse := {
  sr_version : string; sr_state : string; sr_sse_url : string; sr_streamable_http_url : option string;
  sr_file_path : option string; sr_backend_count : Z }.
Record EventItem := { ev_id : string; ev_timestamp : string; ev_stage : string; ev_message : string; ev_details : option (odict string pyval) }.
Record CapabilitiesResponse := { cr_tools : list pyval; cr_resources : list pyval; cr_prompts : list pyval; cr_route_map : pyval }.
Record ReloadResponse := { rl_reloaded : bool; rl_backends_added : list string; rl_errors : list string }.

Inductive call := GetHealth | GetStatus | GetCapabilities | GetEvents (limit : Z) | GetBackends | GetSessions | GetGroups
  | PostReload | PostReconnect (name : string) | PostReauth (name : string) | PostShutdown.
(** The body of an answer, as the model of the response that it fits. *)
Inductive body := BHealth (status : string) | BStatus (s : StatusResponse) | BCapabilities (c : CapabilitiesResponse) | BEvents (l : list EventItem)
  | BBackends (l : list (odict string pyval)) | BSessions (v : pyval) | BReload (r : ReloadResponse) | BOther (v : pyval).
(** What a request comes to: a body, an error that the client translates, or a body
    that is not JSON, whose error nobody catches. *)
Inductive answer := Reply (b : body) | Fails (reason : string) | NotJson.

(** ** The widgets *)

Record ServerInfoWidget := {
  wi_version : string; wi_sse_url : string; wi_streamable_http_url : string; wi_transport_type : string; wi_status_text : string;
  wi_config_file : string }.
Record BackendStatusWidget := { wb_connected : Z; wb_total : Z; wb_details : list (odict string pyval) }.
Record log_entry := { le_stage : string; le_message : string; le_time : option string; le_extra : option (list string); le_id : option string }.
Record dashboard := {
  da_info : ServerInfoWidget; da_backend : BackendStatusWidget; da_caps : option CapabilitiesResponse; da_log : list log_entry;
  da_rows : list (string * string * bool) * option string }.
Record sync_row := { sy_time : string; sy_type : pyval; sy_details : string }.

Inductive screen := Dashboard | Operations | OtherScreen.
#[global] Instance screen_eq_dec : EqDecision screen.
Proof. solve_decision. Defined.

Inductive message :=
  | ConnectionLost (reason : string)
  | ConnectionRestored
  | ConfigSyncUpdate (config_file config_hash sync_type : pyval) (details timestamp : string).

(** ** The application *)

Record polling := { pl_connected : bool; pl_caps_loaded : bool; pl_seen_event_ids : list string; pl_timer : bool }.
Record cached := {
  ca_status : option StatusResponse; ca_caps : option CapabilitiesResponse; ca_sessions : option pyval; ca_groups : option body;
  ca_events : option (list EventItem) }.
(** How the application ended: by [exit], or by an exception. *)
Inductive ending := Exited | Crashed (what : string).

Record ui := {
  u_server_url : option string; u_token : option string;
  u_mgr : manager; u_poll : polling; u_cache : cached; u_dash : dashboard; u_sync : list sync_row; u_screen : screen;
  u_posted : list message; u_notes : list string; u_theme : string;
  u_settings_file : option string; u_servers_file : option string; u_init_done : bool; u_end : option ending }.

Definition set_mgr (m : manager) (u : ui) : ui :=
  {| u_server_url := u_server_url u; u_token := u_token u; u_mgr := m; u_poll := u_poll u; u_cache := u_cache u; u_dash := u_dash u;
     u_sync := u_sync u; u_screen := u_screen u; u_posted := u_posted u; u_notes := u_notes u; u_theme := u_theme u;
     u_settings_file := u_settings_file u; u_servers_file := u_servers_file u; u_init_done := u_init_done u; u_end := u_end u |}.
Definition set_poll (p : polling) (u : ui) : ui :=
  {| u_server_url := u_server_url u; u_token := u_token u; u_mgr := u_mgr u; u_poll := p; u_cache := u_cache u; u_dash := u_dash u;
     u_sync := u_sync u; u_screen := u_screen u; u_posted := u_posted u; u_notes := u_notes u; u_theme := u_theme u;
     u_settings_file := u_settings_file u; u_servers_file := u_servers_file u; u_init_done := u_init_done u; u_end := u_end u |}.
Definition set_cache (c : cached) (u : ui) : ui :=
  {| u_server_url := u_server_url u; u_token := u_token u; u_mgr := u_mgr u; u_poll := u_poll u; u_cache := c; u_dash := u_dash u;
     u_sync := u_sync u; u_screen := u_screen u; u_posted := u_posted u; u_notes := u_notes u; u_theme := u_theme u;
     u_settings_file := u_settings_file u; u_servers_file := u_servers_file u; u_init_done := u_init_done u; u_end := u_end u |}.
Definition set_widgets (d : dashboard) (s : list sync_row) (u : ui) : ui :=
  {| u_server_url := u_server_url u; u_token := u_token u; u_mgr := u_mgr u; u_poll := u_poll u; u_cache := u_cache u; u_dash := d;
     u_sync := s; u_screen := u_screen u; u_posted := u_posted u; u_notes := u_notes u; u_theme := u_theme u;
     u_settings_file := u_settings_file u; u_servers_file := u_servers_file u; u_init_done := u_init_done u; u_end := u_end u |}.
Definition set_screen (s : screen) (u : ui) : ui :=
  {| u_server_url := u_server_url u; u_token := u_token u; u_mgr := u_mgr u; u_poll := u_poll u; u_cache := u_cache u; u_dash := u_dash u;
     u_sync := u_sync u; u_screen := s; u_posted := u_posted u; u_notes := u_notes u; u_theme := u_theme u;
     u_settings_file := u_settings_file u; u_servers_file := u_servers_file u; u_init_done := u_init_done u; u_end := u_end u |}.
Definition set_posted (l : list message) (u : ui) : ui :=
  {| u_server_url := u_server_url u; u_token := u_token u; u_mgr := u_mgr u; u_poll := u_poll u; u_cache := u_cache u; u_dash := u_dash u;
     u_sync := u_sync u; u_screen := u_screen u; u_posted := l; u_notes := u_notes u; u_theme := u_theme u;
     u_settings_file := u_settings_file u; u_servers_file := u_servers_file u; u_init_done := u_init_done u; u_end := u_end u |}.
Definition notify (s : string) (u : ui) : ui :=
  {| u_server_url := u_server_url u; u_token := u_token u; u_mgr := u_mgr u; u_poll := u_poll u; u_cache := u_cache u; u_dash := u_dash u;
     u_sync := u_sync u; u_screen := u_screen u; u_posted := u_posted u; u_notes := u_notes u ++ [s]; u_theme := u_theme u;
     u_settings_file := u_settings_file u; u_servers_file := u_servers_file u; u_init_done := u_init_done u; u_end := u_end u |}.
Definition set_theme (t : string) (u : ui) : ui :=
  {| u_server_url := u_server_url u; u_token := u_token u; u_mgr := u_mgr u; u_poll := u_poll u; u_cache := u_cache u; u_dash := u_dash u;
     u_sync := u_sync u; u_screen := u_screen u; u_posted := u_posted u; u_notes := u_notes u; u_theme := t;
     u_settings_file := u_settings_file u; u_servers_file := u_servers_file u; u_init_done := u_init_done u; u_end := u_end u |}.
Definition write_files (settings servers : option string) (u : ui) : ui :=
  {| u_server_url := u_server_url u; u_token := u_token u; u_mgr := u_mgr u; u_poll := u_poll u; u_cache := u_cache u; u_dash := u_dash u;
     u_sync := u_sync u; u_screen := u_screen u; u_posted := u_posted u; u_notes := u_notes u; u_theme := u_theme u;
     u_settings_file := settings; u_servers_file := servers; u_init_done := u_init_done u; u_end := u_end u |}.
Definition finish (init_done : bool) (e : option ending) (u : ui) : ui :=
  {| u_server_url := u_server_url u; u_token := u_token u; u_mgr := u_mgr u; u_poll := u_poll u; u_cache := u_cache u; u_dash := u_dash u;
     u_sync := u_sync u; u_screen := u_screen u; u_posted := u_posted u; u_notes := u_notes u; u_theme := u_theme u;
     u_settings_file := u_settings_file u; u_servers_file := u_servers_file u; u_init_done := init_done; u_end := e |}.

Definition post (m : message) (u : ui) : ui := set_posted (u_posted u ++ [m]) u.
Definition on_mgr (f : manager → manager) (u : ui) : ui := set_mgr (f (u_mgr u)) u.
(** [try: self.screen.query_one(…) … except NoMatches: pass], for a widget of the dashboard. *)
Definition on_dash (f : dashboard → dashboard) (u : ui) : ui :=
  if decide (u_screen u = Dashboard) then set_widgets (f (u_dash u)) (u_sync u) u else u.
Definition with_info (f : ServerInfoWidget → ServerInfoWidget) (d : dashboard) : dashboard :=
  {| da_info := f (da_info d); da_backend := da_backend d; da_caps := da_caps d; da_log := da_log d; da_rows := da_rows d |}.
Definition with_backend (f : BackendStatusWidget → BackendStatusWidget) (d : dashboard) : dashboard :=
  {| da_info := da_info d; da_backend := f (da_backend d); da_caps := da_caps d; da_log := da_log d; da_rows := da_rows d |}.
Definition populate (c : CapabilitiesResponse) (d : dashboard) : dashboard :=
  {| da_info := da_info d; da_backend := da_backend d; da_caps := Some c; da_log := da_log d; da_rows := da_rows d |}.
Definition add_entry (e : log_entry) (d : dashboard) : dashboard :=
  {| da_info := da_info d; da_backend := da_backend d; da_caps := da_caps d; da_log := da_log d ++ [e]; da_rows := da_rows d |}.
Definition refresh_servers (rows : list (string * string * bool) * option string) (d : dashboard) : dashboard :=
  {| da_info := da_info d; da_backend := da_backend d; da_caps := da_caps d; da_log := da_log d; da_rows := rows |}.
Definition add_event (stage msg : string) : dashboard → dashboard :=
  add_entry {| le_stage := stage; le_message := msg; le_time := None; le_extra := None; le_id := None |}.
Definition status_text (s : string) (w : ServerInfoWidget) : ServerInfoWidget :=
  {| wi_version := wi_version w; wi_sse_url := wi_sse_url w; wi_streamable_http_url := wi_streamable_http_url w;
     wi_transport_type := wi_transport_type w; wi_status_text := s; wi_config_file := wi_config_file w |}.
Definition shown_url (url : string) (w : ServerInfoWidget) : ServerInfoWidget :=
  {| wi_version := wi_version w; wi_sse_url := url; wi_streamable_http_url := wi_streamable_http_url w;
     wi_transport_type := wi_transport_type w; wi_status_text := wi_status_text w; wi_config_file := wi_config_file w |}.
Definition set_connected (connected caps_loaded : bool) (p : polling) : polling :=
  {| pl_connected := connected; pl_caps_loaded := caps_loaded; pl_seen_event_ids := pl_seen_event_ids p; pl_timer := pl_timer p |}.
Definition mark_seen (l : list string) (p : polling) : polling :=
  {| pl_connected := pl_connected p; pl_caps_loaded := pl_caps_loaded p; pl_seen_event_ids := l; pl_timer := pl_timer p |}.
Definition set_timer (b : bool) (p : polling) : polling :=
  {| pl_connected := pl_connected p; pl_caps_loaded := pl_caps_loaded p; pl_seen_event_ids := pl_seen_event_ids p; pl_timer := b |}.
Definition on_poll (f : polling → polling) (u : ui) : ui := set_poll (f (u_poll u)) u.

Section app.
Context (SERVER_VERSION : string) (py_str : pyval → string) (available_themes : string → bool) (connect_fails : string → option string).

(** ** Showing the answers *)

Definition _apply_status_response (status : StatusResponse) (u : ui) : ui :=
  let u := set_cache {| ca_status := Some status; ca_caps := ca_caps (u_cache u); ca_sessions := ca_sessions (u_cache u);
                        ca_groups := ca_groups (u_cache u); ca_events := ca_events (u_cache u) |} u in
  let u := on_dash (with_info (λ w,
    {| wi_version := str_or (Some (sr_version status)) SERVER_VERSION;
       wi_sse_url := str_or (Some (sr_sse_url status)) (str_or (u_server_url u) "");
       wi_streamable_http_url := str_or (sr_streamable_http_url status) "";
       wi_transport_type := if str_truthy (sr_streamable_http_url status) then "streamable-http" else wi_transport_type w;
       wi_status_text := sr_state status; wi_config_file := str_or (sr_file_path status) "" |})) u in
  on_dash (with_backend (λ w,
    {| wb_total := sr_backend_count status;
       wb_connected := if bool_decide (sr_state status = "running") then sr_backend_count status
                       else if bool_decide (sr_state status = "error") then 0 else wb_connected w;
       wb_details := wb_details w |})) u.

Definition is_up (b : odict string pyval) : bool :=
  match dget b "phase" with Some (PStr p) => bool_decide (p = "ready") || bool_decide (p = "degraded") | _ => false end.
Definition update_from_backends (l : list (odict string pyval)) (w : BackendStatusWidget) : BackendStatusWidget :=
  {| wb_connected := Z.of_nat (length (keep is_up l)); wb_total := Z.of_nat (length l); wb_details := l |}.
Definition _apply_backends_response (l : list (odict string pyval)) (u : ui) : ui := on_dash (with_backend (update_from_backends l)) u.

Definition counted_text (c : CapabilitiesResponse) : string :=
  str_of_int (Z.of_nat (length (cr_tools c))) +:+ " tools, " +:+ str_of_int (Z.of_nat (length (cr_resources c))) +:+ " resources, " +:+
  str_of_int (Z.of_nat (length (cr_prompts c))) +:+ " prompts loaded".
Definition _apply_capabilities_response (c : CapabilitiesResponse) (u : ui) : ui :=
  let u := set_cache {| ca_status := ca_status (u_cache u); ca_caps := Some c; ca_sessions := ca_sessions (u_cache u);
                        ca_groups := ca_groups (u_cache u); ca_events := ca_events (u_cache u) |} u in
  on_dash (add_event "✅ Service Ready" (counted_text c)) (on_dash (populate c) u).

Definition extra_lines (d : option (odict string pyval)) : option (list string) :=
  match d with None | Some [] => None | Some d => Some ((λ kv, kv.1 +:+ ": " +:+ py_str kv.2) <$> d) end.
Definition event_entry (ev : EventItem) : log_entry :=
  {| le_stage := ev_stage ev; le_message := ev_message ev; le_time := Some (ev_timestamp ev); le_extra := extra_lines (ev_details ev);
     le_id := Some (ev_id ev) |}.
Definition sync_message (ev : EventItem) : option message :=
  match ev_details ev with
  | None | Some [] => None
  | Some d =>
      if bool_decide (ev_stage ev = "config_sync")
      then Some (ConfigSyncUpdate (get_or d "config_file" (PStr "")) (get_or d "config_hash" (PStr "")) (get_or d "type" (PStr "changed"))
                   (ev_message ev) (ev_timestamp ev))
      else None
  end.
Definition apply_event (u : ui) (ev : EventItem) : ui :=
  let seen := pl_seen_event_ids (u_poll u) in
  if bool_decide (ev_id ev ∈ seen) then u
  else
    let u := on_poll (mark_seen (seen ++ [ev_id ev])) u in
    let u := on_dash (add_entry (event_entry ev)) u in
    match sync_message ev with Some m => post m u | None => u end.
Definition _apply_events_response (l : list EventItem) (u : ui) : ui :=
  let u := set_cache {| ca_status := ca_status (u_cache u); ca_caps := ca_caps (u_cache u); ca_sessions := ca_sessions (u_cache u);
                        ca_groups := ca_groups (u_cache u); ca_events := Some l |} u in
  foldl apply_event u l.

Definition _refresh_server_selector (u : ui) : ui :=
  let rows := (λ e, (se_name e, se_url e, se_connected e)) <$> omap (λ i, sm_entries (u_mgr u) !! i) (dvalues (sm_servers (u_mgr u))) in
  on_dash (refresh_servers (rows, sm_active (u_mgr u))) u.

(** ** Workers *)

Inductive proc :=
  | Done
  | Start (k : ui → ui * proc)
  | Ask (c : call) (k : string + body → ui → ui * proc).

(** A request of the API client [c]: without an open connection it fails at once. *)
Definition request (c : nat) (r : call) (k : string + body → ui → ui * proc) (u : ui) : ui * proc :=
  if api_is_connected c (u_mgr u) then (u, Ask r k) else k (inl "ApiClient is not connected") u.
(** [_validate], with the handler of the errors. *)
Definition expect {A} (path : string) (f : body → option A) (ok : A → ui → ui * proc) (failed : string → ui → ui * proc)
    (a : string + body) (u : ui) : ui * proc :=
  match a with
  | inl reason => failed reason u
  | inr b => match f b with Some x => ok x u | None => failed ("Invalid response from " +:+ path) u end
  end.
Definition get_health (c : nat) := λ ok failed, request c GetHealth (expect "health" (λ b, match b with BHealth s => Some s | _ => None end) ok failed).
Definition get_status (c : nat) := λ ok failed, request c GetStatus (expect "status" (λ b, match b with BStatus s => Some s | _ => None end) ok failed).
Definition get_capabilities (c : nat) := λ ok failed,
  request c GetCapabilities (expect "capabilities" (λ b, match b with BCapabilities s => Some s | _ => None end) ok failed).
Definition get_events (c : nat) (limit : Z) := λ ok failed,
  request c (GetEvents limit) (expect "events" (λ b, match b with BEvents l => Some l | _ => None end) ok failed).
Definition get_backends (c : nat) := λ ok failed,
  request c GetBackends (expect "backends" (λ b, match b with BBackends l => Some l | _ => None end) ok failed).
Definition get_sessions (c : nat) := λ ok failed,
  request c GetSessions (expect "sessions" (λ b, match b with BSessions v => Some v | _ => None end) ok failed).
Definition get_groups (c : nat) := λ ok failed, request c GetGroups (expect "groups" Some ok failed).

(** ** Polling *)

(** The parts of [_poll_once], from the last to the first. *)
Definition poll_groups (c : nat) (u : ui) : ui * proc :=
  get_groups c
    (λ g u, (_refresh_server_selector (set_cache {| ca_status := ca_status (u_cache u); ca_caps := ca_caps (u_cache u);
               ca_sessions := ca_sessions (u_cache u); ca_groups := Some g; ca_events := ca_events (u_cache u) |} u), Done))
    (λ _ u, (_refresh_server_selector u, Done)) u.
Definition poll_sessions (c : nat) (u : ui) : ui * proc :=
  get_sessions c
    (λ v u, poll_groups c (set_cache {| ca_status := ca_status (u_cache u); ca_caps := ca_caps (u_cache u);
               ca_sessions := Some v; ca_groups := ca_groups (u_cache u); ca_events := ca_events (u_cache u) |} u))
    (λ _ u, poll_groups c u) u.
Definition poll_backends (c : nat) (u : ui) : ui * proc :=
  get_backends c (λ l u, poll_sessions c (_apply_backends_response l u)) (λ _ u, poll_sessions c u) u.
(** The handler of the errors of a poll. *)
Definition poll_failed (name : string) (reason : string) (u : ui) : ui * proc :=
  let u := on_poll (set_connected false false) u in
  let u := on_mgr (mark_connected false name) u in
  (_refresh_server_selector (post (ConnectionLost reason) u), Done).
Definition poll_events (name : string) (c : nat) (u : ui) : ui * proc :=
  get_events c 20 (λ l u, poll_backends c (_apply_events_response l u)) (poll_failed name) u.
Definition poll_caps (name : string) (c : nat) (u : ui) : ui * proc :=
  if pl_caps_loaded (u_poll u) then poll_events name c u
  else get_capabilities c
         (λ caps u, let u := _apply_capabilities_response caps u in
                    poll_events name c (on_poll (set_connected (pl_connected (u_poll u)) true) u))
         (poll_failed name) u.
Definition poll_status (name : string) (c : nat) (u : ui) : ui * proc :=
  get_status c
    (λ status u,
       let u := _apply_status_response status u in
       if pl_connected (u_poll u) then poll_caps name c u
       else poll_caps name c (post ConnectionRestored (on_mgr (mark_connected true name) (on_poll (set_connected true false) u))))
    (poll_failed name) u.
Definition connected_client (e : ServerEntry) (m : manager) : option nat :=
  match se_client e with Some c => if api_is_connected c m then Some c else None | None => None end.
Definition _poll_once (u : ui) : ui * proc :=
  match active_entry (u_mgr u) with
  | None => (u, Done)
  | Some e =>
      match connected_client e (u_mgr u) with
      | Some c => poll_status (se_name e) c u
      | None =>
          let '(r, m) := connect false (connect_fails (se_name e)) (se_name e) (u_mgr u) in
          let u := set_mgr m u in
          match r with
          | inl _ => (u, Done)
          | inr _ => match active_client (u_mgr u) with Some c => poll_status (se_name e) c u | None => (u, Done) end
          end
      end
  end.

(** ** The first connection *)

Definition error_text (e : option mgr_exn) : string :=
  match e with
  | None => "None"
  | Some (KeyError name) => "No server named '" +:+ name +:+ "'"
  | Some (ConnectFails what) => what
  end.
Definition start_timer (u : ui) : ui * proc := (on_poll (set_timer true) u, Done).
Definition initial_failed (reason : string) (u : ui) : ui * proc := start_timer (post (ConnectionLost ("Cannot reach server: " +:+ reason)) u).
Definition initial_fetch (c : nat) (u : ui) : ui * proc :=
  get_health c
    (λ _ u, get_status c
       (λ status u, get_capabilities c
          (λ caps u, let u := _apply_capabilities_response caps u in
             get_events c 100 (λ l u, start_timer (_apply_events_response l u)) initial_failed
               (on_poll (set_connected (pl_connected (u_poll u)) true) u))
          initial_failed (_apply_status_response status u))
       initial_failed (post ConnectionRestored (on_poll (set_connected true (pl_caps_loaded (u_poll u))) u)))
    initial_failed u.
Definition _initial_connect (u : ui) : ui * proc :=
  let '(results, m) := connect_all false connect_fails (u_mgr u) in
  let u := _refresh_server_selector (set_mgr m u) in
  match active_client (u_mgr u) with
  | Some c => initial_fetch c u
  | None =>
      let reason :=
        match active_entry (u_mgr u) with
        | Some e => "Cannot reach server '" +:+ se_name e +:+ "': " +:+ error_text (default None (dget results (se_name e)))
        | None => "No servers configured"
        end in
      start_timer (post (ConnectionLost reason) u)
  end.

(** ** Other workers *)

Definition other_body (b : body) : option pyval := match b with BOther v => Some v | _ => None end.
Definition _reconnect_backend (name : string) (u : ui) : ui * proc :=
  match active_client (u_mgr u) with
  | None => (u, Done)
  | Some c =>
      request c (PostReconnect name)
        (expect "reconnect" other_body
           (λ _ u, (on_dash (add_event "🔄 Reconnect" ("Requested reconnect for '" +:+ name +:+ "'"))
                      (notify ("Reconnect '" +:+ name +:+ "' requested") u), Done))
           (λ reason u, (notify ("Reconnect failed: " +:+ reason) u, Done))) u
  end.
Definition _trigger_reauth (name : string) (u : ui) : ui * proc :=
  match active_client (u_mgr u) with
  | None => (u, Done)
  | Some c =>
      request c (PostReauth name)
        (expect "reauth" other_body
           (λ _ u, (notify ("Re-auth for '" +:+ name +:+ "' initiated") u, Done))
           (λ reason u, (notify ("Re-auth failed: " +:+ reason) u, Done))) u
  end.
(** [_do_reload] of [trigger_reload], with the client of the moment it was started. *)
Definition _do_reload (c : nat) (u : ui) : ui * proc :=
  request c PostReload
    (expect "reload" (λ b, match b with BReload r => Some r | _ => None end)
       (λ r u, (notify (if rl_reloaded r then "Config reloaded successfully"
                        else "Reload errors: " +:+ (match rl_errors r with [] => "unknown" | l => String.concat "; " l end)) u, Done))
       (λ _ u, (u, Done))) u.

(** ** Settings *)

Definition crash (what : string) (u : ui) : ui := finish (u_init_done u) (Some (Crashed what)) u.
Definition with_settings (f : odict string pyval → ui → ui) (u : ui) : ui :=
  match load_settings (u_settings_file u) with Some d => f d u | None => crash "AttributeError" u end.
Definition save_setting (d : odict string pyval) (theme : string) (u : ui) : ui :=
  write_files (Some (save_settings (dset d "theme" (PStr theme)))) (u_servers_file u) u.
Definition or_default (theme : string) : string := if bool_decide (theme = "") then "textual-dark" else theme.
Definition save_and_exit (u : ui) : ui :=
  with_settings (λ d u, let u := save_setting d (or_default (u_theme u)) u in finish (u_init_done u) (Some Exited) u) u.
Definition _shutdown_then_exit (u : ui) : ui * proc :=
  match active_client (u_mgr u) with
  | None => (save_and_exit u, Done)
  | Some c => request c PostShutdown (λ _ u, (save_and_exit u, Done)) u
  end.

(** The elements of [enabled] that are themes; [None] when they cannot be iterated over or looked up. *)
Fixpoint enabled_names (l : list pyval) : option (list string) :=
  match l with
  | [] => Some []
  | PStr s :: rest => names ← enabled_names rest; Some (if available_themes s then s :: names else names)
  | PList _ :: _ | PDict _ :: _ => None
  | _ :: rest => enabled_names rest
  end.
Definition enabled_themes (v : pyval) : option (list string) :=
  match v with
  | PList l => enabled_names l
  | PDict d => enabled_names (PStr <$> dkeys d)
  | PStr s => enabled_names ((λ c, PStr (text [c])) <$> chars s)
  | _ => None
  end.
Fixpoint next_after (current : string) (first : string) (l : list string) : option string :=
  match l with
  | [] => None
  | t :: rest => if bool_decide (t = current) then Some (match rest with n :: _ => n | [] => first end) else next_after current first rest
  end.
Definition next_theme (current : string) (enabled : list string) : string :=
  match enabled with
  | [] => default "textual-dark" (next_after current "textual-dark" ["textual-dark"])
  | first :: _ => default first (next_after current first enabled)
  end.
Definition action_next_theme (u : ui) : ui :=
  with_settings (λ d u,
    match enabled_themes (get_or d "enabled_themes" (PList [PStr "textual-dark"])) with
    | None => crash "TypeError" u
    | Some enabled =>
        let next := next_theme (or_default (u_theme u)) enabled in
        notify ("Theme: " +:+ next) (save_setting d next (set_theme next u))
    end) u.
(** [theme_name] is what the picker was left with; it has set the theme itself. *)
Definition action_open_theme_picker (theme_name : option string) (u : ui) : ui :=
  match theme_name with
  | None => u
  | Some t => with_settings (λ d u, notify ("Theme: " +:+ t) (save_setting d t u)) (set_theme t u)
  end.
Definition action_export_client_config (u : ui) : string :=
  let sse_url := str_or (match ca_status (u_cache u) with Some s => Some (sr_sse_url s) | None => None end) (str_or (u_server_url u) "") in
  if bool_decide (sse_url = "") then "http://127.0.0.1:9000" else sse_url.

(** ** The events of the application *)

Record tui := { t_ui : ui; t_workers : list proc }.
Definition on_ui (f : ui → ui) (t : tui) : tui := {| t_ui := f (t_ui t); t_workers := t_workers t |}.
Definition run_worker (exclusive : bool) (k : ui → ui * proc) (t : tui) : tui :=
  {| t_ui := t_ui t; t_workers := (if exclusive then [] else t_workers t) ++ [Start k] |}.

Definition _ensure_server_manager (server_manager : option manager) (u : ui) : ui :=
  match server_manager with
  | Some m => set_mgr m u
  | None =>
      match u_server_url u with
      | Some url => set_mgr (from_single "default" url (u_token u)) u
      | None =>
          match from_config (u_servers_file u) with
          | Some m => set_mgr m u
          | None => crash "AttributeError" u
          end
      end
  end.
Definition on_mount (server_manager : option manager) (u : ui) : ui :=
  match load_settings (u_settings_file u) with
  | None => crash "AttributeError" u
  | Some d =>
      let u := match get_or d "theme" (PStr "textual-dark") with PStr t => if available_themes t then set_theme t u else u | _ => u end in
      match get_or d "theme" (PStr "textual-dark") with
      | PList _ | PDict _ => crash "TypeError" u
      | _ => _ensure_server_manager server_manager u
      end
  end.

Definition default_url : string := "http://127.0.0.1:9000".
Definition _start_remote_mode (t : tui) : tui :=
  let u := t_ui t in
  let u :=
    match sm_servers (u_mgr u) with
    | [] => let u := on_mgr (add "local" default_url None true) u in write_files (u_settings_file u) (Some (save (u_mgr u))) u
    | _ => u
    end in
  let u :=
    match active_entry (u_mgr u) with
    | Some e =>
        on_dash (add_event "Initialization" ("Connecting to server '" +:+ se_name e +:+ "' at " +:+ se_url e +:+ "…"))
          (on_dash (with_info (λ w, status_text "Connecting…" (shown_url (se_url e) w))) u)
    | None => on_dash (with_info (status_text "No servers configured")) u
    end in
  run_worker true _initial_connect {| t_ui := _refresh_server_selector u; t_workers := t_workers t |}.
(** Deferred while the dashboard is not the screen. *)
Definition _init_after_mode_switch (t : tui) : tui :=
  if u_init_done (t_ui t) then t
  else if decide (u_screen (t_ui t) = Dashboard) then
    on_ui (λ u, finish true (u_end u) u) (_start_remote_mode t)
  else t.

Definition on_server_selected (name : string) (t : tui) : tui :=
  match set_active name (u_mgr (t_ui t)) with
  | (inl _, _) => on_ui (crash "KeyError") t
  | (inr _, m) =>
      let u := set_mgr m (t_ui t) in
      let u := write_files (u_settings_file u) (Some (save m)) u in
      let u := on_poll (λ p, mark_seen [] (set_connected false false p)) u in
      let u :=
        match active_entry m with
        | Some e =>
            on_dash (add_event "Server Switch" ("Switched to '" +:+ name +:+ "' (" +:+ se_url e +:+ ")"))
              (on_dash (with_info (λ w, status_text (if se_connected e then "Connected" else "Connecting…") (shown_url (se_url e) w))) u)
        | None => u
        end in
      on_ui _refresh_server_selector (run_worker true _poll_once {| t_ui := u; t_workers := t_workers t |})
  end.

Definition on_config_sync_update (config_file config_hash sync_type : pyval) (details timestamp : string) (u : ui) : ui :=
  if decide (u_screen u = Operations)
  then set_widgets (u_dash u) (take 20 ({| sy_time := timestamp; sy_type := sync_type; sy_details := details |} :: u_sync u)) u
  else u.
Definition on_connection_lost (reason : string) (u : ui) : ui :=
  notify ("Connection lost: " +:+ reason)
    (on_dash (add_event "⚠️  Connection Lost" reason) (on_dash (with_info (status_text "Disconnected")) u)).
Definition on_connection_restored (u : ui) : ui :=
  on_dash (add_event "✅ Reconnected" "Connection to server restored.") (on_dash (with_info (status_text "Connected")) u).
Definition handle_message (m : message) (u : ui) : ui :=
  match m with
  | ConnectionLost reason => on_connection_lost reason u
  | ConnectionRestored => on_connection_restored u
  | ConfigSyncUpdate f h ty d ts => on_config_sync_update f h ty d ts u
  end.

Definition exit_choice (result : option string) (t : tui) : tui :=
  match result with
  | None => t
  | Some r =>
      let t := on_ui (on_dash (add_event "🛑 Shutting Down" ("Exit mode: " +:+ r))) t in
      if bool_decide (r = "stop-and-exit") then run_worker false _shutdown_then_exit t else on_ui save_and_exit t
  end.
Definition trigger_reload (t : tui) : tui :=
  match active_client (u_mgr (t_ui t)) with Some c => run_worker true (_do_reload c) t | None => t end.
Definition on_unmount (u : ui) : ui := on_mgr (close_all_sync false) (on_poll (set_timer false) u).

Inductive happening :=
  | DashboardShown
  | PollTick
  | WorkerStarts (i : nat)
  | Answered (i : nat) (a : answer)
  | MessageHandled
  | ServerSelected (name : string)
  | ScreenShown (s : screen)
  | RestartBackend (name : string)
  | ReloadAsked
  | ExitChosen (result : option string)
  | NextTheme
  | ThemePicked (theme : option string).

(** A worker that goes on: the others stay where they are. *)
Definition resume (i : nat) (r : ui * proc) (t : tui) : tui := {| t_ui := r.1; t_workers := <[i := r.2]> (t_workers t) |}.
Definition tui_do (h : happening) (t : tui) : tui :=
  if decide (u_end (t_ui t) = None) then
    match h with
    | DashboardShown => _init_after_mode_switch t
    | PollTick => if pl_timer (u_poll (t_ui t)) then run_worker true _poll_once t else t
    | WorkerStarts i => match t_workers t !! i with Some (Start k) => resume i (k (t_ui t)) t | _ => t end
    | Answered i a =>
        match t_workers t !! i with
        | Some (Ask _ k) =>
            match a with
            | Reply b => resume i (k (inr b) (t_ui t)) t
            | Fails reason => resume i (k (inl reason) (t_ui t)) t
            | NotJson => on_ui (crash "JSONDecodeError") t
            end
        | _ => t
        end
    | MessageHandled =>
        match u_posted (t_ui t) with m :: rest => on_ui (λ u, handle_message m (set_posted rest u)) t | [] => t end
    | ServerSelected name => on_server_selected name t
    | ScreenShown s => on_ui (set_screen s) t
    | RestartBackend name => run_worker true (_reconnect_backend name) t
    | ReloadAsked => trigger_reload t
    | ExitChosen r => exit_choice r t
    | NextTheme => on_ui action_next_theme t
    | ThemePicked th => on_ui (action_open_theme_picker th) t
    end
  else t.

Definition new_dashboard : dashboard :=
  {| da_info := {| wi_version := SERVER_VERSION; wi_sse_url := "N/A"; wi_streamable_http_url := "N/A"; wi_transport_type := "streamable-http";
                   wi_status_text := "Initializing…"; wi_config_file := "N/A" |};
     da_backend := {| wb_connected := 0; wb_total := 0; wb_details := [] |}; da_caps := None; da_log := []; da_rows := ([], None) |}.
Definition new_app (server_url token settings servers : option string) : ui :=
  {| u_server_url := _normalise_server_url server_url; u_token := token; u_mgr := new_manager;
     u_poll := {| pl_connected := false; pl_caps_loaded := false; pl_seen_event_ids := []; pl_timer := false |};
     u_cache := {| ca_status := None; ca_caps := None; ca_sessions := None; ca_groups := None; ca_events := None |};
     u_dash := new_dashboard; u_sync := []; u_screen := Dashboard; u_posted := []; u_notes := []; u_theme := "textual-dark";
     u_settings_file := settings; u_servers_file := servers; u_init_done := false; u_end := None |}.
Definition start_app (server_url token settings servers : option string) (server_manager : option manager) : tui :=
  {| t_ui := on_mount server_manager (new_app server_url token settings servers); t_workers := [] |}.
End app.

(** ** Processes that respect a relation *)

(** Everything a process does between its answers is in [R]. *)
Inductive always (R : ui → ui → Prop) : proc → Prop :=
  | always_done : always R Done
  | always_start k : (∀ u, R u (k u).1 ∧ always R (k u).2) → always R (Start k)
  | always_ask c k : (∀ a u, R u (k a u).1 ∧ always R (k a u).2) → always R (Ask c k).
#[global] Hint Constructors always : argus.
Definition respects (R : ui → ui → Prop) (k : ui → ui * proc) : Prop := ∀ u, R u (k u).1 ∧ always R (k u).2.

Section respects.
#[local] Set Default Proof Using "Type*".
Context (R : ui → ui → Prop) `{!PreOrder R}.

Lemma respects_done f : (∀ u, R u (f u)) → respects R (λ u, (f u, Done)).
Proof. intros H u. split; [apply H|constructor]. Qed.
Lemma respects_after f k : (∀ u, R u (f u)) → respects R k → respects R (λ u, k (f u)).
Proof. intros Hf Hk u. destruct (Hk (f u)) as [H1 H2]. split; [by trans (f u)|done]. Qed.
Lemma respects_request c r k : (∀ a, respects R (k a)) → respects R (request c r k).
Proof.
  intros H u. unfold request. destruct (api_is_connected c (u_mgr u)); [|apply H].
  split; [done|]. constructor. intros a u'. apply H.
Qed.
Lemma respects_expect {A} path (f : body → option A) ok failed a :
  (∀ x, respects R (ok x)) → (∀ r, respects R (failed r)) → respects R (expect path f ok failed a).
Proof. intros H1 H2 u. unfold expect. destruct a as [|b]; [apply H2|]. destruct (f b); [apply H1|apply H2]. Qed.
End respects.

(** The assignments that the coroutines are made of. *)
Record closed (R : ui → ui → Prop) : Prop := {
  cl_order : PreOrder R;
  cl_mgr : ∀ m u, R u (set_mgr m u);
  cl_cache : ∀ c u, R u (set_cache c u);
  cl_quiet : ∀ f u, (∀ d, da_log (f d) = da_log d) → R u (on_dash f u);
  cl_event : ∀ stage msg u, R u (on_dash (add_event stage msg) u);
  cl_post : ∀ m u, R u (post m u);
  cl_note : ∀ s u, R u (notify s u);
  cl_connected : ∀ a b u, R u (on_poll (set_connected a b) u);
  cl_show : ∀ py_str u ev, R u (apply_event py_str u ev);
  cl_files : ∀ a b u, R u (write_files a b u);
  cl_finish : ∀ e u, R u (finish (u_init_done u) e u);
  cl_init : ∀ u, R u (finish true (u_end u) u) }.

Create HintDb tui.
Section workers.
Context (SERVER_VERSION : string) (py_str : pyval → string) (connect_fails : string → option string).
Context (R : ui → ui → Prop) (HR : closed R).
#[local] Set Default Proof Using "Type*".
#[local] Instance closed_order : PreOrder R := cl_order R HR.

Lemma R_refl u : R u u.
Proof. reflexivity. Qed.
Lemma R_then u1 u2 u3 : R u1 u2 → R u2 u3 → R u1 u3.
Proof. apply transitivity. Qed.

Lemma R_status status u : R u (_apply_status_response SERVER_VERSION status u).
Proof. unfold _apply_status_response. do 2 (eapply R_then; [|by apply (cl_quiet R HR)]). apply (cl_cache R HR). Qed.
Lemma R_backends l u : R u (_apply_backends_response l u).
Proof. by apply (cl_quiet R HR). Qed.
Lemma R_capabilities c u : R u (_apply_capabilities_response c u).
Proof.
  unfold _apply_capabilities_response. eapply R_then; [|apply (cl_event R HR)]. eapply R_then; [|by apply (cl_quiet R HR)].
  apply (cl_cache R HR).
Qed.
Lemma R_show l : ∀ u, R u (foldl (apply_event py_str) u l).
Proof. induction l as [|ev l IH]; intros u; simpl; [reflexivity|]. eapply R_then; [apply (cl_show R HR)|apply IH]. Qed.
Lemma R_events l u : R u (_apply_events_response py_str l u).
Proof. unfold _apply_events_response. eapply R_then; [|apply R_show]. apply (cl_cache R HR). Qed.
Lemma R_selector u : R u (_refresh_server_selector u).
Proof. by apply (cl_quiet R HR). Qed.
Lemma R_mgr m u : R u (set_mgr m u).
Proof. apply (cl_mgr R HR). Qed.
Lemma R_cache c u : R u (set_cache c u).
Proof. apply (cl_cache R HR). Qed.
Lemma R_note s u : R u (notify s u).
Proof. apply (cl_note R HR). Qed.
#[local] Hint Resolve R_status R_backends R_capabilities R_events R_selector R_refl R_mgr R_cache R_note : tui.

Lemma R_on_mgr f u : R u (on_mgr f u).
Proof. apply (cl_mgr R HR). Qed.
#[local] Hint Resolve R_on_mgr : tui.

(** The step of a worker: a request whose handlers respect [R], an assignment before
    the rest, or the end. *)
Lemma respects_ask {A} c r path (f : body → option A) ok failed :
  (∀ x, respects R (ok x)) → (∀ e, respects R (failed e)) → respects R (request c r (expect path f ok failed)).
Proof. intros H1 H2. apply respects_request; [exact _|]. intros a. apply respects_expect; [exact _|done..]. Qed.
Lemma respects_pre f k u : R u (f u) → respects R k → R u (k (f u)).1 ∧ always R (k (f u)).2.
Proof. intros Hf Hk. destruct (Hk (f u)) as [H1 H2]. split; [by eapply R_then|done]. Qed.
Lemma respects_end u u' : R u u' → R u (u', Done).1 ∧ always R (u', Done).2.
Proof. intros H. split; [done|constructor]. Qed.

Lemma respects_groups c : respects R (poll_groups c).
Proof.
  apply respects_ask; intros x u; apply respects_end; auto with tui.
  eapply R_then; [|apply R_selector]. auto with tui.
Qed.
Lemma respects_sessions c : respects R (poll_sessions c).
Proof.
  apply respects_ask; intros x u; [|apply respects_groups].
  apply (respects_pre (λ u, set_cache _ u)); [auto with tui|apply respects_groups].
Qed.
Lemma respects_backends c : respects R (poll_backends c).
Proof.
  apply respects_ask; intros x u; [|apply respects_sessions].
  apply (respects_pre (_apply_backends_response x)); [auto with tui|apply respects_sessions].
Qed.
Lemma respects_failed name e : respects R (poll_failed name e).
Proof.
  intros u. apply respects_end. eapply R_then; [|apply R_selector]. eapply R_then; [|apply (cl_post R HR)].
  eapply R_then; [apply (cl_connected R HR)|]. apply R_on_mgr.
Qed.
Lemma respects_events name c : respects R (poll_events py_str name c).
Proof.
  apply respects_ask; [|apply respects_failed]. intros l u.
  apply (respects_pre (_apply_events_response py_str l)); [auto with tui|apply respects_backends].
Qed.
Lemma respects_caps name c : respects R (poll_caps py_str name c).
Proof.
  intros u. unfold poll_caps. destruct (pl_caps_loaded (u_poll u)); [apply respects_events|].
  revert u. apply respects_ask; [|apply respects_failed]. intros caps u.
  apply (respects_pre (λ u, on_poll (set_connected _ true) (_apply_capabilities_response caps u))); [|apply respects_events].
  eapply R_then; [apply R_capabilities|apply (cl_connected R HR)].
Qed.
Lemma respects_status name c : respects R (poll_status SERVER_VERSION py_str name c).
Proof.
  apply respects_ask; [|apply respects_failed]. intros status u. cbv beta zeta.
  destruct (pl_connected (u_poll (_apply_status_response SERVER_VERSION status u)));
    [apply respects_pre; [auto with tui|apply respects_caps]|].
  apply (respects_pre (λ u, post ConnectionRestored (on_mgr (mark_connected true name) (on_poll (set_connected true false)
    (_apply_status_response SERVER_VERSION status u))))); [|apply respects_caps].
  eapply R_then; [|apply (cl_post R HR)]. eapply R_then; [|apply R_on_mgr]. eapply R_then; [apply R_status|apply (cl_connected R HR)].
Qed.
Lemma respects_poll : respects R (_poll_once SERVER_VERSION py_str connect_fails).
Proof.
  intros u. unfold _poll_once. destruct (active_entry (u_mgr u)) as [e|]; [|apply respects_end, R_refl].
  destruct (connected_client e (u_mgr u)) as [c|]; [apply respects_status|].
  destruct (connect false _ _ (u_mgr u)) as [[x|x] m]; [apply respects_end; auto with tui|].
  destruct (active_client (u_mgr (set_mgr m u))) as [c|]; [|apply respects_end; auto with tui].
  apply (respects_pre (set_mgr m)); [auto with tui|apply respects_status].
Qed.

Lemma respects_reconnect name : respects R (_reconnect_backend name).
Proof.
  intros u. unfold _reconnect_backend. destruct (active_client (u_mgr u)) as [c|]; [|apply respects_end, R_refl].
  revert u. apply respects_ask; intros x u; apply respects_end; auto with tui.
  eapply R_then; [apply (cl_note R HR)|]. apply (cl_event R HR).
Qed.
Lemma respects_reload c : respects R (_do_reload c).
Proof. apply respects_ask; intros x u; apply respects_end; auto with tui. Qed.
Lemma R_with_settings f u : (∀ d u, R u (f d u)) → R u (with_settings f u).
Proof. intros H. unfold with_settings. destruct (load_settings _); [apply H|apply (cl_finish R HR)]. Qed.
Lemma R_save_and_exit u : R u (save_and_exit u).
Proof. apply R_with_settings. intros d u'. eapply R_then; [apply (cl_files R HR)|apply (cl_finish R HR)]. Qed.
Lemma respects_shutdown : respects R _shutdown_then_exit.
Proof.
  intros u. unfold _shutdown_then_exit. destruct (active_client (u_mgr u)) as [c|]; [|apply respects_end, R_save_and_exit].
  revert u. apply respects_request; [exact _|]. intros a u. apply respects_end, R_save_and_exit.
Qed.

(** The first connection, which also starts the timer. *)
Lemma respects_initial : (∀ u, R u (on_poll (set_timer true) u)) → respects R (_initial_connect SERVER_VERSION py_str connect_fails).
Proof.
  intros Ht.
  assert (∀ f u, R u (f u) → R u (start_timer (f u)).1 ∧ always R (start_timer (f u)).2) as Hstart.
  { intros f u Hf. apply respects_end. eapply R_then; [apply Hf|apply Ht]. }
  assert (∀ e, respects R (initial_failed e)) as Hfail by (intros e u; apply (Hstart (post _)), (cl_post R HR)).
  assert (∀ c, respects R (initial_fetch SERVER_VERSION py_str c)) as Hfetch.
  { intros c. apply respects_ask; [|done]. intros h u.
    eapply (respects_pre (λ u, post ConnectionRestored (on_poll (set_connected true _) u)));
      [eapply R_then; [apply (cl_connected R HR)|apply (cl_post R HR)]|].
    apply respects_ask; [|done]. clear u. intros status u. eapply (respects_pre (_apply_status_response SERVER_VERSION status)); [apply R_status|].
    apply respects_ask; [|done]. clear u. intros caps u.
    eapply (respects_pre (λ u, on_poll (set_connected _ true) (_apply_capabilities_response caps u)));
      [eapply R_then; [apply R_capabilities|apply (cl_connected R HR)]|].
    apply respects_ask; [|done]. clear u. intros l u. apply (Hstart (_apply_events_response py_str l)), R_events. }
  intros u. unfold _initial_connect. destruct (connect_all false connect_fails (u_mgr u)) as [results m].
  assert (R u (_refresh_server_selector (set_mgr m u))) as Hu by (eapply R_then; [apply (cl_mgr R HR)|apply R_selector]).
  destruct (active_client _) as [c|].
  - apply (respects_pre (λ u, _refresh_server_selector (set_mgr m u))); [done|apply Hfetch].
  - apply (Hstart (λ u, post _ (_refresh_server_selector (set_mgr m u)))). eapply R_then; [apply Hu|apply (cl_post R HR)].
Qed.
End workers.

(** ** Events are shown once *)

Abbreviation seen u := (pl_seen_event_ids (u_poll u)).
Abbreviation log u := (da_log (u_dash u)).
Definition shown_ids (l : list log_entry) : list string := omap le_id l.

(** The log and the seen identifiers grow together: what is logged was not seen
    before, and on the dashboard everything that becomes seen is logged. *)
Definition grows (u u' : ui) : Prop :=
  ∃ new more, log u' = log u ++ new ∧ seen u' = seen u ++ more ∧ (NoDup (seen u) → NoDup (seen u')) ∧
    sublist (shown_ids new) more ∧ (u_screen u = Dashboard → shown_ids new = more) ∧ u_screen u' = u_screen u.

Lemma grows_same u u' : log u' = log u → seen u' = seen u → u_screen u' = u_screen u → grows u u'.
Proof. intros E1 E2 E3. exists [], []. rewrite E1, E2, E3, !app_nil_r. done. Qed.
#[global] Instance grows_order : PreOrder grows.
Proof.
  split; [intros u; by apply grows_same|].
  intros u1 u2 u3 (n1 & m1 & A1 & B1 & C1 & D1 & E1 & F1) (n2 & m2 & A2 & B2 & C2 & D2 & E2 & F2).
  exists (n1 ++ n2), (m1 ++ m2). unfold shown_ids in *. rewrite omap_app. split_and!.
  - by rewrite A2, A1, <-app_assoc.
  - by rewrite B2, B1, <-app_assoc.
  - auto.
  - by apply sublist_app.
  - intros H. rewrite E1, E2; [done|congruence|done].
  - congruence.
Qed.

Lemma on_dash_cases f u :
  u_screen u ≠ Dashboard ∧ on_dash f u = u ∨ u_screen u = Dashboard ∧ on_dash f u = set_widgets (f (u_dash u)) (u_sync u) u.
Proof. unfold on_dash. case_decide; auto. Qed.
Lemma grows_quiet f u : (∀ d, da_log (f d) = da_log d) → grows u (on_dash f u).
Proof. intros H. destruct (on_dash_cases f u) as [[_ ->]|[_ ->]]; [done|]. apply grows_same; simpl; auto. Qed.
Lemma grows_event stage msg u : grows u (on_dash (add_event stage msg) u).
Proof.
  destruct (on_dash_cases (add_event stage msg) u) as [[_ ->]|[_ ->]]; [done|]. eexists [_], []. simpl. by rewrite app_nil_r.
Qed.
Lemma grows_show py_str u ev : grows u (apply_event py_str u ev).
Proof.
  unfold apply_event. case_bool_decide as Hin; [done|].
  assert (∀ u', grows u u' → grows u (match sync_message ev with Some m => post m u' | None => u' end)) as Hpost.
  { intros u' H. destruct (sync_message ev); [|done]. trans u'; [done|]. by apply grows_same. }
  apply Hpost. set (u1 := on_poll _ u).
  assert (NoDup (seen u) → NoDup (seen u ++ [ev_id ev])) as Hnd.
  { intros H. apply NoDup_app. split_and!; [done| |apply NoDup_singleton]. by intros x Hx ->%list_elem_of_singleton. }
  destruct (on_dash_cases (add_entry (event_entry py_str ev)) u1) as [[Hd ->]|[Hd ->]].
  - exists [], [ev_id ev]. unfold u1 in *. simpl in *. rewrite app_nil_r. split_and!; try done. apply sublist_nil_l.
  - exists [event_entry py_str ev], [ev_id ev]. done.
Qed.

Lemma grows_closed : closed grows.
Proof.
  split; try (intros; by apply grows_same).
  - exact _.
  - intros f u. apply grows_quiet.
  - apply grows_event.
  - apply grows_show.
Qed.

(** A relation between the states before and after what happens, for the parts that
    are not workers. *)
Section histories.
Context (SERVER_VERSION : string) (py_str : pyval → string) (available_themes : string → bool) (connect_fails : string → option string).
Abbreviation act := (tui_do SERVER_VERSION py_str available_themes connect_fails).
Context (R : ui → ui → Prop) (HR : closed R).
Context (R_theme : ∀ th u, R u (set_theme th u)) (R_posted : ∀ l u, R u (set_posted l u)) (R_sync : ∀ l u, R u (set_widgets (u_dash u) l u)).
#[local] Set Default Proof Using "Type*".
#[local] Instance histories_order : PreOrder R := cl_order R HR.

(** Everything but a switch of the server or of the screen. *)
Definition ordinary (h : happening) : bool := match h with ServerSelected _ | ScreenShown _ => false | _ => true end.

Lemma R_message m u : R u (handle_message m u).
Proof.
  destruct m; simpl.
  - unfold on_connection_lost. etrans; [|apply (cl_note R HR)]. etrans; [|apply (cl_event R HR)]. by apply (cl_quiet R HR).
  - unfold on_connection_restored. etrans; [|apply (cl_event R HR)]. by apply (cl_quiet R HR).
  - unfold on_config_sync_update. case_decide; [apply R_sync|reflexivity].
Qed.
Lemma R_setting d th u : R u (save_setting d th u).
Proof. apply (cl_files R HR). Qed.
Lemma R_next_theme u : R u (action_next_theme available_themes u).
Proof.
  unfold action_next_theme. apply R_with_settings; [done|]. intros d u'. case_match; [|apply (cl_finish R HR)].
  etrans; [|apply (cl_note R HR)]. etrans; [|apply R_setting]. apply R_theme.
Qed.
Lemma R_picked th u : R u (action_open_theme_picker th u).
Proof.
  unfold action_open_theme_picker. destruct th as [t|]; [|reflexivity]. etrans; [apply (R_theme t)|].
  apply R_with_settings; [done|]. intros d u'. etrans; [|apply (cl_note R HR)]. apply R_setting.
Qed.

Lemma always_insert i p ws : always R p → Forall (always R) ws → Forall (always R) (<[i := p]> ws).
Proof. intros. by apply Forall_insert. Qed.
Lemma resumed i r u ws : R u r.1 ∧ always R r.2 → Forall (always R) ws → R u r.1 ∧ Forall (always R) (<[i := r.2]> ws).
Proof. intros [? ?] ?. split; [done|]. by apply always_insert. Qed.
Lemma started ex k t : respects R k → Forall (always R) (t_workers t) → Forall (always R) (t_workers (run_worker ex k t)).
Proof.
  intros Hk Hw. simpl. apply Forall_app. split; [destruct ex; [constructor|done]|]. constructor; [|done]. by constructor.
Qed.

Lemma R_start_mode t : (∀ u, R u (on_poll (set_timer true) u)) → Forall (always R) (t_workers t) →
  R (t_ui t) (t_ui (_start_remote_mode SERVER_VERSION py_str connect_fails t)) ∧
  Forall (always R) (t_workers (_start_remote_mode SERVER_VERSION py_str connect_fails t)).
Proof.
  intros R_timer Hw. unfold _start_remote_mode. cbv zeta. split; [|apply started; [by apply respects_initial|done]]. cbn [run_worker t_ui].
  etrans; [|by apply (cl_quiet R HR)]. set (u1 := match sm_servers _ with [] => _ | _ => _ end).
  assert (R (t_ui t) u1) as H1.
  { unfold u1. destruct (sm_servers _); [|reflexivity]. etrans; [|apply (cl_files R HR)]. apply (cl_mgr R HR). }
  etrans; [exact H1|]. destruct (active_entry _); [|by apply (cl_quiet R HR)].
  etrans; [|apply (cl_event R HR)]. by apply (cl_quiet R HR).
Qed.

Lemma act_respects h t : ordinary h = true → (u_init_done (t_ui t) = true ∨ ∀ u, R u (on_poll (set_timer true) u)) → Forall (always R) (t_workers t) →
  R (t_ui t) (t_ui (act h t)) ∧ Forall (always R) (t_workers (act h t)).
Proof.
  intros Ho Hinit Hw. unfold tui_do. case_decide; [|by split].
  destruct h as [| |i|i a| |name|s|name| |r| |th]; try done.
  - unfold _init_after_mode_switch. destruct (u_init_done _); [by split|]. case_decide; [|by split].
    destruct Hinit as [|Hinit]; [done|].
    destruct (R_start_mode t Hinit Hw) as [H1 H2]. split; [|done]. simpl. etrans; [exact H1|]. apply (cl_init R HR).
  - destruct (pl_timer _); [|by split]. split; [reflexivity|]. apply started; [by apply respects_poll|done].
  - destruct (t_workers t !! i) as [[|k|]|] eqn:E; try by split.
    apply resumed; [|done]. rewrite Forall_lookup in Hw. specialize (Hw _ _ E). by inversion Hw.
  - destruct (t_workers t !! i) as [[|k|c k]|] eqn:E; try by split.
    pose proof (proj1 (Forall_lookup _ _) Hw _ _ E) as Hk. inversion Hk as [| |c' k' Hk']; simplify_eq.
    destruct a; [apply resumed; [apply Hk'|done]|apply resumed; [apply Hk'|done]|]. split; [apply (cl_finish R HR)|done].
  - destruct (u_posted _) as [|m rest]; [by split|]. split; [|done]. simpl. etrans; [|apply R_message]. apply R_posted.
  - split; [reflexivity|]. apply started; [by apply respects_reconnect|done].
  - unfold trigger_reload. destruct (active_client _); [|by split]. split; [reflexivity|]. apply started; [by apply respects_reload|done].
  - unfold exit_choice. destruct r as [r|]; [|by split]. case_bool_decide.
    + split; [apply (cl_event R HR)|]. apply started; [by apply respects_shutdown|done].
    + split; [|done]. simpl. etrans; [apply (cl_event R HR)|]. by apply R_save_and_exit.
  - split; [apply R_next_theme|done].
  - split; [apply R_picked|done].
Qed.
End histories.

Section claims.
Context (SERVER_VERSION : string) (py_str : pyval → string) (available_themes : string → bool) (connect_fails : string → option string).
Abbreviation act := (tui_do SERVER_VERSION py_str available_themes connect_fails).
Definition act_step (t : tui) (h : happening) (t' : tui) : Prop := t' = act h t.
Definition same_server (h : happening) : bool := match h with ServerSelected _ => false | _ => true end.

Abbreviation showing := (Forall (always grows)).

Lemma showing_ordinary h t : ordinary h = true → showing (t_workers t) → grows (t_ui t) (t_ui (act h t)) ∧ showing (t_workers (act h t)).
Proof.
  intros Ho Hw. apply act_respects; try done; try (intros; by apply grows_same); [apply grows_closed|].
  right. intros u. by apply grows_same.
Qed.
Lemma showing_select name t : showing (t_workers t) → NoDup (seen (t_ui t)) →
  showing (t_workers (act (ServerSelected name) t)) ∧ NoDup (seen (t_ui (act (ServerSelected name) t))).
Proof.
  intros Hw Hn. unfold tui_do. case_decide; [|done]. unfold on_server_selected. destruct (set_active name _) as [[|] m]; [done|].
  split.
  - simpl. constructor; [|done]. constructor. apply respects_poll, grows_closed.
  - unfold _refresh_server_selector, on_dash. simpl. destruct (active_entry m); repeat case_decide; apply NoDup_nil_2.
Qed.

(** What a history without a switch of the server adds. *)
Lemma showing_history hs : ∀ t t', showing (t_workers t) → steps act_step t hs t' → forallb same_server hs = true →
  showing (t_workers t') ∧
  ∃ new more, log (t_ui t') = log (t_ui t) ++ new ∧ seen (t_ui t') = seen (t_ui t) ++ more ∧
    (NoDup (seen (t_ui t)) → NoDup (seen (t_ui t'))) ∧ sublist (shown_ids new) more ∧
    (u_screen (t_ui t) = Dashboard → forallb ordinary hs = true → shown_ids new = more ∧ u_screen (t_ui t') = Dashboard).
Proof.
  induction hs as [|h hs IH]; intros t t' Hw Hs Hsame.
  { inversion Hs; subst. split; [done|]. exists [], []. by rewrite !app_nil_r. }
  inversion Hs as [|? ? t1 ? ? Hstep Hrest]; subst. red in Hstep. subst. simpl in Hsame. apply andb_true_iff in Hsame as [Hh Hsame].
  destruct (decide (ordinary h = true)) as [Ho|Ho].
  - destruct (showing_ordinary h t Ho Hw) as [(n1 & m1 & A1 & B1 & C1 & D1 & E1 & F1) Hw1].
    destruct (IH _ _ Hw1 Hrest Hsame) as (Hw2 & n2 & m2 & A2 & B2 & C2 & D2 & E2). split; [done|].
    exists (n1 ++ n2), (m1 ++ m2). unfold shown_ids in *. rewrite omap_app. split_and!.
    + by rewrite A2, A1, <-app_assoc.
    + by rewrite B2, B1, <-app_assoc.
    + auto.
    + by apply sublist_app.
    + intros Hd Hall. simpl in Hall. apply andb_true_iff in Hall as [_ Hall]. destruct E2 as [E2 E3]; [congruence|done|].
      by rewrite E1, E2.
  - assert (∃ sc, h = ScreenShown sc) as [sc ->] by (destruct h; simplify_eq/=; eauto).
    assert (act (ScreenShown sc) t = t ∨ act (ScreenShown sc) t = on_ui (set_screen sc) t) as Hact by (unfold tui_do; case_decide; auto).
    assert (log (t_ui (act (ScreenShown sc) t)) = log (t_ui t) ∧ seen (t_ui (act (ScreenShown sc) t)) = seen (t_ui t) ∧
      t_workers (act (ScreenShown sc) t) = t_workers t) as (El & Es & Ew) by (by destruct Hact as [->| ->]).
    destruct (IH (act (ScreenShown sc) t) t') as (Hw2 & n2 & m2 & A2 & B2 & C2 & D2 & E2); [by rewrite Ew|done|done|].
    split; [done|]. exists n2, m2. rewrite <-El, <-Es. by split_and!.
Qed.

(** After any history the workers behave, and no identifier is recorded twice. *)
Lemma showing_reached hs t t' : showing (t_workers t) → NoDup (seen (t_ui t)) → steps act_step t hs t' →
  showing (t_workers t') ∧ NoDup (seen (t_ui t')).
Proof.
  intros Hw Hn Hs. refine (steps_invariant _ (λ t, showing (t_workers t) ∧ NoDup (seen (t_ui t))) _ _ _ _ Hs (conj Hw Hn)).
  clear. intros t h t' [Hw Hn] ->. destruct (decide (same_server h = true)) as [Hsame|Hsame].
  - destruct (showing_history [h] t (act h t) Hw) as (Hw' & new & more & _ & _ & Hn' & _); [|by simpl; rewrite Hsame|split; [done|auto]].
    by econstructor; [|constructor].
  - destruct h; try done. by apply showing_select.
Qed.
Lemma seen_on_mount mgr u : seen (on_mount available_themes mgr u) = seen u.
Proof. unfold on_mount, _ensure_server_manager, crash. by repeat case_match. Qed.


(** All the events of an answer become known. *)
Lemma events_known l u ev : ev ∈ l → ev_id ev ∈ seen (_apply_events_response py_str l u).
Proof.
  intros Hin. unfold _apply_events_response. generalize (set_cache {| ca_status := ca_status (u_cache u); ca_caps := ca_caps (u_cache u);
    ca_sessions := ca_sessions (u_cache u); ca_groups := ca_groups (u_cache u); ca_events := Some l |} u). clear u.
  assert (∀ l u x, x ∈ seen u → x ∈ seen (foldl (apply_event py_str) u l)) as Hkeep.
  { clear. intros l. induction l as [|e l IH]; intros u x Hx; [done|]. simpl. apply IH.
    destruct (grows_show py_str u e) as (n & m & _ & -> & _). apply elem_of_app. by left. }
  induction l as [|e l IH]; intros u; [by apply not_elem_of_nil in Hin|]. simpl.
  apply elem_of_cons in Hin as [<-|Hin]; [|by apply IH]. apply Hkeep.
  unfold apply_event. case_bool_decide; [done|]. unfold post, on_dash. repeat case_match; simpl; apply elem_of_app; right; left.
Qed.

(** *** What the group of workers costs *)

(** The client of the active server is open. *)
Definition online (u : ui) : Prop := ∃ e c, active_entry (u_mgr u) = Some e ∧ connected_client e (u_mgr u) = Some c ∧ api_is_connected c (u_mgr u) = true.

Lemma poll_asks u : online u → ∃ k, _poll_once SERVER_VERSION py_str connect_fails u = (u, Ask GetStatus k).
Proof.
  intros (e & c & He & Hc & Ho). unfold _poll_once. rewrite He, Hc. unfold poll_status, get_status, request. rewrite Ho. eauto.
Qed.

(** A server that does not answer within the interval is never noticed: each tick
    cancels the poll before its request times out, and nothing is posted or shown. *)
Lemma slow_server_unnoticed n t : u_end (t_ui t) = None → pl_timer (u_poll (t_ui t)) = true → online (t_ui t) →
  ∃ t', steps act_step t (concat (replicate n [PollTick; WorkerStarts 0])) t' ∧ t_ui t' = t_ui t.
Proof.
  intros He Ht Ho. revert t He Ht Ho. induction n as [|n IH]; intros t He Ht Ho; [exists t; by split; [constructor|]|].
  destruct (poll_asks _ Ho) as [k Hk].
  set (t2 := {| t_ui := t_ui t; t_workers := [Ask GetStatus k] |}).
  assert (act PollTick t = {| t_ui := t_ui t; t_workers := [Start (_poll_once SERVER_VERSION py_str connect_fails)] |}) as E1.
  { unfold tui_do. rewrite decide_True, Ht by done. done. }
  assert (act (WorkerStarts 0) (act PollTick t) = t2) as E2.
  { rewrite E1. unfold tui_do. simpl. rewrite decide_True by done. unfold resume. simpl. by rewrite Hk. }
  destruct (IH t2 He Ht Ho) as (t' & Hs & Hu). exists t'. split; [|done].
  simpl. econstructor; [reflexivity|]. econstructor; [reflexivity|]. by rewrite E2.
Qed.

(** The request to stop the server and exit is a worker of the same group: a tick of
    the timer before the answer cancels it, and the application goes on. *)
Lemma shutdown_cancelled t : u_end (t_ui t) = None → pl_timer (u_poll (t_ui t)) = true →
  (∃ c, active_client (u_mgr (t_ui t)) = Some c ∧ api_is_connected c (u_mgr (t_ui t)) = true) → t_workers t = [] →
  let t' := act PollTick (act (WorkerStarts 0) (act (ExitChosen (Some "stop-and-exit")) t)) in
  u_end (t_ui t') = None ∧ t_workers t' = [Start (_poll_once SERVER_VERSION py_str connect_fails)].
Proof.
  intros He Ht (c & Hc & Ho) Hw. cbv zeta.
  set (u1 := on_dash (add_event "🛑 Shutting Down" "Exit mode: stop-and-exit") (t_ui t)).
  assert (u_end u1 = None ∧ pl_timer (u_poll u1) = true ∧ u_mgr u1 = u_mgr (t_ui t)) as (He1 & Ht1 & Hm1).
  { unfold u1, on_dash. by case_decide. }
  assert (act (ExitChosen (Some "stop-and-exit")) t = {| t_ui := u1; t_workers := [Start _shutdown_then_exit] |}) as ->.
  { unfold tui_do. rewrite decide_True by done. unfold exit_choice. rewrite bool_decide_true by done. unfold run_worker. simpl. by rewrite Hw. }
  assert (∃ p, act (WorkerStarts 0) {| t_ui := u1; t_workers := [Start _shutdown_then_exit] |} = {| t_ui := u1; t_workers := [p] |}) as [p ->].
  { unfold tui_do. simpl. rewrite decide_True by done. unfold resume, _shutdown_then_exit, request. rewrite Hm1, Hc, Ho. simpl. eauto. }
  unfold tui_do. simpl. rewrite decide_True, Ht1 by done. done.
Qed.

(** The timer. *)
Definition same_timer (u u' : ui) : Prop := pl_timer (u_poll u') = pl_timer (u_poll u) ∧ (u_init_done u = true → u_init_done u' = true).
Lemma same_timer_closed : closed same_timer.
Proof.
  split; try by (intros; split).
  - split; [by split|]. intros u1 u2 u3 [A1 B1] [A2 B2]. split; [congruence|auto].
  - intros f u _. unfold on_dash. case_decide; by split.
  - intros stage msg u. unfold on_dash. case_decide; by split.
  - intros p u ev. unfold apply_event, post, on_dash. by repeat (case_match; simpl).
Qed.

(** Switching the server while the first connection is made cancels the worker that
    would have started the timer: from then on there is no periodic poll. *)
Lemma polling_never_starts name t hs t' : u_end (t_ui t) = None → u_init_done (t_ui t) = true → pl_timer (u_poll (t_ui t)) = false →
  name ∈ dkeys (sm_servers (u_mgr (t_ui t))) →
  steps act_step (act (ServerSelected name) t) hs t' → pl_timer (u_poll (t_ui t')) = false.
Proof.
  intros He Hi Ht Hn.
  set (inv t := pl_timer (u_poll (t_ui t)) = false ∧ u_init_done (t_ui t) = true ∧ Forall (always same_timer) (t_workers t)).
  assert (∀ name t, (u_init_done (t_ui t) = true ∧ pl_timer (u_poll (t_ui t)) = false) ∧ (u_end (t_ui t) = None → name ∈ dkeys (sm_servers (u_mgr (t_ui t))) ∨ inv t)
    ∧ (u_end (t_ui t) ≠ None → inv t) → inv (act (ServerSelected name) t)) as Hsel.
  { clear. intros name t ((Hi & Ht) & Hn & Hend). unfold tui_do. case_decide as He; [|by apply Hend]. unfold on_server_selected, set_active.
    destruct (dmem _ name) eqn:E; simpl.
    - unfold inv, run_worker, on_ui. split_and!; simpl.
      + unfold _refresh_server_selector, on_dash. destruct (active_entry _); repeat (case_decide; simpl); done.
      + unfold _refresh_server_selector, on_dash. destruct (active_entry _); repeat (case_decide; simpl); done.
      + constructor; [|done]. constructor. apply respects_poll, same_timer_closed.
    - destruct (Hn He) as [Hin|(? & ? & ?)]; [apply dmem_spec in Hin; congruence|]. by split_and!. }
  assert (∀ h t, inv t → inv (act h t)) as Hstep.
  { clear -Hsel. intros h t (Ht & Hi & Hw). destruct (decide (ordinary h = true)) as [Ho|Ho].
    - destruct (act_respects SERVER_VERSION py_str available_themes connect_fails same_timer) with (h := h) (t := t) as [[H1 H2] H3];
        try done; [apply same_timer_closed|by left|]. split_and!; [congruence|auto|done].
    - destruct h; try done; [|unfold tui_do; case_decide; by split_and!]. apply Hsel. split; [done|]. split; intros; [right|]; by split_and!. }
  intros Hs. assert (inv t') as (? & _ & _); [|done].
  refine (steps_invariant _ inv _ _ _ _ Hs _); [by intros ? ? ? ? ->; apply Hstep|]. apply Hsel. split; [done|]. split; [by left|done].
Qed.
End claims.

(** ** A whole poll *)

(** A worker given its answers one after the other. *)
Fixpoint drive (answers : list (string + body)) (r : ui * proc) : ui * proc :=
  match answers, r with
  | a :: rest, (u, Ask _ k) => drive rest (k a u)
  | _, _ => r
  end.

Section poll.
Context (SERVER_VERSION : string) (py_str : pyval → string) (connect_fails : string → option string).
Abbreviation poll := (_poll_once SERVER_VERSION py_str connect_fails).

(** Showing an answer leaves the manager, the flags and the rest of the cache as they
    are. *)
Lemma on_dash_mgr f u : u_mgr (on_dash f u) = u_mgr u.
Proof. unfold on_dash. by case_decide. Qed.
Lemma on_dash_poll f u : u_poll (on_dash f u) = u_poll u.
Proof. unfold on_dash. by case_decide. Qed.
Lemma on_dash_cache f u : u_cache (on_dash f u) = u_cache u.
Proof. unfold on_dash. by case_decide. Qed.
Lemma on_dash_posted f u : u_posted (on_dash f u) = u_posted u.
Proof. unfold on_dash. by case_decide. Qed.

(** What is kept of a state while events are shown. *)
Definition kept_by (u u' : ui) : Prop :=
  u_mgr u' = u_mgr u ∧ pl_connected (u_poll u') = pl_connected (u_poll u) ∧ pl_caps_loaded (u_poll u') = pl_caps_loaded (u_poll u) ∧
  u_cache u' = u_cache u ∧ ∃ l, u_posted u' = u_posted u ++ l ∧ Forall (λ m, m ≠ ConnectionRestored) l.
Lemma kept_refl u : kept_by u u.
Proof. split_and!; try done. exists []. split; [by rewrite app_nil_r|constructor]. Qed.
Lemma kept_show l : ∀ u, kept_by u (foldl (apply_event py_str) u l).
Proof.
  induction l as [|ev l IH]; intros u; simpl; [apply kept_refl|].
  destruct (IH (apply_event py_str u ev)) as (A & B & C & D & l2 & E & F).
  assert (kept_by u (apply_event py_str u ev)) as (A1 & B1 & C1 & D1 & l1 & E1 & F1).
  { unfold apply_event. case_bool_decide; [apply kept_refl|].
    destruct (sync_message ev) as [m|] eqn:Em; unfold kept_by; simpl;
      rewrite ?on_dash_mgr, ?on_dash_poll, ?on_dash_cache, ?on_dash_posted; split_and!; try done;
      [exists [m]|exists []; split; [by rewrite app_nil_r|constructor]].
    split; [done|]. constructor; [|done]. unfold sync_message in Em. repeat case_match; by simplify_eq. }
  split_and!; try congruence. exists (l1 ++ l2). rewrite E, E1, <-app_assoc. split; [done|]. by apply Forall_app.
Qed.

Lemma connected_mark b name c m : api_is_connected c (mark_connected b name m) = api_is_connected c m.
Proof. unfold mark_connected. by destruct (dget _ name). Qed.

(** A request of an open client waits. *)
Lemma drive_request c r k u a rest : api_is_connected c (u_mgr u) = true → drive (a :: rest) (request c r k u) = drive rest (k a u).
Proof. intros H. unfold request. by rewrite H. Qed.

(** The end of a poll, from the events on. *)
Lemma poll_tail name c u l bs v g : api_is_connected c (u_mgr u) = true →
  ∃ u', drive [inr (BEvents l); inr (BBackends bs); inr (BSessions v); inr g] (poll_events py_str name c u) = (u', Done) ∧
    u_mgr u' = u_mgr u ∧ pl_connected (u_poll u') = pl_connected (u_poll u) ∧ pl_caps_loaded (u_poll u') = pl_caps_loaded (u_poll u) ∧
    u_cache u' = {| ca_status := ca_status (u_cache u); ca_caps := ca_caps (u_cache u); ca_sessions := Some v; ca_groups := Some g;
                    ca_events := Some l |} ∧
    ∃ ms, u_posted u' = u_posted u ++ ms ∧ Forall (λ m, m ≠ ConnectionRestored) ms.
Proof.
  intros Ho. unfold poll_events, get_events. rewrite drive_request by done. simpl expect.
  set (u0 := set_cache {| ca_status := ca_status (u_cache u); ca_caps := ca_caps (u_cache u); ca_sessions := ca_sessions (u_cache u);
    ca_groups := ca_groups (u_cache u); ca_events := Some l |} u).
  change (_apply_events_response py_str l u) with (foldl (apply_event py_str) u0 l).
  destruct (kept_show l u0) as (A & B & C & D & ms & E & F). set (u1 := foldl _ u0 l) in *.
  unfold poll_backends, get_backends. rewrite drive_request by (by rewrite A). simpl expect.
  unfold poll_sessions, get_sessions. unfold _apply_backends_response. rewrite drive_request by (by rewrite on_dash_mgr, A). simpl expect.
  unfold poll_groups, get_groups. rewrite drive_request by (simpl; by rewrite on_dash_mgr, A). simpl.
  eexists. split; [reflexivity|]. unfold _refresh_server_selector.
  rewrite ?on_dash_mgr, ?on_dash_poll, ?on_dash_cache, ?on_dash_posted. simpl.
  rewrite ?on_dash_mgr, ?on_dash_poll, ?on_dash_cache, ?on_dash_posted, A, B, C, D, E. simpl. eauto 10.
Qed.

(** A poll of an open client that is answered: the answers are cached, the server is
    connected and its capabilities are loaded, fetched again exactly when they were not
    or the connection was lost, in which case its return is announced; a poll whose first
    request fails announces the loss and marks the server. *)
Theorem poll_outcome u e c status caps l bs v g reason :
  active_entry (u_mgr u) = Some e → connected_client e (u_mgr u) = Some c → api_is_connected c (u_mgr u) = true →
  let fresh := negb (pl_connected (u_poll u)) || negb (pl_caps_loaded (u_poll u)) in
  (∃ u', drive ([inr (BStatus status)] ++ (if fresh then [inr (BCapabilities caps)] else []) ++
                [inr (BEvents l); inr (BBackends bs); inr (BSessions v); inr g]) (poll u) = (u', Done) ∧
    pl_connected (u_poll u') = true ∧ pl_caps_loaded (u_poll u') = true ∧
    u_cache u' = {| ca_status := Some status; ca_caps := if fresh then Some caps else ca_caps (u_cache u); ca_sessions := Some v;
                    ca_groups := Some g; ca_events := Some l |} ∧
    u_mgr u' = (if pl_connected (u_poll u) then u_mgr u else mark_connected true (se_name e) (u_mgr u)) ∧
    ∃ ms, u_posted u' = u_posted u ++ (if pl_connected (u_poll u) then [] else [ConnectionRestored]) ++ ms ∧
      Forall (λ m, m ≠ ConnectionRestored) ms) ∧
  (∃ u', drive [inl reason] (poll u) = (u', Done) ∧ pl_connected (u_poll u') = false ∧ pl_caps_loaded (u_poll u') = false ∧
    u_cache u' = u_cache u ∧ u_mgr u' = mark_connected false (se_name e) (u_mgr u) ∧ u_posted u' = u_posted u ++ [ConnectionLost reason]).
Proof.
  intros He Hc Ho fresh. unfold _poll_once. rewrite He, Hc. unfold poll_status, get_status. split.
  - cbn [app]. rewrite drive_request by done. simpl expect.
    set (u1 := _apply_status_response SERVER_VERSION status u).
    assert (u_mgr u1 = u_mgr u ∧ u_poll u1 = u_poll u ∧ u_posted u1 = u_posted u ∧
      u_cache u1 = {| ca_status := Some status; ca_caps := ca_caps (u_cache u); ca_sessions := ca_sessions (u_cache u);
                      ca_groups := ca_groups (u_cache u); ca_events := ca_events (u_cache u) |}) as (M1 & P1 & Q1 & C1).
    { unfold u1, _apply_status_response. by rewrite ?on_dash_mgr, ?on_dash_poll, ?on_dash_cache, ?on_dash_posted. }
    cbv beta zeta.
    set (u2 := if pl_connected (u_poll u) then u1
               else post ConnectionRestored (on_mgr (mark_connected true (se_name e)) (on_poll (set_connected true false) u1))).
    assert ((if pl_connected (u_poll u1) then poll_caps py_str (se_name e) c u1 else poll_caps py_str (se_name e) c
      (post ConnectionRestored (on_mgr (mark_connected true (se_name e)) (on_poll (set_connected true false) u1)))) =
      poll_caps py_str (se_name e) c u2) as ->.
    { unfold u2. rewrite P1. by destruct (pl_connected (u_poll u)). }
    assert (u_mgr u2 = (if pl_connected (u_poll u) then u_mgr u else mark_connected true (se_name e) (u_mgr u)) ∧
      pl_connected (u_poll u2) = true ∧ pl_caps_loaded (u_poll u2) = negb fresh ∧ u_cache u2 = u_cache u1 ∧
      u_posted u2 = u_posted u ++ (if pl_connected (u_poll u) then [] else [ConnectionRestored])) as (M2 & P2 & L2 & C2 & Q2).
    { unfold u2, fresh. destruct (pl_connected (u_poll u)) eqn:E; simpl; rewrite ?M1, ?P1, ?Q1, ?app_nil_r; [|done].
      split_and!; try done. by rewrite negb_involutive. }
    assert (api_is_connected c (u_mgr u2) = true) as Ho2.
    { rewrite M2. destruct (pl_connected (u_poll u)); [done|]. by rewrite connected_mark. }
    clearbody u2. unfold poll_caps. rewrite L2. destruct fresh; cbn [negb app].
    + unfold get_capabilities. rewrite drive_request by done. simpl expect. cbv beta zeta.
      set (u3 := on_poll _ _).
      assert (u_mgr u3 = u_mgr u2 ∧ pl_connected (u_poll u3) = true ∧ pl_caps_loaded (u_poll u3) = true ∧ u_posted u3 = u_posted u2 ∧
        u_cache u3 = {| ca_status := ca_status (u_cache u2); ca_caps := Some caps; ca_sessions := ca_sessions (u_cache u2);
                        ca_groups := ca_groups (u_cache u2); ca_events := ca_events (u_cache u2) |}) as (M3 & P3 & L3 & Q3 & C3).
      { unfold u3, _apply_capabilities_response. simpl. by rewrite ?on_dash_mgr, ?on_dash_poll, ?on_dash_cache, ?on_dash_posted. }
      clearbody u3. destruct (poll_tail (se_name e) c u3 l bs v g) as (u' & -> & A & B & C & D & ms & E & F); [by rewrite M3|].
      exists u'. rewrite A, B, C, D, M3, P3, L3, M2, C3, C2, C1. split_and!; try done. exists ms. by rewrite E, Q3, Q2, app_assoc.
    + destruct (poll_tail (se_name e) c u2 l bs v g Ho2) as (u' & -> & A & B & C & D & ms & E & F).
      exists u'. rewrite A, B, C, D, P2, L2, M2, C2, C1. split_and!; try done. exists ms. by rewrite E, Q2, app_assoc.
  - rewrite drive_request by done. simpl. eexists. split; [reflexivity|]. unfold _refresh_server_selector.
    by rewrite ?on_dash_mgr, ?on_dash_poll, ?on_dash_cache, ?on_dash_posted.
Qed.
End poll.

(** ** A session *)

Definition demo_text (v : pyval) : string := match v with PStr s => s | _ => "?" end.
Definition demo := tui_do "0.8.6" demo_text (λ _, true) (λ _, None).
Definition demo_start : tui := start_app "0.8.6" (λ _, true) (Some "http://host:9000/mcp/") None None None None.
Definition demo_event (id : string) : EventItem := {| ev_id := id; ev_timestamp := "t"; ev_stage := "s"; ev_message := "m"; ev_details := None |}.
Definition demo_status : StatusResponse :=
  {| sr_version := "0.8.6"; sr_state := "running"; sr_sse_url := ""; sr_streamable_http_url := None; sr_file_path := None; sr_backend_count := 1 |}.
(** The first connection, with one event, up to the start of the timer. *)
Definition demo_connect : list happening :=
  [DashboardShown; WorkerStarts 0; Answered 0 (Reply (BHealth "healthy")); Answered 0 (Reply (BStatus demo_status));
   Answered 0 (Reply (BCapabilities {| cr_tools := []; cr_resources := []; cr_prompts := []; cr_route_map := PDict [] |}));
   Answered 0 (Reply (BEvents [demo_event "1"]))].
(** A poll with two events, one of them known. *)
Definition demo_poll : list happening :=
  [PollTick; WorkerStarts 0; Answered 0 (Reply (BStatus demo_status)); Answered 0 (Reply (BEvents [demo_event "1"; demo_event "2"]))].
Definition run_all (hs : list happening) (t : tui) : tui := foldl (λ t h, demo h t) t hs.
Lemma run_all_steps hs : ∀ t, steps (act_step "0.8.6" demo_text (λ _, true) (λ _, None)) t hs (run_all hs t).
Proof. induction hs as [|h hs IH]; intros t; [constructor|]. econstructor; [reflexivity|]. apply IH. Qed.

Example demo_url : _normalise_server_url (Some "http://host:9000/mcp/") = Some "http://host:9000".
Proof. reflexivity. Qed.

(** An event that arrives while another screen is shown is recorded as seen, so that it
    is not in the log when the dashboard comes back and the server sends it again. *)
Example hidden_event_lost :
  let t := run_all (demo_connect ++ [ScreenShown OtherScreen] ++ demo_poll ++ [ScreenShown Dashboard] ++ demo_poll) demo_start in
  seen (t_ui t) = ["1"; "2"] ∧ shown_ids (log (t_ui t)) = ["1"].
Proof. vm_compute. done. Qed.
(** Every poll cancels what the user asked for before it: a reload whose answer takes
    longer than the time to the next tick is never reported. *)
Example reload_unreported :
  let t := run_all (demo_connect ++ [ReloadAsked; WorkerStarts 0; PollTick; WorkerStarts 0;
                      Answered 0 (Reply (BReload {| rl_reloaded := true; rl_backends_added := []; rl_errors := [] |}))]) demo_start in
  u_notes (t_ui t) = [].
Proof. vm_compute. reflexivity. Qed.
(** An answer that is not JSON (for instance the page of a proxy) ends the interface. *)
Example page_ends_interface :
  u_end (t_ui (run_all (demo_connect ++ [PollTick; WorkerStarts 0; Answered 0 NotJson]) demo_start)) = Some (Crashed "JSONDecodeError").
Proof. vm_compute. reflexivity. Qed.
(** A server that fails and comes back: its capabilities are fetched again, and both are
    announced. *)
Example lost_and_back :
  let t := run_all (demo_connect ++ [MessageHandled; PollTick; WorkerStarts 0; Answered 0 (Fails "refused"); PollTick; WorkerStarts 0;
                      Answered 0 (Reply (BStatus demo_status))]) demo_start in
  u_posted (t_ui t) = [ConnectionLost "refused"; ConnectionRestored] ∧ pl_caps_loaded (u_poll (t_ui t)) = false.
Proof. vm_compute. done. Qed.

(** ** Themes *)

(** Cycling goes through the enabled themes: from a theme to the one after it, from the
    last to the first. *)
Lemma next_after_app current first a rest : current ∉ a → next_after current first (a ++ current :: rest) = Some (default first (head rest)).
Proof.
  induction a as [|t a IH]; intros Hn; simpl.
  - rewrite bool_decide_true by done. by destruct rest.
  - apply not_elem_of_cons in Hn as [Hne Hn]. rewrite bool_decide_false by congruence. by apply IH.
Qed.
Lemma themes_cycle a current rest : current ∉ a →
  next_theme current (a ++ current :: rest) = default (default current (head a)) (head rest).
Proof.
  intros Hn. unfold next_theme. destruct a as [|t a]; simpl.
  - rewrite bool_decide_true by done. by destruct rest.
  - apply not_elem_of_cons in Hn as [Hne Hn]. rewrite bool_decide_false by congruence. by rewrite next_after_app.
Qed.
