(* ===== verification/CliTui.v ===== *)
(** * The terminal interface of the command-line package

    packages/argus_cli/argus_cli/tui/app.py, where it differs from tui/app.py
    (TuiApp.v): one request for a whole poll, an interval that adapts, a bounded memory
    of events and a background stream of events.

    Workers are as in TuiApp.v, with the stream as one of the same group: it is
    cancelled with the group, and its [finally] then runs if it had started. *)
From S2P Require Import Prelude PyDict Effects PyStr Json CliConfig ServerManager TuiApp.
#[local] Open Scope Z_scope.

Definition _POLL_BASE : Z := 2000.
Definition _POLL_MAX : Z := 8000.
Definition _SEEN_EVENTS_MAX : nat := Z.to_nat 10000.

Record BatchResponse := {
  ba_status : StatusResponse; ba_backends : list (odict string pyval); ba_capabilities : CapabilitiesResponse; ba_events : list EventItem }.

(** [cs_timer] is the interval of the running timer, [cs_interval] the attribute. *)
Record cli_ui := { cs_ui : ui; cs_interval : Z; cs_hash : Z; cs_sse : bool; cs_timer : option Z }.
Definition with_ui (f : ui → ui) (s : cli_ui) : cli_ui :=
  {| cs_ui := f (cs_ui s); cs_interval := cs_interval s; cs_hash := cs_hash s; cs_sse := cs_sse s; cs_timer := cs_timer s |}.
Definition with_pace (interval hash : Z) (timer : option Z) (s : cli_ui) : cli_ui :=
  {| cs_ui := cs_ui s; cs_interval := interval; cs_hash := hash; cs_sse := cs_sse s; cs_timer := timer |}.
Definition with_sse (b : bool) (s : cli_ui) : cli_ui :=
  {| cs_ui := cs_ui s; cs_interval := cs_interval s; cs_hash := cs_hash s; cs_sse := b; cs_timer := cs_timer s |}.

(** ** Workers *)

Inductive worker :=
  | Finished
  | Waiting (k : cli_ui → cli_ui * worker)
  | Asking (c : call) (k : string + body → cli_ui → cli_ui * worker)
  | AskingBatch (k : string + BatchResponse → cli_ui → cli_ui * worker)
  | AskingBoth (k : option pyval → option body → cli_ui → cli_ui * worker)
  | StreamStarts
  | Streaming
  (** The last act of a worker that starts the stream. *)
  | ThenStream.

Definition ask_call (c : nat) (r : call) (k : string + body → cli_ui → cli_ui * worker) (s : cli_ui) : cli_ui * worker :=
  if api_is_connected c (u_mgr (cs_ui s)) then (s, Asking r k) else k (inl "ApiClient is not connected") s.
Definition ask_batch (c : nat) (k : string + BatchResponse → cli_ui → cli_ui * worker) (s : cli_ui) : cli_ui * worker :=
  if api_is_connected c (u_mgr (cs_ui s)) then (s, AskingBatch k) else k (inl "ApiClient is not connected") s.

Section app.
Context (SERVER_VERSION : string) (py_str : pyval → string) (connect_fails : string → option string).
(** [hash] of the state and the number of backends. *)
Context (hash : string → Z → Z).

(** ** Events *)

Definition _record_event_id (id : string) (known : list string) : list string :=
  let l := known ++ [id] in drop (length l - _SEEN_EVENTS_MAX) l.
Definition show_event_with (m : option message) (u : ui) (ev : EventItem) : ui :=
  let known := pl_seen_event_ids (u_poll u) in
  if bool_decide (ev_id ev ∈ known) then u
  else
    let u := on_poll (mark_seen (_record_event_id (ev_id ev) known)) u in
    let u := on_dash (add_entry (event_entry py_str ev)) u in
    match m with Some m => post m u | None => u end.
Definition show_event (u : ui) (ev : EventItem) : ui := show_event_with (sync_message ev) u ev.
Definition show_events (l : list EventItem) (u : ui) : ui :=
  foldl show_event (set_cache {| ca_status := ca_status (u_cache u); ca_caps := ca_caps (u_cache u); ca_sessions := ca_sessions (u_cache u);
                                 ca_groups := ca_groups (u_cache u); ca_events := Some l |} u) l.

Definition text_value (v : pyval) : string := match v with PStr s => s | _ => py_str v end.
(** A message of the stream: identifiers are strings, an empty timestamp is none; a
    message without an identifier is shown every time. *)
Definition streamed_event (d : odict string pyval) : EventItem :=
  {| ev_id := text_value (get_or d "id" (PStr "")); ev_timestamp := text_value (get_or d "timestamp" (PStr ""));
     ev_stage := text_value (get_or d "stage" (PStr "event")); ev_message := text_value (get_or d "message" (PStr ""));
     ev_details := match dget d "details" with Some (PDict x) => Some x | _ => None end |}.
Definition streamed_sync (d : odict string pyval) : option message :=
  let ev := streamed_event d in
  if bool_decide (ev_stage ev = "config_sync") && truthy (get_or d "details" PNone) then
    let x := default [] (ev_details ev) in
    Some (ConfigSyncUpdate (get_or x "config_file" (PStr "")) (get_or x "config_hash" (PStr "")) (get_or x "type" (PStr "changed"))
            (ev_message ev) (ev_timestamp ev))
  else None.
Definition _sse_event (d : odict string pyval) (u : ui) : ui :=
  let ev := streamed_event d in
  if bool_decide (ev_id ev = "") then
    let u := on_dash (add_entry {| le_stage := ev_stage ev; le_message := ev_message ev; le_time := Some (ev_timestamp ev);
                                   le_extra := extra_lines py_str (ev_details ev); le_id := None |}) u in
    match streamed_sync d with Some m => post m u | None => u end
  else show_event_with (streamed_sync d) u ev.

(** ** Polling *)

(** The interval is doubled while nothing changes, and goes back when something does. *)
Definition adapt (status_hash : Z) (s : cli_ui) : cli_ui :=
  let new_interval := if status_hash =? cs_hash s then Z.min (cs_interval s * 2) _POLL_MAX else _POLL_BASE in
  if new_interval =? cs_interval s then with_pace (cs_interval s) status_hash (cs_timer s) s
  else with_pace new_interval status_hash (Some new_interval) s.
Definition poll_ends (status_hash : Z) (s : cli_ui) : cli_ui * worker := (with_ui _refresh_server_selector (adapt status_hash s), Finished).
Definition batch_failed (name reason : string) (s : cli_ui) : cli_ui * worker :=
  poll_ends 0 (with_ui (λ u, post (ConnectionLost reason) (on_mgr (mark_connected false name) (on_poll (set_connected false false) u))) s).
Definition keep_results (v : option pyval) (g : option body) (u : ui) : ui :=
  set_cache {| ca_status := ca_status (u_cache u); ca_caps := ca_caps (u_cache u);
               ca_sessions := match v with Some v => Some v | None => ca_sessions (u_cache u) end;
               ca_groups := match g with Some g => Some g | None => ca_groups (u_cache u) end; ca_events := ca_events (u_cache u) |} u.
Definition apply_batch (name : string) (b : BatchResponse) (u : ui) : ui :=
  let u := _apply_status_response SERVER_VERSION (ba_status b) u in
  let u := if pl_connected (u_poll u) then u
           else post ConnectionRestored (on_mgr (mark_connected true name) (on_poll (set_connected true false) u)) in
  let u := if pl_caps_loaded (u_poll u) then u
           else let u := _apply_capabilities_response (ba_capabilities b) u in on_poll (set_connected (pl_connected (u_poll u)) true) u in
  _apply_backends_response (ba_backends b) (show_events (ba_events b) u).
Definition poll_batch (name : string) (c : nat) : cli_ui → cli_ui * worker :=
  ask_batch c (λ r s,
    match r with
    | inl reason => batch_failed name reason s
    | inr b =>
        let h := hash (sr_state (ba_status b)) (sr_backend_count (ba_status b)) in
        (with_ui (apply_batch name b) s, AskingBoth (λ v g s, poll_ends h (with_ui (keep_results v g) s)))
    end).
Definition cli_poll_once (s : cli_ui) : cli_ui * worker :=
  let m := u_mgr (cs_ui s) in
  match active_entry m with
  | None => (s, Finished)
  | Some e =>
      match connected_client e m with
      | Some c => poll_batch (se_name e) c s
      | None =>
          let '(r, m) := connect true (connect_fails (se_name e)) (se_name e) m in
          let s := with_ui (set_mgr m) s in
          match r with
          | inl _ => (s, Finished)
          | inr _ => match active_client m with Some c => poll_batch (se_name e) c s | None => (s, Finished) end
          end
      end
  end.

(** ** The first connection *)

Definition starts_timer (s : cli_ui) : cli_ui * worker :=
  (with_pace (cs_interval s) (cs_hash s) (Some (cs_interval s)) s, if pl_connected (u_poll (cs_ui s)) then ThenStream else Finished).
Definition first_fails (reason : string) (s : cli_ui) : cli_ui * worker :=
  starts_timer (with_ui (post (ConnectionLost ("Cannot reach server: " +:+ reason))) s).
Definition checked {A} (path : string) (f : body → option A) (ok : A → cli_ui → cli_ui * worker) (r : string + body) (s : cli_ui) : cli_ui * worker :=
  match r with
  | inl reason => first_fails reason s
  | inr b => match f b with Some x => ok x s | None => first_fails ("Invalid response from " +:+ path) s end
  end.
Definition first_fetch (c : nat) : cli_ui → cli_ui * worker :=
  ask_call c GetHealth (checked "health" (λ b, match b with BHealth h => Some h | _ => None end) (λ _ s,
    ask_call c GetStatus (checked "status" (λ b, match b with BStatus x => Some x | _ => None end) (λ status s,
      ask_call c GetCapabilities (checked "capabilities" (λ b, match b with BCapabilities x => Some x | _ => None end) (λ caps s,
        ask_call c (GetEvents 100) (checked "events" (λ b, match b with BEvents x => Some x | _ => None end) (λ l s,
          starts_timer (with_ui (show_events l) s)))
          (with_ui (λ u, let u := _apply_capabilities_response caps u in on_poll (set_connected (pl_connected (u_poll u)) true) u) s)))
        (with_ui (_apply_status_response SERVER_VERSION status) s)))
      (with_ui (λ u, post ConnectionRestored (on_poll (set_connected true (pl_caps_loaded (u_poll u))) u)) s))).
Definition cli_initial_connect (s : cli_ui) : cli_ui * worker :=
  let '(results, m) := connect_all true connect_fails (u_mgr (cs_ui s)) in
  let s := with_ui (λ u, _refresh_server_selector (set_mgr m u)) s in
  match active_client m with
  | Some c => first_fetch c s
  | None =>
      let reason :=
        match active_entry m with
        | Some e => "Cannot reach server '" +:+ se_name e +:+ "': " +:+ error_text (default None (dget results (se_name e)))
        | None => "No servers configured"
        end in
      starts_timer (with_ui (post (ConnectionLost reason)) s)
  end.

(** ** Reconnecting all the backends *)

Fixpoint reconnect_each (c : nat) (names : list string) (total : Z) (s : cli_ui) : cli_ui * worker :=
  match names with
  | [] => (with_ui (notify ("Reconnect requested for " +:+ str_of_int total +:+ " backend(s)")) s, Finished)
  | name :: rest => ask_call c (PostReconnect name) (λ _ s, reconnect_each c rest total s) s
  end.
Definition _do_reconnect_all (s : cli_ui) : cli_ui * worker :=
  match active_client (u_mgr (cs_ui s)) with
  | None => (with_ui (notify "No active server connection") s, Finished)
  | Some c =>
      let names := dkeys (sm_servers (u_mgr (cs_ui s))) in
      reconnect_each c names (Z.of_nat (length names)) s
  end.

(** ** What happens *)

Record cli_app := { ct_ui : cli_ui; ct_workers : list worker }.
Definition set_cli (s : cli_ui) (t : cli_app) : cli_app := {| ct_ui := s; ct_workers := ct_workers t |}.
(** A cancelled worker: the stream notes its end if it had started. *)
Definition cancel (s : cli_ui) (w : worker) : cli_ui := match w with Streaming => with_sse false s | _ => s end.
Definition run_exclusive (k : cli_ui → cli_ui * worker) (t : cli_app) : cli_app :=
  {| ct_ui := foldl cancel (ct_ui t) (ct_workers t); ct_workers := [Waiting k] |}.
Definition _start_sse_stream (t : cli_app) : cli_app :=
  if cs_sse (ct_ui t) then t else {| ct_ui := with_sse true (ct_ui t); ct_workers := ct_workers t ++ [StreamStarts] |}.
Definition is_stream (w : worker) : bool := match w with StreamStarts | Streaming => true | _ => false end.
Definition _stop_sse_stream (t : cli_app) : cli_app :=
  if cs_sse (ct_ui t)
  then {| ct_ui := with_sse false (ct_ui t); ct_workers := (λ w, if is_stream w then Finished else w) <$> ct_workers t |}
  else t.

Definition cli_server_selected (name : string) (t : cli_app) : cli_app :=
  match set_active name (u_mgr (cs_ui (ct_ui t))) with
  | (inl _, _) => {| ct_ui := with_ui (crash "KeyError") (ct_ui t); ct_workers := ct_workers t |}
  | (inr _, m) =>
      let s := with_ui (λ u,
        let u := set_mgr m u in
        let u := write_files (u_settings_file u) (Some (save m)) u in
        on_poll (λ p, mark_seen [] (set_connected false false p)) u) (ct_ui t) in
      let t := _stop_sse_stream {| ct_ui := s; ct_workers := ct_workers t |} in
      let s := with_pace _POLL_BASE 0 (cs_timer (ct_ui t)) (ct_ui t) in
      let s :=
        match active_entry m with
        | Some e => with_ui (λ u,
            on_dash (add_event "Server Switch" ("Switched to '" +:+ name +:+ "' (" +:+ se_url e +:+ ")"))
              (on_dash (with_info (λ w, status_text (if se_connected e then "Connected" else "Connecting…") (shown_url (se_url e) w))) u)) s
        | None => s
        end in
      let t := run_exclusive cli_poll_once {| ct_ui := s; ct_workers := ct_workers t |} in
      {| ct_ui := with_ui _refresh_server_selector (ct_ui t); ct_workers := ct_workers t |}
  end.
Definition cli_message (m : message) (t : cli_app) : cli_app :=
  match m with
  | ConnectionLost reason =>
      let t := _stop_sse_stream t in {| ct_ui := with_ui (on_connection_lost reason) (ct_ui t); ct_workers := ct_workers t |}
  | ConnectionRestored => _start_sse_stream {| ct_ui := with_ui on_connection_restored (ct_ui t); ct_workers := ct_workers t |}
  | _ => {| ct_ui := with_ui (handle_message m) (ct_ui t); ct_workers := ct_workers t |}
  end.

Inductive cli_event :=
  | CliShown | CliTick | CliStarts (i : nat) | CliAnswer (i : nat) (a : answer) | CliBatch (i : nat) (r : string + BatchResponse)
  | CliBoth (i : nat) (v : option pyval) (g : option body)
  (** a message of the stream, its end, and an error of the connection, which is none of
      the errors that the loop handles *)
  | CliStream (i : nat) (d : odict string pyval) | CliStreamEnds (i : nat) | CliStreamBreaks (i : nat)
  | CliMessage | CliSelected (name : string) | CliScreen (sc : screen) | CliReconnectAll.

Definition continue (i : nat) (r : cli_ui * worker) (t : cli_app) : cli_app :=
  match r with
  | (s, ThenStream) => _start_sse_stream {| ct_ui := s; ct_workers := <[i := Finished]> (ct_workers t) |}
  | (s, w) => {| ct_ui := s; ct_workers := <[i := w]> (ct_workers t) |}
  end.
Definition cli_step (e : cli_event) (t : cli_app) : cli_app :=
  match e with
  | CliShown =>
      if u_init_done (cs_ui (ct_ui t)) then t
      else let t := run_exclusive cli_initial_connect t in set_cli (with_ui (λ u, finish true (u_end u) u) (ct_ui t)) t
  | CliTick => match cs_timer (ct_ui t) with Some _ => run_exclusive cli_poll_once t | None => t end
  | CliStarts i =>
      match ct_workers t !! i with
      | Some (Waiting k) => continue i (k (ct_ui t)) t
      | Some StreamStarts =>
          match active_client (u_mgr (cs_ui (ct_ui t))) with
          | Some _ => continue i (ct_ui t, Streaming) t
          (** it returns before the [try] *)
          | None => continue i (ct_ui t, Finished) t
          end
      | _ => t
      end
  | CliAnswer i a =>
      match ct_workers t !! i with
      | Some (Asking _ k) =>
          match a with
          | Reply b => continue i (k (inr b) (ct_ui t)) t
          | Fails reason => continue i (k (inl reason) (ct_ui t)) t
          | NotJson => set_cli (with_ui (crash "JSONDecodeError") (ct_ui t)) t
          end
      | Some (AskingBatch _) => match a with NotJson => set_cli (with_ui (crash "JSONDecodeError") (ct_ui t)) t | _ => t end
      | _ => t
      end
  | CliBatch i r => match ct_workers t !! i with Some (AskingBatch k) => continue i (k r (ct_ui t)) t | _ => t end
  | CliBoth i v g => match ct_workers t !! i with Some (AskingBoth k) => continue i (k v g (ct_ui t)) t | _ => t end
  | CliStream i d => match ct_workers t !! i with Some Streaming => set_cli (with_ui (_sse_event d) (ct_ui t)) t | _ => t end
  | CliStreamEnds i => match ct_workers t !! i with Some Streaming => continue i (with_sse false (ct_ui t), Finished) t | _ => t end
  | CliStreamBreaks i =>
      match ct_workers t !! i with
      | Some Streaming => continue i (with_ui (crash "httpx.ReadError") (with_sse false (ct_ui t)), Finished) t
      | _ => t
      end
  | CliMessage =>
      match u_posted (cs_ui (ct_ui t)) with
      | m :: rest => cli_message m (set_cli (with_ui (set_posted rest) (ct_ui t)) t)
      | [] => t
      end
  | CliSelected name => cli_server_selected name t
  | CliScreen sc => set_cli (with_ui (set_screen sc) (ct_ui t)) t
  | CliReconnectAll => run_exclusive _do_reconnect_all t
  end.
Definition cli_do (e : cli_event) (t : cli_app) : cli_app := if decide (u_end (cs_ui (ct_ui t)) = None) then cli_step e t else t.
End app.

(** ** Bounds *)

(** The interval and the timer have one of three values, and the memory of events is
    bounded and without repetitions. *)
Definition paced (z : Z) : Prop := z ∈ [2000; 4000; 8000].
Definition remembers (u : ui) : Prop := (length (pl_seen_event_ids (u_poll u)) <= _SEEN_EVENTS_MAX)%nat ∧ NoDup (pl_seen_event_ids (u_poll u)).
Record bounded (s : cli_ui) : Prop := {
  bd_interval : paced (cs_interval s);
  bd_timer : ∀ i, cs_timer s = Some i → paced i;
  bd_known : remembers (cs_ui s) }.

(** A worker that keeps an invariant whatever it is answered. *)
Inductive safe (I : cli_ui → Prop) : worker → Prop :=
  | safe_finished : safe I Finished
  | safe_waiting k : (∀ s, I s → I (k s).1 ∧ safe I (k s).2) → safe I (Waiting k)
  | safe_asking c k : (∀ r s, I s → I (k r s).1 ∧ safe I (k r s).2) → safe I (Asking c k)
  | safe_batch k : (∀ r s, I s → I (k r s).1 ∧ safe I (k r s).2) → safe I (AskingBatch k)
  | safe_both k : (∀ v g s, I s → I (k v g s).1 ∧ safe I (k v g s).2) → safe I (AskingBoth k)
  | safe_starts : safe I StreamStarts
  | safe_streaming : safe I Streaming
  | safe_then : safe I ThenStream.
#[global] Hint Constructors safe : argus.

Lemma remembers_same u u' : pl_seen_event_ids (u_poll u') = pl_seen_event_ids (u_poll u) → remembers u → remembers u'.
Proof. unfold remembers. by intros ->. Qed.
Lemma record_bounded id l : (length (_record_event_id id l) <= _SEEN_EVENTS_MAX)%nat.
Proof. unfold _record_event_id. rewrite length_drop. lia. Qed.
Lemma record_nodup id l : id ∉ l → NoDup l → NoDup (_record_event_id id l).
Proof.
  intros Hn Hl. unfold _record_event_id. eapply sublist_NoDup; [|apply sublist_drop].
  apply NoDup_app. split_and!; [done| |apply NoDup_singleton]. by intros x Hx ->%list_elem_of_singleton.
Qed.

Section bounds.
Context (SERVER_VERSION : string) (py_str : pyval → string) (connect_fails : string → option string) (hash : string → Z → Z).

Lemma remembers_show m u ev : remembers u → remembers (show_event_with py_str m u ev).
Proof.
  intros [H1 H2]. unfold show_event_with. case_bool_decide; [done|].
  assert (pl_seen_event_ids (u_poll (match m with
    | Some m => post m (on_dash (add_entry (event_entry py_str ev)) (on_poll (mark_seen (_record_event_id (ev_id ev) (pl_seen_event_ids (u_poll u)))) u))
    | None => on_dash (add_entry (event_entry py_str ev)) (on_poll (mark_seen (_record_event_id (ev_id ev) (pl_seen_event_ids (u_poll u)))) u)
    end)) = _record_event_id (ev_id ev) (pl_seen_event_ids (u_poll u))) as E.
  { destruct m; simpl; by rewrite on_dash_poll. }
  split; rewrite E; [apply record_bounded|by apply record_nodup].
Qed.
Lemma remembers_events l u : remembers u → remembers (show_events py_str l u).
Proof.
  intros H. unfold show_events. assert (∀ u, remembers u → remembers (foldl (show_event py_str) u l)) as Hf; [|by apply Hf].
  clear. induction l as [|ev l IH]; intros u H; [done|]. simpl. by apply IH, remembers_show.
Qed.
Lemma remembers_stream d u : remembers u → remembers (_sse_event py_str d u).
Proof.
  intros H. unfold _sse_event. case_bool_decide; [|by apply remembers_show].
  eapply remembers_same; [|exact H]. destruct (streamed_sync _ d); simpl; by rewrite on_dash_poll.
Qed.
Lemma remembers_batch name b u : remembers u → remembers (apply_batch SERVER_VERSION py_str name b u).
Proof.
  intros H. unfold apply_batch, _apply_backends_response. eapply remembers_same; [by rewrite on_dash_poll|]. apply remembers_events.
  set (u1 := _apply_status_response SERVER_VERSION (ba_status b) u).
  assert (pl_seen_event_ids (u_poll u1) = pl_seen_event_ids (u_poll u)) as E1 by (unfold u1, _apply_status_response; by rewrite !on_dash_poll).
  set (u2 := if pl_connected (u_poll u1) then u1 else _).
  assert (pl_seen_event_ids (u_poll u2) = pl_seen_event_ids (u_poll u)) as E2 by (unfold u2; by destruct (pl_connected (u_poll u1))).
  cbv zeta. destruct (pl_caps_loaded (u_poll u2)); [by eapply remembers_same|]. eapply remembers_same; [|exact H].
  rewrite <-E2. unfold _apply_capabilities_response. simpl. by rewrite !on_dash_poll.
Qed.

Lemma bounded_ui f s : (remembers (cs_ui s) → remembers (f (cs_ui s))) → bounded s → bounded (with_ui f s).
Proof. intros Hf [H1 H2 H3]. split; simpl; auto. Qed.
Lemma bounded_same f s : pl_seen_event_ids (u_poll (f (cs_ui s))) = pl_seen_event_ids (u_poll (cs_ui s)) → bounded s → bounded (with_ui f s).
Proof. intros E. apply bounded_ui. by apply remembers_same. Qed.
Lemma bounded_sse b s : bounded s → bounded (with_sse b s).
Proof. intros []. by split. Qed.
Lemma paced_adapt h s : paced (cs_interval s) → paced (if h =? cs_hash s then Z.min (cs_interval s * 2) _POLL_MAX else _POLL_BASE).
Proof.
  unfold paced, _POLL_MAX, _POLL_BASE. intros H. destruct (h =? cs_hash s); [|left].
  apply elem_of_cons in H as [->|[->|[->|[]%not_elem_of_nil]%elem_of_cons]%elem_of_cons]; vm_compute; repeat constructor.
Qed.
Lemma bounded_adapt h s : bounded s → bounded (adapt h s).
Proof.
  intros [H1 H2 H3]. unfold adapt. pose proof (paced_adapt h s H1) as Hp. cbv zeta.
  destruct (_ =? cs_interval s); split; simpl; try done. by intros i [= <-].
Qed.
#[local] Hint Resolve bounded_sse bounded_adapt : tui.

Abbreviation keeps r := (bounded r.1 ∧ safe bounded r.2).

Lemma keeps_finished s : bounded s → keeps (s, Finished).
Proof. intros H. split; [done|constructor]. Qed.
Lemma keeps_call c r k s : (∀ a s, bounded s → keeps (k a s)) → bounded s → keeps (ask_call c r k s).
Proof. intros Hk H. unfold ask_call. destruct (api_is_connected _ _); [|by apply Hk]. split; [done|]. by constructor. Qed.
Lemma keeps_ends h s : bounded s → keeps (poll_ends h s).
Proof. intros H. apply keeps_finished, bounded_same; [|by apply bounded_adapt]. unfold _refresh_server_selector. by rewrite on_dash_poll. Qed.
Lemma keeps_batch name c s : bounded s → keeps (poll_batch SERVER_VERSION py_str hash name c s).
Proof.
  intros H. unfold poll_batch, ask_batch.
  assert (∀ r s, bounded s → keeps (match r with
    | inl reason => batch_failed name reason s
    | inr b => (with_ui (apply_batch SERVER_VERSION py_str name b) s,
        AskingBoth (λ v g s, poll_ends (hash (sr_state (ba_status b)) (sr_backend_count (ba_status b))) (with_ui (keep_results v g) s)))
    end)) as Hk.
  { clear s H. intros [reason|b] s H.
    - apply keeps_ends. by apply bounded_same.
    - split; [apply bounded_ui; [by apply remembers_batch|done]|]. constructor. intros v g s' H'. apply keeps_ends. by apply bounded_same. }
  destruct (api_is_connected _ _); [|exact (Hk (inl _) s H)]. split; [done|]. by constructor.
Qed.
Lemma keeps_poll s : bounded s → keeps (cli_poll_once SERVER_VERSION py_str connect_fails hash s).
Proof.
  intros H. unfold cli_poll_once. cbv zeta. destruct (active_entry _) as [e|]; [|by apply keeps_finished].
  destruct (connected_client e _) as [c|]; [by apply keeps_batch|].
  destruct (connect true _ _ _) as [[x|x] m]; [by apply keeps_finished, bounded_same|].
  destruct (active_client m) as [c|]; [by apply keeps_batch, bounded_same|by apply keeps_finished, bounded_same].
Qed.
Lemma keeps_timer s : bounded s → keeps (starts_timer s).
Proof.
  intros [H1 H2 H3]. split; [split; simpl; try done; by intros i [= <-]|]. simpl. destruct (pl_connected _); constructor.
Qed.
Lemma keeps_fails reason s : bounded s → keeps (first_fails reason s).
Proof. intros H. by apply keeps_timer, bounded_same. Qed.
Lemma keeps_checked {A} path (f : body → option A) ok r s : (∀ x s, bounded s → keeps (ok x s)) → bounded s → keeps (checked path f ok r s).
Proof. intros Hok H. unfold checked. destruct r as [|b]; [by apply keeps_fails|]. destruct (f b); [by apply Hok|by apply keeps_fails]. Qed.
Lemma keeps_fetch c s : bounded s → keeps (first_fetch SERVER_VERSION py_str c s).
Proof.
  intros H. unfold first_fetch. apply keeps_call; [|done]. clear s H. intros r s H. apply keeps_checked; [|done]. clear. intros _ s H.
  apply keeps_call; [|by apply bounded_same]. clear. intros r s H. apply keeps_checked; [|done]. clear. intros status s H.
  apply keeps_call; [|apply bounded_same; [|done]; unfold _apply_status_response; by rewrite !on_dash_poll].
  clear. intros r s H. apply keeps_checked; [|done]. clear. intros caps s H.
  apply keeps_call; [|apply bounded_same; [|done]; unfold _apply_capabilities_response; simpl; by rewrite !on_dash_poll].
  clear. intros r s H. apply keeps_checked; [|done]. clear. intros l s H.
  apply keeps_timer, bounded_ui; [by apply remembers_events|done].
Qed.
Lemma keeps_initial s : bounded s → keeps (cli_initial_connect SERVER_VERSION py_str connect_fails s).
Proof.
  intros H. unfold cli_initial_connect. destruct (connect_all _ _ _) as [results m].
  assert (bounded (with_ui (λ u, _refresh_server_selector (set_mgr m u)) s)) as H1.
  { apply bounded_same; [|done]. unfold _refresh_server_selector. by rewrite on_dash_poll. }
  cbv zeta. destruct (active_client m) as [c|]; [by apply keeps_fetch|]. by apply keeps_timer, bounded_same.
Qed.
Lemma keeps_reconnect s : bounded s → keeps (_do_reconnect_all s).
Proof.
  intros H. unfold _do_reconnect_all. destruct (active_client _) as [c|]; [|by apply keeps_finished, bounded_same].
  generalize (Z.of_nat (length (dkeys (sm_servers (u_mgr (cs_ui s)))))) as total. intros total.
  generalize (dkeys (sm_servers (u_mgr (cs_ui s)))) as names. intros names. revert s H.
  induction names as [|n names IH]; intros s H; simpl; [by apply keeps_finished, bounded_same|].
  apply keeps_call; [|done]. intros a s' H'. by apply IH.
Qed.

(** The whole application. *)
Definition in_bounds (t : cli_app) : Prop := bounded (ct_ui t) ∧ Forall (safe bounded) (ct_workers t).
Abbreviation cdo := (cli_do SERVER_VERSION py_str connect_fails hash).

Lemma in_bounds_exclusive k t : (∀ s, bounded s → keeps (k s)) → in_bounds t → in_bounds (run_exclusive k t).
Proof.
  intros Hk [H1 H2]. split; simpl; [|constructor; [by constructor|done]].
  clear Hk H2. revert H1. generalize (ct_ui t). induction (ct_workers t) as [|w ws IH]; intros s H; simpl; [done|].
  apply IH. destruct w; simpl; auto with tui.
Qed.
Lemma in_bounds_start t : in_bounds t → in_bounds (_start_sse_stream t).
Proof.
  intros [H1 H2]. unfold _start_sse_stream. destruct (cs_sse _); [done|]. split; simpl; [auto with tui|].
  apply Forall_app. split; [done|]. constructor; [constructor|done].
Qed.
Lemma in_bounds_stop t : in_bounds t → in_bounds (_stop_sse_stream t).
Proof.
  intros [H1 H2]. unfold _stop_sse_stream. destruct (cs_sse _); [|done]. split; simpl; [auto with tui|].
  apply Forall_fmap. eapply Forall_impl; [exact H2|]. intros w Hw. simpl. destruct (is_stream w); [constructor|done].
Qed.
Lemma in_bounds_set s t : bounded s → in_bounds t → in_bounds (set_cli s t).
Proof. intros H [_ H2]. by split. Qed.
Lemma in_bounds_continue i r t : keeps r → in_bounds t → in_bounds (continue i r t).
Proof.
  intros [H1 H2] [_ Hw]. destruct r as [s w]. simpl in *.
  destruct w; try (split; [done|]; by apply Forall_insert). apply in_bounds_start. split; [done|]. by apply Forall_insert; [|constructor].
Qed.

Lemma in_bounds_message m t : in_bounds t → in_bounds (cli_message m t).
Proof.
  intros H. destruct m; simpl.
  - apply in_bounds_set; [|by apply in_bounds_stop]. apply bounded_same; [|apply (in_bounds_stop t H)].
    unfold on_connection_lost. simpl. by rewrite !on_dash_poll.
  - apply in_bounds_start, in_bounds_set; [|done]. apply bounded_same; [|apply H].
    unfold on_connection_restored. by rewrite !on_dash_poll.
  - apply in_bounds_set; [|done]. apply bounded_same; [|apply H]. unfold handle_message, on_config_sync_update. by case_decide.
Qed.
Lemma in_bounds_select name t : in_bounds t → in_bounds (cli_server_selected SERVER_VERSION py_str connect_fails hash name t).
Proof.
  intros H. unfold cli_server_selected. destruct (set_active name _) as [[|] m]; [by apply in_bounds_set; [apply bounded_same; [|apply H]|]|].
  cbv zeta. set (t1 := _stop_sse_stream _).
  assert (in_bounds t1) as [B1 W1].
  { apply in_bounds_stop, in_bounds_set; [|done]. apply bounded_ui; [|apply H]. intros _. split; simpl; [lia|apply NoDup_nil_2]. }
  set (s2 := match active_entry m with Some _ => _ | None => _ end).
  assert (bounded s2) as B2.
  { assert (bounded (with_pace _POLL_BASE 0 (cs_timer (ct_ui t1)) (ct_ui t1))) as B by (destruct B1; split; simpl; try done; left).
    unfold s2. destruct (active_entry m); [|done]. apply bounded_same; [|done]. by rewrite !on_dash_poll. }
  assert (in_bounds (run_exclusive (cli_poll_once SERVER_VERSION py_str connect_fails hash) {| ct_ui := s2; ct_workers := ct_workers t1 |})) as [B3 W3].
  { apply in_bounds_exclusive; [apply keeps_poll|by split]. }
  split; [|done]. apply bounded_same; [|done]. unfold _refresh_server_selector. by rewrite on_dash_poll.
Qed.

Lemma safe_lookup t i w : in_bounds t → ct_workers t !! i = Some w → safe bounded w.
Proof. intros [_ Hw] E. by apply (proj1 (Forall_lookup _ _) Hw i). Qed.
Lemma in_bounds_do e t : in_bounds t → in_bounds (cdo e t).
Proof.
  intros H. unfold cli_do. case_decide; [|done]. pose proof H as [Hb _].
  destruct e as [| |i|i a|i r|i v g|i d|i|i| |name|sc|]; cbn [cli_step].
  - destruct (u_init_done _); [done|].
    assert (in_bounds (run_exclusive (cli_initial_connect SERVER_VERSION py_str connect_fails) t)) as H1 by (by apply in_bounds_exclusive; [apply keeps_initial|]).
    apply in_bounds_set; [|done]. apply bounded_same; [done|apply H1].
  - destruct (cs_timer _); [|done]. by apply in_bounds_exclusive; [apply keeps_poll|].
  - destruct (ct_workers t !! i) as [w|] eqn:E; [|done]. pose proof (safe_lookup t i w H E) as Hw.
    destruct w; try done; [apply in_bounds_continue; [|done]; inversion Hw; auto|].
    destruct (active_client _); apply in_bounds_continue; try done; split; try done; constructor.
  - destruct (ct_workers t !! i) as [w|] eqn:E; [|done]. pose proof (safe_lookup t i w H E) as Hw.
    assert (in_bounds (set_cli (with_ui (crash "JSONDecodeError") (ct_ui t)) t)) as Hc by (by apply in_bounds_set; [apply bounded_same|]).
    destruct w; try done; [|by destruct a]. inversion Hw. destruct a; try done; apply in_bounds_continue; auto.
  - destruct (ct_workers t !! i) as [w|] eqn:E; [|done]. pose proof (safe_lookup t i w H E) as Hw.
    destruct w; try done. inversion Hw. apply in_bounds_continue; auto.
  - destruct (ct_workers t !! i) as [w|] eqn:E; [|done]. pose proof (safe_lookup t i w H E) as Hw.
    destruct w; try done. inversion Hw. apply in_bounds_continue; auto.
  - destruct (ct_workers t !! i) as [[]|]; try done. apply in_bounds_set; [|done]. apply bounded_ui; [apply remembers_stream|done].
  - destruct (ct_workers t !! i) as [[]|]; try done. apply (in_bounds_continue i (_, Finished)); [|done]. split; [by apply bounded_sse|constructor].
  - destruct (ct_workers t !! i) as [[]|]; try done. apply (in_bounds_continue i (_, Finished)); [|done].
    split; [apply bounded_same; [done|by apply bounded_sse]|constructor].
  - destruct (u_posted _) as [|m rest]; [done|]. apply in_bounds_message, in_bounds_set; [|done]. by apply bounded_same.
  - by apply in_bounds_select.
  - apply in_bounds_set; [|done]. by apply bounded_same.
  - by apply in_bounds_exclusive; [apply keeps_reconnect|].
Qed.

Definition new_cli (u : ui) : cli_app :=
  {| ct_ui := {| cs_ui := u; cs_interval := _POLL_BASE; cs_hash := 0; cs_sse := false; cs_timer := None |}; ct_workers := [] |}.

(** Whatever happens, the interval and the timer stay between two and eight seconds (at
    one of three values), and the memory of events holds at most ten thousand, none
    twice. *)
Theorem cli_in_bounds u es t : pl_seen_event_ids (u_poll u) = [] → steps (λ t e t', t' = cdo e t) (new_cli u) es t →
  paced (cs_interval (ct_ui t)) ∧ (∀ i, cs_timer (ct_ui t) = Some i → paced i) ∧ remembers (cs_ui (ct_ui t)).
Proof.
  intros Hu Hs. assert (in_bounds t) as [[H1 H2 H3] _]; [|done].
  refine (steps_invariant _ in_bounds _ _ _ _ Hs _); [by intros ? ? ? ? ->; apply in_bounds_do|].
  split; [|constructor]. split; simpl; [left|done|]. split; simpl; rewrite Hu; [simpl; lia|apply NoDup_nil_2].
Qed.

(** ** Where the pace is not what it is meant to be *)

(** A second failure in a row doubles the interval, although errors are said to bring
    back fast polling. *)
Lemma failures_slow_polling name reason s : cs_hash s = 0 → paced (cs_interval s) →
  cs_interval (batch_failed name reason s).1 = Z.min (cs_interval s * 2) _POLL_MAX.
Proof.
  intros Hh Hp. unfold batch_failed, poll_ends, adapt. simpl. rewrite Hh. simpl. unfold _POLL_MAX.
  destruct (_ =? _) eqn:E; simpl; [|done]. lia.
Qed.

(** Switching the server resets the attribute but not the timer, which goes on with the
    interval it has. *)
Lemma switch_keeps_timer name t : u_end (cs_ui (ct_ui t)) = None → name ∈ dkeys (sm_servers (u_mgr (cs_ui (ct_ui t)))) →
  cs_interval (ct_ui (cdo (CliSelected name) t)) = _POLL_BASE ∧ cs_timer (ct_ui (cdo (CliSelected name) t)) = cs_timer (ct_ui t).
Proof.
  intros He Hn. unfold cli_do. rewrite decide_True by done. simpl. unfold cli_server_selected, set_active.
  apply dmem_spec in Hn. rewrite Hn. simpl.
  assert (∀ ws s, cs_interval (foldl cancel s ws) = cs_interval s ∧ cs_timer (foldl cancel s ws) = cs_timer s) as Hc.
  { clear. induction ws as [|w ws IH]; intros s; [done|]. simpl. destruct (IH (cancel s w)) as [-> ->]. by destruct w. }
  rewrite !(proj1 (Hc _ _)), !(proj2 (Hc _ _)). unfold _stop_sse_stream. simpl. destruct (active_entry _), (cs_sse (ct_ui t)); done.
Qed.

(** A tick of the timer ends the stream of events, which nothing starts again while the
    connection stays up. *)
Lemma tick_ends_stream t i : u_end (cs_ui (ct_ui t)) = None → cs_timer (ct_ui t) = Some i →
  ct_workers (cdo CliTick t) = [Waiting (cli_poll_once SERVER_VERSION py_str connect_fails hash)] ∧
  (Streaming ∈ ct_workers t → cs_sse (ct_ui (cdo CliTick t)) = false).
Proof.
  intros He Ht. unfold cli_do. rewrite decide_True by done. simpl. rewrite Ht. simpl. split; [done|].
  assert (∀ ws s, cs_sse s = false → cs_sse (foldl cancel s ws) = false) as Hk.
  { clear. induction ws as [|w ws IH]; intros s H; [done|]. simpl. apply IH. by destruct w. }
  generalize (ct_ui t). induction (ct_workers t) as [|w ws IH]; intros s Hin; [by apply not_elem_of_nil in Hin|].
  apply elem_of_cons in Hin as [<-|Hin]; simpl; [by apply Hk|by apply IH].
Qed.

(** Reconnecting all the backends asks for the servers of the interface instead. *)
Lemma reconnect_all_asks_servers s c name rest : active_client (u_mgr (cs_ui s)) = Some c → api_is_connected c (u_mgr (cs_ui s)) = true →
  dkeys (sm_servers (u_mgr (cs_ui s))) = name :: rest → ∃ k, _do_reconnect_all s = (s, Asking (PostReconnect name) k).
Proof. intros Hc Ho Hk. unfold _do_reconnect_all. rewrite Hc, Hk. simpl. unfold ask_call. rewrite Ho. eauto. Qed.
End bounds.

(** An error of the connection of the stream ends the whole interface. *)
Example stream_error_ends_interface :
  let m := (connect true None "a" (add "a" "http://a" None true new_manager)).2 in
  let u := set_mgr m (new_app "v" None None None None) in
  let t := {| ct_ui := ct_ui (new_cli u); ct_workers := [StreamStarts] |} in
  let act := cli_do "v" (λ _, "") (λ _, None) (λ _ _, 1) in
  u_end (cs_ui (ct_ui (act (CliStreamBreaks 0) (act (CliStarts 0) t)))) = Some (Crashed "httpx.ReadError").
Proof. vm_compute. reflexivity. Qed.
