(* ===== verification/ServerRegistry.v ===== *)
(** * Registries of MCP servers (registry/models.py, registry/cache.py, registry/client.py)

    The entries of public registries, their on-disk cache, and the client that
    fetches pages and falls back to the cache when the registry is unreachable.

    The n-th event outside the program (a request, a write or a read of the
    cache) is the argument [n] of the parameters: what the request answers
    ([None]: any failure, including a body that is no JSON), what the disk does,
    and the time in whole seconds.  SHA-256 is a parameter. *)
From Stdlib Require Import Ascii.
From S2P Require Import Prelude PyDict Effects PyStr Json.

Inductive reg_exc := RTypeError | RAttributeError | ROSError | RHttp.

(** [for x in v] and [v.get] *)
Definition iter_items (v : pyval) : reg_exc + list pyval :=
  match v with
  | PList l => inr l
  | PStr s => inr ((λ c, PStr (text [c])) <$> chars s)
  | PDict d => inr (PStr <$> dkeys d)
  | _ => inl RTypeError
  end.
Definition as_obj (v : pyval) : reg_exc + odict string pyval :=
  match v with PDict d => inr d | _ => inl RAttributeError end.

(** ** Models *)

Record ToolDefinition := { td_name : pyval; td_description : pyval; td_input_schema : pyval }.
Record ServerEntry := {
  se_name : pyval; se_description : pyval; se_transport : pyval; se_url : pyval; se_command : pyval;
  se_args : pyval; se_version : pyval; se_icon_url : pyval; se_categories : pyval;
  se_tools : list ToolDefinition; se_extra : odict string pyval }.

Definition tool_from (t : pyval) : option ToolDefinition :=
  match t with
  | PDict d => Some {| td_name := get_or d "name" (PStr ""); td_description := get_or d "description" (PStr "");
                       td_input_schema := py_or (get_or d "inputSchema" PNone)
                                            (py_or (get_or d "input_schema" PNone) (PDict [])) |}
  | _ => None
  end.

Definition known_keys : list string :=
  ["name"; "description"; "transport"; "url"; "command"; "args"; "version"; "icon_url"; "categories"; "tools"].
Definition unknown (kv : string * pyval) : bool := negb (bool_decide (kv.1 ∈ known_keys)).

(** [ServerEntry.from_dict] *)
Definition entry_from_dict (data : odict string pyval) : reg_exc + ServerEntry :=
  raw ← iter_items (py_or (get_or data "tools" PNone) (PList []));
  inr {| se_name := get_or data "name" (PStr ""); se_description := get_or data "description" (PStr "");
         se_transport := get_or data "transport" (PStr "stdio"); se_url := get_or data "url" (PStr "");
         se_command := get_or data "command" (PStr ""); se_args := py_or (get_or data "args" PNone) (PList []);
         se_version := get_or data "version" (PStr ""); se_icon_url := get_or data "icon_url" (PStr "");
         se_categories := py_or (get_or data "categories" PNone) (PList []); se_tools := omap tool_from raw;
         se_extra := keep unknown data |}.

(** [ServerEntry.from_dict(e)] of any value *)
Definition read_entry (e : pyval) : reg_exc + ServerEntry := o ← as_obj e; entry_from_dict o.

Definition is_text (v : pyval) (s : string) : bool := match v with PStr s' => bool_decide (s' = s) | _ => false end.

Definition to_backend_config (e : ServerEntry) : reg_exc + odict string pyval :=
  if is_text (se_transport e) "stdio" then
    let cfg := [("type", PStr "stdio"); ("command", se_command e)] in
    if truthy (se_args e) then args ← iter_items (se_args e); inr (cfg ++ [("args", PList args)]) else inr cfg
  else if is_text (se_transport e) "sse" || is_text (se_transport e) "streamable-http"
  then inr [("type", se_transport e); ("url", se_url e)]
  else if truthy (se_url e) then inr [("type", PStr "streamable-http"); ("url", se_url e)]
  else inr [("type", PStr "stdio"); ("command", se_command e)].

Record ServerPage := { sp_servers : list ServerEntry; sp_next_cursor : pyval; sp_total : pyval }.

(** [_entry_to_dict] *)
Definition tool_to_dict (t : ToolDefinition) : pyval :=
  PDict [("name", td_name t); ("description", td_description t); ("input_schema", td_input_schema t)].
Definition _entry_to_dict (e : ServerEntry) : reg_exc + pyval :=
  args ← iter_items (se_args e);
  categories ← iter_items (se_categories e);
  inr (PDict (dupdate
    [("name", se_name e); ("description", se_description e); ("transport", se_transport e); ("url", se_url e);
     ("command", se_command e); ("args", PList args); ("version", se_version e); ("icon_url", se_icon_url e);
     ("categories", PList categories); ("tools", PList (tool_to_dict <$> se_tools e))] (se_extra e))).

(** ** Parsing of pages *)

Inductive RegistryType := Glama | Smithery | Generic.

Definition _detect_type (url : string) : RegistryType :=
  if contains (lower url) "glama.ai" then Glama
  else if contains (lower url) "smithery.ai" then Smithery else Generic.

Definition with_cursor (params : odict string pyval) (key : string) (cursor : pyval) : odict string pyval :=
  if truthy cursor then params ++ [(key, cursor)] else params.
Definition _list_params (rtype : RegistryType) (limit : Z) (cursor : pyval) : odict string pyval :=
  match rtype with
  | Glama => with_cursor [("first", PInt limit)] "after" cursor
  | Smithery => with_cursor [("pageSize", PInt limit)] "page" cursor
  | Generic => with_cursor [("limit", PInt limit)] "cursor" cursor
  end.
Definition _search_params (rtype : RegistryType) (query : string) (limit : Z) : odict string pyval :=
  match rtype with
  | Glama => [("query", PStr query); ("first", PInt limit)]
  | Smithery => [("q", PStr query); ("pageSize", PInt limit)]
  | Generic => [("q", PStr query); ("limit", PInt limit)]
  end.
Definition _server_path (rtype : RegistryType) : string :=
  match rtype with Glama => "/v1/servers" | Smithery => "/servers" | Generic => "/v0.1/servers" end.

(** ["hosting:remote-capable" in attrs] *)
Definition _glama_transport (server : odict string pyval) : reg_exc + string :=
  let remote := "hosting:remote-capable" in
  b ← match py_or (get_or server "attributes" PNone) (PList []) with
      | PStr s => inr (contains s remote)
      | PList l => inr (existsb (λ v, is_text v remote) l)
      | PDict d => inr (dmem d remote)
      | _ => inl RTypeError
      end;
  inr (if b : bool then "streamable-http" else "stdio").
Definition _glama_categories (server : odict string pyval) : reg_exc + list pyval :=
  attrs ← iter_items (py_or (get_or server "attributes" PNone) (PList []));
  names ← map_each (λ a, match a with PStr s => inr s | _ => inl RAttributeError end) attrs;
  inr (PStr <$> keep (λ a, negb (startswith a "hosting:")) names).

Definition _entry_from_raw (rtype : RegistryType) (server : pyval) : reg_exc + ServerEntry :=
  s ← as_obj server;
  match rtype with
  | Glama =>
      transport ← _glama_transport s;
      categories ← _glama_categories s;
      entry_from_dict
        [("name", get_or s "name" (PStr "")); ("description", get_or s "description" (PStr ""));
         ("url", get_or s "url" (PStr "")); ("icon_url", get_or s "iconUrl" (PStr "")); ("version", PStr "");
         ("transport", PStr transport); ("tools", py_or (get_or s "tools" PNone) (PList []));
         ("categories", PList categories); ("_source", PStr "glama"); ("namespace", get_or s "namespace" (PStr ""));
         ("slug", get_or s "slug" (PStr "")); ("repository", get_or s "repository" PNone)]
  | Smithery =>
      entry_from_dict
        [("name", py_or (get_or s "displayName" PNone) (get_or s "qualifiedName" (PStr "")));
         ("description", get_or s "description" (PStr "")); ("url", get_or s "homepage" (PStr ""));
         ("icon_url", get_or s "iconUrl" (PStr "")); ("version", PStr "");
         ("transport", PStr (if truthy (get_or s "remote" PNone) then "streamable-http" else "stdio"));
         ("tools", PList []); ("categories", PList []); ("_source", PStr "smithery");
         ("qualifiedName", get_or s "qualifiedName" (PStr "")); ("namespace", get_or s "namespace" (PStr ""));
         ("slug", get_or s "slug" (PStr "")); ("verified", get_or s "verified" (PBool false));
         ("useCount", get_or s "useCount" (PInt 0))]
  | Generic => entry_from_dict s
  end.

(** The cursor and the total of a page.  Page numbers of Smithery that are no
    numbers are a [TypeError]. *)
Definition page_cursor (rtype : RegistryType) (data : odict string pyval) : reg_exc + (pyval * pyval) :=
  match rtype with
  | Glama =>
      info ← as_obj (get_or data "pageInfo" (PDict []));
      inr (if truthy (get_or info "hasNextPage" PNone) then get_or info "endCursor" PNone else PNone, PNone)
  | Smithery =>
      p ← as_obj (get_or data "pagination" (PDict []));
      match as_num (get_or p "currentPage" (PInt 1)), as_num (get_or p "totalPages" (PInt 1)) with
      | Some current, Some total_pages =>
          inr (if current <? total_pages then PStr (str_of_int (current + 1)) else PNone, get_or p "totalCount" PNone)
      | _, _ => inl RTypeError
      end
  | Generic => inr (py_or (get_or data "next_cursor" PNone) (get_or data "nextCursor" PNone), get_or data "total" PNone)
  end.

Definition is_dict (v : pyval) : bool := match v with PDict _ => true | _ => false end.
(** [item.get("server", item)] of a dictionary *)
Definition server_of (item : pyval) : pyval := match item with PDict d => get_or d "server" item | _ => item end.

Definition _parse_page (rtype : RegistryType) (body : pyval) : reg_exc + ServerPage :=
  data ← as_obj body;
  raw ← iter_items (py_or (get_or data "servers" PNone) (py_or (get_or data "items" PNone) (PList [])));
  entries ← map_each (λ item, _entry_from_raw rtype (server_of item)) (keep is_dict raw);
  c ← page_cursor rtype data;
  inr {| sp_servers := entries; sp_next_cursor := c.1; sp_total := c.2 |}.

(** ** Cache and client *)

(** What happens to a write: the directory cannot be made, the file cannot be
    written (and keeps its text or is left with part of the new one), or the
    write succeeds. *)
Inductive disk_outcome := MkdirFails | WriteFails (left : option string) | Writes.

Record reg_state := { r_files : gmap string string; r_sent : list (string * odict string pyval); r_tick : nat }.
Definition tick (s : reg_state) : reg_state := {| r_files := r_files s; r_sent := r_sent s; r_tick := S (r_tick s) |}.
Definition set_file (path text : string) (s : reg_state) : reg_state :=
  {| r_files := <[path := text]> (r_files s); r_sent := r_sent s; r_tick := r_tick s |}.
Abbreviation rm := (M reg_state reg_exc) (only parsing).
Definition lift_r {A} (r : reg_exc + A) : rm A := λ s, (r, s).

Definition cache_payload (url : string) (now : Z) (entries : list pyval) : pyval :=
  PDict [("registry_url", PStr url); ("fetched_at", PInt now); ("entries", PList entries)].

Section client.
Context (sha256 : string → string) (answer : nat → option pyval) (disk : nat → disk_outcome) (readable : nat → bool)
  (clock : nat → Z).

(** The name of a file in the cache directory.  The digest is a word of
    hexadecimal digits, so the path cannot leave the directory. *)
Definition cache_path (url : string) : string := sha256 url +:+ ".json".

(** [RegistryCache._read]: [PNone] is [None], as for a file that says [null]. *)
Definition _read (path : string) (s : reg_state) : pyval :=
  match r_files s !! path with
  | None => PNone
  | Some t => if readable (r_tick s) then default PNone (loads t) else PNone
  end.

Definition cached_entries (payload : pyval) : reg_exc + option (list ServerEntry) :=
  match payload with
  | PNone => inr None
  | _ => d ← as_obj payload;
         raw ← iter_items (get_or d "entries" (PList []));
         entries ← map_each read_entry raw;
         inr (Some entries)
  end.
Definition cache_get (url : string) : rm (option (list ServerEntry)) := λ s,
  (cached_entries (_read (cache_path url) s), tick s).

(** The directory is made before the payload is built. *)
Definition cache_put (url : string) (entries : list ServerEntry) : rm () := λ s,
  let n := r_tick s in
  match disk n with
  | MkdirFails => (inl ROSError, tick s)
  | d =>
      match map_each _entry_to_dict entries with
      | inl e => (inl e, tick s)
      | inr l =>
          let t := dumps (Some 2%nat) (cache_payload url (clock n) l) in
          (inr (), tick match d with
                        | WriteFails None => s
                        | WriteFails (Some part) => set_file (cache_path url) part s
                        | _ => set_file (cache_path url) t s
                        end)
      end
  end.

Definition is_fresh (ttl : Z) (url : string) : rm bool := λ s,
  (match _read (cache_path url) s with
   | PNone => inr false
   | payload => d ← as_obj payload;
                match as_num (get_or d "fetched_at" (PInt 0)) with
                | Some t => inr (clock (r_tick s) - t <? ttl)
                | None => inl RTypeError
                end
   end, tick s).

Definition cache_clear (url : option string) (s : reg_state) : reg_state :=
  let keep_files P := {| r_files := filter (λ kv, P kv.1 = true) (r_files s); r_sent := r_sent s; r_tick := r_tick s |} in
  match url with
  | Some u => if bool_decide (u = "") then keep_files (λ f, negb (endswith f ".json"))
              else keep_files (λ f, negb (bool_decide (f = cache_path u)))
  | None => keep_files (λ f, negb (endswith f ".json"))
  end.

(** [client.get(...)], [raise_for_status()] and [resp.json()] *)
Definition http_get (path : string) (params : odict string pyval) : rm pyval := λ s,
  (match answer (r_tick s) with Some body => inr body | None => inl RHttp end,
   {| r_files := r_files s; r_sent := r_sent s ++ [(path, params)]; r_tick := S (r_tick s) |}).

Record RegistryClient := { rc_base_url : string; rc_rtype : RegistryType; rc_cache : bool }.
Definition new_registry_client (base_url : string) (rtype : option RegistryType) (cache : bool) : RegistryClient :=
  let base := rstrip_by (λ c, Nat.eqb (nat_of_ascii c) 47) base_url in
  {| rc_base_url := base; rc_rtype := default (_detect_type base) rtype; rc_cache := cache |}.

Definition empty_page (entries : list ServerEntry) : ServerPage :=
  {| sp_servers := entries; sp_next_cursor := PNone; sp_total := PNone |}.
Definition _fallback_page (c : RegistryClient) : rm ServerPage :=
  if rc_cache c then entries ← cache_get (rc_base_url c); mret (empty_page (default [] entries)) else mret (empty_page []).

(** Any exception of the request, of the parsing or of the cache is caught; the
    fallback is outside the [try]. *)
Definition list_servers (c : RegistryClient) (cursor : pyval) (limit : Z) : rm ServerPage :=
  try_except
    (body ← http_get (_server_path (rc_rtype c)) (_list_params (rc_rtype c) limit cursor);
     page ← lift_r (_parse_page (rc_rtype c) body);
     _ ← (if rc_cache c && negb (truthy cursor) then cache_put (rc_base_url c) (sp_servers page) else mret ());
     mret page)
    (λ _, _fallback_page c).

Fixpoint list_pages (c : RegistryClient) (limit : Z) (left : nat) (cursor : pyval) (acc : list ServerEntry)
  : rm (list ServerEntry) :=
  match left with
  | O => mret acc
  | S left' =>
      page ← list_servers c cursor limit;
      if truthy (sp_next_cursor page) then list_pages c limit left' (sp_next_cursor page) (acc ++ sp_servers page)
      else mret (acc ++ sp_servers page)
  end.
Definition list_all_servers (c : RegistryClient) (limit : Z) (max_pages : nat) : rm (list ServerEntry) :=
  all ← list_pages c limit max_pages PNone [];
  _ ← (if rc_cache c && negb (bool_decide (length all = 0%nat)) then cache_put (rc_base_url c) all else mret ());
  mret all.

Definition _fallback_server (c : RegistryClient) (name : string) : rm (option ServerEntry) :=
  page ← _fallback_page c;
  mret (List.find (λ e, is_text (se_name e) name) (sp_servers page)).
Definition get_server (c : RegistryClient) (name : string) : rm (option ServerEntry) :=
  try_except
    (body ← http_get (_server_path (rc_rtype c) +:+ "/" +:+ name) [];
     entry ← lift_r (_entry_from_raw (rc_rtype c) body);
     mret (Some entry))
    (λ _, _fallback_server c name).

(** [q in s.name.lower() or q in s.description.lower()] *)
Definition entry_matches (q : string) (e : ServerEntry) : reg_exc + bool :=
  match se_name e with
  | PStr n => if contains (lower n) q then inr true
              else match se_description e with PStr d => inr (contains (lower d) q) | _ => inl RAttributeError end
  | _ => inl RAttributeError
  end.
Definition search (c : RegistryClient) (query : string) (limit : Z) : rm (list ServerEntry) :=
  try_except
    (body ← http_get (_server_path (rc_rtype c)) (_search_params (rc_rtype c) query limit);
     page ← lift_r (_parse_page (rc_rtype c) body);
     mret (sp_servers page))
    (λ _, page ← _fallback_page c;
          flags ← lift_r (map_each (λ e, b ← entry_matches (lower query) e; inr (e, b)) (sp_servers page));
          mret ((keep snd flags).*1)).
End client.

(** ** Entries survive the cache *)

Definition is_list (v : pyval) : Prop := match v with PList _ => True | _ => False end.
Definition tool_ok (t : ToolDefinition) : Prop :=
  pv_wf (td_name t) ∧ pv_wf (td_description t) ∧ pv_wf (td_input_schema t) ∧
  py_or (td_input_schema t) (PDict []) = td_input_schema t.
(** An entry as parsed from JSON, with lists where lists belong. *)
Definition entry_ok (e : ServerEntry) : Prop :=
  Forall pv_wf [se_name e; se_description e; se_transport e; se_url e; se_command e; se_args e; se_version e;
                se_icon_url e; se_categories e] ∧
  is_list (se_args e) ∧ is_list (se_categories e) ∧ Forall tool_ok (se_tools e) ∧
  dict_wf (se_extra e) ∧ Forall (λ kv, pv_wf kv.2) (se_extra e) ∧ Forall (λ kv, unknown kv = true) (se_extra e).

Lemma py_or_wf a b : pv_wf a → pv_wf b → pv_wf (py_or a b).
Proof. unfold py_or. by destruct (truthy a). Qed.
Lemma get_or_wf d k v : Forall (λ kv, pv_wf kv.2) d → pv_wf v → pv_wf (get_or d k v).
Proof.
  intros Hd Hv. unfold get_or. destruct (dget d k) as [x|] eqn:E; [|done]. apply dget_Some_elem in E.
  rewrite Forall_forall in Hd. by apply (Hd _ E).
Qed.
#[local] Hint Resolve py_or_wf get_or_wf : argus.
#[local] Hint Constructors Forall pv_wf : argus.

Lemma tool_from_ok v t : pv_wf v → tool_from v = Some t → tool_ok t.
Proof.
  intros Hv. destruct v as [| | | | |d]; try done. simpl. intros [= <-]. inversion Hv as [| | | | |? Hd Hf]; subst.
  assert (Hn : pv_wf (PDict [])) by (constructor; constructor).
  repeat split; simpl; eauto 6 with argus.
  unfold py_or. destruct (truthy (get_or d "inputSchema" PNone)) eqn:Ea; [by rewrite Ea|].
  destruct (truthy (get_or d "input_schema" PNone)) eqn:Eb; [by rewrite Eb|done].
Qed.

Lemma items_wf v l : pv_wf v → iter_items v = inr l → Forall pv_wf l.
Proof.
  destruct 1 as [| | |s|l' Hl|d Hd Hf]; try done; simpl; intros [= <-]; [|done|]; apply Forall_fmap, Forall_true;
    intros; constructor.
Qed.

(** Whatever JSON object an entry was read from, its fields are fit for the
    cache, if the arguments and the categories are lists. *)
Lemma from_dict_ok d e : pv_wf (PDict d) → entry_from_dict d = inr e → is_list (se_args e) → is_list (se_categories e) →
  entry_ok e.
Proof.
  intros Hd H Ha Hc. inversion Hd as [| | | | |? Hw Hf]; subst. unfold entry_from_dict in H. peel H as raw Hraw.
  injection H as <-. simpl in Ha, Hc.
  assert (Hraw' : Forall pv_wf raw) by (eapply items_wf; [|exact Hraw]; auto with argus).
  unfold entry_ok. cbn -[get_or py_or unknown]. split_and!; try done.
  - repeat (apply Forall_cons; split; [auto with argus|]). constructor.
  - clear -Hraw'. induction Hraw' as [|v l Hv _ IH]; simpl; [constructor|]. destruct (tool_from v) eqn:E; [|done].
    constructor; [by eapply tool_from_ok|done].
  - by apply NoDup_fmap_keep.
  - apply Forall_forall. intros kv [Hkv _]%elem_of_keep. rewrite Forall_forall in Hf. by apply Hf.
  - apply Forall_forall. by intros kv [_ Hkv]%elem_of_keep.
Qed.

Lemma tools_roundtrip l : Forall tool_ok l → omap tool_from (tool_to_dict <$> l) = l.
Proof.
  induction 1 as [|[n d i] l (_ & _ & _ & Hi) _ IH]; [done|]. simpl in *. unfold get_or. simpl.
  change (py_or PNone (py_or i (PDict []))) with (py_or i (PDict [])). rewrite Hi. f_equal. exact IH.
Qed.

Lemma py_or_list l : py_or (PList l) (PList []) = PList l.
Proof. by destruct l. Qed.

(** Writing an entry and reading it back. *)
Lemma entry_roundtrip e : entry_ok e →
  ∃ v, (_entry_to_dict e = inr v ∧ read_entry v = inr e) ∧ pv_wf v.
Proof.
  destruct e as [nm de tr ur co ar ve ic ca tl ex]. intros (Hf & Ha & Hc & Ht & Hw & Hx & Hu). simpl in *.
  destruct ar as [| | | |args|]; try done. destruct ca as [| | | |cats|]; try done.
  rewrite !Forall_cons in Hf. destruct Hf as (? & ? & ? & ? & ? & ? & ? & ? & ? & _).
  unfold _entry_to_dict, mbind, sum_bind. cbn [iter_items se_name se_description se_transport se_url se_command se_args se_version se_icon_url se_categories se_tools se_extra].
  match goal with |- context [dupdate ?k ex] => set (known := k) end.
  assert (Hkeys : dkeys known = known_keys) by done.
  assert (Hall : dict_wf (known ++ ex)).
  { unfold dict_wf, dkeys. rewrite fmap_app. apply NoDup_app. split_and!; [by_decide| |done].
    intros k Hk (kv & -> & Hkv)%list_elem_of_fmap. rewrite Forall_forall in Hu. specialize (Hu _ Hkv).
    unfold unknown in Hu. rewrite bool_decide_true in Hu; [done|]. by rewrite <-Hkeys. }
  assert (Hk : keep unknown (known ++ ex) = ex).
  { rewrite keep_app, (keep_all unknown ex) by (by apply Forall_forall).
    by replace (keep unknown known) with (@nil (string * pyval)) by (vm_compute; reflexivity). }
  rewrite dupdate_nil_app by done. eexists. split; [split; [reflexivity|]|].
  - unfold read_entry. cbn [as_obj]. unfold entry_from_dict, mbind, sum_bind. rewrite Hk. unfold get_or. simpl. rewrite !py_or_list. simpl.
    by rewrite tools_roundtrip.
  - constructor; [done|]. apply Forall_app. split; [|done].
    repeat (apply Forall_cons; split; [try done|]); [|constructor]. constructor. apply Forall_fmap.
    eapply Forall_impl; [exact Ht|]. intros [n d i] (? & ? & ? & _). constructor; [|repeat constructor; done].
    unfold dict_wf, dkeys. simpl. by_decide.
Qed.

Section facts.
Context (sha256 : string → string) (answer : nat → option pyval) (disk : nat → disk_outcome) (readable : nat → bool)
  (clock : nat → Z).
Local Abbreviation path := (cache_path sha256).
Local Abbreviation get := (cache_get sha256 readable).
Local Abbreviation put := (cache_put sha256 disk clock).
Local Abbreviation servers := (list_servers sha256 answer disk readable clock).
Local Abbreviation pages_of := (list_pages sha256 answer disk readable clock).
Local Abbreviation all_servers := (list_all_servers sha256 answer disk readable clock).

(** The cache file of a registry holds the entries, written at [t]. *)
Definition stored (url : string) (t : Z) (es : list ServerEntry) (s : reg_state) : Prop :=
  ∃ l, r_files s !! path url = Some (dumps (Some 2%nat) (cache_payload url t l)) ∧ Forall pv_wf l ∧
       map_each read_entry l = inr es.

Lemma entries_written es : Forall entry_ok es →
  ∃ l, map_each _entry_to_dict es = inr l ∧ Forall pv_wf l ∧ map_each read_entry l = inr es.
Proof.
  intros H. induction H as [|e es He _ (l & Hw & Hl & Hr)]; [exists []; by split_and!; [|constructor|]|].
  destruct (entry_roundtrip e He) as (v & [Hv Hback] & Hwf). exists (v :: l). split_and!; [|by constructor|].
  - simpl. rewrite Hv. unfold mbind, sum_bind. by rewrite Hw.
  - simpl. rewrite Hback. unfold mbind, sum_bind. by rewrite Hr.
Qed.

Lemma payload_wf url t l : Forall pv_wf l → pv_wf (cache_payload url t l).
Proof. intros Hl. constructor; [unfold dict_wf, dkeys; simpl; by_decide|]. repeat constructor; done. Qed.

Lemma put_stores url es s : Forall entry_ok es → disk (r_tick s) = Writes →
  ∃ s', put url es s = (inr (), s') ∧ stored url (clock (r_tick s)) es s' ∧ r_tick s' = S (r_tick s) ∧
        r_sent s' = r_sent s ∧ ∀ p, p ≠ path url → r_files s' !! p = r_files s !! p.
Proof.
  intros He Hd. destruct (entries_written es He) as (l & Hw & Hl & Hr). unfold cache_put. rewrite Hd, Hw.
  eexists. split; [reflexivity|]. split_and!; [|done|done|intros p Hp; simpl; by rewrite lookup_insert_ne].
  exists l. simpl. by rewrite lookup_insert_eq.
Qed.

Lemma stored_read url t es s : stored url t es s → readable (r_tick s) = true →
  ∃ l, _read readable (path url) s = cache_payload url t l ∧ map_each read_entry l = inr es.
Proof.
  intros (l & Hf & Hl & Hr) Ho. exists l. unfold _read. rewrite Hf, Ho, loads_dumps; [done|by apply payload_wf].
Qed.

Lemma stored_get url t es s : stored url t es s → readable (r_tick s) = true → get url s = (inr (Some es), tick s).
Proof.
  intros Hs Ho. destruct (stored_read _ _ _ _ Hs Ho) as (l & E & Hr). unfold cache_get. rewrite E.
  unfold cached_entries, cache_payload, mbind, sum_bind. cbn [as_obj].
  replace (get_or _ "entries" _) with (PList l) by done. cbn [iter_items]. by rewrite Hr.
Qed.

(** The registry cache gives back what was put.  After a write that succeeds,
    reading the file gives the same entries, for any entries parsed from JSON;
    they count as fresh exactly while less than the time to live has passed; and
    the entries of registries with another digest are untouched. *)
Theorem registry_cache_roundtrip (url : string) (es : list ServerEntry) (s : reg_state) (ttl : Z)
    (Hes : Forall entry_ok es) (Hdisk : disk (r_tick s) = Writes) (Hread : readable (S (r_tick s)) = true) :
  let s' := (put url es s).2 in
  (put url es s).1 = inr () ∧ get url s' = (inr (Some es), tick s') ∧
  (is_fresh sha256 readable clock ttl url s').1 = inr (clock (S (r_tick s)) - clock (r_tick s) <? ttl) ∧
  ∀ url', sha256 url' ≠ sha256 url → r_files s' !! path url' = r_files s !! path url'.
Proof.
  destruct (put_stores url es s Hes Hdisk) as (s' & E & Hs & Ht & _ & Hframe). rewrite E. cbn [fst snd].
  assert (Hr : readable (r_tick s') = true) by (by rewrite Ht). split_and!; [done|by eapply stored_get| |].
  - destruct (stored_read _ _ _ _ Hs Hr) as (l & Eread & _). unfold is_fresh. rewrite Eread. simpl. by rewrite Ht.
  - intros url' Hne. apply Hframe. unfold cache_path. intros H%(f_equal chars). rewrite !chars_app in H.
    apply app_inv_tail, chars_inj in H. done.
Qed.

(** ** All pages of a registry *)

(** Every page but the last names the next one. *)
Fixpoint linked (pages : list ServerPage) : Prop :=
  match pages with
  | [] => False
  | [p] => truthy (sp_next_cursor p) = false
  | p :: ps => truthy (sp_next_cursor p) = true ∧ linked ps
  end.
(** The requests for pages, the first one at [cursor]. *)
Fixpoint requests (c : RegistryClient) (limit : Z) (cursor : pyval) (pages : list ServerPage)
  : list (string * odict string pyval) :=
  match pages with
  | [] => []
  | p :: ps => (_server_path (rc_rtype c), _list_params (rc_rtype c) limit cursor) :: requests c limit (sp_next_cursor p) ps
  end.
Definition entries_of (pages : list ServerPage) : list ServerEntry := mjoin (sp_servers <$> pages).
(** The n-th and the following requests are answered by these pages. *)
Fixpoint answers (c : RegistryClient) (n : nat) (pages : list ServerPage) : Prop :=
  match pages with
  | [] => True
  | p :: ps => (∃ body, answer n = Some body ∧ _parse_page (rc_rtype c) body = inr p) ∧ answers c (S n) ps
  end.

(** One page whose request is answered, beyond the first. *)
Lemma next_page c cursor limit p body s : truthy cursor = true → answer (r_tick s) = Some body →
  _parse_page (rc_rtype c) body = inr p →
  servers c cursor limit s =
    (inr p, {| r_files := r_files s; r_sent := r_sent s ++ [(_server_path (rc_rtype c), _list_params (rc_rtype c) limit cursor)];
               r_tick := S (r_tick s) |}).
Proof.
  intros Hc Ha Hp. unfold list_servers, try_except. rewrite run_bind. unfold http_get. rewrite Ha. rewrite run_bind.
  unfold lift_r. rewrite Hp. rewrite Hc, andb_false_r. done.
Qed.

Lemma next_pages c limit pages : ∀ left cursor acc s, truthy cursor = true → linked pages →
  answers c (r_tick s) pages → (length pages ≤ left)%nat →
  pages_of c limit left cursor acc s =
    (inr (acc ++ entries_of pages),
     {| r_files := r_files s; r_sent := r_sent s ++ requests c limit cursor pages; r_tick := length pages + r_tick s |}).
Proof.
  induction pages as [|p pages IH]; intros left cursor acc s Hc Hl Ha Hlen; [done|].
  destruct left as [|left]; simpl in Hlen; [lia|]. destruct Ha as ((body & Hb & Hp) & Ha).
  cbn [list_pages]. rewrite run_bind, (next_page _ _ _ _ _ _ Hc Hb Hp). unfold entries_of in *. destruct pages as [|q pages].
  - simpl in Hl. rewrite Hl. simpl. by rewrite app_nil_r.
  - destruct Hl as [Hn Hl]. rewrite Hn. rewrite IH; [|done|done|exact Ha|simpl in *; lia].
    cbn [fmap list_fmap mjoin list_join requests length r_files r_sent r_tick]. rewrite <-!app_assoc. simpl.
    repeat f_equal. lia.
Qed.

(** The first page goes to the cache as well. *)
Lemma first_page c limit p body s : rc_cache c = true → Forall entry_ok (sp_servers p) → (∀ n, disk n = Writes) →
  answer (r_tick s) = Some body → _parse_page (rc_rtype c) body = inr p →
  ∃ s', servers c PNone limit s = (inr p, s') ∧ (∃ t, stored (rc_base_url c) t (sp_servers p) s') ∧
        r_tick s' = S (S (r_tick s)) ∧ r_sent s' = r_sent s ++ requests c limit PNone [p].
Proof.
  intros Hcache Hok Hdisk Hb Hp.
  set (s1 := {| r_files := r_files s; r_sent := r_sent s ++ [(_server_path (rc_rtype c), _list_params (rc_rtype c) limit PNone)]; r_tick := S (r_tick s) |}).
  destruct (put_stores (rc_base_url c) (sp_servers p) s1 Hok (Hdisk _)) as (s2 & Eput & Hst & Ht & Hsent & _).
  exists s2. split_and!; [|eauto|done|done].
  unfold list_servers, try_except. rewrite run_bind. unfold http_get. rewrite Hb, run_bind. unfold lift_r. rewrite Hp, Hcache.
  cbn [andb negb truthy]. rewrite run_bind. fold s1. by rewrite Eput.
Qed.

Lemma whole_pages c limit left p ps s : rc_cache c = true → Forall entry_ok (sp_servers p) → (∀ n, disk n = Writes) →
  linked (p :: ps) → (length ps ≤ left)%nat → answers c (r_tick s) [p] → answers c (S (S (r_tick s))) ps →
  ∃ s', pages_of c limit (S left) PNone [] s = (inr (entries_of (p :: ps)), s') ∧
        (∃ t, stored (rc_base_url c) t (sp_servers p) s') ∧ r_sent s' = r_sent s ++ requests c limit PNone (p :: ps).
Proof.
  intros Hcache Hok Hdisk Hlink Hlen ((body & Hb & Hp) & _) Hrest.
  destruct (first_page c limit p body s Hcache Hok Hdisk Hb Hp) as (s2 & E1 & Hst & Ht & Hsent).
  cbn [list_pages]. rewrite run_bind, E1. destruct ps as [|q ps].
  - simpl in Hlink. rewrite Hlink. exists s2. unfold entries_of. simpl. by rewrite app_nil_r.
  - destruct Hlink as [Hn Hlink]. rewrite Hn.
    rewrite (next_pages c limit (q :: ps)); [|done|done|by rewrite Ht|done].
    eexists. split; [reflexivity|]. simpl. by rewrite Hsent, <-app_assoc.
Qed.

(** With the registry unreachable, a page is what the cache holds. *)
Lemma offline_page c t es s cursor limit : rc_cache c = true → stored (rc_base_url c) t es s →
  answer (r_tick s) = None → readable (S (r_tick s)) = true → (servers c cursor limit s).1 = inr (empty_page es).
Proof.
  intros Hcache Hs Hno Hr. unfold list_servers, try_except. rewrite run_bind. unfold http_get. rewrite Hno.
  unfold _fallback_page. rewrite Hcache, run_bind. by erewrite stored_get.
Qed.

(** A registry can be read whole and stays readable offline.  If the registry
    answers with linked pages, no more than the limit, whose entries are fit for
    the cache, and the disk works, then fetching everything asks for each page
    once with the cursor of the page before it and returns all the entries in
    order; and from then on, with the registry unreachable and the cache file
    readable, listing returns all of these entries, whatever page is asked for. *)
Theorem registry_read_whole_then_offline (c : RegistryClient) (limit : Z) (max_pages : nat) (p : ServerPage)
    (ps : list ServerPage) (s : reg_state)
    (Hcache : rc_cache c = true) (Hlink : linked (p :: ps)) (Hmax : (length (p :: ps) ≤ max_pages)%nat)
    (Hfirst : answers c (r_tick s) [p]) (Hrest : answers c (S (S (r_tick s))) ps)
    (Hok : Forall entry_ok (entries_of (p :: ps))) (Hdisk : ∀ n, disk n = Writes) :
  ∃ s', all_servers c limit max_pages s = (inr (entries_of (p :: ps)), s') ∧
    r_sent s' = r_sent s ++ requests c limit PNone (p :: ps) ∧
    ∀ cursor limit' s1, r_files s1 = r_files s' → answer (r_tick s1) = None → readable (S (r_tick s1)) = true →
      (servers c cursor limit' s1).1 = inr (empty_page (entries_of (p :: ps))).
Proof.
  destruct max_pages as [|left]; [simpl in Hmax; lia|].
  assert (Hok1 : Forall entry_ok (sp_servers p)) by (unfold entries_of in Hok; simpl in Hok; by apply Forall_app in Hok as [? _]).
  destruct (whole_pages c limit left p ps s) as (s3 & Eall & (t3 & Hst3) & Hsent3); try done; [simpl in Hmax; lia|].
  unfold list_all_servers. rewrite run_bind, Eall, Hcache. simpl.
  assert (Hoff : ∀ t s', stored (rc_base_url c) t (entries_of (p :: ps)) s' →
    ∀ cursor limit' s1, r_files s1 = r_files s' → answer (r_tick s1) = None → readable (S (r_tick s1)) = true →
      (servers c cursor limit' s1).1 = inr (empty_page (entries_of (p :: ps)))).
  { intros t s' (l & Hl) cursor limit' s1 Hf. apply (offline_page c t); [done|]. exists l. by rewrite Hf. }
  case_bool_decide as Hz; simpl.
  - exists s3. split_and!; [done|done|]. apply (Hoff t3).
    apply nil_length_inv in Hz. rewrite Hz. unfold entries_of in Hz. simpl in Hz. apply app_nil in Hz as [Hz _]. by rewrite <-Hz.
  - destruct (put_stores (rc_base_url c) (entries_of (p :: ps)) s3 Hok (Hdisk _)) as (s4 & E4 & Hst4 & _ & Hsent4 & _).
    rewrite run_bind, E4. exists s4. split_and!; [done|by rewrite Hsent4|]. by eapply Hoff.
Qed.
End facts.

(** ** Examples and boundary cases *)

Definition two_pages (n : nat) : option pyval :=
  match n with
  | 0%nat => Some (PDict [("servers", PList [PDict [("name", PStr "files"); ("command", PStr "uvx"); ("stars", PInt 5)]]);
                          ("next_cursor", PStr "c1")])
  | 2%nat => Some (PDict [("items", PList [PDict [("server", PDict [("name", PStr "web"); ("transport", PStr "sse");
                                                   ("url", PStr "https://w"); ("args", PList [PStr "-v"])])]])])
  | _ => None
  end.
Definition page_at (n : nat) : ServerPage :=
  match two_pages n with
  | Some b => match _parse_page Generic b with inr p => p | inl _ => empty_page [] end
  | None => empty_page []
  end.
Definition sample_registry : RegistryClient := new_registry_client "https://registry.example/" None true.
Definition reg_init : reg_state := {| r_files := ∅; r_sent := []; r_tick := 0 |}.
Definition no_hash (s : string) : string := s.

Lemma page_entries_ok : Forall entry_ok (entries_of [page_at 0; page_at 2]).
Proof.
  repeat constructor; try (unfold dict_wf, dkeys; simpl; by_decide); set_solver.
Qed.

Lemma registry_cache_roundtrip_witness :
  let s' := (cache_put no_hash (λ _, Writes) Z.of_nat "https://r" (entries_of [page_at 0; page_at 2]) reg_init).2 in
  length (entries_of [page_at 0; page_at 2]) = 2%nat ∧
  (cache_get no_hash (λ _, true) "https://r" s').1 = inr (Some (entries_of [page_at 0; page_at 2])).
Proof.
  intros s'. split; [done|].
  destruct (registry_cache_roundtrip no_hash (λ _, Writes) (λ _, true) Z.of_nat "https://r"
              (entries_of [page_at 0; page_at 2]) reg_init 300) as (_ & H & _);
    [apply page_entries_ok|done|done|]. unfold s'. by rewrite H.
Defined.

Lemma registry_read_whole_then_offline_witness :
  ∃ s', list_all_servers no_hash two_pages (λ _, Writes) (λ _, true) Z.of_nat sample_registry 50 20 reg_init =
          (inr (entries_of [page_at 0; page_at 2]), s') ∧
    (list_servers no_hash two_pages (λ _, Writes) (λ _, true) Z.of_nat sample_registry (PStr "c7") 50 s').1 =
      inr (empty_page (entries_of [page_at 0; page_at 2])).
Proof.
  destruct (registry_read_whole_then_offline no_hash two_pages (λ _, Writes) (λ _, true) Z.of_nat sample_registry 50 20
              (page_at 0) [page_at 2] reg_init) as (s' & E & _ & Hoff);
    [done|split; done|simpl; lia|split; [by eexists|done]|split; [by eexists|done]|apply page_entries_ok|done|].
  exists s'. split; [exact E|]. apply Hoff; [done| |done].
  assert (r_tick s' = 4%nat) as ->; [|done].
  transitivity (r_tick (list_all_servers no_hash two_pages (λ _, Writes) (λ _, true) Z.of_nat sample_registry 50 20 reg_init).2);
    [by rewrite E|vm_compute; reflexivity].
Defined.

Definition names (r : reg_exc + list ServerEntry) : list pyval := match r with inr l => se_name <$> l | inl _ => [] end.

(** When a page after the first cannot be fetched, the fallback page is the cache
    that the first page has just been written to: its entries are returned
    twice, and cached twice. *)
Lemma failed_page_duplicates :
  let answer n := match n with 0%nat => two_pages 0 | _ => None end in
  let r := list_all_servers no_hash answer (λ _, Writes) (λ _, true) Z.of_nat sample_registry 50 20 reg_init in
  names r.1 = [PStr "files"; PStr "files"] ∧
  names ((p ← list_servers no_hash answer (λ _, Writes) (λ _, true) Z.of_nat sample_registry PNone 50; mret (sp_servers p)) r.2).1
    = [PStr "files"; PStr "files"].
Proof. vm_compute. done. Qed.

(** When the cache directory cannot be made, an answer of the registry is thrown
    away: the page returned is empty. *)
Lemma unwritable_cache_hides_answer :
  (list_servers no_hash two_pages (λ _, MkdirFails) (λ _, true) Z.of_nat sample_registry PNone 50 reg_init).1 =
    inr (empty_page []).
Proof. vm_compute. done. Qed.

(** A cache file that is JSON but no object makes the fallback itself fail. *)
Lemma damaged_cache_escapes :
  let s := {| r_files := {[ "https://registry.example.json" := "[1]" ]}; r_sent := []; r_tick := 0 |} in
  (list_servers no_hash (λ _, None) (λ _, Writes) (λ _, true) Z.of_nat sample_registry PNone 50 s).1 = inl RAttributeError.
Proof. vm_compute. done. Qed.
