(* ===== verification/Versions.v ===== *)
(** * Version drift (bridge/version_checker.py)

    The comparison of the versions of running servers with those of a registry.
    Digits are the ASCII ones; versions that are no strings raise
    [AttributeError] when they are compared. *)
From Stdlib Require Import Ascii.
From S2P Require Import Prelude PyDict Effects PyStr Url Json ServerRegistry.
#[local] Open Scope Z_scope.

Inductive DriftSeverity := CURRENT | PATCH | MINOR | MAJOR | UNKNOWN.
#[export] Instance DriftSeverity_eq_dec : EqDecision DriftSeverity.
Proof. solve_decision. Defined.

Record DriftResult := {
  dr_name : string; dr_current : string; dr_latest : string; dr_severity : DriftSeverity; dr_backend : pyval }.
Definition is_drifted (r : DriftResult) : bool :=
  match dr_severity r with CURRENT | UNKNOWN => false | _ => true end.

(** ** Parsing *)

Definition digit_value (c : ascii) : Z := Z.of_nat (code c) - 48.
(** [int(digits)] *)
Definition int_of_digits (l : list ascii) : Z := foldl (λ n c, 10 * n + digit_value c) 0 l.

(** [(\d+)] at the start of a text: the number and the rest. *)
Definition match_number (l : list ascii) : option (Z * list ascii) :=
  match span is_digit l with ([], _) => None | (ds, rest) => Some (int_of_digits ds, rest) end.
Definition match_dot (l : list ascii) : option (list ascii) :=
  match l with c :: l' => if is_char 46 c then Some l' else None | [] => None end.
Definition skip_v (l : list ascii) : list ascii :=
  match l with c :: l' => if is_char 118 c then l' else l | [] => l end.

Abbreviation semver := (Z * Z * Z)%type (only parsing).
Definition parse_semver (version : string) : option semver :=
  '(major, l1) ← match_number (skip_v (chars (str_strip version)));
  l2 ← match_dot l1;
  '(minor, l3) ← match_number l2;
  l4 ← match_dot l3;
  '(patch, _) ← match_number l4;
  Some (major, minor, patch).

(** Python's order of tuples. *)
Definition semver_lt (a b : semver) : bool :=
  let '(a1, a2, a3) := a in let '(b1, b2, b3) := b in
  (a1 <? b1) || ((a1 =? b1) && ((a2 <? b2) || ((a2 =? b2) && (a3 <? b3)))).

Definition classify_drift (current latest : string) : DriftSeverity :=
  match parse_semver current, parse_semver latest with
  | Some cur, Some lat =>
      if negb (semver_lt cur lat) then CURRENT
      else if cur.1.1 <? lat.1.1 then MAJOR
      else if cur.1.2 <? lat.1.2 then MINOR
      else PATCH
  | _, _ => UNKNOWN
  end.

(** ** The checker *)

(** [classify_drift] of any two values *)
Definition classify_values (current latest : pyval) : reg_exc + DriftSeverity :=
  match current, latest with PStr c, PStr l => inr (classify_drift c l) | _, _ => inl RAttributeError end.

Definition text_of (v : pyval) : string := match v with PStr s => s | _ => "" end.

Section checker.
Context (sha256 : string → string) (answer : nat → option pyval) (disk : nat → disk_outcome) (readable : nat → bool)
  (clock : nat → Z) (registry : option RegistryClient).

(** [PNone] is [None]. *)
Definition _get_latest_version (name : string) : M reg_state reg_exc pyval :=
  match registry with
  | None => mret PNone
  | Some c =>
      try_except
        (server ← get_server sha256 answer readable c name;
         mret (match server with Some e => py_or (se_version e) PNone | None => PNone end))
        (λ _, mret PNone)
  end.

Definition drift_result (name : string) (current latest backend : pyval) : reg_exc + DriftResult :=
  sev ← classify_values current latest;
  inr {| dr_name := name; dr_current := text_of current; dr_latest := text_of latest; dr_severity := sev; dr_backend := backend |}.

Fixpoint check_all (capabilities : odict string (odict string pyval)) : M reg_state reg_exc (list DriftResult) :=
  match capabilities with
  | [] => mret []
  | (name, info) :: rest =>
      let current := get_or info "version" (PStr "") in
      if negb (truthy current) then check_all rest
      else
        latest ← _get_latest_version name;
        if negb (truthy latest) then check_all rest
        else
          r ← lift_r (drift_result name current latest (get_or info "backend" (PStr "")));
          rs ← check_all rest;
          mret (r :: rs)
  end.

Definition check_one (name : string) (current : pyval) : M reg_state reg_exc (option DriftResult) :=
  latest ← _get_latest_version name;
  if negb (truthy latest) then mret None
  else r ← lift_r (drift_result name current latest (PStr "")); mret (Some r).
End checker.

(** [get_drift_summary]: the count of each severity *)
Definition severities : list DriftSeverity := [CURRENT; PATCH; MINOR; MAJOR; UNKNOWN].
Definition get_drift_summary (results : list DriftResult) : list (DriftSeverity * nat) :=
  (λ sev, (sev, length (keep (λ r, bool_decide (dr_severity r = sev)) results))) <$> severities.

(** ** What a version is *)

Definition digits (l : list ascii) : Prop := l ≠ [] ∧ Forall (λ c, is_digit c = true) l.
Definition no_digit (l : list ascii) : Prop := match l with c :: _ => is_digit c = false | [] => True end.

Lemma span_digits ds rest : Forall (λ c, is_digit c = true) ds → no_digit rest → span is_digit (ds ++ rest) = (ds, rest).
Proof.
  intros Hd Hr. destruct rest as [|c rest]; [|by apply span_all].
  rewrite app_nil_r. induction Hd as [|c ds Hc _ IH]; simpl; [done|]. by rewrite Hc, IH.
Qed.

Lemma match_number_iff l n rest : match_number l = Some (n, rest) ↔
  ∃ ds, l = ds ++ rest ∧ digits ds ∧ no_digit rest ∧ n = int_of_digits ds.
Proof.
  unfold match_number. split.
  - destruct (span_app is_digit l) as (E & Ha & Hb). destruct (span is_digit l) as [[|c ds] r]; [done|].
    simpl in *. intros [= <- <-]. exists (c :: ds). split_and!; try done.
  - intros (ds & -> & [Hne Hd] & Hr & ->). rewrite span_digits by done. by destruct ds.
Qed.

Lemma match_number_app ds rest : digits ds → no_digit rest → match_number (ds ++ rest) = Some (int_of_digits ds, rest).
Proof. intros. apply match_number_iff. eauto. Qed.

Lemma match_dot_iff l rest : match_dot l = Some rest ↔ l = chr 46 :: rest.
Proof.
  destruct l as [|c l]; simpl; [by split|]. destruct (is_char 46 c) eqn:E.
  - apply is_char_eq in E as ->. split; [by intros [= ->]|by intros [= ->]].
  - split; [done|]. intros [= -> ->]. done.
Qed.

(** Versions are read exactly as the pattern says.  A text is the version
    [(major, minor, patch)] if and only if, without surrounding blanks, it is an
    optional [v], three non-empty runs of digits with these values separated by
    dots, and a rest that does not start with a digit. *)
Theorem parse_semver_exact (version : string) (major minor patch : Z) :
  parse_semver version = Some (major, minor, patch) ↔
  ∃ v ds1 ds2 ds3 rest, chars (str_strip version) = v ++ ds1 ++ chr 46 :: ds2 ++ chr 46 :: ds3 ++ rest ∧
    v ∈ [[]; [chr 118]] ∧ digits ds1 ∧ digits ds2 ∧ digits ds3 ∧ no_digit rest ∧
    major = int_of_digits ds1 ∧ minor = int_of_digits ds2 ∧ patch = int_of_digits ds3.
Proof.
  unfold parse_semver. set (l := chars (str_strip version)). split.
  - intros ([a l1] & H1 & (l2 & H2%match_dot_iff & ([b l3] & H3 & (l4 & H4%match_dot_iff & ([c r] & H5 & [= <- <- <-])
      %bind_Some)%bind_Some)%bind_Some)%bind_Some)%bind_Some.
    apply match_number_iff in H1 as (ds1 & E1 & Hd1 & _ & ->), H3 as (ds2 & E2 & Hd2 & _ & ->), H5 as (ds3 & E3 & Hd3 & Hr & ->).
    subst l1 l2 l3 l4.
    assert (Hv : ∃ v, l = v ++ skip_v l ∧ v ∈ [[]; [chr 118]]).
    { unfold skip_v. destruct l as [|x l']; [exists []; set_solver|]. destruct (is_char 118 x) eqn:E; [|exists []; set_solver].
      apply is_char_eq in E as ->. exists [chr 118]. set_solver. }
    destruct Hv as (v & Hl & Hv). exists v, ds1, ds2, ds3, r. split_and!; try done. by rewrite Hl, E1.
  - intros (v & ds1 & ds2 & ds3 & rest & E & Hv & H1 & H2 & H3 & Hr & -> & -> & ->).
    assert (Hs : skip_v l = ds1 ++ chr 46 :: ds2 ++ chr 46 :: ds3 ++ rest).
    { rewrite E. apply list_elem_of_In in Hv. destruct Hv as [<-|[<-|[]]]; [|done]. destruct H1 as [Hne H1].
      destruct H1 as [|c ds1 Hc _]; [done|]. simpl. destruct (is_char 118 c) eqn:Ec; [|done].
      by apply is_char_eq in Ec as ->. }
    rewrite Hs, match_number_app by done. simpl. rewrite match_number_app by done. simpl. by rewrite match_number_app.
Qed.

(** The severity names the most significant number that is behind. *)
Lemma drift_severity cur lat a1 a2 a3 b1 b2 b3 :
  parse_semver cur = Some (a1, a2, a3) → parse_semver lat = Some (b1, b2, b3) →
  classify_drift cur lat =
    if bool_decide (a1 < b1) then MAJOR
    else if bool_decide (a1 = b1 ∧ a2 < b2) then MINOR
    else if bool_decide (a1 = b1 ∧ a2 = b2 ∧ a3 < b3) then PATCH else CURRENT.
Proof. intros Hc Hl. unfold classify_drift. rewrite Hc, Hl. simpl. repeat case_bool_decide; repeat case_match; naive_solver lia. Qed.

(** Every result is counted once. *)
Lemma summary_total results : sum_list (get_drift_summary results).*2 = length results.
Proof.
  induction results as [|r results IH]; [done|]. unfold get_drift_summary in *. simpl in *.
  destruct (dr_severity r); simpl; lia.
Qed.

(** Entries of Glama and Smithery carry no version: against those registries
    nothing is ever reported. *)
Lemma hosted_registries_have_no_versions rtype v e : rtype ≠ Generic → _entry_from_raw rtype v = inr e → se_version e = PStr "".
Proof.
  intros Hr H. unfold _entry_from_raw in H. peel H as s Hs. destruct rtype; [| |done].
  - peel H as tr Htr. peel H as cats Hcats. unfold entry_from_dict in H. peel H as raw Hraw. by injection H as <-.
  - unfold entry_from_dict in H. peel H as raw Hraw. by injection H as <-.
Qed.

(** A pre-release counts as the release. *)
Example prerelease_current : classify_drift "2.0.0-rc1" "v2.0.0" = CURRENT ∧ classify_drift "1.9.12" "1.10.0" = MINOR ∧
  classify_drift "latest" "1.0.0" = UNKNOWN.
Proof. vm_compute. done. Qed.
