(* ===== verification/Search.v ===== *)
(** * The tool search index (bridge/optimizer/search.py)

    Scores are whole numbers: the word-overlap score of a tool counts quarters of
    a word of the query, which the code divides by the number of these words.
    The similarity of scikit-learn is a parameter, in units of the smallest float
    ([None]: the package is not installed).  The rounding of the score in the
    answer is not modelled. *)
From Stdlib Require Import Ascii.
From S2P Require Import Prelude PyDict Effects PyStr.
#[local] Open Scope Z_scope.

(** ** Words *)

Definition is_sep (c : ascii) : bool := is_char 95 c || is_char 45 c || is_space c.

(** The pieces between runs of separators, without empty ones. *)
Fixpoint split_words (l : list ascii) (word : list ascii) : list (list ascii) :=
  match l with
  | [] => if bool_decide (word = []) then [] else [word]
  | c :: l' =>
      if is_sep c then (if bool_decide (word = []) then split_words l' [] else word :: split_words l' [])
      else split_words l' (word ++ [c])
  end.
Definition _tokenize (s : string) : list string := text <$> split_words (chars (lower s)) [].

(** The quarters that one word of the query earns. *)
Definition word_score (doc_tokens : list string) (qt : string) : Z :=
  if bool_decide (qt ∈ doc_tokens) then 4
  else if existsb (λ dt, contains dt qt) doc_tokens then 2
  else if contains (str_join " " doc_tokens) qt then 1
  else 0.
Definition hits (query_tokens doc_tokens : list string) : Z := foldr (λ qt n, word_score doc_tokens qt + n) 0 query_tokens.
(** [_simple_score], in quarters of a word of the query. *)
Definition _simple_score (query_tokens doc_tokens : list string) : Z :=
  if bool_decide (query_tokens = []) || bool_decide (doc_tokens = []) then 0 else hits query_tokens doc_tokens.

(** ** The index *)

(** A tool as the index receives it; [None] is a missing or null field. *)
Record tool_source := { src_name : string; src_description : option string; src_schema : option pyval }.
Record ToolEntry := { te_name : string; te_description : string; te_input_schema : pyval; te_backend : string }.
Definition search_text (e : ToolEntry) : string := str_strip (te_name e +:+ " " +:+ te_description e).

Definition ToolIndex : Type := odict string ToolEntry.
Definition index_entry (route_map : odict string (string * string)) (t : tool_source) : ToolEntry :=
  {| te_name := src_name t; te_description := default "" (src_description t);
     te_input_schema := py_or (default PNone (src_schema t)) (PDict []);
     te_backend := match dget route_map (src_name t) with Some r => r.1 | None => "" end |}.
(** The index is emptied first; a later tool of the same name replaces an
    earlier one in its place. *)
Definition _populate (tools : list tool_source) (route_map : odict string (string * string)) : ToolIndex :=
  foldl (λ ix t, dset ix (src_name t) (index_entry route_map t)) [] tools.

(** [l[:limit]] *)
Definition py_prefix {A} (limit : Z) (l : list A) : list A :=
  if 0 <=? limit then take (Z.to_nat limit) l else take (Z.to_nat (Z.of_nat (length l) + limit)) l.

(** The entries with a positive score, best first, the order of the index among
    equals. *)
Definition ranked (scored : list (Z * ToolEntry)) (limit : Z) : list (Z * ToolEntry) :=
  py_prefix limit (sort_by (λ r, - r.1) (keep (λ r, 0 <? r.1) scored)).

Definition _search_simple (ix : ToolIndex) (query : string) (limit : Z) : list (Z * ToolEntry) :=
  let query_tokens := _tokenize query in
  if bool_decide (query_tokens = []) then []
  else ranked ((λ e, (_simple_score query_tokens (_tokenize (search_text e)), e)) <$> dvalues ix) limit.

(** [tfidf corpus query]: the similarity of the query to each text *)
Definition _search_tfidf (tfidf : list string → string → list Z) (ix : ToolIndex) (query : string) (limit : Z)
  : list (Z * ToolEntry) :=
  ranked (zip (tfidf (search_text <$> dvalues ix) query) (dvalues ix)) limit.
Definition search (tfidf : option (list string → string → list Z)) (ix : ToolIndex) (query : string) (limit : Z)
  : list (Z * ToolEntry) :=
  if bool_decide (dkeys ix = []) then []
  else match tfidf with Some f => _search_tfidf f ix query limit | None => _search_simple ix query limit end.

(** ** The best come first *)

Lemma StronglySorted_take {A} (R : A → A → Prop) n l : StronglySorted R l → StronglySorted R (take n l).
Proof.
  intros H. revert n. induction H as [|x l Hs IH Hall]; intros [|n]; simpl; constructor; auto.
  by apply Forall_take.
Qed.

Lemma StronglySorted_split {A} (R : A → A → Prop) n l x y : StronglySorted R l → x ∈ take n l → y ∈ drop n l → R x y.
Proof.
  intros H. revert n. induction H as [|z l Hs IH Hall]; intros [|n]; simpl; try set_solver.
  intros [->|Hx]%elem_of_cons Hy; [|by eapply IH]. rewrite Forall_forall in Hall. apply Hall.
  rewrite <-(take_drop n l). set_solver.
Qed.

(** The first [limit] of the positive scores: none of those left out is better. *)
Lemma ranked_top scored limit r : 0 <= limit → r = ranked scored limit →
  StronglySorted (λ a b, b.1 <= a.1) r ∧ Forall (λ a, a ∈ scored ∧ 0 < a.1) r ∧
  (∀ a, a ∈ scored → 0 < a.1 → a ∈ r ∨ (Z.of_nat (length r) = limit ∧ ∀ b, b ∈ r → a.1 <= b.1)).
Proof.
  intros Hl. unfold ranked, py_prefix. rewrite (proj2 (Z.leb_le _ _) Hl).
  set (key := λ x : Z * ToolEntry, - x.1). set (full := sort_by key (keep (λ x, 0 <? x.1) scored)). intros ->.
  assert (Hin : ∀ a, a ∈ full ↔ a ∈ scored ∧ 0 < a.1).
  { intros a. unfold full. rewrite <-sort_by_perm, elem_of_keep. by rewrite Z.ltb_lt. }
  assert (Hs : StronglySorted (λ a b, b.1 <= a.1) full).
  { generalize (sort_by_sorted key (keep (λ x, 0 <? x.1) scored)). fold full. clear.
    induction 1 as [|x l _ IH Hall]; constructor; [done|]. eapply Forall_impl; [exact Hall|]. unfold key_le, key. lia. }
  split_and!.
  - by apply StronglySorted_take.
  - apply Forall_forall. intros a Ha. apply Hin. rewrite <-(take_drop (Z.to_nat limit) full). set_solver.
  - intros a Ha Hpos. assert (Hf : a ∈ full) by (by apply Hin). rewrite <-(take_drop (Z.to_nat limit) full) in Hf.
    apply elem_of_app in Hf as [Hf|Hf]; [by left|]. right. split.
    + rewrite length_take. assert (Hn : (0 < length (drop (Z.to_nat limit) full))%nat).
      { destruct (drop _ full); [set_solver|simpl; lia]. } rewrite length_drop in Hn. lia.
    + intros b Hb. by apply (StronglySorted_split _ _ _ _ _ Hs Hb Hf).
Qed.

Lemma word_score_bounds doc qt : 0 <= word_score doc qt <= 4.
Proof. unfold word_score. repeat case_match; lia. Qed.
Lemma hits_bounds q doc : 0 <= hits q doc <= 4 * Z.of_nat (length q).
Proof. induction q as [|w q IH]; simpl; [lia|]. pose proof (word_score_bounds doc w). lia. Qed.
Lemma hits_full q doc : (∀ w, w ∈ q → w ∈ doc) → hits q doc = 4 * Z.of_nat (length q).
Proof.
  induction q as [|w q IH]; intros H; [done|]. cbn [hits foldr length]. fold (hits q doc). rewrite IH by set_solver.
  unfold word_score. rewrite bool_decide_true by set_solver. lia.
Qed.

Lemma score_full words doc : words ≠ [] → (∀ w, w ∈ words → w ∈ doc) →
  _simple_score words doc = 4 * Z.of_nat (length words).
Proof.
  intros Hne H. unfold _simple_score. rewrite (bool_decide_false (words = [])) by done.
  rewrite bool_decide_false; [by apply hits_full|]. intros ->. destruct words as [|w words]; [done|]. specialize (H w). set_solver.
Qed.

Lemma score_bounds words doc : 0 <= _simple_score words doc <= 4 * Z.of_nat (length words).
Proof. unfold _simple_score. case_match; [lia|apply hits_bounds]. Qed.

(** The word search returns the best matches.  For a limit that is not
    negative, the answer is ordered by score, best first, and consists of tools
    of the index with a positive score, at most full marks; a matching tool is
    left out only when the answer is full and none of its members scores less;
    and a tool that has every word of the query gets full marks. *)
Theorem search_returns_best (ix : ToolIndex) (query : string) (limit : Z) (Hlimit : 0 <= limit)
    (Hwords : _tokenize query ≠ []) :
  let words := _tokenize query in
  let score e := _simple_score words (_tokenize (search_text e)) in
  let r := search None ix query limit in
  StronglySorted (λ a b, b.1 <= a.1) r ∧
  (∀ a, a ∈ r → a.2 ∈ dvalues ix ∧ a.1 = score a.2 ∧ 0 < a.1 <= 4 * Z.of_nat (length words)) ∧
  (∀ e, e ∈ dvalues ix → 0 < score e →
     (score e, e) ∈ r ∨ (Z.of_nat (length r) = limit ∧ ∀ b, b ∈ r → score e <= b.1)) ∧
  (∀ e, (∀ w, w ∈ words → w ∈ _tokenize (search_text e)) → score e = 4 * Z.of_nat (length words)).
Proof.
  intros words score r. assert (Hr : r = ranked ((λ e, (score e, e)) <$> dvalues ix) limit).
  { unfold r, search, _search_simple. rewrite (bool_decide_false (_tokenize query = [])) by done.
    case_bool_decide; [|done]. destruct ix; [|done]. unfold ranked, py_prefix. simpl. by repeat case_match; rewrite ?take_nil. }
  destruct (ranked_top ((λ e, (score e, e)) <$> dvalues ix) limit r Hlimit Hr) as (Hs & Hin & Hbest).
  split_and!; [done| | |by intros e; apply score_full].
  - intros a Ha. rewrite Forall_forall in Hin. destruct (Hin a Ha) as [(e & -> & He)%list_elem_of_fmap Hpos]. simpl in *.
    split_and!; [done|done|lia|apply score_bounds].
  - intros e He Hpos. apply (Hbest (score e, e)); [|done]. apply list_elem_of_fmap. eauto.
Qed.

Definition sample_index : ToolIndex := _populate
  [{| src_name := "read_file"; src_description := Some "Read a file"; src_schema := None |};
   {| src_name := "write-file"; src_description := None; src_schema := None |};
   {| src_name := "fetch"; src_description := Some "Fetch a URL"; src_schema := None |}] [("fetch", ("web", "fetch"))].

Lemma search_returns_best_witness :
  let r := search None sample_index "read file" 2 in
  ((λ a, (a.1, te_name a.2)) <$> r) = [(8, "read_file"); (4, "write-file")] ∧ StronglySorted (λ a b, b.1 <= a.1) r.
Proof.
  intros r. split; [vm_compute; reflexivity|]. by apply (search_returns_best sample_index "read file" 2).
Defined.
