(* ===== verification/Elicitation.v ===== *)
(** * Elicitation (bridge/elicitation.py)

    The bridge between a backend tool that asks for input and the user
    interface.  [handle_request] is split at its [await]: a task is started, and
    later the callback ends in one of the ways of [outcome].  Time-outs are whole
    seconds; the random identifier of a message without one is an argument. *)
From S2P Require Import Prelude PyDict Effects.

Inductive ElicitationStatus := PENDING | APPROVED | DENIED | TIMEOUT.
#[export] Instance ElicitationStatus_eq_dec : EqDecision ElicitationStatus.
Proof. solve_decision. Defined.
Definition status_text (s : ElicitationStatus) : string :=
  match s with PENDING => "pending" | APPROVED => "approved" | DENIED => "denied" | TIMEOUT => "timeout" end.

(** ** Messages *)

Record ElicitationField := {
  ef_name : string; ef_type : pyval; ef_description : pyval; ef_required : bool; ef_default : pyval; ef_enum : pyval }.
Definition from_schema (name : string) (prop : odict string pyval) (required : list string) : ElicitationField :=
  {| ef_name := name; ef_type := get_or prop "type" (PStr "string"); ef_description := get_or prop "description" (PStr "");
     ef_required := bool_decide (name ∈ required); ef_default := get_or prop "default" PNone;
     ef_enum := get_or prop "enum" (PList []) |}.

Record ElicitationRequest := {
  er_request_id : string; er_tool_name : pyval; er_message : pyval; er_schema : odict string pyval;
  er_timeout : Z; er_backend : string }.

(** [fields] for a schema whose properties are objects and whose required names
    are a list of strings *)
Definition str_items (v : pyval) : list string :=
  match v with PList l => omap (λ x, match x with PStr s => Some s | _ => None end) l | _ => [] end.
Definition fields (r : ElicitationRequest) : list ElicitationField :=
  match get_or (er_schema r) "properties" (PDict []) with
  | PDict props =>
      let required := str_items (get_or (er_schema r) "required" (PList [])) in
      omap (λ kv, match kv.2 with PDict p => Some (from_schema kv.1 p required) | _ => None end) props
  | _ => []
  end.

(** [from_message] for a message with fields of the documented types *)
Definition from_message (data : odict string pyval) (fresh_id : string) : ElicitationRequest :=
  {| er_request_id := match get_or data "requestId" (PStr fresh_id) with PStr s => s | _ => fresh_id end;
     er_tool_name := get_or data "toolName" (PStr ""); er_message := get_or data "message" (PStr "");
     er_schema := match get_or data "schema" (PDict []) with PDict d => d | _ => [] end;
     er_timeout := default 120 (as_num (get_or data "timeout" (PInt 120))); er_backend := "" |}.

Record ElicitationResponse := { rs_request_id : string; rs_status : ElicitationStatus; rs_data : odict string pyval }.
Definition to_message (r : ElicitationResponse) : odict string pyval :=
  [("requestId", PStr (rs_request_id r)); ("status", PStr (status_text (rs_status r))); ("data", PDict (rs_data r))].

(** ** The bridge *)

(** The callback returns (a form, or nothing), does not return in time, or
    raises; a task may also be cancelled. *)
Inductive outcome := Returned (form : option (odict string pyval)) | TimedOut | RaisedOr_cancelled.
Inductive el_task := Waiting (timeout : Z) | Answered (r : ElicitationResponse) | Failed.

Record ElicitationBridge := {
  eb_callback : bool; eb_default_timeout : Z; eb_pending : odict string ElicitationRequest;
  eb_tasks : list (ElicitationRequest * el_task) }.
Definition new_bridge (default_timeout : Z) : ElicitationBridge :=
  {| eb_callback := false; eb_default_timeout := default_timeout; eb_pending := []; eb_tasks := [] |}.
Definition has_pending (b : ElicitationBridge) : bool := negb (bool_decide (dkeys (eb_pending b) = [])).

Definition register_handler (b : ElicitationBridge) : ElicitationBridge :=
  {| eb_callback := true; eb_default_timeout := eb_default_timeout b; eb_pending := eb_pending b; eb_tasks := eb_tasks b |}.

Definition response (r : ElicitationRequest) (st : ElicitationStatus) (data : odict string pyval) : ElicitationResponse :=
  {| rs_request_id := er_request_id r; rs_status := st; rs_data := data |}.

(** [handle_request] up to its [await] *)
Definition begin_request (r : ElicitationRequest) (b : ElicitationBridge) : ElicitationBridge :=
  if negb (eb_callback b) then
    {| eb_callback := eb_callback b; eb_default_timeout := eb_default_timeout b; eb_pending := eb_pending b;
       eb_tasks := eb_tasks b ++ [(r, Answered (response r DENIED []))] |}
  else
    {| eb_callback := eb_callback b; eb_default_timeout := eb_default_timeout b;
       eb_pending := dset (eb_pending b) (er_request_id r) r;
       eb_tasks := eb_tasks b ++ [(r, Waiting (if er_timeout r =? 0 then eb_default_timeout b else er_timeout r))] |}.

(** … and after it; the [finally] clause runs on every way out. *)
Definition end_of (r : ElicitationRequest) (o : outcome) : el_task :=
  match o with
  | Returned (Some form) => Answered (response r APPROVED form)
  | Returned None => Answered (response r DENIED [])
  | TimedOut => Answered (response r TIMEOUT [])
  | RaisedOr_cancelled => Failed
  end.
Definition end_request (i : nat) (o : outcome) (b : ElicitationBridge) : ElicitationBridge :=
  match eb_tasks b !! i with
  | Some (r, Waiting _) =>
      {| eb_callback := eb_callback b; eb_default_timeout := eb_default_timeout b;
         eb_pending := ddel (eb_pending b) (er_request_id r); eb_tasks := <[i := (r, end_of r o)]> (eb_tasks b) |}
  | _ => b
  end.

Inductive el_event := Register | Begin (r : ElicitationRequest) | End (i : nat) (o : outcome).
Definition el_step (b : ElicitationBridge) (e : el_event) : ElicitationBridge :=
  match e with Register => register_handler b | Begin r => begin_request r b | End i o => end_request i o b end.

(** ** What is pending *)

Definition waiting_id (t : ElicitationRequest * el_task) : option string :=
  match t.2 with Waiting _ => Some (er_request_id t.1) | _ => None end.
Definition waiting (b : ElicitationBridge) : list string := omap waiting_id (eb_tasks b).

(** A request is not started while another one with its identifier waits. *)
Fixpoint distinct_ids (b : ElicitationBridge) (es : list el_event) : Prop :=
  match es with
  | [] => True
  | e :: es' => match e with Begin r => er_request_id r ∉ waiting b | _ => True end ∧ distinct_ids (el_step b e) es'
  end.

(** The table holds the waiting requests, each under its own identifier, and a
    task that was answered carries the identifier of its request. *)
Record el_ok (b : ElicitationBridge) : Prop := {
  el_wf : dict_wf (eb_pending b);
  el_nodup : NoDup (waiting b);
  el_keys : ∀ id, id ∈ dkeys (eb_pending b) ↔ id ∈ waiting b;
  el_own : ∀ r a, (r, Answered a) ∈ eb_tasks b → rs_request_id a = er_request_id r ∧ rs_status a ≠ PENDING }.

Lemma waiting_split b i r t : eb_tasks b !! i = Some (r, Waiting t) →
  ∃ a c, waiting b = a ++ er_request_id r :: c ∧
    ∀ u, waiting_id (r, u) = None → omap waiting_id (<[i := (r, u)]> (eb_tasks b)) = a ++ c.
Proof.
  intros Hi. apply take_drop_middle in Hi as Hs. assert (Hlt := lookup_lt_Some _ _ _ Hi).
  exists (omap waiting_id (take i (eb_tasks b))), (omap waiting_id (drop (S i) (eb_tasks b))). split.
  - unfold waiting. rewrite <-Hs at 1. by rewrite omap_app.
  - intros u Hu. rewrite insert_take_drop by done. rewrite omap_app. simpl. by rewrite Hu.
Qed.

Lemma end_not_waiting r o : waiting_id (r, end_of r o) = None.
Proof. by destruct o as [[]| |]. Qed.

Lemma begin_ok r b : el_ok b → er_request_id r ∉ waiting b → el_ok (begin_request r b).
Proof.
  intros [Hw Hn Hk Ho] Hr. unfold begin_request. destruct (eb_callback b); simpl.
  - assert (E : waiting (begin_request r {| eb_callback := true; eb_default_timeout := eb_default_timeout b;
      eb_pending := eb_pending b; eb_tasks := eb_tasks b |}) = waiting b ++ [er_request_id r]).
    { unfold waiting, begin_request. simpl. by rewrite omap_app. }
    split; [simpl; auto with argus| | |].
    + unfold waiting in *. simpl in *. rewrite E. apply NoDup_app. split_and!; [done|set_solver|apply NoDup_singleton].
    + unfold waiting in *. simpl in *. intros id. rewrite E, elem_dkeys_dset, Hk. set_solver.
    + simpl. intros r' a [H|H%list_elem_of_singleton]%elem_of_app; [by apply Ho|by simplify_eq].
  - assert (E : omap waiting_id (eb_tasks b ++ [(r, Answered (response r DENIED []))]) = waiting b).
    { rewrite omap_app. simpl. by rewrite app_nil_r. }
    split; unfold waiting; simpl; rewrite ?E; try done.
    intros r' a [H|H%list_elem_of_singleton]%elem_of_app; [by apply Ho|by simplify_eq].
Qed.

Lemma end_ok i o b : el_ok b → el_ok (end_request i o b).
Proof.
  intros [Hw Hn Hk Ho]. unfold end_request. destruct (eb_tasks b !! i) as [[r [t| |]]|] eqn:Hi; try done.
  destruct (waiting_split b i r t Hi) as (a & c & Ew & Ei). specialize (Ei (end_of r o) (end_not_waiting r o)).
  rewrite Ew in Hn. apply NoDup_app in Hn as Hn'. destruct Hn' as (Ha & Hac & Hc). apply NoDup_cons in Hc as [Hrc Hc].
  split; unfold waiting; simpl; rewrite ?Ei.
  - auto with argus.
  - apply NoDup_app. split_and!; [done|set_solver|done].
  - intros id. rewrite elem_dkeys_ddel, Hk, Ew by done. set_solver.
  - intros r' x [j Hj]%list_elem_of_lookup. apply list_insert_cases in Hj as [[_ E]|[_ Hj]].
    + simplify_eq. by destruct o as [[]| |]; simplify_eq/=.
    + apply (Ho r'). by eapply list_elem_of_lookup_2.
Qed.

Lemma el_steps_ok es b : el_ok b → distinct_ids b es → el_ok (foldl el_step b es).
Proof.
  revert b. induction es as [|e es IH]; intros b Hb Hd; [done|]. destruct Hd as [He Hd]. simpl. apply IH; [|done].
  destruct e as [|r|i o]; simpl; [by destruct Hb|by apply begin_ok|by apply end_ok].
Qed.

(** The bridge keeps exactly the open requests.  From a new bridge, after any
    sequence of registrations, requests and endings in which no request starts
    while another with its identifier waits, the table of pending requests has
    exactly the identifiers of the tasks that still wait, so it is empty if and
    only if none does; and every answer carries the identifier of the request it
    answers and a final status. *)
Theorem pending_exact (default_timeout : Z) (es : list el_event) (Hids : distinct_ids (new_bridge default_timeout) es) :
  let b := foldl el_step (new_bridge default_timeout) es in
  (∀ id, id ∈ dkeys (eb_pending b) ↔ ∃ r t, (r, Waiting t) ∈ eb_tasks b ∧ er_request_id r = id) ∧
  (has_pending b = false ↔ ∀ r t, (r, Waiting t) ∉ eb_tasks b) ∧
  (∀ r a, (r, Answered a) ∈ eb_tasks b → rs_request_id a = er_request_id r ∧ rs_status a ≠ PENDING).
Proof.
  intros b. assert (Hb : el_ok b).
  { apply el_steps_ok; [|done]. split; simpl; [constructor|constructor|set_solver|set_solver]. }
  destruct Hb as [_ _ Hk Ho].
  assert (Hin : ∀ id, id ∈ waiting b ↔ ∃ r t, (r, Waiting t) ∈ eb_tasks b ∧ er_request_id r = id).
  { intros id. unfold waiting. rewrite list_elem_of_omap. split.
    - intros ([r [t| |]] & Hx & [= <-]); eauto.
    - intros (r & t & Hx & <-). by exists (r, Waiting t). }
  split_and!; [by intros id; rewrite Hk|..|done].
  unfold has_pending. rewrite negb_false_iff, bool_decide_eq_true. split.
  - intros Hnil r t Hx. assert (er_request_id r ∈ dkeys (eb_pending b)) by (apply Hk, Hin; eauto). rewrite Hnil in *. set_solver.
  - intros H. destruct (dkeys (eb_pending b)) as [|id l] eqn:E; [done|].
    destruct (proj1 (Hin id)) as (r & t & Hx & _); [apply Hk; set_solver|]. by destruct (H r t).
Qed.

Definition ask (id : string) : ElicitationRequest := from_message [("requestId", PStr id); ("timeout", PInt 0)] "x".
Lemma pending_exact_witness :
  let b := foldl el_step (new_bridge 120) [Register; Begin (ask "1"); Begin (ask "2"); End 0 (Returned (Some []))] in
  eb_tasks b = [(ask "1", Answered (response (ask "1") APPROVED [])); (ask "2", Waiting 120)] ∧ has_pending b = true ∧
  ∀ r a, (r, Answered a) ∈ eb_tasks b → rs_request_id a = er_request_id r ∧ rs_status a ≠ PENDING.
Proof.
  split; [done|split; [done|]].
  apply (pending_exact 120 [Register; Begin (ask "1"); Begin (ask "2"); End 0 (Returned (Some []))]).
  simpl. split_and!; try done; vm_compute; set_solver.
Defined.

(** Backends choose the identifiers: two requests with the same one share an
    entry, and the end of the first hides that the second still waits. *)
Lemma same_id_hides_pending :
  let b := foldl el_step (new_bridge 120) [Register; Begin (ask "1"); Begin (ask "1"); End 0 TimedOut] in
  has_pending b = false ∧ (ask "1", Waiting 120) ∈ eb_tasks b.
Proof. vm_compute. split; [done|]. right. left. Qed.
