(* ===== verification/Schema.v ===== *)
(** * Configuration schema: backends (config/schema_backends.py)

    The models of a backend and the validators written in the source.  A field
    holds a value of its declared type (the coercion of raw values to the field
    types is pydantic's); a validator returns the value to keep or the message
    of its [ValueError].  Of several errors the model keeps the first. *)
From S2P Require Import Prelude PyDict Effects Glob PyStr Url.
From Stdlib Require Import Ascii QArith.
#[global] Open Scope Z_scope.

(** ** Data *)

Record MetadataProvenance := {
  created_by : option string; updated_by : option string;
  created_via : option string; updated_via : option string;
  import_batch_id : option string; metadata_version : option Z }.

(** Durations in milliseconds, except the delay between retries, which the
    start-up code multiplies. *)
Record TimeoutConfig := {
  t_init : option Z; t_cap_fetch : option Z; t_sse_startup : option Z; t_startup : option Z;
  t_retries : option Z; t_retry_delay : option Q }.

Record CapabilityFilterConfig := { cf_allow : list string; cf_deny : list string }.
Record FiltersConfig := {
  filter_tools : CapabilityFilterConfig; filter_resources : CapabilityFilterConfig;
  filter_prompts : CapabilityFilterConfig }.
Record ToolOverrideEntry := { ov_name : option string; ov_description : option string }.

Inductive AuthConfig :=
  | StaticAuthConfig (headers : odict string string)
  | OAuth2AuthConfig (token_url client_id client_secret : string) (scopes : list string)
      (token_expiry_buffer_seconds : Z) (auth_retry_on_401 : bool)
  | PKCEAuthConfig (authorization_endpoint token_endpoint client_id client_secret : string)
      (scopes : list string) (token_expiry_buffer_seconds : Z) (auth_retry_on_401 : bool).

Record ContainerConfig := {
  cc_enabled : bool; cc_runtime : option string; cc_network : option string;
  cc_memory : option string; cc_cpus : option string; cc_volumes : list string;
  cc_extra_args : list string; cc_system_deps : list string; cc_build_system_deps : list string;
  cc_builder_image : option string; cc_additional_packages : list string;
  cc_transport : option string; cc_go_package : option string; cc_source_url : option string;
  cc_build_steps : list string; cc_entrypoint : option (list string);
  cc_build_env : odict string string; cc_source_ref : option string; cc_dockerfile : option string }.

Record StdioBackendConfig := {
  sb_command : string; sb_args : list string; sb_env : option (odict string string);
  sb_container : ContainerConfig; sb_group : string; sb_filters : FiltersConfig;
  sb_tool_overrides : odict string ToolOverrideEntry; sb_timeouts : TimeoutConfig;
  sb_meta : MetadataProvenance }.
Record SseBackendConfig := {
  ss_url : string; ss_command : option string; ss_args : list string;
  ss_env : option (odict string string); ss_headers : option (odict string string);
  ss_auth : option AuthConfig; ss_group : string; ss_filters : FiltersConfig;
  ss_tool_overrides : odict string ToolOverrideEntry; ss_timeouts : TimeoutConfig;
  ss_meta : MetadataProvenance }.
Record StreamableHttpBackendConfig := {
  sh_url : string; sh_headers : option (odict string string); sh_auth : option AuthConfig;
  sh_group : string; sh_filters : FiltersConfig; sh_tool_overrides : odict string ToolOverrideEntry;
  sh_timeouts : TimeoutConfig; sh_meta : MetadataProvenance }.

Inductive BackendConfig :=
  | Stdio (c : StdioBackendConfig)
  | Sse (c : SseBackendConfig)
  | StreamableHttp (c : StreamableHttpBackendConfig).

(** ** Constraints of the fields *)

Abbreviation verr := string (only parsing).

Definition in_bounds (lo : Z) (hi : option Z) (v : option Z) : bool :=
  match v with None => true | Some z => (lo <=? z) && match hi with Some h => z <=? h | None => true end end.
Definition delay_in_bounds (v : option Q) : bool :=
  match v with None => true | Some q => Qle_bool 0 q && Qle_bool q (inject_Z 120) end.

Definition validate_timeouts (t : TimeoutConfig) : verr + TimeoutConfig :=
  if in_bounds 0 None (t_init t) && in_bounds 0 None (t_cap_fetch t) && in_bounds 0 None (t_sse_startup t) &&
     in_bounds 0 None (t_startup t) && in_bounds 0 (Some 10) (t_retries t) && delay_in_bounds (t_retry_delay t)
  then inr t else inl "timeout out of bounds".

Definition min_length_1 (s : string) : bool := negb (bool_decide (s = "")).

Definition validate_auth (a : AuthConfig) : verr + AuthConfig :=
  match a with
  | StaticAuthConfig headers =>
      if negb (bool_decide (headers = [])) then inr a else inl "headers: at least 1 item"
  | OAuth2AuthConfig token_url client_id client_secret _ buffer _ =>
      if min_length_1 token_url && min_length_1 client_id && min_length_1 client_secret && (0 <=? buffer)
      then inr a else inl "oauth2 field"
  | PKCEAuthConfig authorization_endpoint token_endpoint client_id _ _ buffer _ =>
      if min_length_1 authorization_endpoint && min_length_1 token_endpoint && min_length_1 client_id && (0 <=? buffer)
      then inr a else inl "pkce field"
  end.

(** ** Validators of the container section *)

Definition DANGEROUS_DOCKER_FLAGS : list string :=
  ["--privileged"; "--cap-add"; "--security-opt"; "--device"; "--pid"; "--ipc"; "--userns"; "--uts";
   "--network=host"; "--net=host"; "--add-host"; "--volume"; "-v"; "--mount"].

Definition equals_sign : ascii := ascii_of_nat 61.
Definition colon : ascii := ascii_of_nat 58.
Definition slash : ascii := ascii_of_nat 47.

Definition docker_flag (arg : string) : string := str_strip (default "" (head (str_split equals_sign arg))).
Definition _validate_extra_args (v : list string) : verr + list string :=
  _ ← check_each (λ arg,
        if bool_decide (arg ∈ DANGEROUS_DOCKER_FLAGS) || bool_decide (docker_flag arg ∈ DANGEROUS_DOCKER_FLAGS)
        then inl ("Dangerous Docker flag not allowed in extra_args: " +:+ arg) else inr tt) v;
  inr v.

Section validators.
(** [Path(p).resolve()] on the machine the program runs on, the value of
    [ARGUS_VOLUME_ALLOWED_PREFIXES], and [ipaddress.ip_address]: [None] when the
    text is no address, else whether the address is private, loopback or
    reserved. *)
Context (resolve : string → string) (allowed_prefixes : option string)
  (bracket_ok : string → bool) (ip_class : string → option bool).

Definition allowed_roots : list string :=
  resolve <$> keep (λ p, negb (bool_decide (p = "")))
    (str_split colon (default "/tmp:/data:/workspace" allowed_prefixes)).

Definition under_root (host_path : string) (a : string) : bool :=
  bool_decide (host_path = a) || startswith host_path (a +:+ "/").

Definition _validate_volumes (v : list string) : verr + list string :=
  _ ← check_each (λ vol,
        let host_part := default "" (head (str_split colon vol)) in
        if bool_decide (host_part = "") then inr tt
        else if existsb (under_root (resolve host_part)) allowed_roots then inr tt
        else inl ("Volume host path is not within allowed prefixes: " +:+ vol)) v;
  inr v.

Definition _validate_transport (v : option string) : verr + option string :=
  match v with
  | None => inr None
  | Some t =>
      let t' := lower (str_strip t) in
      if bool_decide (t' ∈ ["uvx"; "npx"; "go"]) then inr (Some t')
      else inl ("Invalid transport '" +:+ t' +:+ "'")
  end.

Definition _validate_network (v : option string) : verr + option string := inr (str_strip <$> v).

Definition _validate_source_url (v : option string) : verr + option string :=
  match v with
  | None => inr None
  | Some raw =>
      let v' := str_strip raw in
      if bool_decide (v' = "") then inr None else
      match urlparse bracket_ok v' with
      | None => inl "Invalid IPv6 URL"
      | Some parsed =>
          if negb (bool_decide (lower (url_scheme parsed) ∈ ["https"; "git+ssh"]))
          then inl "source_url scheme must be https or git+ssh"
          else
            let hostname := default "" (url_hostname parsed) in
            if bool_decide (hostname = "") then inr (Some v') else
            match ip_class hostname with
            | Some true => inl "source_url must not point to private/loopback addresses"
            | Some false =>
                if bool_decide (lower hostname ∈ ["localhost"; "localhost.localdomain"])
                then inl "source_url must not point to localhost" else inr (Some v')
            | None =>
                (* the message of the parse error quotes the host name *)
                if contains hostname "private" || contains hostname "loopback"
                then inl (hostname +:+ " does not appear to be an IPv4 or IPv6 address")
                else if bool_decide (lower hostname ∈ ["localhost"; "localhost.localdomain"])
                then inl "source_url must not point to localhost" else inr (Some v')
            end
      end
  end.

Definition char_in (codes : list nat) (c : ascii) : bool := bool_decide (code c ∈ codes).
Definition none_of (codes : list nat) (s : string) : bool := negb (existsb (char_in codes) (chars s)).

(** back quote, dollar and parentheses *)
Definition step_unsafe : list nat := [96; 36; 40; 41]%nat.
Definition _validate_build_steps (v : list string) : verr + list string :=
  _ ← check_each (λ s, if none_of step_unsafe s then inr tt
                       else inl ("build_steps entry contains unsafe characters: " +:+ s)) v;
  inr v.

Definition entry_unsafe : list nat :=
  [59; 38; 124; 96; 36; 40; 41; 123; 125; 91; 93; 60; 62; 33; 35; 126; 92; 10; 13]%nat.
Definition _validate_entrypoint (v : option (list string)) : verr + option (list string) :=
  match v with
  | None => inr None
  | Some l =>
      _ ← check_each (λ s, if none_of entry_unsafe s then inr tt
                           else inl ("entrypoint element contains unsafe characters: " +:+ s)) l;
      inr (Some l)
  end.

Definition is_upper (c : ascii) : bool := let n := code c in Nat.leb 65 n && Nat.leb n 90.
Definition env_key_char (c : ascii) : bool := is_upper c || is_digit c || is_char 95 c.
(** The pattern is [^[A-Z][A-Z0-9_]*$]; the dollar also matches before a final newline. *)
Definition env_key_ok (key : string) : bool :=
  match chars key with
  | [] => false
  | c :: l => is_upper c && match (span env_key_char l).2 with
                            | [] => true
                            | [e] => is_char 10 e
                            | _ => false
                            end
  end.
Definition _validate_build_env (v : odict string string) : verr + odict string string :=
  _ ← check_each (λ key, if env_key_ok key then inr tt
                         else inl ("build_env key must be uppercase letters/digits/underscore: " +:+ key)) (dkeys v);
  inr v.

(** The parts of a [PurePosixPath]: empty parts and single dots are dropped. *)
Definition path_parts (p : string) : list string :=
  keep (λ s, negb (bool_decide (s = "")) && negb (bool_decide (s = "."))) (str_split slash p).
Definition _validate_dockerfile (v : option string) : verr + option string :=
  match v with
  | None => inr None
  | Some raw =>
      let v' := str_strip raw in
      if bool_decide (v' = "") then inr None
      else if startswith v' "/" then inl ("dockerfile must be a relative path: " +:+ v')
      else if bool_decide (".." ∈ path_parts v') then inl ("dockerfile must not contain '..': " +:+ v')
      else inr (Some v')
  end.

Definition _validate_source_url_deps (c : ContainerConfig) : verr + ContainerConfig :=
  if str_truthy (cc_source_url c) then
    if bool_decide (cc_build_steps c = []) then inl "build_steps is required when source_url is set"
    else match cc_entrypoint c with
         | None | Some [] => inl "entrypoint is required when source_url is set"
         | Some _ => inr c
         end
  else inr c.

Definition runtime_ok (r : option string) : bool :=
  match r with None => true | Some s => bool_decide (s ∈ ["docker"; "podman"; "kubernetes"]) end.

Definition validate_container (c : ContainerConfig) : verr + ContainerConfig :=
  _ ← (if runtime_ok (cc_runtime c) then inr tt else inl "runtime");
  network ← _validate_network (cc_network c);
  volumes ← _validate_volumes (cc_volumes c);
  extra_args ← _validate_extra_args (cc_extra_args c);
  transport ← _validate_transport (cc_transport c);
  source_url ← _validate_source_url (cc_source_url c);
  build_steps ← _validate_build_steps (cc_build_steps c);
  entrypoint ← _validate_entrypoint (cc_entrypoint c);
  build_env ← _validate_build_env (cc_build_env c);
  dockerfile ← _validate_dockerfile (cc_dockerfile c);
  _validate_source_url_deps
    {| cc_enabled := cc_enabled c; cc_runtime := cc_runtime c; cc_network := network;
       cc_memory := cc_memory c; cc_cpus := cc_cpus c; cc_volumes := volumes;
       cc_extra_args := extra_args; cc_system_deps := cc_system_deps c;
       cc_build_system_deps := cc_build_system_deps c; cc_builder_image := cc_builder_image c;
       cc_additional_packages := cc_additional_packages c; cc_transport := transport;
       cc_go_package := cc_go_package c; cc_source_url := source_url; cc_build_steps := build_steps;
       cc_entrypoint := entrypoint; cc_build_env := build_env; cc_source_ref := cc_source_ref c;
       cc_dockerfile := dockerfile |}.

(** ** Validators of the backends *)

Definition _validate_url (v : string) : verr + string :=
  let v' := str_strip v in
  if startswith v' "http://" || startswith v' "https://" then inr v'
  else inl ("URL '" +:+ v' +:+ "' must start with http:// or https://").

Definition validate_opt_auth (a : option AuthConfig) : verr + option AuthConfig :=
  match a with None => inr None | Some a => a' ← validate_auth a; inr (Some a') end.

Definition version_ok (m : MetadataProvenance) : bool := in_bounds 1 None (metadata_version m).

Definition validate_stdio (c : StdioBackendConfig) : verr + StdioBackendConfig :=
  _ ← (if version_ok (sb_meta c) then inr tt else inl "metadata_version");
  command ← (if min_length_1 (sb_command c) then inr (str_strip (sb_command c)) else inl "command");
  container ← validate_container (sb_container c);
  timeouts ← validate_timeouts (sb_timeouts c);
  inr {| sb_command := command; sb_args := sb_args c; sb_env := sb_env c; sb_container := container;
         sb_group := sb_group c; sb_filters := sb_filters c; sb_tool_overrides := sb_tool_overrides c;
         sb_timeouts := timeouts; sb_meta := sb_meta c |}.

(** [_strip_command] of an SSE backend *)
Definition sse_command (v : option string) : verr + option string :=
  match v with
  | None => inr None
  | Some s => let s' := str_strip s in
              if bool_decide (s' = "") then inl "command must be a non-empty string if provided" else inr (Some s')
  end.

Definition validate_sse (c : SseBackendConfig) : verr + SseBackendConfig :=
  _ ← (if version_ok (ss_meta c) then inr tt else inl "metadata_version");
  url ← (if min_length_1 (ss_url c) then _validate_url (ss_url c) else inl "url");
  command ← sse_command (ss_command c);
  auth ← validate_opt_auth (ss_auth c);
  timeouts ← validate_timeouts (ss_timeouts c);
  inr {| ss_url := url; ss_command := command; ss_args := ss_args c; ss_env := ss_env c;
         ss_headers := ss_headers c; ss_auth := auth; ss_group := ss_group c; ss_filters := ss_filters c;
         ss_tool_overrides := ss_tool_overrides c; ss_timeouts := timeouts; ss_meta := ss_meta c |}.

Definition validate_streamable (c : StreamableHttpBackendConfig) : verr + StreamableHttpBackendConfig :=
  _ ← (if version_ok (sh_meta c) then inr tt else inl "metadata_version");
  url ← (if min_length_1 (sh_url c) then _validate_url (sh_url c) else inl "url");
  auth ← validate_opt_auth (sh_auth c);
  timeouts ← validate_timeouts (sh_timeouts c);
  inr {| sh_url := url; sh_headers := sh_headers c; sh_auth := auth; sh_group := sh_group c;
         sh_filters := sh_filters c; sh_tool_overrides := sh_tool_overrides c; sh_timeouts := timeouts;
         sh_meta := sh_meta c |}.

Definition validate_backend (b : BackendConfig) : verr + BackendConfig :=
  match b with
  | Stdio c => c' ← validate_stdio c; inr (Stdio c')
  | Sse c => c' ← validate_sse c; inr (Sse c')
  | StreamableHttp c => c' ← validate_streamable c; inr (StreamableHttp c')
  end.
End validators.

(** ** What acceptance means *)

Section accepted.
Context (resolve : string → string) (allowed_prefixes : option string)
  (bracket_ok : string → bool) (ip_class : string → option bool).

Local Abbreviation container_ok := (validate_container resolve allowed_prefixes bracket_ok ip_class).
Local Abbreviation backend_ok := (validate_backend resolve allowed_prefixes bracket_ok ip_class).

(** A list that passed an element-wise check is returned unchanged. *)
Lemma checked_list {A} (f : A → string + unit) (l l' : list A) :
  (_ ← check_each f l; inr l) = inr l' ↔ l' = l ∧ Forall (λ x, f x = inr tt) l.
Proof.
  rewrite sum_bind_inr. split.
  - intros (u & H & [= <-]). by apply check_each_inr in H.
  - intros [-> H]. exists tt. by rewrite check_each_inr.
Qed.

Lemma if_inr_iff {E A} (b : bool) (e : E) (x y : A) : (if b then inr x else inl e) = inr y ↔ b = true ∧ x = y.
Proof. destruct b; naive_solver. Qed.

Lemma if_inl_iff {E A} (b : bool) (e : E) (x y : A) : (if b then inl e else inr x) = inr y ↔ b = false ∧ x = y.
Proof. destruct b; naive_solver. Qed.

(** The result of the validation, field by field. *)
Lemma validate_container_inv c c' :
  container_ok c = inr c' →
  runtime_ok (cc_runtime c') = true ∧
  _validate_network (cc_network c) = inr (cc_network c') ∧
  _validate_volumes resolve allowed_prefixes (cc_volumes c) = inr (cc_volumes c') ∧
  _validate_extra_args (cc_extra_args c) = inr (cc_extra_args c') ∧
  _validate_transport (cc_transport c) = inr (cc_transport c') ∧
  _validate_source_url bracket_ok ip_class (cc_source_url c) = inr (cc_source_url c') ∧
  _validate_build_steps (cc_build_steps c) = inr (cc_build_steps c') ∧
  _validate_entrypoint (cc_entrypoint c) = inr (cc_entrypoint c') ∧
  _validate_build_env (cc_build_env c) = inr (cc_build_env c') ∧
  _validate_dockerfile (cc_dockerfile c) = inr (cc_dockerfile c') ∧
  _validate_source_url_deps c' = inr c'.
Proof.
  unfold validate_container. intros H.
  repeat (let x := fresh "x" in let E := fresh "E" in apply sum_bind_inr in H as (x & E & H)).
  apply if_inr_iff in E as [E _].
  assert (∀ d d', _validate_source_url_deps d = inr d' → d' = d) as Hd.
  { intros d d'. unfold _validate_source_url_deps. repeat case_match; naive_solver. }
  pose proof (Hd _ _ H) as E'. subst c'. simpl. split_and!; done.
Qed.

(** Rebuilding a validated configuration gives the same configuration. *)
Lemma validate_container_intro c :
  runtime_ok (cc_runtime c) = true →
  _validate_network (cc_network c) = inr (cc_network c) →
  _validate_volumes resolve allowed_prefixes (cc_volumes c) = inr (cc_volumes c) →
  _validate_extra_args (cc_extra_args c) = inr (cc_extra_args c) →
  _validate_transport (cc_transport c) = inr (cc_transport c) →
  _validate_source_url bracket_ok ip_class (cc_source_url c) = inr (cc_source_url c) →
  _validate_build_steps (cc_build_steps c) = inr (cc_build_steps c) →
  _validate_entrypoint (cc_entrypoint c) = inr (cc_entrypoint c) →
  _validate_build_env (cc_build_env c) = inr (cc_build_env c) →
  _validate_dockerfile (cc_dockerfile c) = inr (cc_dockerfile c) →
  _validate_source_url_deps c = inr c →
  container_ok c = inr c.
Proof.
  intros H0 H1 H2 H3 H4 H5 H6 H7 H8 H9 H10. unfold validate_container, mbind, sum_bind.
  rewrite H0, H1, H2, H3, H4, H5, H6, H7, H8, H9. by destruct c.
Qed.

Lemma checked_list_again {A} (f : A → string + unit) (l l' : list A) :
  (_ ← check_each f l; inr l) = inr l' → (_ ← check_each f l'; inr l') = inr l'.
Proof. rewrite !checked_list. by intros [-> H]. Qed.

Lemma validate_source_url_again v v' :
  _validate_source_url bracket_ok ip_class v = inr v' → _validate_source_url bracket_ok ip_class v' = inr v'.
Proof.
  destruct v as [raw|]; [|by intros [= <-]]. unfold _validate_source_url at 1.
  destruct (bool_decide (str_strip raw = "")) eqn:E0; [by intros [= <-]|]. intros H.
  assert (v' = Some (str_strip raw)) as -> by (repeat case_match; congruence).
  unfold _validate_source_url. by rewrite str_strip_idemp, E0.
Qed.

Lemma validate_dockerfile_again v v' :
  _validate_dockerfile v = inr v' → _validate_dockerfile v' = inr v'.
Proof.
  destruct v as [raw|]; [|by intros [= <-]]. unfold _validate_dockerfile at 1.
  destruct (bool_decide (str_strip raw = "")) eqn:E0; [by intros [= <-]|]. intros H.
  assert (v' = Some (str_strip raw)) as -> by (repeat case_match; congruence).
  unfold _validate_dockerfile. by rewrite str_strip_idemp, E0.
Qed.

Lemma validate_transport_again v v' : _validate_transport v = inr v' → _validate_transport v' = inr v'.
Proof.
  destruct v as [t|]; [|by intros [= <-]]. unfold _validate_transport at 1. case_bool_decide as Hin; [|done].
  intros [= <-]. rewrite !list_elem_of_In in Hin. simpl in Hin.
  destruct Hin as [<-|[<-|[<-|[]]]]; reflexivity.
Qed.

Lemma validate_container_again c c' : container_ok c = inr c' → container_ok c' = inr c'.
Proof.
  intros (H0 & H1 & H2 & H3 & H4 & H5 & H6 & H7 & H8 & H9 & H10)%validate_container_inv.
  apply validate_container_intro; try done; eauto using checked_list_again, validate_source_url_again,
    validate_dockerfile_again, validate_transport_again.
  - unfold _validate_network in *. injection H1 as <-. f_equal. destruct (cc_network c); [|done].
    simpl. by rewrite str_strip_idemp.
  - unfold _validate_entrypoint in *. destruct (cc_entrypoint c); [|by injection H7 as <-].
    apply sum_bind_inr in H7 as (u & Hu & [= <-]). by rewrite Hu.
  - unfold _validate_build_env in *. apply sum_bind_inr in H8 as (u & Hu & [= <-]). by rewrite Hu.
Qed.
End accepted.

(** A blank command passes the length check and is then stripped to nothing. *)
Definition blank_stdio (b : BackendConfig) : bool :=
  match b with Stdio c => bool_decide (sb_command c = "") | _ => false end.

Section claims.
Context (resolve : string → string) (allowed_prefixes : option string)
  (bracket_ok : string → bool) (ip_class : string → option bool).

Lemma validate_timeouts_inv t t' : validate_timeouts t = inr t' → t' = t.
Proof. unfold validate_timeouts. by intros [_ <-]%if_inr_iff. Qed.

Lemma validate_opt_auth_inv a a' : validate_opt_auth a = inr a' → a' = a.
Proof.
  destruct a as [a|]; [|by intros [= <-]]. intros (x & Hx & [= <-])%sum_bind_inr. f_equal.
  destruct a; simpl in Hx; by apply if_inr_iff in Hx as [_ <-].
Qed.

Lemma validate_url_again v v' : _validate_url v = inr v' → _validate_url v' = inr v' ∧ v' ≠ "".
Proof.
  unfold _validate_url. intros [H <-]%if_inr_iff. rewrite str_strip_idemp. rewrite H. split; [done|].
  intros E. rewrite E in H. vm_compute in H. done.
Qed.

(** Validation is idempotent.  A backend that was accepted is accepted
    again, unchanged, when it is validated a second time (as an exported
    configuration is when it is imported), for every kind of backend and
    whatever the file system, the address classes and the allowed volume roots
    are, with one exception: a stdio backend whose command consists of blanks
    is accepted with an empty command and rejected the second time. *)
Theorem validation_idempotent (b b' : BackendConfig)
    (Hvalid : validate_backend resolve allowed_prefixes bracket_ok ip_class b = inr b') :
  if blank_stdio b' then ∃ e, validate_backend resolve allowed_prefixes bracket_ok ip_class b' = inl e
  else validate_backend resolve allowed_prefixes bracket_ok ip_class b' = inr b'.
Proof.
  destruct b as [c|c|c]; cbn [validate_backend] in Hvalid; apply sum_bind_inr in Hvalid as (c' & H & [= <-]).
  - unfold validate_stdio in H. peel H as u Hm. peel H as cmd Hc.
    peel H as ct Hct. apply sum_bind_inr in H as (t & Ht & [= <-]).
    apply if_inr_iff in Hm as [Hm _]. apply if_inr_iff in Hc as [Hc <-].
    cbn [blank_stdio sb_command]. cbn [validate_backend]. unfold validate_stdio, min_length_1. simpl. rewrite Hm.
    destruct (bool_decide (str_strip (sb_command c) = "")); [eexists; reflexivity|].
    unfold mbind, sum_bind. cbn [negb]. rewrite (validate_container_again _ _ _ _ _ _ Hct).
    pose proof (validate_timeouts_inv _ _ Ht). subst t. by rewrite Ht, str_strip_idemp.
  - unfold validate_sse in H. peel H as u Hm. peel H as url Hu.
    peel H as cmd Hc. peel H as a Ha.
    apply sum_bind_inr in H as (t & Ht & [= <-]). apply if_inr_iff in Hm as [Hm _].
    destruct (min_length_1 (ss_url c)); [|done]. apply validate_url_again in Hu as [Hu Hne].
    cbn [blank_stdio validate_backend]. unfold validate_sse. simpl. rewrite Hm. unfold mbind, sum_bind.
    pose proof (validate_timeouts_inv _ _ Ht). pose proof (validate_opt_auth_inv _ _ Ha). subst t a.
    unfold min_length_1. rewrite bool_decide_false by done. cbn [negb]. rewrite Hu, Ha, Ht.
    assert (sse_command cmd = inr cmd) as ->; [|done].
    unfold sse_command in *. destruct (ss_command c) as [s|]; [|by injection Hc as <-].
    apply if_inl_iff in Hc as [Hc <-]. by rewrite str_strip_idemp, Hc.
  - unfold validate_streamable in H. peel H as u Hm. peel H as url Hu.
    peel H as a Ha. apply sum_bind_inr in H as (t & Ht & [= <-]).
    apply if_inr_iff in Hm as [Hm _]. destruct (min_length_1 (sh_url c)); [|done].
    apply validate_url_again in Hu as [Hu Hne].
    cbn [blank_stdio validate_backend]. unfold validate_streamable. simpl. rewrite Hm. unfold mbind, sum_bind.
    pose proof (validate_timeouts_inv _ _ Ht). pose proof (validate_opt_auth_inv _ _ Ha). subst t a.
    unfold min_length_1. rewrite bool_decide_false by done. cbn [negb]. by rewrite Hu, Ha, Ht.
Qed.

(** What an accepted source URL satisfies. *)
Lemma accepted_source_url u :
  _validate_source_url bracket_ok ip_class (Some u) = inr (Some u) →
  u ≠ "" ∧ ∃ parsed, urlparse bracket_ok u = Some parsed ∧ lower (url_scheme parsed) ∈ ["https"; "git+ssh"] ∧
    (∀ host, url_hostname parsed = Some host → host ≠ "" →
       ip_class host ≠ Some true ∧ (lower host ∉ ["localhost"; "localhost.localdomain"])).
Proof.
  unfold _validate_source_url. destruct (bool_decide (str_strip u = "")) eqn:E0; [done|].
  destruct (urlparse bracket_ok (str_strip u)) as [parsed|] eqn:Ep; [|done].
  destruct (bool_decide (lower (url_scheme parsed) ∈ _)) eqn:Esch; [cbn [negb]|done]. intros H.
  assert (str_strip u = u) as Hu by (repeat case_match; congruence). rewrite Hu in *. reflect_bools.
  split; [done|]. exists parsed. split_and!; [done|done|]. intros host Hh Hne. rewrite Hh in H. simpl in H.
  rewrite bool_decide_false in H by done. destruct (ip_class host) as [[]|]; [done| |].
  - destruct (bool_decide (lower host ∈ _)) eqn:El; [done|]. by reflect_bools.
  - destruct (_ || _); [done|]. destruct (bool_decide (lower host ∈ _)) eqn:El; [done|]. by reflect_bools.
Qed.

(** Container hardening.  A container section that the schema accepts gives
    the container runtime no flag of the deny list (bare or with a value
    attached by an equals sign), mounts host paths only below an allowed root,
    keeps shell metacharacters out of build steps and entry points, points to a
    Dockerfile below the configuration only, and builds from source only over
    https or git+ssh from a host that is neither localhost nor a private
    address, with build steps and an entry point. *)
Theorem accepted_container_hardened (c c' : ContainerConfig)
    (Hvalid : validate_container resolve allowed_prefixes bracket_ok ip_class c = inr c') :
  (∀ arg, arg ∈ cc_extra_args c' → (arg ∉ DANGEROUS_DOCKER_FLAGS) ∧ (docker_flag arg ∉ DANGEROUS_DOCKER_FLAGS)) ∧
  (∀ vol, vol ∈ cc_volumes c' → let host := default "" (head (str_split colon vol)) in
     host = "" ∨ ∃ root, root ∈ allowed_roots resolve allowed_prefixes ∧
       (resolve host = root ∨ startswith (resolve host) (root +:+ "/") = true)) ∧
  (∀ step ch, step ∈ cc_build_steps c' → ch ∈ chars step → code ch ∉ step_unsafe) ∧
  (∀ l elem ch, cc_entrypoint c' = Some l → elem ∈ l → ch ∈ chars elem → code ch ∉ entry_unsafe) ∧
  (∀ d, cc_dockerfile c' = Some d → startswith d "/" = false ∧ (".." ∉ path_parts d)) ∧
  (∀ u, cc_source_url c' = Some u → ∃ parsed, urlparse bracket_ok u = Some parsed ∧
     lower (url_scheme parsed) ∈ ["https"; "git+ssh"] ∧
     (∀ host, url_hostname parsed = Some host → host ≠ "" →
        ip_class host ≠ Some true ∧ (lower host ∉ ["localhost"; "localhost.localdomain"])) ∧
     cc_build_steps c' ≠ [] ∧ ∃ e l, cc_entrypoint c' = Some (e :: l)).
Proof.
  apply validate_container_again in Hvalid.
  apply validate_container_inv in Hvalid as (_ & _ & H2 & H3 & _ & H5 & H6 & H7 & _ & H9 & H10).
  assert (∀ codes s ch, none_of codes s = true → ch ∈ chars s → code ch ∉ codes) as Hnone.
  { intros codes s ch Hn Hch. unfold none_of in Hn. apply negb_true_iff in Hn. intros Hin.
    apply not_true_iff_false in Hn. apply Hn, existsb_elem_of. exists ch. split; [done|]. by apply bool_decide_eq_true. }
  split_and!.
  - apply checked_list in H3 as [_ H]. intros arg Harg. rewrite Forall_forall in H.
    specialize (H arg Harg). simpl in H. destruct (bool_decide (arg ∈ _)) eqn:E1; [done|].
    destruct (bool_decide (docker_flag arg ∈ _)) eqn:E2; [done|]. reflect_bools. done.
  - apply checked_list in H2 as [_ H]. intros vol Hvol. rewrite Forall_forall in H.
    specialize (H vol Hvol). simpl in H |- *. destruct (bool_decide (_ = "")) eqn:E; reflect_bools; [by left|right].
    destruct (existsb _ _) eqn:Ee; [|done]. apply existsb_elem_of in Ee as (root & Hr & Hu). exists root.
    split; [done|]. unfold under_root in Hu. apply orb_true_iff in Hu as [Hu|Hu]; reflect_bools; auto.
  - apply checked_list in H6 as [_ H]. intros step ch Hs Hch. rewrite Forall_forall in H.
    specialize (H step Hs). simpl in H. apply if_inr_iff in H as [H _]. by eapply Hnone.
  - intros l elem ch E He Hch. unfold _validate_entrypoint in H7. rewrite E in H7. peel H7 as u Hu.
    apply check_each_inr in Hu. rewrite Forall_forall in Hu. specialize (Hu elem He). simpl in Hu.
    apply if_inr_iff in Hu as [Hu _]. by eapply Hnone.
  - intros d E. unfold _validate_dockerfile in H9. rewrite E in H9.
    destruct (bool_decide (str_strip d = "")); [done|]. destruct (startswith (str_strip d) "/") eqn:Es; [done|].
    destruct (bool_decide (".." ∈ _)) eqn:Ed; [done|]. injection H9 as Hd. rewrite Hd in *. by reflect_bools.
  - intros u E. rewrite E in H5. destruct (accepted_source_url u H5) as (Hne & parsed & Hp & Hs & Hh).
    exists parsed. unfold _validate_source_url_deps in H10. rewrite E in H10. simpl in H10.
    rewrite bool_decide_false in H10 by done. simpl in H10. split_and!; [done|done|done| |].
    + intros Hb. by rewrite bool_decide_true in H10.
    + destruct (bool_decide (cc_build_steps c' = [])); [done|].
      destruct (cc_entrypoint c') as [[|e l]|]; naive_solver.
Qed.
End claims.

(** ** Examples and boundary cases *)

Definition default_container : ContainerConfig := {|
  cc_enabled := true; cc_runtime := None; cc_network := None; cc_memory := None; cc_cpus := None;
  cc_volumes := []; cc_extra_args := []; cc_system_deps := []; cc_build_system_deps := [];
  cc_builder_image := None; cc_additional_packages := []; cc_transport := None; cc_go_package := None;
  cc_source_url := None; cc_build_steps := []; cc_entrypoint := None; cc_build_env := [];
  cc_source_ref := None; cc_dockerfile := None |}.
Definition with_args (args volumes : list string) (source : option string) : ContainerConfig := {|
  cc_enabled := true; cc_runtime := Some "docker"; cc_network := Some " none "; cc_memory := None; cc_cpus := None;
  cc_volumes := volumes; cc_extra_args := args; cc_system_deps := []; cc_build_system_deps := [];
  cc_builder_image := None; cc_additional_packages := []; cc_transport := Some " UVX"; cc_go_package := None;
  cc_source_url := source; cc_build_steps := ["pip install ."]; cc_entrypoint := Some ["python"; "-m"; "x"];
  cc_build_env := [("A_1", "v")]; cc_source_ref := None; cc_dockerfile := Some "docker/Dockerfile" |}.

Definition no_ip : string → option bool := λ _, None.
Definition default_meta : MetadataProvenance := {|
  created_by := None; updated_by := None; created_via := None; updated_via := None;
  import_batch_id := None; metadata_version := None |}.
Definition default_timeouts : TimeoutConfig := {|
  t_init := None; t_cap_fetch := None; t_sse_startup := None; t_startup := None; t_retries := None;
  t_retry_delay := None |}.
Definition default_filters : FiltersConfig :=
  let f := {| cf_allow := []; cf_deny := [] |} in
  {| filter_tools := f; filter_resources := f; filter_prompts := f |}.
Definition stdio_backend (command : string) : BackendConfig := Stdio {|
  sb_command := command; sb_args := ["server"]; sb_env := None; sb_container := default_container;
  sb_group := "default"; sb_filters := default_filters; sb_tool_overrides := [];
  sb_timeouts := default_timeouts; sb_meta := default_meta |}.

Lemma accepted_container_hardened_witness :
  let c := with_args ["--cpus=2"; "--init"] ["/data/x:/x:ro"; ":/y"] (Some " https://example.com/r.git ") in
  ∃ c', validate_container (λ p, p) None (λ _, true) no_ip c = inr c' ∧
    cc_source_url c' = Some "https://example.com/r.git" ∧ cc_transport c' = Some "uvx" ∧
    cc_network c' = Some "none" ∧ docker_flag "--cpus=2" ∉ DANGEROUS_DOCKER_FLAGS.
Proof.
  intros c. eexists. split; [vm_compute; reflexivity|]. split_and!; [done|done|done|].
  refine (proj2 (proj1 (accepted_container_hardened (λ p, p) None (λ _, true) no_ip c _ _) "--cpus=2" _));
    [vm_compute; reflexivity|by_decide].
Defined.

Lemma validation_idempotent_witness :
  let v := validate_backend (λ p, p) None (λ _, true) no_ip in
  v (stdio_backend " uvx ") = inr (stdio_backend "uvx") ∧ v (stdio_backend "uvx") = inr (stdio_backend "uvx") ∧
  v (stdio_backend "  ") = inr (stdio_backend "") ∧ ∃ e, v (stdio_backend "") = inl e.
Proof.
  intros v. split_and!; [vm_compute; reflexivity| |vm_compute; reflexivity|].
  - exact (validation_idempotent (λ p, p) None (λ _, true) no_ip (stdio_backend " uvx ") (stdio_backend "uvx") eq_refl).
  - exact (validation_idempotent (λ p, p) None (λ _, true) no_ip (stdio_backend "  ") (stdio_backend "") eq_refl).
Defined.

(** The deny list has [--network=host] but not the flag itself: the two-word
    form of the same option, and the short volume flag with its value attached,
    pass the check. *)
Example split_network_flag_accepted :
  _validate_extra_args ["--network"; "host"; "-v/etc:/etc"; "--net"; "host"] =
    inr ["--network"; "host"; "-v/etc:/etc"; "--net"; "host"].
Proof. vm_compute. reflexivity. Qed.

(** A public host whose name contains the word "private" is rejected. *)
Example private_in_name_rejected : ∃ e,
  _validate_source_url (λ _, true) no_ip (Some "https://git.private-labs.com/r.git") = inl e.
Proof. eexists. vm_compute. reflexivity. Qed.
