(* ===== verification/BackendForm.v ===== *)
(** * The form for a backend

    tui/screens/backend_config.py: the form that adds a backend, what it makes of its
    fields and what it checks; tui/_config_ops.py: writing the result into the
    configuration file.  [model_of] reads the result with the fields that
    config/schema_backends.py declares, which is how the server reads the file: a model
    of pydantic ignores the keys it does not declare. *)
From S2P Require Import Prelude PyDict Effects PyStr Schema.
From Stdlib Require Import Ascii.
#[local] Open Scope Z_scope.

(** ** The texts of the fields *)

(** [s.split()] *)
Fixpoint words_go (cur : list ascii) (l : list ascii) : list string :=
  match l with
  | [] => match cur with [] => [] | _ => [text (rev cur)] end
  | c :: rest => if is_blank_char c then match cur with [] => words_go [] rest | _ => text (rev cur) :: words_go [] rest end else words_go (c :: cur) rest
  end.
Definition words (s : string) : list string := words_go [] (chars s).

Definition comma : ascii := ascii_of_nat 44.
(** [pair.split(sep, 1)] when [sep] is in it. *)
Definition key_value (sep : ascii) (pair : string) : option (string * string) :=
  match span (λ c, negb (bool_decide (c = sep))) (chars pair) with
  | (k, _ :: v) => Some (str_strip (text k), str_strip (text v))
  | _ => None
  end.
Definition _parse_kv_string (s : string) (sep : ascii) : odict string string :=
  foldl (λ result pair, match key_value sep (str_strip pair) with Some (k, v) => dset result k v | None => result end) [] (str_split comma s).
Definition drop_first (s : string) : string := text (drop 1 (chars s)).
Definition _parse_filter_patterns (s : string) : odict string pyval :=
  let pats := str_strip <$> str_split comma s in
  let include := omap (λ p, if startswith p "-" then None else Some (if startswith p "+" then drop_first p else p)) pats in
  let exclude := omap (λ p, if startswith p "-" then Some (drop_first p) else None) pats in
  (match include with [] => [] | l => [("include", PList (PStr <$> l))] end) ++ (match exclude with [] => [] | l => [("exclude", PList (PStr <$> l))] end).

(** ** The form *)

Inductive transport := TStdio | TSse | TStreamableHttp.
Definition transport_name (t : transport) : string := match t with TStdio => "stdio" | TSse => "sse" | TStreamableHttp => "streamable-http" end.
Record form := {
  fm_name : string; fm_transport : option transport; fm_command : string; fm_args : string; fm_env : string; fm_url : string; fm_headers : string;
  fm_timeout : string; fm_filters : string; fm_enabled : bool; fm_group : string }.
Definition nonempty (s : string) : bool := negb (bool_decide (s = "")).
Definition entry_if (b : bool) (k : string) (v : pyval) : odict string pyval := if b then [(k, v)] else [].
Definition str_dict (d : odict string string) : pyval := PDict ((λ kv, (kv.1, PStr kv.2)) <$> d).
Definition kv_field (k : string) (s : string) (sep : ascii) : odict string pyval :=
  let d := _parse_kv_string (str_strip s) sep in entry_if (nonempty (str_strip s) && negb (bool_decide (d = []))) k (str_dict d).

Section form.
Context (py_int : string → option Z).

Definition _build_stdio_fields (f : form) : option (odict string pyval) :=
  let command := str_strip (fm_command f) in
  if nonempty command then
    Some ([("command", PStr command)] ++ entry_if (nonempty (str_strip (fm_args f))) "args" (PList (PStr <$> words (str_strip (fm_args f)))) ++
          kv_field "env" (fm_env f) (ascii_of_nat 61))
  else None.
Definition _build_remote_fields (f : form) : option (odict string pyval) :=
  let url := str_strip (fm_url f) in
  if nonempty url then Some ([("url", PStr url)] ++ kv_field "headers" (fm_headers f) (ascii_of_nat 58)) else None.
Definition timeout_field (f : form) : odict string pyval :=
  let timeout := str_strip (fm_timeout f) in
  if nonempty timeout then match py_int timeout with Some z => [("timeout", PInt z)] | None => [] end else [].
Definition filters_field (f : form) : odict string pyval :=
  let filters := str_strip (fm_filters f) in
  if nonempty filters then match _parse_filter_patterns filters with [] => [] | d => [("filters", PDict d)] end else [].
Definition _apply_common_fields (f : form) : odict string pyval :=
  timeout_field f ++ filters_field f ++ entry_if (negb (fm_enabled f)) "enabled" (PBool false) ++
  entry_if (nonempty (str_strip (fm_group f))) "group" (PStr (str_strip (fm_group f))).
Definition _build_config (f : form) : option (odict string pyval) :=
  match fm_transport f with
  | None => None
  | Some t =>
      fields ← (match t with TStdio => _build_stdio_fields f | _ => _build_remote_fields f end);
      Some ([("type", PStr (transport_name t))] ++ fields ++ _apply_common_fields f)
  end.
Definition _validate (f : form) : option string :=
  let name := str_strip (fm_name f) in
  if negb (nonempty name) then Some "Backend name is required"
  else if contains name " " then Some "Backend name must not contain spaces"
  else match fm_transport f with
       | None => Some "Transport type is required"
       | Some TStdio => if nonempty (str_strip (fm_command f)) then None else Some "Command is required for stdio backends"
       | Some _ => if nonempty (str_strip (fm_url f)) then None else Some "URL is required for remote backends"
       end.
(** The result of the dialogue, or what is shown. *)
Definition action_install (f : form) : string + (string * odict string pyval) :=
  match _validate f with
  | Some e => inl e
  | None => match _build_config f with
            | None => inl "Cannot build config — fill required fields"
            | Some config => inr (str_strip (fm_name f), config)
            end
  end.

(** ** Reading it as the server does *)

Definition as_strs (v : option pyval) : option (odict string string) :=
  match v with Some (PDict d) => Some (omap (λ kv, match kv.2 with PStr s => Some (kv.1, s) | _ => None end) d) | _ => None end.
Definition as_list (v : option pyval) : list string :=
  match v with Some (PList l) => omap (λ x, match x with PStr s => Some s | _ => None end) l | _ => [] end.
Definition as_group (v : option pyval) : string := match v with Some (PStr s) => s | _ => "default" end.
(** The keys of a filter section are [tools], [resources] and [prompts]. *)
Definition as_filters (v : option pyval) : option FiltersConfig :=
  match v with
  | None => Some default_filters
  | Some (PDict d) => if dmem d "tools" || dmem d "resources" || dmem d "prompts" then None else Some default_filters
  | Some _ => None
  end.
Definition model_of (d : odict string pyval) : option BackendConfig :=
  filters ← as_filters (dget d "filters");
  match dget d "type", dget d "command", dget d "url" with
  | Some (PStr ty), Some (PStr command), None =>
      if bool_decide (ty = "stdio") then
        Some (Stdio {| sb_command := command; sb_args := as_list (dget d "args"); sb_env := as_strs (dget d "env"); sb_container := default_container;
                       sb_group := as_group (dget d "group"); sb_filters := filters; sb_tool_overrides := []; sb_timeouts := default_timeouts;
                       sb_meta := default_meta |})
      else None
  | Some (PStr ty), None, Some (PStr url) =>
      if bool_decide (ty = "sse") then
        Some (Sse {| ss_url := url; ss_command := None; ss_args := []; ss_env := None; ss_headers := as_strs (dget d "headers"); ss_auth := None;
                     ss_group := as_group (dget d "group"); ss_filters := filters; ss_tool_overrides := []; ss_timeouts := default_timeouts;
                     ss_meta := default_meta |})
      else if bool_decide (ty = "streamable-http") then
        Some (StreamableHttp {| sh_url := url; sh_headers := as_strs (dget d "headers"); sh_auth := None; sh_group := as_group (dget d "group");
                     sh_filters := filters; sh_tool_overrides := []; sh_timeouts := default_timeouts; sh_meta := default_meta |})
      else None
  | _, _, _ => None
  end.

(** The backend that a form describes: what of its fields reaches the server. *)
Definition kv_of (s : string) (sep : ascii) : option (odict string string) :=
  let d := _parse_kv_string (str_strip s) sep in if nonempty (str_strip s) && negb (bool_decide (d = [])) then Some d else None.
Definition described (t : transport) (f : form) : BackendConfig :=
  let group := str_or (Some (str_strip (fm_group f))) "default" in
  match t with
  | TStdio => Stdio {| sb_command := str_strip (fm_command f); sb_args := if nonempty (str_strip (fm_args f)) then words (str_strip (fm_args f)) else [];
                       sb_env := kv_of (fm_env f) (ascii_of_nat 61); sb_container := default_container; sb_group := group;
                       sb_filters := default_filters; sb_tool_overrides := []; sb_timeouts := default_timeouts; sb_meta := default_meta |}
  | TSse => Sse {| ss_url := str_strip (fm_url f); ss_command := None; ss_args := []; ss_env := None;
                   ss_headers := kv_of (fm_headers f) (ascii_of_nat 58); ss_auth := None; ss_group := group; ss_filters := default_filters;
                   ss_tool_overrides := []; ss_timeouts := default_timeouts; ss_meta := default_meta |}
  | TStreamableHttp => StreamableHttp {| sh_url := str_strip (fm_url f); sh_headers := kv_of (fm_headers f) (ascii_of_nat 58); sh_auth := None;
                   sh_group := group; sh_filters := default_filters; sh_tool_overrides := []; sh_timeouts := default_timeouts;
                   sh_meta := default_meta |}
  end.

(** ** Lookups in the result *)

Lemma dget_entry_if b k v k' : dget (entry_if b k v) k' = if b && bool_decide (k = k') then Some v else None.
Proof. unfold entry_if. destruct b; simpl; [|done]. repeat (case_decide || case_bool_decide); congruence. Qed.
Lemma dget_append (d1 d2 : odict string pyval) k : dget (d1 ++ d2) k = match dget d1 k with Some v => Some v | None => dget d2 k end.
Proof. induction d1 as [|[a b] d1 IH]; simpl; [done|]. by case_decide. Qed.
Lemma strs_back d : as_strs (Some (str_dict d)) = Some d.
Proof. simpl. f_equal. induction d as [|[k v] d IH]; simpl; [done|]. by f_equal. Qed.
Lemma list_back l : as_list (Some (PList (PStr <$> l))) = l.
Proof. simpl. induction l as [|x l IH]; simpl; [done|]. by f_equal. Qed.

Lemma timeout_none f k : k ≠ "timeout" → dget (timeout_field f) k = None.
Proof. intros Hk. unfold timeout_field. cbv zeta. destruct (nonempty _); [|done]. destruct (py_int _); simpl; [|done]. by rewrite decide_False. Qed.
Lemma filters_none f k : k ≠ "filters" → dget (filters_field f) k = None.
Proof.
  intros Hk. unfold filters_field. cbv zeta. destruct (nonempty _); [|done]. destruct (_parse_filter_patterns _); simpl; [done|]. by rewrite decide_False.
Qed.
Lemma common_none f k : k ∉ ["timeout"; "filters"; "enabled"; "group"] → dget (_apply_common_fields f) k = None.
Proof.
  intros Hk. rewrite !not_elem_of_cons in Hk. destruct Hk as (H1 & H2 & H3 & H4 & _). unfold _apply_common_fields.
  rewrite !dget_append, !dget_entry_if, timeout_none, filters_none, !(bool_decide_false (_ = k)), !andb_false_r by congruence. done.
Qed.
Lemma common_filters f : as_filters (dget (_apply_common_fields f) "filters") = Some default_filters.
Proof.
  unfold _apply_common_fields. rewrite !dget_append, !dget_entry_if, timeout_none by done.
  rewrite !(bool_decide_false (_ = "filters")), !andb_false_r by done. unfold filters_field. cbv zeta.
  destruct (nonempty (str_strip (fm_filters f))); [|done].
  assert (∀ k, k ∈ ["tools"; "resources"; "prompts"] → dmem (_parse_filter_patterns (str_strip (fm_filters f))) k = false) as H.
  { intros k Hk. unfold dmem. apply bool_decide_false. unfold _parse_filter_patterns. cbv zeta. rewrite dget_append.
    apply elem_of_cons in Hk as [->|[->|[->|[]%not_elem_of_nil]%elem_of_cons]%elem_of_cons]; repeat case_match; by intros []. }
  destruct (_parse_filter_patterns (str_strip (fm_filters f))) as [|x l] eqn:E; [done|]. cbn [dget]. rewrite ?decide_True by done. cbn [as_filters].
  by rewrite !H by by_decide.
Qed.
Lemma common_group f : as_group (dget (_apply_common_fields f) "group") = str_or (Some (str_strip (fm_group f))) "default".
Proof.
  unfold _apply_common_fields. rewrite !dget_append, !dget_entry_if, timeout_none, filters_none by done.
  rewrite (bool_decide_false ("enabled" = "group")), andb_false_r, (bool_decide_true ("group" = "group")), andb_true_r by done.
  unfold nonempty. destruct (str_strip (fm_group f)) as [|c g]; done.
Qed.
Lemma kv_lookup k s sep : dget (kv_field k s sep) k = str_dict <$> kv_of s sep.
Proof. unfold kv_field, kv_of. cbv zeta. rewrite dget_entry_if, (bool_decide_true (k = k)), andb_true_r by done. by destruct (_ && _). Qed.
Lemma kv_other k s sep k' : k ≠ k' → dget (kv_field k s sep) k' = None.
Proof. intros H. unfold kv_field. cbv zeta. by rewrite dget_entry_if, (bool_decide_false (k = k')), andb_false_r by done. Qed.
Lemma strs_kv s sep : as_strs (str_dict <$> kv_of s sep) = kv_of s sep.
Proof. destruct (kv_of s sep) as [d|]; [|done]. apply strs_back. Qed.
Lemma dget_entry k v (d : odict string pyval) k' : dget ((k, v) :: d) k' = if bool_decide (k = k') then Some v else dget d k'.
Proof. simpl. repeat (case_decide || case_bool_decide); congruence. Qed.

#[local] Opaque _apply_common_fields kv_field.
(** A lookup of a key that is not written, or is written once. *)
Ltac find_key :=
  repeat (rewrite dget_append || rewrite dget_entry);
  rewrite ?dget_entry_if, ?kv_other, ?kv_lookup, ?common_none by (done || by_decide);
  repeat match goal with |- context [@bool_decide ?P ?H] => let v := eval vm_compute in (@bool_decide P H) in change (@bool_decide P H) with v end;
  rewrite ?andb_false_r, ?andb_true_r.

Lemma remote_lookups f fields t : _build_remote_fields f = Some fields →
  let config := [("type", PStr (transport_name t))] ++ fields ++ _apply_common_fields f in
  dget config "filters" = dget (_apply_common_fields f) "filters" ∧ dget config "type" = Some (PStr (transport_name t)) ∧
  dget config "command" = None ∧ dget config "url" = Some (PStr (str_strip (fm_url f))) ∧
  dget config "group" = dget (_apply_common_fields f) "group" ∧ dget config "headers" = str_dict <$> kv_of (fm_headers f) (ascii_of_nat 58).
Proof.
  intros Hf config. unfold _build_remote_fields in Hf. cbv zeta in Hf. destruct (nonempty (str_strip (fm_url f))); [|done]. injection Hf as <-.
  unfold config. split_and!; try (by find_key). find_key. destruct (kv_of _ _); [done|]. simpl. by find_key.
Qed.

(** What the server makes of an accepted form is the backend that it describes, whatever
    is entered as timeout and filters and whether it is enabled. *)
Lemma form_read f name config t : action_install f = inr (name, config) → fm_transport f = Some t → model_of config = Some (described t f).
Proof.
  unfold action_install, _build_config. destruct (_validate f); [done|]. intros H Ht. rewrite Ht in H.
  assert (∃ fields, (match t with TStdio => _build_stdio_fields f | _ => _build_remote_fields f end) = Some fields ∧
    config = [("type", PStr (transport_name t))] ++ fields ++ _apply_common_fields f) as (fields & Hf & ->).
  { revert H. destruct t; [destruct (_build_stdio_fields f) as [fields|]|destruct (_build_remote_fields f) as [fields|]..]; try done;
      intros H; exists fields; (split; [done|]); by injection H. }
  clear H. destruct t.
  - unfold _build_stdio_fields in Hf. cbv zeta in Hf. destruct (nonempty (str_strip (fm_command f))); [|done]. injection Hf as <-.
    set (config := _ ++ _).
    assert (dget config "filters" = dget (_apply_common_fields f) "filters") as E1 by (unfold config; by find_key).
    assert (dget config "type" = Some (PStr "stdio")) as E2 by (unfold config; by find_key).
    assert (dget config "command" = Some (PStr (str_strip (fm_command f)))) as E3 by (unfold config; by find_key).
    assert (dget config "url" = None) as E4 by (unfold config; by find_key).
    assert (dget config "group" = dget (_apply_common_fields f) "group") as E5 by (unfold config; by find_key).
    assert (dget config "args" = if nonempty (str_strip (fm_args f)) then Some (PList (PStr <$> words (str_strip (fm_args f)))) else None) as E6.
    { unfold config. find_key. by destruct (nonempty (str_strip (fm_args f))). }
    assert (dget config "env" = str_dict <$> kv_of (fm_env f) (ascii_of_nat 61)) as E7.
    { unfold config. find_key. destruct (kv_of _ _); [done|]. simpl. by find_key. }
    unfold model_of. rewrite E1, common_filters, E2, E3, E4, E5, E6, E7, common_group, strs_kv. unfold described.
    destruct (nonempty (str_strip (fm_args f))); [by rewrite list_back|done].
  - apply remote_lookups with (t := TSse) in Hf as (E1 & E2 & E3 & E4 & E5 & E6). unfold model_of. rewrite E1, common_filters, E2, E3, E4.
    by rewrite E5, E6, common_group, strs_kv.
  - apply remote_lookups with (t := TStreamableHttp) in Hf as (E1 & E2 & E3 & E4 & E5 & E6). unfold model_of. rewrite E1, common_filters, E2, E3, E4.
    by rewrite E5, E6, common_group, strs_kv.
Qed.
End form.

(** ** The form and the schema *)

Section schema.
Context (resolve : string → string) (allowed_prefixes : option string) (bracket_ok : string → bool) (ip_class : string → option bool).
Local Abbreviation backend_ok := (validate_backend resolve allowed_prefixes bracket_ok ip_class).

Definition is_remote (t : transport) : bool := negb (bool_decide (transport_name t = "stdio")).
Definition http_url (url : string) : bool := startswith url "http://" || startswith url "https://".

Lemma default_container_ok : validate_container resolve allowed_prefixes bracket_ok ip_class default_container = inr default_container.
Proof. reflexivity. Qed.
Lemma min_length_ne s : nonempty s = true → min_length_1 s = true.
Proof. by destruct s. Qed.
Lemma http_nonempty url : http_url url = true → nonempty url = true.
Proof. by destruct url. Qed.
Lemma url_validated s : _validate_url (str_strip s) = if http_url (str_strip s) then inr (str_strip s) else inl ("URL '" +:+ str_strip s +:+ "' must start with http:// or https://").
Proof. unfold _validate_url. by rewrite str_strip_idemp. Qed.

(** The schema accepts the backend of a form just when a remote one has an [http] or
    [https] address, and changes nothing in it. *)
Lemma described_valid py_int f name config t : action_install py_int f = inr (name, config) → fm_transport f = Some t →
  (backend_ok (described t f) = inr (described t f) ↔ (is_remote t = true → http_url (str_strip (fm_url f)) = true)).
Proof.
  intros H Ht. unfold action_install in H. destruct (_validate f) eqn:V; [done|]. clear H. unfold _validate in V. rewrite Ht in V. cbv zeta in V.
  destruct (negb (nonempty (str_strip (fm_name f)))); [done|]. destruct (contains _ _); [done|]. destruct t.
  - split; [done|]. intros _. destruct (nonempty (str_strip (fm_command f))) eqn:E; [|done].
    unfold described, validate_backend, validate_stdio. cbn -[validate_container str_strip min_length_1]. rewrite (min_length_ne _ E).
    rewrite str_strip_idemp. reflexivity.
  - destruct (nonempty (str_strip (fm_url f))) eqn:E; [|done].
    unfold described, validate_backend, validate_sse. cbn -[_validate_url str_strip min_length_1]. rewrite (min_length_ne _ E).
    rewrite url_validated. destruct (http_url _); (split; [done|]); [done|]. intros H. by specialize (H eq_refl).
  - destruct (nonempty (str_strip (fm_url f))) eqn:E; [|done].
    unfold described, validate_backend, validate_streamable. cbn -[_validate_url str_strip min_length_1]. rewrite (min_length_ne _ E).
    rewrite url_validated. destruct (http_url _); (split; [done|]); [done|]. intros H. by specialize (H eq_refl).
Qed.

(** An accepted form for a local backend, or for a remote one with an [http] or [https]
    address, is read and accepted by the server as the backend that it describes. *)
Theorem form_accepted py_int f name config t (Hform : action_install py_int f = inr (name, config)) (Ht : fm_transport f = Some t)
    (Hurl : is_remote t = true → http_url (str_strip (fm_url f)) = true) :
  ∃ b, model_of config = Some b ∧ b = described t f ∧ backend_ok b = inr b.
Proof.
  exists (described t f). split_and!; [by eapply form_read|done|]. by eapply described_valid.
Qed.
(** A remote backend with another address passes the form and fails the server. *)
Lemma form_rejected py_int f name config t : action_install py_int f = inr (name, config) → fm_transport f = Some t → is_remote t = true →
  http_url (str_strip (fm_url f)) = false → ∃ b, model_of config = Some b ∧ backend_ok b ≠ inr b.
Proof.
  intros H Ht Hr Hu. exists (described t f). split; [by eapply form_read|]. intros Hok. eapply described_valid in Hok; [|done..].
  by rewrite Hok in Hu.
Qed.
End schema.

(** What is entered as timeout and filters, and the switch that disables a backend, have
    no effect on the backend that the server reads. *)
Lemma fields_ignored py_int f f' name config name' config' t :
  action_install py_int f = inr (name, config) → action_install py_int f' = inr (name', config') →
  fm_transport f = Some t → fm_transport f' = Some t →
  fm_command f = fm_command f' → fm_args f = fm_args f' → fm_env f = fm_env f' → fm_url f = fm_url f' → fm_headers f = fm_headers f' →
  fm_group f = fm_group f' → model_of config = model_of config'.
Proof.
  intros H H' Ht Ht' H1 H2 H3 H4 H5 H6. rewrite (form_read _ _ _ _ _ H Ht), (form_read _ _ _ _ _ H' Ht'). unfold described.
  by rewrite H1, H2, H3, H4, H5, H6.
Qed.

(** ** Writing it into the configuration file *)

Inductive py_error := AttributeError | TypeError.
Inductive write_result := WDone | WNotOpened | WCutOff (written : string).

Section config_file.
Context (load : string → option pyval) (dump : pyval → string).

(** [name in backends] *)
Definition py_in (name : string) (v : pyval) : py_error + bool :=
  match v with
  | PDict d => inr (dmem d name)
  | PList l => inr (existsb (λ x, match x with PStr s => bool_decide (s = name) | _ => false end) l)
  | PStr s => inr (contains s name)
  | _ => inl TypeError
  end.
(** [data.setdefault("backends", {})], [name in backends] and [backends[name] = config]:
    [None] when the name is there already. *)
Definition add_backend (data : pyval) (name : string) (config : pyval) : py_error + option pyval :=
  match py_or data (PDict []) with
  | PDict d =>
      let backends := default (PDict []) (dget d "backends") in
      found ← py_in name backends;
      if found : bool then inr None
      else match backends with
           | PDict b => inr (Some (PDict (dset d "backends" (PDict (dset b name config)))))
           | _ => inl TypeError
           end
  | _ => inl AttributeError
  end.
(** The file after the call, what is returned or raised, and what is shown.  [file] is
    [None] when it cannot be read. *)
Definition write_backend_to_config (file : option string) (w : write_result) (name : string) (config : pyval) :
    option string * (py_error + bool) * list string :=
  match file with
  | None => (file, inr false, ["Failed to write config"])
  | Some s =>
      match load s with
      | None => (file, inr false, ["Failed to write config"])
      | Some data =>
          match add_backend data name config with
          | inl e => (file, inl e, [])
          | inr None => (file, inr false, ["Backend '" +:+ name +:+ "' already exists in config"])
          | inr (Some data') =>
              match w with
              | WDone => (Some (dump data'), inr true, [])
              | WNotOpened => (file, inr false, ["Failed to write config"])
              | WCutOff part => (Some part, inr false, ["Failed to write config"])
              end
          end
      end
  end.

(** The section [backends] of a file, and another one. *)
Definition section_of (file : option string) (k : string) : option pyval :=
  match file ≫= load with Some (PDict d) => dget d k | _ => None end.
Definition backend_of (file : option string) (name : string) : option pyval :=
  match section_of file "backends" with Some (PDict b) => dget b name | _ => None end.

Hypothesis (Hdump : ∀ d, load (dump (PDict d)) = Some (PDict d)).

Lemma add_backend_some data name config data' : add_backend data name config = inr (Some data') →
  ∃ d b, py_or data (PDict []) = PDict d ∧ default (PDict []) (dget d "backends") = PDict b ∧ dmem b name = false ∧
    data' = PDict (dset d "backends" (PDict (dset b name config))).
Proof.
  unfold add_backend. destruct (py_or data (PDict [])) as [| | | | |d] eqn:E; try done. cbv zeta.
  destruct (default (PDict []) (dget d "backends")) as [| | | | |b] eqn:Eb; simpl; try done; try (by repeat case_match).
  destruct (dmem b name) eqn:Em; [done|]. intros [= <-]. by exists d, b.
Qed.
Lemma loaded_or data d k : py_or data (PDict []) = PDict d → match data with PDict d0 => dget d0 k | _ => None end = dget d k.
Proof.
  unfold py_or. destruct (truthy data) eqn:T; intros Hd; [by subst|]. injection Hd as <-. destruct data as [|b|z|s|l|[|kv l]]; done.
Qed.

(** When it returns [True] the file has the new backend under its name, which was free,
    and every other backend and every other section as before. *)
Theorem backend_written file w name config file' shown
    (Hwrite : write_backend_to_config file w name config = (file', inr true, shown)) :
  backend_of file name = None ∧ backend_of file' name = Some config ∧
  (∀ name', name' ≠ name → backend_of file' name' = backend_of file name') ∧
  (∀ k, k ≠ "backends" → section_of file' k = section_of file k).
Proof using Type Hdump.
  unfold write_backend_to_config in Hwrite. destruct file as [s|]; [|done]. destruct (load s) as [data|] eqn:L; [|done].
  destruct (add_backend data name config) as [e|[data'|]] eqn:A; try done. destruct w; try done. injection Hwrite as <- _.
  apply add_backend_some in A as (d & b & Hd & Hb & Hm & ->). unfold backend_of, section_of. simpl. rewrite Hdump, L, !dget_dset_eq.
  assert (dget b name = None) as Hn by (apply dget_None; intros H; apply dmem_spec in H; congruence).
  assert (∀ k, match data with PDict d => dget d k | _ => None end = dget d k) as Hs.
  { intros k. by apply loaded_or. }
  rewrite Hs. split_and!.
  - destruct (dget d "backends") as [v|]; simpl in Hb; [by subst|done].
  - done.
  - intros name' Hne. rewrite dget_dset_ne by done. destruct (dget d "backends") as [v|]; simpl in Hb; [by subst|]. by injection Hb as <-.
  - intros k Hk. by rewrite dget_dset_ne, Hs by done.
Qed.
(** Otherwise the file is as before, unless writing is cut off. *)
Lemma backend_not_written file w name config file' r shown :
  write_backend_to_config file w name config = (file', r, shown) → r ≠ inr true → file' = file ∨ ∃ part, w = WCutOff part ∧ file' = Some part.
Proof. unfold write_backend_to_config. intros H Hr. repeat case_match; simplify_eq; eauto. Qed.
(** A section [backends:] with nothing in it makes the call raise. *)
Lemma empty_section_raises s w name config : load s = Some (PDict [("backends", PNone)]) →
  write_backend_to_config (Some s) w name config = (Some s, inl TypeError, []).
Proof. intros L. unfold write_backend_to_config. by rewrite L. Qed.
End config_file.

(** ** Examples *)

Definition digits_int (s : string) : option Z := if bool_decide (s = "30") then Some 30 else None.
Definition form_at (t : transport) (command url : string) : form :=
  {| fm_name := " files "; fm_transport := Some t; fm_command := command; fm_args := "-y  server"; fm_env := "TOKEN = a=b , bad"; fm_url := url;
     fm_headers := "X-Key: v"; fm_timeout := "30"; fm_filters := "+read*, -write*"; fm_enabled := false; fm_group := "" |}.
Example form_result : action_install digits_int (form_at TStdio "npx" "") =
  inr ("files", [("type", PStr "stdio"); ("command", PStr "npx"); ("args", PList [PStr "-y"; PStr "server"]);
    ("env", PDict [("TOKEN", PStr "a=b")]); ("timeout", PInt 30);
    ("filters", PDict [("include", PList [PStr "read*"]); ("exclude", PList [PStr "write*"])]); ("enabled", PBool false)]).
Proof. vm_compute. reflexivity. Qed.
Example form_wants_url : action_install digits_int (form_at TSse "npx" "  ") = inl "URL is required for remote backends".
Proof. vm_compute. reflexivity. Qed.
(** A remote address that the server refuses is accepted by the form. *)
Example form_address : ∃ config, action_install digits_int (form_at TSse "" "example.com/sse") = inr ("files", config) ∧
  match model_of config with
  | Some b => validate_backend (λ p, p) None (λ _, true) (λ _, None) b = inl "URL 'example.com/sse' must start with http:// or https://"
  | None => False
  end.
Proof. eexists. split; [vm_compute; reflexivity|vm_compute; reflexivity]. Qed.
