(* ===== verification/Images.v ===== *)
(** * Container images (bridge/container/templates, bridge/container/image_builder.py)

    From the command of a backend to an image that can run it: the arguments of
    the package runners, the validation of what goes into a Dockerfile, the data
    given to the templates, the tag of an image, and building or reusing it.

    The outside is a function of the history of what the program did so far:
    [exec] runs a command, [go_call] asks the native adapter, [write_ok] tells
    whether the build directory can be written.  The template engine [render],
    SHA-256 and the parsing of URLs between brackets are parameters. *)
From S2P Require Import Prelude PyDict Effects Glob PyStr Url Json Schema.
From Stdlib Require Import Ascii.

(** ** Text *)

(** [s.lstrip(chars)], [s.strip(chars)], [s.removesuffix(x)],
    [s.rsplit(c, 1)[-1]], [s.rsplit(c, 1)[0]] when [c] occurs *)
Definition lstrip_by (f : ascii → bool) (s : string) : string := text (drop_while f (chars s)).
Definition strip_by (f : ascii → bool) (s : string) : string := text (rstrip_chars f (drop_while f (chars s))).
Definition removesuffix (s x : string) : string :=
  if endswith s x then take_chars (length (chars s) - length (chars x)) s else s.
Definition last_part (n : nat) (s : string) : string := text (after_last n (chars s)).
Definition before_last (n : nat) (s : string) : string :=
  match (partition_at n (reverse (chars s))).2 with Some r => text (reverse r) | None => s end.
(** [s.split(c, 1)[0]] and [s.split(c, 1)[1]] when [c] occurs *)
Definition before_first (n : nat) (s : string) : string := text (partition_at n (chars s)).1.
Definition after_first (n : nat) (s : string) : string :=
  match (partition_at n (chars s)).2 with Some r => text r | None => s end.
(** [s.split(sep, 1)[1]], when [sep] occurs *)
Fixpoint after_text (sep l : list ascii) : option (list ascii) :=
  match l with
  | [] => if bool_decide (sep = []) then Some [] else None
  | c :: l' => if bool_decide (sep `prefix_of` l) then Some (drop (length sep) l) else after_text sep l'
  end.
Definition str_split_at (sep s : string) : option string := text <$> after_text (chars sep) (chars s).
Definition has (n : nat) (s : string) : bool := has_char n (chars s).

Definition at_sign : nat := 64.
Definition slash_code : nat := 47.
Definition hash_code : nat := 35.

(** ** Validation (templates/validation.py) *)

Inductive img_exc :=
  | ValidationError (msg : string)
  | EValueError (msg : string)
  | ERuntimeError (msg : string)
  | EOSError.
#[global] Instance img_exc_eq_dec : EqDecision img_exc.
Proof. solve_decision. Defined.

(** [[;&|`$(){}\[\]<>!#~\n\r\\]] *)
Definition _SHELL_UNSAFE : list nat :=
  [59; 38; 124; 96; 36; 40; 41; 123; 125; 91; 93; 60; 62; 33; 35; 126; 10; 13; 92]%nat.
Definition shell_unsafe (s : string) : bool := existsb (λ c, bool_decide (code c ∈ _SHELL_UNSAFE)) (chars s).

(** A pattern [^first rest*$]; the [$] of Python also matches before a final
    line end. *)
Definition matches_name (first rest : ascii → bool) (s : string) : bool :=
  match chars s with
  | [] => false
  | c :: l => first c && (forallb rest l ||
      match reverse l with e :: r => is_char 10 e && forallb rest r | [] => false end)
  end.
Definition is_upper (c : ascii) : bool := Nat.leb 65 (code c) && Nat.leb (code c) 90.
Definition _ENV_KEY_PATTERN : string → bool :=
  matches_name is_upper (λ c, is_upper c || is_digit c || is_char 95 c).
Definition _SYSDEP_PATTERN : string → bool :=
  matches_name (λ c, is_alpha c || is_digit c)
    (λ c, is_alpha c || is_digit c || is_char 46 c || is_char 95 c || is_char 43 c || is_char 45 c).

Definition _RESERVED_ENV_KEYS : list string :=
  ["PATH"; "HOME"; "USER"; "SHELL"; "HOSTNAME"; "UV_TOOL_DIR"; "UV_TOOL_BIN_DIR"; "NODE_PATH"].

Definition validate_package_name (name : string) : img_exc + string :=
  let name' := str_strip name in
  if bool_decide (name' = "") then inl (ValidationError "Package name must not be empty")
  else if shell_unsafe name' then inl (ValidationError "Package name contains unsafe characters")
  else if 256 <? strlen name' then inl (ValidationError "Package name too long")
  else inr name'.

(** One dependency: [None] when it is blank. *)
Definition validate_dep (raw : string) : img_exc + option string :=
  let dep := str_strip raw in
  if bool_decide (dep = "") then inr None
  else if shell_unsafe dep then inl (ValidationError "System dependency contains unsafe characters")
  else if negb (_SYSDEP_PATTERN dep) then inl (ValidationError "System dependency name is not a valid package name")
  else if 128 <? strlen dep then inl (ValidationError "System dependency name too long")
  else inr (Some dep).
Definition validate_system_deps (deps : list string) : img_exc + list string :=
  l ← map_each validate_dep deps; inr (omap id (l : list (option string))).

Definition validate_build_env_key (key : string) : img_exc + string :=
  if negb (_ENV_KEY_PATTERN key) then inl (ValidationError "Build env key must be uppercase")
  else if bool_decide (key ∈ _RESERVED_ENV_KEYS) then inl (ValidationError "Build env key is reserved")
  else inr key.
(** [;&|`$(){}] *)
Definition env_dangerous : list nat := [59; 38; 124; 96; 36; 40; 41; 123; 125]%nat.
Definition validate_build_env_value (value : string) : img_exc + string :=
  if existsb (λ c, bool_decide (code c ∈ env_dangerous)) (chars value)
  then inl (ValidationError "Build env value contains dangerous characters") else inr value.

Definition validate_env (build_env : option (odict string string)) : img_exc + odict string string :=
  _ ← check_each (λ kv, _ ← validate_build_env_key kv.1; _ ← validate_build_env_value kv.2; inr tt)
        (default [] build_env);
  inr (dupdate [] (default [] build_env)).

(** ** The data of a template (templates/models.py) *)

Definition CONTAINER_UID : Z := 65532.
Definition CONTAINER_USER : string := "nonroot".
Definition CONTAINER_HOME : string := "/home/nonroot".

Record RuntimeConfig := { rc_builder_image : string; rc_additional_packages : list string }.
Definition RUNTIME_DEFAULTS : odict string RuntimeConfig :=
  [("uvx", {| rc_builder_image := "python:3.13-slim"; rc_additional_packages := ["ca-certificates"; "git"] |});
   ("npx", {| rc_builder_image := "node:22-alpine"; rc_additional_packages := ["ca-certificates"; "git"] |});
   ("go", {| rc_builder_image := "golang:1.24-alpine"; rc_additional_packages := ["ca-certificates"; "git"] |})].
Definition DHI_RUNTIME_DEFAULTS : odict string RuntimeConfig :=
  [("uvx", {| rc_builder_image := "cgr.dev/chainguard/python:latest-dev"; rc_additional_packages := [] |});
   ("npx", {| rc_builder_image := "cgr.dev/chainguard/node:latest-dev"; rc_additional_packages := [] |});
   ("go", {| rc_builder_image := "cgr.dev/chainguard/go:latest-dev"; rc_additional_packages := [] |})].

(** The overrides as their two keys; an absent or empty one leaves the default. *)
Definition for_transport (transport : string) (image : option string) (packages : list string) (use_dhi : bool) : RuntimeConfig :=
  let d := default {| rc_builder_image := ""; rc_additional_packages := [] |}
             (dget (if use_dhi then DHI_RUNTIME_DEFAULTS else RUNTIME_DEFAULTS) transport) in
  {| rc_builder_image := str_or image (rc_builder_image d);
     rc_additional_packages := match packages with [] => rc_additional_packages d | _ => packages end |}.

Record TemplateData := {
  td_package : string; td_package_clean : string; td_binary : string; td_builder_image : string;
  td_is_alpine : bool; td_install_cmd : string; td_system_deps : list string; td_build_system_deps : list string;
  td_build_env : odict string string; td_additional_packages : list string; td_bin_name : string;
  td_go_package : string; td_go_package_clean : string; td_runtime_args : list string;
  td_source_url : string; td_source_ref : string; td_build_steps : list string; td_entrypoint : list string;
  td_source_url_host : string; td_container_uid : Z; td_container_user : string; td_container_home : string }.
Definition is_alpine (image : string) : bool := contains (lower image) "alpine".

(** ** Arguments of the package runners (templates/_generators.py) *)

Definition is_vcs_specifier (name : string) : bool :=
  let l := lower name in
  startswith l "github:" || startswith l "bitbucket:" || startswith l "gitlab:" ||
  startswith l "git+https://" || startswith l "git+ssh://" || startswith l "git://".

Definition _strip_version (name : string) : string :=
  if bool_decide (name = "") then name
  else if is_vcs_specifier name then name
  else match str_split (ascii_of_nat at_sign) name with
       | first :: second :: rest =>
           if startswith name "@" then
             if bool_decide (rest = []) then name else "@" +:+ second
           else first
       | _ => name
       end.

(** The index of the first occurrence. *)
Fixpoint index_of (x : string) (l : list string) : option nat :=
  match l with
  | [] => None
  | y :: l' => if bool_decide (y = x) then Some 0%nat else S <$> index_of x l'
  end.

Definition uvx_flags_standalone : list string := ["--force"; "--reinstall"].
Definition uvx_flags_with_value : list string := ["--python"; "--with"; "--index-url"].
Fixpoint skip_uvx_flags (l : list string) : list string :=
  match l with
  | [] => []
  | flag :: l' =>
      if bool_decide (flag ∈ uvx_flags_with_value) then
        match l' with [] => [] | _ :: l'' => skip_uvx_flags l'' end
      else if bool_decide (flag ∈ uvx_flags_standalone) then skip_uvx_flags l'
      else l
  end.

(** The package and the binary of [--from], if any, and the other arguments. *)
Definition take_from (args : list string) : option string * option string * list string :=
  match index_of "--from" args with
  | None => (None, None, args)
  | Some idx =>
      match drop (idx + 1) args with
      | package :: binary :: rest => (Some package, Some binary, take idx args ++ rest)
      | [package] => (Some package, None, take idx args)
      | [] => (None, None, args)
      end
  end.

Definition parse_uvx_args (args : list string) : string * string * list string :=
  let '(package, binary, remaining) := take_from args in
  let remaining := skip_uvx_flags remaining in
  let '(package, remaining) :=
    if str_truthy package then (package, remaining)
    else match remaining with p :: r => (Some p, r) | [] => (package, remaining) end in
  let package' := str_or package "unknown" in
  (package', str_or binary (_strip_version package'), remaining).

Definition npx_flags : list string := ["-y"; "--yes"; "-q"; "--quiet"].
Fixpoint skip_npx_flags (l : list string) : list string :=
  match l with
  | flag :: l' => if bool_decide (flag ∈ npx_flags) then skip_npx_flags l' else l
  | [] => []
  end.
Definition parse_npx_args (args : list string) : string * list string * bool :=
  match skip_npx_flags args with
  | package :: rest => (package, rest, is_vcs_specifier package)
  | [] => ("unknown", [], is_vcs_specifier "unknown")
  end.

Definition parse_go_args (args : list string) (go_package : option string) : img_exc + (string * list string) :=
  match go_package with
  | Some g => if bool_decide (str_strip g = "") then inl (EValueError "Go transport requires 'go_package'")
              else inr (str_strip g, args)
  | None => inl (EValueError "Go transport requires 'go_package'")
  end.

(** ** Names *)

Definition _vcs_repo_name (specifier : string) : string :=
  let name := before_first hash_code specifier in
  match List.find (λ prefix, startswith (lower name) prefix) ["github:"; "bitbucket:"; "gitlab:"] with
  | Some prefix => removesuffix (last_part slash_code (drop_chars (length (chars prefix)) name)) ".git"
  | None =>
      match str_split_at "://" name with
      | Some path =>
          let path := if has at_sign (before_first slash_code path) then after_first at_sign path else path in
          removesuffix (last_part slash_code (rstrip_by (is_char slash_code) path)) ".git"
      | None => name
      end
  end.

Definition is_tag_char (c : ascii) : bool := is_word c || is_char 46 c || is_char 45 c.
Definition dash_other (c : ascii) : ascii := if is_tag_char c then c else ascii_of_nat 45.
Definition _sanitize_image_name (name : string) : string :=
  strip_by (is_char 45) (lower (text (dash_other <$> chars (lstrip_by (is_char at_sign) name)))).

Definition _npm_bin_name (clean_name : string) : string :=
  if is_vcs_specifier clean_name then _vcs_repo_name clean_name
  else if startswith clean_name "@" && has slash_code clean_name then after_first slash_code clean_name
  else clean_name.

Definition _compute_uvx_install_cmd (package : string) : string :=
  if has at_sign package && negb (startswith package "@") then
    let pkg_name := before_last at_sign package in
    let ver := last_part at_sign package in
    if bool_decide (ver = "latest") then "uv tool install " +:+ pkg_name
    else "uv tool install '" +:+ pkg_name +:+ "==" +:+ ver +:+ "'"
  else "uv tool install " +:+ package.

Definition _strip_go_version (module_path : string) : string :=
  if has at_sign module_path then before_last at_sign module_path else module_path.

Definition repo_name_of (source_url : string) : string :=
  removesuffix (last_part slash_code (rstrip_by (is_char slash_code) source_url)) ".git".

(** ** Dockerfiles *)

Section images.
Context (render : string → TemplateData → string) (sha256_hex : string → string) (bracket_ok : string → bool).

Definition _validate_build_inputs (package : string) (build_env : option (odict string string)) (system_deps : list string)
  : img_exc + (string * odict string string * list string) :=
  package ← validate_package_name package;
  deps ← validate_system_deps system_deps;
  env ← validate_env build_env;
  inr (package, env, deps).

Definition template (package clean binary image install_cmd : string) (deps build_deps : list string)
    (env : odict string string) (packages : list string) : TemplateData :=
  {| td_package := package; td_package_clean := clean; td_binary := binary; td_builder_image := image;
     td_is_alpine := is_alpine image; td_install_cmd := install_cmd; td_system_deps := deps;
     td_build_system_deps := build_deps; td_build_env := env; td_additional_packages := packages;
     td_bin_name := ""; td_go_package := ""; td_go_package_clean := ""; td_runtime_args := [];
     td_source_url := ""; td_source_ref := ""; td_build_steps := []; td_entrypoint := []; td_source_url_host := "";
     td_container_uid := CONTAINER_UID; td_container_user := CONTAINER_USER; td_container_home := CONTAINER_HOME |}.

(** The data of the three kinds of packages, and of a source build.  An absent
    list of dependencies is the empty one. *)
Definition uvx_data (package binary : string) (builder_image : option string) (build_env : option (odict string string))
    (system_deps build_system_deps : list string) (runtime_config : option RuntimeConfig) : img_exc + TemplateData :=
  let rc := default (for_transport "uvx" None [] false) runtime_config in
  let image := str_or builder_image (rc_builder_image rc) in
  '(package, env, deps) ← _validate_build_inputs package build_env system_deps;
  build_deps ← validate_system_deps build_system_deps;
  inr (template package (_strip_version package) binary image (_compute_uvx_install_cmd package) deps build_deps env
         (rc_additional_packages rc)).

Definition npx_data (package : string) (builder_image : option string) (build_env : option (odict string string))
    (system_deps build_system_deps : list string) (runtime_config : option RuntimeConfig) : img_exc + TemplateData :=
  let rc := default (for_transport "npx" None [] false) runtime_config in
  let image := str_or builder_image (rc_builder_image rc) in
  '(package, env, deps) ← _validate_build_inputs package build_env system_deps;
  build_deps ← validate_system_deps build_system_deps;
  let clean_name := _strip_version package in
  let d := template package clean_name "__argus_entry" image ("npm install --save " +:+ package) deps build_deps env
             (rc_additional_packages rc) in
  inr {| td_package := td_package d; td_package_clean := td_package_clean d; td_binary := td_binary d;
         td_builder_image := td_builder_image d; td_is_alpine := td_is_alpine d; td_install_cmd := td_install_cmd d;
         td_system_deps := td_system_deps d; td_build_system_deps := td_build_system_deps d;
         td_build_env := td_build_env d; td_additional_packages := td_additional_packages d;
         td_bin_name := _npm_bin_name clean_name; td_go_package := ""; td_go_package_clean := "";
         td_runtime_args := []; td_source_url := ""; td_source_ref := ""; td_build_steps := []; td_entrypoint := [];
         td_source_url_host := ""; td_container_uid := td_container_uid d;
         td_container_user := td_container_user d; td_container_home := td_container_home d |}.

Definition go_data (go_package : string) (builder_image : option string) (build_env : option (odict string string))
    (system_deps build_system_deps : list string) (runtime_config : option RuntimeConfig) (runtime_args : list string)
  : img_exc + TemplateData :=
  let rc := default (for_transport "go" None [] false) runtime_config in
  let image := str_or builder_image (rc_builder_image rc) in
  '(package, env, deps) ← _validate_build_inputs go_package build_env system_deps;
  build_deps ← validate_system_deps build_system_deps;
  let clean_name := _strip_go_version package in
  let d := template package clean_name "/app/mcp-server" image ("go install " +:+ package) deps build_deps env
             (rc_additional_packages rc) in
  inr {| td_package := td_package d; td_package_clean := td_package_clean d; td_binary := td_binary d;
         td_builder_image := td_builder_image d; td_is_alpine := td_is_alpine d; td_install_cmd := td_install_cmd d;
         td_system_deps := td_system_deps d; td_build_system_deps := td_build_system_deps d;
         td_build_env := td_build_env d; td_additional_packages := td_additional_packages d;
         td_bin_name := ""; td_go_package := package; td_go_package_clean := clean_name;
         td_runtime_args := runtime_args; td_source_url := ""; td_source_ref := ""; td_build_steps := [];
         td_entrypoint := []; td_source_url_host := ""; td_container_uid := td_container_uid d;
         td_container_user := td_container_user d; td_container_home := td_container_home d |}.

Definition with_git (deps : list string) : list string :=
  if bool_decide ("git" ∈ deps) then deps else "git" :: deps.
Definition source_host (source_url : string) : string :=
  if startswith source_url "https://" then
    match urlparse bracket_ok source_url with Some u => default "" (url_hostname u) | None => "" end
  else "".

Definition source_data (source_url : string) (build_steps entrypoint : list string) (source_ref builder_image : option string)
    (build_env : option (odict string string)) (system_deps build_system_deps : list string)
    (runtime_config : option RuntimeConfig) : img_exc + TemplateData :=
  let rc := default (for_transport "uvx" None [] false) runtime_config in
  let image := str_or builder_image (rc_builder_image rc) in
  deps ← validate_system_deps system_deps;
  build_deps ← validate_system_deps build_system_deps;
  env ← validate_env build_env;
  let repo_name := repo_name_of source_url in
  let d := template repo_name repo_name (default "" (head entrypoint)) image "" deps (with_git build_deps) env
             (rc_additional_packages rc) in
  inr {| td_package := td_package d; td_package_clean := td_package_clean d; td_binary := td_binary d;
         td_builder_image := td_builder_image d; td_is_alpine := td_is_alpine d; td_install_cmd := td_install_cmd d;
         td_system_deps := td_system_deps d; td_build_system_deps := td_build_system_deps d;
         td_build_env := td_build_env d; td_additional_packages := td_additional_packages d;
         td_bin_name := ""; td_go_package := ""; td_go_package_clean := ""; td_runtime_args := [];
         td_source_url := source_url; td_source_ref := default "" source_ref; td_build_steps := build_steps;
         td_entrypoint := entrypoint; td_source_url_host := source_host source_url;
         td_container_uid := td_container_uid d; td_container_user := td_container_user d;
         td_container_home := td_container_home d |}.

Definition generate_uvx_dockerfile (package binary : string) (builder_image : option string)
    (build_env : option (odict string string)) (system_deps build_system_deps : list string)
    (runtime_config : option RuntimeConfig) : img_exc + string :=
  d ← uvx_data package binary builder_image build_env system_deps build_system_deps runtime_config;
  inr (render "uvx.dockerfile.j2" d).
Definition generate_npx_dockerfile (package : string) (builder_image : option string)
    (build_env : option (odict string string)) (system_deps build_system_deps : list string)
    (runtime_config : option RuntimeConfig) : img_exc + string :=
  d ← npx_data package builder_image build_env system_deps build_system_deps runtime_config;
  inr (render "npx.dockerfile.j2" d).
Definition generate_go_dockerfile (go_package : string) (builder_image : option string)
    (build_env : option (odict string string)) (system_deps build_system_deps : list string)
    (runtime_config : option RuntimeConfig) (runtime_args : list string) : img_exc + string :=
  d ← go_data go_package builder_image build_env system_deps build_system_deps runtime_config runtime_args;
  inr (render "go.dockerfile.j2" d).
Definition generate_source_dockerfile (source_url : string) (build_steps entrypoint : list string)
    (source_ref builder_image : option string) (build_env : option (odict string string))
    (system_deps build_system_deps : list string) (runtime_config : option RuntimeConfig) : img_exc + string :=
  d ← source_data source_url build_steps entrypoint source_ref builder_image build_env system_deps build_system_deps
        runtime_config;
  inr (render "source.dockerfile.j2" d).

(** ** Tags *)

Definition IMAGE_PREFIX : string := "arguslocal".
Definition SHORT_ID_LENGTH : nat := 12.
Definition content_hash (content : string) : string := take_chars SHORT_ID_LENGTH (sha256_hex content).
Definition compute_image_tag (transport package dockerfile_content : string) : string :=
  IMAGE_PREFIX +:+ "/" +:+ transport +:+ "-" +:+ _sanitize_image_name (_strip_version package) +:+ ":" +:+
  content_hash dockerfile_content.
End images.

(** ** Building and reusing images (image_builder.py; the commands of runtime.py) *)

Inductive event :=
  | Exec (argv : list string)
  | Go (op : string) (args : odict string string)
  | WriteFile (path content : string).
#[global] Instance event_eq_dec : EqDecision event.
Proof. solve_decision. Defined.

(** How a command ends: it could not be started, or it exited. *)
Inductive exec_result := NoStart | Exit (rc : Z) (stdout : string).
Definition succeeded (r : exec_result) : bool := match r with Exit rc _ => rc =? 0 | NoStart => false end.

(** An answer of the native adapter. *)
Record go_reply := { gr_ok : bool; gr_container_id : option string }.

(** The history, newest event first. *)
Definition history := list event.
Abbreviation hm := (M history img_exc).

Definition _COMMAND_TRANSPORT : odict string string :=
  [("uvx", "uvx"); ("uv", "uvx"); ("pip", "uvx"); ("pipx", "uvx"); ("python", "uvx"); ("python3", "uvx");
   ("npx", "npx"); ("node", "npx"); ("tsx", "npx"); ("go", "go")].
Definition command_name (command : string) : string := lower (str_strip (last_part slash_code command)).
Definition classify_command (command : string) : option string :=
  if bool_decide (command_name command = "docker") then Some "docker"
  else dget _COMMAND_TRANSPORT (command_name command).
Definition is_already_containerised (command : string) (args : list string) : bool :=
  bool_decide (command_name command ∈ ["docker"; "podman"]) &&
  match args with a :: _ => bool_decide (a ∈ ["run"; "exec"; "start"; "compose"]) | [] => false end.

(** What the container section asks for; an absent list is the empty one. *)
Record ImageOptions := {
  io_build_if_missing : bool; io_system_deps : list string; io_build_system_deps : list string;
  io_builder_image : option string; io_additional_packages : list string; io_transport : option string;
  io_go_package : option string; io_source_url : option string; io_build_steps : list string;
  io_entrypoint : list string; io_build_env : option (odict string string); io_source_ref : option string;
  io_dockerfile : option string }.
Definition image_result : Type := option string * string * list string.

Section builder.
(** [exec] and [go_call] answer a command or a request after a history;
    [go_available] tells whether the native adapter is installed ([None] from
    [go_call]: it raised); [write_ok] whether a build directory can be written,
    [cache_dir] is where these are.  A custom Dockerfile is read by [read_file]
    ([None]: no such file, [Some None]: it cannot be read). *)
Context (render : string → TemplateData → string) (sha256_hex : string → string) (bracket_ok : string → bool)
  (exec : history → list string → exec_result) (go_available : bool)
  (go_call : history → string → odict string string → option go_reply) (write_ok : history → bool)
  (cache_dir : string) (read_file : string → option (option string)) (abspath : string → string).

Definition run (argv : list string) : hm exec_result := λ h, (inr (exec h argv), Exec argv :: h).
Definition ask_adapter (op : string) (args : odict string string) : hm (option go_reply) :=
  λ h, (inr (go_call h op args), Go op args :: h).
Definition lift_sum {A} (r : img_exc + A) : hm A := λ h, (r, h).

Definition image_exists (runtime image_tag : string) : hm bool :=
  r ← run [runtime; "image"; "inspect"; image_tag]; mret (succeeded r).
Definition build_image (runtime context_dir image_tag dockerfile : string) : hm bool :=
  r ← run [runtime; "build"; "--progress=plain"; "-t"; image_tag; "-f"; dockerfile; context_dir];
  mret (succeeded r).

Definition build_dir (content : string) : string := cache_dir +:+ "/build-cache/" +:+ take_chars 16 (sha256_hex content).
Definition _prepare_build_dir (content : string) : hm string := λ h,
  if write_ok h then (inr (build_dir content +:+ "/Dockerfile"), WriteFile (build_dir content +:+ "/Dockerfile") content :: h)
  else (inl EOSError, h).

Definition go_build (dockerfile_content image_tag : string) : hm bool :=
  r ← ask_adapter "build" [("dockerfile_content", dockerfile_content); ("image_tag", image_tag)];
  mret (match r with Some g => gr_ok g | None => false end).
Definition build_with_cli (container_runtime image_tag content : string) : hm bool :=
  df_path ← _prepare_build_dir content;
  build_image container_runtime (build_dir content) image_tag df_path.
Definition _build_from_string (container_runtime image_tag dockerfile_content : string) : hm bool :=
  ok ← (if go_available then go_build dockerfile_content image_tag else mret false);
  if ok : bool then mret true else build_with_cli container_runtime image_tag dockerfile_content.

(** The common end of the five functions: the image that exists, or a new one,
    or what to run without one. *)
Definition reuse_or_build (container_runtime image_tag : string) (build_if_missing : bool) (build : hm bool)
    (binary : string) (runtime_args : list string) (bare : image_result) : hm image_result :=
  found ← image_exists container_runtime image_tag;
  if found : bool then mret (Some image_tag, binary, runtime_args)
  else if negb build_if_missing then mret bare
  else success ← build; mret (if success : bool then (Some image_tag, binary, runtime_args) else bare).

Definition _ensure_uvx_image (args : list string) (container_runtime : string) (o : ImageOptions) (rc : RuntimeConfig)
  : hm image_result :=
  let '(package, binary, runtime_args) := parse_uvx_args args in
  dockerfile ← lift_sum (generate_uvx_dockerfile render package binary None None (io_system_deps o) (io_build_system_deps o) (Some rc));
  let image_tag := compute_image_tag sha256_hex "uvx" package dockerfile in
  reuse_or_build container_runtime image_tag (io_build_if_missing o)
    (_build_from_string container_runtime image_tag dockerfile) binary runtime_args (None, "uvx", args).

Definition _ensure_npx_image (args : list string) (container_runtime : string) (o : ImageOptions) (rc : RuntimeConfig)
  : hm image_result :=
  let '(package, runtime_args, is_vcs) := parse_npx_args args in
  let build_deps := if is_vcs && negb (bool_decide ("git" ∈ io_build_system_deps o))
                    then io_build_system_deps o ++ ["git"] else io_build_system_deps o in
  dockerfile ← lift_sum (generate_npx_dockerfile render package None None (io_system_deps o) build_deps (Some rc));
  let image_tag := compute_image_tag sha256_hex "npx" package dockerfile in
  reuse_or_build container_runtime image_tag (io_build_if_missing o)
    (_build_from_string container_runtime image_tag dockerfile) package runtime_args (None, "npx", args).

Definition _ensure_go_image (args : list string) (container_runtime : string) (o : ImageOptions) (rc : RuntimeConfig)
  : hm image_result :=
  if negb (str_truthy (io_go_package o)) then mret (None, "go", args)
  else
    '(module_path, runtime_args) ← lift_sum (parse_go_args args (io_go_package o));
    dockerfile ← lift_sum (generate_go_dockerfile render module_path None None (io_system_deps o) (io_build_system_deps o) (Some rc) []);
    let image_tag := compute_image_tag sha256_hex "go" module_path dockerfile in
    reuse_or_build container_runtime image_tag (io_build_if_missing o)
      (_build_from_string container_runtime image_tag dockerfile) "/app/mcp-server" runtime_args (None, "go", args).

Definition node_indicators : list string := ["npm "; "npx "; "yarn "; "pnpm "; "node "].
Definition source_transport (build_steps entrypoint : list string) : string :=
  let steps_joined := lower (str_join " " build_steps) in
  if existsb (contains steps_joined) node_indicators || bool_decide (lower (default "" (head entrypoint)) = "node")
  then "npx" else "uvx".

Definition _ensure_source_image (source_url : string) (container_runtime : string) (o : ImageOptions) : hm image_result :=
  let rc := for_transport (source_transport (io_build_steps o) (io_entrypoint o)) (io_builder_image o)
              (io_additional_packages o) false in
  dockerfile ← lift_sum (generate_source_dockerfile render bracket_ok source_url (io_build_steps o) (io_entrypoint o)
      (io_source_ref o) None (io_build_env o) (io_system_deps o) (io_build_system_deps o) (Some rc));
  let image_tag := compute_image_tag sha256_hex "source" (repo_name_of source_url) dockerfile in
  let first := default "" (head (io_entrypoint o)) in
  reuse_or_build container_runtime image_tag (io_build_if_missing o)
    (_build_from_string container_runtime image_tag dockerfile) first [] (None, first, []).

Definition dirname (p : string) : string := let d := before_last slash_code p in if bool_decide (d = "") then "/" else d.
Definition dockerfile_tag (path content : string) : string :=
  IMAGE_PREFIX +:+ "/" +:+ lower (replace_char (ascii_of_nat 46) (ascii_of_nat 45) (last_part slash_code path)) +:+ ":" +:+
  content_hash sha256_hex content.
Definition _ensure_custom_dockerfile_image (dockerfile_path container_runtime : string) (o : ImageOptions) : hm image_result :=
  match read_file dockerfile_path with
  | None => mret (None, "", [])
  | Some None => raise EOSError
  | Some (Some content) =>
      let image_tag := dockerfile_tag dockerfile_path content in
      reuse_or_build container_runtime image_tag (io_build_if_missing o)
        (build_image container_runtime (dirname (abspath dockerfile_path)) image_tag (abspath dockerfile_path))
        "" [] (None, "", [])
  end.

Definition ensure_image (command : string) (args : list string) (container_runtime : string) (o : ImageOptions)
  : hm image_result :=
  let transport := match io_transport o with
                   | Some t => if bool_decide (t = "") then classify_command command else Some t
                   | None => classify_command command
                   end in
  if str_truthy (io_source_url o) && negb (bool_decide (io_build_steps o = [])) && negb (bool_decide (io_entrypoint o = [])) then
    _ensure_source_image (default "" (io_source_url o)) container_runtime o
  else if str_truthy (io_dockerfile o) then
    _ensure_custom_dockerfile_image (default "" (io_dockerfile o)) container_runtime o
  else
    let rc t := for_transport t (io_builder_image o) (io_additional_packages o) false in
    match transport with
    | Some "uvx" => _ensure_uvx_image args container_runtime o (rc "uvx")
    | Some "npx" => _ensure_npx_image args container_runtime o (rc "npx")
    | Some "go" => _ensure_go_image args container_runtime o (rc "go")
    | _ => mret (None, command, args)
    end.
End builder.

(** ** The characters of derived names *)

(** Every character of [s] is one of [t], or one that no pattern refuses. *)
Definition from (s t : string) : Prop := ∀ c, c ∈ chars s → c ∈ chars t ∨ code c ∉ _SHELL_UNSAFE.
Definition clean (s : string) : Prop := ∀ c, c ∈ chars s → code c ∉ _SHELL_UNSAFE.

Lemma shell_unsafe_clean s : shell_unsafe s = false ↔ clean s.
Proof.
  unfold shell_unsafe, clean. rewrite <-not_true_iff_false, existsb_elem_of. split.
  - intros H c Hc Hu. apply H. exists c. split; [done|]. by apply bool_decide_eq_true_2.
  - intros H (c & Hc & Hu%bool_decide_eq_true_1). by apply (H c Hc).
Qed.

Lemma from_clean s t : from s t → clean t → clean s.
Proof. intros Hf Ht c Hc. destruct (Hf c Hc) as [H|H]; [by apply Ht|done]. Qed.

Lemma from_refl s : from s s.
Proof. intros c Hc. by left. Qed.
Lemma from_trans s t u : from s t → from t u → from s u.
Proof. intros H1 H2 c Hc. destruct (H1 c Hc) as [H|H]; [by apply H2|by right]. Qed.
Lemma clean_from s t : clean s → from s t.
Proof. intros H c Hc. right. by apply H. Qed.
Lemma from_app s t u : from s u → from t u → from (s +:+ t) u.
Proof. intros H1 H2 c. rewrite chars_app, elem_of_app. intros [H|H]; auto. Qed.

Lemma partition_at_from n l :
  (∀ c, c ∈ (partition_at n l).1 → c ∈ l) ∧
  (∀ r c, (partition_at n l).2 = Some r → c ∈ r → c ∈ l).
Proof.
  induction l as [|x l [IH1 IH2]]; simpl; [by split|]. destruct (is_char n x); simpl.
  - split; [set_solver|]. intros r c [= <-]. set_solver.
  - destruct (partition_at n l) as [a b]. simpl in *. split; [set_solver|].
    intros r c Hr Hc. right. by apply (IH2 r).
Qed.

Lemma drop_while_sub f l c : c ∈ drop_while f l → c ∈ l.
Proof. destruct (drop_while_split f l) as (a & E & _). intros Hc. rewrite E. apply elem_of_app. by right. Qed.
Lemma rstrip_chars_sub f l c : c ∈ rstrip_chars f l → c ∈ l.
Proof. destruct (rstrip_chars_split f l) as (b & E & _). intros Hc. rewrite E. apply elem_of_app. by left. Qed.

Lemma before_first_from n s : from (before_first n s) s.
Proof. intros c. unfold before_first. rewrite chars_text. left. by apply (partition_at_from n). Qed.
Lemma after_first_from n s : from (after_first n s) s.
Proof.
  intros c. unfold after_first. destruct ((partition_at n (chars s)).2) as [r|] eqn:E; [|by left].
  rewrite chars_text. left. by eapply (proj2 (partition_at_from n _)).
Qed.
Lemma last_part_from n s : from (last_part n s) s.
Proof.
  intros c. unfold last_part, after_last. rewrite chars_text, elem_of_reverse. intros Hc. left.
  apply elem_of_reverse. by apply (partition_at_from n).
Qed.
Lemma before_last_from n s : from (before_last n s) s.
Proof.
  intros c. unfold before_last. destruct ((partition_at n (reverse (chars s))).2) as [r|] eqn:E; [|by left].
  rewrite chars_text, elem_of_reverse. left. apply elem_of_reverse.
  by eapply (proj2 (partition_at_from n _)).
Qed.
Lemma take_chars_from n s : from (take_chars n s) s.
Proof. intros c. unfold take_chars. rewrite chars_text. left. eapply elem_of_submseteq; [done|]. apply sublist_submseteq, sublist_take. Qed.
Lemma drop_chars_from n s : from (drop_chars n s) s.
Proof. intros c. unfold drop_chars. rewrite chars_text. left. eapply elem_of_submseteq; [done|]. apply sublist_submseteq, sublist_drop. Qed.
Lemma removesuffix_from s x : from (removesuffix s x) s.
Proof. unfold removesuffix. destruct (endswith s x); [apply take_chars_from|apply from_refl]. Qed.
Lemma rstrip_by_from f s : from (rstrip_by f s) s.
Proof. intros c. unfold rstrip_by. rewrite chars_text. left. by eapply rstrip_chars_sub. Qed.
Lemma str_split_from a s x : x ∈ str_split a s → from x s.
Proof.
  unfold str_split. intros (l & -> & Hl)%list_elem_of_fmap c. rewrite chars_text. intros Hc. left.
  rewrite <-(join_split a (chars s)). revert Hl Hc. generalize (split_on a (chars s)).
  induction l0 as [|p ps IH]; [by intros ?%not_elem_of_nil|]. intros [->|Hin]%elem_of_cons Hc; simpl.
  - destruct ps; set_solver.
  - destruct ps; [by apply not_elem_of_nil in Hin|]. apply elem_of_app. right. right. by apply IH.
Qed.
Lemma after_text_from sep l r c : after_text sep l = Some r → c ∈ r → c ∈ l.
Proof.
  induction l as [|x l IH]; cbn [after_text].
  - case_bool_decide; [|done]. by intros [= <-].
  - case_bool_decide.
    + intros [= <-] Hc. eapply elem_of_submseteq; [done|]. apply sublist_submseteq, sublist_drop.
    + intros Hr Hc. right. by apply IH.
Qed.
Lemma str_split_at_from sep s r : str_split_at sep s = Some r → from r s.
Proof.
  unfold str_split_at. intros (l & El & ->)%fmap_Some c. rewrite chars_text. intros Hc. left. by eapply after_text_from.
Qed.
Lemma clean_concrete s : shell_unsafe s = false → clean s.
Proof. apply shell_unsafe_clean. Qed.
Create HintDb names.
#[local] Hint Resolve from_refl before_first_from after_first_from last_part_from before_last_from drop_chars_from
  removesuffix_from rstrip_by_from : names.
#[local] Hint Extern 5 (from _ _) => eapply from_trans : names.

Lemma strip_version_from s : from (_strip_version s) s.
Proof.
  unfold _strip_version. repeat case_match; try apply from_refl.
  - apply from_app; [by apply clean_from, clean_concrete|]. eapply str_split_from. rewrite H1. right. left.
  - eapply str_split_from. rewrite H1. left.
Qed.
Lemma vcs_repo_name_from s : from (_vcs_repo_name s) s.
Proof.
  unfold _vcs_repo_name. destruct (List.find _ _) as [prefix|].
  { eapply from_trans; [apply removesuffix_from|]. eapply from_trans; [apply last_part_from|].
    eapply from_trans; [apply drop_chars_from|]. apply before_first_from. }
  destruct (str_split_at _ _) as [path|] eqn:E; [|apply before_first_from].
  apply str_split_at_from in E. eapply from_trans; [apply removesuffix_from|].
  eapply from_trans; [apply last_part_from|]. eapply from_trans; [apply rstrip_by_from|].
  eapply from_trans; [|eapply from_trans; [exact E|apply before_first_from]].
  case_match; [apply after_first_from|apply from_refl].
Qed.
Lemma npm_bin_name_from s : from (_npm_bin_name s) s.
Proof.
  unfold _npm_bin_name. repeat case_match; [apply vcs_repo_name_from|apply after_first_from|apply from_refl].
Qed.
Lemma uvx_install_cmd_from s : from (_compute_uvx_install_cmd s) s.
Proof.
  unfold _compute_uvx_install_cmd. repeat case_match;
    repeat apply from_app; auto with names; by apply clean_from, clean_concrete.
Qed.

(** ** What reaches a template *)

Definition nonblank (l : list string) : list string := keep (λ s, negb (bool_decide (s = ""))) (str_strip <$> l).

Lemma validate_package_name_inr s s' : validate_package_name s = inr s' →
  s' = str_strip s ∧ s' ≠ "" ∧ clean s' ∧ strlen s' <= 256.
Proof.
  unfold validate_package_name. repeat case_match; try done. intros [= <-]. reflect_bools.
  split_and!; [done|done|by apply shell_unsafe_clean|done].
Qed.

Definition dep_ok (s : string) : Prop :=
  clean s ∧ (∃ c l, chars s = c :: l ∧ is_alpha c || is_digit c = true) ∧ strlen s <= 128.

Lemma validate_dep_inr s r : validate_dep s = inr r →
  r = (if bool_decide (str_strip s = "") then None else Some (str_strip s)) ∧ (∀ x, r = Some x → dep_ok x).
Proof.
  unfold validate_dep. destruct (bool_decide (str_strip s = "")); [by intros [= <-]|].
  repeat case_match; try done. intros [= <-]. split; [done|]. intros x [= <-]. reflect_bools.
  split_and!; [by apply shell_unsafe_clean| |done].
  unfold _SYSDEP_PATTERN, matches_name in *. destruct (chars (str_strip s)) as [|c l]; [done|].
  exists c, l. split; [done|]. by apply andb_true_iff in H0 as [? _].
Qed.

Lemma validate_system_deps_inr deps ds : validate_system_deps deps = inr ds →
  ds = nonblank deps ∧ ∀ x, x ∈ ds → dep_ok x.
Proof.
  unfold validate_system_deps. intros (l & Hl & [= <-])%sum_bind_inr. apply map_each_inr in Hl.
  induction Hl as [|s r deps l Hr Hl [IH1 IH2]]; [by split; [|intros ? ?%not_elem_of_nil]|].
  destruct (validate_dep_inr s r Hr) as [-> Hok]. unfold nonblank in *. simpl.
  destruct (bool_decide (str_strip s = "")); simpl; [done|]. split; [by f_equal|].
  intros x [->|Hx]%elem_of_cons; auto.
Qed.

Definition env_ok (env : odict string string) : Prop :=
  ∀ k v, (k, v) ∈ env →
    _ENV_KEY_PATTERN k = true ∧ (k ∉ _RESERVED_ENV_KEYS) ∧ ∀ c, c ∈ chars v → code c ∉ env_dangerous.

Lemma elem_of_dset {K V} `{EqDecision K} (d : odict K V) k v k' v' :
  (k', v') ∈ dset d k v → (k', v') = (k, v) ∨ (k', v') ∈ d.
Proof. induction d as [|[a b] d IH]; simpl; [set_solver|]. case_decide; set_solver. Qed.
Lemma elem_of_dupdate {K V} `{EqDecision K} (d2 d1 : odict K V) k v :
  (k, v) ∈ dupdate d1 d2 → (k, v) ∈ d1 ∨ (k, v) ∈ d2.
Proof.
  revert d1. induction d2 as [|[a b] d2 IH]; intros d1; [by left|]. unfold dupdate. simpl.
  intros [[?|?]%elem_of_dset|?]%IH; set_solver.
Qed.

Lemma validate_env_inr build_env env : validate_env build_env = inr env → env_ok env.
Proof.
  unfold validate_env. intros (u & Hu & [= <-])%sum_bind_inr. intros k v Hin.
  apply elem_of_dupdate in Hin as [?%not_elem_of_nil|Hin]; [done|].
  rewrite check_each_inr, Forall_forall in Hu. specialize (Hu _ Hin). simpl in Hu.
  apply sum_bind_inr in Hu as (k' & Hk & (v' & Hv & _)%sum_bind_inr).
  unfold validate_build_env_value in Hv. destruct (existsb _ (chars v)) eqn:Ex; [done|].
  unfold validate_build_env_key in Hk. destruct (_ENV_KEY_PATTERN k) eqn:Ek; [|done]. simpl in Hk.
  destruct (bool_decide (k ∈ _RESERVED_ENV_KEYS)) eqn:Er; [done|]. reflect_bools.
  split_and!; [done|done|]. intros c Hc Hd.
  apply not_true_iff_false in Ex. apply Ex, existsb_elem_of. exists c.
  split; [done|]. by apply bool_decide_eq_true_2.
Qed.

Record names_ok (d : TemplateData) : Prop := {
  ok_package : clean (td_package d); ok_package_clean : clean (td_package_clean d);
  ok_install_cmd : clean (td_install_cmd d); ok_bin_name : clean (td_bin_name d);
  ok_go_package : clean (td_go_package d); ok_go_package_clean : clean (td_go_package_clean d) }.
Record inputs_ok (deps build_deps : list string) (d : TemplateData) : Prop := {
  ok_deps : td_system_deps d = nonblank deps;
  ok_build_deps : ∀ x, x ∈ td_build_system_deps d ↔ x ∈ nonblank build_deps ∨ x = "git" ∧ td_source_url d ≠ "";
  ok_each : ∀ x, x ∈ td_system_deps d ++ td_build_system_deps d → dep_ok x;
  ok_env : env_ok (td_build_env d) }.

Lemma clean_empty : clean "".
Proof. by apply clean_concrete. Qed.
Lemma clean_app s t : clean s → clean t → clean (s +:+ t).
Proof. intros H1 H2 c. rewrite chars_app, elem_of_app. intros [H|H]; auto. Qed.
#[local] Hint Resolve clean_empty clean_app clean_concrete : names.

Lemma strip_go_version_from s : from (_strip_go_version s) s.
Proof. unfold _strip_go_version. case_match; auto with names. Qed.

Lemma build_inputs_inr package env deps p e ds :
  _validate_build_inputs package env deps = inr (p, e, ds) →
  p = str_strip package ∧ p ≠ "" ∧ clean p ∧ ds = nonblank deps ∧ (∀ x, x ∈ ds → dep_ok x) ∧ env_ok e.
Proof.
  unfold _validate_build_inputs.
  intros (p' & Hp & (ds' & Hd & (e' & He & [= -> -> ->])%sum_bind_inr)%sum_bind_inr)%sum_bind_inr.
  apply validate_package_name_inr in Hp as (? & ? & ? & _). apply validate_system_deps_inr in Hd as [? ?].
  apply validate_env_inr in He. auto 10.
Qed.

Lemma git_ok : dep_ok "git".
Proof. split_and!; [by apply clean_concrete| |vm_compute; done]. by eexists _, _. Qed.

Lemma plain_inputs (ds bs : list string) e (d : TemplateData) build_deps :
  (∀ x, x ∈ ds → dep_ok x) → (∀ x, x ∈ bs → dep_ok x) → bs = nonblank build_deps → env_ok e →
  td_system_deps d = ds → td_build_system_deps d = bs → td_build_env d = e → td_source_url d = "" →
  ∀ deps, ds = nonblank deps → inputs_ok deps build_deps d.
Proof.
  intros Hd Hb -> He <- E2 <- E4 deps Hds. split; [done| | |done].
  - intros x. rewrite E2, E4. naive_solver.
  - intros x [Hx|Hx]%elem_of_app; [auto|]. rewrite E2 in Hx. auto.
Qed.

(** Validation guards the templates.  For packages of the three runners, every
    name and install command given to a template is free of the characters that
    a shell treats specially; the system packages are those configured, trimmed
    and without blanks, each begins with a letter or a digit (so none is an
    option), and is short; and each build variable has an upper-case name that
    is not reserved and a value without the characters that start a command. *)
Theorem template_inputs_safe (package binary : string) (image : option string) (env : option (odict string string))
    (deps build_deps : list string) (rc : option RuntimeConfig) (runtime_args : list string) (d : TemplateData)
    (Hd : uvx_data package binary image env deps build_deps rc = inr d ∨
          npx_data package image env deps build_deps rc = inr d ∨
          go_data package image env deps build_deps rc runtime_args = inr d) :
  td_package d = str_strip package ∧ td_package d ≠ "" ∧ names_ok d ∧ inputs_ok deps build_deps d.
Proof.
  assert (∃ p e ds bs, _validate_build_inputs package env deps = inr (p, e, ds) ∧
    validate_system_deps build_deps = inr bs ∧ td_package d = p ∧ td_build_env d = e ∧ td_system_deps d = ds ∧
    td_build_system_deps d = bs ∧ td_source_url d = "" ∧
    from (td_package_clean d) p ∧ from (td_install_cmd d) p ∧ from (td_bin_name d) p ∧ from (td_go_package d) p ∧
    from (td_go_package_clean d) p) as (p & e & ds & bs & Hin & Hbs & <- & <- & <- & <- & Eu & F1 & F2 & F3 & F4 & F5).
  { destruct Hd as [Hd|[Hd|Hd]]; apply sum_bind_inr in Hd as ([[p e] ds] & Hin & (bs & Hbs & [= <-])%sum_bind_inr);
      exists p, e, ds, bs; split_and!; try done; simpl;
      eauto using strip_version_from, uvx_install_cmd_from, npm_bin_name_from, strip_go_version_from, from_trans,
        clean_from, clean_empty;
      (apply from_app; [by apply clean_from, clean_concrete|apply from_refl]) || apply from_refl. }
  apply build_inputs_inr in Hin as (Hp & Hne & Hc & Hds & Hok & He).
  apply validate_system_deps_inr in Hbs as [Hb Hbok].
  split_and!; [done|done|split; eauto using from_clean|exact (plain_inputs _ _ _ d build_deps Hok Hbok Hb He eq_refl eq_refl eq_refl Eu deps Hds)].
Qed.

(** The same for what a source build takes from the section: [git] is added to
    the packages of the builder. *)
Lemma source_inputs_safe bracket_ok url steps entry ref image env deps build_deps rc d :
  url ≠ "" → source_data bracket_ok url steps entry ref image env deps build_deps rc = inr d →
  inputs_ok deps build_deps d ∧ "git" ∈ td_build_system_deps d.
Proof.
  intros Hurl. intros (ds & [Hds Hok]%validate_system_deps_inr &
    (bs & [Hbs Hbok]%validate_system_deps_inr & (e & He%validate_env_inr & [= <-])%sum_bind_inr)%sum_bind_inr)%sum_bind_inr.
  assert (∀ x, x ∈ with_git bs ↔ x ∈ bs ∨ x = "git") as Hg.
  { intros x. unfold with_git. case_bool_decide; set_solver. }
  split; [|apply Hg; by right]. split; simpl; [done| | |done].
  - intros x. rewrite Hg, Hbs. naive_solver.
  - intros x [Hx|Hx%Hg]%elem_of_app; [auto|]. destruct Hx as [?| ->]; [auto|apply git_ok].
Qed.

Lemma template_inputs_safe_witness :
  uvx_data "mcp-server@1.2" "mcp-server" None None [" ripgrep "; ""] ["git"] None =
    inr (template "mcp-server@1.2" "mcp-server" "mcp-server" "python:3.13-slim" "uv tool install 'mcp-server==1.2'"
           ["ripgrep"] ["git"] [] ["ca-certificates"; "git"]) ∧
  names_ok (template "mcp-server@1.2" "mcp-server" "mcp-server" "python:3.13-slim" "uv tool install 'mcp-server==1.2'"
              ["ripgrep"] ["git"] [] ["ca-certificates"; "git"]).
Proof.
  split; [vm_compute; reflexivity|].
  apply (template_inputs_safe "mcp-server@1.2" "mcp-server" None None [" ripgrep "; ""] ["git"] None []).
  left. vm_compute. reflexivity.
Defined.

(** *** What the validation lets through *)

(** The value of a build variable may hold line ends and quotes, which end the
    instruction it is put into. *)
Lemma build_env_line_end v :
  validate_build_env_value (String (ascii_of_nat 34) (String (ascii_of_nat 10) v)) = inr (String (ascii_of_nat 34) (String (ascii_of_nat 10) v)) ↔
  validate_build_env_value v = inr v.
Proof.
  unfold validate_build_env_value. simpl. destruct (existsb _ (chars v)); naive_solver.
Qed.

(** A package that begins with a dash is an option of the installer. *)
Lemma option_as_package :
  td_install_cmd <$> (match npx_data "--registry=https://example.org x" None None [] [] None with inr d => Some d | inl _ => None end)
  = Some "npm install --save --registry=https://example.org x".
Proof. reflexivity. Qed.

(** A specifier with a branch, one of the forms the parser documents, is refused
    because of its number sign. *)
Lemma branch_refused :
  is_vcs_specifier "github:owner/repo#branch" = true ∧
  validate_package_name "github:owner/repo#branch" = inl (ValidationError "Package name contains unsafe characters").
Proof. split; reflexivity. Qed.

(** The binary after [--from] is not validated. *)
Lemma binary_unchecked b :
  td_binary <$> (match uvx_data "p" b None None [] [] None with inr d => Some d | inl _ => None end) = Some b.
Proof. reflexivity. Qed.

(** [--from] is looked for among all arguments, also those of the tool. *)
Lemma from_of_the_tool :
  parse_uvx_args ["report"; "--from"; "2024"; "--to"] = ("2024", "--to", ["report"]).
Proof. reflexivity. Qed.

(** Without it the tool gets all arguments after the package. *)
Lemma skip_uvx_flags_suffix l : ∃ flags, l = flags ++ skip_uvx_flags l.
Proof.
  induction (Nat.lt_wf_0_projected (@length string) l) as [l _ IH].
  destruct l as [|x l]; [by exists []|]. cbn [skip_uvx_flags]. case_bool_decide.
  - destruct l as [|y l]; [by exists [x]|]. destruct (IH l) as [f Hf]; [simpl; lia|]. exists (x :: y :: f). simpl. by f_equal/=; f_equal.
  - case_bool_decide; [|by exists []]. destruct (IH l) as [f Hf]; [simpl; lia|]. exists (x :: f). simpl. by f_equal.
Qed.
Lemma index_of_None x l : x ∉ l → index_of x l = None.
Proof.
  induction l as [|y l IH]; [done|]. intros [? ?]%not_elem_of_cons. simpl. rewrite IH by done.
  by rewrite bool_decide_eq_false_2.
Qed.
Lemma parse_uvx_plain args : "--from" ∉ args →
  ∃ flags, args = flags ++ skip_uvx_flags args ∧
  match skip_uvx_flags args with
  | package :: rest => (parse_uvx_args args).2 = rest ∧ (package ≠ "" → (parse_uvx_args args).1.1 = package)
  | [] => parse_uvx_args args = ("unknown", "unknown", [])
  end.
Proof.
  intros Hf. destruct (skip_uvx_flags_suffix args) as [flags Hfl]. exists flags. split; [done|].
  unfold parse_uvx_args, take_from. rewrite index_of_None by done. simpl.
  destruct (skip_uvx_flags args) as [|p rest]; [done|]. split; [done|]. intros Hp. simpl. by destruct p.
Qed.

(** ** What the builder does outside *)

(** A computation that only adds events that satisfy [P]. *)
Definition adds {A} (P : event → Prop) (m : hm A) : Prop := ∀ h, ∃ new, (m h).2 = new ++ h ∧ Forall P new.

Lemma adds_ret {A} P (a : A) : adds P (mret a).
Proof. intros h. by exists []. Qed.
Lemma adds_raise {A} P e : adds P (raise e : hm A).
Proof. intros h. by exists []. Qed.
Lemma adds_lift {A} P (r : img_exc + A) : adds P (lift_sum r).
Proof. intros h. by exists []. Qed.
Lemma adds_bind {A B} P (m : hm A) (k : A → hm B) : adds P m → (∀ a, adds P (k a)) → adds P (m ≫= k).
Proof.
  intros Hm Hk h. unfold mbind, M_bind. destruct (Hm h) as (n1 & E1 & F1).
  destruct (m h) as [[e|a] h1]; simpl in *; [by exists n1|].
  destruct (Hk a h1) as (n2 & E2 & F2). exists (n2 ++ n1). rewrite E2, E1, app_assoc. split; [done|by apply Forall_app].
Qed.

(** The newest event confirms that the image is there. *)
Definition confirmed (exec : history → list string → exec_result) (go_call : history → string → odict string string → option go_reply)
    (rt tag : string) (h : history) : Prop :=
  ∃ e h1, h = e :: h1 ∧
    ((e = Exec [rt; "image"; "inspect"; tag] ∧ succeeded (exec h1 [rt; "image"; "inspect"; tag]) = true) ∨
     (∃ df dir, e = Exec [rt; "build"; "--progress=plain"; "-t"; tag; "-f"; df; dir] ∧
        succeeded (exec h1 [rt; "build"; "--progress=plain"; "-t"; tag; "-f"; df; dir]) = true) ∨
     (∃ content r, e = Go "build" [("dockerfile_content", content); ("image_tag", tag)] ∧
        go_call h1 "build" [("dockerfile_content", content); ("image_tag", tag)] = Some r ∧ gr_ok r = true)).

(** An event of the builder: it looks for an image, builds one, or writes a
    Dockerfile. *)
Definition builder_event (e : event) : Prop :=
  match e with
  | Exec (_ :: verb :: _) => verb = "image" ∨ verb = "build"
  | Exec _ => False
  | Go op _ => op = "build"
  | WriteFile _ _ => True
  end.

Section builder_facts.
Context (render : string → TemplateData → string) (sha256_hex : string → string) (bracket_ok : string → bool)
  (exec : history → list string → exec_result) (go_available : bool)
  (go_call : history → string → odict string string → option go_reply) (write_ok : history → bool)
  (cache_dir : string) (read_file : string → option (option string)) (abspath : string → string).
Local Abbreviation ensure := (ensure_image render sha256_hex bracket_ok exec go_available go_call write_ok cache_dir read_file abspath).
Local Abbreviation confirms := (confirmed exec go_call).

Lemma adds_run P argv : P (Exec argv) → adds P (run exec argv).
Proof. intros H h. exists [Exec argv]. split; [done|by constructor]. Qed.
Lemma adds_ask P op args : P (Go op args) → adds P (ask_adapter go_call op args).
Proof. intros H h. exists [Go op args]. split; [done|by constructor]. Qed.
Lemma adds_prepare content : adds builder_event (_prepare_build_dir sha256_hex write_ok cache_dir content).
Proof. intros h. unfold _prepare_build_dir. case_match; [eexists [_]; split; [done|by constructor]|by exists []]. Qed.

Lemma adds_image_exists rt tag : adds builder_event (image_exists exec rt tag).
Proof. apply adds_bind; [apply adds_run; by left|intros; apply adds_ret]. Qed.
Lemma adds_build_image rt dir tag df : adds builder_event (build_image exec rt dir tag df).
Proof. apply adds_bind; [apply adds_run; by right|intros; apply adds_ret]. Qed.
Lemma adds_build rt tag content :
  adds builder_event (_build_from_string sha256_hex exec go_available go_call write_ok cache_dir rt tag content).
Proof.
  apply adds_bind.
  - destruct go_available; [|apply adds_ret]. apply adds_bind; [by apply adds_ask|intros; apply adds_ret].
  - intros []; [apply adds_ret|]. apply adds_bind; [apply adds_prepare|intros; apply adds_build_image].
Qed.
Lemma adds_reuse rt tag missing build binary args bare :
  adds builder_event build → adds builder_event (reuse_or_build exec rt tag missing build binary args bare).
Proof.
  intros Hb. apply adds_bind; [apply adds_image_exists|]. intros []; [apply adds_ret|].
  destruct missing; simpl; [|apply adds_ret]. apply adds_bind; [done|intros; apply adds_ret].
Qed.
Create HintDb adds.
#[local] Hint Resolve adds_reuse adds_build adds_build_image adds_ret adds_lift adds_raise : adds.

Lemma adds_ensure command args rt o : adds builder_event (ensure command args rt o).
Proof.
  unfold ensure_image, _ensure_source_image, _ensure_custom_dockerfile_image, _ensure_uvx_image, _ensure_npx_image,
    _ensure_go_image.
  repeat first [progress auto with adds|progress intros|apply adds_reuse|apply adds_bind|case_match].
Qed.

Lemma image_exists_true rt tag h h' : image_exists exec rt tag h = (inr true, h') → confirms rt tag h'.
Proof. intros [= Hs <-]. eexists _, h. split; [done|]. left. done. Qed.
Lemma build_image_true rt dir tag df h h' : build_image exec rt dir tag df h = (inr true, h') → confirms rt tag h'.
Proof. intros [= Hs <-]. eexists _, h. split; [done|]. right. left. by exists df, dir. Qed.
Lemma build_true rt tag content h h' :
  _build_from_string sha256_hex exec go_available go_call write_ok cache_dir rt tag content h = (inr true, h') →
  confirms rt tag h'.
Proof.
  unfold _build_from_string. rewrite run_bind. destruct go_available; simpl.
  - destruct (go_call h _ _) as [r|] eqn:Er; simpl; [destruct (gr_ok r) eqn:Eo|].
    + intros [= <-]. eexists _, h. split; [done|]. right. right. by exists content, r.
    + unfold build_with_cli. rewrite run_bind. destruct (_prepare_build_dir _ _ _ _ _) as [[]]; [done|]. apply build_image_true.
    + unfold build_with_cli. rewrite run_bind. destruct (_prepare_build_dir _ _ _ _ _) as [[]]; [done|]. apply build_image_true.
  - unfold build_with_cli. rewrite run_bind. destruct (_prepare_build_dir _ _ _ _ _) as [[]]; [done|]. apply build_image_true.
Qed.
Lemma reuse_confirmed rt tag missing (build : hm bool) binary args bare h tag' b a h' :
  (∀ g g', build g = (inr true, g') → confirms rt tag g') → bare.1.1 = None →
  reuse_or_build exec rt tag missing build binary args bare h = (inr (Some tag', b, a), h') →
  tag' = tag ∧ confirms rt tag h'.
Proof.
  intros Hb Hbare. unfold reuse_or_build. rewrite run_bind.
  destruct (image_exists exec rt tag h) as [[e|[]] h1] eqn:Ei; [done| |].
  - intros [= <- _ _ <-]. split; [done|]. by eapply image_exists_true.
  - destruct missing; simpl; [|intros [= -> _]; done]. rewrite run_bind.
    destruct (build h1) as [[e|[]] h2] eqn:Ebuild; [done| |].
    + intros [= <- _ _ <-]. split; [done|]. by eapply Hb.
    + intros [= -> _]. done.
Qed.

Lemma lift_sum_bind {A B} (r : img_exc + A) (k : A → hm B) h :
  (lift_sum r ≫= k) h = match r with inl e => (inl e, h) | inr a => k a h end.
Proof. unfold mbind, M_bind, lift_sum. by destruct r. Qed.

(** An image that is handed out was just found or just built. *)
Lemma ensure_confirmed command args rt o h tag b a h' :
  ensure command args rt o h = (inr (Some tag, b, a), h') → confirms rt tag h'.
Proof.
  assert (∀ content tag' binary rargs bare g, bare.1.1 = None →
    reuse_or_build exec rt tag' (io_build_if_missing o)
      (_build_from_string sha256_hex exec go_available go_call write_ok cache_dir rt tag' content) binary rargs bare g =
      (inr (Some tag, b, a), h') → confirms rt tag h') as Hr.
  { intros content tag' binary rargs bare g Hbare H.
    by destruct (reuse_confirmed _ _ _ _ _ _ _ _ _ _ _ _ (build_true rt tag' content) Hbare H) as [-> ?]. }
  unfold ensure_image, _ensure_source_image, _ensure_uvx_image, _ensure_npx_image, _ensure_go_image.
  repeat case_match; try done.
  all: try (rewrite lift_sum_bind; case_match; [done|]; by apply Hr).
  1: unfold _ensure_custom_dockerfile_image; repeat case_match; try done; intros Hc;
    by destruct (reuse_confirmed _ _ _ _ _ _ (None, "", []) _ _ _ _ _ (build_image_true _ _ _ _) eq_refl Hc) as [-> ?].
  all: rewrite lift_sum_bind; destruct (parse_go_args _ _) as [e|[m r]]; [done|];
    rewrite lift_sum_bind; destruct (generate_go_dockerfile _ _ _ _ _ _ _ _); [done|]; by apply Hr.
Qed.
End builder_facts.
