(* ===== verification/Catalog.v ===== *)
(** * Server catalogs (registry/catalog.py)

    Batch onboarding: a catalog is parsed into entries, staged as a preview, and
    committed to the configuration.  Backends are built and validated by the
    models of Schema.v.

    Parameters: [safe_load] is YAML parsing ([None]: a [YAMLError]),
    [construct_entry] the pydantic model of an entry and [parse_filters] that of
    its filters ([None]: a [ValidationError]); [health_check] is the caller's
    callback ([None] when it raises). *)
From S2P Require Import Prelude PyDict Effects PyStr Schema.
#[local] Open Scope Z_scope.

Inductive CatalogEntryStatus := STAGED | ADDED | SKIPPED | FAILED | HEALTH_OK | HEALTH_FAILED.
#[export] Instance CatalogEntryStatus_eq_dec : EqDecision CatalogEntryStatus.
Proof. solve_decision. Defined.

Record CatalogEntry := {
  ce_name : string; ce_description : string; ce_transport : string; ce_command : option string; ce_args : list string;
  ce_url : option string; ce_env : option (odict string string); ce_headers : option (odict string string);
  ce_groups : list string; ce_categories : list string; ce_filters : option pyval; ce_timeout : option pyval }.

Record CatalogItemResult := {
  ci_name : string; ci_status : CatalogEntryStatus; ci_backend_type : string; ci_error : option string }.
Record CatalogResult := { cr_catalog_id : string; cr_dry_run : bool; cr_total : nat; cr_items : list CatalogItemResult }.
Definition status_count (st : CatalogEntryStatus) (r : CatalogResult) : nat :=
  length (keep (λ i, bool_decide (ci_status i = st)) (cr_items r)).
Definition success (r : CatalogResult) : bool := bool_decide (status_count FAILED r = 0%nat).

Definition MAX_CATALOG_SIZE_BYTES : Z := 10 * 1024 * 1024.
Definition MAX_CATALOG_ENTRIES : nat := 500.

(** ** Parsing *)

Section parse.
Context (safe_load : string → option pyval) (construct_entry : odict string pyval → option CatalogEntry).

Definition CatalogParseError : Type := string.
(** [_parse_entry]: the name is that of the caller, whatever the entry says. *)
Definition _parse_entry (name : pyval) (raw : odict string pyval) : CatalogParseError + CatalogEntry :=
  match construct_entry (("name", name) :: keep (λ kv, negb (bool_decide (kv.1 = "name"))) raw) with
  | Some e => inr e
  | None => inl "Invalid catalog entry"
  end.

Definition parse_item (item : pyval) : CatalogParseError + option CatalogEntry :=
  match item with
  | PDict d => match dget d "name" with Some n => e ← _parse_entry n d; inr (Some e) | None => inr None end
  | _ => inr None
  end.
Definition parse_named (kv : string * pyval) : CatalogParseError + option CatalogEntry :=
  match kv.2 with PDict cfg => e ← _parse_entry (PStr kv.1) cfg; inr (Some e) | _ => inr None end.

Definition some_of {A} (l : list (option A)) : list A := omap id l.
Definition parse_catalog (max_size_bytes : Z) (raw : string) : CatalogParseError + list CatalogEntry :=
  if max_size_bytes <? strlen raw then inl "Catalog exceeds maximum size"
  else match safe_load raw with
       | None => inl "Invalid YAML/JSON"
       | Some PNone => inr []
       | Some (PDict data) =>
           match get_or data "servers" (PDict data) with
           | PDict servers => l ← map_each parse_named servers; inr (some_of l)
           | PList items => l ← map_each parse_item items; inr (some_of l)
           | _ => inr []
           end
       | Some (PList items) => l ← map_each parse_item items; inr (some_of l)
       | Some _ => inl "Catalog must be a YAML mapping or list"
       end.
End parse.

(** ** Staging and committing *)

Section apply.
Context (path_resolve : string → string) (allowed_prefixes : option string) (bracket_ok : string → bool)
  (ip_class : string → option bool) (parse_filters : pyval → option FiltersConfig).
Local Abbreviation validate := (validate_backend path_resolve allowed_prefixes bracket_ok ip_class).

Definition provenance (catalog_id : string) : MetadataProvenance :=
  {| created_by := None; updated_by := None; created_via := Some "catalog"; updated_via := None;
     import_batch_id := Some catalog_id; metadata_version := Some 1 |}.

Definition nonempty {A} (d : option (list A)) : option (list A) := match d with Some [] => None | _ => d end.
(** The filters of the model: the given ones if there are any. *)
Definition entry_filters (e : CatalogEntry) : string + FiltersConfig :=
  match ce_filters e with
  | Some f => if truthy f then match parse_filters f with Some x => inr x | None => inl "filters" end else inr default_filters
  | None => inr default_filters
  end.

(** [groups] and [timeout] are passed under names that the models do not have
    and that they ignore. *)
Definition _entry_to_backend (e : CatalogEntry) (catalog_id : string) : string + BackendConfig :=
  let transport := lower (ce_transport e) in
  if bool_decide (transport = "stdio") then
    if negb (str_truthy (ce_command e)) then inl "requires a 'command'"
    else f ← entry_filters e;
         validate (Stdio {| sb_command := default "" (ce_command e); sb_args := ce_args e; sb_env := nonempty (ce_env e);
                            sb_container := default_container; sb_group := "default"; sb_filters := f;
                            sb_tool_overrides := []; sb_timeouts := default_timeouts; sb_meta := provenance catalog_id |})
  else if bool_decide (transport = "sse") || bool_decide (transport = "streamable-http") then
    if negb (str_truthy (ce_url e)) then inl "requires a 'url'"
    else f ← entry_filters e;
         validate
           (if bool_decide (transport = "sse")
            then Sse {| ss_url := default "" (ce_url e); ss_command := None; ss_args := []; ss_env := None;
                        ss_headers := nonempty (ce_headers e); ss_auth := None; ss_group := "default"; ss_filters := f;
                        ss_tool_overrides := []; ss_timeouts := default_timeouts; ss_meta := provenance catalog_id |}
            else StreamableHttp {| sh_url := default "" (ce_url e); sh_headers := nonempty (ce_headers e); sh_auth := None;
                                   sh_group := "default"; sh_filters := f; sh_tool_overrides := [];
                                   sh_timeouts := default_timeouts; sh_meta := provenance catalog_id |})
  else inl ("Unsupported transport '" +:+ transport +:+ "'").

Definition item (e : CatalogEntry) (st : CatalogEntryStatus) (error : option string) : CatalogItemResult :=
  {| ci_name := ce_name e; ci_status := st; ci_backend_type := ce_transport e; ci_error := error |}.

Definition too_many (e : CatalogEntry) : CatalogItemResult := item e FAILED (Some "Batch exceeds maximum entries").

Definition stage_item (skip_existing : bool) (cid : string) (existing : list string) (e : CatalogEntry) : CatalogItemResult :=
  if skip_existing && bool_decide (ce_name e ∈ existing) then item e SKIPPED (Some "Already exists in config")
  else match _entry_to_backend e cid with
       | inr _ => item e STAGED None
       | inl msg => item e FAILED (Some msg)
       end.
Definition stage_catalog (entries : list CatalogEntry) (backends : option (odict string BackendConfig)) (skip_existing : bool)
    (max_entries : nat) (cid : string) : CatalogResult :=
  {| cr_catalog_id := cid; cr_dry_run := true; cr_total := length entries;
     cr_items := if Nat.ltb max_entries (length entries) then too_many <$> entries
                 else stage_item skip_existing cid (dkeys (default [] backends)) <$> entries |}.

Context (health_check : option (string → BackendConfig → option bool)).
Definition healthy (name : string) (b : BackendConfig) : bool :=
  match health_check with None => true | Some f => default false (f name b) end.

(** One entry: its result, and the backend to add. *)
Definition commit_item (skip_existing : bool) (cid : string) (existing : list string) (e : CatalogEntry)
  : CatalogItemResult * option BackendConfig :=
  if skip_existing && bool_decide (ce_name e ∈ existing) then (item e SKIPPED (Some "Already exists in config"), None)
  else match _entry_to_backend e cid with
       | inl msg => (item e FAILED (Some msg), None)
       | inr b => if healthy (ce_name e) b then (item e ADDED None, Some b)
                  else (item e HEALTH_FAILED (Some "Health check failed"), None)
       end.
Fixpoint commit_loop (skip_existing : bool) (cid : string) (entries : list CatalogEntry) (backends : odict string BackendConfig)
    (existing : list string) : list CatalogItemResult * odict string BackendConfig :=
  match entries with
  | [] => ([], backends)
  | e :: rest =>
      let '(i, b) := commit_item skip_existing cid existing e in
      let '(items, final) :=
        match b with
        | Some b => commit_loop skip_existing cid rest (dset backends (ce_name e) b) (existing ++ [ce_name e])
        | None => commit_loop skip_existing cid rest backends existing
        end in
      (i :: items, final)
  end.
(** The result and the backends of the configuration afterwards. *)
Definition commit_catalog (entries : list CatalogEntry) (backends : option (odict string BackendConfig)) (skip_existing : bool)
    (max_entries : nat) (cid : string) : CatalogResult * option (odict string BackendConfig) :=
  let result items := {| cr_catalog_id := cid; cr_dry_run := false; cr_total := length entries; cr_items := items |} in
  if Nat.ltb max_entries (length entries) then (result (too_many <$> entries), backends)
  else let '(items, final) := commit_loop skip_existing cid entries (default [] backends) (dkeys (default [] backends)) in
       (result items, Some final).
End apply.

(** ** The preview is what happens *)

Section facts.
Context (path_resolve : string → string) (allowed_prefixes : option string) (bracket_ok : string → bool)
  (ip_class : string → option bool) (parse_filters : pyval → option FiltersConfig).
Local Abbreviation to_backend := (_entry_to_backend path_resolve allowed_prefixes bracket_ok ip_class parse_filters).
Local Abbreviation stage_one := (stage_item path_resolve allowed_prefixes bracket_ok ip_class parse_filters).
Local Abbreviation stage := (stage_catalog path_resolve allowed_prefixes bracket_ok ip_class parse_filters).
Local Abbreviation loop := (commit_loop path_resolve allowed_prefixes bracket_ok ip_class parse_filters).
Local Abbreviation commit := (commit_catalog path_resolve allowed_prefixes bracket_ok ip_class parse_filters).

Definition promote (i : CatalogItemResult) : CatalogItemResult :=
  match ci_status i with
  | STAGED => {| ci_name := ci_name i; ci_status := ADDED; ci_backend_type := ci_backend_type i; ci_error := ci_error i |}
  | _ => i
  end.

(** The backend that a catalog puts under a name. *)
Definition placed (skip : bool) (cid : string) (existing : list string) (entries : list CatalogEntry) (n : string)
  : option BackendConfig :=
  match List.find (λ e, bool_decide (ce_name e = n)) entries with
  | Some e => if skip && bool_decide (n ∈ existing) then None
              else match to_backend e cid with inr b => Some b | inl _ => None end
  | None => None
  end.

Lemma placed_cons skip cid existing e entries n :
  placed skip cid existing (e :: entries) n =
    if bool_decide (ce_name e = n)
    then (if skip && bool_decide (n ∈ existing) then None else match to_backend e cid with inr b => Some b | inl _ => None end)
    else placed skip cid existing entries n.
Proof. unfold placed. simpl. by destruct (bool_decide (ce_name e = n)). Qed.

Lemma commit_preview skip cid existing0 entries : ∀ backends existing,
  NoDup (ce_name <$> entries) → (∀ n, n ∈ ce_name <$> entries → n ∈ existing ↔ n ∈ existing0) →
  let r := loop None skip cid entries backends existing in
  r.1 = promote <$> (stage_one skip cid existing0 <$> entries) ∧
  ∀ n, dget r.2 n = match placed skip cid existing0 entries n with Some b => Some b | None => dget backends n end.
Proof.
  induction entries as [|e entries IH]; intros backends existing Hnd Hex; [done|].
  apply NoDup_cons in Hnd as [He Hnd].
  assert (Hsame : bool_decide (ce_name e ∈ existing) = bool_decide (ce_name e ∈ existing0)).
  { apply bool_decide_ext, Hex. by left. }
  assert (Hfresh : placed skip cid existing0 entries (ce_name e) = None).
  { unfold placed. destruct (List.find _ entries) as [e'|] eqn:E; [|done]. exfalso. apply He.
    apply find_some in E as [Hin Hn%bool_decide_eq_true]. rewrite <-Hn. apply list_elem_of_fmap_2. by apply list_elem_of_In. }
  assert (Hex' : ∀ n, n ∈ ce_name <$> entries → n ∈ existing ↔ n ∈ existing0) by (intros n Hn; apply Hex; by right).
  cbn [commit_loop fmap list_fmap]. unfold commit_item, stage_item. rewrite Hsame.
  destruct (skip && bool_decide (ce_name e ∈ existing0)) eqn:Esk.
  { destruct (IH backends existing Hnd Hex') as [Hi Hg]. destruct (loop _ _ _ _ _ _) as [its fin]. simpl in *.
    split; [by rewrite Hi|]. intros n. rewrite Hg, placed_cons. destruct (bool_decide_reflect (ce_name e = n)) as [Hn|]; [|done].
    subst n. by rewrite Esk, Hfresh. }
  destruct (to_backend e cid) as [msg|b] eqn:Eb; simpl.
  - destruct (IH backends existing Hnd Hex') as [Hi Hg]. destruct (loop _ _ _ _ _ _) as [its fin]. simpl in *.
    split; [by rewrite Hi|]. intros n. rewrite Hg, placed_cons. destruct (bool_decide_reflect (ce_name e = n)) as [Hn|]; [|done].
    subst n. by rewrite Esk, Eb, Hfresh.
  - destruct (IH (dset backends (ce_name e) b) (existing ++ [ce_name e]) Hnd) as [Hi Hg].
    { intros n Hn. rewrite elem_of_app, Hex' by done. set_solver. }
    destruct (loop _ _ _ _ _ _) as [its fin]. simpl in *.
    split; [by rewrite Hi|]. intros n. rewrite Hg, placed_cons. destruct (bool_decide_reflect (ce_name e = n)) as [Hn|Hn].
    + subst n. by rewrite Esk, Eb, Hfresh, dget_dset_eq.
    + by rewrite dget_dset_ne.
Qed.

(** Committing does what staging announces.  For a catalog with distinct
    names and no health check, the items of the commit are those of the preview,
    with what was staged now added; the batch limit, the skipping of existing
    names and the errors are the same; and the backends afterwards are those
    before, with exactly the converted entries put under their names. *)
Theorem catalog_preview_exact (entries : list CatalogEntry) (backends : option (odict string BackendConfig))
    (skip : bool) (max_entries : nat) (cid : string) (Hnames : NoDup (ce_name <$> entries)) :
  let preview := stage entries backends skip max_entries cid in
  let r := commit None entries backends skip max_entries cid in
  cr_items r.1 = promote <$> cr_items preview ∧
  ∀ n, dget (default [] r.2) n =
    match (if Nat.ltb max_entries (length entries) then None
           else placed skip cid (dkeys (default [] backends)) entries n) with
    | Some b => Some b | None => dget (default [] backends) n
    end.
Proof.
  unfold stage_catalog, commit_catalog. simpl. destruct (Nat.ltb max_entries (length entries)); simpl.
  - split; [|done]. rewrite <-list_fmap_compose. by apply list_fmap_ext.
  - destruct (commit_preview skip cid (dkeys (default [] backends)) entries (default [] backends)
      (dkeys (default [] backends)) Hnames) as [Hi Hg]; [done|].
    destruct (loop _ _ _ _ _ _) as [its fin]. simpl in *. done.
Qed.

(** ** What a commit may change *)

Lemma commit_new_only health cid entries : ∀ backends existing,
  dict_wf backends → (∀ n, n ∈ existing ↔ n ∈ dkeys backends) →
  let r := loop health true cid entries backends existing in
  dict_wf r.2 ∧ (∀ n, n ∈ dkeys backends → dget r.2 n = dget backends n) ∧
  (∀ n b, dget r.2 n = Some b → n ∈ dkeys backends ∨
     ∃ e, e ∈ entries ∧ ce_name e = n ∧ to_backend e cid = inr b ∧ healthy health n b = true) ∧
  length (dkeys r.2) = (length (dkeys backends) + length (keep (λ i, bool_decide (ci_status i = ADDED)) r.1))%nat.
Proof.
  induction entries as [|e entries IH]; intros backends existing Hw Hex.
  { simpl. split_and!; [done|done|intros n b H; left; apply dget_is_Some; eauto|lia]. }
  cbn [commit_loop]. unfold commit_item. cbn [andb].
  assert (Hskip : ∀ i, ci_status i ≠ ADDED →
    let r := loop health true cid entries backends existing in
    dict_wf r.2 ∧ (∀ n, n ∈ dkeys backends → dget r.2 n = dget backends n) ∧
    (∀ n b, dget r.2 n = Some b → n ∈ dkeys backends ∨
       ∃ e', e' ∈ e :: entries ∧ ce_name e' = n ∧ to_backend e' cid = inr b ∧ healthy health n b = true) ∧
    length (dkeys r.2) = (length (dkeys backends) + length (keep (λ i, bool_decide (ci_status i = ADDED)) (i :: r.1)))%nat).
  { intros i Hi. destruct (IH backends existing Hw Hex) as (H1 & H2 & H3 & H4). simpl. rewrite bool_decide_false by done.
    split_and!; [done|done| |done]. intros n b Hb. destruct (H3 n b Hb) as [?|(e' & ? & ?)]; [by left|right].
    exists e'. split; [by right|done]. }
  case_bool_decide as Hmem.
  { specialize (Hskip (item e SKIPPED (Some "Already exists in config"))). destruct (loop _ _ _ _ _ _). by apply Hskip. }
  destruct (to_backend e cid) as [msg|b] eqn:Eb.
  { specialize (Hskip (item e FAILED (Some msg))). destruct (loop _ _ _ _ _ _). by apply Hskip. }
  destruct (healthy health (ce_name e) b) eqn:Hh.
  2: { specialize (Hskip (item e HEALTH_FAILED (Some "Health check failed"))). destruct (loop _ _ _ _ _ _). by apply Hskip. }
  clear Hskip. assert (Hnew : ce_name e ∉ dkeys backends) by (by rewrite <-Hex).
  destruct (IH (dset backends (ce_name e) b) (existing ++ [ce_name e])) as (H1 & H2 & H3 & H4); [by apply dict_wf_dset| |].
  { intros n. rewrite elem_of_app, Hex, elem_dkeys_dset. set_solver. }
  destruct (loop _ _ _ _ _ _) as [its fin]. simpl in *. split_and!.
  - done.
  - intros n Hn. rewrite H2 by (apply elem_dkeys_dset; auto). apply dget_dset_ne. set_solver.
  - intros n b' Hb'. destruct (H3 n b' Hb') as [[->|Hn]%elem_dkeys_dset|(e' & Hin & ?)]; [|by left|right; exists e'; split; [by right|done]].
    right. exists e. rewrite H2, dget_dset_eq in Hb' by (apply elem_dkeys_dset; auto). simplify_eq. split; [by left|done].
  - rewrite H4, dset_fresh by done. unfold dkeys. rewrite fmap_app, length_app. simpl. lia.
Qed.

(** A catalog adds and never changes.  With existing names skipped, whatever
    the catalog holds (repeated names, invalid entries, unhealthy servers), every
    backend that was configured stays as it was; every other backend afterwards
    is the conversion, accepted by the schema and healthy, of an entry of that
    name; and as many backends are new as there are items reported as added. *)
Theorem catalog_adds_only (health : option (string → BackendConfig → option bool)) (entries : list CatalogEntry)
    (backends : option (odict string BackendConfig)) (max_entries : nat) (cid : string)
    (Hwf : dict_wf (default [] backends)) :
  let old := default [] backends in
  let r := commit health entries backends true max_entries cid in
  let new := default [] r.2 in
  (∀ n, n ∈ dkeys old → dget new n = dget old n) ∧
  (∀ n b, dget new n = Some b → n ∈ dkeys old ∨
     ∃ e, e ∈ entries ∧ ce_name e = n ∧ to_backend e cid = inr b ∧ healthy health n b = true) ∧
  length (dkeys new) = (length (dkeys old) + status_count ADDED r.1)%nat.
Proof.
  unfold commit_catalog, status_count. destruct (Nat.ltb max_entries (length entries)); simpl.
  - split_and!; [done|intros n b H; left; apply dget_is_Some; eauto|].
    assert (Hnone : keep (λ i, bool_decide (ci_status i = ADDED)) (too_many <$> entries) = []) by (by induction entries).
    rewrite Hnone. simpl. lia.
  - destruct (commit_new_only health cid entries (default [] backends) (dkeys (default [] backends)) Hwf) as (_ & H); [done|].
    by destruct (loop _ _ _ _ _ _) as [its fin].
Qed.
End facts.

(** ** Examples and boundary cases *)

Definition stdio_entry (name command : string) (groups : list string) : CatalogEntry := {|
  ce_name := name; ce_description := ""; ce_transport := "STDIO"; ce_command := Some command; ce_args := [];
  ce_url := None; ce_env := None; ce_headers := None; ce_groups := groups; ce_categories := [];
  ce_filters := None; ce_timeout := Some (PDict [("init", PInt 5)]) |}.
Definition sample_stage := stage_catalog (λ p, p) None (λ _, true) no_ip (λ _, None).
Definition sample_commit := commit_catalog (λ p, p) None (λ _, true) no_ip (λ _, None).

Lemma catalog_preview_exact_witness :
  let entries := [stdio_entry "a" "uvx" []; stdio_entry "b" "" []] in
  (ci_status <$> cr_items (sample_stage entries None true 500 "id")) = [STAGED; FAILED] ∧
  cr_items (sample_commit None entries None true 500 "id").1 = promote <$> cr_items (sample_stage entries None true 500 "id").
Proof.
  intros entries. split; [vm_compute; reflexivity|].
  apply (catalog_preview_exact (λ p, p) None (λ _, true) no_ip (λ _, None) entries None true 500 "id").
  unfold entries. simpl. by_decide.
Defined.

Lemma catalog_adds_only_witness :
  let entries := [stdio_entry "a" "npx" []; stdio_entry "b" "uvx" []] in
  let old := [("a", stdio_backend "uvx")] in
  let r := sample_commit (Some (λ _ _, Some true)) entries (Some old) true 500 "id" in
  dget (default [] r.2) "a" = Some (stdio_backend "uvx") ∧ length (dkeys (default [] r.2)) = (1 + status_count ADDED r.1)%nat.
Proof.
  intros entries old r.
  destruct (catalog_adds_only (λ p, p) None (λ _, true) no_ip (λ _, None) (Some (λ _ _, Some true)) entries (Some old) 500 "id")
    as (H1 & _ & H3); [simpl; by_decide|]. split; [apply (H1 "a"); left|exact H3].
Defined.

(** A name that occurs twice: the preview stages both, the commit adds one. *)
Lemma repeated_name_staged_twice :
  let entries := [stdio_entry "a" "uvx" []; stdio_entry "a" "npx" []] in
  (ci_status <$> cr_items (sample_stage entries None true 500 "id")) = [STAGED; STAGED] ∧
  (ci_status <$> cr_items (sample_commit None entries None true 500 "id").1) = [ADDED; SKIPPED].
Proof. vm_compute. done. Qed.

(** The groups and the time-outs of an entry are lost. *)
Lemma entry_groups_ignored :
  match dget (default [] (sample_commit None [stdio_entry "a" "uvx" ["prod"]] None true 500 "id").2) "a" with
  | Some (Stdio c) => sb_group c = "default" ∧ t_init (sb_timeouts c) = None
  | _ => False
  end.
Proof. vm_compute. done. Qed.
