(* ===== verification/EnvFlags.v ===== *)
(** * Environment variables and feature flags (config/migration.py, config/flags.py)

    The expansion of [${VAR}] in configuration values, with a declarative
    description of what a text expands to, and the registry of feature flags
    with its governance rule. *)
From S2P Require Import Prelude PyDict Glob PyStr.
From Stdlib Require Import Ascii.

(** ** Expansion of variables *)

Definition dollar_brace : list ascii := [ascii_of_nat 36; ascii_of_nat 123].
Definition close_brace : ascii := ascii_of_nat 125.

(** A match of the pattern at the start of a text: the name and what follows.
    The class of word characters excludes the closing brace, so the greedy
    match is the only one. *)
Definition match_var (l : list ascii) : option (list ascii * list ascii) :=
  match l with
  | a :: b :: l1 =>
      if is_char 36 a && is_char 123 b then
        let '(name, l2) := span is_word l1 in
        match name, l2 with
        | _ :: _, c :: rest => if is_char 125 c then Some (name, rest) else None
        | _, _ => None
        end
      else None
  | _ => None
  end.

(** [_ENV_VAR_RE.sub(...)]; each round reads a character, so the length of the
    text is enough fuel. *)
Fixpoint sub_vars (fuel : nat) (env : odict string string) (l : list ascii) : list ascii :=
  match fuel, l with
  | S n, c :: l' =>
      match match_var l with
      | Some (name, rest) =>
          match dget env (text name) with
          | Some v => chars v
          | None => dollar_brace ++ name ++ [close_brace]
          end ++ sub_vars n env rest
      | None => c :: sub_vars n env l'
      end
  | _, _ => []
  end.
Definition expand_string (env : odict string string) (s : string) : string :=
  text (sub_vars (length (chars s)) env (chars s)).

Definition _MAX_RECURSION_DEPTH : Z := 20.

(** [None] is the [ValueError] of a value nested too deeply. *)
Fixpoint expand_env_vars (env : odict string string) (v : pyval) (depth : Z) : option pyval :=
  if depth >? _MAX_RECURSION_DEPTH then None
  else
    match v with
    | PStr s => Some (PStr (expand_string env s))
    | PDict d =>
        match (fix go (d : list (string * pyval)) : option (list (string * pyval)) :=
          match d with
          | [] => Some []
          | (k, x) :: d' =>
              match expand_env_vars env x (depth + 1) with
              | Some x' => match go d' with Some r => Some ((k, x') :: r) | None => None end
              | None => None
              end
          end) d with Some d' => Some (PDict d') | None => None end
    | PList l =>
        match (fix go (l : list pyval) : option (list pyval) :=
          match l with
          | [] => Some []
          | x :: l' =>
              match expand_env_vars env x (depth + 1) with
              | Some x' => match go l' with Some r => Some (x' :: r) | None => None end
              | None => None
              end
          end) l with Some l' => Some (PList l') | None => None end
    | _ => Some v
    end.

(** *** What a text expands to *)

Definition var_ref (name : list ascii) : list ascii := dollar_brace ++ name ++ [close_brace].
Definition var_name (name : list ascii) : Prop := name ≠ [] ∧ Forall (λ c, is_word c = true) name.

(** Left to right: a reference is replaced by the value of its variable, or
    kept when the variable is not set; the replacement is not read again; any
    other character is kept. *)
Inductive expands (env : odict string string) : list ascii → list ascii → Prop :=
  | exp_nil : expands env [] []
  | exp_var name l out :
      var_name name → expands env l out →
      expands env (var_ref name ++ l)
        (match dget env (text name) with Some v => chars v | None => var_ref name end ++ out)
  | exp_char c l out :
      (∀ name rest, var_name name → c :: l ≠ var_ref name ++ rest) → expands env l out →
      expands env (c :: l) (c :: out).

Lemma match_var_spec l name rest :
  match_var l = Some (name, rest) ↔ var_name name ∧ l = var_ref name ++ rest.
Proof.
  split.
  - unfold match_var. destruct l as [|a [|b l1]]; try done.
    destruct (is_char 36 a) eqn:Ea, (is_char 123 b) eqn:Eb; try done. simpl.
    pose proof (span_app is_word l1) as (E & Hw & _). destruct (span is_word l1) as [n l2]. simpl in *.
    destruct n as [|c0 n]; [done|]. destruct l2 as [|c r]; [done|]. destruct (is_char 125 c) eqn:Ec; [|done].
    intros [= <- <-]. split; [done|]. apply is_char_eq in Ea, Eb, Ec. subst a b c l1.
    unfold var_ref, dollar_brace. cbn [app]. by rewrite <-app_assoc.
  - intros [[Hne Hw] ->]. unfold var_ref, dollar_brace. cbn [app]. unfold match_var.
    change (is_char 36 (ascii_of_nat 36)) with true. change (is_char 123 (ascii_of_nat 123)) with true. cbn [andb].
    rewrite <-app_assoc. cbn [app]. rewrite span_all by done. destruct name as [|c0 n]; [done|].
    by change (is_char 125 close_brace) with true.
Qed.

Lemma sub_vars_expands env fuel l : (length l ≤ fuel)%nat → expands env l (sub_vars fuel env l).
Proof.
  revert l. induction fuel as [|n IH]; intros l Hl; [destruct l; [constructor|simpl in Hl; lia]|].
  destruct l as [|c l]; [constructor|]. cbn [sub_vars]. destruct (match_var (c :: l)) as [[name rest]|] eqn:E.
  - pose proof (proj1 (match_var_spec _ _ _) E) as [Hn El]. rewrite El. constructor; [done|]. apply IH.
    apply (f_equal length) in El. unfold var_ref in El. rewrite !length_app in El. simpl in El, Hl. lia.
  - constructor; [|apply IH; simpl in Hl; lia]. intros name rest Hn El.
    assert (match_var (c :: l) = Some (name, rest)) by (by apply match_var_spec). congruence.
Qed.

Lemma expands_det env l o1 o2 : expands env l o1 → expands env l o2 → o1 = o2.
Proof.
  intros H1. revert o2. induction H1 as [|name l out Hn _ IH|c l out Hc _ IH]; intros o2 H2.
  - by inversion H2.
  - remember (var_ref name ++ l) as L eqn:E. destruct H2 as [|name' l' out' Hn' Ho|c l' out' Hc Ho].
    + discriminate.
    + assert (match_var (var_ref name ++ l) = Some (name, l)) as M1 by (by apply match_var_spec).
      assert (match_var (var_ref name ++ l) = Some (name', l')) as M2 by (rewrite <-E; by apply match_var_spec).
      rewrite M1 in M2. injection M2 as <- <-. f_equal. by apply IH.
    + exfalso. by apply (Hc name l).
  - inversion H2 as [|name' l' out' Hn' Ho E|c' l' out' Hc' Ho E]; subst.
    + exfalso. by apply (Hc name' l').
    + f_equal. by apply IH.
Qed.

(** A value expands leaf by leaf. *)
Inductive expands_value (env : odict string string) : pyval → pyval → Prop :=
  | ev_str s s' : expands env (chars s) (chars s') → expands_value env (PStr s) (PStr s')
  | ev_list l l' : Forall2 (expands_value env) l l' → expands_value env (PList l) (PList l')
  | ev_dict d d' : Forall2 (λ kv kv', kv.1 = kv'.1 ∧ expands_value env kv.2 kv'.2) d d' →
      expands_value env (PDict d) (PDict d')
  | ev_leaf v : match v with PNone | PBool _ | PInt _ => True | _ => False end → expands_value env v v.

Lemma expand_env_vars_result (env : odict string string) (v : pyval) (depth : Z) :
  if depth + height v <=? _MAX_RECURSION_DEPTH
  then ∃ v', expand_env_vars env v depth = Some v' ∧ expands_value env v v'
  else expand_env_vars env v depth = None.
Proof.
  revert depth.
  assert (∀ depth h, 0 <= h → (depth >? _MAX_RECURSION_DEPTH) = true → (depth + h <=? _MAX_RECURSION_DEPTH) = false) as Hdeep.
  { intros depth h Hh Hd. reflect_bools. apply Z.leb_gt. lia. }
  assert (∀ depth, (depth >? _MAX_RECURSION_DEPTH) = false → (depth + 0 <=? _MAX_RECURSION_DEPTH) = true) as Hleaf.
  { intros depth Hd. reflect_bools. apply Z.leb_le. lia. }
  assert (∀ depth a b, (depth + Z.max (1 + a) b <=? _MAX_RECURSION_DEPTH) =
    (depth + 1 + a <=? _MAX_RECURSION_DEPTH) && (depth + b <=? _MAX_RECURSION_DEPTH)) as Hmax.
  { intros depth a b. apply eq_true_iff_eq. rewrite andb_true_iff, !Z.leb_le. lia. }
  induction v as [|b|z|s|l IH|d IH] using pyval_nested_ind; intros depth;
    (destruct (depth >? _MAX_RECURSION_DEPTH) eqn:Ed;
      [rewrite Hdeep; [|apply height_nonneg|done]; simpl; by rewrite Ed|]).
  1-3: cbn [height expand_env_vars]; rewrite Ed, Hleaf by done; eexists; split; [done|by constructor].
  - cbn [height expand_env_vars]. rewrite Ed, Hleaf by done. eexists; split; [done|]. constructor.
    unfold expand_string. rewrite chars_text. by apply sub_vars_expands.
  - cbn [expand_env_vars]. rewrite Ed.
    match goal with |- context [match ?g l with Some _ => _ | None => _ end] =>
      assert (if depth + height (PList l) <=? _MAX_RECURSION_DEPTH
        then ∃ l', g l = Some l' ∧ Forall2 (expands_value env) l l' else g l = None) as H end.
    { induction IH as [|v l Hv _ IHl]; [cbn [height]; rewrite Hleaf by done; cbv iota; by exists []|].
      rewrite height_list_cons, Hmax. specialize (Hv (depth + 1)). destruct (depth + 1 + height v <=? _).
      - destruct Hv as (v' & -> & Hv). cbn [andb]. destruct (depth + height (PList l) <=? _).
        + destruct IHl as (l' & -> & Hl). exists (v' :: l'). split; [done|by constructor].
        + by rewrite IHl.
      - by rewrite Hv. }
    destruct (depth + height (PList l) <=? _); [destruct H as (l' & -> & H); eexists; split; [done|by constructor]|by rewrite H].
  - cbn [expand_env_vars]. rewrite Ed.
    match goal with |- context [match ?g d with Some _ => _ | None => _ end] =>
      assert (if depth + height (PDict d) <=? _MAX_RECURSION_DEPTH
        then ∃ d', g d = Some d' ∧ Forall2 (λ kv kv', kv.1 = kv'.1 ∧ expands_value env kv.2 kv'.2) d d' else g d = None) as H end.
    { induction IH as [|[k v] d Hv _ IHd]; [cbn [height]; rewrite Hleaf by done; cbv iota; by exists []|].
      rewrite height_dict_cons, Hmax. specialize (Hv (depth + 1)). simpl in Hv. destruct (depth + 1 + height v <=? _).
      - destruct Hv as (v' & -> & Hv). cbn [andb]. destruct (depth + height (PDict d) <=? _).
        + destruct IHd as (d' & -> & Hd). exists ((k, v') :: d'). split; [done|by constructor].
        + by rewrite IHd.
      - by rewrite Hv. }
    destruct (depth + height (PDict d) <=? _); [destruct H as (d' & -> & H); eexists; split; [done|by constructor]|by rewrite H].
Qed.

(** C32: Expansion of environment variables.  [expand_env_vars] fails exactly on
    values nested more than twenty deep; otherwise its result has the shape of
    the input, with each string replaced by its expansion in the declarative
    sense: references to variables that are set are replaced by their value
    (which is not expanded again), all other text is kept.  The expansion of a
    text is unique. *)
Theorem expand_env_vars_exact (env : odict string string) (v : pyval) (depth : Z) :
  (if depth + height v <=? _MAX_RECURSION_DEPTH
   then ∃ v', expand_env_vars env v depth = Some v' ∧ expands_value env v v'
   else expand_env_vars env v depth = None) ∧
  (∀ l o1 o2, expands env l o1 → expands env l o2 → o1 = o2).
Proof. split; [apply expand_env_vars_result|apply expands_det]. Qed.

Example expand_once :
  expand_string [("A", "${B}"); ("B", "x")] "${A}-${B}-${C}-${}-$B" = "${B}-x-${C}-${}-$B".
Proof. vm_compute. reflexivity. Qed.

(** ** Feature flags *)

Record FlagSpec := { flag_default : bool; flag_risk : string; flag_description : string }.
Definition low (d : bool) (text : string) : FlagSpec := {| flag_default := d; flag_risk := "low"; flag_description := text |}.
Definition high (d : bool) (text : string) : FlagSpec := {| flag_default := d; flag_risk := "high"; flag_description := text |}.

Definition FLAG_REGISTRY : odict string FlagSpec :=
  [("optimizer", high false "Experimental prompt/request optimizer. May alter tool payloads.");
   ("hot_reload", low true "Watch config file for changes and reload backends automatically.");
   ("outgoing_auth", low true "Attach OAuth/API-key headers to outgoing backend requests.");
   ("session_management", low true "Enable per-client session tracking and lifecycle management.");
   ("yaml_config", low true "Load configuration from YAML file (config.yaml).");
   ("container_isolation", low true "Run stdio backends inside isolated containers when available.");
   ("build_on_startup", low true "Pre-build container images for stdio backends at server startup.");
   ("use_dhi_images", high false "Use Docker Hardened Images (Chainguard) as base images for container-isolated backends. Requires registry access to cgr.dev.")].

Definition _DEFAULTS : odict string bool := (λ kv, (kv.1, flag_default kv.2)) <$> FLAG_REGISTRY.

(** [_validate_registry()]: raises [AssertionError] at import when it fails. *)
Definition _validate_registry (registry : odict string FlagSpec) : bool :=
  forallb (λ kv, negb (bool_decide (flag_risk kv.2 = "high") && flag_default kv.2) &&
                 bool_decide (flag_risk kv.2 ∈ ["high"; "low"])) registry.

(** The constructor: values that are not booleans are skipped. *)
Definition FeatureFlags (overrides : odict string pyval) : odict string bool :=
  foldl (λ flags kv, match kv.2 with PBool b => dset flags kv.1 b | _ => flags end) _DEFAULTS overrides.

Definition is_enabled (flags : odict string bool) (name : string) : bool := default false (dget flags name).
Definition describe (name : string) : option FlagSpec := dget FLAG_REGISTRY name.

Lemma flags_lookup (overrides : odict string pyval) (flags : odict string bool) (name : string) :
  dict_wf overrides →
  dget (foldl (λ flags kv, match kv.2 with PBool b => dset flags kv.1 b | _ => flags end) flags overrides) name =
  match dget overrides name with Some (PBool b) => Some b | _ => dget flags name end.
Proof.
  unfold dict_wf, dkeys. revert flags. induction overrides as [|[k v] d IH]; intros flags Hwf; [done|].
  rewrite fmap_cons in Hwf. apply NoDup_cons in Hwf as [Hk Hd]. cbn [foldl fst snd dget]. rewrite IH by done.
  case_decide as E; simplify_eq; simpl in Hk.
  - assert (dget d name = None) as -> by (by apply dget_None). destruct v; try done. by rewrite dget_dset_eq.
  - destruct (dget d name) as [[]|]; try done; destruct v; try done; by rewrite dget_dset_ne.
Qed.

(** Feature flags.  The registry passes its governance check, and with
    every set of overrides a flag is enabled exactly when the overrides set it
    to the boolean true, or leave it alone (or set it to something that is no
    boolean) and its default is true; so a high-risk flag, and a name that is
    not registered, is enabled only by an explicit true. *)
Theorem flags_exact (overrides : odict string pyval) (name : string) (Hwf : dict_wf overrides) :
  _validate_registry FLAG_REGISTRY = true ∧
  is_enabled (FeatureFlags overrides) name =
    match dget overrides name with
    | Some (PBool b) => b
    | _ => match describe name with Some s => flag_default s | None => false end
    end ∧
  ((∀ s, describe name = Some s → flag_risk s = "high") →
   is_enabled (FeatureFlags overrides) name = true ↔ dget overrides name = Some (PBool true)).
Proof.
  assert (is_enabled (FeatureFlags overrides) name =
    match dget overrides name with
    | Some (PBool b) => b
    | _ => match describe name with Some s => flag_default s | None => false end
    end) as E.
  { unfold is_enabled, FeatureFlags. rewrite flags_lookup by done.
    assert (default false (dget _DEFAULTS name) = match describe name with Some s => flag_default s | None => false end) as <-.
    { unfold _DEFAULTS, describe. induction FLAG_REGISTRY as [|[k s] r IH]; simpl; [done|]. by case_decide. }
    destruct (dget overrides name) as [[]|]; done. }
  assert (_validate_registry FLAG_REGISTRY = true) as Hv by (vm_compute; reflexivity).
  split_and!; [done|done|]. intros Hrisk. rewrite E.
  assert (∀ s, describe name = Some s → flag_default s = false) as Hd.
  { intros s Hs. unfold _validate_registry in Hv. rewrite forallb_elem_of in Hv.
    specialize (Hv _ (dget_Some_elem _ _ _ Hs)). simpl in Hv. rewrite (Hrisk s Hs) in Hv.
    destruct (flag_default s); [vm_compute in Hv; done|done]. }
  assert (match describe name with Some s => flag_default s | None => false end = false) as ->
    by (destruct (describe name); auto).
  destruct (dget overrides name) as [[|[]| | | |]|]; by split.
Qed.

Lemma flags_exact_witness :
  let overrides := [("optimizer", PStr "yes"); ("use_dhi_images", PBool true); ("hot_reload", PBool false)] in
  dict_wf overrides ∧ is_enabled (FeatureFlags overrides) "optimizer" = false ∧
  is_enabled (FeatureFlags overrides) "use_dhi_images" = true ∧
  is_enabled (FeatureFlags overrides) "hot_reload" = false ∧ is_enabled (FeatureFlags overrides) "yaml_config" = true.
Proof.
  intros overrides. assert (dict_wf overrides) as Hwf by by_decide.
  assert (∀ name, is_enabled (FeatureFlags overrides) name = _) as H
    by (intros name; exact (proj1 (proj2 (flags_exact overrides name Hwf)))).
  rewrite !H. split_and!; [done|reflexivity..].
Defined.
