(* ===== verification/Redaction.v ===== *)
(** * The log filter for secrets (display/logging_config.py)

    [SecretRedactionFilter] keeps the values that were resolved from the secret
    store and replaces their occurrences in every log record.  Its pattern is
    an alternation of the escaped values, longest first; a Python set has no
    order of its own, so the set is given as a list in iteration order and the
    theorems show that the order does not matter. *)
From S2P Require Import Prelude PyDict Glob PyStr.
From Stdlib Require Import Ascii.

Definition _REDACTED : string := "***REDACTED***".

(** The state: the set and, once a value was registered, the alternatives. *)
Record SecretRedactionFilter := {
  _secrets : list string;
  _pattern : option (list string) }.

Definition empty_filter : SecretRedactionFilter := {| _secrets := []; _pattern := None |}.

(** The characters [re.escape] puts a backslash before. *)
Definition is_special (c : ascii) : bool :=
  bool_decide (nat_of_ascii c ∈ [40; 41; 91; 93; 123; 125; 63; 42; 43; 45; 124; 94; 36; 92; 46; 38; 126; 35; 32; 9; 10; 13; 11; 12])%nat.
Definition escaped_len (s : string) : Z :=
  strlen s + Z.of_nat (length (keep is_special (chars s))).

Definition set_add (x : string) (l : list string) : list string :=
  if bool_decide (x ∈ l) then l else l ++ [x].

(** [order] is the iteration order of the set. *)
Definition register (order : list string → list string) (value : string) (f : SecretRedactionFilter)
  : SecretRedactionFilter :=
  if negb (bool_decide (value = "")) && (4 <=? strlen value) then
    let secrets := set_add value (_secrets f) in
    {| _secrets := secrets;
       _pattern := Some (sort_by (λ s, - escaped_len s) (order secrets)) |}
  else f.

(** [pattern.sub(_REDACTED, msg)]: at each position the first alternative that
    matches; every alternative is non-empty, so the length is enough fuel. *)
Fixpoint sub_alts (fuel : nat) (alts : list (list ascii)) (l : list ascii) : list ascii :=
  match fuel, l with
  | S n, c :: l' =>
      match List.find (λ a, bool_decide (a `prefix_of` l)) alts with
      | Some a => chars _REDACTED ++ sub_alts n alts (drop (length a) l)
      | None => c :: sub_alts n alts l'
      end
  | _, _ => []
  end.
Definition pattern_sub (alts : list string) (msg : string) : string :=
  text (sub_alts (length (chars msg)) ((λ s : string, chars s) <$> alts) (chars msg)).

Inductive log_args := ArgsDict (d : odict string pyval) | ArgsTuple (l : list pyval) | ArgsOther.
Record LogRecord := { lr_msg : pyval; lr_args : log_args }.

Definition scrub (alts : list string) (v : pyval) : pyval :=
  match v with PStr s => PStr (pattern_sub alts s) | _ => v end.

(** The record afterwards; the filter itself always lets it through. *)
Definition filter_record (f : SecretRedactionFilter) (r : LogRecord) : bool * LogRecord :=
  (true,
   match _pattern f with
   | None => r
   | Some alts =>
       {| lr_msg := scrub alts (lr_msg r);
          lr_args := match lr_args r with
                     | ArgsDict d => ArgsDict ((λ kv, (kv.1, scrub alts kv.2)) <$> d)
                     | ArgsTuple l => ArgsTuple (scrub alts <$> l)
                     | ArgsOther => ArgsOther
                     end |}
   end).

(** ** What scrubbing means *)

(** Leftmost longest replacement: a character survives only where no secret
    starts, and what is replaced is the longest secret that starts there. *)
Inductive scrubbed (X : gset string) : list ascii → list ascii → Prop :=
  | scrub_nil : scrubbed X [] []
  | scrub_keep c l out :
      (∀ s, s ∈ X → ¬ chars s `prefix_of` (c :: l)) → scrubbed X l out → scrubbed X (c :: l) (c :: out)
  | scrub_hit s l out :
      s ∈ X → (∀ s', s' ∈ X → chars s' `prefix_of` (chars s ++ l) → (length (chars s') ≤ length (chars s))%nat) →
      scrubbed X l out → scrubbed X (chars s ++ l) (chars _REDACTED ++ out).

Lemma escaped_len_prefix s s' :
  chars s `prefix_of` chars s' → (length (chars s) < length (chars s'))%nat → escaped_len s < escaped_len s'.
Proof.
  intros [r Hr] Hl. unfold escaped_len, strlen. rewrite Hr in *. rewrite keep_app, !length_app in *. lia.
Qed.

(** Two prefixes of the same text are comparable. *)
Lemma prefixes_comparable (a b l : list ascii) :
  a `prefix_of` l → b `prefix_of` l → (length a ≤ length b)%nat → a `prefix_of` b.
Proof.
  intros [ra Ha] [rb Hb] Hl. exists (take (length b - length a) ra).
  assert (b = take (length b) l) as -> by (by rewrite Hb, take_app_length). rewrite length_take_le.
  - by rewrite Ha, take_app, take_ge by done.
  - rewrite Hb, length_app. lia.
Qed.

(** The first match among alternatives sorted by decreasing length is a longest one. *)
Lemma find_longest alts l s :
  List.find (λ a, bool_decide (a `prefix_of` l)) ((λ s : string, chars s) <$> sort_by (λ s, - escaped_len s) alts) = Some s →
  ∃ t, s = chars t ∧ t ∈ alts ∧ s `prefix_of` l ∧
    ∀ t', t' ∈ alts → chars t' `prefix_of` l → (length (chars t') ≤ length s)%nat.
Proof.
  intros (l1 & l2 & E & Hp & Hall)%find_first. apply bool_decide_eq_true in Hp.
  apply fmap_app_inv in E as (k1 & k2 & E1 & E2 & E3).
  symmetry in E2. destruct k2 as [|t k2]; [done|]. rewrite fmap_cons in E2. injection E2 as Es E2.
  assert (∀ x, x ∈ alts ↔ x ∈ k1 ++ t :: k2) as Hin.
  { intros x. rewrite <-E3. by rewrite <-(sort_by_perm _ alts). }
  exists t. split_and!; [done|apply Hin; set_solver|done|].
  intros t' Ht' Hp'. apply Hin in Ht' as [Ht'|Ht']%elem_of_app.
  - exfalso. rewrite Forall_forall in Hall.
    assert (chars t' ∈ l1) as Hm by (subst l1; apply list_elem_of_fmap; eauto).
    apply Hall in Hm. apply bool_decide_eq_false in Hm. done.
  - destruct (decide (length (chars t') ≤ length s)%nat) as [|Hgt]; [done|]. exfalso.
    pose proof (sort_by_sorted (λ s, - escaped_len s) alts) as Hs. rewrite E3 in Hs.
    apply elem_of_cons in Ht' as [->|Ht']; [rewrite <-Es in Hgt; lia|].
    assert (key_le (λ s, - escaped_len s) t t') as Hle.
    { clear -Hs Ht'. induction k1 as [|x k1 IH]; simpl in Hs.
      - apply StronglySorted_inv in Hs as [_ Hf]. by apply (proj1 (Forall_forall _ _) Hf).
      - apply StronglySorted_inv in Hs as [Hs _]. auto. }
    unfold key_le in Hle. subst s.
    assert (chars t `prefix_of` chars t') as Hpt by (eapply prefixes_comparable; eauto; lia).
    pose proof (escaped_len_prefix t t' Hpt). lia.
Qed.

Lemma sub_alts_scrubbed (X : gset string) alts fuel l :
  (∀ x, x ∈ alts ↔ x ∈ X) → "" ∉ X → (length l ≤ fuel)%nat →
  scrubbed X l (sub_alts fuel ((λ s : string, chars s) <$> sort_by (λ s, - escaped_len s) alts) l).
Proof.
  intros HX Hne. revert l. induction fuel as [|n IH]; intros l Hl.
  - destruct l; [constructor|simpl in Hl; lia].
  - destruct l as [|c l]; [constructor|]. cbn [sub_alts].
    destruct (List.find _ _) as [a|] eqn:E.
    + apply find_longest in E as (t & -> & Ht & [r Hr] & Hmax). rewrite Hr, drop_app_length.
      rewrite Hr in Hmax. apply HX in Ht. constructor; [done| |].
      * intros s' Hs' Hp. apply Hmax; [by apply HX|done].
      * apply IH. destruct t as [|c' t]; [done|]. apply (f_equal length) in Hr. rewrite length_app in Hr.
        simpl in Hr, Hl. lia.
    + constructor; [|apply IH; simpl in Hl; lia]. intros s Hs Hp.
      apply find_nothing in E. rewrite Forall_forall in E.
      assert (chars s ∈ ((λ s : string, chars s) <$> sort_by (λ s, - escaped_len s) alts)) as Hm.
      { apply list_elem_of_fmap. exists s. split; [done|]. rewrite <-sort_by_perm. by apply HX. }
      apply E in Hm. by apply bool_decide_eq_false in Hm.
Qed.

(** The replacement is determined by the set alone. *)
Lemma scrubbed_det X l out1 out2 : "" ∉ X → scrubbed X l out1 → scrubbed X l out2 → out1 = out2.
Proof.
  intros Hne H1. revert out2. induction H1 as [|c l out Hn _ IH|s l out Hs Hmax _ IH]; intros out2 H2.
  - inversion H2 as [| |s l' o Hs Hmax Ho E]; [done|]. apply app_nil in E as [E _].
    destruct s; [done|]. discriminate.
  - inversion H2 as [|c' l' o Hn' Ho|s l' o Hs Hmax Ho E]; subst; [by rewrite (IH o)|].
    exfalso. apply (Hn s Hs). rewrite <-E. by exists l'.
  - inversion H2 as [E|c' l' o Hn' Ho E|s' l' o Hs' Hmax' Ho E]; subst.
    + symmetry in E. apply app_nil in E as [E _]. destruct s; [done|]. discriminate.
    + exfalso. apply (Hn' s Hs). rewrite E. by exists l.
    + assert (chars s' = chars s) as Eq.
      { assert (chars s `prefix_of` chars s ++ l) as Hp1 by (by exists l).
        assert (chars s' `prefix_of` chars s ++ l) as Hp2 by (rewrite <-E; by exists l').
        assert (length (chars s') = length (chars s)) as Hlen.
        { apply Nat.le_antisymm; [by apply Hmax|]. apply Hmax'; [done|]. by rewrite E. }
        apply (prefixes_comparable _ _ _ Hp2) in Hp1 as [r Hr]; [|lia].
        rewrite Hr in Hlen. rewrite length_app in Hlen. destruct r; [by rewrite app_nil_r in Hr|simpl in Hlen; lia]. }
      rewrite Eq in E. apply app_inv_head in E. subst l'. f_equal. by apply IH.
Qed.

(** ** The filter after any sequence of registrations *)

Definition register_all (order : list string → list string) (vs : list string) : SecretRedactionFilter :=
  foldl (λ f v, register order v f) empty_filter vs.

(** The values that are long enough to be scrubbed. *)
Definition scrub_set (vs : list string) : gset string := list_to_set (keep (λ v, 4 <=? strlen v) vs).

Lemma register_all_state order vs :
  (∀ l, order l ≡ₚ l) →
  let f := register_all order vs in
  (∀ x, x ∈ _secrets f ↔ x ∈ scrub_set vs) ∧
  match _pattern f with
  | None => scrub_set vs = ∅
  | Some alts => ∃ l, alts = sort_by (λ s, - escaped_len s) l ∧ ∀ x, x ∈ l ↔ x ∈ scrub_set vs
  end.
Proof.
  intros Ho. simpl. unfold register_all, scrub_set. induction vs as [|v vs IH] using rev_ind; [set_solver|].
  rewrite foldl_app, keep_app, list_to_set_app_L. simpl. destruct IH as [IH1 IH2].
  unfold register. destruct (4 <=? strlen v) eqn:E; simpl.
  - assert (v ≠ "") as Hv by (intros ->; vm_compute in E; done).
    rewrite bool_decide_false by done. simpl. assert (∀ x, x ∈ set_add v (_secrets (foldl (λ f v, register order v f) empty_filter vs))
      ↔ x ∈ list_to_set (keep (λ v, 4 <=? strlen v) vs) ∪ ({[v]} ∪ ∅ : gset string)) as Hset.
    { intros x. unfold set_add. case_bool_decide as Hin; [|rewrite elem_of_app]; rewrite ?IH1 in *; set_solver. }
    split; [done|]. eexists. split; [reflexivity|]. intros x. by rewrite Ho.
  - rewrite andb_false_r. rewrite union_empty_r_L. done.
Qed.

(** What the filter does to a text, and to the strings of a record. *)
Definition scrub_text (f : SecretRedactionFilter) (s : string) : string :=
  match _pattern f with None => s | Some alts => pattern_sub alts s end.
Definition on_str (g : string → string) (v : pyval) : pyval := match v with PStr s => PStr (g s) | _ => v end.
Definition on_record (g : string → string) (r : LogRecord) : LogRecord :=
  {| lr_msg := on_str g (lr_msg r);
     lr_args := match lr_args r with
                | ArgsDict d => ArgsDict ((λ kv, (kv.1, on_str g kv.2)) <$> d)
                | ArgsTuple l => ArgsTuple (on_str g <$> l)
                | ArgsOther => ArgsOther
                end |}.

Lemma on_str_id v : on_str (λ s, s) v = v.
Proof. by destruct v. Qed.

Lemma on_record_ext g h r : (∀ s, g s = h s) → on_record g r = on_record h r.
Proof.
  intros H. assert (∀ v, on_str g v = on_str h v) as Hv by (intros []; simpl; congruence).
  unfold on_record. f_equal; [apply Hv|]. destruct (lr_args r); [| |done]; f_equal; apply list_fmap_ext.
  - intros _ [k v] _. simpl. by rewrite Hv.
  - intros _ v _. apply Hv.
Qed.

Lemma on_record_id r : on_record (λ s, s) r = r.
Proof.
  destruct r as [m a]. unfold on_record. simpl. rewrite on_str_id. f_equal.
  destruct a as [d|l|]; [| |done]; f_equal.
  - rewrite <-(list_fmap_id d) at 2. apply list_fmap_ext. intros _ [k v] _. simpl. by rewrite on_str_id.
  - rewrite <-(list_fmap_id l) at 2. apply list_fmap_ext. intros _ v _. apply on_str_id.
Qed.

Lemma filter_record_texts f r : filter_record f r = (true, on_record (scrub_text f) r).
Proof.
  unfold filter_record. f_equal. destruct (_pattern f) as [alts|] eqn:E.
  - rewrite (on_record_ext _ (pattern_sub alts)); [done|]. intros s. unfold scrub_text. by rewrite E.
  - rewrite (on_record_ext _ (λ s, s)), on_record_id; [done|]. intros s. unfold scrub_text. by rewrite E.
Qed.

Lemma empty_not_scrubbed vs : "" ∉ scrub_set vs.
Proof. unfold scrub_set. rewrite elem_of_list_to_set, elem_of_keep. intros [_ E]. vm_compute in E. done. Qed.

Lemma scrub_text_spec order vs s :
  (∀ l, order l ≡ₚ l) → scrubbed (scrub_set vs) (chars s) (chars (scrub_text (register_all order vs) s)).
Proof.
  intros Ho. destruct (register_all_state order vs Ho) as [_ H]. unfold scrub_text.
  destruct (_pattern (register_all order vs)) as [alts|].
  - destruct H as (l & -> & Hl). unfold pattern_sub. rewrite chars_text.
    apply sub_alts_scrubbed; [done|apply empty_not_scrubbed|done].
  - rewrite H. induction (chars s); constructor; [set_solver|done].
Qed.

(** Log redaction.  After any sequence of registrations, and for any
    iteration order of the set of secrets, the filter keeps every record and
    turns each string of it (the message and its arguments) into its leftmost
    longest replacement: no character at which a registered value of four or
    more characters starts survives, what is replaced is the longest such
    value, and two filters with the same values agree whatever the order. *)
Theorem redaction_leftmost_longest (order : list string → list string) (vs : list string) (r : LogRecord)
    (Horder : ∀ l, order l ≡ₚ l) :
  let f := register_all order vs in
  let '(kept, r') := filter_record f r in
  kept = true ∧
  (∀ s, lr_msg r = PStr s → ∃ s', lr_msg r' = PStr s' ∧ scrubbed (scrub_set vs) (chars s) (chars s')) ∧
  (∀ l i s, lr_args r = ArgsTuple l → l !! i = Some (PStr s) →
     ∃ l' s', lr_args r' = ArgsTuple l' ∧ l' !! i = Some (PStr s') ∧ scrubbed (scrub_set vs) (chars s) (chars s')) ∧
  (∀ order', (∀ l, order' l ≡ₚ l) → filter_record (register_all order' vs) r = (kept, r')).
Proof.
  cbv zeta. rewrite filter_record_texts. split_and!; [done| | |].
  - intros s E. simpl. rewrite E. eexists. split; [reflexivity|]. by apply scrub_text_spec.
  - intros l i s E Hi. simpl. rewrite E. eexists _, _.
    split_and!; [reflexivity|by rewrite list_lookup_fmap, Hi|by apply scrub_text_spec].
  - intros o Ho. rewrite filter_record_texts. f_equal. apply on_record_ext. intros s. apply chars_inj.
    eapply scrubbed_det; [apply empty_not_scrubbed| |]; by apply scrub_text_spec.
Qed.

(** A token in the message and one in the arguments, one a prefix of the other. *)
Lemma redaction_leftmost_longest_witness :
  let r := {| lr_msg := PStr "t=abcdef"; lr_args := ArgsTuple [PInt 3; PStr "abcd!"] |} in
  (∀ l : list string, rev l ≡ₚ l) ∧
  filter_record (register_all (λ l, rev l) ["abcd"; "abcdef"; "xy"]) r =
    (true, {| lr_msg := PStr "t=***REDACTED***"; lr_args := ArgsTuple [PInt 3; PStr "***REDACTED***!"] |}) ∧
  filter_record (register_all (λ l, l) ["abcd"; "abcdef"; "xy"]) r =
    filter_record (register_all (λ l, rev l) ["abcd"; "abcdef"; "xy"]) r.
Proof.
  intros r. assert (∀ l : list string, rev l ≡ₚ l) as Hrev by (intros l; by rewrite <-Permutation_rev).
  pose proof (redaction_leftmost_longest (λ l, rev l) ["abcd"; "abcdef"; "xy"] r Hrev) as H.
  split_and!; [done|vm_compute; reflexivity|].
  destruct H as (_ & _ & _ & H). exact (H (λ l, l) (λ l, Permutation_refl l)).
Defined.
