(* ===== verification/Secrets.v ===== *)
(** * Secrets (secrets/providers.py, store.py, resolver.py)

    Three storage backends behind one interface, the store in front of them,
    the substitution of [secret:<name>] references in a configuration, and the
    log filter that scrubs the values that were substituted
    (display/logging_config.py).

    The interface is the type class [SecretProvider].  What a client relies on
    is [ProviderLaws]: the provider behaves as a finite map from names, up to
    its own notion of equal names.  The cryptography and keyring packages are
    parameters with their documented laws. *)
From S2P Require Import Prelude PyDict Effects Glob PyStr Json Redaction.
From Stdlib Require Import Ascii.

Inductive secret_error :=
  | RuntimeError (msg : string)
  | InvalidToken
  | OSError
  | ValueError (msg : string)
  | SecretResolutionError (msg : string)
  | TypeError.

(** ** The provider interface *)

Class SecretProvider (S : Type) := {
  sp_get : string → M S secret_error (option string);
  sp_set : string → string → M S secret_error ();
  sp_delete : string → M S secret_error ();
  sp_list_names : M S secret_error (list string) }.

(** The abstract view of a provider: what each name is bound to.  [usable] are
    the states in which the provider can work, [writable] those in which it can
    also store, [proper] the names clients may use. *)
Class ProviderLaws (S : Type) `{!SecretProvider S} := {
  view : S → string → option string;
  usable : S → Prop;
  writable : S → Prop;
  proper : string → Prop;
  same : string → string → bool;
  law_same_refl n : same n n = true;
  law_get s n : usable s → ∃ s', sp_get n s = (inr (view s n), s') ∧ usable s' ∧ (writable s → writable s') ∧
    ∀ m, view s' m = view s m;
  law_set s n v : usable s → writable s → proper n →
    ∃ s', sp_set n v s = (inr (), s') ∧ usable s' ∧ writable s' ∧
    ∀ m, proper m → view s' m = if same n m then Some v else view s m;
  law_delete s n : usable s → writable s → proper n →
    ∃ s', sp_delete n s = (inr (), s') ∧ usable s' ∧ writable s' ∧
    ∀ m, proper m → view s' m = if same n m then None else view s m }.

(** ** Environment variables *)

Definition environ : Type := odict string string.

Definition dash : ascii := ascii_of_nat 45.
Definition underscore : ascii := ascii_of_nat 95.
Definition _env_key (name : string) : string :=
  "SECRET_" +:+ replace_char dash underscore (upper name).

Definition env_get (name : string) : M environ secret_error (option string) :=
  λ env, (inr (dget env (_env_key name)), env).
Definition env_set (name value : string) : M environ secret_error () :=
  λ env, (inr (), dset env (_env_key name) value).
Definition env_delete (name : string) : M environ secret_error () :=
  λ env, (inr (), ddel env (_env_key name)).
Definition env_list_names : M environ secret_error (list string) :=
  λ env, (inr ((λ k, replace_char underscore dash (lower (drop_chars 7 k))) <$>
               keep (λ k, startswith k "SECRET_") (dkeys env)), env).

#[export] Instance EnvProvider : SecretProvider environ := {|
  sp_get := env_get; sp_set := env_set; sp_delete := env_delete; sp_list_names := env_list_names |}.

#[export, refine] Instance EnvProvider_laws : ProviderLaws environ := {|
  view env n := dget env (_env_key n);
  usable := dict_wf;
  writable _ := True;
  proper _ := True;
  same n m := bool_decide (_env_key n = _env_key m) |}.
Proof.
  - intros n. by apply bool_decide_eq_true.
  - intros env n Hwf. exists env. done.
  - intros env n v Hwf _ _. exists (dset env (_env_key n) v). split_and!; auto with argus.
    intros m _. rewrite dget_dset. case_bool_decide; [by rewrite decide_True|by rewrite decide_False].
  - intros env n Hwf _ _. exists (ddel env (_env_key n)). split_and!; auto with argus.
    intros m _. rewrite dget_ddel by done. case_bool_decide; [by rewrite decide_True|by rewrite decide_False].
Defined.

(** ** The encrypted file *)

(** The values of a decrypted table; the code is annotated [Dict[str, str]] and
    nothing else is ever written. *)
Fixpoint str_values (d : list (string * pyval)) : option (odict string string) :=
  match d with
  | [] => Some []
  | (k, PStr s) :: d' => match str_values d' with Some t => Some ((k, s) :: t) | None => None end
  | _ => None
  end.
Definition table_json (t : odict string string) : pyval := PDict ((λ kv, (kv.1, PStr kv.2)) <$> t).

Lemma str_values_table t : str_values ((λ kv, (kv.1, PStr kv.2)) <$> t) = Some t.
Proof. induction t as [|[k v] t IH]; [done|]. rewrite fmap_cons. cbn [str_values fst snd]. by rewrite IH. Qed.

Lemma table_json_wf t : dict_wf t → pv_wf (table_json t).
Proof.
  intros H. constructor.
  - unfold dict_wf, dkeys in *. by rewrite <-list_fmap_compose.
  - apply Forall_fmap. apply Forall_true. intros [k v]. constructor.
Qed.

(** The file system as the provider sees it: the content of its file, whether
    reads and writes work, [ARGUS_SECRET_KEY], whether the package is
    installed, and the [Fernet] object that is kept after the first use (its
    key). *)
Record file_state := {
  fs_content : option string;
  fs_readable : bool;
  fs_writable : bool;
  fs_env_key : option string;
  fs_installed : bool;
  _fernet : option string }.

Definition set_fernet (k : string) (s : file_state) : file_state :=
  {| fs_content := fs_content s; fs_readable := fs_readable s; fs_writable := fs_writable s;
     fs_env_key := fs_env_key s; fs_installed := fs_installed s; _fernet := Some k |}.
Definition set_content (c : string) (s : file_state) : file_state :=
  {| fs_content := Some c; fs_readable := fs_readable s; fs_writable := fs_writable s;
     fs_env_key := fs_env_key s; fs_installed := fs_installed s; _fernet := _fernet s |}.

(** [cryptography.fernet]: which keys the constructor accepts, encryption, and
    decryption ([None] is [InvalidToken], which is not a [ValueError]). *)
Class Fernet := {
  fernet_key : string → bool;
  encrypt : string → string → string;
  decrypt : string → string → option string;
  decrypt_encrypt k m : fernet_key k = true → decrypt k (encrypt k m) = Some m }.

Section file_provider.
Context `{F : !Fernet}.
Abbreviation fm := (M file_state secret_error).

Definition _ensure_fernet : fm string :=
  s ← get_state;
  match _fernet s with
  | Some k => mret k
  | None =>
      if negb (fs_installed s) then raise (RuntimeError "cryptography package required")
      else match fs_env_key s with
           | Some k =>
               if bool_decide (k = "") then raise (RuntimeError "ARGUS_SECRET_KEY must be set")
               else if negb (fernet_key k) then raise (ValueError "Fernet key")
               else _ ← modify (set_fernet k); mret k
           | None => raise (RuntimeError "ARGUS_SECRET_KEY must be set")
           end
  end.

(** The [try] block of [_load] turns [OSError] and [ValueError] into
    [RuntimeError]; [InvalidToken] passes through. *)
Definition _load : fm (odict string string) :=
  s ← get_state;
  match fs_content s with
  | None => mret []
  | Some encrypted =>
      key ← _ensure_fernet;
      if negb (fs_readable s) then raise (RuntimeError "Failed to load/decrypt secrets file")
      else match decrypt key encrypted with
           | None => raise InvalidToken
           | Some decrypted =>
               match loads decrypted with
               | None => raise (RuntimeError "Failed to load/decrypt secrets file")
               | Some (PDict d) => match str_values d with Some t => mret t | None => raise TypeError end
               | Some _ => raise TypeError
               end
           end
  end.

(** Written to a temporary file and renamed: a failure leaves the old file. *)
Definition _save (data : odict string string) : fm () :=
  key ← _ensure_fernet;
  s ← get_state;
  if fs_writable s then modify (set_content (encrypt key (dumps None (table_json data))))
  else raise OSError.

Definition file_get (name : string) : fm (option string) := data ← _load; mret (dget data name).
Definition file_set (name value : string) : fm () := data ← _load; _save (dset data name value).
Definition file_delete (name : string) : fm () := data ← _load; _save (ddel data name).
Definition file_list_names : fm (list string) := data ← _load; mret (dkeys data).

#[export] Instance FileProvider : SecretProvider file_state := {|
  sp_get := file_get; sp_set := file_set; sp_delete := file_delete; sp_list_names := file_list_names |}.

(** The key the provider works with. *)
Definition active_key (s : file_state) : option string :=
  match _fernet s with
  | Some k => Some k
  | None => match fs_env_key s with
            | Some k => if fs_installed s && negb (bool_decide (k = "")) && fernet_key k then Some k else None
            | None => None
            end
  end.

(** The table the file holds under the active key. *)
Definition stored (s : file_state) (t : odict string string) : Prop :=
  dict_wf t ∧
  match fs_content s with
  | None => t = []
  | Some c => ∃ k, active_key s = Some k ∧ decrypt k c = Some (dumps None (table_json t))
  end.

Definition key_ok (s : file_state) : Prop := ∃ k, active_key s = Some k ∧ fernet_key k = true.

Definition ensured (k : string) (s : file_state) : file_state :=
  match _fernet s with Some _ => s | None => set_fernet k s end.

Lemma ensure_fernet_ok s k : active_key s = Some k → _ensure_fernet s = (inr k, ensured k s).
Proof.
  unfold active_key, _ensure_fernet, ensured. rewrite run_get. destruct (_fernet s) as [k'|]; [by intros [= ->]|].
  destruct (fs_env_key s) as [k'|]; [|done].
  destruct (fs_installed s), (bool_decide (k' = "")), (fernet_key k') eqn:E; simpl; try done. by intros [= ->].
Qed.

Lemma ensured_same k s :
  active_key s = Some k →
  active_key (ensured k s) = Some k ∧ fs_content (ensured k s) = fs_content s ∧
  fs_readable (ensured k s) = fs_readable s ∧ fs_writable (ensured k s) = fs_writable s.
Proof.
  unfold ensured. intros Hk. destruct (_fernet s) eqn:E; [done|]. unfold active_key. simpl. done.
Qed.

Lemma stored_ensured k s t : active_key s = Some k → stored s t → stored (ensured k s) t.
Proof.
  intros Hk [Hwf H]. destruct (ensured_same k s Hk) as (H1 & H2 & _). split; [done|].
  rewrite H1, H2. by rewrite Hk in H.
Qed.

(** Loading returns the stored table and changes nothing but the cached key. *)
Lemma load_ok s t k :
  stored s t → fs_readable s = true → active_key s = Some k →
  ∃ s', _load s = (inr t, s') ∧ (s' = s ∨ s' = ensured k s).
Proof.
  intros [Hwf H] Hr Hk. unfold _load. rewrite run_get. destruct (fs_content s) as [c|].
  - destruct H as (k' & Hk' & Hd). rewrite Hk in Hk'. injection Hk' as <-.
    exists (ensured k s). rewrite run_bind, (ensure_fernet_ok _ _ Hk), Hr. cbn [negb].
    rewrite Hd, loads_dumps by by apply table_json_wf. unfold table_json. rewrite str_values_table.
    split; [done|by right].
  - subst t. exists s. split; [done|by left].
Qed.

Lemma save_ok s t k :
  dict_wf t → active_key s = Some k → fernet_key k = true → fs_writable s = true →
  ∃ s', _save t s = (inr (), s') ∧ stored s' t ∧ active_key s' = Some k ∧
        fs_readable s' = fs_readable s ∧ fs_writable s' = true.
Proof.
  intros Hwf Hk Hf Hw. destruct (ensured_same k s Hk) as (H1 & H2 & H3 & H4).
  exists (set_content (encrypt k (dumps None (table_json t))) (ensured k s)).
  unfold _save. rewrite run_bind, (ensure_fernet_ok _ _ Hk), run_get, H4, Hw. split_and!; try done.
  - split; [done|]. simpl. exists k. split; [exact H1|]. by apply decrypt_encrypt.
  - simpl. by rewrite H4.
Qed.

Definition file_view (s : file_state) (n : string) : option string :=
  match (_load s).1 with inr t => dget t n | inl _ => None end.
Definition file_usable (s : file_state) : Prop :=
  (∃ t, stored s t) ∧ fs_readable s = true ∧ key_ok s.

Lemma file_view_stored s t n :
  stored s t → fs_readable s = true → key_ok s → file_view s n = dget t n.
Proof.
  intros Ht Hr (k & Hk & _). unfold file_view. by destruct (load_ok s t k Ht Hr Hk) as (s' & -> & _).
Qed.

Lemma file_usable_ensured k s : active_key s = Some k → file_usable s → file_usable (ensured k s).
Proof.
  intros Hk ((t & Ht) & Hr & (k' & Hk' & Hv)). destruct (ensured_same k s Hk) as (H1 & _ & H3 & _).
  split_and!; [exists t; by apply stored_ensured|by rewrite H3|]. exists k. split; [done|congruence].
Qed.

(** Reading, changing the table and writing it back. *)
Lemma file_update s t k (f : odict string string → odict string string) :
  stored s t → fs_readable s = true → active_key s = Some k → fernet_key k = true → fs_writable s = true →
  dict_wf (f t) →
  ∃ s', (data ← _load; _save (f data)) s = (inr (), s') ∧ stored s' (f t) ∧ file_usable s' ∧ fs_writable s' = true.
Proof.
  intros Ht Hr Hk Hv Hw Hf. destruct (load_ok s t k Ht Hr Hk) as (s1 & E1 & Hs1).
  destruct (ensured_same k s Hk) as (H1 & _ & H3 & H4).
  assert (active_key s1 = Some k ∧ fs_readable s1 = true ∧ fs_writable s1 = true) as (K1 & R1 & W1)
    by (destruct Hs1 as [-> | ->]; rewrite ?H3, ?H4; auto).
  destruct (save_ok s1 (f t) k Hf K1 Hv W1) as (s2 & E2 & St & K2 & R2 & W2).
  exists s2. rewrite run_bind, E1. split_and!; auto. split_and!; [by exists (f t)|congruence|by exists k].
Qed.

#[export, refine] Instance FileProvider_laws : ProviderLaws file_state := {|
  view := file_view;
  usable := file_usable;
  writable s := fs_writable s = true;
  proper _ := True;
  same n m := bool_decide (n = m) |}.
Proof.
  - intros n. by apply bool_decide_eq_true.
  - intros s n Hu. pose proof Hu as ((t & Ht) & Hr & Hk). pose proof Hk as (k & Hk' & _).
    destruct (load_ok s t k Ht Hr Hk') as (s' & E & Hs'). exists s'.
    assert (file_usable s' ∧ stored s' t ∧ (fs_writable s = true → fs_writable s' = true)) as (Hu' & Ht' & Hw').
    { destruct Hs' as [-> | ->]; [done|]. destruct (ensured_same k s Hk') as (_ & _ & _ & H4).
      rewrite H4. split_and!; auto using file_usable_ensured, stored_ensured. }
    split_and!; [|done|done|].
    + simpl. unfold file_get. rewrite run_bind, E. by rewrite (file_view_stored s t n Ht Hr Hk).
    + intros m. destruct Hu' as (_ & Hr' & Hk2).
      by rewrite (file_view_stored s t m Ht Hr Hk), (file_view_stored s' t m Ht' Hr' Hk2).
  - intros s n v ((t & Ht) & Hr & Hk) Hw _. pose proof Hk as (k & Hk' & Hv).
    destruct (file_update s t k (λ d, dset d n v) Ht Hr Hk' Hv Hw) as (s' & E & Ht' & Hu' & Hw');
      [apply dict_wf_dset, Ht|]. exists s'. split_and!; [exact E|done|done|].
    intros m _. destruct Hu' as (_ & Hr' & Hk2). rewrite (file_view_stored s' _ m Ht' Hr' Hk2), dget_dset.
    rewrite (file_view_stored s t m Ht Hr Hk). case_bool_decide; [by rewrite decide_True|by rewrite decide_False].
  - intros s n ((t & Ht) & Hr & Hk) Hw _. pose proof Hk as (k & Hk' & Hv).
    destruct (file_update s t k (λ d, ddel d n) Ht Hr Hk' Hv Hw) as (s' & E & Ht' & Hu' & Hw');
      [apply dict_wf_ddel, Ht|]. exists s'. split_and!; [exact E|done|done|].
    intros m _. destruct Hu' as (_ & Hr' & Hk2). rewrite (file_view_stored s' _ m Ht' Hr' Hk2).
    rewrite dget_ddel by apply Ht.
    rewrite (file_view_stored s t m Ht Hr Hk). case_bool_decide; [by rewrite decide_True|by rewrite decide_False].
Defined.

(** A save that fails leaves the file as it was. *)
Lemma failed_save_keeps_file t s e s' : _save t s = (inl e, s') → fs_content s' = fs_content s.
Proof.
  unfold _save, _ensure_fernet. unfold_M. intros E.
  repeat (case_match; simplify_eq/=); done.
Qed.

(** A file written under another key makes a look-up raise [InvalidToken]
    itself, not the documented [RuntimeError]. *)
Lemma wrong_key_escapes s c k name :
  fs_content s = Some c → active_key s = Some k → fs_readable s = true → decrypt k c = None →
  (file_get name s).1 = inl InvalidToken.
Proof.
  intros Hc Hk Hr Hd. unfold file_get, _load. rewrite run_bind, run_get, Hc, run_bind, (ensure_fernet_ok _ _ Hk), Hr.
  cbn [negb]. by rewrite Hd.
Qed.
End file_provider.

(** ** The operating system's keyring *)

(** The functions of the keyring package, for the one service the code uses;
    deleting a missing entry raises. *)
Class Keyring (R : Type) := {
  get_password : R → string → option string;
  set_password : R → string → string → R;
  delete_password : R → string → option R;
  get_set_password r n v m :
    get_password (set_password r n v) m = if bool_decide (n = m) then Some v else get_password r m;
  get_delete_password r n m :
    match delete_password r n with
    | Some r' => get_password r' m = if bool_decide (n = m) then None else get_password r m
    | None => get_password r n = None
    end }.

(** The set of names and its sorted list. *)
Definition name_list (X : gset string) : list string := sorted_names (elements X).

Lemma elem_of_name_list x X : x ∈ name_list X ↔ x ∈ X.
Proof. unfold name_list. by rewrite elem_of_sorted_names, elem_of_elements. Qed.

Section keyring_provider.
Context {R : Type} `{!Keyring R}.

Record keyring_state := { kr_ring : R; kr_installed : bool }.
Abbreviation km := (M keyring_state secret_error).

Definition _names_key : string := "__argus_mcp_secret_names__".

Definition _ensure_keyring : km R :=
  s ← get_state;
  if kr_installed s then mret (kr_ring s) else raise (RuntimeError "keyring package required").
Definition set_ring (r : R) : km () :=
  modify (λ s, {| kr_ring := r; kr_installed := kr_installed s |}).

Fixpoint str_items (l : list pyval) : option (list string) :=
  match l with
  | [] => Some []
  | PStr s :: l' => match str_items l' with Some t => Some (s :: t) | None => None end
  | _ => None
  end.

(** The recorded index; an index of another shape is outside the annotated type. *)
Definition index_of (r : R) : option (list string) :=
  match get_password r _names_key with
  | None => Some []
  | Some raw =>
      if bool_decide (raw = "") then Some []
      else match loads raw with
           | None => Some []
           | Some (PList l) => str_items l
           | Some _ => None
           end
  end.

Definition keyring_list_names : km (list string) :=
  r ← _ensure_keyring;
  match index_of r with Some l => mret l | None => raise TypeError end.

Definition save_names (X : gset string) : km () :=
  r ← _ensure_keyring;
  set_ring (set_password r _names_key (dumps None (PList (PStr <$> name_list X)))).

Definition keyring_get (name : string) : km (option string) :=
  r ← _ensure_keyring; mret (get_password r name).

Definition keyring_set (name value : string) : km () :=
  r ← _ensure_keyring;
  _ ← set_ring (set_password r name value);
  names ← keyring_list_names;
  save_names (list_to_set names ∪ {[name]}).

Definition keyring_delete (name : string) : km () :=
  r ← _ensure_keyring;
  _ ← match delete_password r name with Some r' => set_ring r' | None => mret () end;
  names ← keyring_list_names;
  save_names (list_to_set names ∖ {[name]}).

#[export] Instance KeyringProvider : SecretProvider keyring_state := {|
  sp_get := keyring_get; sp_set := keyring_set; sp_delete := keyring_delete;
  sp_list_names := keyring_list_names |}.

Lemma str_items_list l : str_items (PStr <$> l) = Some l.
Proof. induction l as [|s l IH]; [done|]. rewrite fmap_cons. cbn [str_items]. by rewrite IH. Qed.

Lemma index_saved r X : index_of (set_password r _names_key (dumps None (PList (PStr <$> name_list X)))) =
  Some (name_list X).
Proof.
  unfold index_of. rewrite get_set_password, bool_decide_true by done.
  destruct (bool_decide (_ = "")) eqn:E.
  - apply bool_decide_eq_true in E. unfold dumps in E. change "" with (text []) in E.
    apply text_inj in E. destruct (dump_head None 0 (PList (PStr <$> name_list X))) as (c & t & E' & _). congruence.
  - rewrite loads_dumps, str_items_list; [done|]. constructor. apply Forall_fmap, Forall_true. constructor.
Qed.

Definition keyring_usable (s : keyring_state) : Prop :=
  kr_installed s = true ∧ is_Some (index_of (kr_ring s)).

(** An update of one entry followed by the update of the index. *)
Lemma update_ring s r1 (g : gset string → gset string) :
  kr_installed s = true → is_Some (index_of r1) →
  ∃ l s', index_of r1 = Some l ∧
    (_ ← set_ring r1; names ← keyring_list_names; save_names (g (list_to_set names))) s = (inr (), s') ∧
    keyring_usable s' ∧ index_of (kr_ring s') = Some (name_list (g (list_to_set l))) ∧
    ∀ m, m ≠ _names_key → get_password (kr_ring s') m = get_password r1 m.
Proof.
  intros Hi [l Hl]. exists l, {| kr_ring := set_password r1 _names_key
    (dumps None (PList (PStr <$> name_list (g (list_to_set l))))); kr_installed := true |}.
  unfold set_ring, keyring_list_names, save_names, _ensure_keyring. unfold_M. rewrite !Hi. simpl.
  rewrite Hl. simpl. split_and!; try done.
  - split; [done|]. simpl. rewrite index_saved. eauto.
  - simpl. apply index_saved.
  - intros m Hm. simpl. by rewrite get_set_password, bool_decide_false.
Qed.

Lemma index_other r n v : n ≠ _names_key → index_of (set_password r n v) = index_of r.
Proof. intros H. unfold index_of. by rewrite get_set_password, bool_decide_false. Qed.

Lemma index_deleted r n r' : n ≠ _names_key → delete_password r n = Some r' → index_of r' = index_of r.
Proof.
  intros H E. unfold index_of. pose proof (get_delete_password r n _names_key) as Hd. rewrite E in Hd.
  by rewrite Hd, bool_decide_false.
Qed.

Lemma keyring_set_ok s n v :
  keyring_usable s → n ≠ _names_key →
  ∃ l s', index_of (kr_ring s) = Some l ∧ keyring_set n v s = (inr (), s') ∧ keyring_usable s' ∧
    index_of (kr_ring s') = Some (name_list (list_to_set l ∪ {[n]})) ∧
    ∀ m, m ≠ _names_key → get_password (kr_ring s') m = if bool_decide (n = m) then Some v else get_password (kr_ring s) m.
Proof.
  intros [Hi [l0 Hl0]] Hn.
  destruct (update_ring s (set_password (kr_ring s) n v) (λ X, X ∪ {[n]}) Hi) as (l & s' & Hl & E & Hu & Hx & Hg).
  { rewrite index_other by done. eauto. }
  rewrite index_other in Hl by done. exists l, s'. split_and!; try done.
  - unfold keyring_set. rewrite run_bind. unfold _ensure_keyring at 1. rewrite run_get, Hi. exact E.
  - intros m Hm. by rewrite Hg, get_set_password.
Qed.

Lemma keyring_delete_ok s n :
  keyring_usable s → n ≠ _names_key →
  ∃ l s', index_of (kr_ring s) = Some l ∧ keyring_delete n s = (inr (), s') ∧ keyring_usable s' ∧
    index_of (kr_ring s') = Some (name_list (list_to_set l ∖ {[n]})) ∧
    ∀ m, m ≠ _names_key → get_password (kr_ring s') m = if bool_decide (n = m) then None else get_password (kr_ring s) m.
Proof.
  intros [Hi [l0 Hl0]] Hn. pose proof (get_delete_password (kr_ring s) n) as Hd.
  destruct (delete_password (kr_ring s) n) as [r'|] eqn:Er.
  - destruct (update_ring s r' (λ X, X ∖ {[n]}) Hi) as (l & s' & Hl & E & Hu & Hx & Hg).
    { rewrite (index_deleted _ _ _ Hn Er). eauto. }
    rewrite (index_deleted _ _ _ Hn Er) in Hl. exists l, s'. split_and!; try done.
    + unfold keyring_delete. rewrite run_bind. unfold _ensure_keyring at 1. rewrite run_get, Hi.
      cbn [mret M_ret]. rewrite Er. exact E.
    + intros m Hm. by rewrite Hg, Hd.
  - destruct (update_ring s (kr_ring s) (λ X, X ∖ {[n]}) Hi) as (l & s' & Hl & E & Hu & Hx & Hg); [eauto|].
    exists l, s'. split_and!; try done.
    + unfold keyring_delete. rewrite run_bind. unfold _ensure_keyring at 1. rewrite run_get, Hi.
      cbn [mret M_ret]. rewrite Er. rewrite <-E. by destruct s.
    + intros m Hm. rewrite Hg by done. case_bool_decide; [|done]. subst. apply (Hd m).
Qed.

#[export, refine] Instance KeyringProvider_laws : ProviderLaws keyring_state := {|
  view s n := get_password (kr_ring s) n;
  usable := keyring_usable;
  writable _ := True;
  proper n := n ≠ _names_key;
  same n m := bool_decide (n = m) |}.
Proof.
  - intros n. by apply bool_decide_eq_true.
  - intros s n Hu. exists s. split_and!; [|done|done|done]. simpl. unfold keyring_get, _ensure_keyring.
    unfold_M. destruct Hu as [-> _]. done.
  - intros s n v Hu _ Hn. destruct (keyring_set_ok s n v Hu Hn) as (l & s' & _ & E & Hu' & _ & H). eauto 10.
  - intros s n Hu _ Hn. destruct (keyring_delete_ok s n Hu Hn) as (l & s' & _ & E & Hu' & _ & H). eauto 10.
Defined.
End keyring_provider.
Arguments keyring_state : clear implicits.

(** ** The store in front of a provider *)

Inductive provider_kind := EnvKind | FileKind (path : string) | KeyringKind.

Definition create_provider (provider_type : string) (path : option string) : secret_error + provider_kind :=
  if bool_decide (provider_type = "env") then inr EnvKind
  else if bool_decide (provider_type = "file") then inr (FileKind (default "secrets.enc" path))
  else if bool_decide (provider_type = "keyring") then inr KeyringKind
  else inl (ValueError ("Unknown secret provider type: " +:+ provider_type)).

(** The [provider] and [path] keys of a configuration section. *)
Definition from_config (provider path : option string) : secret_error + provider_kind :=
  let provider_type := default "env" provider in
  create_provider provider_type (if bool_decide (provider_type = "file") then path else None).

Section store.
Context {S : Type} `{!SecretProvider S}.

Definition store_get (name : string) : M S secret_error (option string) := sp_get name.
Definition store_set (name value : string) : M S secret_error () := sp_set name value.
Definition store_delete (name : string) : M S secret_error () := sp_delete name.
Definition store_exists (name : string) : M S secret_error bool :=
  r ← sp_get name; mret (match r with Some _ => true | None => false end).

Inductive store_op := OpSet (name value : string) | OpDelete (name : string).
Definition op_name (o : store_op) : string := match o with OpSet n _ | OpDelete n => n end.

Definition run_op (o : store_op) : M S secret_error () :=
  match o with OpSet n v => store_set n v | OpDelete n => store_delete n end.
Fixpoint run_ops (ops : list store_op) : M S secret_error () :=
  match ops with [] => mret () | o :: ops' => _ ← run_op o; run_ops ops' end.

(** The specification: a map from names, where [eqv] tells which names the
    provider identifies. *)
Definition spec_op (eqv : string → string → bool) (f : string → option string) (o : store_op) : string → option string :=
  λ m, match o with
       | OpSet n v => if eqv n m then Some v else f m
       | OpDelete n => if eqv n m then None else f m
       end.
Definition spec_ops (eqv : string → string → bool) (f : string → option string) (ops : list store_op)
  : string → option string := foldl (spec_op eqv) f ops.

Lemma spec_ops_ext eqv f g ops (P : string → Prop) :
  (∀ m, P m → f m = g m) → ∀ m, P m → spec_ops eqv f ops m = spec_ops eqv g ops m.
Proof.
  revert f g. induction ops as [|o ops IH]; intros f g H m Hm; simpl; [by apply H|].
  apply IH; [|done]. intros m' Hm'. unfold spec_op. destruct o; case_match; auto.
Qed.

Context `{!ProviderLaws S}.

(** Every provider that satisfies the laws refines the map. *)
Lemma store_refines_map (s : S) ops name :
  usable s → writable s → Forall (λ o, proper (op_name o)) ops → proper name →
  ∃ s' s'', run_ops ops s = (inr (), s') ∧
    store_get name s' = (inr (spec_ops same (view s) ops name), s'') ∧ (∀ m, view s'' m = view s' m).
Proof.
  intros Hu Hw Hops Hn. revert s Hu Hw. induction Hops as [|o ops Ho _ IH]; intros s Hu Hw; simpl.
  - destruct (law_get s name Hu) as (s'' & E & _ & _ & H). eauto.
  - assert (∃ s1, run_op o s = (inr (), s1) ∧ usable s1 ∧ writable s1 ∧
      ∀ m, proper m → view s1 m = spec_op same (view s) o m) as (s1 & E & Hu1 & Hw1 & Hv).
    { destruct o as [n v|n]; simpl in *.
      - destruct (law_set s n v Hu Hw Ho) as (s1 & ? & ? & ? & ?). eauto 10.
      - destruct (law_delete s n Hu Hw Ho) as (s1 & ? & ? & ? & ?). eauto 10. }
    destruct (IH s1 Hu1 Hw1) as (s' & s'' & E1 & E2 & H2). exists s', s''. rewrite run_bind, E.
    split_and!; [done| |done]. rewrite E2. do 2 f_equal. by apply (spec_ops_ext _ _ _ _ proper).
Qed.
End store.

(** ** References in a configuration *)

Definition newline : ascii := ascii_of_nat 10.

(** The text before the first newline, and the rest. *)
Fixpoint line_of (l : list ascii) : list ascii * list ascii :=
  match l with
  | [] => ([], [])
  | c :: l' => if bool_decide (c = newline) then ([], l)
               else let '(a, b) := line_of l' in (c :: a, b)
  end.

(** [re.match("^secret:(.+)$", value)]: the dot excludes a newline, the dollar
    also matches before a final one. *)
Definition match_secret (value : string) : option string :=
  if startswith value "secret:" then
    let '(name, rest) := line_of (drop 7 (chars value)) in
    if negb (bool_decide (name = [])) && (bool_decide (rest = []) || bool_decide (rest = [newline]))
    then Some (text name) else None
  else None.

Definition _MAX_WALK_DEPTH : Z := 20.

Fixpoint _collect_refs (v : pyval) (refs : list string) : list string :=
  match v with
  | PDict d => (fix go (d : list (string * pyval)) refs :=
      match d with [] => refs | (_, v) :: d' => go d' (_collect_refs v refs) end) d refs
  | PList l => (fix go (l : list pyval) refs :=
      match l with [] => refs | v :: l' => go l' (_collect_refs v refs) end) l refs
  | PStr s => match match_secret s with Some n => refs ++ [n] | None => refs end
  | _ => refs
  end.
Definition find_secret_references (config : pyval) : list string := _collect_refs config [].

Section resolve.
Context {S : Type} `{!SecretProvider S}.

(** [order] is the iteration order of the filter's set (Redaction.v). *)
Context (order : list string → list string).

Record resolver_state := { rs_store : S; rs_filter : SecretRedactionFilter }.
Abbreviation rm := (M resolver_state secret_error).

Definition look_up (name : string) : rm (option string) := λ st,
  let '(r, s') := store_get name (rs_store st) in (r, {| rs_store := s'; rs_filter := rs_filter st |}).
Definition register_secret (value : string) : rm () :=
  modify (λ st, {| rs_store := rs_store st; rs_filter := register order value (rs_filter st) |}).

Definition _resolve_string (value : string) (strict : bool) (path : string) : rm string :=
  match match_secret value with
  | None => mret value
  | Some secret_name =>
      resolved ← look_up secret_name;
      match resolved with
      | None =>
          if strict then raise (SecretResolutionError
            ("Secret '" +:+ secret_name +:+ "' not found (referenced at " +:+ path +:+ ")"))
          else mret value
      | Some r => _ ← register_secret r; mret r
      end
  end.

Fixpoint _walk (v : pyval) (strict : bool) (path : string) (depth : Z) : rm pyval :=
  if depth >? _MAX_WALK_DEPTH then raise (ValueError "_walk: recursion depth limit exceeded")
  else
    match v with
    | PDict d =>
        d' ← (fix go (d : list (string * pyval)) : rm (list (string * pyval)) :=
          match d with
          | [] => mret []
          | (k, x) :: d' =>
              x' ← _walk x strict (path +:+ "." +:+ k) (depth + 1);
              r ← go d';
              mret ((k, x') :: r)
          end) d;
        mret (PDict d')
    | PList l =>
        l' ← (fix go (l : list pyval) (i : Z) : rm (list pyval) :=
          match l with
          | [] => mret []
          | x :: l' =>
              x' ← _walk x strict (path +:+ "[" +:+ str_of_int i +:+ "]") (depth + 1);
              r ← go l' (i + 1);
              mret (x' :: r)
          end) l 0;
        mret (PList l')
    | PStr s => s' ← _resolve_string s strict path; mret (PStr s')
    | _ => mret v
    end.

Definition resolve_secrets (config : pyval) (strict : bool) : rm pyval := _walk config strict "" 0.
End resolve.
Arguments resolver_state : clear implicits.

(** *** What the substitution computes *)

(** The references of a value, in order. *)
Fixpoint refs_of (v : pyval) : list string :=
  match v with
  | PDict d => (fix go (d : list (string * pyval)) :=
      match d with [] => [] | (_, v) :: d' => refs_of v ++ go d' end) d
  | PList l => (fix go (l : list pyval) := match l with [] => [] | v :: l' => refs_of v ++ go l' end) l
  | PStr s => match match_secret s with Some n => [n] | None => [] end
  | _ => []
  end.

(** Every reference that is bound replaced by its value. *)
Fixpoint subst_secrets (f : string → option string) (v : pyval) : pyval :=
  match v with
  | PDict d => PDict ((fix go (d : list (string * pyval)) :=
      match d with [] => [] | (k, v) :: d' => (k, subst_secrets f v) :: go d' end) d)
  | PList l => PList ((fix go (l : list pyval) :=
      match l with [] => [] | v :: l' => subst_secrets f v :: go l' end) l)
  | PStr s => PStr (match match_secret s with Some n => default s (f n) | None => s end)
  | _ => v
  end.

Lemma collect_refs_app v refs : _collect_refs v refs = refs ++ refs_of v.
Proof.
  revert refs. induction v as [|b|z|s|l IH|d IH] using pyval_nested_ind; intros refs; simpl;
    try by rewrite app_nil_r.
  - case_match; [done|by rewrite app_nil_r].
  - revert refs. induction IH as [|v l Hv _ IHl]; intros refs; [by rewrite app_nil_r|].
    by rewrite IHl, Hv, app_assoc.
  - revert refs. induction IH as [|[k v] d Hv _ IHd]; intros refs; [by rewrite app_nil_r|].
    by rewrite IHd, Hv, app_assoc.
Qed.

Section resolve_proofs.
Context {S : Type} `{!SecretProvider S} `{!ProviderLaws S} (order : list string → list string).

Definition registered (f : string → option string) (l : list string) (X : SecretRedactionFilter)
  : SecretRedactionFilter :=
  foldl (λ X n, match f n with Some v => register order v X | None => X end) X l.

Implicit Types (st : resolver_state S).

Definition found (f : string → option string) (v : pyval) : bool :=
  forallb (λ n, bool_decide (is_Some (f n))) (refs_of v).

(** A run that succeeds exactly when [ok], with result [x]; afterwards the
    provider answers as before and the values that were substituted are
    registered with the log filter. *)
Definition outcome {A} (f : string → option string) (refs : list string) (ok : bool) (x : A)
    (r : (secret_error + A) * resolver_state S) st : Prop :=
  if ok then ∃ st', r = (inr x, st') ∧ usable (rs_store st') ∧ (∀ m, view (rs_store st') m = f m) ∧
                    rs_filter st' = registered f refs (rs_filter st)
  else ∃ e st', r = (inl e, st') ∧ usable (rs_store st').

Definition state_ok (f : string → option string) st : Prop :=
  usable (rs_store st) ∧ ∀ m, view (rs_store st) m = f m.

Lemma resolve_string_outcome f s strict path st :
  state_ok f st →
  outcome f (match match_secret s with Some n => [n] | None => [] end)
    (negb strict || match match_secret s with Some n => bool_decide (is_Some (f n)) | None => true end)
    (match match_secret s with Some n => default s (f n) | None => s end)
    (_resolve_string order s strict path st) st.
Proof.
  intros [Hu Hv]. unfold _resolve_string. destruct (match_secret s) as [n|] eqn:Em.
  - destruct (law_get (rs_store st) n Hu) as (s' & E & Hu' & _ & Hv').
    rewrite run_bind. unfold look_up, store_get. rewrite E, Hv. unfold outcome.
    destruct (f n) as [v|] eqn:Ef.
    + rewrite bool_decide_true, orb_true_r by eauto. eexists. split; [reflexivity|]. simpl.
      split_and!; [done|by intros m; rewrite Hv'|]. by rewrite Ef.
    + rewrite bool_decide_false, orb_false_r by (intros [? ?]; done). destruct strict; cbn [negb].
      * eexists _, _. split; [reflexivity|done].
      * eexists. split; [reflexivity|]. simpl. split_and!; [done|by intros m; rewrite Hv'|by rewrite Ef].
  - rewrite orb_true_r. exists st. auto.
Qed.

Lemma outcome_bind {A B} f refs1 refs2 ok1 ok2 (x : A) (y : B) (m : M (resolver_state S) secret_error A) k st :
  outcome f refs1 ok1 x (m st) st →
  (∀ st1, state_ok f st1 → outcome f refs2 ok2 y (k x st1) st1) →
  outcome f (refs1 ++ refs2) (ok1 && ok2) y ((m ≫= k) st) st.
Proof.
  intros H1 H2. rewrite run_bind. unfold outcome in H1 |- *. destruct ok1; simpl.
  - destruct H1 as (st1 & -> & Hu1 & Hv1 & Hs1). specialize (H2 st1 (conj Hu1 Hv1)).
    unfold outcome in H2. destruct ok2; [|done]. destruct H2 as (st2 & E & Hu2 & Hv2 & Hs2).
    exists st2. split_and!; auto. rewrite Hs2, Hs1. unfold registered. by rewrite foldl_app.
  - destruct H1 as (e & st1 & -> & Hu1). eauto.
Qed.

Lemma outcome_ret {A} f (x : A) st : state_ok f st → outcome f [] true x ((mret x : M (resolver_state S) secret_error A) st) st.
Proof. intros [Hu Hv]. exists st. auto. Qed.

Lemma outcome_map {A B} f refs ok (x : A) (g : A → B) (m : M (resolver_state S) secret_error A) st :
  outcome f refs ok x (m st) st →
  outcome f refs ok (g x) ((a ← m; mret (g a) : M (resolver_state S) secret_error B) st) st.
Proof.
  intros H. rewrite <-(app_nil_r refs). rewrite <-(andb_true_r ok).
  apply (outcome_bind f refs [] ok true x (g x) m (λ a, mret (g a)) st H). intros. by apply outcome_ret.
Qed.

(** The walk succeeds when the nesting is within the limit and, in strict mode,
    every reference is bound. *)
Lemma walk_outcome f strict v : ∀ path depth st,
  state_ok f st →
  outcome f (refs_of v) ((depth + height v <=? _MAX_WALK_DEPTH) && (negb strict || found f v))
    (subst_secrets f v) (_walk order v strict path depth st) st.
Proof.
  assert (∀ depth h, 0 <= h → (depth >? _MAX_WALK_DEPTH) = true → (depth + h <=? _MAX_WALK_DEPTH) = false) as Hdeep.
  { intros depth h Hh Hd. reflect_bools. apply Z.leb_gt. lia. }
  assert (∀ depth a b, (depth + Z.max (1 + a) b <=? _MAX_WALK_DEPTH) =
    (depth + 1 + a <=? _MAX_WALK_DEPTH) && (depth + b <=? _MAX_WALK_DEPTH)) as Hmax.
  { intros depth a b. apply eq_true_iff_eq. rewrite andb_true_iff, !Z.leb_le. lia. }
  assert (∀ (a b c x y : bool), (a && b) && (c || (x && y)) = (a && (c || x)) && (b && (c || y))) as Hshuf
    by (intros [] [] [] [] []; done).
  induction v as [|b|z|s|l IH|d IH] using pyval_nested_ind; intros path depth st Hst;
    (destruct (depth >? _MAX_WALK_DEPTH) eqn:Ed;
      [rewrite Hdeep; [|apply height_nonneg|done]; simpl; rewrite Ed; eexists _, _; split; [reflexivity|apply Hst]|]);
    cbn [_walk]; rewrite Ed.
  1-3: simpl; replace (depth + 0 <=? _MAX_WALK_DEPTH) with true by (symmetry; reflect_bools; apply Z.leb_le; lia);
    unfold found; simpl; rewrite orb_true_r; by apply outcome_ret.
  - cbn [height]. replace (depth + 0 <=? _MAX_WALK_DEPTH) with true by (symmetry; reflect_bools; apply Z.leb_le; lia).
    cbn [subst_secrets andb]. apply (outcome_map f _ _ _ PStr).
    pose proof (resolve_string_outcome f s strict path st Hst) as H. unfold found. cbn [refs_of].
    destruct (match_secret s); [|done]. cbn [forallb]. by rewrite andb_true_r.
  - cbn [subst_secrets]. apply (outcome_map f _ _ _ PList).
    match goal with |- outcome ?a ?b ?c ?d (?g l 0 st) ?e =>
      assert (∀ i, outcome a b c d (g l i st) e) as Hi; [|exact (Hi 0)] end.
    revert st Hst. induction IH as [|v l Hv _ IHl]; intros st Hst i.
    + simpl. replace (depth + 0 <=? _MAX_WALK_DEPTH) with true by (symmetry; reflect_bools; apply Z.leb_le; lia).
      unfold found. simpl. rewrite orb_true_r. by apply outcome_ret.
    + unfold found in *. cbn [height refs_of]. rewrite Hmax, forallb_app, Hshuf.
      apply (outcome_bind f _ _ _ _ (subst_secrets f v)); [by apply Hv|]. intros st1 Hst1.
      apply (outcome_map f _ _ _ (λ r, subst_secrets f v :: r)). by apply IHl.
  - cbn [subst_secrets]. apply (outcome_map f _ _ _ PDict).
    revert st Hst. induction IH as [|[k v] d Hv _ IHd]; intros st Hst.
    + simpl. replace (depth + 0 <=? _MAX_WALK_DEPTH) with true by (symmetry; reflect_bools; apply Z.leb_le; lia).
      unfold found. simpl. rewrite orb_true_r. by apply outcome_ret.
    + unfold found in *. cbn [height refs_of]. rewrite Hmax, forallb_app, Hshuf.
      apply (outcome_bind f _ _ _ _ (subst_secrets f v)); [by apply Hv|]. intros st1 Hst1.
      apply (outcome_map f _ _ _ (λ r, (k, subst_secrets f v) :: r)). by apply IHd.
Qed.
End resolve_proofs.

(** ** Claims *)

(** Concrete packages for the witnesses: a toy cipher and a dictionary. *)
#[export, refine] Instance toy_fernet : Fernet := {|
  fernet_key k := negb (bool_decide (k = ""));
  encrypt k m := k +:+ m;
  decrypt k c := if startswith c k then Some (drop_chars (length (chars k)) c) else None |}.
Proof.
  intros k m _. rewrite (proj2 (startswith_app (k +:+ m) k)) by eauto. by rewrite drop_chars_app.
Defined.

#[export, refine] Instance map_keyring : Keyring (gmap string string) := {|
  get_password r n := r !! n;
  set_password r n v := <[n := v]> r;
  delete_password r n := match r !! n with Some _ => Some (delete n r) | None => None end |}.
Proof.
  - intros r n v m. case_bool_decide; subst; [by rewrite lookup_insert_eq|by rewrite lookup_insert_ne].
  - intros r n m. destruct (r !! n) eqn:E; [|done].
    case_bool_decide; subst; [by rewrite lookup_delete_eq|by rewrite lookup_delete_ne].
Defined.



(** Secret references.  Over any provider that satisfies its laws,
    [resolve_secrets] succeeds exactly when the configuration is nested at most
    twenty deep and, in strict mode, every reference [find_secret_references]
    reports is bound; it then replaces every bound reference by its value and
    nothing else, leaves the store as it was, and registers the substituted
    values with the log filter. *)
Theorem resolve_secrets_exact {S : Type} `{!SecretProvider S} `{!ProviderLaws S}
    (order : list string → list string) (config : pyval) (strict : bool) (st : resolver_state S)
    (Husable : usable (rs_store st)) :
  let f := view (rs_store st) in
  let refs := find_secret_references config in
  if (height config <=? _MAX_WALK_DEPTH) && (negb strict || forallb (λ n, bool_decide (is_Some (f n))) refs)
  then ∃ st', resolve_secrets order config strict st = (inr (subst_secrets f config), st') ∧
         (∀ m, view (rs_store st') m = f m) ∧ rs_filter st' = registered order f refs (rs_filter st)
  else ∃ e st', resolve_secrets order config strict st = (inl e, st').
Proof.
  intros f refs. unfold refs, find_secret_references. rewrite collect_refs_app. simpl app.
  pose proof (walk_outcome order f strict config "" 0 st (conj Husable (λ m, eq_refl))) as H.
  unfold outcome, found in H. rewrite Z.add_0_l in H. unfold resolve_secrets.
  destruct (_ && _); [destruct H as (st' & E & _ & H1 & H2)|destruct H as (e & st' & E & _)]; eauto.
Qed.

(** A nested configuration with one bound and one unbound reference. *)
Lemma resolve_secrets_exact_witness :
  let env : environ := [("SECRET_API_KEY", "s3cr3t")] in
  let st := {| rs_store := env; rs_filter := empty_filter |} in
  let config := PDict [("token", PStr "secret:api-key"); ("more", PList [PStr "secret:none"; PStr "plain"])] in
  usable env ∧
  (∃ st', resolve_secrets (λ l, l) config false st =
    (inr (PDict [("token", PStr "s3cr3t"); ("more", PList [PStr "secret:none"; PStr "plain"])]), st')) ∧
  (∃ e st', resolve_secrets (λ l, l) config true st = (inl e, st')).
Proof.
  intros env st config. assert (usable env) as Hu by (by repeat constructor; set_solver).
  split_and!; [done| |].
  - pose proof (resolve_secrets_exact (λ l, l) config false st Hu) as (st' & E & _). exists st'. exact E.
  - exact (resolve_secrets_exact (λ l, l) config true st Hu).
Defined.

(** Two different names share a variable in the environment provider. *)
Example env_names_collide : _env_key "my-key" = _env_key "MY_KEY".
Proof. reflexivity. Qed.
(** A variable with a lower-case suffix is listed but cannot be read. *)
Example env_listed_not_found :
  (env_list_names [("SECRET_db", "x")]).1 = inr ["db"] ∧ (env_get "db" [("SECRET_db", "x")]).1 = inr None.
Proof. vm_compute. auto. Qed.
