(* ===== verification/ConfigIO.v ===== *)
(** * Export and import of configurations (config/export.py, config/import_handler.py)

    A configuration is exported as a plain dictionary, filtered and with its
    secret references masked, stripped or preserved; an exported dictionary is
    merged into another configuration under one of four conflict strategies,
    for real or as a dry run.

    The pydantic models of backends and registries are an interface: how a
    model is dumped, how one is constructed from a dictionary, and the law that
    constructing from a dump gives the model back. *)
From S2P Require Import Prelude PyDict Glob PyStr Secrets.

(** ** Models *)

Class EntityModel (A : Type) := {
  model_dump : A → odict string pyval;
  construct : odict string pyval → string + A;
  entity_valid : A → Prop;
  construct_dump a : entity_valid a → construct (model_dump a) = inr a }.

(** Backends carry their type and group in the dump. *)
Class BackendModel (B : Type) `{!EntityModel B} := {
  backend_type : B → string;
  dump_type b : dget (model_dump b) "type" = Some (PStr (backend_type b));
  dump_known b : backend_type b ∈ ["stdio"; "sse"; "streamable-http"] }.

Class RegistryModel (G : Type) `{!EntityModel G} := {
  reg_name : G → string;
  reg_rename : string → G → G;
  reg_rename_name n g : reg_name (reg_rename n g) = n;
  dump_name g : dget (model_dump g) "name" = Some (PStr (reg_name g)) }.

Record full_config (B G : Type) := {
  fc_version : string;
  fc_backends : odict string B;
  fc_registries : list G;
  fc_feature_flags : odict string bool;
  fc_plugins : pyval }.
Arguments fc_version {B G}. Arguments fc_backends {B G}. Arguments fc_registries {B G}.
Arguments fc_feature_flags {B G}. Arguments fc_plugins {B G}.

(** ** Export *)

Inductive SecretHandling := STRIP | MASK | PRESERVE.

(** A value with every secret reference replaced by a fixed text. *)
Fixpoint cover_secrets (cover : string) (v : pyval) : pyval :=
  match v with
  | PDict d => PDict ((fix go (d : list (string * pyval)) :=
      match d with [] => [] | (k, v) :: d' => (k, cover_secrets cover v) :: go d' end) d)
  | PList l => PList ((fix go (l : list pyval) :=
      match l with [] => [] | v :: l' => cover_secrets cover v :: go l' end) l)
  | PStr s => match match_secret s with Some _ => PStr cover | None => v end
  | _ => v
  end.
Definition _mask_secrets (v : pyval) : pyval := cover_secrets "***" v.
Definition _strip_secrets (v : pyval) : pyval := cover_secrets "" v.

Record ExportFilter := {
  entity_types : list string;
  backend_names : option (list string);
  backend_groups : option (list string);
  backend_types : option (list string) }.
Definition default_export_filter : ExportFilter :=
  {| entity_types := ["backends"; "registries"]; backend_names := None; backend_groups := None; backend_types := None |}.

Definition in_set (X : option (list string)) (v : pyval) : bool :=
  match X with None => true | Some l => match v with PStr s => bool_decide (s ∈ l) | _ => false end end.

Definition _backend_matches_filter (name : string) (d : odict string pyval) (f : ExportFilter) : bool :=
  in_set (backend_names f) (PStr name) &&
  in_set (backend_groups f) (default (PStr "default") (dget d "group")) &&
  in_set (backend_types f) (default (PStr "") (dget d "type")).

Record ExportResult := { entity_counts : odict string Z; export_data : pyval }.

Section export.
Context {B G : Type} `{!EntityModel B} `{!BackendModel B} `{!EntityModel G} `{!RegistryModel G}.

Definition exported_backends (c : full_config B G) (f : ExportFilter) : odict string pyval :=
  (λ kv, (kv.1, PDict (model_dump kv.2))) <$>
    keep (λ kv, _backend_matches_filter kv.1 (model_dump kv.2) f) (fc_backends c).

Definition has_type (f : ExportFilter) (ty : string) : bool := bool_decide (ty ∈ entity_types f).

Definition export_sections (c : full_config B G) (f : ExportFilter) : odict string pyval :=
  [("version", PStr (fc_version c))] ++
  (if has_type f "backends" then [("backends", PDict (exported_backends c f))] else []) ++
  (if has_type f "registries" then [("registries", PList ((λ g, PDict (model_dump g)) <$> fc_registries c))] else []) ++
  (if has_type f "feature_flags"
   then [("feature_flags", PDict ((λ kv, (kv.1, PBool kv.2)) <$> fc_feature_flags c))] else []) ++
  (if has_type f "plugins" then [("plugins", fc_plugins c)] else []).

Definition export_counts (c : full_config B G) (f : ExportFilter) : odict string Z :=
  (if has_type f "backends" then [("backends", Z.of_nat (length (exported_backends c f)))] else []) ++
  (if has_type f "registries" then [("registries", Z.of_nat (length (fc_registries c)))] else []) ++
  (if has_type f "feature_flags" then [("feature_flags", Z.of_nat (length (fc_feature_flags c)))] else []) ++
  (if has_type f "plugins" then [("plugins", 1)] else []).

Definition export_config (c : full_config B G) (f : option ExportFilter) (h : SecretHandling) : ExportResult :=
  let f := default default_export_filter f in
  let data := PDict (export_sections c f) in
  {| entity_counts := export_counts c f;
     export_data := match h with MASK => _mask_secrets data | STRIP => _strip_secrets data | PRESERVE => data end |}.
End export.

(** ** Import *)

Inductive ConflictStrategy := SKIP | UPDATE | RENAME | FAIL.
Inductive ImportItemStatus := ADDED | UPDATED | SKIPPED | RENAMED | FAILED.
#[export] Instance import_status_eq_dec : EqDecision ImportItemStatus.
Proof. solve_decision. Defined.

Record ImportItemResult := {
  ir_name : string; ir_entity : string; ir_status : ImportItemStatus;
  ir_new_name : option string; ir_error : option string }.
Definition item (name entity : string) (st : ImportItemStatus) : ImportItemResult :=
  {| ir_name := name; ir_entity := entity; ir_status := st; ir_new_name := None; ir_error := None |}.
Definition failed (name entity msg : string) : ImportItemResult :=
  {| ir_name := name; ir_entity := entity; ir_status := FAILED; ir_new_name := None; ir_error := Some msg |}.
Definition renamed (name entity new : string) : ImportItemResult :=
  {| ir_name := name; ir_entity := entity; ir_status := RENAMED; ir_new_name := Some new; ir_error := None |}.

Record ImportResult := { ir_items : list ImportItemResult; ir_errors : list string }.
Definition status_count (st : ImportItemStatus) (r : ImportResult) : nat :=
  length (keep (λ i, bool_decide (ir_status i = st)) (ir_items r)).
Definition import_success (r : ImportResult) : bool :=
  bool_decide (status_count FAILED r = 0%nat) && bool_decide (ir_errors r = []).

Definition candidate (name : string) (i : nat) : string := name +:+ "_" +:+ str_of_int (Z.of_nat i).
(** [None] is the [ImportValidationError] after 999 attempts. *)
Definition _generate_rename (name : string) (existing : gset string) : option string :=
  List.find (λ c, negb (bool_decide (c ∈ existing))) (candidate name <$> seq 1 999).

Definition MAX_IMPORT_BACKENDS : Z := 200.
Definition MAX_IMPORT_REGISTRIES : Z := 50.

Definition MAX_IMPORT_SIZE_BYTES : Z := 5 * 1024 * 1024.

(** [safe_load] is the YAML parser, [None] for its [YAMLError]; a character of
    the model is one byte of the encoding. *)
Definition parse_import_payload (safe_load : string → option pyval) (raw_yaml : string) (max_size_bytes : Z)
  : string + odict string pyval :=
  if strlen raw_yaml >? max_size_bytes then inl "Import payload too large"
  else match safe_load raw_yaml with
       | None => inl "Invalid YAML"
       | Some (PDict data) => inr data
       | Some _ => inl "Import payload must be a YAML mapping"
       end.

Definition _validate_import_limits (payload : odict string pyval) (max_backends max_registries : Z) : list string :=
  (match dget payload "backends" with
   | Some (PDict d) => if Z.of_nat (length d) >? max_backends then ["Too many backends"] else []
   | _ => [] end) ++
  (match dget payload "registries" with
   | Some (PList l) => if Z.of_nat (length l) >? max_registries then ["Too many registries"] else []
   | _ => [] end).

Section import.
Context {B G : Type} `{!EntityModel B} `{!BackendModel B} `{!EntityModel G} `{!RegistryModel G}.

Definition _parse_backend (name : string) (raw : odict string pyval) : string + B :=
  match dget raw "type" with
  | Some (PStr ty) =>
      if bool_decide (ty ∈ ["stdio"; "sse"; "streamable-http"]) then construct raw
      else inl ("Backend '" +:+ name +:+ "': unsupported type '" +:+ ty +:+ "'")
  | _ => inl ("Backend '" +:+ name +:+ "': unsupported type")
  end.

(** The loop's state: the target's table, the names seen, the items so far. *)
Record bstate := { bs_target : odict string B; bs_names : gset string; bs_items : list ImportItemResult }.

Definition put (dry_run : bool) (name : string) (b : B) (t : odict string B) : odict string B :=
  if dry_run then t else dset t name b.

(** One iteration; [None] when the rename gives up. *)
Definition import_backend (strategy : ConflictStrategy) (dry_run : bool) (st : bstate) (kv : string * pyval)
  : option bstate :=
  let '(name, raw_cfg) := kv in
  let note i := {| bs_target := bs_target st; bs_names := bs_names st; bs_items := bs_items st ++ [i] |} in
  match raw_cfg with
  | PDict raw =>
      match _parse_backend name raw with
      | inl e => Some (note (failed name "backend" e))
      | inr validated =>
          if bool_decide (name ∈ bs_names st) then
            match strategy with
            | FAIL => Some (note (failed name "backend" ("Backend '" +:+ name +:+ "' already exists")))
            | SKIP => Some (note (item name "backend" SKIPPED))
            | RENAME =>
                match _generate_rename name (bs_names st) with
                | None => None
                | Some new_name =>
                    Some {| bs_target := put dry_run new_name validated (bs_target st);
                            bs_names := {[new_name]} ∪ bs_names st;
                            bs_items := bs_items st ++ [renamed name "backend" new_name] |}
                end
            | UPDATE =>
                Some {| bs_target := put dry_run name validated (bs_target st); bs_names := bs_names st;
                        bs_items := bs_items st ++ [item name "backend" UPDATED] |}
            end
          else Some {| bs_target := put dry_run name validated (bs_target st);
                       bs_names := {[name]} ∪ bs_names st;
                       bs_items := bs_items st ++ [item name "backend" ADDED] |}
      end
  | _ => Some (note (failed name "backend" "Backend config must be a mapping"))
  end.

Fixpoint fold_opt {S X : Type} (f : S → X → option S) (s : S) (l : list X) : S * bool :=
  match l with
  | [] => (s, true)
  | x :: l' => match f s x with Some s' => fold_opt f s' l' | None => (s, false) end
  end.

(** The state when the loop ends, and whether it ended normally. *)
Definition _import_backends (target : odict string B) (raw : pyval) (strategy : ConflictStrategy) (dry_run : bool)
  : bstate * bool :=
  let init := {| bs_target := target; bs_names := list_to_set (dkeys target); bs_items := [] |} in
  match raw with
  | PDict d => fold_opt (import_backend strategy dry_run) init d
  | _ => (init, true)
  end.

Record gstate := { gs_target : list G; gs_names : gset string; gs_items : list ImportItemResult }.

(** The name of an entry for the report.  A name that is no string is refused
    by both models, also by the one that reports the failure: [None]. *)
Definition entry_name (raw : odict string pyval) (idx : nat) : option string :=
  match dget raw "name" with
  | Some (PStr s) => Some s
  | None => Some ("registry_" +:+ str_of_int (Z.of_nat idx))
  | Some _ => None
  end.

Definition import_registry (strategy : ConflictStrategy) (dry_run : bool) (st : gstate) (ix : nat * pyval)
  : option gstate :=
  let '(idx, raw_reg) := ix in
  let note i := {| gs_target := gs_target st; gs_names := gs_names st; gs_items := gs_items st ++ [i] |} in
  match raw_reg with
  | PDict raw =>
      match entry_name raw idx with
      | None => None
      | Some reg_nm =>
      match construct raw with
      | inl e => Some (note (failed reg_nm "registry" e))
      | inr validated =>
          if bool_decide (reg_nm ∈ gs_names st) then
            match strategy with
            | FAIL => Some (note (failed reg_nm "registry" ("Registry '" +:+ reg_nm +:+ "' already exists")))
            | SKIP => Some (note (item reg_nm "registry" SKIPPED))
            | UPDATE =>
                Some {| gs_target := if dry_run then gs_target st
                          else (λ r, if bool_decide (reg_name r = reg_nm) then validated else r) <$> gs_target st;
                        gs_names := gs_names st; gs_items := gs_items st ++ [item reg_nm "registry" UPDATED] |}
            | RENAME =>
                match _generate_rename reg_nm (gs_names st) with
                | None => None
                | Some new_name =>
                    Some {| gs_target := if dry_run then gs_target st else gs_target st ++ [reg_rename new_name validated];
                            gs_names := {[new_name]} ∪ gs_names st;
                            gs_items := gs_items st ++ [renamed reg_nm "registry" new_name] |}
                end
            end
          else Some {| gs_target := if dry_run then gs_target st else gs_target st ++ [validated];
                       gs_names := {[reg_nm]} ∪ gs_names st;
                       gs_items := gs_items st ++ [item reg_nm "registry" ADDED] |}
      end
      end
  | _ => Some (note (failed ("registry[" +:+ str_of_int (Z.of_nat idx) +:+ "]") "registry" "Registry entry must be a mapping"))
  end.

Definition _import_registries (target : list G) (raw : pyval) (strategy : ConflictStrategy) (dry_run : bool)
  : gstate * bool :=
  let init := {| gs_target := target; gs_names := list_to_set (reg_name <$> target); gs_items := [] |} in
  match raw with
  | PList l => fold_opt (import_registry strategy dry_run) init (imap (λ i x, (i, x)) l)
  | _ => (init, true)
  end.

Record fstate := { fl_target : odict string bool; fl_items : list ImportItemResult }.

Definition import_flag (strategy : ConflictStrategy) (dry_run : bool) (st : fstate) (kv : string * pyval) : fstate :=
  let '(name, value) := kv in
  let note i := {| fl_target := fl_target st; fl_items := fl_items st ++ [i] |} in
  match value with
  | PBool b =>
      let present := dmem (fl_target st) name in
      let store := {| fl_target := if dry_run then fl_target st else dset (fl_target st) name b;
                      fl_items := fl_items st ++ [item name "feature_flag" (if present then UPDATED else ADDED)] |} in
      match strategy with
      | SKIP => if present then note (item name "feature_flag" SKIPPED) else store
      | FAIL => if present then note (failed name "feature_flag" ("Feature flag '" +:+ name +:+ "' already exists")) else store
      | _ => store
      end
  | _ => note (failed name "feature_flag" "Feature flag value must be boolean")
  end.

Definition _import_feature_flags (target : odict string bool) (raw : pyval) (strategy : ConflictStrategy) (dry_run : bool)
  : fstate :=
  let init := {| fl_target := target; fl_items := [] |} in
  match raw with PDict d => foldl (import_flag strategy dry_run) init d | _ => init end.

Definition set_sections (c : full_config B G) (bs : odict string B) (gs : list G) (fl : odict string bool) : full_config B G :=
  {| fc_version := fc_version c; fc_backends := bs; fc_registries := gs; fc_feature_flags := fl; fc_plugins := fc_plugins c |}.

Definition section (entity_types : option (list string)) (payload : odict string pyval) (k : string) : pyval :=
  if bool_decide (k ∈ default ["backends"; "registries"; "feature_flags"; "plugins"] entity_types)
  then default PNone (dget payload k) else PNone.

(** The result ([None] when an exception escapes) and the target
    afterwards, which the sections before an exception have already changed. *)
Definition import_config (target : full_config B G) (payload : odict string pyval) (strategy : ConflictStrategy)
    (dry_run : bool) (entity_types : option (list string)) (max_backends max_registries : Z)
  : option ImportResult * full_config B G :=
  let limit_errors := _validate_import_limits payload max_backends max_registries in
  if negb (bool_decide (limit_errors = [])) then (Some {| ir_items := []; ir_errors := limit_errors |}, target)
  else
    let '(bs, ok1) := _import_backends (fc_backends target) (section entity_types payload "backends") strategy dry_run in
    let t1 := set_sections target (bs_target bs) (fc_registries target) (fc_feature_flags target) in
    if negb ok1 then (None, t1) else
    let '(gs, ok2) := _import_registries (fc_registries target) (section entity_types payload "registries") strategy dry_run in
    let t2 := set_sections t1 (bs_target bs) (gs_target gs) (fc_feature_flags target) in
    if negb ok2 then (None, t2) else
    let fl := _import_feature_flags (fc_feature_flags target) (section entity_types payload "feature_flags") strategy dry_run in
    (Some {| ir_items := bs_items bs ++ gs_items gs ++ fl_items fl; ir_errors := [] |},
     set_sections t2 (bs_target bs) (gs_target gs) (fl_target fl)).
End import.

(** ** Exports carry no secret references *)

Lemma cover_secrets_refs cover v : match_secret cover = None → refs_of (cover_secrets cover v) = [].
Proof.
  intros Hc. induction v as [|b|z|s|l IH|d IH] using pyval_nested_ind; simpl; try done.
  - destruct (match_secret s) eqn:E; simpl; [by rewrite Hc|by rewrite E].
  - induction IH as [|v l Hv _ IHl]; simpl in *; [done|]. by rewrite Hv, IHl.
  - induction IH as [|[k v] d Hv _ IHd]; simpl in *; [done|]. by rewrite Hv, IHd.
Qed.

(** ** Dry runs *)

Section dry_run.
Context {B G : Type} `{!EntityModel B} `{!BackendModel B} `{!EntityModel G} `{!RegistryModel G}.
Implicit Types (strategy : ConflictStrategy).

(** Two folds whose states stay related end the same way. *)
Lemma fold_opt_related {S1 S2 X} (f1 : S1 → X → option S1) (f2 : S2 → X → option S2) (Rel : S1 → S2 → Prop) l s1 s2 :
  (∀ a b x, Rel a b → match f1 a x, f2 b x with
                      | Some a', Some b' => Rel a' b' | None, None => True | _, _ => False end) →
  Rel s1 s2 → Rel (fold_opt f1 s1 l).1 (fold_opt f2 s2 l).1 ∧ (fold_opt f1 s1 l).2 = (fold_opt f2 s2 l).2.
Proof.
  intros Hstep. revert s1 s2. induction l as [|x l IH]; intros s1 s2 HR; simpl; [done|].
  specialize (Hstep s1 s2 x HR). destruct (f1 s1 x), (f2 s2 x); try done. by apply IH.
Qed.

(** A fold preserves what every step preserves. *)
Lemma fold_opt_invariant {S X} (f : S → X → option S) (I : S → Prop) l s :
  (∀ a x a', I a → f a x = Some a' → I a') → I s → I (fold_opt f s l).1.
Proof.
  intros Hstep. revert s. induction l as [|x l IH]; intros s Hs; simpl; [done|].
  destruct (f s x) eqn:E; simpl; eauto.
Qed.

Lemma import_backends_dry (target : odict string B) raw strategy :
  let dry := _import_backends target raw strategy true in
  let real := _import_backends target raw strategy false in
  bs_items dry.1 = bs_items real.1 ∧ dry.2 = real.2 ∧ bs_target dry.1 = target.
Proof.
  unfold _import_backends. destruct raw as [| | | | |d]; simpl; try done.
  assert (bs_target (fold_opt (import_backend strategy true)
    {| bs_target := target; bs_names := list_to_set (dkeys target); bs_items := [] |} d).1 = target) as Ht.
  { apply (fold_opt_invariant _ (λ s, bs_target s = target)); [|done]. intros a [n x] a' Ha E.
    unfold import_backend, put in E. destruct x; try (by simplify_eq/=).
    repeat (case_match; simplify_eq/=); done. }
  destruct (fold_opt_related (import_backend strategy true) (import_backend strategy false)
    (λ a b, bs_names a = bs_names b ∧ bs_items a = bs_items b) d
    {| bs_target := target; bs_names := list_to_set (dkeys target); bs_items := [] |}
    {| bs_target := target; bs_names := list_to_set (dkeys target); bs_items := [] |}) as [[_ Hi] Hok]; [|done|done].
  intros a b [n x] [Hn Hi]. unfold import_backend, put. rewrite Hn, Hi. repeat (case_match; simplify_eq/=); done.
Qed.

Lemma import_registries_dry (target : list G) raw strategy :
  let dry := _import_registries target raw strategy true in
  let real := _import_registries target raw strategy false in
  gs_items dry.1 = gs_items real.1 ∧ dry.2 = real.2 ∧ gs_target dry.1 = target.
Proof.
  unfold _import_registries. destruct raw as [| | | |l|]; simpl; try done.
  set (init := {| gs_target := target; gs_names := list_to_set (reg_name <$> target); gs_items := [] |}).
  assert (gs_target (fold_opt (import_registry strategy true) init (imap (λ i x, (i, x)) l)).1 = target) as Ht.
  { apply (fold_opt_invariant _ (λ s, gs_target s = target)); [|done]. intros a [n x] a' Ha E.
    unfold import_registry in E. destruct x; try (by simplify_eq/=).
    repeat (case_match; simplify_eq/=); done. }
  destruct (fold_opt_related (import_registry strategy true) (import_registry strategy false)
    (λ a b, gs_names a = gs_names b ∧ gs_items a = gs_items b) (imap (λ i x, (i, x)) l) init init) as [[_ Hi] Hok];
    [|done|done].
  intros a b [n x] [Hn Hi]. unfold import_registry. rewrite Hn, Hi. repeat (case_match; simplify_eq/=); done.
Qed.

Lemma import_flags_dry target raw strategy :
  match raw with PDict d => dict_wf d | _ => True end →
  let dry := _import_feature_flags target raw strategy true in
  let real := _import_feature_flags target raw strategy false in
  fl_items dry = fl_items real ∧ fl_target dry = target.
Proof.
  unfold _import_feature_flags. destruct raw as [| | | | |d]; simpl; try done.
  assert (∀ a b, fl_items a = fl_items b → fl_target a = target →
    (∀ k, k ∈ dkeys d → dmem (fl_target a) k = dmem (fl_target b) k) → dict_wf d →
    fl_items (foldl (import_flag strategy true) a d) = fl_items (foldl (import_flag strategy false) b d) ∧
    fl_target (foldl (import_flag strategy true) a d) = target) as H; [|intros Hwf; by apply H].
  unfold dict_wf, dkeys. induction d as [|[k v] d IH]; intros a b Hi Ht Hm Hwf; [done|].
  rewrite fmap_cons in Hwf, Hm. apply NoDup_cons in Hwf as [Hk Hd]. simpl. simpl in Hk, Hm.
  assert (dmem (fl_target a) k = dmem (fl_target b) k) as Hmk by (apply Hm; left).
  assert (∀ k' b', k' ∈ d.*1 → dmem (fl_target a) k' = dmem (dset (fl_target b) k b') k') as Hset.
  { intros k' b' Hk'. rewrite Hm by (by right). unfold dmem. rewrite dget_dset_ne; [done|]. intros ->. done. }
  assert (∀ k', k' ∈ d.*1 → dmem (fl_target a) k' = dmem (fl_target b) k') as Hm' by (intros; apply Hm; by right).
  apply IH; [| | |done]; unfold import_flag; destruct v, strategy; try (rewrite Hmk; case_match); simpl;
    rewrite ?Hi; try done; try (intros; by apply Hset).
Qed.
End dry_run.

(** ** Importing what was exported *)

Section round_trip.
Context {B G : Type} `{!EntityModel B} `{!BackendModel B} `{!EntityModel G} `{!RegistryModel G}.

Lemma parse_dumped name (b : B) : entity_valid b → _parse_backend name (model_dump b) = inr b.
Proof using All.
  intros Hb. unfold _parse_backend. rewrite dump_type, bool_decide_true by apply dump_known. by apply construct_dump.
Qed.

(** Backends with new names are appended. *)
Lemma import_fresh_backends strategy (d : odict string B) st :
  dict_wf d → Forall (λ kv, entity_valid kv.2) d →
  (∀ k, k ∈ dkeys d → (k ∉ bs_names st) ∧ (k ∉ dkeys (bs_target st))) →
  fold_opt (import_backend strategy false) st ((λ kv, (kv.1, PDict (model_dump kv.2))) <$> d) =
    ({| bs_target := bs_target st ++ d; bs_names := list_to_set (dkeys d) ∪ bs_names st;
        bs_items := bs_items st ++ ((λ k, item k "backend" ADDED) <$> dkeys d) |}, true).
Proof using All.
  unfold dict_wf, dkeys. intros Hwf Hv. revert st. induction Hv as [|[k b] d Hb _ IH]; intros st Hk.
  - destruct st. simpl. by rewrite !app_nil_r, union_empty_l_L.
  - rewrite fmap_cons in Hwf, Hk. apply NoDup_cons in Hwf as [Hkd Hd]. rewrite fmap_cons. cbn [fold_opt fst snd].
    destruct (Hk k) as [Hk1 Hk2]; [left|]. simpl in Hb, Hkd.
    unfold import_backend at 1. rewrite parse_dumped, bool_decide_false by done. cbn [put].
    rewrite dset_fresh by done. rewrite IH; simpl; [|done|].
    + rewrite <-!app_assoc. simpl. do 2 f_equal. set_solver.
    + intros k' Hk'. destruct (Hk k') as [Ha Hb']; [by right|].
      assert (k' ≠ k) by (intros ->; done). rewrite fmap_app. simpl. set_solver.
Qed.

(** Registries with new names are appended. *)
Lemma import_fresh_registries strategy (l : list G) st i :
  NoDup (reg_name <$> l) → Forall entity_valid l → (∀ g, g ∈ l → reg_name g ∉ gs_names st) →
  fold_opt (import_registry strategy false) st (imap (λ j x, ((i + j)%nat, x)) ((λ g, PDict (model_dump g)) <$> l)) =
    ({| gs_target := gs_target st ++ l; gs_names := list_to_set (reg_name <$> l) ∪ gs_names st;
        gs_items := gs_items st ++ ((λ g, item (reg_name g) "registry" ADDED) <$> l) |}, true).
Proof using All.
  intros Hnd Hv. revert st i. induction Hv as [|g l Hg _ IH]; intros st i Hn.
  - destruct st. simpl. by rewrite !app_nil_r, union_empty_l_L.
  - rewrite fmap_cons in Hnd. apply NoDup_cons in Hnd as [Hgl Hnd]. rewrite fmap_cons. cbn [imap fold_opt].
    unfold import_registry at 1. unfold entry_name; rewrite dump_name, construct_dump, bool_decide_false by (done || (apply Hn; left)).
    replace (imap _ _) with (imap (λ j x, ((S i + j)%nat, x)) ((λ g, PDict (model_dump g)) <$> l))
      by (apply imap_ext; intros j x _; simpl; f_equal; lia).
    rewrite IH; [|done|].
    + simpl. rewrite <-!app_assoc. simpl. do 2 f_equal. set_solver.
    + intros g' Hg'. simpl. assert (reg_name g' ≠ reg_name g).
      { intros E. apply Hgl. rewrite <-E. apply list_elem_of_fmap. eauto. }
      specialize (Hn g' (list_elem_of_further _ _ _ Hg')). set_solver.
Qed.

Lemma import_fresh_flags strategy (d : odict string bool) st :
  dict_wf d → (∀ k, k ∈ dkeys d → k ∉ dkeys (fl_target st)) →
  foldl (import_flag strategy false) st ((λ kv, (kv.1, PBool kv.2)) <$> d) =
    {| fl_target := fl_target st ++ d; fl_items := fl_items st ++ ((λ k, item k "feature_flag" ADDED) <$> dkeys d) |}.
Proof.
  unfold dict_wf, dkeys. revert st. induction d as [|[k b] d IH]; intros st Hwf Hk.
  - destruct st. simpl. by rewrite !app_nil_r.
  - rewrite fmap_cons in Hwf, Hk. apply NoDup_cons in Hwf as [Hkd Hd]. rewrite fmap_cons. cbn [foldl fst snd].
    simpl in Hkd. assert (k ∉ (fl_target st).*1) as Hk' by (apply Hk; left).
    assert (dmem (fl_target st) k = false) as Hm.
    { unfold dmem. apply bool_decide_eq_false. rewrite dget_is_Some. done. }
    assert (import_flag strategy false st (k, PBool b) =
      {| fl_target := fl_target st ++ [(k, b)]; fl_items := fl_items st ++ [item k "feature_flag" ADDED] |}) as ->.
    { unfold import_flag. rewrite Hm, dset_fresh by done. by destruct strategy. }
    rewrite IH; simpl; [by rewrite <-!app_assoc|done|].
    intros k' Hk''. specialize (Hk k'). rewrite fmap_app. simpl. set_solver.
Qed.

(** The sections of an unfiltered export. *)
Definition everything : ExportFilter :=
  {| entity_types := ["backends"; "registries"; "feature_flags"; "plugins"];
     backend_names := None; backend_groups := None; backend_types := None |}.

Lemma export_everything (c : full_config B G) :
  export_data (export_config c (Some everything) PRESERVE) =
  PDict [("version", PStr (fc_version c));
         ("backends", PDict ((λ kv, (kv.1, PDict (model_dump kv.2))) <$> fc_backends c));
         ("registries", PList ((λ g, PDict (model_dump g)) <$> fc_registries c));
         ("feature_flags", PDict ((λ kv, (kv.1, PBool kv.2)) <$> fc_feature_flags c));
         ("plugins", fc_plugins c)].
Proof.
  unfold export_config, export_sections, exported_backends. simpl. do 2 f_equal. f_equal.
  rewrite keep_all; done.
Qed.

(** A configuration without backends, registries and flags. *)
Definition empty_config (version : string) (plugins : pyval) : full_config B G :=
  {| fc_version := version; fc_backends := []; fc_registries := []; fc_feature_flags := []; fc_plugins := plugins |}.

Lemma import_exported (c : full_config B G) version plugins strategy payload :
  dict_wf (fc_backends c) → Forall (λ kv, entity_valid kv.2) (fc_backends c) →
  NoDup (reg_name <$> fc_registries c) → Forall entity_valid (fc_registries c) →
  dict_wf (fc_feature_flags c) →
  Z.of_nat (length (fc_backends c)) <= MAX_IMPORT_BACKENDS →
  Z.of_nat (length (fc_registries c)) <= MAX_IMPORT_REGISTRIES →
  export_data (export_config c (Some everything) PRESERVE) = PDict payload →
  import_config (empty_config version plugins) payload strategy false None MAX_IMPORT_BACKENDS MAX_IMPORT_REGISTRIES =
    (Some {| ir_items := ((λ k, item k "backend" ADDED) <$> dkeys (fc_backends c)) ++
                         ((λ g, item (reg_name g) "registry" ADDED) <$> fc_registries c) ++
                         ((λ k, item k "feature_flag" ADDED) <$> dkeys (fc_feature_flags c));
             ir_errors := [] |},
     set_sections (empty_config version plugins) (fc_backends c) (fc_registries c) (fc_feature_flags c)).
Proof using All.
  intros H1 H2 H3 H4 H5 H6 H7. rewrite export_everything. intros [= <-].
  unfold import_config. unfold _validate_import_limits, section. cbn [dget default].
  repeat first [rewrite decide_True by done|rewrite decide_False by done]. rewrite !length_fmap.
  replace (_ >? MAX_IMPORT_BACKENDS) with false by (symmetry; rewrite Z.gtb_ltb; apply Z.ltb_ge; lia).
  replace (_ >? MAX_IMPORT_REGISTRIES) with false by (symmetry; rewrite Z.gtb_ltb; apply Z.ltb_ge; lia).
  rewrite !bool_decide_true by by_decide. cbn [app negb from_option default].
  unfold id. unfold _import_backends.
  rewrite import_fresh_backends by (done || set_solver). cbn [negb].
  unfold _import_registries.
  pose proof (import_fresh_registries strategy (fc_registries c)
    {| gs_target := []; gs_names := ∅; gs_items := [] |} 0 H3 H4) as Hr.
  cbn [fc_registries empty_config fmap list_fmap list_to_set]. cbn [Nat.add] in Hr.
  rewrite Hr by set_solver. cbn [negb]. unfold _import_feature_flags.
  rewrite import_fresh_flags by (done || set_solver). done.
Qed.
End round_trip.

Section claims.
Context {B G : Type} `{!EntityModel B} `{!BackendModel B} `{!EntityModel G} `{!RegistryModel G}.


(** Dry runs.  Importing a payload as a dry run reports exactly the items
    and errors that the real import reports, under every conflict strategy and
    selection of sections, and leaves the target unchanged. *)
Theorem import_dry_run_equivalent (target : full_config B G) (payload : odict string pyval)
    (strategy : ConflictStrategy) (types : option (list string)) (max_backends max_registries : Z)
    (Hflags : match section types payload "feature_flags" with PDict d => dict_wf d | _ => True end) :
  let dry := import_config target payload strategy true types max_backends max_registries in
  let real := import_config target payload strategy false types max_backends max_registries in
  dry.1 = real.1 ∧ dry.2 = target.
Proof using All.
  unfold import_config. destruct (negb _); [done|].
  destruct (import_backends_dry (fc_backends target) (section types payload "backends") strategy) as (E1 & E2 & E3).
  destruct (import_registries_dry (fc_registries target) (section types payload "registries") strategy) as (E4 & E5 & E6).
  destruct (import_flags_dry (fc_feature_flags target) (section types payload "feature_flags") strategy Hflags) as [E7 E8].
  destruct (_import_backends _ _ strategy true) as [b1 o1], (_import_backends _ _ strategy false) as [b2 o2].
  destruct (_import_registries _ _ strategy true) as [g1 p1], (_import_registries _ _ strategy false) as [g2 p2].
  simpl in *. rewrite E3, E6, E8, <-E1, <-E2, <-E4, <-E5, <-E7.
  destruct o1, p1; simpl; (split; [done|by destruct target]).
Qed.

(** Outside the update strategy an import never changes a backend that the
    target already has. *)
Lemma import_keeps_backends (target : odict string B) raw strategy dry_run name b :
  strategy ≠ UPDATE → dget target name = Some b →
  dget (bs_target (_import_backends target raw strategy dry_run).1) name = Some b.
Proof.
  intros Hs Hb. unfold _import_backends. destruct raw as [| | | | |d]; try done.
  assert (let st := (fold_opt (import_backend strategy dry_run)
    {| bs_target := target; bs_names := list_to_set (dkeys target); bs_items := [] |} d).1 in
    dget (bs_target st) name = Some b ∧ name ∈ bs_names st) as [H _]; [|done].
  apply (fold_opt_invariant _ (λ st, dget (bs_target st) name = Some b ∧ name ∈ bs_names st)).
  - intros st [n x] st' [Hg Hn] E. unfold import_backend, put in E. destruct x; try (by simplify_eq/=).
    destruct (_parse_backend n d0); [by simplify_eq/=|]. case_bool_decide as Hin.
    + destruct strategy; try (by simplify_eq/=). destruct (_generate_rename n (bs_names st)) as [new|] eqn:Er; [|done].
      apply find_first in Er as (_ & _ & _ & Hnew & _). apply negb_true_iff, bool_decide_eq_false in Hnew.
      simplify_eq/=. destruct dry_run; [set_solver|]. rewrite dget_dset_ne by (intros ->; done). set_solver.
    + simplify_eq/=. destruct dry_run; [set_solver|]. rewrite dget_dset_ne by (intros ->; done). set_solver.
  - simpl. split; [done|]. apply elem_of_list_to_set, dget_is_Some. eauto.
Qed.
End claims.

(** ** Small models for the witnesses: an SSE backend and a registry *)

Record small_backend := { small_url : string }.
Record small_registry := { small_name : string; small_base : string }.

#[export, refine] Instance small_backend_model : EntityModel small_backend := {|
  model_dump b := [("type", PStr "sse"); ("url", PStr (small_url b))];
  construct d := match dget d "url" with
                 | Some (PStr u) => if bool_decide (u = "") then inl "url: at least 1 character" else inr {| small_url := u |}
                 | _ => inl "url: field required" end;
  entity_valid b := small_url b ≠ "" |}.
Proof. intros [u] Hu. simpl in *. by rewrite bool_decide_false. Defined.
#[export, refine] Instance small_backend_backend : BackendModel small_backend := {| backend_type _ := "sse" |}.
Proof. all: done || (intros; set_solver). Defined.

#[export, refine] Instance small_registry_model : EntityModel small_registry := {|
  model_dump g := [("name", PStr (small_name g)); ("url", PStr (small_base g))];
  construct d := match dget d "name", dget d "url" with
                 | Some (PStr n), Some (PStr u) => inr {| small_name := n; small_base := u |}
                 | _, _ => inl "field required" end;
  entity_valid _ := True |}.
Proof. by intros [n u]. Defined.
#[export, refine] Instance small_registry_registry : RegistryModel small_registry := {|
  reg_name := small_name; reg_rename n g := {| small_name := n; small_base := small_base g |} |}.
Proof. all: done. Defined.

Definition small_config : full_config small_backend small_registry := {|
  fc_version := "1";
  fc_backends := [("a", {| small_url := "http://a" |}); ("b", {| small_url := "http://b" |})];
  fc_registries := [{| small_name := "r"; small_base := "https://r" |}];
  fc_feature_flags := [("optimizer", true)]; fc_plugins := PDict [("enabled", PBool true)] |}.


Lemma import_dry_run_equivalent_witness :
  let payload := [("backends", PDict [("a", PDict [("type", PStr "sse"); ("url", PStr "http://x")]); ("c", PInt 3)]);
                  ("feature_flags", PDict [("hot_reload", PBool false)])] in
  let dry := import_config small_config payload RENAME true None 200 50 in
  let real := import_config small_config payload RENAME false None 200 50 in
  dry.1 = real.1 ∧ dry.2 = small_config ∧
  dkeys (fc_backends real.2) = ["a"; "b"; "a_1"].
Proof.
  intros payload dry real.
  destruct (import_dry_run_equivalent small_config payload RENAME None 200 50 ltac:(simpl; by_decide)) as [E1 E2].
  split_and!; [exact E1|exact E2|vm_compute; reflexivity].
Defined.
