(* ===== verification/ClientGen.v ===== *)
(** * Client configurations (config/client_gen.py)

    The JSON snippets that point the supported MCP clients at the gateway. *)
From S2P Require Import Prelude PyDict PyStr Json.

Definition SUPPORTED_CLIENTS : list string := ["claude-desktop"; "cursor"; "vscode"; "claude-code"].

Definition _build_url (host : string) (port : Z) (transport : string) : string :=
  let base := "http://" +:+ host +:+ ":" +:+ str_of_int port in
  if bool_decide (transport = "sse") then base +:+ "/sse" else base +:+ "/mcp".

Definition transport_name (transport : string) : string :=
  if bool_decide (transport = "sse") then "sse" else "streamable-http".

Definition _claude_desktop (url name transport : string) : pyval :=
  PDict [("mcpServers", PDict [(name, PDict [("transport", PStr (transport_name transport)); ("url", PStr url)])])].
Definition _cursor (url name transport : string) : pyval :=
  PDict [("mcpServers", PDict [(name, PDict [("url", PStr url)])])].
Definition _vscode (url name transport : string) : pyval :=
  PDict [("mcp", PDict [("servers", PDict [(name, PDict [("type", PStr (transport_name transport)); ("url", PStr url)])])])].
Definition _claude_code (url name transport : string) : pyval :=
  PDict [("mcpServers", PDict [(name, PDict [("type", PStr (transport_name transport)); ("url", PStr url)])])].

Definition _GENERATORS : odict string (string → string → string → pyval) :=
  [("claude-desktop", _claude_desktop); ("cursor", _cursor); ("vscode", _vscode); ("claude-code", _claude_code)].

(** [None] is the [KeyError] of an unknown client. *)
Definition generate_client_config (client host : string) (port : Z) (transport server_name : string) : option string :=
  match dget _GENERATORS client with
  | Some gen => Some (dumps (Some 2%nat) (gen (_build_url host port transport) server_name transport))
  | None => None
  end.

(** Where a client looks for the entry of a server. *)
Definition servers_path (client : string) : list string :=
  if bool_decide (client = "vscode") then ["mcp"; "servers"] else ["mcpServers"].
Definition follow (v : pyval) (path : list string) : option pyval :=
  foldl (λ v k, match v with Some (PDict d) => dget d k | _ => None end) (Some v) path.

Lemma wf_entry k v : pv_wf v → pv_wf (PDict [(k, v)]).
Proof. intros H. constructor; [apply NoDup_singleton|by repeat constructor]. Qed.
Lemma wf_entries k1 v1 k2 v2 : k1 ≠ k2 → pv_wf v1 → pv_wf v2 → pv_wf (PDict [(k1, v1); (k2, v2)]).
Proof.
  intros Hk H1 H2. constructor; [|by repeat constructor].
  apply NoDup_cons. split; [simpl; set_solver|apply NoDup_singleton].
Qed.

(** Every supported client finds, in the text it is given, an entry with the
    name and the address of the gateway. *)
Lemma client_config_points_here client host port transport name :
  client ∈ SUPPORTED_CLIENTS →
  ∃ txt v d, generate_client_config client host port transport name = Some txt ∧ loads txt = Some v ∧
    follow v (servers_path client ++ [name]) = Some (PDict d) ∧
    dget d "url" = Some (PStr (_build_url host port transport)).
Proof.
  intros Hc. unfold generate_client_config. rewrite !list_elem_of_In in Hc. simpl in Hc.
  destruct Hc as [<-|[<-|[<-|[<-|[]]]]]; eexists _, _, _; (split; [reflexivity|]);
    (split; [apply loads_dumps; repeat first [apply wf_entry | apply wf_entries; [done|..] | apply wf_str]|]);
    match goal with |- context [servers_path ?c] =>
      let p := eval vm_compute in (servers_path c) in change (servers_path c) with p end;
    unfold follow, _claude_desktop, _cursor, _vscode, _claude_code; cbn [app foldl];
    (split; [repeat (cbn [dget]; first [rewrite decide_True by done | rewrite decide_False by done]); reflexivity
            |repeat (cbn [dget]; first [rewrite decide_True by done | rewrite decide_False by done]); done]).
Qed.
