(* ===== verification/Conflict.v ===== *)
(** * Conflict resolution strategies (bridge/conflict.py)

    The abstract base class [ConflictStrategy] is the type class [Strategy];
    its four implementations are instances, and [strategy] packs them the way
    [create_strategy] returns them. *)
From S2P Require Import Prelude PyDict Glob.

(** The result of conflict resolution, [ConflictAction]. *)
Inductive ConflictAction :=
  | SKIP
  | REPLACE
  | ERROR
  | RENAME (new_name : string).

(** [CapabilityConflictError(cap_name, svr1_name, svr2_name)] *)
Record CapabilityConflictError := {
  cap_name : string; svr1_name : string; svr2_name : string }.

Class Strategy (T : Type) := {
  transform_name : T → string → string → string;
  handle_conflict : T → string → string → string → CapabilityConflictError + ConflictAction
}.

Record FirstWinsStrategy := { }.
Record PrefixStrategy := { prefix_separator : string }.
Record PriorityStrategy := { order : list string; separator : string }.
Record ErrorStrategy := { }.

#[export] Instance first_wins : Strategy FirstWinsStrategy := {|
  transform_name _ server_name original_name := original_name;
  handle_conflict _ exposed_name existing_server new_server := inr SKIP
|}.

#[export] Instance prefix_strategy : Strategy PrefixStrategy := {|
  transform_name p server_name original_name :=
    server_name +:+ prefix_separator p +:+ original_name;
  handle_conflict _ exposed_name existing_server new_server := inr SKIP
|}.

(** [{name: idx for idx, name in enumerate(order)}]: a repeated name keeps
    its last index. *)
Fixpoint enumerate_from {A} (i : Z) (l : list A) : list (Z * A) :=
  match l with [] => [] | x :: l' => (i, x) :: enumerate_from (i + 1) l' end.

Definition priority_table (order : list string) : odict string Z :=
  foldl (λ d '(idx, name), dset d name idx) [] (enumerate_from 0 order).

Definition _get_priority (p : PriorityStrategy) (server_name : string) : Z :=
  default (Z.of_nat (length (order p))) (dget (priority_table (order p)) server_name).

#[export] Instance priority_strategy : Strategy PriorityStrategy := {|
  transform_name _ server_name original_name := original_name;
  handle_conflict p exposed_name existing_server new_server :=
    let existing_pri := _get_priority p existing_server in
    let new_pri := _get_priority p new_server in
    if new_pri <? existing_pri then inr REPLACE
    else inr (RENAME (new_server +:+ separator p +:+ exposed_name))
|}.

#[export] Instance error_strategy : Strategy ErrorStrategy := {|
  transform_name _ server_name original_name := original_name;
  handle_conflict _ exposed_name existing_server new_server :=
    inl {| cap_name := exposed_name; svr1_name := existing_server; svr2_name := new_server |}
|}.

Inductive strategy :=
  | First (s : FirstWinsStrategy)
  | Prefix (s : PrefixStrategy)
  | Priority (s : PriorityStrategy)
  | Error (s : ErrorStrategy).

#[export] Instance any_strategy : Strategy strategy := {|
  transform_name s :=
    match s with
    | First x => transform_name x | Prefix x => transform_name x
    | Priority x => transform_name x | Error x => transform_name x
    end;
  handle_conflict s :=
    match s with
    | First x => handle_conflict x | Prefix x => handle_conflict x
    | Priority x => handle_conflict x | Error x => handle_conflict x
    end
|}.

Inductive StrategyError :=
  | UnknownStrategy (name : string)
  | MissingPriorityOrder.

Definition VALID_STRATEGIES : list string := ["first-wins"; "prefix"; "priority"; "error"].

Definition create_strategy (strat : string) (sep : string) (priority_order : option (list string))
    : StrategyError + strategy :=
  if negb (bool_decide (strat ∈ VALID_STRATEGIES)) then inl (UnknownStrategy strat)
  else if bool_decide (strat = "first-wins") then inr (First Build_FirstWinsStrategy)
  else if bool_decide (strat = "prefix") then inr (Prefix {| prefix_separator := sep |})
  else if bool_decide (strat = "priority") then
    match priority_order with
    | None | Some [] => inl MissingPriorityOrder
    | Some o => inr (Priority {| order := o; separator := sep |})
    end
  else if bool_decide (strat = "error") then inr (Error Build_ErrorStrategy)
  else inr (First Build_FirstWinsStrategy).

(** ** Priorities *)

Lemma enumerate_from_bound {A} i (l : list A) j x :
  (j, x) ∈ enumerate_from i l → i <= j < i + Z.of_nat (length l).
Proof.
  revert i. induction l as [|a l IH]; intros i; simpl; [set_solver|].
  intros [?|Hin]%elem_of_cons; simplify_eq; [lia|]. apply IH in Hin. lia.
Qed.

Lemma priority_table_fold (l : list (Z * string)) (d : odict string Z) name idx :
  dget (foldl (λ d '(i, n), dset d n i) d l) name = Some idx →
  (idx, name) ∈ l ∨ dget d name = Some idx.
Proof.
  revert d. induction l as [|[i n] l IH]; intros d; simpl; [by right|].
  intros [Hin|H]%IH; [left; set_solver|]. rewrite dget_dset in H.
  case_decide; simplify_eq; [left; set_solver|by right].
Qed.

(** A priority lies between 0 and the length of the order; only a server the
    order does not list has the length. *)
Lemma get_priority_bound p s : 0 <= _get_priority p s <= Z.of_nat (length (order p)).
Proof.
  unfold _get_priority. destruct (dget _ s) as [i|] eqn:E; simpl; [|lia].
  unfold priority_table in E. apply priority_table_fold in E as [E|E]; [|done].
  apply enumerate_from_bound in E. lia.
Qed.

(** ** Prefixed names *)

(** [a] is not a character of [s]. *)
Definition fresh_char (a : Ascii.ascii) (s : string) : Prop := a ∉ list_ascii_of_string s.
#[export] Instance fresh_char_dec a s : Decision (fresh_char a s).
Proof. unfold fresh_char. apply _. Defined.

Lemma fresh_app_inj (a : Ascii.ascii) (l1 l2 r1 r2 : list Ascii.ascii) :
  a ∉ l1 → a ∉ l2 → l1 ++ a :: r1 = l2 ++ a :: r2 → l1 = l2 ∧ r1 = r2.
Proof.
  revert l2. induction l1 as [|x l1 IH]; intros [|y l2] H1 H2 H; simplify_eq/=.
  - done.
  - set_solver.
  - set_solver.
  - destruct (IH l2) as [-> ->]; [set_solver|set_solver|done|done].
Qed.

Lemma prefix_transform_inj a rest p s1 s2 c1 c2 :
  prefix_separator p = String a rest →
  fresh_char a s1 → fresh_char a s2 →
  transform_name p s1 c1 = transform_name p s2 c2 → s1 = s2 ∧ c1 = c2.
Proof.
  intros Hsep H1 H2 H. simpl in H. rewrite Hsep in H.
  apply (f_equal list_ascii_of_string) in H. rewrite !list_ascii_app in H. simpl in H.
  apply fresh_app_inj in H as [Hs Hr]; [|done|done].
  apply app_inv_head in Hr.
  split; by apply string_ascii_inj.
Qed.
