(* ===== verification/Filter.v ===== *)
(** * Capability filters and renames (bridge/filter.py, bridge/rename.py)

    [CapabilityFilter] holds the allow and deny glob patterns of one backend
    and capability type; [RenameMap] holds the per-tool overrides. *)
From S2P Require Import Prelude PyDict Glob.

(** ** CapabilityFilter *)

Record CapabilityFilter := { allow : list string; deny : list string }.

(** [CapabilityFilter(allow, deny)]: [None] becomes the empty list. *)
Definition build_filter (allow deny : option (list string)) : CapabilityFilter :=
  {| allow := default [] allow; deny := default [] deny |}.

Definition filter_is_active (f : CapabilityFilter) : bool :=
  negb (bool_decide (allow f = [])) || negb (bool_decide (deny f = [])).

Definition is_allowed (f : CapabilityFilter) (name : string) : bool :=
  if negb (bool_decide (deny f = [])) && existsb (fnmatch name) (deny f) then false
  else if negb (bool_decide (allow f = [])) then existsb (fnmatch name) (allow f)
  else true.

(** ** RenameMap *)

Record override := { ov_name : option string; ov_description : option string }.

(** [_overrides] with the pre-computed [_forward] lookup. *)
Record RenameMap := { _overrides : odict string override; _forward : odict string string }.

Definition build_rename_map (overrides : option (odict string override)) : RenameMap :=
  let ovs := default [] overrides in
  {| _overrides := ovs;
     _forward := foldl (λ d '(orig, cfg),
       match ov_name cfg with Some new_name => dset d orig new_name | None => d end) [] ovs |}.

Definition get_new_name (r : RenameMap) (original_name : string) : string :=
  default original_name (dget (_forward r) original_name).

Definition get_description_override (r : RenameMap) (original_name : string) : option string :=
  cfg ← dget (_overrides r) original_name; ov_description cfg.

Definition has_override (r : RenameMap) (original_name : string) : bool :=
  dmem (_overrides r) original_name.

(** ** Properties *)

(** The decision table of the class documentation, over pattern denotations. *)
Lemma is_allowed_spec f name :
  is_allowed f name = true ↔
  (∀ pat, pat ∈ deny f → fnmatch name pat = false) ∧
  (allow f = [] ∨ ∃ pat, pat ∈ allow f ∧ fnmatch name pat = true).
Proof.
  unfold is_allowed.
  assert (existsb (fnmatch name) (deny f) = false ↔ ∀ pat, pat ∈ deny f → fnmatch name pat = false) as Hd.
  { rewrite <-not_true_iff_false, existsb_elem_of. split.
    - intros H pat Hpat. apply not_true_iff_false. eauto.
    - intros H (pat & Hpat & Hm). rewrite H in Hm; done. }
  rewrite <-Hd, <-existsb_elem_of. clear Hd.
  destruct (bool_decide (allow f = [])) eqn:Ea, (bool_decide (deny f = [])) eqn:Ed,
    (existsb (fnmatch name) (deny f)) eqn:E1, (existsb (fnmatch name) (allow f)) eqn:E2;
    reflect_bools; simpl; rewrite ?Ea, ?Ed in *; simpl in *; intuition congruence.
Qed.

Lemma deny_wins f name pat :
  pat ∈ deny f → fnmatch name pat = true → is_allowed f name = false.
Proof.
  intros Hp Hm. apply not_true_iff_false. rewrite is_allowed_spec. intros [H _].
  rewrite H in Hm; done.
Qed.

(** The rename lookup agrees with the overrides it was computed from. *)
Lemma forward_lookup (ovs : odict string override) d n :
  dict_wf ovs →
  dget (foldl (λ d '(orig, cfg),
    match ov_name cfg with Some new_name => dset d orig new_name | None => d end) d ovs) n =
  match dget ovs n ≫= ov_name with Some x => Some x | None => dget d n end.
Proof.
  revert d. induction ovs as [|[o c] ovs IH]; intros d Hwf; simpl; [done|].
  apply NoDup_cons in Hwf as [Ho Hwf]. rewrite IH by done.
  destruct (decide (o = n)) as [->|Hne].
  - replace (dget ovs n) with (None : option override); simpl.
    + destruct (ov_name c); [by rewrite dget_dset_eq|done].
    + symmetry. by apply dget_None.
  - destruct (dget ovs n ≫= ov_name); [done|].
    destruct (ov_name c); [by rewrite dget_dset_ne|done].
Qed.

Lemma get_new_name_spec ovs n :
  dict_wf ovs →
  get_new_name (build_rename_map (Some ovs)) n = default n (dget ovs n ≫= ov_name).
Proof.
  intros H. unfold get_new_name, build_rename_map. simpl. rewrite forward_lookup by done.
  by destruct (dget ovs n ≫= ov_name).
Qed.
