(* ===== verification/Registry.v ===== *)
(** * Capability registry (bridge/capability_registry.py)

    Discovery, registration and routing of the capabilities that the backends
    advertise.  Each discovery task awaits one [list_*] call and then runs its
    registration loop without awaiting again, so the event loop interleaves
    whole tasks: a run of [discover_and_register] is a completion order, a
    permutation of the task list. *)
From S2P Require Import Prelude PyDict Glob Conflict Filter.

(** An MCP [Tool], [Resource] or [Prompt]: the fields the registry reads, and
    the rest of the object. *)
Record cap_item := { ci_name : string; ci_description : option string; ci_rest : pyval }.

(** [item.model_copy(update={"name": n})] *)
Definition with_name (n : string) (i : cap_item) : cap_item :=
  {| ci_name := n; ci_description := ci_description i; ci_rest := ci_rest i |}.
Definition with_description (d : string) (i : cap_item) : cap_item :=
  {| ci_name := ci_name i; ci_description := Some d; ci_rest := ci_rest i |}.

Inductive cap_type := Tools | Resources | Prompts.
#[export] Instance cap_type_eq_dec : EqDecision cap_type.
Proof. solve_decision. Defined.

Definition cap_type_name (ct : cap_type) : string :=
  match ct with Tools => "tools" | Resources => "resources" | Prompts => "prompts" end.

(** An element of a list result: of the expected class or not. *)
Inductive raw_item := RawItem (i : cap_item) | RawOther.

(** What a [list_*] call returned, or how it failed. *)
Inductive list_result :=
  | RAttr (items : list raw_item)
  | RList (items : list raw_item)
  | RNone
  | RUnknown.
Inductive fetch := FTimeout | FMcpError | FError | FResult (r : list_result).

(** Configuration of the registry, fixed at construction. *)
Record reg_conf := {
  _strategy : strategy;
  _filters : odict string (odict string CapabilityFilter);
  _rename_maps : odict string RenameMap;
  _cap_fetch_timeouts : odict string Z }.

(** The mutable state of the registry. *)
Record registry := {
  _tools : list cap_item;
  _resources : list cap_item;
  _prompts : list cap_item;
  _route_map : gmap string (string * string) }.

Definition empty_registry : registry :=
  {| _tools := []; _resources := []; _prompts := []; _route_map := ∅ |}.

Definition get_list (ct : cap_type) (r : registry) : list cap_item :=
  match ct with Tools => _tools r | Resources => _resources r | Prompts => _prompts r end.

Definition set_list (ct : cap_type) (l : list cap_item) (r : registry) : registry :=
  match ct with
  | Tools => {| _tools := l; _resources := _resources r; _prompts := _prompts r; _route_map := _route_map r |}
  | Resources => {| _tools := _tools r; _resources := l; _prompts := _prompts r; _route_map := _route_map r |}
  | Prompts => {| _tools := _tools r; _resources := _resources r; _prompts := l; _route_map := _route_map r |}
  end.

Definition set_routes (m : gmap string (string * string)) (r : registry) : registry :=
  {| _tools := _tools r; _resources := _resources r; _prompts := _prompts r; _route_map := m |}.

Definition _parse_list_result (r : list_result) : list raw_item :=
  match r with
  | RAttr items => items
  | RList items => items
  | RNone => []
  | RUnknown => []
  end.

(** [None] when filtered out, else the original name and the renamed item. *)
Definition _apply_filter_and_rename (conf : reg_conf) (svr_name : string) (ct : cap_type)
    (item : cap_item) : option (string * cap_item) :=
  let svr_filters := default [] (dget (_filters conf) svr_name) in
  let cap_filter := dget svr_filters (cap_type_name ct) in
  if match cap_filter with Some f => negb (is_allowed f (ci_name item)) | None => false end
  then None
  else
    let orig_name := ci_name item in
    match dget (_rename_maps conf) svr_name with
    | Some rename_map =>
        if bool_decide (ct = Tools) then
          let new_name := get_new_name rename_map (ci_name item) in
          let desc_override := get_description_override rename_map (ci_name item) in
          let item1 := if bool_decide (new_name = ci_name item) then item else with_name new_name item in
          let item2 := match desc_override with Some d => with_description d item1 | None => item1 end in
          Some (orig_name, item2)
        else Some (orig_name, item)
    | None => Some (orig_name, item)
    end.

(** [agg_list[:] = [item for item in agg_list if item.name != n]; del route_map[n]] *)
Definition drop_name (ct : cap_type) (n : string) (r : registry) : registry :=
  set_routes (delete n (_route_map r))
    (set_list ct (keep (λ i, negb (bool_decide (ci_name i = n))) (get_list ct r)) r).

Definition _resolve_conflict (conf : reg_conf) (svr_name : string) (ct : cap_type)
    (exp_cap_name : string) (r : registry)
    : (CapabilityConflictError + option string) * registry :=
  match _route_map r !! exp_cap_name with
  | None => (inr (Some exp_cap_name), r)
  | Some (exist_svr_name, _) =>
      if bool_decide (exist_svr_name = svr_name) then (inr None, r)
      else
        match handle_conflict (_strategy conf) exp_cap_name exist_svr_name svr_name with
        | inl err => (inl err, r)
        | inr SKIP => (inr None, r)
        | inr REPLACE => (inr (Some exp_cap_name), drop_name ct exp_cap_name r)
        | inr (RENAME new_name) =>
            match _route_map r !! new_name with
            | Some _ => (inr None, r)
            | None => (inr (Some new_name), r)
            end
        | inr ERROR => (inr None, r)
        end
  end.

(** [agg_list.append(item); route_map[item.name] = route] *)
Definition add_item (ct : cap_type) (i : cap_item) (route : string * string) (r : registry) : registry :=
  set_routes (<[ci_name i := route]> (_route_map r)) (set_list ct (get_list ct r ++ [i]) r).

(** One iteration of the registration loop; [Some err] when it raised. *)
Definition register_one (conf : reg_conf) (svr_name : string) (ct : cap_type)
    (raw : raw_item) (r : registry) : option CapabilityConflictError * registry :=
  match raw with
  | RawOther => (None, r)
  | RawItem item =>
      if bool_decide (ci_name item = "") then (None, r)
      else
        match _apply_filter_and_rename conf svr_name ct item with
        | None => (None, r)
        | Some (orig_name, item') =>
            let exp_cap_name := transform_name (_strategy conf) svr_name (ci_name item') in
            match _resolve_conflict conf svr_name ct exp_cap_name r with
            | (inl err, r') => (Some err, r')
            | (inr None, r') => (None, r')
            | (inr (Some resolved_name), r') =>
                let item'' := if bool_decide (resolved_name = ci_name item') then item'
                              else with_name resolved_name item' in
                (None, add_item ct item'' (svr_name, orig_name) r')
            end
        end
  end.

(** The loop; an exception leaves it, and the handler of the task logs it. *)
Fixpoint register_items (conf : reg_conf) (svr_name : string) (ct : cap_type)
    (raws : list raw_item) (r : registry) : registry :=
  match raws with
  | [] => r
  | raw :: rest =>
      match register_one conf svr_name ct raw r with
      | (Some _, r') => r'
      | (None, r') => register_items conf svr_name ct rest r'
      end
  end.

Definition _discover_caps_by_type (conf : reg_conf) (svr_name : string) (ct : cap_type)
    (f : fetch) (r : registry) : registry :=
  match f with
  | FTimeout | FMcpError | FError => r
  | FResult res => register_items conf svr_name ct (_parse_list_result res) r
  end.

(** The answers of a backend to the three [list_*] calls; [None] for a
    session that is not valid. *)
Record answers := { ans_tools : fetch; ans_resources : fetch; ans_prompts : fetch }.

Record task := { t_server : string; t_type : cap_type; t_fetch : fetch }.

Definition discover_tasks (sessions : odict string (option answers)) : list task :=
  sessions ≫= λ '(svr_name, session),
    match session with
    | None => []
    | Some a =>
        [ {| t_server := svr_name; t_type := Tools; t_fetch := ans_tools a |};
          {| t_server := svr_name; t_type := Resources; t_fetch := ans_resources a |};
          {| t_server := svr_name; t_type := Prompts; t_fetch := ans_prompts a |} ]
    end.

Definition run_task (conf : reg_conf) (r : registry) (t : task) : registry :=
  _discover_caps_by_type conf (t_server t) (t_type t) (t_fetch t) r.

Definition run_tasks (conf : reg_conf) (ts : list task) (r : registry) : registry :=
  foldl (run_task conf) r ts.

(** [discover_and_register] under the completion order [completed], a
    permutation of [discover_tasks sessions]: the new lists and route map are
    filled from empty, then the lists are swapped in. *)
Definition discover_and_register (conf : reg_conf) (completed : list task) : registry :=
  run_tasks conf completed empty_registry.

(** What a reader sees while the gather of a rediscovery is pending, after the
    tasks [completed] have finished: [self._route_map] is already the new map,
    the three lists are still the old ones. *)
Definition during_discovery (conf : reg_conf) (completed : list task) (live : registry) : registry :=
  set_routes (_route_map (run_tasks conf completed empty_registry)) live.

Definition resolve_capability (r : registry) (exp_cap_name : string) : option (string * string) :=
  _route_map r !! exp_cap_name.

(** [keys_to_remove] *)
Definition routed_to (svr_name : string) (r : registry) : list string :=
  ((map_to_list (_route_map r)).*1) ≫= λ k,
    match _route_map r !! k with
    | Some (s, _) => if bool_decide (s = svr_name) then [k] else []
    | None => []
    end.

Definition remove_backend (svr_name : string) (r : registry) : Z * registry :=
  let keys_to_remove := routed_to svr_name r in
  let routes := foldl (λ m k, delete k m) (_route_map r) keys_to_remove in
  let purge l := keep (λ i, negb (bool_decide (ci_name i ∈ keys_to_remove))) l in
  let r' := {| _tools := purge (_tools r); _resources := purge (_resources r);
               _prompts := purge (_prompts r); _route_map := routes |} in
  ((Z.of_nat (length (_tools r)) - Z.of_nat (length (_tools r'))) +
   (Z.of_nat (length (_resources r)) - Z.of_nat (length (_resources r'))) +
   (Z.of_nat (length (_prompts r)) - Z.of_nat (length (_prompts r'))), r').

(** Re-discovery of one backend: three awaited calls on the live lists. *)
Definition discover_single_backend (conf : reg_conf) (svr_name : string) (a : answers)
    (r : registry) : registry :=
  let r1 := _discover_caps_by_type conf svr_name Tools (ans_tools a) r in
  let r2 := _discover_caps_by_type conf svr_name Resources (ans_resources a) r1 in
  _discover_caps_by_type conf svr_name Prompts (ans_prompts a) r2.

(** ** Case analysis of one registration *)

Definition names (ct : cap_type) (r : registry) : list string := ci_name <$> get_list ct r.

(** The item is accepted by the filter of its server. *)
Definition passes (conf : reg_conf) (svr : string) (ct : cap_type) (i : cap_item) : Prop :=
  ci_name i ≠ "" ∧ is_Some (_apply_filter_and_rename conf svr ct i).

(** [registered conf svr ct raw r r']: [r'] is [r] with one more capability,
    under a name that was free or that a strictly preferred server takes over. *)
Inductive registered (conf : reg_conf) (svr : string) (ct : cap_type) :
    raw_item → registry → registry → Prop :=
  | registered_free item orig item' n r :
      ci_name item ≠ "" →
      _apply_filter_and_rename conf svr ct item = Some (orig, item') →
      _route_map r !! n = None →
      (n = transform_name (_strategy conf) svr (ci_name item') ∨
       ∃ s o e, _route_map r !! e = Some (s, o) ∧ s ≠ svr ∧
         e = transform_name (_strategy conf) svr (ci_name item') ∧
         handle_conflict (_strategy conf) e s svr = inr (RENAME n)) →
      registered conf svr ct (RawItem item) r (add_item ct (with_name n item') (svr, orig) r)
  | registered_replace item orig item' n s o r :
      ci_name item ≠ "" →
      _apply_filter_and_rename conf svr ct item = Some (orig, item') →
      n = transform_name (_strategy conf) svr (ci_name item') →
      _route_map r !! n = Some (s, o) → s ≠ svr →
      handle_conflict (_strategy conf) n s svr = inr REPLACE →
      registered conf svr ct (RawItem item) r
        (add_item ct (with_name n item') (svr, orig) (drop_name ct n r)).

Lemma with_name_id i : with_name (ci_name i) i = i.
Proof. by destruct i. Qed.

Lemma renamed_name m i : ci_name (if bool_decide (m = ci_name i) then i else with_name m i) = m.
Proof. by case_bool_decide. Qed.

Lemma register_one_cases conf svr ct raw r e r' :
  register_one conf svr ct raw r = (e, r') →
  r' = r ∨ (e = None ∧ registered conf svr ct raw r r').
Proof.
  destruct raw as [item|]; cbn [register_one]; [|intros; simplify_eq; by left].
  case_bool_decide as Hn; [intros; simplify_eq; by left|].
  destruct (_apply_filter_and_rename conf svr ct item) as [[orig item']|] eqn:Hf;
    [|intros; simplify_eq; by left].
  cbv zeta. set (n := transform_name (_strategy conf) svr (ci_name item')).
  assert (∀ m (i : cap_item), (if bool_decide (m = ci_name i) then i else with_name m i) = with_name m i) as Hren.
  { intros m i. case_bool_decide; [subst; by rewrite with_name_id|done]. }
  unfold _resolve_conflict.
  destruct (_route_map r !! n) as [[s o]|] eqn:Hr.
  - case_bool_decide as Hs; [intros; simplify_eq; by left|].
    destruct (handle_conflict (_strategy conf) n s svr) as [err|[| | |m]] eqn:Ha;
      try (intros; simplify_eq; by left).
    + rewrite Hren. intros; simplify_eq. right. split; [done|]. by econstructor.
    + destruct (_route_map r !! m) eqn:Hm; [intros; simplify_eq; by left|].
      rewrite Hren. intros; simplify_eq. right. split; [done|].
      econstructor; eauto. right. by exists s, o, n.
  - rewrite Hren. intros; simplify_eq. right. split; [done|]. econstructor; eauto.
Qed.

(** Every property preserved by a registration is preserved by the loop, by a
    task and by a completion order. *)
Section preserve.
Context (conf : reg_conf) (I : registry → Prop).

Lemma register_items_preserve svr ct raws r :
  (∀ raw r r', raw ∈ raws → I r → registered conf svr ct raw r r' → I r') →
  I r → I (register_items conf svr ct raws r).
Proof.
  revert r. induction raws as [|raw raws IH]; intros r Hp Hr; simpl; [done|].
  destruct (register_one conf svr ct raw r) as [e r'] eqn:E.
  assert (I r') as Hr'.
  { apply register_one_cases in E as [->|[_ HR]]; [done|]. eapply Hp; [|done..]. left. }
  destruct e; [done|]. apply IH; [|done]. intros raw' r1 r2 Hin. apply Hp. by right.
Qed.

Definition task_items (t : task) : list raw_item :=
  match t_fetch t with FResult res => _parse_list_result res | _ => [] end.

Lemma run_task_preserve t r :
  (∀ raw r r', raw ∈ task_items t → I r → registered conf (t_server t) (t_type t) raw r r' → I r') →
  I r → I (run_task conf r t).
Proof.
  unfold run_task, _discover_caps_by_type, task_items. intros Hp Hr.
  destruct (t_fetch t); try done. by apply register_items_preserve.
Qed.

Lemma run_tasks_preserve ts r :
  (∀ t raw r r', t ∈ ts → raw ∈ task_items t → I r →
     registered conf (t_server t) (t_type t) raw r r' → I r') →
  I r → I (run_tasks conf ts r).
Proof.
  unfold run_tasks. revert r. induction ts as [|t ts IH]; intros r Hp Hr; simpl; [done|].
  apply IH.
  - intros t' raw r1 r2 Hin. apply Hp. by right.
  - apply run_task_preserve; [|done]. intros raw r1 r2. apply Hp. left.
Qed.
End preserve.

(** ** Well-formedness: the advertised lists and the route map agree. *)

Record wf (r : registry) : Prop := {
  wf_routed : ∀ ct n, n ∈ names ct r → is_Some (_route_map r !! n);
  wf_listed : ∀ n, is_Some (_route_map r !! n) → ∃ ct, n ∈ names ct r;
  wf_nodup : ∀ ct, NoDup (names ct r) }.

Lemma get_set_list ct ct' l r :
  get_list ct (set_list ct' l r) = if decide (ct = ct') then l else get_list ct r.
Proof. by destruct ct, ct'. Qed.

Lemma get_list_routes ct m r : get_list ct (set_routes m r) = get_list ct r.
Proof. by destruct ct. Qed.

Lemma routes_set_list ct l r : _route_map (set_list ct l r) = _route_map r.
Proof. by destruct ct. Qed.

Lemma names_add ct ct' i route r :
  names ct (add_item ct' i route r) = if decide (ct = ct') then names ct r ++ [ci_name i] else names ct r.
Proof.
  unfold names, add_item. rewrite get_list_routes, get_set_list.
  case_decide; subst; [by rewrite fmap_app|done].
Qed.

Lemma routes_add ct i route r : _route_map (add_item ct i route r) = <[ci_name i := route]> (_route_map r).
Proof. done. Qed.

Lemma routes_drop ct n r : _route_map (drop_name ct n r) = delete n (_route_map r).
Proof. done. Qed.

Lemma elem_names_drop ct ct' n r m :
  m ∈ names ct (drop_name ct' n r) ↔ m ∈ names ct r ∧ (ct = ct' → m ≠ n).
Proof.
  unfold names, drop_name. rewrite get_list_routes, get_set_list. case_decide; subst; [|naive_solver].
  rewrite !list_elem_of_fmap. setoid_rewrite elem_of_keep. split.
  - intros (i & -> & Hi & Hb). reflect_bools. naive_solver.
  - intros [(i & -> & Hi) Hne]. exists i. repeat split; [done|].
    rewrite bool_decide_eq_false_2; auto.
Qed.

Lemma nodup_names_drop ct ct' n r : NoDup (names ct r) → NoDup (names ct (drop_name ct' n r)).
Proof.
  unfold names, drop_name. rewrite get_list_routes, get_set_list. case_decide; subst; [|done].
  apply NoDup_fmap_keep.
Qed.

(** Adding under a name that is free in the routes and in its own list. *)
Lemma wf_add ct i route r :
  (∀ ct n, n ∈ names ct r → n = ci_name i ∨ is_Some (_route_map r !! n)) →
  (∀ n, is_Some (_route_map r !! n) → ∃ ct, n ∈ names ct r) →
  (∀ ct, NoDup (names ct r)) →
  ci_name i ∉ names ct r →
  wf (add_item ct i route r).
Proof.
  intros Ha Hb Hc Hfree. split.
  - intros ct' n. rewrite names_add, routes_add, lookup_insert.
    case_decide; [rewrite elem_of_app, list_elem_of_singleton|]; case_decide; naive_solver.
  - intros n. rewrite routes_add, lookup_insert. case_decide as Hn; subst.
    + intros _. exists ct. rewrite names_add, decide_True by done. set_solver.
    + intros [ct' Hct]%Hb. exists ct'. rewrite names_add. case_decide; set_solver.
  - intros ct'. rewrite names_add. case_decide; subst; [|done].
    apply NoDup_app. repeat split; [done|set_solver|apply NoDup_singleton].
Qed.

Lemma registered_wf conf svr ct raw r r' : registered conf svr ct raw r r' → wf r → wf r'.
Proof.
  destruct 1 as [item orig item' n r _ _ Hfree _|item orig item' n s o r _ _ _ Hr _ _];
    intros [Ha Hb Hc]; apply wf_add; cbn [ci_name with_name].
  - naive_solver.
  - done.
  - done.
  - intros Hin%Ha. rewrite Hfree in Hin. by destruct Hin.
  - intros ct' m [Hm _]%elem_names_drop. rewrite routes_drop, lookup_delete.
    case_decide; [by left|]. right. eauto.
  - intros m. rewrite routes_drop, lookup_delete. case_decide; [by intros []|].
    intros [ct' Hm]%Hb. exists ct'. by apply elem_names_drop.
  - intros ct'. by apply nodup_names_drop.
  - intros [_ H]%elem_names_drop. by apply H.
Qed.

Lemma wf_empty : wf empty_registry.
Proof.
  split.
  - intros [] n; unfold names; simpl; set_solver.
  - intros n [? H]. cbn in H. by rewrite lookup_empty in H.
  - intros []; constructor.
Qed.

Lemma run_tasks_wf conf ts r : wf r → wf (run_tasks conf ts r).
Proof. apply run_tasks_preserve. eauto using registered_wf. Qed.

Lemma discover_caps_wf conf svr ct f r : wf r → wf (_discover_caps_by_type conf svr ct f r).
Proof.
  intros Hr. apply (run_tasks_wf conf [{| t_server := svr; t_type := ct; t_fetch := f |}] r Hr).
Qed.

Lemma discover_single_backend_wf conf svr a r : wf r → wf (discover_single_backend conf svr a r).
Proof. intros. by do 3 apply discover_caps_wf. Qed.
#[export] Hint Resolve wf_empty run_tasks_wf discover_single_backend_wf : argus.

(** ** Strategies that never raise: every item of every task is processed. *)

Section establish.
Context (conf : reg_conf) (ts : list task) (I : registry → Prop)
  (Q : string → cap_type → raw_item → registry → Prop).
Hypothesis step : ∀ t raw r e r',
  t ∈ ts → raw ∈ task_items t → I r →
  register_one conf (t_server t) (t_type t) raw r = (e, r') →
  e = None ∧ I r' ∧ Q (t_server t) (t_type t) raw r' ∧
  (∀ s ct raw', Q s ct raw' r → Q s ct raw' r').

Lemma register_items_establish t raws r :
  t ∈ ts → (∀ raw, raw ∈ raws → raw ∈ task_items t) → I r →
  let r' := register_items conf (t_server t) (t_type t) raws r in
  I r' ∧ (∀ raw, raw ∈ raws → Q (t_server t) (t_type t) raw r') ∧
  (∀ s ct raw', Q s ct raw' r → Q s ct raw' r').
Proof using step.
  intros Ht. revert r. induction raws as [|raw raws IH]; intros r Hin HI; simpl.
  - repeat split; [done|set_solver|done].
  - destruct (register_one conf (t_server t) (t_type t) raw r) as [e r1] eqn:E.
    destruct (step t raw r e r1) as (-> & HI1 & HQ1 & Hm1); [done|set_solver|done|done|].
    destruct (IH r1) as (HI2 & HQ2 & Hm2); [set_solver|done|].
    repeat split; [done| |by auto].
    intros raw' [->|H]%elem_of_cons; auto.
Qed.

Lemma run_tasks_establish ts' r :
  (∀ t, t ∈ ts' → t ∈ ts) → I r →
  let r' := run_tasks conf ts' r in
  I r' ∧ (∀ t raw, t ∈ ts' → raw ∈ task_items t → Q (t_server t) (t_type t) raw r') ∧
  (∀ s ct raw', Q s ct raw' r → Q s ct raw' r').
Proof using step.
  unfold run_tasks. revert r. induction ts' as [|t ts' IH]; intros r Hin HI; simpl.
  - repeat split; [done|set_solver|done].
  - assert (run_task conf r t = register_items conf (t_server t) (t_type t) (task_items t) r) as ->.
    { unfold run_task, _discover_caps_by_type, task_items. by destruct (t_fetch t). }
    destruct (register_items_establish t (task_items t) r) as (HI1 & HQ1 & Hm1);
      [set_solver|done|done|].
    destruct (IH (register_items conf (t_server t) (t_type t) (task_items t) r))
      as (HI2 & HQ2 & Hm2); [set_solver|done|].
    repeat split; [done| |by auto].
    intros t' raw [->|H]%elem_of_cons; auto.
Qed.
End establish.

(** The name under which [svr] asks to expose [item]; [None] when the item is
    unnamed or filtered out. *)
Definition wanted_name (conf : reg_conf) (svr : string) (ct : cap_type) (raw : raw_item) : option string :=
  match raw with
  | RawOther => None
  | RawItem item =>
      if bool_decide (ci_name item = "") then None
      else '(_, item') ← _apply_filter_and_rename conf svr ct item;
           Some (transform_name (_strategy conf) svr (ci_name item'))
  end.

(** *** Priority *)

Definition owner_le (p : PriorityStrategy) (r : registry) (n svr : string) : Prop :=
  ∃ s o, _route_map r !! n = Some (s, o) ∧ _get_priority p s <= _get_priority p svr.

Lemma owner_le_registered p conf svr ct raw r r' n s :
  _strategy conf = Priority p →
  registered conf svr ct raw r r' → owner_le p r n s → owner_le p r' n s.
Proof.
  intros Hp HR (s0 & o0 & Hr & Hle).
  destruct HR as [item orig item' m r _ _ Hfree _|item orig item' m s1 o1 r _ _ _ Hm Hne Ha];
    unfold owner_le; rewrite routes_add, ?routes_drop; cbn [ci_name with_name];
    rewrite lookup_insert; case_decide as Hmn; subst.
  - congruence.
  - by exists s0, o0.
  - rewrite Hp in Ha. simpl in Ha. rewrite Hm in Hr. simplify_eq.
    destruct (_ <? _) eqn:E in Ha; [|done]. reflect_bools. exists svr, orig. split; [done|lia].
  - exists s0, o0. by rewrite lookup_delete_ne.
Qed.

Lemma priority_step p conf svr ct raw r e r' :
  _strategy conf = Priority p →
  register_one conf svr ct raw r = (e, r') →
  e = None ∧ (∀ n, wanted_name conf svr ct raw = Some n → owner_le p r' n svr) ∧
  (∀ n s, owner_le p r n s → owner_le p r' n s).
Proof.
  intros Hp E. split; [|split].
  - destruct raw as [item|]; cbn [register_one] in E; [|by simplify_eq].
    case_bool_decide; [by simplify_eq|].
    destruct (_apply_filter_and_rename _ _ _ _) as [[orig item']|]; [|by simplify_eq].
    unfold _resolve_conflict in E. rewrite Hp in E. simpl in E.
    repeat (case_match; simplify_eq); done.
  - intros n Hw. unfold wanted_name in Hw. destruct raw as [item|]; [|done].
    cbn [register_one] in E. case_bool_decide; [done|].
    destruct (_apply_filter_and_rename conf svr ct item) as [[orig item']|]; [|done].
    apply (inj Some) in Hw. cbv zeta in E. rewrite Hw in E.
    unfold _resolve_conflict in E.
    destruct (_route_map r !! n) as [[s0 o0]|] eqn:Hr.
    + case_bool_decide as Hs; [simplify_eq; exists svr, o0; split; [done|lia]|].
      rewrite Hp in E. simpl in E. destruct (_ <? _) eqn:Elt in E; reflect_bools.
      * simplify_eq. exists svr, orig. split; [|lia].
        rewrite routes_add, renamed_name. by rewrite lookup_insert_eq.
      * exists s0, o0. split; [|lia].
        destruct (_route_map r !! (svr +:+ separator p +:+ n)) eqn:Hm; [by simplify_eq|].
        simplify_eq. rewrite routes_add, renamed_name.
        rewrite lookup_insert_ne; [done|]. intros Heq. rewrite Heq in Hm. congruence.
    + simplify_eq. exists svr, orig. split; [|lia].
      by rewrite routes_add, renamed_name, lookup_insert_eq.
  - intros n s Ho. apply register_one_cases in E as [->|[_ HR]]; [done|].
    eauto using owner_le_registered.
Qed.

(** *** Prefix *)

Definition owned_by_prefix (p : PrefixStrategy) (svrs : list string) (r : registry) : Prop :=
  ∀ n s o, _route_map r !! n = Some (s, o) → s ∈ svrs ∧ ∃ c, n = transform_name p s c.

Lemma prefix_step p a rest conf svr ct raw r e r' svrs :
  _strategy conf = Prefix p → prefix_separator p = String a rest →
  (∀ s, s ∈ svrs → fresh_char a s) → svr ∈ svrs →
  owned_by_prefix p svrs r →
  register_one conf svr ct raw r = (e, r') →
  e = None ∧ owned_by_prefix p svrs r' ∧
  (∀ n, wanted_name conf svr ct raw = Some n → ∃ o, _route_map r' !! n = Some (svr, o)) ∧
  (∀ n x, _route_map r !! n = Some x → _route_map r' !! n = Some x).
Proof.
  intros Hp Hsep Hfresh Hsvr HI E. unfold wanted_name.
  destruct raw as [item|]; cbn [register_one] in E; [|simplify_eq; naive_solver].
  case_bool_decide; [simplify_eq; naive_solver|].
  destruct (_apply_filter_and_rename conf svr ct item) as [[orig item']|];
    [|simplify_eq; naive_solver].
  cbv zeta in E. cbn [mbind option_bind]. set (n := transform_name (_strategy conf) svr (ci_name item')) in *.
  assert (n = transform_name p svr (ci_name item')) as Hn by (unfold n; by rewrite Hp).
  clearbody n.
  unfold _resolve_conflict in E. destruct (_route_map r !! n) as [[s o]|] eqn:Hr.
  - destruct (HI _ _ _ Hr) as (Hs & c & Hc). rewrite Hn in Hc.
    apply (prefix_transform_inj a rest) in Hc as [Hs' _]; [|done|auto..].
    rewrite bool_decide_eq_true_2 in E by done. subst s. simplify_eq.
    split_and!; [done|done| |done]. intros m Hm. injection Hm as <-. eauto.
  - pose proof (renamed_name n item') as Hname. injection E as <- <-. split; [done|]. rewrite routes_add, Hname.
    split; [|split].
    + intros m s o. rewrite routes_add, Hname. destruct (decide (n = m)) as [<-|Hne].
      * rewrite lookup_insert_eq. intros Hx. injection Hx as <- <-. eauto.
      * rewrite lookup_insert_ne by done. apply HI.
    + intros m Hm. injection Hm as <-. exists orig. by rewrite lookup_insert_eq.
    + intros m x Hx. rewrite lookup_insert_ne; [done|congruence].
Qed.

(** ** Removal of a backend *)

Lemma elem_routed_to svr r n : n ∈ routed_to svr r ↔ ∃ o, _route_map r !! n = Some (svr, o).
Proof.
  unfold routed_to. rewrite list_elem_of_bind. split.
  - intros (k & Hk & _). destruct (_route_map r !! k) as [[s o]|] eqn:E; [|set_solver].
    case_bool_decide; [|set_solver]. apply list_elem_of_singleton in Hk. subst. eauto.
  - intros [o E]. exists n. rewrite E, bool_decide_eq_true_2 by done. split; [set_solver|].
    apply list_elem_of_fmap. exists (n, (svr, o)). split; [done|]. by apply elem_of_map_to_list.
Qed.

Lemma lookup_delete_all {V} (m : gmap string V) ks n :
  foldl (λ m k, delete k m) m ks !! n = if decide (n ∈ ks) then None else m !! n.
Proof.
  revert m. induction ks as [|k ks IH]; intros m; cbn [foldl].
  - by rewrite decide_False by apply not_elem_of_nil.
  - rewrite IH. destruct (decide (n ∈ ks)); [by rewrite decide_True by set_solver|].
    destruct (decide (k = n)) as [->|Hne].
    + by rewrite lookup_delete_eq, decide_True by set_solver.
    + by rewrite lookup_delete_ne, decide_False by set_solver.
Qed.

Lemma remove_backend_routes svr r n :
  _route_map (remove_backend svr r).2 !! n =
  match _route_map r !! n with
  | Some (s, o) => if decide (s = svr) then None else Some (s, o)
  | None => None
  end.
Proof.
  unfold remove_backend. cbn [snd _route_map]. rewrite lookup_delete_all.
  destruct (decide (n ∈ routed_to svr r)) as [Hin|Hin]; rewrite elem_routed_to in Hin.
  - destruct Hin as [o ->]. by rewrite decide_True.
  - destruct (_route_map r !! n) as [[s o]|] eqn:E; [|done].
    rewrite decide_False; [done|]. intros ->. eauto.
Qed.

Lemma remove_backend_list svr r ct :
  get_list ct (remove_backend svr r).2 =
  keep (λ i, negb (bool_decide (ci_name i ∈ routed_to svr r))) (get_list ct r).
Proof. by destruct ct. Qed.

Lemma elem_names_remove svr r ct n :
  n ∈ names ct (remove_backend svr r).2 ↔ n ∈ names ct r ∧ n ∉ routed_to svr r.
Proof.
  unfold names. rewrite remove_backend_list, !list_elem_of_fmap. setoid_rewrite elem_of_keep.
  split.
  - intros (i & -> & Hi & Hb). reflect_bools. eauto.
  - intros [(i & -> & Hi) Hne]. exists i. by rewrite bool_decide_eq_false_2.
Qed.

Lemma remove_backend_wf svr r : wf r → wf (remove_backend svr r).2.
Proof.
  intros [Ha Hb Hc]. split.
  - intros ct n [[[s o] E]%Ha Hne]%elem_names_remove. rewrite remove_backend_routes, E.
    rewrite decide_False; [eauto|]. intros ->. apply Hne, elem_routed_to. eauto.
  - intros n. rewrite remove_backend_routes. intros [x Hx].
    destruct (_route_map r !! n) as [[s o]|] eqn:E; [|done].
    destruct (decide (s = svr)); [done|]. destruct (Hb n) as [ct Hct]; [eauto|].
    exists ct. apply elem_names_remove. split; [done|]. rewrite elem_routed_to. intros [o' ?].
    congruence.
  - intros ct. unfold names. rewrite remove_backend_list. by apply NoDup_fmap_keep, Hc.
Qed.
#[export] Hint Resolve remove_backend_wf : argus.

(** ** Histories of a registry *)

Inductive reg_op :=
  | OpDiscover (completed : list task)
  | OpRemove (svr_name : string)
  | OpRediscover (svr_name : string) (a : answers).

Inductive reg_step (conf : reg_conf) : registry → reg_op → registry → Prop :=
  | step_discover completed r : reg_step conf r (OpDiscover completed) (discover_and_register conf completed)
  | step_remove s r : reg_step conf r (OpRemove s) (remove_backend s r).2
  | step_rediscover s a r : reg_step conf r (OpRediscover s a) (discover_single_backend conf s a r).

(** C1: at every point of every history of full discoveries (whatever the order
    in which their tasks complete), health-driven removals and single-backend
    re-discoveries, each finished before the next begins, the advertised lists and the route map agree: an advertised
    capability has a route, a route is advertised, and no list advertises a
    name twice. *)
Theorem registry_consistent conf ops r :
  steps (reg_step conf) empty_registry ops r →
  (∀ ct n, n ∈ names ct r → is_Some (resolve_capability r n)) ∧
  (∀ n, is_Some (resolve_capability r n) → ∃ ct, n ∈ names ct r) ∧
  (∀ ct, NoDup (names ct r)).
Proof.
  intros H. assert (wf r) as [Ha Hb Hc]; [|by repeat split; auto].
  eapply (steps_invariant (reg_step conf) wf); [|exact H|auto with argus].
  destruct 2; unfold discover_and_register; auto with argus.
Qed.

(** A run used by the witnesses: two servers that both offer [search]. *)
Definition tool (n : string) : cap_item :=
  {| ci_name := n; ci_description := None; ci_rest := PNone |}.
Definition tools_task (s : string) (ns : list string) : task :=
  {| t_server := s; t_type := Tools; t_fetch := FResult (RAttr ((λ n, RawItem (tool n)) <$> ns)) |}.
Definition plain_conf (st : strategy) : reg_conf :=
  {| _strategy := st; _filters := []; _rename_maps := []; _cap_fetch_timeouts := [] |}.

Lemma registry_consistent_witness :
  let conf := plain_conf (First Build_FirstWinsStrategy) in
  let r := (remove_backend "a" (discover_and_register conf
              [tools_task "a" ["search"]; tools_task "b" ["search"; "fetch"]])).2 in
  resolve_capability r "search" = None ∧ resolve_capability r "fetch" = Some ("b", "fetch") ∧
  ∀ ct, NoDup (names ct r).
Proof.
  intros conf r. split; [reflexivity|split; [reflexivity|]].
  apply (registry_consistent conf
    [OpDiscover [tools_task "a" ["search"]; tools_task "b" ["search"; "fetch"]]; OpRemove "a"]).
  eapply steps_cons; [constructor|]. eapply steps_cons; [constructor|]. constructor.
Defined.

(** Removing a backend removes exactly the routes that lead to it, and from
    the three lists exactly the entries so routed; every other route and entry
    stays, and the count returned is the number of entries that disappeared. *)
Theorem remove_backend_exact svr r :
  (∀ n, resolve_capability (remove_backend svr r).2 n =
        match resolve_capability r n with
        | Some (s, o) => if decide (s = svr) then None else Some (s, o)
        | None => None
        end) ∧
  (∀ ct n, n ∈ names ct (remove_backend svr r).2 ↔
           n ∈ names ct r ∧ ¬ ∃ o, resolve_capability r n = Some (svr, o)) ∧
  (remove_backend svr r).1 =
    Z.of_nat (length (_tools r) + length (_resources r) + length (_prompts r)) -
    Z.of_nat (length (_tools (remove_backend svr r).2) + length (_resources (remove_backend svr r).2)
              + length (_prompts (remove_backend svr r).2)).
Proof.
  split; [intros n; apply remove_backend_routes|split].
  - intros ct n. by rewrite elem_names_remove, elem_routed_to.
  - unfold remove_backend. cbn [fst snd _tools _resources _prompts]. lia.
Qed.

(** ** Every route is backed by an offer *)

Definition offered (ts : list task) (conf : reg_conf) (s o : string) : Prop :=
  ∃ t item, t ∈ ts ∧ t_server t = s ∧ RawItem item ∈ task_items t ∧
    ci_name item = o ∧ passes conf s (t_type t) item.

Lemma filtered_orig conf svr ct item orig item' :
  _apply_filter_and_rename conf svr ct item = Some (orig, item') → orig = ci_name item.
Proof. unfold _apply_filter_and_rename. intros. repeat case_match; by simplify_eq. Qed.

Lemma registered_backed conf t raw r r' ts :
  t ∈ ts → raw ∈ task_items t →
  registered conf (t_server t) (t_type t) raw r r' →
  (∀ n s o, _route_map r !! n = Some (s, o) → offered ts conf s o) →
  ∀ n s o, _route_map r' !! n = Some (s, o) → offered ts conf s o.
Proof.
  intros Ht Hraw HR HI n s o.
  assert (∀ item orig item', raw = RawItem item → ci_name item ≠ "" →
    _apply_filter_and_rename conf (t_server t) (t_type t) item = Some (orig, item') →
    offered ts conf (t_server t) orig) as Hoff.
  { intros item orig item' -> Hne Hf. exists t, item.
    split_and!; [done..|by rewrite (filtered_orig _ _ _ _ _ _ Hf)|]. split; [done|by rewrite Hf]. }
  destruct HR; rewrite routes_add, ?routes_drop, lookup_insert; case_decide;
    intros E; simplify_eq; eauto.
  rewrite lookup_delete in E. case_decide; [done|eauto].
Qed.

(** C7: a capability can be routed to a server only if a discovery task of that
    very server returned an item of that original name, with a non-empty name,
    that the allow and deny patterns of the server let through; a name the
    filters reject is never routable. *)
Theorem routes_are_offered conf completed n s o :
  resolve_capability (discover_and_register conf completed) n = Some (s, o) →
  ∃ t, t ∈ completed ∧ t_server t = s ∧
    (∃ item, RawItem item ∈ task_items t ∧ ci_name item = o) ∧ o ≠ "" ∧
    (∀ fs f, dget (_filters conf) s = Some fs → dget fs (cap_type_name (t_type t)) = Some f →
       is_allowed f o = true).
Proof.
  intros H. assert (offered completed conf s o) as (t & item & Ht & <- & Hi & <- & Hne & Hp).
  { revert n s o H.
    apply (run_tasks_preserve conf (λ r, ∀ n s o, _route_map r !! n = Some (s, o) → offered completed conf s o)).
    - intros t raw r r' Ht Hraw HI HR. by eapply registered_backed.
    - intros n s o E. cbn in E. by rewrite lookup_empty in E. }
  exists t. split_and!; eauto. intros fs f Hfs Hf. unfold _apply_filter_and_rename in Hp.
  rewrite Hfs in Hp. cbn [default] in Hp. unfold default, from_option, id in Hp. rewrite Hf in Hp.
  destruct (is_allowed f (ci_name item)); [done|]. cbn in Hp. by destruct Hp.
Qed.

Definition filtered_conf : reg_conf :=
  {| _strategy := First Build_FirstWinsStrategy;
     _filters := [("a", [("tools", build_filter None (Some ["delete_*"]))])];
     _rename_maps := [("a", build_rename_map (Some [("search", {| ov_name := Some "find"; ov_description := None |})]))];
     _cap_fetch_timeouts := [] |}.

Lemma routes_are_offered_witness :
  let r := discover_and_register filtered_conf [tools_task "a" ["delete_all"; "search"]] in
  resolve_capability r "delete_all" = None ∧ resolve_capability r "find" = Some ("a", "search") ∧
  ∃ t, t ∈ [tools_task "a" ["delete_all"; "search"]] ∧ t_server t = "a".
Proof.
  intros r. split; [reflexivity|split; [reflexivity|]].
  destruct (routes_are_offered filtered_conf [tools_task "a" ["delete_all"; "search"]] "find" "a" "search")
    as (t & Ht & Hs & _); [reflexivity|]. exists t. split; [exact Ht|exact Hs].
Defined.

(** ** Priority: the best server owns the name *)

(** C2: under the priority strategy, whatever the order in which the discovery
    tasks complete, a name that some server asks to expose ends up routed, and
    its owner is at least as preferred as every server that asked for it. *)
Theorem priority_owner_minimal p conf completed t raw n :
  _strategy conf = Priority p → t ∈ completed → raw ∈ task_items t →
  wanted_name conf (t_server t) (t_type t) raw = Some n →
  ∃ s o, resolve_capability (discover_and_register conf completed) n = Some (s, o) ∧
    _get_priority p s <= _get_priority p (t_server t).
Proof.
  intros Hp Ht Hraw Hw.
  destruct (run_tasks_establish conf completed (λ _, True)
    (λ svr ct raw r, ∀ n, wanted_name conf svr ct raw = Some n → owner_le p r n svr))
    with (ts' := completed) (r := empty_registry) as (_ & HQ & _); [|done|done|].
  - intros t' raw' r e r' _ _ _ E. destruct (priority_step p conf _ _ _ _ _ _ Hp E) as (-> & H1 & H2).
    split_and!; eauto.
  - by apply (HQ t raw).
Qed.

Lemma priority_owner_minimal_witness :
  let p := {| order := ["gold"; "silver"]; separator := "_" |} in
  let conf := plain_conf (Priority p) in
  let ts := [tools_task "bronze" ["search"]; tools_task "silver" ["search"]; tools_task "gold" ["search"]] in
  (∃ s o, resolve_capability (discover_and_register conf ts) "search" = Some (s, o) ∧
          _get_priority p s <= _get_priority p "gold") ∧
  resolve_capability (discover_and_register conf ts) "search" = Some ("gold", "search").
Proof.
  intros p conf ts. split; [|reflexivity].
  apply (priority_owner_minimal p conf ts (tools_task "gold" ["search"]) (RawItem (tool "search")) "search").
  - reflexivity.
  - unfold ts. set_solver.
  - cbn. set_solver.
  - reflexivity.
Defined.

(** ** Prefix: nothing is lost *)



(** Without that restriction the prefix strategy does lose capabilities: the
    servers [a_b] and [a] with the tools [c] and [b_c] meet at the name
    [a_b_c], and whichever task completes first keeps it. *)
Theorem prefix_collision :
  let conf := plain_conf (Prefix {| prefix_separator := "_" |}) in
  let t1 := tools_task "a_b" ["c"] in
  let t2 := tools_task "a" ["b_c"] in
  resolve_capability (discover_and_register conf [t1; t2]) "a_b_c" = Some ("a_b", "c") ∧
  resolve_capability (discover_and_register conf [t2; t1]) "a_b_c" = Some ("a", "b_c").
Proof. split; reflexivity. Qed.

(** ** Error strategy *)

(** The first item of [raws] that raises, and what precedes it. *)
Lemma register_items_error conf svr ct pre raw post r :
  (∀ e r', register_one conf svr ct raw (register_items conf svr ct pre r) = (e, r') → is_Some e) →
  register_items conf svr ct (pre ++ raw :: post) r = register_items conf svr ct (pre ++ [raw]) r.
Proof.
  revert r. induction pre as [|x pre IH]; intros r H; simpl.
  - destruct (register_one conf svr ct raw r) as [e r'] eqn:E.
    destruct (H e r') as [err ->]; [by simpl|done].
  - simpl in H. destruct (register_one conf svr ct x r) as [[err|] r'] eqn:E; [done|by apply IH].
Qed.

(** With the error strategy a conflict does not stop the start-up: the
    exception ends the registration loop of one list, the task still finishes,
    and the result is that of a backend whose list stops before the
    conflicting item. *)
Theorem error_conflict_truncates svr ct pre item post r s o :
  let conf := plain_conf (Error Build_ErrorStrategy) in
  ci_name item ≠ "" →
  resolve_capability (register_items conf svr ct pre r) (ci_name item) = Some (s, o) → s ≠ svr →
  _discover_caps_by_type conf svr ct (FResult (RAttr (pre ++ RawItem item :: post))) r =
  _discover_caps_by_type conf svr ct (FResult (RAttr pre)) r.
Proof.
  intros conf Hne Hr Hs. cbn [_discover_caps_by_type _parse_list_result].
  set (r0 := register_items conf svr ct pre r) in *.
  assert (register_one conf svr ct (RawItem item) r0 =
    (Some {| cap_name := ci_name item; svr1_name := s; svr2_name := svr |}, r0)) as E.
  { cbn [register_one]. rewrite bool_decide_eq_false_2 by done.
    unfold _apply_filter_and_rename, _resolve_conflict; simpl. unfold resolve_capability in Hr.
    rewrite Hr, bool_decide_eq_false_2 by done. done. }
  rewrite register_items_error; [|fold r0; rewrite E; intros; simplify_eq; eauto].
  clear -E. subst r0. clearbody conf. revert r E.
  induction pre as [|x pre IH]; intros r E; simpl in *; [by rewrite E|].
  destruct (register_one conf svr ct x r) as [[err|] r'] eqn:E1; [done|auto].
Qed.

Lemma error_conflict_truncates_witness :
  let conf := plain_conf (Error Build_ErrorStrategy) in
  let r := discover_and_register conf [tools_task "a" ["search"]] in
  _discover_caps_by_type conf "b" Tools
    (FResult (RAttr ([] ++ RawItem (tool "search") :: [RawItem (tool "fetch")]))) r = r.
Proof.
  intros conf r. apply (error_conflict_truncates "b" Tools [] (tool "search") [RawItem (tool "fetch")] r "a" "search").
  - cbn. discriminate.
  - reflexivity.
  - discriminate.
Defined.

(** While a rediscovery waits for its backends, the live route map is
    already the new, still empty one: every advertised tool is listed and none
    can be resolved. *)
Theorem rediscovery_gap conf live ct n :
  n ∈ names ct live →
  n ∈ names ct (during_discovery conf [] live) ∧
  resolve_capability (during_discovery conf [] live) n = None.
Proof.
  intros Hn. split; [|reflexivity]. unfold names, during_discovery in *. by rewrite get_list_routes.
Qed.

Lemma rediscovery_gap_witness :
  let conf := plain_conf (First Build_FirstWinsStrategy) in
  let live := discover_and_register conf [tools_task "a" ["search"]] in
  resolve_capability live "search" = Some ("a", "search") ∧
  resolve_capability (during_discovery conf [] live) "search" = None.
Proof.
  intros conf live. split; [reflexivity|].
  apply (rediscovery_gap conf live Tools "search"). by_decide.
Defined.
