(* ===== verification/Lifecycle.v ===== *)
(** * Lifecycle state machines (runtime/models.py)

    The transition tables of the service and of a backend, and the status
    record whose [transition] method guards the phase of a backend. *)
From S2P Require Import Prelude.

(** ** The service *)

Inductive ServiceState := SPending | SStarting | SRunning | SStopping | SStopped | SError.
#[export] Instance ServiceState_eq_dec : EqDecision ServiceState.
Proof. solve_decision. Defined.

Definition _VALID_TRANSITIONS (current : ServiceState) : list ServiceState :=
  match current with
  | SPending => [SStarting]
  | SStarting => [SRunning; SError]
  | SRunning => [SStopping]
  | SStopping => [SStopped; SError]
  | SStopped => []
  | SError => [SStarting; SStopping]
  end.

Definition is_valid_transition (current target : ServiceState) : bool :=
  bool_decide (target ∈ _VALID_TRANSITIONS current).

(** ** The phase of a backend *)

Inductive BackendPhase :=
  | PENDING | INITIALIZING | RETRYING | READY | DEGRADED | FAILED | SHUTTING_DOWN.
#[export] Instance BackendPhase_eq_dec : EqDecision BackendPhase.
Proof. solve_decision. Defined.

Definition phase_value (p : BackendPhase) : string :=
  match p with
  | PENDING => "pending" | INITIALIZING => "initializing" | RETRYING => "retrying"
  | READY => "ready" | DEGRADED => "degraded" | FAILED => "failed"
  | SHUTTING_DOWN => "shutting_down"
  end.

Definition _BACKEND_TRANSITIONS (current : BackendPhase) : list BackendPhase :=
  match current with
  | PENDING => [INITIALIZING]
  | INITIALIZING => [READY; FAILED]
  | RETRYING => [INITIALIZING; FAILED]
  | READY => [DEGRADED; FAILED; SHUTTING_DOWN]
  | DEGRADED => [READY; FAILED; SHUTTING_DOWN]
  | FAILED => [INITIALIZING; RETRYING; SHUTTING_DOWN]
  | SHUTTING_DOWN => []
  end.

Definition is_valid_backend_transition (current target : BackendPhase) : bool :=
  bool_decide (target ∈ _BACKEND_TRANSITIONS current).

Record BackendCondition := {
  bc_timestamp : Z; bc_type : string; bc_status : string; bc_message : string }.

Record BackendStatusRecord := {
  rec_name : string;
  phase : BackendPhase;
  tool_count : Z;
  resource_count : Z;
  prompt_count : Z;
  last_latency_ms : option Z;
  rec_error : option string;
  conditions : list BackendCondition }.

Definition new_record (name : string) : BackendStatusRecord :=
  {| rec_name := name; phase := PENDING; tool_count := 0; resource_count := 0; prompt_count := 0;
     last_latency_ms := None; rec_error := None; conditions := [] |}.

(** [self.conditions.append(BackendCondition(...))] at time [now] *)
Definition add_condition (now : Z) (cond_type status message : string)
    (r : BackendStatusRecord) : BackendStatusRecord :=
  {| rec_name := rec_name r; phase := phase r; tool_count := tool_count r;
     resource_count := resource_count r; prompt_count := prompt_count r;
     last_latency_ms := last_latency_ms r; rec_error := rec_error r;
     conditions := conditions r ++
       [{| bc_timestamp := now; bc_type := cond_type; bc_status := status; bc_message := message |}] |}.

Definition set_latency (l : Z) (r : BackendStatusRecord) : BackendStatusRecord :=
  {| rec_name := rec_name r; phase := phase r; tool_count := tool_count r;
     resource_count := resource_count r; prompt_count := prompt_count r;
     last_latency_ms := Some l; rec_error := rec_error r; conditions := conditions r |}.

Definition condition_status (p : BackendPhase) : string :=
  if bool_decide (p ∈ [READY]) then "OK"
  else if bool_decide (p ∈ [DEGRADED; INITIALIZING; SHUTTING_DOWN]) then "Warning"
  else "Error".

Inductive TransitionError := InvalidTransition (current target : BackendPhase).

Definition transition (now : Z) (new_phase : BackendPhase) (message : string)
    (r : BackendStatusRecord) : TransitionError + BackendStatusRecord :=
  if negb (is_valid_backend_transition (phase r) new_phase)
  then inl (InvalidTransition (phase r) new_phase)
  else
    let r1 := add_condition now (phase_value new_phase) (condition_status new_phase) message r in
    inr {| rec_name := rec_name r1; phase := new_phase; tool_count := tool_count r1;
           resource_count := resource_count r1; prompt_count := prompt_count r1;
           last_latency_ms := last_latency_ms r1;
           rec_error :=
             if bool_decide (new_phase = FAILED) && negb (bool_decide (message = "")) then Some message
             else if bool_decide (new_phase = READY) then None
             else rec_error r1;
           conditions := conditions r1 |}.

Definition is_operational (r : BackendStatusRecord) : bool :=
  bool_decide (phase r ∈ [READY; DEGRADED]).

(** The last ten conditions, newest first. *)
Definition recent_conditions (r : BackendStatusRecord) : list BackendCondition :=
  reverse (drop (length (conditions r) - 10) (conditions r)).

(** ** Histories of a record *)

Inductive rec_op :=
  | OpTransition (now : Z) (p : BackendPhase) (m : string)
  | OpCondition (now : Z) (t s m : string)
  | OpLatency (l : Z).

(** A call that raises leaves the record as it was. *)
Definition apply_op (r : BackendStatusRecord) (o : rec_op) : BackendStatusRecord :=
  match o with
  | OpTransition now p m => match transition now p m r with inr r' => r' | inl _ => r end
  | OpCondition now t s m => add_condition now t s m r
  | OpLatency l => set_latency l r
  end.

Definition apply_ops (r : BackendStatusRecord) (ops : list rec_op) : BackendStatusRecord :=
  foldl apply_op r ops.

Lemma apply_ops_app r o1 o2 : apply_ops r (o1 ++ o2) = apply_ops (apply_ops r o1) o2.
Proof. apply foldl_app. Qed.

Lemma transition_inv now p m r r' :
  transition now p m r = inr r' →
  p ∈ _BACKEND_TRANSITIONS (phase r) ∧ phase r' = p ∧
  conditions r' = conditions r ++
    [{| bc_timestamp := now; bc_type := phase_value p; bc_status := condition_status p; bc_message := m |}].
Proof.
  unfold transition, is_valid_backend_transition. case_bool_decide; simpl; [|done].
  intros E. injection E as <-. done.
Qed.

(** One operation keeps the phase or moves it along the table, and only
    appends to the condition log. *)
Lemma apply_op_step r o :
  (phase (apply_op r o) = phase r ∨ phase (apply_op r o) ∈ _BACKEND_TRANSITIONS (phase r)) ∧
  conditions r `prefix_of` conditions (apply_op r o).
Proof.
  destruct o as [now p m|now t s m|l]; simpl.
  - destruct (transition now p m r) as [e|r'] eqn:E; [by auto|].
    apply transition_inv in E as (Hp & <- & ->). split; [by right|]. by eexists.
  - split; [by left|]. by eexists.
  - by auto.
Qed.

Lemma apply_ops_log r ops : conditions r `prefix_of` conditions (apply_ops r ops).
Proof.
  revert r. induction ops as [|o ops IH]; intros r; simpl; [done|].
  etrans; [apply apply_op_step|apply IH].
Qed.

Lemma apply_ops_terminal r ops : phase r = SHUTTING_DOWN → phase (apply_ops r ops) = SHUTTING_DOWN.
Proof.
  revert r. induction ops as [|o ops IH]; intros r H; simpl; [done|]. apply IH.
  destruct (apply_op_step r o) as [[->|Hin] _]; [done|]. rewrite H in Hin. simpl in Hin. set_solver.
Qed.

Lemma apply_ops_ready_error r ops :
  (phase r = READY → rec_error r = None) →
  phase (apply_ops r ops) = READY → rec_error (apply_ops r ops) = None.
Proof.
  revert r. induction ops as [|o ops IH]; intros r H; simpl; [done|]. apply IH.
  destruct o as [now p m|now t s m|l]; simpl; [|done|done].
  unfold transition. case_test; [done|]. simpl. intros ->. done.
Qed.

(** Over every history of a backend record that starts fresh: once
    [SHUTTING_DOWN], no later call changes the phase; a [READY] record carries
    no error; the condition log only grows; and the snapshot given to clients
    is the last ten entries, newest first. *)
Theorem status_record_history name ops1 ops2 :
  let r1 := apply_ops (new_record name) ops1 in
  let r2 := apply_ops r1 ops2 in
  (phase r1 = SHUTTING_DOWN → phase r2 = SHUTTING_DOWN) ∧
  (phase r2 = READY → rec_error r2 = None) ∧
  conditions r1 `prefix_of` conditions r2 ∧
  (length (recent_conditions r2) = Nat.min 10 (length (conditions r2)) ∧
   reverse (recent_conditions r2) `suffix_of` conditions r2).
Proof.
  intros r1 r2. split_and!.
  - apply apply_ops_terminal.
  - unfold r2, r1. rewrite <-apply_ops_app. by apply apply_ops_ready_error.
  - apply apply_ops_log.
  - unfold recent_conditions. rewrite length_reverse, length_drop. lia.
  - unfold recent_conditions. rewrite reverse_involutive.
    exists (take (length (conditions r2) - 10) (conditions r2)). by rewrite take_drop.
Qed.
