(* ===== verification/CircuitBreaker.v ===== *)
(** * Circuit breaker (bridge/health/circuit_breaker.py)

    The breaker of one backend as explicit state passing; [now] is the reading
    of the monotonic clock the operation takes, in milliseconds.  Reading the
    [state] property changes the state (OPEN to HALF_OPEN after the cooldown),
    so it is an operation like the others. *)
From S2P Require Import Prelude.

Inductive CircuitState := CLOSED | OPEN | HALF_OPEN.
#[export] Instance CircuitState_eq_dec : EqDecision CircuitState.
Proof. solve_decision. Defined.

Record CircuitBreaker := {
  failure_threshold : Z;
  cooldown : Z;
  _state : CircuitState;
  _consecutive_failures : Z;
  _last_failure_time : Z;
  _last_success_time : Z }.

Definition DEFAULT_FAILURE_THRESHOLD : Z := 3.
Definition DEFAULT_COOLDOWN : Z := 60000.

Definition new_breaker (threshold cool : Z) : CircuitBreaker :=
  {| failure_threshold := threshold; cooldown := cool; _state := CLOSED;
     _consecutive_failures := 0; _last_failure_time := 0; _last_success_time := 0 |}.

(** The [state] property. *)
Definition state (now : Z) (cb : CircuitBreaker) : CircuitState * CircuitBreaker :=
  if bool_decide (_state cb = OPEN) then
    let elapsed := now - _last_failure_time cb in
    if elapsed >=? cooldown cb then
      (HALF_OPEN, {| failure_threshold := failure_threshold cb; cooldown := cooldown cb;
                     _state := HALF_OPEN; _consecutive_failures := _consecutive_failures cb;
                     _last_failure_time := _last_failure_time cb;
                     _last_success_time := _last_success_time cb |})
    else (_state cb, cb)
  else (_state cb, cb).

Definition allows_request (now : Z) (cb : CircuitBreaker) : bool * CircuitBreaker :=
  let '(s, cb') := state now cb in (bool_decide (s ∈ [CLOSED; HALF_OPEN]), cb').

Definition record_success (now : Z) (cb : CircuitBreaker) : CircuitBreaker :=
  {| failure_threshold := failure_threshold cb; cooldown := cooldown cb; _state := CLOSED;
     _consecutive_failures := 0; _last_failure_time := _last_failure_time cb;
     _last_success_time := now |}.

Definition record_failure (now : Z) (cb : CircuitBreaker) : CircuitBreaker :=
  let failures := _consecutive_failures cb + 1 in
  {| failure_threshold := failure_threshold cb; cooldown := cooldown cb;
     _state := if bool_decide (_state cb ∈ [CLOSED; HALF_OPEN]) && (failures >=? failure_threshold cb)
               then OPEN else _state cb;
     _consecutive_failures := failures; _last_failure_time := now;
     _last_success_time := _last_success_time cb |}.

Definition reset (cb : CircuitBreaker) : CircuitBreaker :=
  {| failure_threshold := failure_threshold cb; cooldown := cooldown cb; _state := CLOSED;
     _consecutive_failures := 0; _last_failure_time := _last_failure_time cb;
     _last_success_time := _last_success_time cb |}.

(** ** Histories and their specification *)

Inductive cb_event := EQuery | ESuccess | EFailure | EReset.

Definition cb_step (cb : CircuitBreaker) (e : Z * cb_event) : CircuitBreaker :=
  match e with
  | (now, EQuery) => (state now cb).2
  | (now, ESuccess) => record_success now cb
  | (now, EFailure) => record_failure now cb
  | (now, EReset) => reset cb
  end.

Definition cb_run (cb : CircuitBreaker) (h : list (Z * cb_event)) : CircuitBreaker := foldl cb_step cb h.

(** The abstract breaker is two numbers: the failures since the last success
    or reset, and the time of the last failure. *)
Definition spec_step (s : Z * Z) (e : Z * cb_event) : Z * Z :=
  match e with
  | (_, EQuery) => s
  | (_, ESuccess) | (_, EReset) => (0, s.2)
  | (now, EFailure) => (s.1 + 1, now)
  end.

Definition spec_run (h : list (Z * cb_event)) : Z * Z := foldl spec_step (0, 0) h.

(** It blocks while the failures reach the threshold and the last one is
    younger than the cooldown. *)
Definition spec_blocked (threshold cool now : Z) (s : Z * Z) : bool :=
  (threshold <=? s.1) && (now - s.2 <? cool).

(** The simulation relation at time [t]. *)
Record simulates (threshold cool t : Z) (cb : CircuitBreaker) (s : Z * Z) : Prop := {
  sim_threshold : failure_threshold cb = threshold;
  sim_cooldown : cooldown cb = cool;
  sim_count : _consecutive_failures cb = s.1;
  sim_last : _last_failure_time cb = s.2;
  sim_closed : _state cb = CLOSED ↔ s.1 < threshold;
  sim_half : _state cb = HALF_OPEN → cool <= t - s.2 }.

Section simulation.
Context (threshold cool : Z) (Hthreshold : 0 < threshold).

Lemma simulates_later t t' cb s : t <= t' → simulates threshold cool t cb s → simulates threshold cool t' cb s.
Proof. intros Ht []. constructor; auto. intros H. specialize (sim_half0 H). lia. Qed.

Lemma simulates_step t cb s e :
  t <= e.1 → simulates threshold cool t cb s →
  simulates threshold cool e.1 (cb_step cb e) (spec_step s e).
Proof using Hthreshold.
  intros Ht Hs. apply (simulates_later _ _ _ _ Ht) in Hs. destruct Hs as [H1 H2 H3 H4 H5 H6].
  destruct e as [now []]; simpl in *.
  - unfold state. case_bool_decide as Ho; [|by constructor].
    destruct (_ >=? _) eqn:E; [|by constructor]. reflect_bools. constructor; simpl; auto.
    + split; [done|]. intros Hlt%H5. congruence.
    + intros _. lia.
  - by constructor.
  - constructor; simpl; try done; [lia| |].
    + destruct (_state cb) eqn:E; simpl.
      * destruct (_ >=? _) eqn:E2; reflect_bools; rewrite H3, H1 in E2; split; intros; try done; lia.
      * split; [done|]. intros. assert (OPEN = CLOSED) by (apply H5; lia). done.
      * destruct (_ >=? _) eqn:E2; reflect_bools; rewrite H3, H1 in E2.
        -- split; [done|lia].
        -- split; [done|]. intros. assert (HALF_OPEN = CLOSED) by (apply H5; lia). done.
    + intros Hst. exfalso.
      destruct (bool_decide (_state cb ∈ [CLOSED; HALF_OPEN])) eqn:Eb; reflect_bools; simpl in Hst.
      * destruct (_ >=? _) eqn:E2 in Hst; [done|]. reflect_bools.
        assert (HALF_OPEN = CLOSED) by (rewrite <-Hst; apply H5; lia). done.
      * rewrite Hst in Eb. set_solver.
  - by constructor.
Qed.

Lemma simulates_run t cb s h :
  StronglySorted Z.le (t :: h.*1) → simulates threshold cool t cb s →
  simulates threshold cool (List.last (h.*1) t) (cb_run cb h) (foldl spec_step s h).
Proof using Hthreshold.
  revert t cb s. induction h as [|e h IH]; intros t cb s Hsort Hs; cbn [cb_run foldl fmap list_fmap]; [done|].
  inversion Hsort as [|? ? Hh Hall]; subst. cbn [fmap list_fmap] in *.
  rewrite last_cons_default.
  apply IH; [done|]. apply (simulates_step t); [|done]. by inversion Hall.
Qed.

Lemma simulates_new : simulates threshold cool 0 (new_breaker threshold cool) (0, 0).
Proof using Hthreshold. by constructor. Qed.

Lemma simulates_allows t cb s now :
  t <= now → simulates threshold cool t cb s →
  (allows_request now cb).1 = negb (spec_blocked threshold cool now s).
Proof.
  intros Ht [H1 H2 H3 H4 H5 H6]. unfold allows_request, state, spec_blocked.
  case_bool_decide as Ho.
  - rewrite H4, H2. destruct (_ >=? _) eqn:E; cbn [fst]; reflect_bools.
    + replace (now - s.2 <? cool) with false by (symmetry; apply Z.ltb_ge; lia).
      by rewrite andb_false_r.
    + rewrite Ho. replace (now - s.2 <? cool) with true by (symmetry; apply Z.ltb_lt; lia).
      replace (threshold <=? s.1) with true; [done|]. symmetry. apply Z.leb_le.
      destruct (Z.lt_ge_cases s.1 threshold) as [Hlt|]; [|done]. apply H5 in Hlt. congruence.
  - cbn [fst]. destruct (_state cb) eqn:E; [|done|].
    + replace (threshold <=? s.1) with false; [done|]. symmetry. apply Z.leb_gt. by apply H5.
    + replace (now - s.2 <? cool) with false; [by rewrite andb_false_r|].
      symmetry. apply Z.ltb_ge. specialize (H6 eq_refl). lia.
Qed.
End simulation.

(** C9: refinement of the breaker by two counters.  For every history of
    successes, failures, resets and state reads at non-decreasing times, and a
    positive threshold, the breaker refuses traffic at a later time exactly
    when the failures since the last success or reset reach the threshold and
    the last failure is younger than the cooldown. *)
Theorem breaker_refines_spec threshold cool h now :
  0 < threshold → StronglySorted Z.le (0 :: h.*1 ++ [now]) →
  (allows_request now (cb_run (new_breaker threshold cool) h)).1 =
  negb (spec_blocked threshold cool now (spec_run h)).
Proof.
  intros Hpos Hsort.
  destruct (sorted_snoc 0 (h.*1) now Hsort) as [Hs Hl].
  eapply simulates_allows; [exact Hl|]. apply simulates_run; [done|done|]. by apply simulates_new.
Qed.

Lemma breaker_refines_spec_witness :
  let h := [(1, EFailure); (2, EFailure); (3, EFailure); (70000, EQuery); (70001, EFailure)] in
  (allows_request 4 (cb_run (new_breaker 3 60000) (take 3 h))).1 = false ∧
  (allows_request 70002 (cb_run (new_breaker 3 60000) h)).1 = negb (spec_blocked 3 60000 70002 (spec_run h)) ∧
  spec_blocked 3 60000 70002 (spec_run h) = true.
Proof.
  intros h. split; [reflexivity|]. split; [|reflexivity].
  apply (breaker_refines_spec 3 60000 h 70002); [reflexivity|].
  unfold h. simpl. repeat (constructor; [|repeat (constructor; [lia|]); constructor]). constructor.
Defined.
