(* ===== verification/Health.v ===== *)
(** * Health checker (bridge/health/checker.py)

    One round probes every backend concurrently: [_check] runs up to its only
    [await] ([check_begin]), and resumes with the outcome of the probe
    ([check_finish]).  Between the two other checks, an operator reset or a
    capability re-discovery may run.  Clock readings are arguments, in
    milliseconds. *)
From stdpp Require Import pretty.
From S2P Require Import Prelude PyDict Conflict Registry Lifecycle CircuitBreaker.

Inductive HealthState := Healthy | Degraded | Unhealthy | Unknown.
#[export] Instance HealthState_eq_dec : EqDecision HealthState.
Proof. solve_decision. Defined.

Record BackendHealth := {
  h_state : HealthState;
  h_circuit : CircuitBreaker;
  h_last_check : Z;
  h_last_latency_ms : Z;
  h_last_error : option string }.

Definition new_health (cb : CircuitBreaker) : BackendHealth :=
  {| h_state := Unknown; h_circuit := cb; h_last_check := 0; h_last_latency_ms := 0; h_last_error := None |}.

(** The parameters of [HealthChecker]. *)
Record hc_conf := { hc_threshold : Z; hc_cooldown : Z; hc_degraded_latency_ms : Z }.

(** What the checker reads and writes: its own records, the registry (absent
    when the service has none), the status records of the manager, the
    re-discovery tasks it created and the state changes it reported. *)
Record world := {
  _health : gmap string BackendHealth;
  w_registry : option registry;
  w_records : gmap string BackendStatusRecord;
  w_restores : list string;
  w_notified : list (string * HealthState * HealthState) }.

Definition set_health (name : string) (h : BackendHealth) (w : world) : world :=
  {| _health := <[name := h]> (_health w); w_registry := w_registry w; w_records := w_records w;
     w_restores := w_restores w; w_notified := w_notified w |}.
Definition set_registry (r : option registry) (w : world) : world :=
  {| _health := _health w; w_registry := r; w_records := w_records w;
     w_restores := w_restores w; w_notified := w_notified w |}.
Definition set_record (name : string) (r : BackendStatusRecord) (w : world) : world :=
  {| _health := _health w; w_registry := w_registry w; w_records := <[name := r]> (w_records w);
     w_restores := w_restores w; w_notified := w_notified w |}.
Definition add_restore (name : string) (w : world) : world :=
  {| _health := _health w; w_registry := w_registry w; w_records := w_records w;
     w_restores := w_restores w ++ [name]; w_notified := w_notified w |}.

Definition _notify (name : string) (old new : HealthState) (w : world) : world :=
  if bool_decide (old = new) then w
  else {| _health := _health w; w_registry := w_registry w; w_records := w_records w;
          w_restores := w_restores w; w_notified := w_notified w ++ [(name, old, new)] |}.

Definition phase_map (s : HealthState) : option BackendPhase :=
  match s with
  | Healthy => Some READY | Degraded => Some DEGRADED | Unhealthy => Some FAILED | Unknown => None
  end.

Definition sync_message (h : BackendHealth) : string :=
  match h_state h with
  | Degraded => "High latency: " +:+ pretty (h_last_latency_ms h) +:+ "ms"
  | Unhealthy => str_or (h_last_error h) "Health check failed"
  | _ => "Healthy (" +:+ pretty (h_last_latency_ms h) +:+ "ms)"
  end.

(** The effect of a sync on the record, at time [now]. *)
Definition sync_record (now : Z) (h : BackendHealth) (r : BackendStatusRecord) : BackendStatusRecord :=
  match phase_map (h_state h) with
  | None => r
  | Some target_phase =>
      if bool_decide (target_phase = phase r) then r
      else
        let msg := sync_message h in
        match transition now target_phase msg r with
        | inr r' => set_latency (h_last_latency_ms h) r'
        | inl _ => add_condition now "HealthCheck" "Warning"
                     ("Skipped transition to " +:+ phase_value target_phase +:+ ": " +:+ msg) r
        end
  end.

Definition _sync_status_record (now : Z) (name : string) (h : BackendHealth) (w : world) : world :=
  match w_records w !! name with
  | None => w
  | Some r => set_record name (sync_record now h r) w
  end.

Definition _hide_backend_capabilities (name : string) (w : world) : world :=
  match w_registry w with
  | None => w
  | Some r => set_registry (Some (remove_backend name r).2) w
  end.

(** [session] is what [get_session] answers to the second look-up. *)
Definition _restore_backend_capabilities (name : string) (session : bool) (w : world) : world :=
  match w_registry w with
  | None => w
  | Some _ => if session then add_restore name w else w
  end.

Definition reset_backend (name : string) (w : world) : world :=
  match _health w !! name with
  | None => w
  | Some h =>
      set_health name {| h_state := Unknown; h_circuit := reset (h_circuit h);
        h_last_check := h_last_check h; h_last_latency_ms := h_last_latency_ms h;
        h_last_error := h_last_error h |} w
  end.

(** Readings of the clock during one check, in the order they are taken. *)
Record readings := {
  t_allow : Z;   (* the [allows_request] guard *)
  t_record : Z;  (* [record_success] or [record_failure] *)
  t_again : Z;   (* [allows_request] after a failure *)
  t_check : Z    (* [last_check], the condition timestamp *) }.

(** The health record of [name], created on the first check. *)
Definition get_or_create (conf : hc_conf) (name : string) (w : world) : BackendHealth :=
  match _health w !! name with
  | Some h => h
  | None => new_health (new_breaker (hc_threshold conf) (hc_cooldown conf))
  end.

Definition with_circuit (cb : CircuitBreaker) (h : BackendHealth) : BackendHealth :=
  {| h_state := h_state h; h_circuit := cb; h_last_check := h_last_check h;
     h_last_latency_ms := h_last_latency_ms h; h_last_error := h_last_error h |}.

(** Up to the probe.  [Some old_state] when the probe was sent; [None] when the
    check has returned. *)
Definition check_begin (conf : hc_conf) (t : readings) (name : string) (session : bool) (w : world)
    : option HealthState * world :=
  let h0 := get_or_create conf name w in
  let '(allowed, cb) := allows_request (t_allow t) (h_circuit h0) in
  let h := with_circuit cb h0 in
  if negb allowed then (None, set_health name h w)
  else
    let old_state := h_state h in
    if negb session then
      let h' := {| h_state := Unhealthy; h_circuit := record_failure (t_record t) cb;
                   h_last_check := t_check t; h_last_latency_ms := h_last_latency_ms h;
                   h_last_error := Some "No active session" |} in
      let w1 := _sync_status_record (t_check t) name h' (set_health name h' w) in
      (None, _notify name old_state (h_state h') w1)
    else (Some old_state, set_health name h w).

(** The outcome of the awaited [list_tools]: the latency, or the text of the
    exception. *)
Inductive probe := ProbeOk (latency_ms : Z) | ProbeError (err : string).

Definition after_probe (conf : hc_conf) (t : readings) (p : probe) (h : BackendHealth) : BackendHealth :=
  match p with
  | ProbeOk latency_ms =>
      {| h_state := if latency_ms >? hc_degraded_latency_ms conf then Degraded else Healthy;
         h_circuit := record_success (t_record t) (h_circuit h);
         h_last_check := t_check t; h_last_latency_ms := latency_ms; h_last_error := None |}
  | ProbeError err =>
      let cb := record_failure (t_record t) (h_circuit h) in
      let '(allowed, cb') := allows_request (t_again t) cb in
      {| h_state := if negb allowed then Unhealthy else Degraded;
         h_circuit := cb'; h_last_check := t_check t;
         h_last_latency_ms := h_last_latency_ms h; h_last_error := Some err |}
  end.

Definition check_finish (conf : hc_conf) (t : readings) (name : string) (old_state : HealthState)
    (p : probe) (session : bool) (w : world) : world :=
  match _health w !! name with
  | None => w
  | Some h =>
      let h' := after_probe conf t p h in
      let w1 := set_health name h' w in
      let w2 :=
        if bool_decide (h_state h' = Unhealthy) then _hide_backend_capabilities name w1
        else if bool_decide (old_state = Unhealthy) && bool_decide (h_state h' ∈ [Healthy; Degraded])
        then _restore_backend_capabilities name session w1
        else w1 in
      let w3 := _sync_status_record (t_check t) name h' w2 in
      _notify name old_state (h_state h') w3
  end.

(** ** One failing backend *)

Lemma sync_registry now name h w : w_registry (_sync_status_record now name h w) = w_registry w.
Proof. unfold _sync_status_record. by case_match. Qed.
Lemma sync_health now name h w : _health (_sync_status_record now name h w) = _health w.
Proof. unfold _sync_status_record. by case_match. Qed.
Lemma notify_registry name o n w : w_registry (_notify name o n w) = w_registry w.
Proof. unfold _notify. by case_match. Qed.
Lemma notify_health name o n w : _health (_notify name o n w) = _health w.
Proof. unfold _notify. by case_match. Qed.
Lemma hide_health name w : _health (_hide_backend_capabilities name w) = _health w.
Proof. unfold _hide_backend_capabilities. by case_match. Qed.
Lemma restore_health name s w : _health (_restore_backend_capabilities name s w) = _health w.
Proof. unfold _restore_backend_capabilities. repeat case_match; done. Qed.
Lemma restore_registry name s w : w_registry (_restore_backend_capabilities name s w) = w_registry w.
Proof. unfold _restore_backend_capabilities. repeat case_match; done. Qed.
#[export] Hint Rewrite sync_registry sync_health notify_registry notify_health hide_health
  restore_health restore_registry : argus.

Lemma check_finish_health conf t name old p session w h :
  _health w !! name = Some h →
  _health (check_finish conf t name old p session w) = <[name := after_probe conf t p h]> (_health w).
Proof.
  intros E. unfold check_finish. rewrite E. cbv zeta. autorewrite with argus.
  repeat case_test; autorewrite with argus; done.
Qed.

Lemma check_finish_registry conf t name old p session w h :
  _health w !! name = Some h →
  w_registry (check_finish conf t name old p session w) =
  if bool_decide (h_state (after_probe conf t p h) = Unhealthy)
  then (λ r, (remove_backend name r).2) <$> w_registry w else w_registry w.
Proof.
  intros E. unfold check_finish. rewrite E. cbv zeta. autorewrite with argus.
  destruct (bool_decide (h_state (after_probe conf t p h) = Unhealthy)).
  - unfold _hide_backend_capabilities. cbn [w_registry set_health].
    destruct (w_registry w) eqn:Er; [done|]. cbn [w_registry set_health]. by rewrite Er.
  - case_test; autorewrite with argus; done.
Qed.

(** A check of a backend whose session answers with an exception. *)
Definition failing_check (conf : hc_conf) (name err : string) (w : world) (t : readings) : world :=
  match check_begin conf t name true w with
  | (None, w') => w'
  | (Some old, w') => check_finish conf t name old (ProbeError err) true w'
  end.

(** The state of the checker after [k] failures below the threshold. *)
Record failing (conf : hc_conf) (name : string) (k : Z) (r : option registry) (w : world) : Prop := {
  fail_circuit : ∃ cb, h_circuit (get_or_create conf name w) = cb ∧ _state cb = CLOSED ∧
    _consecutive_failures cb = k ∧ failure_threshold cb = hc_threshold conf ∧ cooldown cb = hc_cooldown conf;
  fail_state : k <> 0 → h_state (get_or_create conf name w) = Degraded;
  fail_registry : w_registry w = r }.

(** The failure branch of a probe on a closed circuit. *)
Lemma after_probe_error conf t err h k :
  _state (h_circuit h) = CLOSED → _consecutive_failures (h_circuit h) = k →
  t_again t - t_record t < cooldown (h_circuit h) →
  let h' := after_probe conf t (ProbeError err) h in
  _consecutive_failures (h_circuit h') = k + 1 ∧
  failure_threshold (h_circuit h') = failure_threshold (h_circuit h) ∧
  cooldown (h_circuit h') = cooldown (h_circuit h) ∧
  if k + 1 <? failure_threshold (h_circuit h)
  then _state (h_circuit h') = CLOSED ∧ h_state h' = Degraded
  else _state (h_circuit h') = OPEN ∧ h_state h' = Unhealthy.
Proof.
  intros Hc <- Ht. unfold after_probe, allows_request, state, record_failure. simpl. rewrite Hc. simpl.
  rewrite Z.geb_leb, Z.leb_antisym. destruct (_ <? failure_threshold _); simpl; [done|].
  replace (t_again t - t_record t >=? cooldown (h_circuit h)) with false
    by (symmetry; rewrite Z.geb_leb; apply Z.leb_gt; lia).
  done.
Qed.

Lemma failing_check_eq conf name err w t :
  _state (h_circuit (get_or_create conf name w)) = CLOSED →
  failing_check conf name err w t =
  check_finish conf t name (h_state (get_or_create conf name w)) (ProbeError err) true
    (set_health name (get_or_create conf name w) w).
Proof.
  intros Hc. unfold failing_check, check_begin. set (h := get_or_create conf name w) in *.
  assert (allows_request (t_allow t) (h_circuit h) = (true, h_circuit h)) as ->.
  { unfold allows_request, state. by rewrite Hc. }
  cbn [negb]. replace (with_circuit (h_circuit h) h) with h by (by destruct h). done.
Qed.

Lemma get_or_create_lookup conf name w h : _health w !! name = Some h → get_or_create conf name w = h.
Proof. unfold get_or_create. by intros ->. Qed.

Lemma failing_check_step conf name err k r w t :
  failing conf name k r w →
  t_again t - t_record t < hc_cooldown conf →
  let w' := failing_check conf name err w t in
  let h := get_or_create conf name w' in
  if k + 1 <? hc_threshold conf then failing conf name (k + 1) r w' ∧ h_state h = Degraded
  else h_state h = Unhealthy ∧ _state (h_circuit h) = OPEN ∧
       w_registry w' = (λ r, (remove_backend name r).2) <$> r.
Proof.
  intros [(cb & Hcb & Hclosed & Hk & Hth & Hcool) _ Hr] Ht. rewrite <-Hcb in *. cbv zeta.
  rewrite failing_check_eq by done. set (h0 := get_or_create conf name w) in *.
  set (w1 := set_health name h0 w). set (w' := check_finish _ _ _ _ _ _ _).
  assert (_health w1 !! name = Some h0) as E1 by apply lookup_insert_eq.
  assert (get_or_create conf name w' = after_probe conf t (ProbeError err) h0) as E2.
  { apply get_or_create_lookup. unfold w'. rewrite (check_finish_health _ _ _ _ _ _ _ _ E1).
    apply lookup_insert_eq. }
  pose proof (check_finish_registry conf t name (h_state h0) (ProbeError err) true w1 h0 E1) as Hreg.
  fold w' in Hreg. rewrite E2.
  destruct (after_probe_error conf t err h0 k) as (P1 & P2 & P3 & P4); [done|done|lia|].
  rewrite Hth in P4. destruct (_ <? _); destruct P4 as [P4 P5]; rewrite P5 in Hreg.
  - split; [|done]. constructor.
    + eexists. split; [by rewrite E2|]. split_and!; congruence.
    + by rewrite E2.
    + by rewrite Hreg.
  - split_and!; [done|done|]. by rewrite Hreg, <-Hr.
Qed.

Lemma failing_checks_below conf name err r ts k w :
  failing conf name k r w → 0 <= k →
  Forall (λ t, t_again t - t_record t < hc_cooldown conf) ts →
  k + Z.of_nat (length ts) < hc_threshold conf →
  failing conf name (k + Z.of_nat (length ts)) r (foldl (failing_check conf name err) w ts).
Proof.
  revert k w. induction ts as [|t ts IH]; intros k w Hf Hk Hall Hlt.
  - simpl. by rewrite Z.add_0_r.
  - apply Forall_cons in Hall as [Ht Hall]. cbn [foldl length] in *.
    pose proof (failing_check_step conf name err k r w t Hf Ht) as Hs. cbv zeta in Hs.
    replace (k + 1 <? hc_threshold conf) with true in Hs by (symmetry; apply Z.ltb_lt; lia).
    replace (k + Z.of_nat (S (length ts))) with (k + 1 + Z.of_nat (length ts)) by lia.
    apply IH; [apply Hs|lia|done|lia].
Qed.

Lemma failing_fresh conf name w :
  _health w !! name = None → failing conf name 0 (w_registry w) w.
Proof.
  intros E. constructor; [|done|done]. unfold get_or_create. rewrite E. by eexists.
Qed.


Definition at_time (t : Z) : readings := {| t_allow := t; t_record := t; t_again := t; t_check := t |}.
Definition start_world (r : registry) : world :=
  {| _health := ∅; w_registry := Some r; w_records := ∅; w_restores := []; w_notified := [] |}.


(** ** Status records *)

(** Health checks never bring a status record out of [FAILED]: whatever
    the sequence of later health results, healthy ones included, the record of
    a failed backend stays [FAILED] and only collects conditions. *)
Theorem health_never_leaves_failed r (syncs : list (Z * BackendHealth)) :
  phase r = FAILED →
  phase (foldl (λ r '(now, h), sync_record now h r) r syncs) = FAILED.
Proof.
  revert r. induction syncs as [|[now h] syncs IH]; intros r Hp; simpl; [done|]. apply IH.
  unfold sync_record, transition, is_valid_backend_transition. rewrite Hp.
  destruct (h_state h); simpl; try done; by rewrite Hp.
Qed.

Lemma health_never_leaves_failed_witness :
  let r := apply_ops (new_record "a")
    [OpTransition 1 INITIALIZING ""; OpTransition 2 READY ""; OpTransition 3 FAILED "down"] in
  let ok := after_probe {| hc_threshold := 3; hc_cooldown := 60000; hc_degraded_latency_ms := 5000 |}
              (at_time 4) (ProbeOk 12) (new_health (new_breaker 3 60000)) in
  h_state ok = Healthy ∧ phase (foldl (λ r '(now, h), sync_record now h r) r [(4, ok); (5, ok)]) = FAILED.
Proof.
  intros r ok. split; [reflexivity|].
  apply (health_never_leaves_failed r [(4, ok); (5, ok)]). reflexivity.
Defined.

(** ** Re-discovery and removal share mutable lists

    [discover_single_backend] passes the current list object of each type to
    [_discover_caps_by_type], which appends to it after an [await];
    [remove_backend] rebinds the attributes to fresh lists and edits the route
    map in place.  [live] makes the list objects explicit. *)

Record live := {
  lv_ref : cap_type → nat;
  lv_heap : gmap nat (list cap_item);
  lv_routes : gmap string (string * string);
  lv_next : nat }.

Definition deref (lv : live) (ref : nat) : list cap_item := default [] (lv_heap lv !! ref).

(** What readers of the registry see. *)
Definition view (lv : live) : registry :=
  {| _tools := deref lv (lv_ref lv Tools); _resources := deref lv (lv_ref lv Resources);
     _prompts := deref lv (lv_ref lv Prompts); _route_map := lv_routes lv |}.

(** [remove_backend]: three fresh lists. *)
Definition live_remove (svr : string) (lv : live) : live :=
  let r := (remove_backend svr (view lv)).2 in
  let n := lv_next lv in
  {| lv_ref := λ ct, match ct with Tools => n | Resources => S n | Prompts => S (S n) end;
     lv_heap := <[n := _tools r]> (<[S n := _resources r]> (<[S (S n) := _prompts r]> (lv_heap lv)));
     lv_routes := _route_map r; lv_next := S (S (S n)) |}.

(** The part of [_discover_caps_by_type] after its [await], on the list object
    [ref] captured when it was called. *)
Definition live_resume (conf : reg_conf) (svr : string) (ct : cap_type) (ref : nat) (f : fetch)
    (lv : live) : live :=
  let r := _discover_caps_by_type conf svr ct f (set_list ct (deref lv ref) (view lv)) in
  {| lv_ref := lv_ref lv; lv_heap := <[ref := get_list ct r]> (lv_heap lv);
     lv_routes := _route_map r; lv_next := lv_next lv |}.

Lemma view_list lv ct : get_list ct (view lv) = deref lv (lv_ref lv ct).
Proof. by destruct ct. Qed.

(** A re-discovery that resumes after another backend was removed loses its
    work: when the captured list is no longer the live one, the capabilities it
    registers become routable but appear in none of the lists that clients
    see. *)
Theorem restore_lost_update conf svr ct ref f lv :
  (∀ ct', lv_ref lv ct' ≠ ref) →
  (∀ ct', names ct' (view (live_resume conf svr ct ref f lv)) = names ct' (view lv)) ∧
  lv_routes (live_resume conf svr ct ref f lv) =
    _route_map (_discover_caps_by_type conf svr ct f (set_list ct (deref lv ref) (view lv))).
Proof.
  intros Hne. split; [|done]. intros ct'. unfold names. rewrite !view_list.
  unfold deref, live_resume. cbn [lv_ref lv_heap]. by rewrite lookup_insert_ne by (apply not_eq_sym, Hne).
Qed.

Lemma restore_lost_update_witness :
  let conf := plain_conf (First Build_FirstWinsStrategy) in
  let lv0 := {| lv_ref := λ ct, match ct with Tools => 0 | Resources => 1 | Prompts => 2 end%nat;
                lv_heap := <[0%nat := [tool "fetch"]]> ∅;
                lv_routes := <["fetch" := ("b", "fetch")]> ∅; lv_next := 3 |} in
  let lv1 := live_resume conf "a" Tools (lv_ref lv0 Tools)
               (FResult (RAttr [RawItem (tool "search")])) (live_remove "b" lv0) in
  resolve_capability (view lv1) "search" = Some ("a", "search") ∧
  names Tools (view lv1) = names Tools (view (live_remove "b" lv0)) ∧
  names Tools (view (live_remove "b" lv0)) = [].
Proof.
  intros conf lv0 lv1. split; [reflexivity|]. split; [|reflexivity].
  destruct (restore_lost_update conf "a" Tools (lv_ref lv0 Tools)
    (FResult (RAttr [RawItem (tool "search")])) (live_remove "b" lv0)) as [H _].
  - intros []; discriminate.
  - apply H.
Defined.
