(* ===== verification/Authz.v ===== *)
(** * Authorization policies (server/authz/policies.py, server/authz/engine.py)

    Ordered allow/deny rules over roles and resource patterns; the first rule
    that matches decides. *)
From S2P Require Import Prelude PyDict Glob.

Inductive PolicyDecision := ALLOW | DENY | NO_MATCH.
#[export] Instance PolicyDecision_eq_dec : EqDecision PolicyDecision.
Proof. solve_decision. Defined.

Record AuthzPolicy := {
  effect : string; roles : list string; resources : list string; pol_description : string }.

(** A rule of the configuration: a dictionary with optional keys. *)
Record policy_dict := {
  pd_effect : option string; pd_roles : option (list string);
  pd_resources : option (list string); pd_description : option string }.

Definition from_dict (data : policy_dict) : AuthzPolicy :=
  {| effect := default "deny" (pd_effect data);
     roles := default ["*"] (pd_roles data);
     resources := default ["*"] (pd_resources data);
     pol_description := default "" (pd_description data) |}.

Definition load_policies (policy_list : list policy_dict) : list AuthzPolicy := from_dict <$> policy_list.

Definition _resource_matches (pattern resource : string) : bool :=
  if bool_decide (pattern = "*") then true else fnmatch resource pattern.

Definition matches (p : AuthzPolicy) (user_roles : list string) (resource : string) : bool :=
  let role_match :=
    bool_decide ("*" ∈ roles p) || existsb (λ r, bool_decide (r ∈ roles p)) user_roles in
  if negb role_match then false
  else bool_decide ("*" ∈ resources p) || existsb (λ pat, _resource_matches pat resource) (resources p).

Record PolicyEngine := { _policies : list AuthzPolicy; _default : PolicyDecision }.

Definition new_engine (policies : list AuthzPolicy) (default_effect : string) : PolicyEngine :=
  {| _policies := policies;
     _default := if bool_decide (default_effect = "allow") then ALLOW else DENY |}.

(** The [for] loop with its early return. *)
Fixpoint evaluate_policies (ps : list AuthzPolicy) (default : PolicyDecision)
    (user_roles : list string) (resource : string) : PolicyDecision :=
  match ps with
  | [] => default
  | p :: ps' =>
      if matches p user_roles resource
      then if bool_decide (effect p = "allow") then ALLOW else DENY
      else evaluate_policies ps' default user_roles resource
  end.

Definition evaluate (e : PolicyEngine) (user_roles : list string) (resource : string) : PolicyDecision :=
  evaluate_policies (_policies e) (_default e) user_roles resource.

Definition filter_allowed (e : PolicyEngine) (user_roles resources : list string) : list string :=
  keep (λ r, bool_decide (evaluate e user_roles r = ALLOW)) resources.

Definition reload (policy_dicts : list policy_dict) (e : PolicyEngine) : PolicyEngine :=
  {| _policies := load_policies policy_dicts; _default := _default e |}.

Definition engine_from_config (policies : option (list policy_dict)) (default_effect : option string)
    : PolicyEngine :=
  new_engine (load_policies (default [] policies)) (default "deny" default_effect).

(** ** First match *)

Lemma evaluate_find ps d user_roles resource :
  evaluate_policies ps d user_roles resource =
  match List.find (λ p, matches p user_roles resource) ps with
  | Some p => if bool_decide (effect p = "allow") then ALLOW else DENY
  | None => d
  end.
Proof. induction ps as [|p ps IH]; simpl; [done|]. by destruct (matches p user_roles resource). Qed.

Lemma matches_spec p user_roles resource :
  matches p user_roles resource = true ↔
  ("*" ∈ roles p ∨ ∃ r, r ∈ user_roles ∧ r ∈ roles p) ∧
  (∃ pat, pat ∈ resources p ∧ (pat = "*" ∨ fnmatch resource pat = true)).
Proof.
  unfold matches, _resource_matches.
  assert ((bool_decide ("*" ∈ roles p) || existsb (λ r, bool_decide (r ∈ roles p)) user_roles) = true ↔
    ("*" ∈ roles p ∨ ∃ r, r ∈ user_roles ∧ r ∈ roles p)) as Hr.
  { rewrite orb_true_iff, existsb_elem_of, bool_decide_eq_true.
    setoid_rewrite bool_decide_eq_true. done. }
  assert ((bool_decide ("*" ∈ resources p) || existsb (λ pat,
      if bool_decide (pat = "*") then true else fnmatch resource pat) (resources p)) = true ↔
    (∃ pat, pat ∈ resources p ∧ (pat = "*" ∨ fnmatch resource pat = true))) as Hs.
  { rewrite orb_true_iff, existsb_elem_of, bool_decide_eq_true. split.
    - intros [H|(pat & Hin & H)]; [by eauto|]. exists pat. case_bool_decide; auto.
    - intros (pat & Hin & [->|H]); [by left|]. right. exists pat. split; [done|]. cbv beta. rewrite H. by destruct (bool_decide (pat = "*")). }
  rewrite <-Hr, <-Hs. destruct (_ || _); simpl; [tauto|]. split; [done|by intros [? _]].
Qed.

(** The engine allows a request exactly when the first rule whose roles
    and resource patterns match it has the effect [allow], or no rule matches
    and the default effect is [allow]; an effect other than [allow], or a
    default effect that is misspelt or missing, denies. *)
Theorem evaluate_first_match policies default_effect user_roles resource :
  evaluate (engine_from_config policies default_effect) user_roles resource = ALLOW ↔
  (∃ pre p post, load_policies (default [] policies) = pre ++ p :: post ∧
     Forall (λ q, ¬ matches q user_roles resource) pre ∧
     matches p user_roles resource ∧ effect p = "allow") ∨
  (Forall (λ q, ¬ matches q user_roles resource) (load_policies (default [] policies)) ∧
     default_effect = Some "allow").
Proof.
  unfold evaluate, engine_from_config, new_engine. cbn [_policies _default]. rewrite evaluate_find.
  set (ps := load_policies (default [] policies)).
  assert (∀ l, Forall (λ q, matches q user_roles resource = false) l ↔
    Forall (λ q, ¬ matches q user_roles resource) l) as HF.
  { intros l. apply Forall_iff. intros q. destruct (matches q user_roles resource); simpl; naive_solver. }
  destruct (List.find _ ps) as [p|] eqn:E.
  - apply find_first in E as (pre & post & Hps & Hm & Hpre). apply HF in Hpre.
    split.
    + case_bool_decide; [|done]. intros _. left. exists pre, p, post. by rewrite Hm.
    + intros [(pre' & p' & post' & Hps' & Hpre' & Hm' & He)|[Hall _]].
      * assert (List.find (λ p, matches p user_roles resource) ps = Some p') as Hf'.
        { rewrite Hps'. apply HF in Hpre'. clear -Hpre' Hm'.
          induction Hpre' as [|q l Hq _ IH]; simpl.
          - by destruct (matches p' user_roles resource).
          - by rewrite Hq. }
        assert (List.find (λ p, matches p user_roles resource) ps = Some p) as Hf.
        { rewrite Hps. apply HF in Hpre. clear -Hpre Hm.
          induction Hpre as [|q l Hq _ IH]; simpl; [by rewrite Hm|by rewrite Hq]. }
        rewrite Hf in Hf'. simplify_eq. by rewrite bool_decide_eq_true_2.
      * rewrite Hps in Hall. apply Forall_app in Hall as [_ [Hn _]%Forall_cons]. by rewrite Hm in Hn.
  - apply find_nothing in E. apply HF in E. split.
    + intros Hd. right. split; [done|]. destruct default_effect as [d|]; simpl in Hd; [|done].
      case_bool_decide; by subst.
    + intros [(pre & p & post & Hps & _ & Hm & _)|[_ ->]]; [|done].
      rewrite Hps in E. apply Forall_app in E as [_ [Hn _]%Forall_cons]. done.
Qed.

(** The list shown to a user holds exactly the resources a call would be
    allowed on, in their original order; after a reload the new rules decide and
    the default effect stays the one the engine was built with. *)
Theorem filter_allowed_agrees policies default_effect pds user_roles rs r :
  let e := reload pds (engine_from_config policies default_effect) in
  (r ∈ filter_allowed e user_roles rs ↔
   r ∈ rs ∧ evaluate (engine_from_config (Some pds) default_effect) user_roles r = ALLOW) ∧
  filter_allowed e user_roles rs `sublist_of` rs.
Proof.
  intros e. split.
  - unfold filter_allowed. by rewrite elem_of_keep, bool_decide_eq_true.
  - unfold filter_allowed. induction rs as [|x rs IH]; simpl; [constructor|]. case_test; by constructor.
Qed.
