(* ===== verification/Auth.v ===== *)
(** * Incoming authentication (server/auth/providers.py)

    The identity attached to a request, the providers that produce it, and the
    factory that picks one from the configuration. *)
From S2P Require Import Prelude PyDict Glob.

Record UserIdentity := {
  subject : string; email : string; user_name : string;
  user_roles : list string; provider : string; claims : odict string pyval }.

Definition anonymous_user : UserIdentity :=
  {| subject := "anonymous"; email := ""; user_name := ""; user_roles := [];
     provider := "anonymous"; claims := [] |}.

Definition is_anonymous (u : UserIdentity) : bool := bool_decide (provider u = "anonymous").

(** [TypeErrorAuth] is the [TypeError] that [hmac.compare_digest] raises on a
    [str] with a character outside ASCII. *)
Inductive auth_error := AuthenticationFailed (msg : string) | TypeErrorAuth.

Record JWTConfig := {
  jwks_uri : string; issuer : string; audience : string; algorithms : list string }.

(** The claims the validator extracts from a token. *)
Record TokenClaims := {
  tc_sub : string; tc_email : string; tc_name : string;
  tc_roles : list string; tc_raw : odict string pyval }.

Inductive Provider :=
  | AnonymousProvider
  | LocalTokenProvider (expected : string)
  | JWTAuthProvider (config : JWTConfig).

Definition is_ascii (s : string) : bool :=
  forallb (λ c, Nat.ltb (Ascii.nat_of_ascii c) 128) (list_ascii_of_string s).

Section authenticate.
(** [JWTValidator.validate]: signature and claim checks of a JWT library over
    keys fetched from the network. *)
Context (validate : JWTConfig → string → string + TokenClaims).

Definition authenticate (p : Provider) (token : option string) : auth_error + UserIdentity :=
  match p with
  | AnonymousProvider => inr anonymous_user
  | LocalTokenProvider expected =>
      if negb (str_truthy token) then inl (AuthenticationFailed "Missing bearer token")
      else
        let t := default "" token in
        if negb (is_ascii t && is_ascii expected) then inl TypeErrorAuth
        else if negb (bool_decide (t = expected)) then inl (AuthenticationFailed "Invalid bearer token")
        else inr {| subject := "local-user"; email := ""; user_name := ""; user_roles := [];
                    provider := "local"; claims := [] |}
  | JWTAuthProvider config =>
      if negb (str_truthy token) then inl (AuthenticationFailed "Missing bearer token")
      else
        match validate config (default "" token) with
        | inl err => inl (AuthenticationFailed err)
        | inr c => inr {| subject := tc_sub c; email := tc_email c; user_name := tc_name c;
                          user_roles := tc_roles c; provider := "jwt"; claims := tc_raw c |}
        end
  end.

(** Only the anonymous provider accepts a request without a token. *)
Lemma authenticate_no_token p u :
  authenticate p None = inr u → p = AnonymousProvider.
Proof. by destruct p. Qed.

Lemma authenticate_local expected token u :
  authenticate (LocalTokenProvider expected) token = inr u → token = Some expected ∧ expected ≠ "".
Proof.
  simpl. destruct token as [t|]; simpl; [|done].
  destruct (bool_decide (t = "")) eqn:Et; simpl; [done|].
  destruct (is_ascii t && is_ascii expected); simpl; [|done].
  destruct (bool_decide (t = expected)) eqn:E; simpl; [|done]. reflect_bools. by subst.
Qed.
End authenticate.

(** [s.rstrip("/")] *)
Fixpoint drop_slashes (l : list Ascii.ascii) : list Ascii.ascii :=
  match l with
  | [] => []
  | c :: l' => if Nat.eqb (Ascii.nat_of_ascii c) 47 then drop_slashes l' else c :: l'
  end.
Definition rstrip_slash (s : string) : string :=
  string_of_list_ascii (rev (drop_slashes (rev (list_ascii_of_string s)))).

Inductive ConfigurationError := ConfigError (msg : string).

(** [AuthProviderRegistry.from_config]: the string-valued keys of the section
    and its optional [algorithms]. *)
Definition provider_from_config (config : option (odict string string)) (algs : option (list string))
    : ConfigurationError + Provider :=
  match config with
  | None | Some [] => inl (ConfigError "Auth provider config is required — pass explicit type: 'anonymous' to disable auth")
  | Some cfg =>
      let get k d := default d (dget cfg k) in
      let auth_type := get "type" "anonymous" in
      if bool_decide (auth_type = "anonymous") then inr AnonymousProvider
      else if bool_decide (auth_type = "local") then
        let token := get "token" "" in
        if bool_decide (token = "") then inl (ConfigError "Local auth requires 'token' in config")
        else inr (LocalTokenProvider token)
      else if bool_decide (auth_type ∈ ["jwt"; "oidc"]) then
        let uri := get "jwks_uri" "" in
        let iss := get "issuer" "" in
        let build uri := inr (JWTAuthProvider {| jwks_uri := uri; issuer := iss;
              audience := get "audience" ""; algorithms := default ["RS256"; "ES256"] algs |}) in
        if bool_decide (auth_type = "oidc") && bool_decide (uri = "") then
          if bool_decide (iss = "") then
            inl (ConfigError "OIDC auth requires 'issuer' in config for auto-discovery")
          else build (rstrip_slash iss +:+ "/.well-known/openid-configuration")
        else build uri
      else inl (ConfigError ("Unknown incoming auth type: " +:+ auth_type))
  end.

(** A local provider built from a configuration has a non-empty secret, so the
    empty token never authenticates. *)
Lemma provider_local_nonempty config algs expected :
  provider_from_config config algs = inr (LocalTokenProvider expected) → expected ≠ "".
Proof.
  unfold provider_from_config. destruct config as [[|kv cfg]|]; [done| |done].
  repeat case_test; intros; simplify_eq; reflect_bools; done.
Qed.

(** A provider built from the configuration lets a request without a token
    (or with an empty one) through only when the configuration asks for
    anonymous access, explicitly or by leaving the type out; the static-token
    provider accepts only the configured, non-empty secret. *)
Theorem configured_provider_safe validate config algs p token u :
  provider_from_config config algs = inr p → authenticate validate p token = inr u →
  (str_truthy token = false → ∃ cfg, config = Some cfg ∧ default "anonymous" (dget cfg "type") = "anonymous") ∧
  (∀ expected, p = LocalTokenProvider expected → token = Some expected ∧ expected ≠ "").
Proof.
  intros Hp Ha. split.
  - intros Ht. assert (p = AnonymousProvider) as ->.
    { destruct p; simpl in Ha; [done|..]; by rewrite Ht in Ha. }
    unfold provider_from_config in Hp. destruct config as [[|kv cfg]|]; [done| |done].
    exists (kv :: cfg). split; [done|].
    destruct (bool_decide (default "anonymous" (dget (kv :: cfg) "type") = "anonymous")) eqn:E;
      [by reflect_bools|]. cbv beta zeta in Hp. repeat case_match; done.
  - intros expected ->. by eapply authenticate_local.
Qed.

Lemma configured_provider_safe_witness :
  let config := Some [("type", "local"); ("token", "secret")] in
  let validate := λ (_ : JWTConfig) (_ : string), (inl "unused" : string + TokenClaims) in
  provider_from_config config None = inr (LocalTokenProvider "secret") ∧
  Some "secret" = Some "secret" ∧ "secret" ≠ "".
Proof.
  intros config validate. split; [reflexivity|].
  destruct (configured_provider_safe validate config None (LocalTokenProvider "secret") (Some "secret")
    {| subject := "local-user"; email := ""; user_name := ""; user_roles := [];
       provider := "local"; claims := [] |}) as [_ H]; [reflexivity|reflexivity|].
  by apply H.
Defined.
