(* ===== verification/Jwt.v ===== *)
(** * JWT validation and OIDC discovery (server/auth/jwt.py, server/auth/oidc.py)

    The validator of bearer tokens with its key client and its single re-fetch,
    and the discovery of an issuer with the request pinned to a checked address.

    PyJWT is the interface [PyJWT]: finding the signing key of a token through a
    key client (created as the n-th one for a URL) and decoding, with what
    decoding checks as its law.  The exceptions of PyJWT are named by the
    branches that can catch them; an [Other] of them is no [InvalidTokenError]
    (as are the errors of the key client).  Times are whole seconds.  DNS, the
    classification of addresses and HTTP are parameters. *)
From Stdlib Require Import Ascii.
From S2P Require Import Prelude PyDict Effects PyStr Url Auth.
#[local] Open Scope Z_scope.

(** ** Tokens *)

Inductive pyjwt_error := InvalidSignature | Expired | OtherInvalid (msg : string) | Other (msg : string).
(** The arguments of [jwt.decode]; [None] is an argument that is not given. *)
Record decode_args := { da_algorithms : list string; da_issuer : option string; da_audience : option string }.

(** The [aud] claim is a string or a list of strings. *)
Definition has_audience (claims : odict string pyval) (aud : string) : Prop :=
  dget claims "aud" = Some (PStr aud) ∨ ∃ l, dget claims "aud" = Some (PList l) ∧ PStr aud ∈ l.

Class PyJWT (key : Type) := {
  signing_key : string → nat → Z → string → pyjwt_error + key;
  decode : string → key → decode_args → pyjwt_error + odict string pyval;
  verifies : string → key → string → Prop;
  decode_checks token k a claims : decode token k a = inr claims →
    (∃ alg, alg ∈ da_algorithms a ∧ verifies token k alg) ∧
    (∀ i, da_issuer a = Some i → dget claims "iss" = Some (PStr i)) ∧
    (∀ x, da_audience a = Some x → has_audience claims x) }.

Section jwt.
Context {key : Type} `{!PyJWT key} (py_str : pyval → string).

(** The validator: its key client (the number under which it was created), the
    time it was created, and the number of clients created so far. *)
Record JWTValidator := { jv_keys : option nat; jv_fetched_at : Z; jv_created : nat }.
Definition new_validator : JWTValidator := {| jv_keys := None; jv_fetched_at := 0; jv_created := 0 |}.

Definition _DEFAULT_KEY_TTL : Z := 3600.
Definition _keys_expired (ttl now : Z) (v : JWTValidator) : bool := ttl <? now - jv_fetched_at v.
Definition new_keys (now : Z) (v : JWTValidator) : JWTValidator :=
  {| jv_keys := Some (jv_created v); jv_fetched_at := now; jv_created := S (jv_created v) |}.

Definition given (s : string) : option string := if bool_decide (s = "") then None else Some s.
Definition args_of (c : JWTConfig) : decode_args :=
  {| da_algorithms := algorithms c; da_issuer := given (issuer c); da_audience := given (audience c) |}.
Definition _decode (c : JWTConfig) (token : string) (now : Z) (v : JWTValidator) : pyjwt_error + odict string pyval :=
  match jv_keys v with
  | Some n => k ← signing_key (jwks_uri c) n now token; decode token k (args_of c)
  | None => inl (Other "no key client")
  end.

Definition _norm_aud (aud : pyval) : pyval :=
  match aud with
  | PList [] => PStr ""
  | PList (a :: _) => a
  | _ => if truthy aud then PStr (py_str aud) else PStr ""
  end.

Record token_claims := {
  jc_sub : pyval; jc_iss : pyval; jc_aud : pyval; jc_email : pyval; jc_name : pyval; jc_roles : pyval;
  jc_raw : odict string pyval }.
Inductive jwt_exc := JWTValidationError (msg : string) | JEscapes (e : pyjwt_error) | JAttributeError.

(** [claims.get("roles") or claims.get("realm_access", {}).get("roles", [])] *)
Definition roles_of (claims : odict string pyval) : jwt_exc + pyval :=
  let roles := get_or claims "roles" PNone in
  if truthy roles then inr roles
  else match get_or claims "realm_access" (PDict []) with
       | PDict d => inr (get_or d "roles" (PList []))
       | _ => inl JAttributeError
       end.
Definition claims_of (claims : odict string pyval) : jwt_exc + token_claims :=
  roles ← roles_of claims;
  inr {| jc_sub := get_or claims "sub" (PStr ""); jc_iss := get_or claims "iss" (PStr "");
         jc_aud := _norm_aud (get_or claims "aud" (PStr "")); jc_email := get_or claims "email" (PStr "");
         jc_name := get_or claims "name" (PStr ""); jc_roles := roles; jc_raw := claims |}.

(** [now] is the time of the check and of creating a client, [later] that of the
    second attempt. *)
Definition validate (c : JWTConfig) (ttl : Z) (token : string) (now later : Z) : M JWTValidator jwt_exc token_claims := λ v,
  let v1 := if match jv_keys v with None => true | Some _ => false end || _keys_expired ttl now v then new_keys now v else v in
  let finish r (v' : JWTValidator) := (match r with inr d => claims_of d | inl e => inl e end, v') in
  match _decode c token now v1 with
  | inr d => finish (inr d) v1
  | inl InvalidSignature =>
      let v2 := new_keys later v1 in
      finish (match _decode c token later v2 with
              | inr d => inr d
              | inl _ => inl (JWTValidationError "JWT validation failed after key refresh")
              end) v2
  | inl Expired => finish (inl (JWTValidationError "Token has expired")) v1
  | inl (OtherInvalid msg) => finish (inl (JWTValidationError msg)) v1
  | inl (Other msg) => finish (inl (JEscapes (Other msg))) v1
  end.

(** [JWTAuthProvider.authenticate] over this validator: only validation errors
    become [AuthenticationError]. *)
Inductive jwt_auth_exc := JAuthenticationError (msg : string) | JInternal (e : jwt_exc).
Definition jwt_authenticate (c : JWTConfig) (ttl : Z) (token : option string) (now later : Z)
  : M JWTValidator jwt_auth_exc token_claims := λ v,
  if negb (str_truthy token) then (inl (JAuthenticationError "Missing bearer token"), v)
  else match validate c ttl (default "" token) now later v with
       | (inr claims, v') => (inr claims, v')
       | (inl (JWTValidationError msg), v') => (inl (JAuthenticationError msg), v')
       | (inl e, v') => (inl (JInternal e), v')
       end.

(** ** What an accepted token has *)

Lemma decoded_checks c token now v claims : _decode c token now v = inr claims →
  ∃ n k alg, jv_keys v = Some n ∧ signing_key (jwks_uri c) n now token = inr k ∧ alg ∈ algorithms c ∧ verifies token k alg ∧
    (issuer c ≠ "" → dget claims "iss" = Some (PStr (issuer c))) ∧ (audience c ≠ "" → has_audience claims (audience c)).
Proof.
  unfold _decode. destruct (jv_keys v) as [n|] eqn:En; [|done]. intros (k & Hk & Hd)%sum_bind_inr.
  destruct (decode_checks _ _ _ _ Hd) as ((alg & Halg & Hver) & Hiss & Haud). simpl in *. exists n, k, alg. split_and!; try done.
  - intros Hne. apply Hiss. unfold given. by rewrite bool_decide_false.
  - intros Hne. apply Haud. unfold given. by rewrite bool_decide_false.
Qed.

Lemma claims_of_raw d x : claims_of d = inr x → jc_raw x = d ∧ jc_sub x = get_or d "sub" (PStr "").
Proof. unfold claims_of. intros (r & _ & [= <-])%sum_bind_inr. done. Qed.


(** ** Errors *)

(** An error of the key client (an unknown key, an unreachable key set) is not
    reported as a validation error: it leaves [authenticate] as it is. *)
Lemma key_client_error_escapes c ttl token now later v msg : token ≠ "" →
  (∀ n, signing_key (jwks_uri c) n now token = inl (Other msg)) →
  (jwt_authenticate c ttl (Some token) now later v).1 = inl (JInternal (JEscapes (Other msg))).
Proof.
  intros Ht Hk. unfold jwt_authenticate. simpl. rewrite bool_decide_false by done. simpl. unfold validate.
  set (v1 := if _ || _ then new_keys now v else v).
  assert (∃ n, jv_keys v1 = Some n) as [n Hn].
  { unfold v1. destruct (jv_keys v) eqn:E; simpl; [|by eexists]. case_match; [by eexists|eauto]. }
  unfold _decode at 1. rewrite Hn. unfold mbind, sum_bind. by rewrite Hk.
Qed.
End jwt.

(** With auto-discovery, the key set of an OIDC provider is looked up at the URL
    of the discovery document itself. *)
Lemma oidc_key_url iss : iss ≠ "" →
  ∃ c, provider_from_config (Some [("type", "oidc"); ("issuer", iss)]) None = inr (JWTAuthProvider c) ∧
       jwks_uri c = rstrip_slash iss +:+ "/.well-known/openid-configuration".
Proof. intros H. unfold provider_from_config. simpl. rewrite (bool_decide_false (iss = "")) by done. by eexists. Qed.

(** ** OIDC discovery *)

Record OIDCConfig := {
  oc_issuer : pyval; oc_jwks_uri : pyval; oc_authorization_endpoint : pyval; oc_token_endpoint : pyval;
  oc_userinfo_endpoint : pyval; oc_raw : odict string pyval }.
Inductive oidc_exc := OIDCDiscoveryError (msg : string) | OValueError | OTypeError.

(** The port of a network location: [None] without one; a port that is no number
    up to 65535 is a [ValueError]. *)
Definition port_text (netloc : string) : list ascii :=
  let hostinfo := after_last 64 (chars netloc) in
  match partition_at 91 hostinfo with
  | (_, Some bracketed) => default [] (partition_at 58 (default [] (partition_at 93 bracketed).2)).2
  | (h, None) => default [] (partition_at 58 h).2
  end.
Definition decimal (l : list ascii) : Z := foldl (λ n c, 10 * n + (Z.of_nat (code c) - 48)) 0 l.
Definition url_port (u : parsed_url) : oidc_exc + option Z :=
  match port_text (url_netloc u) with
  | [] => inr None
  | p => if forallb is_digit p && (decimal p <=? 65535) then inr (Some (decimal p)) else inl OValueError
  end.

(** [Answer]: a reply with a success status and a JSON body; everything else is
    an [httpx.HTTPError] or a [ValueError]. *)
Inductive oidc_reply := Answer (body : pyval) | HttpError.

Section oidc.
(** [getaddrinfo]: the addresses of a host ([None]: the resolution fails);
    [ip_blocked]: [None] for a text that is no IP address, else whether the
    address is private, loopback, link-local or reserved; [ipv4_mapped] the IPv4
    address inside an IPv6 one. *)
Context (bracket_ok : string → bool) (getaddrinfo : string → option (list string))
  (ip_blocked : string → option bool) (ipv4_mapped : string → option string)
  (http : string → odict string string → oidc_reply).

Definition checked (ip : string) : option bool :=
  match ip_blocked ip with
  | None => None
  | Some b => Some (match ipv4_mapped ip with Some ip4 => default b (ip_blocked ip4) | None => b end)
  end.

(** The loop over the addresses: [None] when one of them is blocked. *)
Fixpoint usable (ips : list string) : option (list string) :=
  match ips with
  | [] => Some []
  | ip :: rest =>
      match checked ip with
      | None => usable rest
      | Some true => None
      | Some false => (λ l, ip :: l) <$> usable rest
      end
  end.

Definition _validate_issuer_url (issuer : string) : oidc_exc + list string :=
  match urlparse bracket_ok issuer with
  | None => inl OValueError
  | Some parsed =>
      match url_hostname parsed with
      | None => inl (OIDCDiscoveryError "has no hostname")
      | Some host =>
          if negb (bool_decide (url_scheme parsed ∈ ["http"; "https"])) then inl (OIDCDiscoveryError "must use http or https scheme")
          else match getaddrinfo host with
               | None => inl (OIDCDiscoveryError "DNS resolution failed")
               | Some ips =>
                   match usable ips with
                   | None => inl (OIDCDiscoveryError "resolves to private/loopback/reserved address")
                   | Some [] => inl (OIDCDiscoveryError "DNS returned no usable addresses")
                   | Some ips' => inr ips'
                   end
               end
      end
  end.

Definition with_port (host : string) (port : option Z) : string :=
  match port with Some p => if p =? 0 then host else host +:+ ":" +:+ str_of_int p | None => host end.
(** [urlunparse] of the parts with another location *)
Definition _build_pinned_request (url pinned_ip : string) : oidc_exc + (string * odict string string) :=
  match urlparse bracket_ok url with
  | None => inl OValueError
  | Some parsed =>
      if bool_decide (url_scheme parsed = "https") then inr (url, [])
      else port ← url_port parsed;
           inr (url_scheme parsed +:+ "://" +:+ with_port pinned_ip port +:+ url_rest parsed,
                [("Host", with_port (default "" (url_hostname parsed)) port)])
  end.

(** ["jwks_uri" in data] and the fields *)
Definition config_of (issuer : string) (body : pyval) : oidc_exc + OIDCConfig :=
  let missing := inl (OIDCDiscoveryError "missing required 'jwks_uri' field") in
  match body with
  | PDict d =>
      match dget d "jwks_uri" with
      | None => missing
      | Some uri => inr {| oc_issuer := get_or d "issuer" (PStr issuer); oc_jwks_uri := uri;
                           oc_authorization_endpoint := get_or d "authorization_endpoint" (PStr "");
                           oc_token_endpoint := get_or d "token_endpoint" (PStr "");
                           oc_userinfo_endpoint := get_or d "userinfo_endpoint" (PStr ""); oc_raw := d |}
      end
  | PList l => if existsb (λ v, match v with PStr s => bool_decide (s = "jwks_uri") | _ => false end) l then inl OTypeError else missing
  | PStr s => if contains s "jwks_uri" then inl OTypeError else missing
  | _ => inl OTypeError
  end.

(** The cached configuration and the requests that were sent. *)
Record OIDCDiscovery := { od_issuer : string; od_cached : option OIDCConfig; od_sent : list (string * odict string string) }.
Definition new_discovery (issuer_url : string) : OIDCDiscovery :=
  {| od_issuer := rstrip_slash issuer_url; od_cached := None; od_sent := [] |}.

Definition fetch : M OIDCDiscovery oidc_exc OIDCConfig := λ s,
  match od_cached s with
  | Some c => (inr c, s)
  | None =>
      let url := od_issuer s +:+ "/.well-known/openid-configuration" in
      match (ips ← _validate_issuer_url (od_issuer s); _build_pinned_request url (default "" (head ips))) with
      | inl e => (inl e, s)
      | inr (u, headers) =>
          let s1 := {| od_issuer := od_issuer s; od_cached := None; od_sent := od_sent s ++ [(u, headers)] |} in
          match http u headers with
          | HttpError => (inl (OIDCDiscoveryError "Failed to fetch OIDC discovery document"), s1)
          | Answer body =>
              match config_of (od_issuer s) body with
              | inl e => (inl e, s1)
              | inr c => (inr c, {| od_issuer := od_issuer s; od_cached := Some c; od_sent := od_sent s1 |})
              end
          end
      end
  end.
Definition refresh : M OIDCDiscovery oidc_exc OIDCConfig := λ s,
  fetch {| od_issuer := od_issuer s; od_cached := None; od_sent := od_sent s |}.

(** ** Only public addresses are contacted *)

Lemma usable_public ips l : usable ips = Some l →
  Forall (λ ip, ip ∈ ips ∧ checked ip = Some false) l ∧ Forall (λ ip, checked ip ≠ Some true) ips.
Proof.
  revert l. induction ips as [|ip ips IH]; intros l; simpl; [by intros [= <-]|].
  destruct (checked ip) as [[]|] eqn:E; [done|..].
  - destruct (usable ips) as [l'|]; [|done]. intros [= <-]. destruct (IH l' eq_refl) as [H1 H2]. split.
    + constructor; [split; [by left|done]|]. eapply Forall_impl; [exact H1|]. intros x [? ?]. split; [by right|done].
    + constructor; [by rewrite E|done].
  - intros H. destruct (IH l H) as [H1 H2]. split.
    + eapply Forall_impl; [exact H1|]. intros x [? ?]. split; [by right|done].
    + constructor; [by rewrite E|done].
Qed.

(** A request is pinned: to the issuer's own name over TLS, or to an address of
    its name that was checked. *)
Definition pinned (issuer : string) (req : string * odict string string) : Prop :=
  ∃ parsed host ips, urlparse bracket_ok issuer = Some parsed ∧ url_hostname parsed = Some host ∧
    getaddrinfo host = Some ips ∧ Forall (λ ip, checked ip ≠ Some true) ips ∧
    ((req = (issuer +:+ "/.well-known/openid-configuration", []) ∧ ∃ u, urlparse bracket_ok req.1 = Some u ∧ url_scheme u = "https") ∨
     ∃ ip port u, ip ∈ ips ∧ checked ip = Some false ∧
       urlparse bracket_ok (issuer +:+ "/.well-known/openid-configuration") = Some u ∧ url_port u = inr port ∧
       req = (url_scheme u +:+ "://" +:+ with_port ip port +:+ url_rest u, [("Host", with_port (default "" (url_hostname u)) port)])).

Lemma issuer_checked issuer ips : _validate_issuer_url issuer = inr ips →
  ∃ parsed host all ip rest, urlparse bracket_ok issuer = Some parsed ∧ url_hostname parsed = Some host ∧
    getaddrinfo host = Some all ∧ Forall (λ ip, checked ip ≠ Some true) all ∧ ips = ip :: rest ∧ ip ∈ all ∧ checked ip = Some false.
Proof.
  unfold _validate_issuer_url. destruct (urlparse bracket_ok issuer) as [parsed|] eqn:Ep; [|done].
  destruct (url_hostname parsed) as [host|] eqn:Eh; [|done]. destruct (negb _); [done|].
  destruct (getaddrinfo host) as [all|] eqn:Ea; [|done]. destruct (usable all) as [[|ip rest]|] eqn:Eu; try done.
  intros [= <-]. apply usable_public in Eu as [H1 H2]. apply Forall_cons in H1 as [[Hin Hc] _].
  by exists parsed, host, all, ip, rest.
Qed.

(** Discovery contacts only what it has checked.  A fetch sends at most one
    request, none when a configuration is cached; a request goes out only if no
    address of the issuer's host is private, loopback, link-local or reserved
    (also inside an IPv6 address), and then either to the issuer's own URL over
    TLS or to one of the addresses that were checked, with the issuer's host in
    the header; and a configuration that is returned is cached. *)
Theorem oidc_contacts_public (s s' : OIDCDiscovery) (r : oidc_exc + OIDCConfig) (Hrun : fetch s = (r, s')) :
  (od_sent s' = od_sent s ∨ ∃ req, od_sent s' = od_sent s ++ [req] ∧ pinned (od_issuer s) req ∧ od_cached s = None) ∧
  (∀ c, r = inr c → od_cached s' = Some c) ∧ (is_Some (od_cached s) → s' = s).
Proof.
  unfold fetch in Hrun. destruct (od_cached s) as [c0|] eqn:Ec.
  { simplify_eq. split_and!; [by left|by intros c [= <-]|done]. }
  set (url := od_issuer s +:+ _) in Hrun.
  destruct (ips ← _validate_issuer_url (od_issuer s); _build_pinned_request url (default "" (head ips))) as [e|[u h]] eqn:E.
  { simplify_eq. split_and!; [by left|done|by intros []]. }
  assert (Hpin : pinned (od_issuer s) (u, h)).
  { apply sum_bind_inr in E as (ips & Hv & Hb). destruct (issuer_checked _ _ Hv) as (p & host & all & ip & rest & Hp & Hh & Ha & Hall & -> & Hin & Hip).
    exists p, host, all. split_and!; try done. unfold _build_pinned_request in Hb. simpl in Hb.
    destruct (urlparse bracket_ok url) as [pu|] eqn:Epu; [|done]. case_bool_decide as Hs.
    - injection Hb as <- <-. left. split; [done|]. by exists pu.
    - right. apply sum_bind_inr in Hb as (port & Hport & [= <- <-]). by exists ip, port, pu. }
  assert (Hsent : ∀ s1, od_sent s1 = od_sent s ++ [(u, h)] →
    od_sent s1 = od_sent s ∨ ∃ req, od_sent s1 = od_sent s ++ [req] ∧ pinned (od_issuer s) req ∧ None = @None OIDCConfig).
  { intros s1 Hs1. right. eauto. }
  destruct (http u h) as [body|]; [destruct (config_of (od_issuer s) body) as [e|c] eqn:Ecfg|]; simplify_eq;
    (split_and!; [by apply Hsent|by intros ? [= <-] || done|by intros []]).
Qed.
End oidc.

(** ** Examples and boundary cases *)

(** A token library with one good token; its second key client knows the key. *)
Definition good_claims : odict string pyval :=
  [("iss", PStr "https://id"); ("aud", PList [PStr "x"; PStr "argus"]); ("sub", PStr "u1"); ("realm_access", PDict [("roles", PList [])])].
Definition demo_decode (token k : string) (a : decode_args) : pyjwt_error + odict string pyval :=
  if bool_decide (token = "good") && bool_decide ("RS256" ∈ da_algorithms a) && bool_decide (da_issuer a = Some "https://id") &&
     bool_decide (da_audience a = Some "argus")
  then if bool_decide (k = "new") then inr good_claims else inl InvalidSignature
  else inl (OtherInvalid "bad").
#[local, refine] Instance demo_jwt : PyJWT string := {
  signing_key _ n _ _ := inr (if Nat.eqb n 0 then "old" else "new");
  decode := demo_decode;
  verifies token k alg := token = "good" ∧ k = "new" ∧ alg = "RS256" }.
Proof.
  intros token k a claims H. unfold demo_decode in H. repeat case_bool_decide; try done. simplify_eq/=. split_and!.
  - by exists "RS256".
  - intros i Hi. by simplify_eq.
  - intros x Hx. simplify_eq. right. eexists. split; [reflexivity|]. set_solver.
Defined.
Definition demo_config : JWTConfig :=
  {| jwks_uri := "https://id/keys"; issuer := "https://id"; audience := "argus"; algorithms := ["RS256"; "ES256"] |}.


Definition demo_dns (h : string) : option (list string) :=
  if bool_decide (h = "id.example") then Some ["203.0.113.7"] else if bool_decide (h = "v6.example") then Some ["2606:4700::1"] else None.
Definition demo_http (_ : string) (_ : odict string string) : oidc_reply := Answer (PDict [("jwks_uri", PStr "https://id/keys")]).

Lemma oidc_contacts_public_witness :
  let run := fetch (λ _, true) demo_dns (λ _, Some false) (λ _, None) demo_http (new_discovery "http://id.example:8080/") in
  od_sent run.2 = [("http://203.0.113.7:8080/.well-known/openid-configuration", [("Host", "id.example:8080")])] ∧
  ∀ c, run.1 = inr c → od_cached run.2 = Some c.
Proof.
  intros run. split; [vm_compute; reflexivity|].
  apply (oidc_contacts_public (λ _, true) demo_dns (λ _, Some false) (λ _, None) demo_http (new_discovery "http://id.example:8080/")
    run.2 run.1). apply surjective_pairing.
Defined.

(** An IPv6 address is put into the URL without brackets: the request goes to
    another host name, the part before the first colon. *)
Lemma ipv6_pin_malformed :
  let run := fetch (λ _, true) demo_dns (λ _, Some false) (λ _, None) demo_http (new_discovery "http://v6.example") in
  od_sent run.2 = [("http://2606:4700::1/.well-known/openid-configuration", [("Host", "v6.example")])] ∧
  ∃ u, urlparse (λ _, true) "http://2606:4700::1/.well-known/openid-configuration" = Some u ∧ url_hostname u = Some "2606".
Proof. split; [vm_compute; reflexivity|]. eexists. split; vm_compute; reflexivity. Qed.
