(* ===== verification/Chain.v ===== *)
(** * Request dispatch (bridge/middleware/*.py, server/handlers.py)

    A request is a computation in the state and exception monad: the state is
    the mutable [RequestContext] together with everything the request makes the
    outside world see (backend calls, audit events, metrics).  A middleware
    wraps a handler; [build_chain] composes them and the stack is the one
    server/lifespan.py installs. *)
From S2P Require Import Prelude PyDict Effects Registry Authz Auth.

(** The values middlewares store in [ctx.metadata]. *)
Inductive mdval := MUser (u : UserIdentity) | MStr (s : string) | MVal (v : pyval).

Definition md_str (v : option mdval) : option string :=
  match v with Some (MStr s) => Some s | _ => None end.

Inductive exn :=
  | AuthenticationError (msg : string)
  | AuthorizationError (msg : string)
  | BackendServerError (msg : string)
  | ValueError (msg : string)
  | RuntimeError (msg : string)
  | NotImplementedError (msg : string)
  | AssertionError (msg : string)
  | TypeError (msg : string)
  | OtherError (type_name msg : string).

Definition exn_type (e : exn) : string :=
  match e with
  | AuthenticationError _ => "AuthenticationError" | AuthorizationError _ => "AuthorizationError"
  | BackendServerError _ => "BackendServerError" | ValueError _ => "ValueError"
  | RuntimeError _ => "RuntimeError" | NotImplementedError _ => "NotImplementedError"
  | AssertionError _ => "AssertionError" | TypeError _ => "TypeError"
  | OtherError t _ => t
  end.
Definition exn_str (e : exn) : string :=
  match e with
  | AuthenticationError m | AuthorizationError m | BackendServerError m | ValueError m
  | RuntimeError m | NotImplementedError m | AssertionError m | TypeError m | OtherError _ m => m
  end.

(** What a handler returns: an MCP result object, [None] or anything else. *)
Inductive response :=
  | RespNone
  | CallToolResult (content : list string) (isError : bool)
  | ReadResourceResult (v : pyval)
  | GetPromptResult (v : pyval)
  | RespOther (v : pyval).

Definition arguments_t : Type := option (odict string pyval).

Record RequestContext := {
  capability_name : string;
  mcp_method : string;
  arguments : arguments_t;
  request_id : string;
  server_name : option string;
  original_name : option string;
  start_time : Z;
  metadata : odict string mdval;
  error : option exn }.

Record AuditEvent := {
  event_id : string;
  src_session_id : option string; src_client_ip : option string; src_user_id : option string;
  tgt_backend : option string; tgt_method : string; tgt_capability : string; tgt_original : option string;
  out_status : string; out_latency_ms : Z; out_error : option string; out_error_type : option string }.

Record metric := { m_tool : string; m_backend : string; m_duration_ms : Z; m_success : bool }.

(** A request sent to a backend session. *)
Record backend_call := { bk_server : string; bk_method : string; bk_name : string; bk_args : arguments_t }.

(** The state of one request; [clock] is the monotonic clock in milliseconds. *)
Record req := {
  ctx : RequestContext;
  calls : list backend_call;
  audit_log : list AuditEvent;
  metrics : list metric;
  clock : Z }.

Definition handler : Type := M req exn response.
Record middleware := { mw_name : string; mw_call : handler → handler }.

Definition on_ctx (f : RequestContext → RequestContext) (s : req) : req :=
  {| ctx := f (ctx s); calls := calls s; audit_log := audit_log s; metrics := metrics s; clock := clock s |}.
Definition set_error (e : exn) (c : RequestContext) : RequestContext :=
  {| capability_name := capability_name c; mcp_method := mcp_method c; arguments := arguments c;
     request_id := request_id c; server_name := server_name c; original_name := original_name c;
     start_time := start_time c; metadata := metadata c; error := Some e |}.
Definition set_route (svr orig : string) (c : RequestContext) : RequestContext :=
  {| capability_name := capability_name c; mcp_method := mcp_method c; arguments := arguments c;
     request_id := request_id c; server_name := Some svr; original_name := Some orig;
     start_time := start_time c; metadata := metadata c; error := error c |}.
Definition set_meta (k : string) (v : mdval) (c : RequestContext) : RequestContext :=
  {| capability_name := capability_name c; mcp_method := mcp_method c; arguments := arguments c;
     request_id := request_id c; server_name := server_name c; original_name := original_name c;
     start_time := start_time c; metadata := dset (metadata c) k v; error := error c |}.
Definition emit (e : AuditEvent) (s : req) : req :=
  {| ctx := ctx s; calls := calls s; audit_log := audit_log s ++ [e]; metrics := metrics s; clock := clock s |}.
Definition record_request (m : metric) (s : req) : req :=
  {| ctx := ctx s; calls := calls s; audit_log := audit_log s; metrics := metrics s ++ [m]; clock := clock s |}.
(** A backend is called and answers [dt] milliseconds later. *)
Definition log_call (b : backend_call) (dt : Z) (s : req) : req :=
  {| ctx := ctx s; calls := calls s ++ [b]; audit_log := audit_log s; metrics := metrics s; clock := clock s + dt |}.

Definition elapsed_ms (s : req) : Z := clock s - start_time (ctx s).

(** ** The chain *)

Definition wrap (mw : middleware) (next : handler) : handler :=
  result ← mw_call mw next;
  match result with
  | RespNone => raise (AssertionError ("Middleware '" +:+ mw_name mw +:+
      "' returned None; middleware must return a response or raise."))
  | _ => mret result
  end.

Definition build_chain (middlewares : list middleware) (h : handler) : handler :=
  foldl (λ chain mw, wrap mw chain) h (reverse middlewares).

Lemma build_chain_foldr mws h : build_chain mws h = foldr wrap h mws.
Proof.
  unfold build_chain. induction mws as [|m mws IH]; [done|].
  rewrite reverse_cons, foldl_app. simpl. by rewrite IH.
Qed.

(** ** The middlewares *)

Definition RecoveryMiddleware : middleware := {|
  mw_name := "RecoveryMiddleware";
  mw_call next :=
    try_except next (λ e,
      modify (on_ctx (set_error e)) ≫= λ _,
      s ← get_state;
      mret (CallToolResult ["Internal error processing " +:+ mcp_method (ctx s)] true)) |}.

Definition audit_event (s : req) : AuditEvent :=
  let c := ctx s in
  {| event_id := request_id c;
     src_session_id := md_str (dget (metadata c) "session_id");
     src_client_ip := md_str (dget (metadata c) "client_ip");
     src_user_id := md_str (dget (metadata c) "user_subject");
     tgt_backend := server_name c; tgt_method := mcp_method c;
     tgt_capability := capability_name c; tgt_original := original_name c;
     out_status := match error c with Some _ => "error" | None => "success" end;
     out_latency_ms := elapsed_ms s;
     out_error := exn_str <$> error c;
     out_error_type := exn_type <$> error c |}.

(** [audit_logger] tells whether an [AuditLogger] is attached. *)
Definition AuditMiddleware (audit_logger : bool) : middleware := {|
  mw_name := "AuditMiddleware";
  mw_call next :=
    result ← next;
    (if audit_logger then modify (λ s, emit (audit_event s) s) else mret ()) ≫= λ _,
    mret result |}.

Inductive auth_mode := strict | permissive.
Definition auth_mode_str (m : auth_mode) : string :=
  match m with strict => "strict" | permissive => "permissive" end.

(** The identity [AuthMiddleware] settles on, or the exception. *)
Definition auth_decision (auth : option string → auth_error + UserIdentity) (mode : auth_mode)
    (token : option string) : exn + UserIdentity :=
  let run t := match auth t with
               | inr u => inr u
               | inl (AuthenticationFailed m) => inl (AuthenticationError m)
               | inl TypeErrorAuth => inl (TypeError "comparing strings with non-ASCII characters is not supported")
               end in
  match token, mode with
  | Some t, _ => run (Some t)
  | None, permissive => inr anonymous_user
  | None, strict => run None
  end.

Definition AuthMiddleware (auth : option string → auth_error + UserIdentity) (mode : auth_mode)
    : middleware := {|
  mw_name := "AuthMiddleware";
  mw_call next :=
    s ← get_state;
    match auth_decision auth mode (md_str (dget (metadata (ctx s)) "auth_token")) with
    | inl e => raise e
    | inr user =>
        modify (on_ctx (set_meta "user" (MUser user))) ≫= λ _,
        modify (on_ctx (set_meta "auth_mode" (MStr (auth_mode_str mode)))) ≫= λ _,
        (if bool_decide (subject user = "") then mret ()
         else modify (on_ctx (set_meta "user_subject" (MStr (subject user))))) ≫= λ _,
        next
    end |}.

Definition ctx_user (c : RequestContext) : option UserIdentity :=
  match dget (metadata c) "user" with Some (MUser u) => Some u | _ => None end.

(** [repr_list] renders the roles in the message of the exception. *)
Definition AuthzMiddleware (repr_list : list string → string) (engine : PolicyEngine) : middleware := {|
  mw_name := "AuthzMiddleware";
  mw_call next :=
    s ← get_state;
    let rs := match ctx_user (ctx s) with Some u => user_roles u | None => [] end in
    let resource := "tool:" +:+ capability_name (ctx s) in
    if bool_decide (evaluate engine rs resource = DENY)
    then raise (AuthorizationError ("Access denied for '" +:+ capability_name (ctx s) +:+
           "' — insufficient permissions (roles: " +:+ repr_list rs +:+ ")"))
    else next |}.

Definition request_metric (success : bool) (s : req) : metric :=
  {| m_tool := capability_name (ctx s); m_backend := str_or (server_name (ctx s)) "unknown";
     m_duration_ms := elapsed_ms s; m_success := success |}.

(** The spans themselves are not observable here; the [finally] block records
    the metric with the [success] flag of the [try] statement. *)
Definition TelemetryMiddleware : middleware := {|
  mw_name := "TelemetryMiddleware";
  mw_call next := λ s,
    match next s with
    | (inr result, s') => (inr result, record_request (request_metric true s') s')
    | (inl e, s') => (inl e, record_request (request_metric false s') s')
    end |}.

Definition _ALLOWED_MCP_METHODS : list string := ["call_tool"; "read_resource"; "get_prompt"].

(** A backend session: the answer to a method call and how long it takes. *)
Definition session_t : Type := string → string → arguments_t → (exn + response) * Z.

(** The arguments each MCP method is called with. *)
Definition method_args (method : string) (args : arguments_t) : arguments_t :=
  if bool_decide (method = "call_tool") then Some (default [] args)
  else if bool_decide (method = "read_resource") then None
  else args.

Definition RoutingMiddleware (reg : option registry) (manager : option (string → option session_t))
    : handler :=
  match reg, manager with
  | Some r, Some get_session =>
      s ← get_state;
      let c := ctx s in
      match resolve_capability r (capability_name c) with
      | None => raise (ValueError ("Capability '" +:+ capability_name c +:+ "' does not exist."))
      | Some (svr_name, orig_cap_name) =>
          modify (on_ctx (set_route svr_name orig_cap_name)) ≫= λ _,
          match get_session svr_name with
          | None => raise (RuntimeError ("Unable to connect to backend server '" +:+ svr_name +:+
              "' providing '" +:+ capability_name c +:+ "' (session missing or lost)."))
          | Some session =>
              if negb (bool_decide (mcp_method c ∈ _ALLOWED_MCP_METHODS))
              then raise (NotImplementedError ("Internal server error: unsupported method '" +:+
                     mcp_method c +:+ "'."))
              else
                let args := method_args (mcp_method c) (arguments c) in
                let '(answer, dt) := session (mcp_method c) orig_cap_name args in
                modify (log_call {| bk_server := svr_name; bk_method := mcp_method c;
                                    bk_name := orig_cap_name; bk_args := args |} dt) ≫= λ _,
                match answer with inl e => raise e | inr result => mret result end
          end
      end
  | _, _ => raise (BackendServerError "Internal server error: core components not initialized.")
  end.

(** ** The installed stack (server/lifespan.py, [_build_middleware_stack]) *)

Record stack_conf := {
  sc_auth : option ((option string → auth_error + UserIdentity) * auth_mode);
  sc_plugins : option middleware;
  sc_telemetry : bool;
  sc_audit_logger : bool }.

Definition stack_middlewares (sc : stack_conf) : list middleware :=
  match sc_auth sc with Some (auth, mode) => [AuthMiddleware auth mode] | None => [] end ++
  [RecoveryMiddleware] ++
  match sc_plugins sc with Some p => [p] | None => [] end ++
  (if sc_telemetry sc then [TelemetryMiddleware] else []) ++
  [AuditMiddleware (sc_audit_logger sc)].

Definition _build_middleware_stack (sc : stack_conf) (reg : option registry)
    (manager : option (string → option session_t)) : handler :=
  build_chain (stack_middlewares sc) (RoutingMiddleware reg manager).

(** ** Dispatch *)

(** The context variables the transport sets before a handler runs. *)
Record ambient := {
  current_user : option UserIdentity; current_auth_token : option string;
  current_session_id : option string; current_client_ip : option string }.

Definition dispatch_metadata (a : ambient) : odict string mdval :=
  let md0 : odict string mdval := [] in
  let md1 := match current_user a with
             | Some u => dset (dset md0 "user" (MUser u)) "user_subject" (MStr (subject u))
             | None => md0 end in
  let md2 := match current_auth_token a with Some t => dset md1 "auth_token" (MStr t) | None => md1 end in
  let md3 := match current_session_id a with Some i => dset md2 "session_id" (MStr i) | None => md2 end in
  match current_client_ip a with Some i => dset md3 "client_ip" (MStr i) | None => md3 end.

(** A fresh request: [rid] is the generated id, [now] the start time. *)
Definition new_request (a : ambient) (rid : string) (now : Z) (cap_name method : string)
    (args : arguments_t) : req :=
  {| ctx := {| capability_name := cap_name; mcp_method := method; arguments := args;
               request_id := rid; server_name := None; original_name := None; start_time := now;
               metadata := dispatch_metadata a; error := None |};
     calls := []; audit_log := []; metrics := []; clock := now |}.

Definition reraise : response → handler := λ result,
  s ← get_state;
  match error (ctx s) with Some e => raise e | None => mret result end.

Definition _dispatch (chain : option handler) (a : ambient) (rid : string) (now : Z)
    (cap_name method : string) (args : arguments_t) : (exn + response) * req :=
  let s0 := new_request a rid now cap_name method args in
  match chain with
  | None => (inl (RuntimeError "Middleware chain is not initialised on the MCP server instance."), s0)
  | Some chain => (chain ≫= reraise) s0
  end.

(** ** What a request does *)

Definition none_error (name : string) : exn :=
  AssertionError ("Middleware '" +:+ name +:+ "' returned None; middleware must return a response or raise.").

Definition succeeded (r : exn + response) : bool := match r with inr _ => true | inl _ => false end.

Lemma wrap_run mw next s :
  wrap mw next s =
  match mw_call mw next s with
  | (inr RespNone, s') => (inl (none_error (mw_name mw)), s')
  | x => x
  end.
Proof. unfold wrap, mbind, M_bind. by destruct (mw_call mw next s) as [[e|[]] s']. Qed.

Lemma audit_run lg next s :
  wrap (AuditMiddleware lg) next s =
  match next s with
  | (inl e, s') => (inl e, s')
  | (inr r, s') =>
      let s'' := if lg then emit (audit_event s') s' else s' in
      (match r with RespNone => inl (none_error "AuditMiddleware") | _ => inr r end, s'')
  end.
Proof.
  rewrite wrap_run. simpl. unfold mbind, M_bind. destruct (next s) as [[e|r] s']; [done|].
  destruct lg, r; done.
Qed.

Lemma telemetry_run next s :
  (next s).1 ≠ inr RespNone →
  wrap TelemetryMiddleware next s =
  let '(r, s') := next s in (r, record_request (request_metric (succeeded r) s') s').
Proof.
  intros Hn. rewrite wrap_run. simpl. destruct (next s) as [[e|[]] s'] eqn:E; done.
Qed.

Lemma recovery_run next s :
  (next s).1 ≠ inr RespNone → error (ctx (next s).2) = None →
  (wrap RecoveryMiddleware next ≫= reraise) s =
  match next s with
  | (inl e, s') => (inl e, on_ctx (set_error e) s')
  | (inr r, s') => (inr r, s')
  end.
Proof.
  intros Hn He. unfold mbind, M_bind. rewrite wrap_run. simpl. unfold try_except, reraise.
  destruct (next s) as [[e|r] s'] eqn:E; [done|]. simpl in *.
  destruct r; try done; unfold mbind, M_bind; simpl; by rewrite He.
Qed.

Lemma routing_error reg mgr s : error (ctx (RoutingMiddleware reg mgr s).2) = error (ctx s).
Proof.
  unfold RoutingMiddleware. destruct reg as [r|], mgr as [m|]; try done.
  unfold mbind, M_bind. simpl. destruct (resolve_capability _ _) as [[svr orig]|]; [|done].
  simpl. destruct (m svr); [|done]. case_test; [done|]. by destruct (s0 _ _ _) as [[] ?].
Qed.

(** The request once [AuthMiddleware] has let it through. *)
Definition authenticated (mode : auth_mode) (user : UserIdentity) (s : req) : req :=
  let s1 := on_ctx (set_meta "auth_mode" (MStr (auth_mode_str mode))) (on_ctx (set_meta "user" (MUser user)) s) in
  if bool_decide (subject user = "") then s1 else on_ctx (set_meta "user_subject" (MStr (subject user))) s1.

Definition after_auth (sc : stack_conf) (s : req) : exn + req :=
  match sc_auth sc with
  | None => inr s
  | Some (auth, mode) =>
      match auth_decision auth mode (md_str (dget (metadata (ctx s)) "auth_token")) with
      | inl e => inl e
      | inr user => inr (authenticated mode user s)
      end
  end.

Lemma after_auth_error sc s s1 : after_auth sc s = inr s1 → error (ctx s1) = error (ctx s).
Proof.
  unfold after_auth. destruct (sc_auth sc) as [[auth mode]|]; [|by intros; simplify_eq].
  destruct (auth_decision _ _ _) as [e|u]; intros; simplify_eq. unfold authenticated. by case_test.
Qed.

Lemma auth_run auth mode next s :
  wrap (AuthMiddleware auth mode) next s =
  match auth_decision auth mode (md_str (dget (metadata (ctx s)) "auth_token")) with
  | inl e => (inl e, s)
  | inr user =>
      match next (authenticated mode user s) with
      | (inr RespNone, s') => (inl (none_error "AuthMiddleware"), s')
      | x => x
      end
  end.
Proof.
  rewrite wrap_run. cbn [mw_call mw_name AuthMiddleware]. unfold mbind, M_bind, get_state.
  destruct (auth_decision _ _ _) as [e|u]; [done|]. unfold authenticated. by case_test.
Qed.

(** The inner part of the stack: telemetry around audit around routing. *)
Definition observed (sc : stack_conf) (rout : exn + response) (rs : req) : (exn + response) * req :=
  let rs1 := if sc_audit_logger sc && succeeded rout then emit (audit_event rs) rs else rs in
  let out := match rout with inr RespNone => inl (none_error "AuditMiddleware") | _ => rout end in
  (out, if sc_telemetry sc then record_request (request_metric (succeeded out) rs1) rs1 else rs1).

Lemma inner_run sc reg mgr s :
  foldr wrap (RoutingMiddleware reg mgr)
    ((if sc_telemetry sc then [TelemetryMiddleware] else []) ++ [AuditMiddleware (sc_audit_logger sc)]) s =
  let '(rout, rs) := RoutingMiddleware reg mgr s in observed sc rout rs.
Proof.
  destruct (sc_telemetry sc) eqn:Et; cbn [app foldr].
  - rewrite telemetry_run; rewrite audit_run;
      destruct (RoutingMiddleware reg mgr s) as [[e|r] rs]; unfold observed; rewrite ?Et; simpl.
    + by rewrite andb_false_r.
    + rewrite andb_true_r. by destruct r.
    + done.
    + by destruct r.
  - rewrite audit_run. destruct (RoutingMiddleware reg mgr s) as [[e|r] rs]; unfold observed; rewrite ?Et; simpl.
    + by rewrite andb_false_r.
    + rewrite andb_true_r. by destruct r.
Qed.

Lemma observed_facts sc rout rs :
  (observed sc rout rs).1 ≠ inr RespNone ∧ ctx (observed sc rout rs).2 = ctx rs ∧
  calls (observed sc rout rs).2 = calls rs.
Proof. unfold observed. split_and!; [by destruct rout as [|[]]|..]; simpl; repeat case_test; done. Qed.

Lemma dispatch_run sc reg mgr a rid now cap method args :
  sc_plugins sc = None →
  let s0 := new_request a rid now cap method args in
  _dispatch (Some (_build_middleware_stack sc reg mgr)) a rid now cap method args =
  match after_auth sc s0 with
  | inl e => (inl e, s0)
  | inr s1 =>
      let '(rout, rs) := RoutingMiddleware reg mgr s1 in
      let '(out, rs') := observed sc rout rs in
      (out, match out with inl e => on_ctx (set_error e) rs' | inr _ => rs' end)
  end.
Proof.
  intros Hp s0. unfold _dispatch, _build_middleware_stack. rewrite build_chain_foldr.
  unfold stack_middlewares. rewrite Hp. rewrite foldr_app. cbn [app foldr].
  set (inner := foldr wrap (RoutingMiddleware reg mgr)
    ((if sc_telemetry sc then [TelemetryMiddleware] else []) ++ [AuditMiddleware (sc_audit_logger sc)])).
  assert (∀ s, error (ctx s) = None →
    (wrap RecoveryMiddleware inner ≫= reraise) s =
    let '(rout, rs) := RoutingMiddleware reg mgr s in
    let '(out, rs') := observed sc rout rs in
    (out, match out with inl e => on_ctx (set_error e) rs' | inr _ => rs' end)) as Hrec.
  { intros s He. pose proof (inner_run sc reg mgr s) as Hi.
    pose proof (routing_error reg mgr s) as Hre.
    fold inner in Hi.
    destruct (RoutingMiddleware reg mgr s) as [rout rs].
    change (inner s = observed sc rout rs) in Hi.
    destruct (observed_facts sc rout rs) as (Ho1 & Ho2 & _).
    rewrite recovery_run; rewrite Hi; cbn [fst snd] in *; [|done|congruence].
    by destruct (observed sc rout rs) as [[e|r] rs']. }
  unfold after_auth. destruct (sc_auth sc) as [[auth mode]|]; cbn [foldr app]; [|by apply Hrec].
  unfold mbind, M_bind. rewrite auth_run. fold s0. destruct (auth_decision _ _ _) as [e|u]; [done|].
  assert (error (ctx (authenticated mode u s0)) = None) as He by (unfold authenticated; by case_test).
  specialize (Hrec _ He). unfold mbind, M_bind in Hrec. rewrite <-Hrec.
  rewrite wrap_run. by destruct (mw_call _ _ _) as [[e|[]] s'].
Qed.

(** C3: the exact effect of dispatching a request through the installed stack
    (without plugins).  Authentication runs first and a rejected request has no
    effect at all; otherwise the outcome is that of the routing layer, the
    original exception included, and a result of [None] becomes an assertion
    error; with telemetry on, exactly one metric is recorded and its flag is
    the outcome; one audit event is written when the routing layer returned,
    and none when it raised; nothing else changes. *)
Theorem dispatch_exact sc reg mgr a rid now cap method args :
  sc_plugins sc = None →
  let s0 := new_request a rid now cap method args in
  _dispatch (Some (_build_middleware_stack sc reg mgr)) a rid now cap method args =
  match after_auth sc s0 with
  | inl e => (inl e, s0)
  | inr s1 =>
      let '(rout, rs) := RoutingMiddleware reg mgr s1 in
      let '(out, rs') := observed sc rout rs in
      (out, match out with inl e => on_ctx (set_error e) rs' | inr _ => rs' end)
  end.
Proof. exact (dispatch_run sc reg mgr a rid now cap method args). Qed.

(** Parameters used by the witnesses: one backend [a] with the tool [search],
    which answers after 7 ms or fails. *)
Definition demo_registry : registry :=
  discover_and_register (plain_conf (Conflict.First Conflict.Build_FirstWinsStrategy)) [tools_task "a" ["search"]].
Definition demo_manager (answer : exn + response) : string → option session_t :=
  λ svr, if bool_decide (svr = "a") then Some (λ _ _ _, (answer, 7)) else None.
Definition demo_ambient : ambient :=
  {| current_user := None; current_auth_token := None; current_session_id := None; current_client_ip := None |}.
Definition demo_stack : stack_conf :=
  {| sc_auth := None; sc_plugins := None; sc_telemetry := true; sc_audit_logger := true |}.

Lemma dispatch_exact_witness :
  let ok := CallToolResult ["hit"] false in
  let d := _dispatch (Some (_build_middleware_stack demo_stack (Some demo_registry) (Some (demo_manager (inr ok)))))
             demo_ambient "r1" 100 "search" "call_tool" None in
  d.1 = inr ok ∧ length (audit_log d.2) = 1%nat ∧ m_success <$> metrics d.2 = [true].
Proof.
  intros ok d. unfold d.
  rewrite (dispatch_exact demo_stack (Some demo_registry) (Some (demo_manager (inr ok)))
    demo_ambient "r1" 100 "search" "call_tool" None) by reflexivity.
  split_and!; reflexivity.
Defined.

(** What the routing layer does to the list of backend calls. *)
Lemma routing_calls r mgr s :
  let '(out, s') := RoutingMiddleware (Some r) mgr s in
  (calls s' = calls s ∧ succeeded out = false) ∨
  (∃ svr orig, resolve_capability r (capability_name (ctx s)) = Some (svr, orig) ∧
     mcp_method (ctx s) ∈ _ALLOWED_MCP_METHODS ∧
     calls s' = calls s ++ [{| bk_server := svr; bk_method := mcp_method (ctx s); bk_name := orig;
                               bk_args := method_args (mcp_method (ctx s)) (arguments (ctx s)) |}] ∧
     server_name (ctx s') = Some svr ∧ original_name (ctx s') = Some orig).
Proof.
  unfold RoutingMiddleware. destruct mgr as [m|]; [|by left].
  unfold mbind, M_bind, get_state. destruct (resolve_capability r _) as [[svr orig]|] eqn:Er; [|by left].
  unfold modify. destruct (m svr) as [sess|]; [|by left].
  destruct (bool_decide (mcp_method (ctx s) ∈ _ALLOWED_MCP_METHODS)) eqn:Em; cbn [negb]; [|by left].
  reflect_bools. destruct (sess _ _ _) as [answer dt]. destruct answer; right; exists svr, orig; done.
Qed.

Lemma after_auth_ctx sc s s1 :
  after_auth sc s = inr s1 →
  calls s1 = calls s ∧ capability_name (ctx s1) = capability_name (ctx s) ∧
  mcp_method (ctx s1) = mcp_method (ctx s) ∧ arguments (ctx s1) = arguments (ctx s) ∧
  audit_log s1 = audit_log s.
Proof.
  unfold after_auth. destruct (sc_auth sc) as [[auth mode]|]; [|by intros; simplify_eq].
  destruct (auth_decision _ _ _) as [e|u]; intros; simplify_eq. unfold authenticated. by case_test.
Qed.

(** A dispatched request sends at most one call to a backend, and only to
    the server, and under the original name, that the registry gives for the
    exposed name, with one of the three MCP methods; a request that returns a
    result has sent exactly that call. *)
Theorem dispatch_routes sc r mgr a rid now cap method args :
  sc_plugins sc = None →
  let '(out, s) := _dispatch (Some (_build_middleware_stack sc (Some r) mgr)) a rid now cap method args in
  (calls s = [] ∧ succeeded out = false) ∨
  (∃ svr orig, resolve_capability r cap = Some (svr, orig) ∧ method ∈ _ALLOWED_MCP_METHODS ∧
     calls s = [{| bk_server := svr; bk_method := method; bk_name := orig; bk_args := method_args method args |}]).
Proof.
  intros Hp. rewrite dispatch_run by done. set (s0 := new_request a rid now cap method args).
  destruct (after_auth sc s0) as [e|s1] eqn:Ea; [by left|].
  destruct (after_auth_ctx _ _ _ Ea) as (Hc & Hn & Hm & Hargs & _).
  pose proof (routing_calls r mgr s1) as Hr.
  destruct (RoutingMiddleware (Some r) mgr s1) as [rout rs].
  destruct (observed_facts sc rout rs) as (_ & _ & Hoc).
  assert (succeeded rout = false → succeeded (observed sc rout rs).1 = false) as Hs.
  { unfold observed. by destruct rout as [|[]]. }
  destruct (observed sc rout rs) as [out rs']. cbn [fst snd] in *.
  assert (calls (match out with inl e => on_ctx (set_error e) rs' | inr _ => rs' end) = calls rs) as Hcalls.
  { rewrite <-Hoc. by destruct out. }
  rewrite Hcalls. destruct Hr as [[Hr1 Hr2]|(svr & orig & H1 & H2 & H3 & _)].
  - left. rewrite Hr1, Hc. auto.
  - right. exists svr, orig. rewrite Hn in H1. rewrite Hm in H2. split_and!; [done|done|].
    rewrite H3, Hc, Hm, Hargs. done.
Qed.

Lemma dispatch_routes_witness :
  let d := _dispatch (Some (_build_middleware_stack demo_stack (Some demo_registry)
             (Some (demo_manager (inr (CallToolResult ["hit"] false)))))) demo_ambient "r1" 100 "search" "call_tool" None in
  (calls d.2 = [] ∧ succeeded d.1 = false) ∨
  (∃ svr orig, resolve_capability demo_registry "search" = Some (svr, orig) ∧ "call_tool" ∈ _ALLOWED_MCP_METHODS ∧
     calls d.2 = [{| bk_server := svr; bk_method := "call_tool"; bk_name := orig; bk_args := Some [] |}]).
Proof.
  apply (dispatch_routes demo_stack demo_registry (Some (demo_manager (inr (CallToolResult ["hit"] false))))
    demo_ambient "r1" 100 "search" "call_tool" None).
  reflexivity.
Defined.

(** C11: a presented token that the provider rejects ends the request with the
    authentication error in both modes, and so does a missing token in strict
    mode when the provider rejects it; whatever plugins are installed, no
    backend is called and nothing is recorded. *)
Theorem rejected_request_has_no_effect sc auth mode reg mgr a rid now cap method args msg :
  sc_auth sc = Some (auth, mode) →
  (∃ t, current_auth_token a = Some t ∧ auth (Some t) = inl (AuthenticationFailed msg)) ∨
  (current_auth_token a = None ∧ mode = strict ∧ auth None = inl (AuthenticationFailed msg)) →
  _dispatch (Some (_build_middleware_stack sc reg mgr)) a rid now cap method args =
  (inl (AuthenticationError msg), new_request a rid now cap method args).
Proof.
  intros Hsc Htok. unfold _dispatch, _build_middleware_stack. rewrite build_chain_foldr.
  unfold stack_middlewares. rewrite Hsc. cbn [app foldr]. unfold mbind, M_bind. rewrite auth_run.
  set (s0 := new_request a rid now cap method args).
  assert (md_str (dget (metadata (ctx s0)) "auth_token") = current_auth_token a) as ->.
  { cbn [s0 new_request ctx metadata]. unfold dispatch_metadata.
    destruct (current_user a), (current_auth_token a), (current_session_id a), (current_client_ip a); reflexivity. }
  assert (auth_decision auth mode (current_auth_token a) = inl (AuthenticationError msg)) as ->; [|done].
  destruct Htok as [(t & -> & Ht)|(-> & -> & Ht)]; simpl; by rewrite Ht.
Qed.

Lemma rejected_request_has_no_effect_witness :
  let auth := λ t : option string, if bool_decide (t = Some "good") then inr anonymous_user
                   else inl (AuthenticationFailed "Invalid bearer token") in
  let sc := {| sc_auth := Some (auth, permissive); sc_plugins := None; sc_telemetry := true; sc_audit_logger := true |} in
  let a := {| current_user := None; current_auth_token := Some "bad"; current_session_id := None; current_client_ip := None |} in
  _dispatch (Some (_build_middleware_stack sc (Some demo_registry) (Some (demo_manager (inr RespNone)))))
    a "r1" 100 "search" "call_tool" None =
  (inl (AuthenticationError "Invalid bearer token"), new_request a "r1" 100 "search" "call_tool" None).
Proof.
  intros auth sc a. apply (rejected_request_has_no_effect sc auth permissive).
  - reflexivity.
  - left. exists "bad". split; reflexivity.
Defined.

(** A request whose backend call fails, whose session is lost or whose
    capability is unknown leaves no audit event: the audit layer sits inside
    the recovery layer and emits only after a normal return. *)
Theorem failed_request_not_audited sc reg mgr a rid now cap method args s1 e rs :
  sc_plugins sc = None →
  after_auth sc (new_request a rid now cap method args) = inr s1 →
  RoutingMiddleware reg mgr s1 = (inl e, rs) →
  let '(out, s) := _dispatch (Some (_build_middleware_stack sc reg mgr)) a rid now cap method args in
  out = inl e ∧ audit_log s = audit_log rs ∧ error (ctx s) = Some e.
Proof.
  intros Hp Ha Hr. rewrite dispatch_run by done. rewrite Ha, Hr.
  unfold observed. simpl. rewrite andb_false_r. split_and!; [done| |done].
  by destruct (sc_telemetry sc).
Qed.

Lemma failed_request_not_audited_witness :
  let mgr := Some (demo_manager (inl (OtherError "TimeoutError" ""))) in
  let s1 := new_request demo_ambient "r1" 100 "search" "call_tool" None in
  let '(out, s) := _dispatch (Some (_build_middleware_stack demo_stack (Some demo_registry) mgr))
    demo_ambient "r1" 100 "search" "call_tool" None in
  out = inl (OtherError "TimeoutError" "") ∧ audit_log s = [] ∧
  error (ctx s) = Some (OtherError "TimeoutError" "").
Proof.
  intros mgr s1.
  apply (failed_request_not_audited demo_stack (Some demo_registry) mgr demo_ambient "r1" 100 "search" "call_tool" None
    s1 (OtherError "TimeoutError" "") (RoutingMiddleware (Some demo_registry) mgr s1).2); reflexivity.
Defined.
