(* ===== verification/Handlers.v ===== *)
(** * MCP protocol handlers (server/handlers.py)

    The functions the MCP server calls: listing, tool calls with the optimizer
    meta-tools and the composite workflow tools, resources and prompts. *)
From S2P Require Import Prelude PyDict Effects Conflict Registry Auth Chain.

Definition FIND_TOOL_NAME : string := "find_tool".
Definition CALL_TOOL_NAME : string := "call_tool".

(** The two meta-tools; their descriptions and schemas stay in [ci_rest]. *)
Definition META_TOOLS : list cap_item :=
  [ {| ci_name := FIND_TOOL_NAME; ci_description := None; ci_rest := PNone |};
    {| ci_name := CALL_TOOL_NAME; ci_description := None; ci_rest := PNone |} ].

(** A composite workflow tool: what it advertises and what invoking it does. *)
Record composite_tool := {
  ct_name : string;
  ct_info : cap_item;
  ct_invoke : odict string pyval → exn + pyval }.

Record server_state := {
  st_registry : option registry;
  st_chain : option handler;
  composite_tools : list composite_tool;
  optimizer_index : bool;
  optimizer_enabled : bool;
  optimizer_keep_list : list string }.

(** The values the environment supplies to one request. *)
Record request_env := { re_ambient : ambient; re_id : string; re_now : Z }.

Definition dispatch (st : server_state) (env : request_env) (name method : string) (args : arguments_t)
    : (exn + response) * req :=
  _dispatch (st_chain st) (re_ambient env) (re_id env) (re_now env) name method args.

Definition handle_list_tools (st : server_state) : exn + list cap_item :=
  match st_registry st with
  | None => inl (BackendServerError "Registry is not initialized")
  | Some r =>
      let tools := _tools r ++ (ct_info <$> composite_tools st) in
      if optimizer_enabled st && optimizer_index st then
        let kept := keep (λ t, bool_decide (ci_name t ∈ optimizer_keep_list st)) tools in
        inr (META_TOOLS ++ kept)
      else inr tools
  end.

Definition handle_list_resources (st : server_state) : exn + list cap_item :=
  match st_registry st with
  | None => inl (BackendServerError "Registry is not initialized")
  | Some r => inr (_resources r)
  end.

Definition handle_list_prompts (st : server_state) : exn + list cap_item :=
  match st_registry st with
  | None => inl (BackendServerError "Registry is not initialized")
  | Some r => inr (_prompts r)
  end.

(** [isinstance(result, CallToolResult)] or the error. *)
Definition expect_call_result (name : string) (d : (exn + response) * req) : exn + response :=
  match d.1 with
  | inl e => inl e
  | inr (CallToolResult c b) => inr (CallToolResult c b)
  | inr _ => inl (BackendServerError ("Backend returned invalid type for tool call '" +:+ name +:+ "'."))
  end.

Section handlers.
(** [json.dumps(output, indent=2)] and [str(v)]. *)
Context (json_dumps : pyval → string) (py_str : pyval → string).

Definition run_composite (ct : composite_tool) (name : string) (args : odict string pyval) : exn + response :=
  match ct_invoke ct args with
  | inr (PStr s) => inr (CallToolResult [s] false)
  | inr output => inr (CallToolResult [json_dumps output] false)
  | inl e => inl (BackendServerError ("Composite workflow '" +:+ name +:+ "' execution failed: " +:+ exn_str e))
  end.

(** The part after the meta-tools: a composite tool of that name, else the chain. *)
Definition call_plain_tool (st : server_state) (env : request_env) (name : string)
    (args : odict string pyval) : exn + response :=
  match List.find (λ ct, bool_decide (ct_name ct = name)) (composite_tools st) with
  | Some ct => run_composite ct name args
  | None => expect_call_result name (dispatch st env name "call_tool" (Some args))
  end.

(** The meta-tool [call_tool] names the real tool and its arguments; its input
    schema makes them a string and an object. *)
Definition handle_call_tool (st : server_state) (env : request_env) (name : string)
    (args : odict string pyval) : exn + response :=
  if optimizer_enabled st && optimizer_index st then
    if bool_decide (name = FIND_TOOL_NAME) then
      expect_call_result name (dispatch st env name "call_tool" (Some args))
    else if bool_decide (name = CALL_TOOL_NAME) then
      let real_name := match dget args "name" with Some (PStr s) => s | _ => "" end in
      let real_args := match dget args "arguments" with Some (PDict d) => d | _ => [] end in
      if bool_decide (real_name = "") then inl (BackendServerError "call_tool requires a 'name' argument")
      else expect_call_result real_name (dispatch st env real_name "call_tool" (Some real_args))
    else call_plain_tool st env name args
  else call_plain_tool st env name args.

Definition handle_read_resource (st : server_state) (env : request_env) (name : string) : exn + response :=
  match (dispatch st env name "read_resource" None).1 with
  | inl e => inl e
  | inr (ReadResourceResult v) => inr (ReadResourceResult v)
  | inr _ => inl (BackendServerError ("Backend returned invalid type for resource read '" +:+ name +:+ "'."))
  end.

(** [typed_args or arguments]: an empty dictionary of casts falls back to the
    (also empty) original. *)
Definition prompt_args (args : arguments_t) : arguments_t :=
  match args with
  | None => None
  | Some l => Some ((λ kv, (kv.1, PStr (py_str kv.2))) <$> l)
  end.

Definition handle_get_prompt (st : server_state) (env : request_env) (name : string)
    (args : arguments_t) : exn + response :=
  match (dispatch st env name "get_prompt" (prompt_args args)).1 with
  | inl e => inl e
  | inr (GetPromptResult v) => inr (GetPromptResult v)
  | inr _ => inl (BackendServerError ("Backend returned invalid type for prompt '" +:+ name +:+ "'."))
  end.


(** With the optimizer on, [find_tool] is advertised but a call to it always
    fails: the handler sends it through the chain, whose routing layer knows
    only the tools of the backends. *)
Theorem find_tool_always_fails st env args sc r mgr s1 :
  st_registry st = Some r → optimizer_enabled st && optimizer_index st = true →
  resolve_capability r FIND_TOOL_NAME = None →
  st_chain st = Some (_build_middleware_stack sc (Some r) (Some mgr)) → sc_plugins sc = None →
  after_auth sc (new_request (re_ambient env) (re_id env) (re_now env) FIND_TOOL_NAME "call_tool" (Some args)) = inr s1 →
  (∃ tools, handle_list_tools st = inr tools ∧ FIND_TOOL_NAME ∈ (ci_name <$> tools)) ∧
  handle_call_tool st env FIND_TOOL_NAME args = inl (ValueError "Capability 'find_tool' does not exist.").
Proof.
  intros Hr Hopt Hroute Hchain Hp Ha. split.
  - unfold handle_list_tools. rewrite Hr, Hopt. eexists. split; [done|]. rewrite fmap_app. simpl. set_solver.
  - unfold handle_call_tool. rewrite Hopt, bool_decide_eq_true_2 by done.
    unfold expect_call_result, dispatch. rewrite Hchain, dispatch_run by done. rewrite Ha.
    destruct (after_auth_ctx _ _ _ Ha) as (_ & Hn & _).
    assert (RoutingMiddleware (Some r) (Some mgr) s1 =
      (inl (ValueError "Capability 'find_tool' does not exist."), s1)) as ->.
    { unfold RoutingMiddleware, mbind, M_bind, get_state. rewrite Hn. cbn [new_request ctx capability_name].
      by rewrite Hroute. }
    done.
Qed.
End handlers.

Definition demo_state : server_state :=
  {| st_registry := Some demo_registry;
     st_chain := Some (_build_middleware_stack demo_stack (Some demo_registry)
                         (Some (demo_manager (inr (CallToolResult ["hit"] false)))));
     composite_tools := []; optimizer_index := true; optimizer_enabled := true;
     optimizer_keep_list := [] |}.
Definition demo_env : request_env := {| re_ambient := demo_ambient; re_id := "r1"; re_now := 100 |}.


Lemma find_tool_always_fails_witness :
  let dumps := λ _ : pyval, "{}" in
  (∃ tools, handle_list_tools demo_state = inr tools ∧ FIND_TOOL_NAME ∈ (ci_name <$> tools)) ∧
  handle_call_tool dumps demo_state demo_env FIND_TOOL_NAME [("query", PStr "search")] =
    inl (ValueError "Capability 'find_tool' does not exist.").
Proof.
  intros dumps.
  apply (find_tool_always_fails dumps demo_state demo_env [("query", PStr "search")] demo_stack demo_registry
    (demo_manager (inr (CallToolResult ["hit"] false)))
    (new_request demo_ambient "r1" 100 FIND_TOOL_NAME "call_tool" (Some [("query", PStr "search")])));
    reflexivity.
Defined.
