(* ===== verification/AuditLog.v ===== *)
(** * The audit log (audit/logger.py)

    The logger writes one line per event to a file that the rotating handler of
    the standard library moves aside when it is full.  File names and open files
    are kept apart, because a handler goes on writing to the file it opened when
    another one renames it: a name leads to the number of a file, and a handler
    holds such a number.  The log is always the same path; number 0 is its name
    and [i > 0] the name with the suffix [.i]. *)
From S2P Require Import Prelude PyDict Effects PyStr Chain.

(** ** Files *)

Record audit_fs := { fs_names : gmap nat nat; fs_data : gmap nat (list string); fs_next : nat }.
Definition empty_fs : audit_fs := {| fs_names := ∅; fs_data := ∅; fs_next := 0 |}.
Definition set_names (ns : gmap nat nat) (fs : audit_fs) : audit_fs :=
  {| fs_names := ns; fs_data := fs_data fs; fs_next := fs_next fs |}.
Definition file_lines (fs : audit_fs) (f : nat) : list string := default [] (fs_data fs !! f).

(** A line with its line feed; [tell()] at the end of a file. *)
Definition line_size (l : string) : Z := strlen l + 1.
Definition size_of_lines (ls : list string) : Z := foldr (λ l n, line_size l + n) 0 ls.

(** [open(path, "a")] *)
Definition open_log (fs : audit_fs) : nat * audit_fs :=
  match fs_names fs !! 0%nat with
  | Some f => (f, fs)
  | None => (fs_next fs, {| fs_names := <[0%nat := fs_next fs]> (fs_names fs); fs_data := <[fs_next fs := []]> (fs_data fs);
                            fs_next := S (fs_next fs) |})
  end.

(** ** The rotating handler *)

Record log_handler := { h_stream : nat; h_max_bytes : Z; h_backup_count : nat }.

Definition should_rollover (h : log_handler) (fs : audit_fs) (line : string) : bool :=
  (0 <? h_max_bytes h) && (h_max_bytes h <=? size_of_lines (file_lines fs (h_stream h)) + line_size line).

(** [for i in range(backupCount - 1, 0, -1)]: the file [.i] becomes [.i+1]. *)
Fixpoint shift_names (i : nat) (ns : gmap nat nat) : gmap nat nat :=
  match i with
  | O => ns
  | S i' => shift_names i' match ns !! i with Some f => <[S i := f]> (delete i ns) | None => ns end
  end.
Definition rotate (backups : nat) (ns : gmap nat nat) : gmap nat nat :=
  match backups with
  | O => ns
  | S b => let ns' := delete 1%nat (shift_names b ns) in
           match ns' !! 0%nat with Some f => <[1%nat := f]> (delete 0%nat ns') | None => ns' end
  end.
Definition do_rollover (h : log_handler) (fs : audit_fs) : log_handler * audit_fs :=
  let '(f, fs') := open_log (set_names (rotate (h_backup_count h) (fs_names fs)) fs) in
  ({| h_stream := f; h_max_bytes := h_max_bytes h; h_backup_count := h_backup_count h |}, fs').

Definition append_line (f : nat) (line : string) (fs : audit_fs) : audit_fs :=
  {| fs_names := fs_names fs; fs_data := <[f := file_lines fs f ++ [line]]> (fs_data fs); fs_next := fs_next fs |}.
Definition handle (line : string) (h : log_handler) (fs : audit_fs) : log_handler * audit_fs :=
  let '(h', fs') := if should_rollover h fs line then do_rollover h fs else (h, fs) in
  (h', append_line (h_stream h') line fs').

(** ** The loggers *)

(** The handlers of the logger named [argus_mcp.audit], which all instances
    share, by the instance that added them. *)
Record logging := { lo_handlers : odict nat log_handler; lo_fs : audit_fs }.
Record AuditLogger := { al_id : nat; al_enabled : bool }.
Definition AUDIT_MAX_BYTES : Z := 100 * 1024 * 1024.
Definition AUDIT_BACKUP_COUNT : nat := 5.

Definition new_audit_logger (id : nat) (max_bytes : Z) (backup_count : nat) (enabled : bool) (st : logging) : AuditLogger * logging :=
  ({| al_id := id; al_enabled := enabled |},
   if enabled then
     let '(f, fs) := open_log (lo_fs st) in
     {| lo_handlers := lo_handlers st ++ [(id, {| h_stream := f; h_max_bytes := max_bytes; h_backup_count := backup_count |})]; lo_fs := fs |}
   else st).

(** [Logger.log]: every handler in turn. *)
Fixpoint run_handlers (line : string) (hs : odict nat log_handler) (fs : audit_fs) : odict nat log_handler * audit_fs :=
  match hs with
  | [] => ([], fs)
  | (id, h) :: hs' =>
      let '(h', fs1) := handle line h fs in
      let '(hs'', fs2) := run_handlers line hs' fs1 in ((id, h') :: hs'', fs2)
  end.
Definition log_line (line : string) (st : logging) : logging :=
  let '(hs, fs) := run_handlers line (lo_handlers st) (lo_fs st) in {| lo_handlers := hs; lo_fs := fs |}.

Section emit.
(** [event.model_dump_json()], [None] when it raises, which is only logged. *)
Context (model_dump_json : AuditEvent → option string).
Definition emit_audit (a : AuditLogger) (e : AuditEvent) (st : logging) : logging :=
  if negb (al_enabled a) then st else match model_dump_json e with Some line => log_line line st | None => st end.
End emit.
(** [json.dumps] of a dictionary with its own fallback, as a parameter too. *)
Definition emit_dict (dumps_compact : odict string pyval → option string) (a : AuditLogger) (d : odict string pyval) (st : logging) : logging :=
  if negb (al_enabled a) then st else match dumps_compact d with Some line => log_line line st | None => st end.
Definition close (a : AuditLogger) (st : logging) : logging :=
  {| lo_handlers := ddel (lo_handlers st) (al_id a); lo_fs := lo_fs st |}.

(** ** Theorems *)

(** The names as a list of files, the log first. *)
Definition named (fs : audit_fs) (l : list nat) : Prop := ∀ i, fs_names fs !! i = l !! i.

Lemma shift_lookup i : ∀ ns (l : list nat), (∀ k, (k ≤ i)%nat → ns !! k = l !! k) → (l !! i = None → ns !! S i = None) →
  ∀ k, shift_names i ns !! k =
    if decide (k = 0%nat) then l !! 0%nat
    else if decide (k = 1%nat) then (if decide (i = 0%nat) then ns !! 1%nat else None)
    else if decide (k ≤ S i)%nat then l !! pred k else ns !! k.
Proof.
  induction i as [|i IH]; intros ns l Hl Hn k; cbn [shift_names].
  - repeat case_decide; subst; try done; [by apply Hl|]. replace k with 1%nat by lia. lia.
  - assert (Hi : ns !! S i = l !! S i) by (apply Hl; lia). rewrite Hi.
    set (ns' := match l !! S i with Some f => <[S (S i) := f]> (delete (S i) ns) | None => ns end).
    assert (Hlow : ∀ k, (k ≤ i)%nat → ns' !! k = l !! k).
    { intros j Hj. unfold ns'. rewrite <-(Hl j) by lia. destruct (l !! S i); [|done].
      rewrite lookup_insert_ne, lookup_delete_ne by lia. done. }
    assert (Hmid : l !! i = None → ns' !! S i = None).
    { intros Hnone. unfold ns'. rewrite (proj2 (lookup_ge_None l (S i))) by (apply lookup_ge_None in Hnone; lia).
      rewrite Hi. apply lookup_ge_None. apply lookup_ge_None in Hnone. lia. }
    rewrite (IH ns' l Hlow Hmid). destruct (decide (k = 0%nat)); [done|]. destruct (decide (k = 1%nat)) as [->|Hk1].
    + rewrite (decide_False (P := S i = 0%nat)) by lia. destruct (decide (i = 0%nat)) as [->|]; [|done].
      unfold ns'. destruct (l !! 1%nat) eqn:E; [rewrite lookup_insert_ne by lia; apply lookup_delete_eq|]. by rewrite Hi.
    + destruct (decide (k ≤ S i)%nat); [by rewrite decide_True by lia|].
      destruct (decide (k ≤ S (S i))%nat).
      * replace k with (S (S i)) by lia. cbn [Nat.pred]. unfold ns'.
        destruct (l !! S i) eqn:E; [by rewrite lookup_insert_eq|]. apply Hn. done.
      * unfold ns'. destruct (l !! S i); [|done]. rewrite lookup_insert_ne, lookup_delete_ne by lia. done.
Qed.

(** A rotation moves every file one name on and drops the last one. *)
Lemma rotate_lookup b ns (l : list nat) f : (∀ k, ns !! k = (f :: l) !! k) → (length l ≤ S b)%nat →
  ∀ k, rotate (S b) ns !! k = if decide (k = 0%nat) then None else take (S (S b)) (f :: f :: l) !! k.
Proof.
  intros Hl Hlen k. unfold rotate.
  assert (Hnext : (f :: l) !! b = None → ns !! S b = None).
  { rewrite Hl, !lookup_ge_None. lia. }
  assert (Hs := shift_lookup b ns (f :: l) (λ k _, Hl k) Hnext).
  assert (H0 : delete 1%nat (shift_names b ns) !! 0%nat = Some f) by (rewrite lookup_delete_ne by lia; by rewrite Hs).
  rewrite H0. destruct k as [|[|k]].
  - rewrite lookup_insert_ne by lia. by rewrite lookup_delete_eq.
  - by rewrite lookup_insert_eq.
  - rewrite decide_False by lia. rewrite lookup_insert_ne, lookup_delete_ne, lookup_delete_ne, Hs by lia.
    rewrite !decide_False by lia. change (take (S (S b)) (f :: f :: l) !! S (S k)) with (take b l !! k).
    destruct (decide (S (S k) ≤ S b)%nat).
    + rewrite lookup_take_lt by lia. done.
    + rewrite Hl. rewrite lookup_take_ge by lia. apply lookup_ge_None. simpl. lia.
Qed.

(** What the files hold, oldest line first. *)
Definition chronicle (fs : audit_fs) (l : list nat) : list string := mjoin (file_lines fs <$> reverse l).

Lemma mjoin_app {A} (l1 l2 : list (list A)) : mjoin (l1 ++ l2) = mjoin l1 ++ mjoin l2.
Proof. induction l1 as [|x l1 IH]; [done|]. change (x ++ mjoin (l1 ++ l2) = (x ++ mjoin l1) ++ mjoin l2). by rewrite IH, app_assoc. Qed.
Lemma chronicle_cons fs f l : chronicle fs (f :: l) = chronicle fs l ++ file_lines fs f.
Proof. unfold chronicle. rewrite reverse_cons, fmap_app, mjoin_app. f_equal. apply app_nil_r. Qed.
Lemma chronicle_ext fs fs' l : (∀ f, f ∈ l → file_lines fs' f = file_lines fs f) → chronicle fs' l = chronicle fs l.
Proof. induction l as [|f l IH]; intros H; [done|]. rewrite !chronicle_cons, IH, H; [done|left|]. intros g Hg. apply H. by right. Qed.
Lemma chronicle_take fs k l : ∃ old, chronicle fs l = old ++ chronicle fs (take k l) ∧ ((length l ≤ k)%nat → old = []).
Proof.
  exists (chronicle fs (drop k l)). rewrite <-(take_drop k l) at 1. unfold chronicle. rewrite reverse_app, fmap_app, mjoin_app.
  split; [done|]. intros Hk. by rewrite drop_ge.
Qed.
Lemma size_snoc ls line : size_of_lines (ls ++ [line]) = size_of_lines ls + line_size line.
Proof. induction ls as [|x ls IH]; cbn; [lia|]. unfold size_of_lines in IH. lia. Qed.

Lemma lines_append f line fs g : file_lines (append_line f line fs) g = if decide (g = f) then file_lines fs f ++ [line] else file_lines fs g.
Proof. unfold file_lines, append_line. cbn. case_decide as E; [by rewrite E, lookup_insert_eq|by rewrite lookup_insert_ne]. Qed.

(** A handler that writes alone, with [b + 1] backups: its stream is the log, the
    files are within the size, and hold the last lines without a gap; lines are
    missing only when all the backups are in use. *)
Record alone (b : nat) (h : log_handler) (fs : audit_fs) (emitted : list string) : Prop := {
  ao_backups : h_backup_count h = S b;
  ao_max : 0 < h_max_bytes h;
  ao_files : ∃ l n, named fs (h_stream h :: l) ∧ NoDup (h_stream h :: l) ∧ (∀ f, f ∈ h_stream h :: l → (f < fs_next fs)%nat) ∧
    (length l ≤ S b)%nat ∧ (∀ f, f ∈ h_stream h :: l → size_of_lines (file_lines fs f) < h_max_bytes h) ∧
    chronicle fs (h_stream h :: l) = drop n emitted ∧ (n ≤ length emitted)%nat ∧ (n = 0%nat ∨ length l = S b) }.

Lemma rollover_run b h fs l : h_backup_count h = S b → named fs (h_stream h :: l) → (length l ≤ S b)%nat →
  ∃ fs', do_rollover h fs = ({| h_stream := fs_next fs; h_max_bytes := h_max_bytes h; h_backup_count := h_backup_count h |}, fs') ∧
    named fs' (fs_next fs :: take (S b) (h_stream h :: l)) ∧ fs_next fs' = S (fs_next fs) ∧
    (∀ f, file_lines fs' f = if decide (f = fs_next fs) then [] else file_lines fs f).
Proof.
  intros Hb Hn Hl. unfold do_rollover, open_log, set_names. rewrite Hb. cbn [fs_names fs_data fs_next].
  assert (Hr := rotate_lookup b (fs_names fs) l (h_stream h) Hn Hl). rewrite (Hr 0%nat), decide_True by done.
  eexists. split_and!; [done| |done|].
  - intros [|k]; cbn [fs_names]; [by rewrite lookup_insert_eq|]. rewrite lookup_insert_ne, Hr, decide_False by lia. done.
  - intros f. unfold file_lines. cbn [fs_data]. case_decide as E; [by rewrite E, lookup_insert_eq|by rewrite lookup_insert_ne].
Qed.

Lemma handle_alone b h fs emitted line : alone b h fs emitted → line_size line < h_max_bytes h →
  let '(h', fs') := handle line h fs in alone b h' fs' (emitted ++ [line]) ∧ h_max_bytes h' = h_max_bytes h.
Proof.
  intros [Hb Hm (l & n & Hn & Hnd & Hlt & Hl & Hsz & Hch & Hne & Hz)] Hline. unfold handle.
  assert (Hdrop : ∀ k, (k ≤ length emitted)%nat → drop k emitted ++ [line] = drop k (emitted ++ [line])).
  { intros k Hk. rewrite drop_app. replace (k - length emitted)%nat with 0%nat by lia. done. }
  destruct (should_rollover h fs line) eqn:Er.
  - destruct (rollover_run b h fs l Hb Hn Hl) as (fs1 & -> & Hn1 & Hnx & Hd1). split; [|done].
    set (kept := take (S b) (h_stream h :: l)). assert (Hfresh : fs_next fs ∉ kept).
    { intros Hin%elem_of_take. destruct Hin as (i & Hi & _). apply list_elem_of_lookup_2, Hlt in Hi. lia. }
    assert (Hkept : ∀ f, f ∈ kept → f ∈ h_stream h :: l) by (intros f Hf; by eapply elem_of_sublist, sublist_take).
    assert (Hd2 : ∀ f, f ∈ kept → file_lines (append_line (fs_next fs) line fs1) f = file_lines fs f).
    { intros f Hf. rewrite lines_append, decide_False by (by intros ->). rewrite Hd1, decide_False by (by intros ->). done. }
    assert (Hnew : file_lines (append_line (fs_next fs) line fs1) (fs_next fs) = [line]).
    { rewrite lines_append, decide_True by done. by rewrite Hd1, decide_True. }
    destruct (chronicle_take fs (S b) (h_stream h :: l)) as (old & Hold & Hsmall). fold kept in Hold. rewrite Hch in Hold.
    constructor; cbn [h_stream h_max_bytes h_backup_count]; [done|done|]. exists kept, (n + length old)%nat. split_and!.
    + done.
    + constructor; [done|]. by eapply sublist_NoDup, sublist_take.
    + intros f [->|Hf%Hkept%Hlt]%elem_of_cons; cbn; rewrite Hnx; lia.
    + unfold kept. rewrite length_take. lia.
    + intros f [->|Hf]%elem_of_cons; [rewrite Hnew; cbn; lia|]. rewrite Hd2 by done. auto.
    + rewrite chronicle_cons, Hnew, (chronicle_ext fs) by done. rewrite <-drop_drop, <-Hdrop by done. rewrite Hold.
      rewrite <-app_assoc. by rewrite drop_app_length.
    + apply (f_equal length) in Hold. rewrite length_drop, length_app in Hold. rewrite length_app. lia.
    + unfold kept. rewrite length_take. cbn [length]. destruct (decide (length l = S b)); [right; lia|]. left.
      destruct Hz as [->|]; [|done]. rewrite Hsmall by (cbn; lia). done.
  - split; [|done]. constructor; [done|done|]. exists l, n.
    assert (Hself : file_lines (append_line (h_stream h) line fs) (h_stream h) = file_lines fs (h_stream h) ++ [line]) by (by rewrite lines_append, decide_True).
    apply NoDup_cons in Hnd as Hnd'. destruct Hnd' as [Hni _].
    assert (Hrest : ∀ f, f ∈ l → file_lines (append_line (h_stream h) line fs) f = file_lines fs f).
    { intros f Hf. rewrite lines_append, decide_False; [done|]. by intros ->. }
    split_and!; [done|done|done|done| | |rewrite length_app; lia|done].
    + intros f [->|Hf]%elem_of_cons.
      * rewrite Hself, size_snoc. unfold should_rollover in Er. rewrite andb_false_iff, Z.ltb_ge, Z.leb_gt in Er. lia.
      * rewrite Hrest by done. apply Hsz. by right.
    + rewrite chronicle_cons, Hself, (chronicle_ext fs) by done. rewrite app_assoc, <-chronicle_cons, Hch. by apply Hdrop.
Qed.

Section kept.
Context (model_dump_json : AuditEvent → option string).

Definition emit_all (a : AuditLogger) (es : list AuditEvent) (st : logging) : logging :=
  foldl (λ st e, emit_audit model_dump_json a e st) st es.

Lemma emit_all_alone a b id es : al_enabled a = true → ∀ h fs emitted,
  alone b h fs emitted → Forall (λ line, line_size line < h_max_bytes h) (omap model_dump_json es) →
  ∃ h' fs', emit_all a es {| lo_handlers := [(id, h)]; lo_fs := fs |} = {| lo_handlers := [(id, h')]; lo_fs := fs' |} ∧
    alone b h' fs' (emitted ++ omap model_dump_json es) ∧ h_max_bytes h' = h_max_bytes h.
Proof.
  intros Ha. induction es as [|e es IH]; intros h fs emitted Hal Hsz.
  { exists h, fs. csimpl. by rewrite app_nil_r. }
  change (emit_all a (e :: es) {| lo_handlers := [(id, h)]; lo_fs := fs |}) with
    (emit_all a es (emit_audit model_dump_json a e {| lo_handlers := [(id, h)]; lo_fs := fs |})).
  assert (He : ∀ st, emit_audit model_dump_json a e st = match model_dump_json e with Some line => log_line line st | None => st end).
  { intros st. unfold emit_audit. by rewrite Ha. }
  rewrite He. csimpl in Hsz. csimpl. destruct (model_dump_json e) as [line|] eqn:El; [|by apply IH].
  apply Forall_cons in Hsz as [Hline Hsz]. assert (Hh := handle_alone b h fs emitted line Hal Hline).
  unfold log_line. cbn [run_handlers lo_handlers lo_fs]. destruct (handle line h fs) as [h1 fs1]. destruct Hh as [Hal1 Hm1].
  destruct (IH h1 fs1 (emitted ++ [line]) Hal1) as (h' & fs' & Hrun & Hal' & Hm'); [by rewrite Hm1|].
  exists h', fs'. rewrite <-app_assoc in Hal'. split_and!; [exact Hrun|done|by rewrite Hm'].
Qed.

End kept.

Definition demo_event (id : string) : AuditEvent :=
  {| event_id := id; src_session_id := None; src_client_ip := None; src_user_id := None; tgt_backend := None;
     tgt_method := "call_tool"; tgt_capability := "x"; tgt_original := None; out_status := "success"; out_latency_ms := 0;
     out_error := None; out_error_type := None |}.
Definition demo_events : list AuditEvent := demo_event <$> ["a"; "b"; "c"; "d"; "e"; "f"; "g"].


(** Nothing closes a logger: a second one, as a second life of the application
    creates, makes every event appear twice. *)
Example second_logger_duplicates :
  let '(a, st) := new_audit_logger 0 AUDIT_MAX_BYTES AUDIT_BACKUP_COUNT true {| lo_handlers := []; lo_fs := empty_fs |} in
  let '(a2, st2) := new_audit_logger 1 AUDIT_MAX_BYTES AUDIT_BACKUP_COUNT true st in
  let emit1 a e := emit_audit (λ e, Some (event_id e)) a (demo_event e) in
  file_lines (lo_fs (emit1 a2 "x" st2)) 0 = ["x"; "x"] ∧ file_lines (lo_fs (emit1 a2 "x" (close a st2))) 0 = ["x"].
Proof. split; vm_compute; reflexivity. Qed.
