(* ===== verification/SessionPool.v ===== *)
(** * Session pool (bridge/session_pool.py)

    Pool entries are mutable objects shared between the pool and the callers
    that acquired them, so they live in a heap indexed by an entry number; the
    pool maps a key to the list of its entry numbers.  Every operation runs
    under the lock of the pool; [p_closed] logs the entries whose exit stack
    was closed, in order.  Times are in milliseconds. *)
From S2P Require Import Prelude PyDict CircuitBreaker.

Record SessionKey := { sk_url : string; sk_identity_hash : string; sk_transport_type : string }.
#[export] Instance SessionKey_eq_dec : EqDecision SessionKey.
Proof. solve_decision. Defined.

(** [pe_key] records under which key the entry was added. *)
Record PoolEntry := { pe_key : SessionKey; created_at : Z; last_used : Z; in_use : bool }.

Record SessionPool := {
  _per_key_max : Z;
  _ttl : Z;
  _cb_threshold : Z;
  _pool : odict SessionKey (list nat);
  _circuit_breakers : odict SessionKey CircuitBreaker;
  _closed : bool;
  p_heap : gmap nat PoolEntry;
  p_next : nat;
  p_closed : list nat }.

(** The constructor clamps its parameters. *)
Definition new_pool (per_key_max ttl cb_threshold : Z) : SessionPool :=
  {| _per_key_max := Z.max 1 per_key_max; _ttl := Z.max 1000 ttl; _cb_threshold := Z.max 1 cb_threshold;
     _pool := []; _circuit_breakers := []; _closed := false;
     p_heap := ∅; p_next := 0; p_closed := [] |}.

Definition set_pool (d : odict SessionKey (list nat)) (p : SessionPool) : SessionPool :=
  {| _per_key_max := _per_key_max p; _ttl := _ttl p; _cb_threshold := _cb_threshold p; _pool := d;
     _circuit_breakers := _circuit_breakers p; _closed := _closed p; p_heap := p_heap p;
     p_next := p_next p; p_closed := p_closed p |}.
Definition set_breaker (key : SessionKey) (cb : CircuitBreaker) (p : SessionPool) : SessionPool :=
  {| _per_key_max := _per_key_max p; _ttl := _ttl p; _cb_threshold := _cb_threshold p; _pool := _pool p;
     _circuit_breakers := dset (_circuit_breakers p) key cb; _closed := _closed p; p_heap := p_heap p;
     p_next := p_next p; p_closed := p_closed p |}.
Definition set_entry (i : nat) (e : PoolEntry) (p : SessionPool) : SessionPool :=
  {| _per_key_max := _per_key_max p; _ttl := _ttl p; _cb_threshold := _cb_threshold p; _pool := _pool p;
     _circuit_breakers := _circuit_breakers p; _closed := _closed p; p_heap := <[i := e]> (p_heap p);
     p_next := p_next p; p_closed := p_closed p |}.
(** [_close_entry] on each of [l]; errors and timeouts are swallowed. *)
Definition close_entries (l : list nat) (p : SessionPool) : SessionPool :=
  {| _per_key_max := _per_key_max p; _ttl := _ttl p; _cb_threshold := _cb_threshold p; _pool := _pool p;
     _circuit_breakers := _circuit_breakers p; _closed := _closed p; p_heap := p_heap p;
     p_next := p_next p; p_closed := p_closed p ++ l |}.

Definition entry_in_use (p : SessionPool) (i : nat) : bool :=
  match p_heap p !! i with Some e => in_use e | None => true end.
Definition entry_last_used (p : SessionPool) (i : nat) : Z :=
  match p_heap p !! i with Some e => last_used e | None => 0 end.
Definition entry_created (p : SessionPool) (i : nat) : Z :=
  match p_heap p !! i with Some e => created_at e | None => 0 end.
Definition entries_of (p : SessionPool) (key : SessionKey) : list nat := default [] (dget (_pool p) key).

Definition _get_circuit_breaker (key : SessionKey) (p : SessionPool) : CircuitBreaker * SessionPool :=
  match dget (_circuit_breakers p) key with
  | Some cb => (cb, p)
  | None => let cb := new_breaker (_cb_threshold p) DEFAULT_COOLDOWN in (cb, set_breaker key cb p)
  end.

(** [t_cb] is the reading of the breaker, [now] the one under the lock. *)
Definition acquire (t_cb now : Z) (key : SessionKey) (p : SessionPool) : option nat * SessionPool :=
  if _closed p then (None, p)
  else
    let '(cb, p1) := _get_circuit_breaker key p in
    let '(allowed, cb') := allows_request t_cb cb in
    let p2 := set_breaker key cb' p1 in
    if negb allowed then (None, p2)
    else
      match List.find (λ i, negb (entry_in_use p2 i) && (now - entry_created p2 i <? _ttl p2))
              (entries_of p2 key) with
      | None => (None, p2)
      | Some i =>
          match p_heap p2 !! i with
          | None => (None, p2)
          | Some e => (Some i, set_entry i {| pe_key := pe_key e; created_at := created_at e;
                                              last_used := now; in_use := true |} p2)
          end
      end.

(** [list.remove(x)]: the first occurrence. *)
Fixpoint list_remove (i : nat) (l : list nat) : list nat :=
  match l with
  | [] => []
  | j :: l' => if bool_decide (j = i) then l' else j :: list_remove i l'
  end.

Definition release (t_cb now : Z) (key : SessionKey) (i : nat) (failed : bool) (p : SessionPool) : SessionPool :=
  let '(cb, p1) := _get_circuit_breaker key p in
  if failed then
    let p2 := set_breaker key (record_failure t_cb cb) p1 in
    let p3 := if bool_decide (i ∈ entries_of p2 key)
              then set_pool (dset (_pool p2) key (list_remove i (entries_of p2 key))) p2 else p2 in
    close_entries [i] p3
  else
    let p2 := set_breaker key (record_success t_cb cb) p1 in
    match p_heap p2 !! i with
    | None => p2
    | Some e => set_entry i {| pe_key := pe_key e; created_at := created_at e;
                               last_used := now; in_use := false |} p2
    end.

(** [min(idle, key=last_used)]: the first of the least recently used. *)
Fixpoint oldest (p : SessionPool) (i : nat) (l : list nat) : nat :=
  match l with
  | [] => i
  | j :: l' => if entry_last_used p j <? entry_last_used p i then oldest p j l' else oldest p i l'
  end.

(** The [while] loop of [add]; each round removes one entry, so the length of
    the list is enough fuel. *)
Fixpoint evict_loop (fuel : nat) (p : SessionPool) (entries evicted : list nat) : list nat * list nat :=
  match fuel with
  | O => (entries, evicted)
  | S fuel' =>
      if Z.of_nat (length entries) <? _per_key_max p then (entries, evicted)
      else
        match keep (λ i, negb (entry_in_use p i)) entries with
        | [] => (entries, evicted)
        | i :: idle =>
            let o := oldest p i idle in
            evict_loop fuel' p (list_remove o entries) (evicted ++ [o])
        end
  end.

Definition add (now : Z) (key : SessionKey) (p : SessionPool) : nat * SessionPool :=
  let i := p_next p in
  let e := {| pe_key := key; created_at := now; last_used := now; in_use := false |} in
  let entries := entries_of p key in
  let '(kept, evicted) := evict_loop (length entries) p entries [] in
  let p1 := set_pool (dset (_pool p) key (kept ++ [i])) p in
  let p2 := set_entry i e p1 in
  let p3 := {| _per_key_max := _per_key_max p2; _ttl := _ttl p2; _cb_threshold := _cb_threshold p2;
               _pool := _pool p2; _circuit_breakers := _circuit_breakers p2; _closed := _closed p2;
               p_heap := p_heap p2; p_next := S i; p_closed := p_closed p2 |} in
  (i, close_entries evicted p3).

Definition remove_all (key : SessionKey) (p : SessionPool) : Z * SessionPool :=
  let entries := entries_of p key in
  (Z.of_nat (length entries), close_entries entries (set_pool (ddel (_pool p) key) p)).

Definition expired (now : Z) (p : SessionPool) (i : nat) : bool :=
  negb (entry_in_use p i) && (now - entry_created p i >=? _ttl p).

Definition has_entries (kv : SessionKey * list nat) : bool :=
  match kv.2 with [] => false | _ => true end.

Definition _reap_expired (now : Z) (p : SessionPool) : SessionPool :=
  let swept := prod_map id (keep (λ i, negb (expired now p i))) <$> _pool p in
  let to_close := _pool p ≫= λ '(key, l), keep (expired now p) l in
  close_entries to_close
    (set_pool (keep has_entries swept) p).

Definition stop (p : SessionPool) : SessionPool :=
  let to_close := concat (dvalues (_pool p)) in
  {| _per_key_max := _per_key_max p; _ttl := _ttl p; _cb_threshold := _cb_threshold p; _pool := [];
     _circuit_breakers := []; _closed := true; p_heap := p_heap p; p_next := p_next p;
     p_closed := p_closed p ++ to_close |}.

Definition start (p : SessionPool) : SessionPool :=
  {| _per_key_max := _per_key_max p; _ttl := _ttl p; _cb_threshold := _cb_threshold p; _pool := _pool p;
     _circuit_breakers := _circuit_breakers p; _closed := false; p_heap := p_heap p; p_next := p_next p;
     p_closed := p_closed p |}.

Definition total_sessions (p : SessionPool) : nat := length (concat (dvalues (_pool p))).
Definition active_sessions (p : SessionPool) : nat :=
  length (keep (entry_in_use p) (concat (dvalues (_pool p)))).

(** ** The pool invariant *)

Record pool_wf (p : SessionPool) : Prop := {
  pw_dict : dict_wf (_pool p);
  pw_max : 1 <= _per_key_max p;
  pw_nodup : ∀ k, NoDup (entries_of p k);
  pw_key : ∀ k i, i ∈ entries_of p k → ∃ e, p_heap p !! i = Some e ∧ pe_key e = k;
  pw_heap : ∀ i, is_Some (p_heap p !! i) ↔ (i < p_next p)%nat;
  pw_kept : ∀ i e, p_heap p !! i = Some e → i ∈ entries_of p (pe_key e) ∨ i ∈ p_closed p;
  pw_open : ∀ k i, i ∈ entries_of p k → i ∉ p_closed p;
  pw_closed : ∀ i, i ∈ p_closed p → is_Some (p_heap p !! i) }.

(** An operation that takes the entries [gone] out of the pool, closes them and
    changes no key of an entry keeps the invariant. *)
Lemma wf_shrink p p' gone :
  pool_wf p → dict_wf (_pool p') → _per_key_max p' = _per_key_max p → p_next p' = p_next p →
  (∀ i, pe_key <$> p_heap p' !! i = pe_key <$> p_heap p !! i) →
  (∀ k, NoDup (entries_of p' k)) →
  (∀ k i, i ∈ entries_of p' k ↔ i ∈ entries_of p k ∧ i ∉ gone) →
  p_closed p' = p_closed p ++ gone → (∀ i, i ∈ gone → is_Some (p_heap p !! i)) →
  pool_wf p'.
Proof.
  intros [Hd Hm Hn Hk Hh Hkept Ho Hc] Hd' Hm' Hnext Hkeys Hnd Hmem Hcl Hgone.
  assert (∀ i, is_Some (p_heap p' !! i) ↔ is_Some (p_heap p !! i)) as Hsome.
  { intros i. specialize (Hkeys i). destruct (p_heap p' !! i), (p_heap p !! i); naive_solver. }
  split; try done.
  - lia.
  - intros k i [Hi Hg]%Hmem. destruct (Hk _ _ Hi) as (e & He & <-).
    specialize (Hkeys i). rewrite He in Hkeys. destruct (p_heap p' !! i) as [e'|]; [|done].
    exists e'. simpl in Hkeys. by simplify_eq.
  - intros i. by rewrite Hsome, Hh, Hnext.
  - intros i e' He'. specialize (Hkeys i). rewrite He' in Hkeys.
    destruct (p_heap p !! i) as [e|] eqn:He; [|done]. simpl in Hkeys. injection Hkeys as Hkeys.
    rewrite Hkeys, Hmem, Hcl, elem_of_app. destruct (Hkept i e He) as [Hi|Hi]; [|by auto].
    destruct (decide (i ∈ gone)); auto.
  - intros k i [Hi Hg]%Hmem. rewrite Hcl, elem_of_app. intros [?|?]; [by eapply Ho|done].
  - intros i. rewrite Hcl, elem_of_app, Hsome. intros [?|?]; auto.
Qed.

Lemma wf_same p p' :
  pool_wf p → _pool p' = _pool p → _per_key_max p' = _per_key_max p → p_next p' = p_next p →
  (∀ i, pe_key <$> p_heap p' !! i = pe_key <$> p_heap p !! i) → p_closed p' = p_closed p →
  pool_wf p'.
Proof.
  intros Hw Hp Hm Hn Hk Hc.
  assert (∀ k, entries_of p' k = entries_of p k) as He by (intros k; unfold entries_of; by rewrite Hp).
  apply (wf_shrink p p' []); try done.
  - rewrite Hp. apply Hw.
  - intros k. rewrite He. apply Hw.
  - intros k i. rewrite He. set_solver.
  - by rewrite Hc, app_nil_r.
  - set_solver.
Qed.

Lemma heap_update_keys (h : gmap nat PoolEntry) i e e' :
  h !! i = Some e → pe_key e' = pe_key e → ∀ j, pe_key <$> <[i := e']> h !! j = pe_key <$> h !! j.
Proof.
  intros He Hk j. destruct (decide (i = j)) as [->|Hne].
  - by rewrite lookup_insert_eq, He; simpl; rewrite Hk.
  - by rewrite lookup_insert_ne.
Qed.

Lemma entries_set_pool d p k : entries_of (set_pool d p) k = default [] (dget d k).
Proof. done. Qed.

Lemma get_breaker_wf key p : pool_wf p → pool_wf (_get_circuit_breaker key p).2.
Proof.
  intros Hw. unfold _get_circuit_breaker. case_match; [done|]. by apply (wf_same p).
Qed.

Lemma set_breaker_wf key cb p : pool_wf p → pool_wf (set_breaker key cb p).
Proof. intros Hw. by apply (wf_same p). Qed.

Lemma get_breaker_pool key p :
  _pool (_get_circuit_breaker key p).2 = _pool p ∧ p_heap (_get_circuit_breaker key p).2 = p_heap p ∧
  _ttl (_get_circuit_breaker key p).2 = _ttl p ∧ p_closed (_get_circuit_breaker key p).2 = p_closed p.
Proof. unfold _get_circuit_breaker. by case_match. Qed.

Lemma set_entry_wf i e e' p :
  pool_wf p → p_heap p !! i = Some e → pe_key e' = pe_key e → pool_wf (set_entry i e' p).
Proof. intros Hw He Hk. apply (wf_same p); try done. simpl. by eapply heap_update_keys. Qed.

Lemma acquire_wf t_cb now key p : pool_wf p → pool_wf (acquire t_cb now key p).2.
Proof.
  intros Hw. unfold acquire. case_test; [done|].
  pose proof (get_breaker_wf key p Hw) as Hw1. destruct (_get_circuit_breaker key p) as [cb p1].
  destruct (allows_request t_cb cb) as [allowed cb'].
  pose proof (set_breaker_wf key cb' p1 Hw1) as Hw2. simpl in Hw1.
  case_test; [done|]. destruct (List.find _ _) as [i|]; [|done].
  destruct (p_heap (set_breaker key cb' p1) !! i) as [e|] eqn:He; [|done].
  by eapply set_entry_wf.
Qed.

Lemma elem_list_remove i l j : NoDup l → j ∈ list_remove i l ↔ j ∈ l ∧ j ≠ i.
Proof.
  induction 1 as [|x l Hx Hl IH]; simpl; [set_solver|]. case_bool_decide; subst; [set_solver|].
  rewrite !elem_of_cons, IH. naive_solver.
Qed.

Lemma list_remove_sublist i l : list_remove i l `sublist_of` l.
Proof. induction l as [|x l IH]; simpl; [done|]. case_bool_decide; by constructor. Qed.

Lemma length_list_remove i l : i ∈ l → length l = S (length (list_remove i l)).
Proof.
  induction l as [|x l IH]; [set_solver|]. simpl. intros [->|H]%elem_of_cons.
  - by rewrite bool_decide_eq_true_2.
  - case_bool_decide; [done|]. simpl. by rewrite <-IH.
Qed.

Lemma release_wf t_cb now key i failed p :
  pool_wf p → (∃ e, p_heap p !! i = Some e ∧ pe_key e = key) →
  pool_wf (release t_cb now key i failed p).
Proof.
  intros Hw (e & He & Hk). unfold release.
  pose proof (get_breaker_wf key p Hw) as Hw1. destruct (get_breaker_pool key p) as (_ & Hh & _).
  destruct (_get_circuit_breaker key p) as [cb p1]. cbn [snd] in *. destruct failed.
  - apply (set_breaker_wf key (record_failure t_cb cb)) in Hw1.
    set (p2 := set_breaker key _ p1) in *.
    assert (p_heap p2 !! i = Some e) as He2 by (unfold p2; simpl; congruence).
    destruct (bool_decide (i ∈ entries_of p2 key)) eqn:Hin; reflect_bools.
    + apply (wf_shrink p2 _ [i]); try done.
      * simpl. apply dict_wf_dset, Hw1.
      * intros k. unfold entries_of. simpl. rewrite dget_dset. case_decide; [|apply Hw1].
        simpl. eapply sublist_NoDup; [apply Hw1|apply list_remove_sublist].
      * intros k j. unfold entries_of at 1. simpl. rewrite dget_dset. case_decide as Hkk; simpl.
        -- subst. rewrite elem_list_remove by apply Hw1. set_solver.
        -- split; [|by intros [? _]]. intros Hj. split; [done|]. intros ->%list_elem_of_singleton.
           destruct (pw_key _ Hw1 _ _ Hj) as (e' & ? & ?). congruence.
      * intros j ->%list_elem_of_singleton. eauto.
    + apply (wf_shrink p2 _ [i]); try done; try apply Hw1.
      * intros k j. unfold entries_of at 1. simpl. fold (entries_of p2 k).
        split; [|by intros [? _]]. intros Hj. split; [done|]. intros ->%list_elem_of_singleton.
        destruct (pw_key _ Hw1 _ _ Hj) as (e' & ? & ?). assert (k = key) as -> by congruence. done.
      * intros j ->%list_elem_of_singleton. eauto.
  - apply (set_breaker_wf key (record_success t_cb cb)) in Hw1.
    assert (p_heap (set_breaker key (record_success t_cb cb) p1) !! i = Some e) as He2 by (simpl; congruence).
    rewrite He2. by eapply set_entry_wf.
Qed.

(** ** Eviction *)

Lemma oldest_spec p i l :
  oldest p i l ∈ i :: l ∧ Forall (λ j, entry_last_used p (oldest p i l) <= entry_last_used p j) (i :: l).
Proof.
  revert i. induction l as [|j l IH]; intros i; simpl; [by repeat constructor|].
  case_test; reflect_bools.
  - destruct (IH j) as [H1 H2]. split; [set_solver|]. constructor; [|done].
    apply Forall_cons in H2 as [H2 _]. lia.
  - destruct (IH i) as [H1 H2]. apply Forall_cons in H2 as [H2 H3].
    split; [set_solver|]. constructor; [done|]. constructor; [lia|done].
Qed.

(** What the loop of [add] leaves: it evicts idle entries only, the least
    recently used first, and stops below the maximum or when none is idle. *)
Record evicted_ok (p : SessionPool) (l kept gone : list nat) : Prop := {
  ev_kept : ∀ i, i ∈ kept ↔ i ∈ l ∧ i ∉ gone;
  ev_sub : kept `sublist_of` l;
  ev_idle : ∀ i, i ∈ gone → i ∈ l ∧ entry_in_use p i = false;
  ev_lru : ∀ i j, i ∈ gone → j ∈ kept → entry_in_use p j = false → entry_last_used p i <= entry_last_used p j;
  ev_len : length l = (length kept + length gone)%nat;
  ev_exit : Z.of_nat (length kept) < _per_key_max p ∨ ∀ i, i ∈ kept → entry_in_use p i = true }.

Lemma evict_loop_spec fuel p l ev :
  (length l ≤ fuel)%nat → NoDup l → 1 <= _per_key_max p →
  ∃ kept gone, evict_loop fuel p l ev = (kept, ev ++ gone) ∧ evicted_ok p l kept gone.
Proof.
  revert l ev. induction fuel as [|fuel IH]; intros l ev Hlen Hnd Hmax.
  - destruct l; [|simpl in Hlen; lia]. exists [], []. rewrite app_nil_r. split; [done|].
    constructor; [set_solver|done|set_solver|set_solver|done|set_solver].
  - cbn [evict_loop]. destruct (_ <? _) eqn:Elt; reflect_bools.
    { exists l, []. rewrite app_nil_r. split; [done|]. constructor; [set_solver|done|set_solver|set_solver|simpl; lia|by left]. }
    destruct (keep _ l) as [|i idle] eqn:Ek.
    { exists l, []. rewrite app_nil_r. split; [done|]. constructor; [set_solver|done|set_solver|set_solver|simpl; lia|].
      right. intros i Hi. destruct (entry_in_use p i) eqn:Eu; [done|].
      assert (i ∈ keep (λ i, negb (entry_in_use p i)) l) as Hin
        by (apply elem_of_keep; by rewrite Eu).
      rewrite Ek in Hin. set_solver. }
    destruct (oldest_spec p i idle) as [Hin Hmin]. rewrite <-Ek in Hin, Hmin.
    set (o := oldest p i idle) in *. apply elem_of_keep in Hin as [Hol Hoi]. reflect_bools.
    pose proof (length_list_remove o l Hol) as Hl.
    assert (NoDup (list_remove o l)) as Hnd' by (eapply sublist_NoDup; [done|apply list_remove_sublist]).
    destruct (IH (list_remove o l) (ev ++ [o])) as (kept & gone & -> & [H1 H2 H3 H4 H5 H6]); [lia|done|done|].
    exists kept, (o :: gone). rewrite <-app_assoc. split; [done|].
    assert (∀ j, j ∈ list_remove o l ↔ j ∈ l ∧ j ≠ o) as Hrem by (intros j; by apply elem_list_remove).
    constructor.
    + intros j. rewrite H1, Hrem, not_elem_of_cons. tauto.
    + etrans; [done|apply list_remove_sublist].
    + intros j [->|Hj]%elem_of_cons; [done|]. destruct (H3 j Hj) as [[? _]%Hrem ?]. done.
    + intros a b [->|Ha]%elem_of_cons Hb Hbu; [|by eauto].
      rewrite Forall_forall in Hmin. apply Hmin. apply elem_of_keep. rewrite Hbu.
      split; [|done]. by apply H1 in Hb as [[? _]%Hrem _].
    + simpl. lia.
    + done.
Qed.

(** ** The other operations *)

(** A fresh entry enters the pool under its key. *)
Lemma wf_insert p p' key e l :
  pool_wf p → p_next p' = S (p_next p) → _per_key_max p' = _per_key_max p →
  entries_of p key = l → pe_key e = key →
  _pool p' = dset (_pool p) key (l ++ [p_next p]) →
  p_heap p' = <[p_next p := e]> (p_heap p) → p_closed p' = p_closed p → pool_wf p'.
Proof.
  intros [Hd Hm Hn Hk Hh Hkept Ho Hc] Hnext Hmax <- <- Hpool Hheap Hcl.
  assert (p_heap p !! p_next p = None) as Hfresh.
  { destruct (p_heap p !! p_next p) eqn:E; [|done].
    assert (p_next p < p_next p)%nat; [|lia]. apply Hh. by rewrite E. }
  assert (∀ k, entries_of p' k = entries_of p k ++ (if decide (pe_key e = k) then [p_next p] else [])) as He.
  { intros k. unfold entries_of at 1. rewrite Hpool, dget_dset. case_decide; subst; simpl; [done|].
    by rewrite app_nil_r. }
  assert (∀ k i, i ∈ entries_of p k → i ≠ p_next p) as Hnew.
  { intros k i Hi ->. destruct (Hk _ _ Hi) as (e' & ? & _). congruence. }
  split.
  - rewrite Hpool. by apply dict_wf_dset.
  - lia.
  - intros k. rewrite He. apply NoDup_app. split_and!; [done| |].
    + intros i Hi. case_decide; [|set_solver]. intros ->%list_elem_of_singleton. by eapply Hnew.
    + case_decide; [apply NoDup_singleton|constructor].
  - intros k i. rewrite He, elem_of_app, Hheap. intros [Hi|Hi].
    + rewrite lookup_insert_ne by (apply not_eq_sym; eauto). eauto.
    + case_decide; [|set_solver]. apply list_elem_of_singleton in Hi as ->.
      rewrite lookup_insert_eq. eauto.
  - intros i. rewrite Hheap, Hnext, lookup_insert. case_decide; subst.
    + split; [lia|eauto].
    + rewrite Hh. lia.
  - intros i e'. rewrite Hheap, Hcl, He, elem_of_app, lookup_insert. case_decide; subst.
    + intros; simplify_eq. left. right. rewrite decide_True by done. set_solver.
    + intros Hi. destruct (Hkept _ _ Hi); auto.
  - intros k i. rewrite He, elem_of_app, Hcl. intros [Hi|Hi]; [by eapply Ho|].
    case_decide; [|set_solver]. apply list_elem_of_singleton in Hi as ->.
    intros Hin%Hc. rewrite Hfresh in Hin. by destruct Hin.
  - intros i. rewrite Hcl, Hheap. intros Hi%Hc. rewrite lookup_insert. by case_decide.
Qed.

(** [add] is an eviction followed by an insertion. *)
Lemma add_split now key p :
  pool_wf p →
  ∃ kept gone, evicted_ok p (entries_of p key) kept gone ∧
    pool_wf (add now key p).2 ∧ (add now key p).1 = p_next p ∧
    entries_of (add now key p).2 key = kept ++ [p_next p] ∧
    p_closed (add now key p).2 = p_closed p ++ gone.
Proof.
  intros Hw. unfold add.
  destruct (evict_loop_spec (length (entries_of p key)) p (entries_of p key) []) as (kept & gone & -> & Hev);
    [done|apply Hw|apply Hw|]. exists kept, gone. cbn [app fst snd].
  set (p1 := close_entries gone (set_pool (dset (_pool p) key kept) p)).
  assert (pool_wf p1) as Hw1.
  { destruct Hev as [H1 H2 H3 _ _ _]. apply (wf_shrink p p1 gone); try done.
    - apply dict_wf_dset, Hw.
    - intros k. unfold entries_of. simpl. rewrite dget_dset. case_decide; [|apply Hw].
      simpl. eapply sublist_NoDup; [apply (pw_nodup _ Hw key)|done].
    - intros k i. unfold entries_of at 1. simpl. rewrite dget_dset. case_decide as Hkk; simpl; subst.
      + by rewrite H1.
      + split; [|by intros [? _]]. intros Hi. split; [done|]. intros [Hg _]%H3.
        destruct (pw_key _ Hw _ _ Hi) as (? & ? & ?), (pw_key _ Hw _ _ Hg) as (? & ? & ?). congruence.
    - intros i [Hg _]%H3. destruct (pw_key _ Hw _ _ Hg) as (? & ? & ?). eauto. }
  assert (entries_of p1 key = kept) as Hk1 by (unfold entries_of; simpl; by rewrite dget_dset_eq).
  split_and!; [done| |done| |done].
  - apply (wf_insert p1 _ key {| pe_key := key; created_at := now; last_used := now; in_use := false |} kept);
      try done.
    simpl. clear. generalize (_pool p) as d. intros d. induction d as [|[k l] d IH]; simpl.
    + by rewrite decide_True.
    + destruct (decide (k = key)); simpl; [by rewrite decide_True|by rewrite decide_False, IH].
  - unfold entries_of. simpl. by rewrite dget_dset_eq.
Qed.

Lemma remove_all_wf key p : pool_wf p → pool_wf (remove_all key p).2.
Proof.
  intros Hw. unfold remove_all. apply (wf_shrink p _ (entries_of p key)); try done.
  - apply dict_wf_ddel, Hw.
  - intros k. unfold entries_of. simpl. rewrite dget_ddel by apply Hw. case_decide; [constructor|apply Hw].
  - intros k i. unfold entries_of at 1. simpl. rewrite dget_ddel by apply Hw. case_decide as Hk; simpl; subst.
    + split; [set_solver|]. by intros [? ?].
    + split; [|by intros [? _]]. intros Hi. split; [done|]. intros Hg.
      destruct (pw_key _ Hw _ _ Hi) as (? & ? & ?), (pw_key _ Hw _ _ Hg) as (? & ? & ?). congruence.
  - intros i Hi. destruct (pw_key _ Hw _ _ Hi) as (? & ? & ?). eauto.
Qed.

Lemma sweep_entries (f : list nat → list nat) (d : odict SessionKey (list nat)) k :
  dict_wf d → f [] = [] →
  default [] (dget (keep has_entries (prod_map id f <$> d)) k) = f (default [] (dget d k)).
Proof.
  intros Hd Hf. induction d as [|[a l] d IH]; [done|].
  apply NoDup_cons in Hd as [Ha Hd]. specialize (IH Hd). csimpl.
  unfold has_entries at 1. simpl. destruct (f l) as [|x fl] eqn:Efl; simpl.
  - destruct (decide (a = k)) as [->|]; [|done].
    simpl. rewrite Efl, IH. replace (dget d k) with (None : option (list nat)); [done|].
    symmetry. by apply dget_None.
  - destruct (decide (a = k)); [|done]. simpl. by rewrite Efl.
Qed.

Lemma elem_bind_pool (g : list nat → list nat) p i :
  dict_wf (_pool p) → (∀ j l, j ∈ g l → j ∈ l) → g [] = [] →
  i ∈ (_pool p ≫= λ '(key, l), g l) ↔ ∃ k, i ∈ g (entries_of p k).
Proof.
  intros Hd Hg Hnil. rewrite list_elem_of_bind. split.
  - intros ([k l] & Hi & Hin). exists k. unfold entries_of. by rewrite (elem_dget _ _ _ Hd Hin).
  - intros [k Hi]. unfold entries_of in Hi. destruct (dget (_pool p) k) as [l|] eqn:E; simpl in Hi.
    + exists (k, l). split; [done|]. by apply dget_Some_elem.
    + rewrite Hnil in Hi. set_solver.
Qed.

Lemma sweep_keys (f : list nat → list nat) (d : odict SessionKey (list nat)) :
  dict_wf d → dict_wf (keep has_entries (prod_map id f <$> d)).
Proof.
  intros Hd. unfold dict_wf, dkeys. apply NoDup_fmap_keep. rewrite <-list_fmap_compose.
  done.
Qed.

Lemma reap_entries now p k :
  dict_wf (_pool p) → entries_of (_reap_expired now p) k = keep (λ i, negb (expired now p i)) (entries_of p k).
Proof. intros Hd. unfold entries_of. simpl. by rewrite (sweep_entries (keep (λ i, negb (expired now p i)))). Qed.

Lemma reap_wf now p : pool_wf p → pool_wf (_reap_expired now p).
Proof.
  intros Hw. pose proof (pw_dict _ Hw) as Hd.
  assert (∀ i, i ∈ (_pool p ≫= λ '(_, l), keep (expired now p) l) ↔
    ∃ k, i ∈ entries_of p k ∧ expired now p i = true) as Hgone.
  { intros i. rewrite (elem_bind_pool (keep (expired now p))); [|done| |done].
    - by setoid_rewrite elem_of_keep.
    - by intros j l [? _]%elem_of_keep. }
  apply (wf_shrink p _ (_pool p ≫= λ '(_, l), keep (expired now p) l)); try done.
  - by apply (sweep_keys (keep (λ i, negb (expired now p i)))).
  - intros k. rewrite reap_entries by done. apply NoDup_keep, Hw.
  - intros k i. rewrite reap_entries, elem_of_keep, Hgone by done. split.
    + intros [Hi Hx]. reflect_bools. split; [done|]. intros (k' & _ & ?). congruence.
    + intros [Hi Hx]. split; [done|]. destruct (expired now p i) eqn:E; [|done]. exfalso. eauto.
  - intros i (k & Hi & _)%Hgone. destruct (pw_key _ Hw _ _ Hi) as (? & ? & ?). eauto.
Qed.

Lemma elem_pooled p i : dict_wf (_pool p) → i ∈ concat (dvalues (_pool p)) ↔ ∃ k, i ∈ entries_of p k.
Proof.
  intros Hd. change (∃ k, i ∈ entries_of p k) with (∃ k, i ∈ id (entries_of p k)).
  rewrite <-(elem_bind_pool id) by done.
  replace (concat (dvalues (_pool p))) with (_pool p ≫= λ '(_, l), id l); [done|].
  unfold dvalues. generalize (_pool p) as d. intros d. induction d as [|[k l] d IH]; simpl; [done|].
  by f_equal.
Qed.

Lemma stop_wf p : pool_wf p → pool_wf (stop p).
Proof.
  intros Hw. pose proof (pw_dict _ Hw) as Hd. apply (wf_shrink p _ (concat (dvalues (_pool p)))); try done.
  - constructor.
  - intros k. constructor.
  - intros k i. rewrite elem_pooled by done. split; [unfold entries_of; simpl; set_solver|].
    intros [Hi Hx]. exfalso. eauto.
  - intros i [k Hi]%elem_pooled; [|done]. destruct (pw_key _ Hw _ _ Hi) as (? & ? & ?). eauto.
Qed.

Lemma start_wf p : pool_wf p → pool_wf (start p).
Proof. intros Hw. by apply (wf_same p). Qed.

Lemma new_pool_wf m t c : pool_wf (new_pool m t c).
Proof.
  split; unfold entries_of; simpl; try set_solver.
  - constructor.
  - lia.
  - intros k. constructor.
  - intros i. rewrite lookup_empty. split; [by intros []|lia].
Qed.
#[export] Hint Resolve acquire_wf release_wf remove_all_wf reap_wf stop_wf start_wf new_pool_wf : argus.

(** ** Histories *)

Inductive pool_op :=
  | PAcquire (t_cb now : Z) (key : SessionKey)
  | PRelease (t_cb now : Z) (key : SessionKey) (i : nat) (failed : bool)
  | PAdd (now : Z) (key : SessionKey)
  | PRemoveAll (key : SessionKey)
  | PReap (now : Z)
  | PStop
  | PStart.

(** A caller releases an entry under the key it got it for. *)
Inductive pool_step : SessionPool → pool_op → SessionPool → Prop :=
  | ps_acquire p t_cb now key : pool_step p (PAcquire t_cb now key) (acquire t_cb now key p).2
  | ps_release p t_cb now key i failed e :
      p_heap p !! i = Some e → pe_key e = key →
      pool_step p (PRelease t_cb now key i failed) (release t_cb now key i failed p)
  | ps_add p now key : pool_step p (PAdd now key) (add now key p).2
  | ps_remove p key : pool_step p (PRemoveAll key) (remove_all key p).2
  | ps_reap p now : pool_step p (PReap now) (_reap_expired now p)
  | ps_stop p : pool_step p PStop (stop p)
  | ps_start p : pool_step p PStart (start p).

Lemma pool_step_wf p o p' : pool_wf p → pool_step p o p' → pool_wf p'.
Proof.
  intros Hw. destruct 1; auto with argus.
  - apply release_wf; eauto.
  - by destruct (add_split now key p Hw) as (? & ? & _ & ? & _).
Qed.

Lemma reachable_wf m t c ops p : steps pool_step (new_pool m t c) ops p → pool_wf p.
Proof. intros H. eapply (steps_invariant pool_step pool_wf); eauto using pool_step_wf, new_pool_wf. Qed.


Definition demo_key : SessionKey := {| sk_url := "http://a"; sk_identity_hash := "h"; sk_transport_type := "sse" |}.
Definition demo_pool : SessionPool :=
  (add 30 demo_key (release 20 20 demo_key 0 false (acquire 10 10 demo_key (add 0 demo_key
     (add 0 demo_key (new_pool 2 300000 3)).2).2).2)).2.

Lemma demo_pool_reachable :
  steps pool_step (new_pool 2 300000 3)
    [PAdd 0 demo_key; PAdd 0 demo_key; PAcquire 10 10 demo_key; PRelease 20 20 demo_key 0 false; PAdd 30 demo_key]
    demo_pool.
Proof.
  unfold demo_pool. do 3 (eapply steps_cons; [constructor|]).
  eapply steps_cons; [eapply ps_release; vm_compute; reflexivity|].
  eapply steps_cons; [constructor|]. apply steps_nil.
Qed.


(** An acquired session is idle, younger than the time-to-live, registered
    under the requested key, not closed, and the circuit breaker of the key
    lets it through; it is then marked in use, and no later call can acquire it
    before something else happens to it. *)
Theorem acquire_exclusive m t c ops p t_cb now key i p' :
  steps pool_step (new_pool m t c) ops p →
  acquire t_cb now key p = (Some i, p') →
  _closed p = false ∧ i ∈ entries_of p key ∧ (i ∉ p_closed p) ∧
  entry_in_use p i = false ∧ now - entry_created p i < _ttl p ∧
  (allows_request t_cb (_get_circuit_breaker key p).1).1 = true ∧
  entry_in_use p' i = true ∧ ∀ t_cb' now' key', (acquire t_cb' now' key' p').1 ≠ Some i.
Proof.
  intros Hr%reachable_wf Ha. unfold acquire in Ha.
  destruct (_closed p) eqn:Ecl; [done|]. destruct (get_breaker_pool key p) as (Hpool & Hheap & Httl & _).
  destruct (_get_circuit_breaker key p) as [cb p1]. cbn [snd fst] in *.
  destruct (allows_request t_cb cb) as [allowed cb']. destruct allowed; cbn [negb] in Ha; [|done].
  set (p2 := set_breaker key cb' p1) in *.
  assert (_pool p2 = _pool p ∧ p_heap p2 = p_heap p ∧ _ttl p2 = _ttl p) as (E1 & E2 & E3) by done.
  destruct (List.find _ _) as [j|] eqn:Ef; [|done].
  destruct (p_heap p2 !! j) as [e|] eqn:Ee; [|done]. simplify_eq.
  apply find_first in Ef as (l1 & l2 & El & Hc & _). reflect_bools.
  assert (i ∈ entries_of p key) as Hin.
  { unfold entries_of in *. rewrite E1 in El. rewrite El. set_solver. }
  unfold entry_in_use, entry_created in *. rewrite E2, E3 in *.
  split_and!; try done.
  - by eapply pw_open.
  - cbn [set_entry p_heap]. by rewrite lookup_insert_eq.
  - intros t_cb' now' key' Hacq. unfold acquire in Hacq. case_match; [done|].
    destruct (get_breaker_pool key' (set_entry i
      {| pe_key := pe_key e; created_at := created_at e; last_used := now; in_use := true |} p2))
      as (_ & Hheap' & _).
    destruct (_get_circuit_breaker key' _) as [cb2 p3]. cbn [snd] in Hheap'.
    destruct (allows_request t_cb' cb2) as [[] cb3]; cbn [negb] in Hacq; [|done].
    destruct (List.find _ _) as [j|] eqn:Ef; [|done].
    destruct (p_heap _ !! j); [|done]. simplify_eq/=.
    apply find_first in Ef as (_ & _ & _ & Hc & _). reflect_bools. unfold entry_in_use in *.
    simpl in *. rewrite Hheap' in *. rewrite lookup_insert_eq in *. done.
Qed.

Lemma acquire_exclusive_witness :
  (acquire 40 40 demo_key demo_pool).1 = Some 0%nat ∧
  entry_in_use demo_pool 0 = false ∧
  ∀ t_cb' now' key', (acquire t_cb' now' key' (acquire 40 40 demo_key demo_pool).2).1 ≠ Some 0%nat.
Proof.
  split; [vm_compute; reflexivity|].
  destruct (acquire_exclusive 2 300000 3
    [PAdd 0 demo_key; PAdd 0 demo_key; PAcquire 10 10 demo_key; PRelease 20 20 demo_key 0 false; PAdd 30 demo_key]
    demo_pool 40 40 demo_key 0 (acquire 40 40 demo_key demo_pool).2 demo_pool_reachable)
    as (_ & _ & _ & H & _ & _ & _ & H'); [vm_compute; reflexivity|]. split; [exact H|exact H'].
Defined.

(** Adding a session terminates with the pool of the key at most at its
    maximum, unless every other session of the key is in use; what it closes
    are idle sessions of the key, each at least as long unused as any idle
    session that stays. *)
Theorem add_bounded m t c ops p now key :
  steps pool_step (new_pool m t c) ops p →
  let p' := (add now key p).2 in
  ∃ kept gone, entries_of p' key = kept ++ [p_next p] ∧ p_closed p' = p_closed p ++ gone ∧
    (Z.of_nat (length (entries_of p' key)) <= _per_key_max p ∨
     ∀ i, i ∈ kept → entry_in_use p i = true) ∧
    (∀ i, i ∈ gone → i ∈ entries_of p key ∧ entry_in_use p i = false) ∧
    (∀ i j, i ∈ gone → j ∈ kept → entry_in_use p j = false → entry_last_used p i <= entry_last_used p j).
Proof.
  intros Hr%reachable_wf p'. destruct (add_split now key p Hr) as (kept & gone & [H1 H2 H3 H4 H5 H6] & _ & _ & He & Hc).
  subst p'. exists kept, gone. split_and!; try done. rewrite He, length_app. simpl.
  destruct H6; [left; lia|by right].
Qed.

Lemma add_bounded_witness :
  ∃ kept gone, entries_of (add 50 demo_key demo_pool).2 demo_key = kept ++ [3%nat] ∧
    p_closed (add 50 demo_key demo_pool).2 = [1%nat] ++ gone.
Proof.
  destruct (add_bounded 2 300000 3
    [PAdd 0 demo_key; PAdd 0 demo_key; PAcquire 10 10 demo_key; PRelease 20 20 demo_key 0 false; PAdd 30 demo_key]
    demo_pool 50 demo_key demo_pool_reachable) as (kept & gone & H1 & H2 & _).
  exists kept, gone. split; [exact H1|exact H2].
Defined.
