(* ===== verification/Retry.v ===== *)
(** * HTTP retry manager (bridge/retry.py)

    The retry loop over the outcomes of successive requests.  Delays are exact
    rationals of seconds; the random jitter and the parsing of a float are
    arguments. *)
From Stdlib Require Import QArith Qminmax Qpower Lqa.
From S2P Require Import Prelude.
#[local] Open Scope Z_scope.

Definition RETRYABLE_STATUS_CODES : list Z := [408; 429; 502; 503; 504].
Definition NON_RETRYABLE_STATUS_CODES : list Z := [400; 401; 403; 404].

(** A Python float as [float(raw)] can return it. *)
Inductive pyfloat := Fin (q : Q) | PosInf | NegInf | NaN.

Inductive http_outcome :=
  | TransportError (exc : string)
  | HttpResponse (status : Z) (retry_after : option string).

Inductive retry_error :=
  | HTTPError (exc : string)
  | NonRetryableError (status : Z)
  | RetriesExhaustedError (last_status attempts : Z).

Record RetryManager := {
  _max_retries : Z; _base_delay : Q; _backoff_factor : Q; _max_delay : Q; _jitter : Q }.

Section retry.
(** [float(raw)], [None] for the [ValueError]; and the draw of
    [random.uniform] for an attempt, as a fraction of its range. *)
Context (parse_float : string → option pyfloat) (uniform : Z → Q).

Definition _parse_retry_after (header : option string) : option pyfloat :=
  raw ← header; parse_float raw.

Definition positive_float (f : pyfloat) : bool :=
  match f with Fin q => negb (Qle_bool q 0) | PosInf => true | NegInf | NaN => false end.
(** [min(f, m)] of a positive float. *)
Definition min_float (f : pyfloat) (m : Q) : Q := match f with Fin q => Qmin q m | _ => m end.

(** The delay [_wait] sleeps. *)
Definition _wait (rm : RetryManager) (attempt : Z) (retry_after : option pyfloat) : Q :=
  match retry_after with
  | Some f =>
      if positive_float f then min_float f (_max_delay rm)
      else
        let delay := Qmin (_base_delay rm * Qpower (_backoff_factor rm) (attempt - 1)) (_max_delay rm) in
        Qmax (1 # 100) (delay + uniform attempt * (delay * _jitter rm))
  | None =>
      let delay := Qmin (_base_delay rm * Qpower (_backoff_factor rm) (attempt - 1)) (_max_delay rm) in
      Qmax (1 # 100) (delay + uniform attempt * (delay * _jitter rm))
  end%Q.

(** What a call of [execute] did: its result and the delays it slept, one per
    retry; it sent one request more than it slept. *)
Record exec := { ex_result : retry_error + Z; ex_requests : nat; ex_waits : list Q }.

Definition finish (r : retry_error + Z) (sent : nat) (waits : list Q) : exec :=
  {| ex_result := r; ex_requests := sent; ex_waits := waits |}.

(** The [for] loop from [attempt] on, [remaining] attempts left.  [outs] are
    the outcomes of the requests in order. *)
Fixpoint execute_loop (rm : RetryManager) (outs : nat → http_outcome) (remaining : nat)
    (attempt : nat) (last_status : Z) (waits : list Q) : exec :=
  match remaining with
  | O => finish (inl (RetriesExhaustedError last_status (_max_retries rm + 1))) (pred attempt) waits
  | S remaining' =>
      let retry status after :=
        execute_loop rm outs remaining' (S attempt) status
          (waits ++ [_wait rm (Z.of_nat attempt) after]) in
      match outs (pred attempt) with
      | TransportError exc =>
          if Z.of_nat attempt >? _max_retries rm then finish (inl (HTTPError exc)) attempt waits
          else retry last_status None
      | HttpResponse status header =>
          if (200 <=? status) && (status <? 300) then finish (inr status) attempt waits
          else if bool_decide (status ∈ NON_RETRYABLE_STATUS_CODES)
          then finish (inl (NonRetryableError status)) attempt waits
          else if bool_decide (status ∈ RETRYABLE_STATUS_CODES) then
            if Z.of_nat attempt >? _max_retries rm
            then finish (inl (RetriesExhaustedError status (Z.of_nat attempt))) attempt waits
            else retry status (_parse_retry_after header)
          else finish (inl (NonRetryableError status)) attempt waits
      end
  end.

Definition execute (rm : RetryManager) (outs : nat → http_outcome) : exec :=
  execute_loop rm outs (Z.to_nat (_max_retries rm + 1)) 1 0 [].

(** ** Classification *)

Definition retryable (o : http_outcome) : bool :=
  match o with
  | TransportError _ => true
  | HttpResponse s _ => bool_decide (s ∈ RETRYABLE_STATUS_CODES)
  end.

(** The verdict on an outcome that is not retried. *)
Definition verdict (o : http_outcome) : retry_error + Z :=
  match o with
  | TransportError e => inl (HTTPError e)
  | HttpResponse s _ => if (200 <=? s) && (s <? 300) then inr s else inl (NonRetryableError s)
  end.

(** The verdict on a retryable outcome of the last attempt. *)
Definition exhausted (o : http_outcome) (attempts : Z) : retry_error + Z :=
  match o with
  | TransportError e => inl (HTTPError e)
  | HttpResponse s _ => inl (RetriesExhaustedError s attempts)
  end.

Definition retry_header (o : http_outcome) : option pyfloat :=
  match o with TransportError _ => None | HttpResponse _ h => _parse_retry_after h end.

Lemma execute_loop_step rm outs remaining attempt last waits :
  execute_loop rm outs (S remaining) attempt last waits =
  let o := outs (pred attempt) in
  if negb (retryable o) then finish (verdict o) attempt waits
  else if Z.of_nat attempt >? _max_retries rm then finish (exhausted o (Z.of_nat attempt)) attempt waits
  else execute_loop rm outs remaining (S attempt)
         (match o with HttpResponse s _ => s | TransportError _ => last end)
         (waits ++ [_wait rm (Z.of_nat attempt) (retry_header o)]).
Proof.
  cbn [execute_loop]. cbv zeta. destruct (outs (pred attempt)) as [e|s h]; simpl; [by case_test|].
  destruct (bool_decide (s ∈ RETRYABLE_STATUS_CODES)) eqn:Er; reflect_bools; simpl.
  - replace ((200 <=? s) && (s <? 300)) with false.
    + rewrite bool_decide_eq_false_2; [by case_test|]. unfold RETRYABLE_STATUS_CODES, NON_RETRYABLE_STATUS_CODES in *.
      set_solver by lia.
    + symmetry. apply andb_false_iff. unfold RETRYABLE_STATUS_CODES in Er. right. apply Z.ltb_ge.
      repeat (apply elem_of_cons in Er as [->|Er]; [lia|]). set_solver.
  - case_test; [done|]. by case_test.
Qed.

(** The loop stops at the first outcome that is not retryable, or at the last
    attempt. *)
Lemma execute_loop_spec rm (outs : nat → http_outcome) k remaining attempt last waits :
  (∀ j, (j < k)%nat → retryable (outs (pred attempt + j)%nat) = true) →
  (k < remaining)%nat → (1 ≤ attempt)%nat →
  Z.of_nat (attempt + remaining) = _max_retries rm + 2 →
  (retryable (outs (pred attempt + k)%nat) = false ∨ S k = remaining) →
  let o := outs (pred attempt + k)%nat in
  execute_loop rm outs remaining attempt last waits =
  finish (if retryable o then exhausted o (Z.of_nat (attempt + k)%nat) else verdict o) (attempt + k)%nat
    (waits ++ ((λ j, _wait rm (Z.of_nat (attempt + j)) (retry_header (outs (pred attempt + j)%nat))) <$> seq 0 k)).
Proof.
  revert remaining attempt last waits.
  induction k as [|k IH]; intros remaining attempt last waits Hre Hk Hatt Hsum Hend; cbv zeta;
    (destruct remaining as [|remaining]; [lia|]); rewrite execute_loop_step; cbv zeta.
  - rewrite !Nat.add_0_r in *. simpl. rewrite app_nil_r.
    destruct (retryable (outs (pred attempt))); cbn [negb]; [|done].
    destruct Hend as [?|Hend]; [done|].
    replace (_ >? _) with true; [done|]. symmetry. rewrite Z.gtb_ltb. apply Z.ltb_lt. lia.
  - pose proof (Hre 0%nat ltac:(lia)) as H0. rewrite Nat.add_0_r in H0. rewrite H0. cbn [negb].
    replace (_ >? _) with false by (symmetry; rewrite Z.gtb_ltb; apply Z.ltb_ge; lia).
    assert (∀ j, (pred (S attempt) + j = pred attempt + S j)%nat) as Hidx by (intros; lia).
    rewrite IH; [|intros j Hj; rewrite Hidx; apply Hre; lia|lia|lia|lia|rewrite Hidx; destruct Hend; [by left|right; lia]].
    rewrite Hidx. replace (S attempt + k)%nat with (attempt + S k)%nat by lia.
    f_equal. rewrite <-app_assoc. f_equal. cbn [seq fmap list_fmap app]. rewrite !Nat.add_0_r. f_equal.
    rewrite <-seq_shift, <-list_fmap_compose. apply list_fmap_ext. intros i j _.
    unfold compose. rewrite Hidx. f_equal. lia.
Qed.

Lemma wait_bounds rm attempt after :
  (0 < _base_delay rm)%Q → (0 < _backoff_factor rm)%Q → (0 < _max_delay rm)%Q →
  (0 <= _jitter rm)%Q → (∀ a, -(1) <= uniform a <= 1)%Q →
  (0 < _wait rm attempt after)%Q ∧
  (_wait rm attempt after <= Qmax (1 # 100) (_max_delay rm * (1 + _jitter rm)))%Q.
Proof.
  intros Hb Hf Hm Hj Hu. set (mx := Qmax (1 # 100) (_max_delay rm * (1 + _jitter rm))%Q).
  assert (_max_delay rm <= mx)%Q as Hmx.
  { eapply Qle_trans; [|apply Q.le_max_r]. nra. }
  assert (∀ d, d == Qmin (_base_delay rm * Qpower (_backoff_factor rm) (attempt - 1)) (_max_delay rm) →
    0 < Qmax (1 # 100) (d + uniform attempt * (d * _jitter rm)) ∧
    Qmax (1 # 100) (d + uniform attempt * (d * _jitter rm)) <= mx)%Q as Hback.
  { intros d Hd. split; [eapply Qlt_le_trans; [|apply Q.le_max_l]; done|].
    assert (0 <= d)%Q.
    { rewrite Hd. apply Q.min_glb; [|lra]. apply Qmult_le_0_compat; [lra|].
      apply Qlt_le_weak, Qpower_0_lt. done. }
    assert (d <= _max_delay rm)%Q by (rewrite Hd; apply Q.le_min_r).
    apply Q.max_lub; [apply Q.le_max_l|]. eapply Qle_trans; [|apply Q.le_max_r].
    specialize (Hu attempt). destruct Hu as [Hu1 Hu2].
    assert (uniform attempt * (d * _jitter rm) <= d * _jitter rm)%Q.
    { assert (0 <= d * _jitter rm)%Q by (by apply Qmult_le_0_compat). nra. }
    assert (d * _jitter rm <= _max_delay rm * _jitter rm)%Q by (apply Qmult_le_compat_r; done).
    lra. }
  unfold _wait. destruct after as [[q| | |]|]; simpl; try (apply Hback; reflexivity).
  - destruct (Qle_bool q 0) eqn:Eq; simpl; [apply Hback; reflexivity|].
    assert (0 < q)%Q. { apply Qnot_le_lt. intros Hle. apply Qle_bool_iff in Hle. congruence. }
    split; [by apply Q.min_glb_lt|]. eapply Qle_trans; [apply Q.le_min_r|done].
  - by split.
Qed.
End retry.

(** With a non-negative retry budget, [execute] stops at the first outcome
    that is not retryable and returns its verdict (the response of a 2xx, a
    non-retryable error otherwise), or, when all [max_retries + 1] outcomes are
    retryable, fails with the error of the last one; it has then sent exactly
    that many requests and slept once between consecutive ones, each delay
    positive and at most [max_delay * (1 + jitter)] (or 10 ms). *)
Theorem execute_exact parse_float uniform rm outs k :
  0 <= _max_retries rm → Z.of_nat k <= _max_retries rm →
  (∀ j, (j < k)%nat → retryable (outs j) = true) →
  (retryable (outs k) = false ∨ Z.of_nat k = _max_retries rm) →
  (0 < _base_delay rm)%Q → (0 < _backoff_factor rm)%Q → (0 < _max_delay rm)%Q →
  (0 <= _jitter rm)%Q → (∀ a, -(1) <= uniform a <= 1)%Q →
  let x := execute parse_float uniform rm outs in
  ex_result x = (if retryable (outs k) then exhausted (outs k) (Z.of_nat (S k)) else verdict (outs k)) ∧
  ex_requests x = S k ∧ length (ex_waits x) = k ∧
  Forall (λ d, 0 < d ∧ d <= Qmax (1 # 100) (_max_delay rm * (1 + _jitter rm)))%Q (ex_waits x).
Proof.
  intros Hmax Hk Hre Hend Hb Hf Hm Hj Hu. unfold execute.
  assert (pred 1 + k = k)%nat as Hp by lia.
  rewrite (execute_loop_spec parse_float uniform rm outs k);
    [|intros j Hj'; by apply Hre|lia|lia|lia|destruct Hend; [by left|right; lia]].
  cbn [ex_result ex_requests ex_waits finish app Nat.pred Nat.add].
  split_and!; [done|done|by rewrite length_fmap, length_seq|].
  apply Forall_fmap, Forall_forall. intros j _. by apply wait_bounds.
Qed.

Lemma execute_exact_witness :
  let rm := {| _max_retries := 3; _base_delay := 1; _backoff_factor := 2; _max_delay := 60; _jitter := 1 # 2 |} in
  let outs n := match n with O => HttpResponse 503 None | 1%nat => TransportError "ConnectTimeout"
                | _ => HttpResponse 200 None end in
  let x := execute (λ _, None) (λ _, 0%Q) rm outs in
  ex_result x = inr 200 ∧ ex_requests x = 3%nat ∧ length (ex_waits x) = 2%nat.
Proof.
  intros rm outs x.
  destruct (execute_exact (λ _, None) (λ _, 0%Q) rm outs 2) as (H1 & H2 & H3 & _).
  - discriminate.
  - discriminate.
  - intros [|[|[|j]]] Hj; [reflexivity|reflexivity|exfalso; lia|exfalso; lia].
  - left. reflexivity.
  - reflexivity.
  - reflexivity.
  - reflexivity.
  - discriminate.
  - intros a. split; discriminate.
  - split; [exact H1|]. split; [exact H2|exact H3].
Defined.
