(* ===== verification/Workflow.v ===== *)
(** * Workflow definitions (workflows/dsl.py, workflows/steps.py)

    Parsing and validation of a workflow DAG and its topological levels, and
    the data of step results that the executor (Executor.v) works on. *)
From S2P Require Import Prelude PyDict Glob.

Inductive StepStatus := StPending | StRunning | StCompleted | StFailed | StSkipped.
#[export] Instance StepStatus_eq_dec : EqDecision StepStatus.
Proof. solve_decision. Defined.
Definition status_value (s : StepStatus) : string :=
  match s with
  | StPending => "pending" | StRunning => "running" | StCompleted => "completed"
  | StFailed => "failed" | StSkipped => "skipped"
  end.

Record StepResult := {
  sr_step_id : string; sr_status : StepStatus; sr_output : pyval; sr_error : option string }.

Record Step := {
  step_id : string; step_tool : string; step_args : odict string pyval; depends_on : list string;
  condition : string; step_retry : Z; on_error : string; step_description : string }.

(** A step of the configuration: a dictionary with optional keys. *)
Record step_dict := {
  sd_id : option string; sd_tool : option string; sd_args : option (odict string pyval);
  sd_depends_on : option (list string); sd_condition : option string; sd_retry : option Z;
  sd_on_error : option string; sd_description : option string }.

(** [Step.from_dict] on a dictionary that has an ["id"]. *)
Definition step_from_dict (i : string) (d : step_dict) : Step :=
  {| step_id := i; step_tool := default "" (sd_tool d); step_args := default [] (sd_args d);
     depends_on := default [] (sd_depends_on d); condition := default "" (sd_condition d);
     step_retry := default 0 (sd_retry d); on_error := default "fail" (sd_on_error d);
     step_description := default "" (sd_description d) |}.

Record WorkflowDefinition := {
  wf_name : string; wf_description : string; wf_steps : list Step;
  wf_inputs : odict string pyval; wf_output : string }.

Inductive WorkflowValidationError :=
  | MissingName
  | NoSteps
  | MissingStepId
  | DuplicateStepId (i : string)
  | UnknownDependency (i dep : string)
  | CycleDetected (unresolvable : gset string).

(** ** Topological levels *)

Definition build_step_map (steps : list Step) : gmap string Step :=
  foldl (λ m s, <[step_id s := s]> m) ∅ steps.

Definition is_ready (m : gmap string Step) (completed : gset string) (sid : string) : bool :=
  match m !! sid with
  | Some s => forallb (λ dep, bool_decide (dep ∈ completed)) (depends_on s)
  | None => false
  end.

(** ** Correctness of the levels *)

(** A step can run at some point: its dependencies can. *)
Inductive resolvable (m : gmap string Step) : string → Prop :=
  | resolvable_intro i s :
      m !! i = Some s → (∀ dep, dep ∈ depends_on s → resolvable m dep) → resolvable m i.

(** [levels] respects the dependencies, given the ids [before] of earlier steps. *)
Inductive ordered (before : gset string) : list (list Step) → Prop :=
  | ordered_nil : ordered before []
  | ordered_cons level levels :
      (∀ s dep, s ∈ level → dep ∈ depends_on s → dep ∈ before) →
      ordered (before ∪ list_to_set (step_id <$> level)) levels → ordered before (level :: levels).

Lemma ordered_snoc before levels level :
  ordered before levels →
  (∀ s dep, s ∈ level → dep ∈ depends_on s → dep ∈ before ∪ list_to_set (step_id <$> concat levels)) →
  ordered before (levels ++ [level]).
Proof.
  induction 1 as [before|before l levels Hl Ho IH]; intros Hlev; simpl.
  - constructor; [|constructor]. intros s dep Hs Hd. specialize (Hlev s dep Hs Hd). set_solver.
  - constructor; [done|]. apply IH. intros s dep Hs Hd. specialize (Hlev s dep Hs Hd).
    simpl in Hlev. rewrite fmap_app, list_to_set_app_L in Hlev. set_solver.
Qed.

(** The map of steps is keyed by the ids. *)
Definition keyed (m : gmap string Step) : Prop := ∀ i s, m !! i = Some s → step_id s = i.

Lemma build_step_map_keyed l : keyed (build_step_map l).
Proof.
  unfold build_step_map. assert (keyed ∅) as H by (intros i s; by rewrite lookup_empty).
  revert H. generalize (∅ : gmap string Step) as m. induction l as [|s l IH]; intros m H; simpl; [done|].
  apply IH. intros i s'. rewrite lookup_insert. case_decide; [|apply H]. intros. by simplify_eq.
Qed.

(** The invariant of the loop. *)
Record topo_inv (m : gmap string Step) (remaining completed : gset string) (levels : list (list Step)) : Prop := {
  ti_split : dom m = remaining ∪ completed;
  ti_disj : remaining ## completed;
  ti_done : completed = list_to_set (step_id <$> concat levels);
  ti_nodup : NoDup (step_id <$> concat levels);
  ti_steps : ∀ s, s ∈ concat levels → m !! step_id s = Some s;
  ti_order : ordered ∅ levels;
  ti_res : ∀ i, i ∈ completed → resolvable m i }.

Lemma is_ready_spec m completed i :
  is_ready m completed i = true ↔
  ∃ s, m !! i = Some s ∧ ∀ dep, dep ∈ depends_on s → dep ∈ completed.
Proof.
  unfold is_ready. destruct (m !! i) as [s|]; [|naive_solver].
  rewrite forallb_elem_of. setoid_rewrite bool_decide_eq_true. naive_solver.
Qed.

Lemma fmap_omap_ids (m : gmap string Step) (ready : list string) :
  keyed m → (∀ i, i ∈ ready → is_Some (m !! i)) → step_id <$> omap (λ sid, m !! sid) ready = ready.
Proof.
  intros Hk. induction ready as [|i ready IH]; intros H; [done|]. csimpl.
  destruct (H i) as [s Hs]; [left|]. rewrite Hs. csimpl. rewrite (Hk _ _ Hs), IH; [done|].
  intros j Hj. apply H. by right.
Qed.

Section topological.
(** The iteration order of a Python set. *)
Context (iter : gset string → list string).

(** The [while remaining] loop; each round completes at least one step, so the
    number of steps is enough fuel. *)
Fixpoint topo_loop (fuel : nat) (m : gmap string Step) (remaining completed : gset string)
    (levels : list (list Step)) : WorkflowValidationError + list (list Step) :=
  if bool_decide (remaining = ∅) then inr levels
  else
    match fuel with
    | O => inl (CycleDetected remaining)
    | S fuel' =>
        let ready := keep (is_ready m completed) (iter remaining) in
        match ready with
        | [] => inl (CycleDetected remaining)
        | _ => topo_loop fuel' m (remaining ∖ list_to_set ready) (completed ∪ list_to_set ready)
                 (levels ++ [omap (λ sid, m !! sid) ready])
        end
    end.

Definition topological_order (wf : WorkflowDefinition) : WorkflowValidationError + list (list Step) :=
  let m := build_step_map (wf_steps wf) in
  topo_loop (size (dom m : gset string)) m (dom m) ∅ [].

(** ** Parsing *)

Record workflow_dict := {
  wd_name : option string; wd_steps : option (list step_dict);
  wd_description : option string; wd_inputs : option (odict string pyval); wd_output : option string }.

Fixpoint parse_steps (raws : list step_dict) (seen_ids : list string) (steps : list Step)
    : WorkflowValidationError + list Step :=
  match raws with
  | [] => inr steps
  | raw :: rest =>
      match sd_id raw with
      | None => inl MissingStepId
      | Some i =>
          if bool_decide (i ∈ seen_ids) then inl (DuplicateStepId i)
          else parse_steps rest (seen_ids ++ [i]) (steps ++ [step_from_dict i raw])
      end
  end.

(** The first dependency that names no step. *)
Fixpoint check_deps (steps : list Step) (seen_ids : list string) : option WorkflowValidationError :=
  match steps with
  | [] => None
  | s :: rest =>
      match List.find (λ dep, negb (bool_decide (dep ∈ seen_ids))) (depends_on s) with
      | Some dep => Some (UnknownDependency (step_id s) dep)
      | None => check_deps rest seen_ids
      end
  end.

Definition parse_workflow (data : workflow_dict) : WorkflowValidationError + WorkflowDefinition :=
  match wd_name data with
  | None | Some "" => inl MissingName
  | Some name =>
      match default [] (wd_steps data) with
      | [] => inl NoSteps
      | raw_steps =>
          match parse_steps raw_steps [] [] with
          | inl e => inl e
          | inr steps =>
              match check_deps steps (step_id <$> steps) with
              | Some e => inl e
              | None =>
                  let wf := {| wf_name := name; wf_description := default "" (wd_description data);
                               wf_steps := steps; wf_inputs := default [] (wd_inputs data);
                               wf_output := default "" (wd_output data) |} in
                  match topological_order wf with
                  | inl e => inl e
                  | inr _ => inr wf
                  end
              end
          end
      end
  end.

(** The order lists each element of the set once. *)
Hypothesis iter_ok : ∀ X, Permutation (iter X) (elements X).

Lemma elem_iter X i : i ∈ iter X ↔ i ∈ X.
Proof using iter_ok. rewrite (iter_ok X). apply elem_of_elements. Qed.

Lemma NoDup_iter X : NoDup (iter X).
Proof using iter_ok. rewrite (iter_ok X). apply NoDup_elements. Qed.

Lemma topo_inv_step m remaining completed levels :
  keyed m → topo_inv m remaining completed levels →
  let ready := keep (is_ready m completed) (iter remaining) in
  topo_inv m (remaining ∖ list_to_set ready) (completed ∪ list_to_set ready)
    (levels ++ [omap (λ sid, m !! sid) ready]).
Proof using iter_ok.
  intros Hk [H1 H2 H3 H4 H5 H6 H7] ready.
  assert (∀ i, i ∈ ready ↔ i ∈ remaining ∧ is_ready m completed i = true) as Hready
    by (intros i; unfold ready; by rewrite elem_of_keep, elem_iter).
  assert (∀ i, i ∈ ready → is_Some (m !! i)) as Hsome.
  { intros i [_ (s & ? & _)%is_ready_spec]%Hready. eauto. }
  pose proof (fmap_omap_ids m ready Hk Hsome) as Hids.
  assert (∀ s, s ∈ omap (λ sid, m !! sid) ready → m !! step_id s = Some s ∧ step_id s ∈ ready) as Hlev.
  { intros s (i & Hi & Hs)%list_elem_of_omap. by rewrite (Hk _ _ Hs). }
  split.
  - rewrite H1. apply set_eq. intros i. rewrite !elem_of_union, elem_of_difference, elem_of_list_to_set, Hready.
    destruct (is_ready m completed i); naive_solver.
  - set_solver.
  - rewrite concat_app, fmap_app. simpl. rewrite app_nil_r, Hids, list_to_set_app_L. by rewrite H3.
  - rewrite concat_app, fmap_app. simpl. rewrite app_nil_r, Hids. apply NoDup_app. split_and!; [done| |].
    + intros i Hi [Hr _]%Hready. apply (H2 i Hr). rewrite H3. by apply elem_of_list_to_set.
    + apply NoDup_keep, NoDup_iter.
  - intros s. rewrite concat_app. simpl. rewrite app_nil_r, elem_of_app.
    intros [Hs|[? _]%Hlev]; [by apply H5|done].
  - apply ordered_snoc; [done|]. intros s dep [Hs [_ (s' & Hs' & Hd)%is_ready_spec]%Hready]%Hlev Hdep.
    rewrite union_empty_l_L, <-H3. rewrite Hs in Hs'. simplify_eq. auto.
  - intros i [Hi|Hi]%elem_of_union; [by apply H7|]. apply elem_of_list_to_set in Hi.
    apply Hready in Hi as [_ (s & Hs & Hd)%is_ready_spec]. econstructor; [done|]. eauto.
Qed.

(** A set of steps that block each other. *)
Definition stuck (m : gmap string Step) (rem : gset string) : Prop :=
  rem ≠ ∅ ∧ rem ⊆ dom m ∧
  ∀ i s, i ∈ rem → m !! i = Some s → ∃ dep, dep ∈ depends_on s ∧ (dep ∈ rem ∨ dep ∉ dom m).

Lemma resolvable_dom m i : resolvable m i → i ∈ dom m.
Proof. destruct 1 as [i s Hi _]. by apply elem_of_dom_2 in Hi. Qed.

Lemma stuck_not_resolvable m rem i : stuck m rem → resolvable m i → i ∉ rem.
Proof.
  intros (_ & _ & Hs). induction 1 as [i s Hi Hdeps IH]. intros Hin.
  destruct (Hs i s Hin Hi) as (dep & Hd & [Hr|Hr]); [by apply (IH dep)|].
  by apply Hr, resolvable_dom, Hdeps.
Qed.

Lemma topo_loop_spec fuel m remaining completed levels :
  keyed m → topo_inv m remaining completed levels → (size remaining ≤ fuel)%nat →
  match topo_loop fuel m remaining completed levels with
  | inr levels' => topo_inv m ∅ (dom m) levels'
  | inl (CycleDetected rem) => stuck m rem
  | inl _ => False
  end.
Proof using iter_ok.
  intros Hk. revert remaining completed levels.
  induction fuel as [|fuel IH]; intros remaining completed levels Hinv Hsize; cbn [topo_loop].
  - case_bool_decide as Hr.
    + subst. pose proof (ti_split _ _ _ _ Hinv) as E. rewrite union_empty_l_L in E. by rewrite E.
    + exfalso. apply Hr, leibniz_equiv, size_empty_iff. lia.
  - case_bool_decide as Hr.
    { subst. pose proof (ti_split _ _ _ _ Hinv) as E. rewrite union_empty_l_L in E. by rewrite E. }
    pose proof (topo_inv_step m remaining completed levels Hk Hinv) as Hstep. cbv zeta in Hstep |- *.
    destruct (keep (is_ready m completed) (iter remaining)) as [|i ready] eqn:Ek.
    + split_and!; [done|rewrite (ti_split _ _ _ _ Hinv); set_solver|].
      intros j s Hj Hs. destruct (is_ready m completed j) eqn:Er.
      * assert (j ∈ keep (is_ready m completed) (iter remaining)) as Hin
          by (by rewrite elem_of_keep, elem_iter).
        rewrite Ek in Hin. by apply not_elem_of_nil in Hin.
      * unfold is_ready in Er. rewrite Hs in Er. apply not_true_iff_false in Er.
        rewrite forallb_elem_of in Er. setoid_rewrite bool_decide_eq_true in Er.
        destruct (decide (Forall (λ dep, dep ∈ completed) (depends_on s))) as [Hf|Hf].
        { exfalso. apply Er. by apply Forall_forall. }
        apply not_Forall_Exists in Hf; [|apply _]. apply Exists_exists in Hf as (dep & Hd & Hn).
        exists dep. split; [done|]. destruct (decide (dep ∈ remaining)); [by left|right].
        rewrite (ti_split _ _ _ _ Hinv). set_solver.
    + apply IH; [done|].
      assert (i ∈ remaining) as Hi.
      { assert (i ∈ keep (is_ready m completed) (iter remaining)) as Hin by (rewrite Ek; left).
        by apply elem_of_keep in Hin as [?%elem_iter _]. }
      assert (size (remaining ∖ list_to_set (i :: ready)) < size remaining)%nat; [|lia].
      apply subset_size. split; [set_solver|]. intros Hsub. specialize (Hsub i Hi). set_solver.
Qed.

Lemma topological_order_spec wf :
  let m := build_step_map (wf_steps wf) in
  match topological_order wf with
  | inr levels => topo_inv m ∅ (dom m) levels
  | inl (CycleDetected rem) => stuck m rem
  | inl _ => False
  end.
Proof using iter_ok.
  intros m. unfold topological_order. apply topo_loop_spec; [apply build_step_map_keyed| |done].
  split; simpl; try done; try set_solver; [constructor|constructor].
Qed.

End topological.

(** ** Theorems *)

(** C27: the levels of a workflow hold every step exactly once, each after all
    its dependencies; they exist exactly when every step can be resolved from
    its dependencies, so a cycle (or a dependency on no step) is always
    detected and nothing else is rejected, whatever the iteration order of the
    sets. *)
Theorem topological_order_correct iter wf :
  (∀ X, Permutation (iter X) (elements X)) →
  let m := build_step_map (wf_steps wf) in
  (∀ levels, topological_order iter wf = inr levels →
     NoDup (step_id <$> concat levels) ∧
     (∀ s, s ∈ concat levels ↔ m !! step_id s = Some s) ∧ ordered ∅ levels) ∧
  ((∃ levels, topological_order iter wf = inr levels) ↔ ∀ i, i ∈ dom m → resolvable m i).
Proof.
  intros Hit m. pose proof (topological_order_spec iter Hit wf) as Hspec. fold m in Hspec. cbv zeta in Hspec.
  destruct (topological_order iter wf) as [[]|levels]; try done.
  - split; [done|]. split; [by intros []|]. intros Hres.
    destruct Hspec as (Hne & Hsub & Hst). exfalso.
    destruct (set_choose_L _ Hne) as [i Hi]. eapply stuck_not_resolvable; [by split_and!|by apply Hres, Hsub|done].
  - destruct Hspec as [H1 H2 H3 H4 H5 H6 H7]. split.
    + intros ? [= <-]. split_and!; [done| |done]. intros s. split; [apply H5|].
      intros Hs. assert (step_id s ∈ dom m) as Hd by (by apply elem_of_dom_2 in Hs).
      rewrite H3, elem_of_list_to_set in Hd. apply list_elem_of_fmap in Hd as (s' & He & Hs').
      specialize (H5 s' Hs'). rewrite <-He, Hs in H5. by simplify_eq.
    + split; [done|]. intros _. by exists levels.
Qed.

Definition sample_step (i : string) (deps : list string) : Step :=
  {| step_id := i; step_tool := "t"; step_args := []; depends_on := deps; condition := "";
     step_retry := 0; on_error := "fail"; step_description := "" |}.
Definition sample_workflow (steps : list Step) : WorkflowDefinition :=
  {| wf_name := "w"; wf_description := ""; wf_steps := steps; wf_inputs := []; wf_output := "" |}.

Lemma topological_order_correct_witness :
  let wf := sample_workflow [sample_step "c" ["a"; "b"]; sample_step "a" []; sample_step "b" ["a"]] in
  topological_order elements wf = inr [[sample_step "a" []]; [sample_step "b" ["a"]]; [sample_step "c" ["a"; "b"]]] ∧
  topological_order elements (sample_workflow [sample_step "a" ["b"]; sample_step "b" ["a"]]) =
    inl (CycleDetected {["a"; "b"]}) ∧
  ordered ∅ [[sample_step "a" []]; [sample_step "b" ["a"]]; [sample_step "c" ["a"; "b"]]].
Proof.
  intros wf. split; [vm_compute; reflexivity|]. split; [vm_compute; reflexivity|].
  destruct (topological_order_correct elements wf) as [H _]; [reflexivity|].
  apply H. vm_compute; reflexivity.
Defined.

Lemma parse_steps_spec raws seen steps out :
  parse_steps raws seen steps = inr out → seen = step_id <$> steps → NoDup seen →
  NoDup (step_id <$> out).
Proof.
  revert seen steps. induction raws as [|raw raws IH]; intros seen steps; simpl.
  - intros [= <-] <- Hn. done.
  - destruct (sd_id raw) as [i|]; [|done]. case_bool_decide as Hi; [done|].
    intros Hp Hs Hn. eapply IH; [exact Hp|by rewrite fmap_app, <-Hs|].
    apply NoDup_app. split_and!; [done|set_solver|apply NoDup_singleton].
Qed.

Lemma check_deps_spec steps seen :
  check_deps steps seen = None → ∀ s dep, s ∈ steps → dep ∈ depends_on s → dep ∈ seen.
Proof.
  induction steps as [|x steps IH]; simpl; [set_solver|].
  destruct (List.find _ _) eqn:E; [done|]. apply find_nothing in E. rewrite Forall_forall in E.
  intros Hc s dep [->|Hs]%elem_of_cons Hd; [|by eauto].
  specialize (E dep Hd). by reflect_bools.
Qed.

Lemma build_step_map_lookup l :
  NoDup (step_id <$> l) → ∀ s, build_step_map l !! step_id s = Some s ↔ s ∈ l.
Proof.
  intros Hn. unfold build_step_map.
  assert (∀ (m : gmap string Step) s, foldl (λ m s, <[step_id s := s]> m) m l !! step_id s = Some s ↔
    s ∈ l ∨ ((step_id s ∉ (step_id <$> l)) ∧ m !! step_id s = Some s)) as H.
  { induction l as [|x l IH]; intros m s; simpl; [set_solver|].
    csimpl in Hn. apply NoDup_cons in Hn as [Hx Hn]. rewrite IH by done.
    rewrite lookup_insert, elem_of_cons, not_elem_of_cons. case_decide as Hxs.
    - rewrite <-Hxs. split.
      + intros [?|[? [= ->]]]; auto.
      + intros [[->|?]|[[? _] _]]; [right|left|]; done.
    - split; [intros [?|[? ?]]; auto|intros [[->|?]|[[? ?] ?]]; auto; done]. }
  intros s. rewrite H, lookup_empty. naive_solver.
Qed.

Lemma parse_workflow_inv iter data wf :
  parse_workflow iter data = inr wf →
  wf_name wf ≠ "" ∧ wf_steps wf ≠ [] ∧ NoDup (step_id <$> wf_steps wf) ∧
  (∀ s dep, s ∈ wf_steps wf → dep ∈ depends_on s → dep ∈ (step_id <$> wf_steps wf)) ∧
  ∃ levels, topological_order iter wf = inr levels.
Proof.
  unfold parse_workflow. destruct (wd_name data) as [[|c name]|]; [done| |done].
  destruct (default [] (wd_steps data)) as [|raw raws] eqn:Er; [done|].
  destruct (parse_steps (raw :: raws) [] []) as [e|steps] eqn:Ep; [done|].
  destruct (check_deps steps (step_id <$> steps)) eqn:Ec; [done|].
  destruct (topological_order iter _) as [e|levels] eqn:Et; [done|]. intros [= <-]. simpl.
  split_and!; [done| | | |by eexists].
  - intros ->.
    assert (∀ raws seen acc out, parse_steps raws seen acc = inr out → length acc ≤ length out)%nat as Hlen.
    { clear. induction raws as [|r raws IH]; intros seen acc out; simpl; [by intros [= <-]|].
      repeat case_match; try done. intros Hl%IH. rewrite length_app in Hl. simpl in Hl. lia. }
    cbn [parse_steps] in Ep. repeat case_match; try done. apply Hlen in Ep. simpl in Ep. lia.
  - eapply parse_steps_spec; [done|done|constructor].
  - by eapply check_deps_spec.
Qed.
