(* ===== verification/Executor.v ===== *)
(** * Workflow execution (workflows/executor.py, workflows/composite_tool.py)

    The interpolation language, the execution of one step with its condition,
    dependency checks and retries, the level-by-level executor, and the
    composite tool that wraps it. *)
From S2P Require Import Prelude PyDict Glob PyStr Workflow.

(** [a-zA-Z0-9_.] *)
Definition is_path (c : Ascii.ascii) : bool := is_word c || is_char 46 c.

(** A match of [_INTERPOLATION_RE] at the start of [l]: scope, path and what
    follows.  The classes before [.] and [}] exclude them, so the greedy match
    is the only one. *)
Definition match_ref (l : list Ascii.ascii) : option (string * string * list Ascii.ascii) :=
  match l with
  | c1 :: c2 :: l1 =>
      if is_char 36 c1 && is_char 123 c2 then
        let '(scope, l2) := span is_word l1 in
        match scope, l2 with
        | _ :: _, d :: l3 =>
            if is_char 46 d then
              let '(path, l4) := span is_path l3 in
              match path, l4 with
              | _ :: _, e :: l5 =>
                  if is_char 125 e
                  then Some (string_of_list_ascii scope, string_of_list_ascii path, l5) else None
              | _, _ => None
              end
            else None
        | _, _ => None
        end
      else None
  | _ => None
  end.

(** [path.split(".")] *)
Fixpoint split_dots (acc : list Ascii.ascii) (l : list Ascii.ascii) : list string :=
  match l with
  | [] => [string_of_list_ascii (rev acc)]
  | c :: l' => if is_char 46 c then string_of_list_ascii (rev acc) :: split_dots [] l'
               else split_dots (c :: acc) l'
  end.

Definition context_t : Type := odict string pyval.

Definition _resolve_ref (scope path : string) (context : context_t) : pyval :=
  match dget context scope with
  | None => PNone
  | Some obj =>
      foldl (λ obj part, match obj with PDict d => default PNone (dget d part) | _ => PNone end)
        obj (split_dots [] (list_ascii_of_string path))
  end.

Definition is_none (v : pyval) : bool := match v with PNone => true | _ => false end.

Section interpolation.
(** [str(v)] *)
Context (py_str : pyval → string).

(** [_INTERPOLATION_RE.sub(_replacer, value)]; the length of the text is enough
    fuel, each round consumes at least one character. *)
Fixpoint sub_refs (fuel : nat) (l : list Ascii.ascii) (context : context_t) : list Ascii.ascii :=
  match fuel, l with
  | S fuel', c :: l' =>
      match match_ref l with
      | Some (scope, path, rest) =>
          let resolved := _resolve_ref scope path context in
          (if is_none resolved then firstn (length l - length rest) l
           else list_ascii_of_string (py_str resolved)) ++ sub_refs fuel' rest context
      | None => c :: sub_refs fuel' l' context
      end
  | _, _ => []
  end.

Definition _interpolate_string (value : string) (context : context_t) : pyval :=
  let l := list_ascii_of_string value in
  let partial := PStr (string_of_list_ascii (sub_refs (length l) l context)) in
  match match_ref l with
  | Some (scope, path, []) =>
      let resolved := _resolve_ref scope path context in
      if is_none resolved then partial else resolved
  | _ => partial
  end.

Fixpoint interpolate_value (v : pyval) (context : context_t) : pyval :=
  match v with
  | PStr s => _interpolate_string s context
  | PDict d =>
      PDict ((fix go (d : list (string * pyval)) :=
        match d with [] => [] | (k, v) :: d' => (k, interpolate_value v context) :: go d' end) d)
  | PList l => PList ((λ v, match v with PStr s => _interpolate_string s context | _ => v end) <$> l)
  | _ => v
  end.

Definition _interpolate (args : odict string pyval) (context : context_t) : odict string pyval :=
  (λ kv, (kv.1, interpolate_value kv.2 context)) <$> args.

(** White space, the operator (the two characters [o1], [o2]), white space and
    a quoted literal, after a reference. *)
Definition match_op (o1 o2 : nat) (l : list Ascii.ascii) : option string :=
  match snd (span is_space l) with
  | a :: b :: l1 =>
      if is_char o1 a && is_char o2 b then
        match snd (span is_space l1) with
        | q :: l2 =>
            if is_char 39 q then
              let '(lit, l3) := span (λ c, negb (is_char 39 c)) l2 in
              match l3 with [] => None | _ => Some (string_of_list_ascii lit) end
            else None
        | [] => None
        end
      else None
  | _ => None
  end.

Definition _evaluate_condition (cond : string) (context : context_t) : bool :=
  let l := list_ascii_of_string cond in
  match match_ref l with
  | Some (scope, path, rest) =>
      let val := _resolve_ref scope path context in
      match match_op 61 61 rest with
      | Some lit => bool_decide (py_str val = lit)
      | None =>
          match match_op 33 61 rest with
          | Some lit => negb (bool_decide (py_str val = lit))
          | None => truthy val
          end
      end
  | None => existsb (λ c, negb (is_space c)) l
  end.

(** ** One step *)

(** A tool invocation, as the executor issues it. *)
Record invocation := { iv_step : string; iv_tool : string; iv_args : odict string pyval }.

(** [invoke sid attempt tool args]: the answer to an attempt of a step, an
    exception text or an output. *)
Context (invoke : string → nat → string → odict string pyval → string + pyval).

Definition mk_result (sid : string) (st : StepStatus) (out : pyval) (err : option string) : StepResult :=
  {| sr_step_id := sid; sr_status := st; sr_output := out; sr_error := err |}.

Fixpoint attempt_loop (s : Step) (args : odict string pyval) (attempt remaining : nat)
    (last_error : option string) : StepResult * list invocation :=
  match remaining with
  | O => (mk_result (step_id s) StFailed PNone last_error, [])
  | S remaining' =>
      let iv := {| iv_step := step_id s; iv_tool := step_tool s; iv_args := args |} in
      match invoke (step_id s) attempt (step_tool s) args with
      | inr output => (mk_result (step_id s) StCompleted output None, [iv])
      | inl err =>
          let '(r, ivs) := attempt_loop s args (S attempt) remaining' (Some err) in (r, iv :: ivs)
      end
  end.

(** The first dependency of [deps] that makes the step return early. *)
Fixpoint dep_check (s : Step) (deps : list string) (results : odict string StepResult) : option StepResult :=
  match deps with
  | [] => None
  | dep :: deps' =>
      match dget results dep with
      | Some r =>
          if bool_decide (sr_status r = StFailed) then
            if bool_decide (on_error s = "skip") then Some (mk_result (step_id s) StSkipped PNone None)
            else if bool_decide (on_error s = "fail")
            then Some (mk_result (step_id s) StFailed PNone (Some ("Dependency '" +:+ dep +:+ "' failed")))
            else dep_check s deps' results
          else dep_check s deps' results
      | None => dep_check s deps' results
      end
  end.

(** The outcome is a result or the exception that [gather] collects; nothing
    in the body raises one. *)
Definition _execute_step (s : Step) (context : context_t) (results : odict string StepResult)
    : (string + StepResult) * list invocation :=
  if negb (bool_decide (condition s = "")) && negb (_evaluate_condition (condition s) context)
  then (inr (mk_result (step_id s) StSkipped PNone None), [])
  else
    match dep_check s (depends_on s) results with
    | Some r => (inr r, [])
    | None =>
        let resolved_args := _interpolate (step_args s) context in
        let '(r, ivs) := attempt_loop s resolved_args 0 (Z.to_nat (1 + step_retry s)) None in
        (inr r, ivs)
    end.

(** ** The executor *)

Inductive exec_error :=
  | InvalidWorkflow (e : WorkflowValidationError)
  | WorkflowExecutionError (msg : string).

Record run_state := {
  rs_results : odict string StepResult; rs_context : context_t; rs_log : list invocation }.

Definition set_result (sid : string) (r : StepResult) (ctx : pyval) (st : run_state) : run_state :=
  {| rs_results := dset (rs_results st) sid r; rs_context := dset (rs_context st) sid ctx;
     rs_log := rs_log st |}.

(** The [for step, result in zip(level, level_results)] loop. *)
Fixpoint collect (pairs : list (Step * (string + StepResult))) (st : run_state) : exec_error + run_state :=
  match pairs with
  | [] => inr st
  | (s, inl err) :: rest =>
      let st' := set_result (step_id s) (mk_result (step_id s) StFailed PNone (Some err))
        (PDict [("output", PNone); ("status", PStr "failed"); ("error", PStr err)]) st in
      if bool_decide (on_error s = "fail")
      then inl (WorkflowExecutionError ("Step '" +:+ step_id s +:+ "' failed: " +:+ err))
      else collect rest st'
  | (s, inr r) :: rest =>
      collect rest (set_result (step_id s) r
        (PDict [("output", sr_output r); ("status", PStr (status_value (sr_status r)))]) st)
  end.

(** One level: every step starts from the same context and results, which
    change only after all of them have finished. *)
Definition run_level (level : list Step) (st : run_state) : exec_error + run_state :=
  let outs := (λ s, (s, _execute_step s (rs_context st) (rs_results st))) <$> level in
  let st' := {| rs_results := rs_results st; rs_context := rs_context st;
                rs_log := rs_log st ++ (outs ≫= λ o, o.2.2) |} in
  collect ((λ o, (o.1, o.2.1)) <$> outs) st'.

Fixpoint run_levels (levels : list (list Step)) (st : run_state) : exec_error + run_state :=
  match levels with
  | [] => inr st
  | level :: rest =>
      match run_level level st with
      | inl e => inl e
      | inr st' => run_levels rest st'
      end
  end.

Definition start_state (inputs : odict string pyval) : run_state :=
  {| rs_results := []; rs_context := [("inputs", PDict inputs)]; rs_log := [] |}.

Definition execute (iter : gset string → list string) (wf : WorkflowDefinition)
    (inputs : option (odict string pyval)) : exec_error + run_state :=
  match topological_order iter wf with
  | inl e => inl (InvalidWorkflow e)
  | inr levels => run_levels levels (start_state (default [] inputs))
  end.

(** ** Composite tools *)

Definition composite_description (wf : WorkflowDefinition) : string :=
  if bool_decide (wf_description wf = "") then "Composite workflow: " +:+ wf_name wf else wf_description wf.

Definition schema_property (v : pyval) : pyval :=
  match v with
  | PDict d => PDict [("type", default (PStr "string") (dget d "type"));
                      ("description", default (PStr "") (dget d "description"))]
  | _ => PDict [("type", PStr "string")]
  end.

Definition input_schema (wf : WorkflowDefinition) : pyval :=
  match wf_inputs wf with
  | [] => PDict [("type", PStr "object"); ("properties", PDict [])]
  | ins =>
      let properties := (λ kv, (kv.1, schema_property kv.2)) <$> ins in
      let required := ins ≫= λ kv,
        match kv.2 with
        | PDict d => if truthy (default (PBool true) (dget d "required")) then [PStr kv.1] else []
        | _ => []
        end in
      PDict ([("type", PStr "object"); ("properties", PDict properties)] ++
             match required with [] => [] | _ => [("required", PList required)] end)
  end.

Definition to_tool_info (wf : WorkflowDefinition) : odict string pyval :=
  [("name", PStr (wf_name wf)); ("description", PStr (composite_description wf)); ("inputSchema", input_schema wf)].

Definition output_context (results : odict string StepResult) (inputs : option (odict string pyval)) : context_t :=
  dset ((λ kv, (kv.1, PDict [("output", sr_output kv.2); ("status", PStr (status_value (sr_status kv.2)))])) <$> results)
    "inputs" (PDict (default [] inputs)).

Definition composite_invoke (iter : gset string → list string) (wf : WorkflowDefinition)
    (arguments : option (odict string pyval)) : exec_error + pyval :=
  match execute iter wf arguments with
  | inl e => inl e
  | inr st =>
      if negb (bool_decide (wf_output wf = ""))
      then inr (_interpolate_string (wf_output wf) (output_context (rs_results st) arguments))
      else
        match last (wf_steps wf) with
        | Some s =>
            match dget (rs_results st) (step_id s) with
            | Some r => inr (sr_output r)
            | None => inr PNone
            end
        | None => inr PNone
        end
  end.
End interpolation.

(** [load_composite_tools]: invalid definitions are logged and skipped. *)
Definition load_composite_tools (iter : gset string → list string) (defs : list workflow_dict)
    : list WorkflowDefinition :=
  omap (λ d, match parse_workflow iter d with inr wf => Some wf | inl _ => None end) defs.

(** ** Properties of a step *)

(** ** The fuel of the substitution is enough. *)

Lemma span_shorter f l a b : span f l = (a, b) → (length b ≤ length l)%nat.
Proof.
  revert a b. induction l as [|c l IH]; intros a b; simpl; [intros; simplify_eq; simpl; lia|].
  destruct (f c); [|intros; simplify_eq; simpl; lia].
  destruct (span f l) as [a' b'] eqn:E. intros; simplify_eq. specialize (IH _ _ eq_refl). lia.
Qed.

Lemma match_ref_shorter l scope path rest :
  match_ref l = Some (scope, path, rest) → (length rest < length l)%nat.
Proof.
  unfold match_ref. destruct l as [|c1 [|c2 l1]]; [done..|]. case_test; [|done].
  destruct (span is_word l1) as [sc l2] eqn:E1. destruct sc, l2 as [|d l3]; try done.
  case_test; [|done]. destruct (span is_path l3) as [pt l4] eqn:E2. destruct pt, l4 as [|e l5]; try done.
  case_test; [|done]. intros; simplify_eq. apply span_shorter in E1, E2. simpl in *. lia.
Qed.

Lemma sub_refs_fuel py_str n m l context :
  (length l ≤ n)%nat → (length l ≤ m)%nat → sub_refs py_str n l context = sub_refs py_str m l context.
Proof.
  revert m l. induction n as [|n IH]; intros m [|c l] Hn Hm; simpl in Hn; try lia; [by destruct m..|].
  destruct m as [|m]; simpl in Hm; [lia|]. cbn [sub_refs].
  destruct (match_ref (c :: l)) as [[[scope path] rest]|] eqn:E.
  - apply match_ref_shorter in E. simpl in E. by rewrite (IH m rest) by lia.
  - by rewrite (IH m l) by lia.
Qed.

Section executor_props.
Context (py_str : pyval → string).
Context (invoke : string → nat → string → odict string pyval → string + pyval).

Definition failed_out (o : string + pyval) : Prop := ∃ e, o = inl e.

Lemma attempt_loop_spec s args a n last :
  let '(r, ivs) := attempt_loop invoke s args a n last in
  sr_step_id r = step_id s ∧
  Forall (eq {| iv_step := step_id s; iv_tool := step_tool s; iv_args := args |}) ivs ∧
  ((∃ k out, (k < n)%nat ∧ length ivs = S k ∧ r = mk_result (step_id s) StCompleted out None ∧
      invoke (step_id s) (a + k)%nat (step_tool s) args = inr out ∧
      ∀ j, (j < k)%nat → failed_out (invoke (step_id s) (a + j)%nat (step_tool s) args)) ∨
   (length ivs = n ∧ sr_status r = StFailed ∧
      ∀ j, (j < n)%nat → failed_out (invoke (step_id s) (a + j)%nat (step_tool s) args))).
Proof.
  revert a last. induction n as [|n IH]; intros a last; simpl.
  - split_and!; [done|constructor|]. right. split_and!; [done|done|lia].
  - destruct (invoke (step_id s) a (step_tool s) args) as [err|out] eqn:E.
    + specialize (IH (S a) (Some err)). destruct (attempt_loop invoke s args (S a) n (Some err)) as [r ivs].
      destruct IH as (H1 & H2 & H3). split_and!; [done|by constructor|].
      assert (∀ j, (S a + j = a + S j)%nat) as Hidx by (intros; lia).
      assert (∀ m, (∀ j, (j < m)%nat → failed_out (invoke (step_id s) (S a + j)%nat (step_tool s) args)) →
        ∀ j, (j < S m)%nat → failed_out (invoke (step_id s) (a + j)%nat (step_tool s) args)) as Hshift.
      { intros m Hm [|j] Hj; [rewrite Nat.add_0_r, E; by eexists|]. rewrite <-Hidx. apply Hm. lia. }
      destruct H3 as [(k & out & Hk & Hl & Hr & Ho & Hf)|(Hl & Hr & Hf)].
      * left. exists (S k), out. rewrite <-Hidx. split_and!; [lia|by rewrite <-Hl|done|done|by apply Hshift].
      * right. split_and!; [by rewrite <-Hl|done|by apply Hshift].
    + split_and!; [done|by repeat constructor|]. left. exists O, out. rewrite Nat.add_0_r.
      split_and!; [lia|done|done|done|lia].
Qed.

Lemma dep_check_none s deps results :
  on_error s = "fail" ∨ on_error s = "skip" →
  dep_check s deps results = None →
  ∀ dep r, dep ∈ deps → dget results dep = Some r → sr_status r ≠ StFailed.
Proof.
  intros Ho. induction deps as [|d deps IH]; simpl; [set_solver|].
  intros Hn dep r [->|Hin]%elem_of_cons Hr.
  - rewrite Hr in Hn. intros Hst. rewrite bool_decide_eq_true_2 in Hn by done.
    destruct Ho as [Ho|Ho]; rewrite Ho in Hn; simpl in Hn; done.
  - eapply IH; eauto. repeat (case_match; try done).
Qed.

Lemma dep_check_status s deps results r :
  dep_check s deps results = Some r →
  sr_step_id r = step_id s ∧ (sr_status r = StFailed ∨ sr_status r = StSkipped).
Proof.
  induction deps as [|d deps IH]; simpl; [done|].
  repeat case_match; intros; simplify_eq/=; eauto.
Qed.

(** A step whose condition holds is attempted until it succeeds, at most
    [1 + retry] times and always with the same interpolated arguments; it
    completes with the output of its first successful attempt and fails only
    when every attempt failed.  When a dependency failed and the step says
    [fail] or [skip], or when its condition is false, no tool is invoked and
    the step does not complete. *)
Theorem step_attempts s context results :
  let '(out, ivs) := _execute_step py_str invoke s context results in
  let args := _interpolate py_str (step_args s) context in
  let run j := invoke (step_id s) j (step_tool s) args in
  ∃ r, out = inr r ∧ sr_step_id r = step_id s ∧
    Forall (eq {| iv_step := step_id s; iv_tool := step_tool s; iv_args := args |}) ivs ∧
    (Z.of_nat (length ivs) <= Z.max 0 (1 + step_retry s)) ∧
    (sr_status r = StCompleted ↔
       ∃ k v, length ivs = S k ∧ run k = inr v ∧ (∀ j, (j < k)%nat → failed_out (run j)) ∧ sr_output r = v) ∧
    (ivs ≠ [] → ∀ dep rd, on_error s = "fail" ∨ on_error s = "skip" →
       dep ∈ depends_on s → dget results dep = Some rd → sr_status rd ≠ StFailed).
Proof.
  unfold _execute_step. case_test.
  - eexists. split_and!; [done|done|constructor|simpl; lia| |done].
    split; [done|]. intros (k & v & Hl & _). done.
  - destruct (dep_check s (depends_on s) results) as [r|] eqn:Ed.
    + destruct (dep_check_status _ _ _ _ Ed) as [Hid Hst].
      exists r. split_and!; [done|done|constructor|simpl; lia| |done].
      split; [destruct Hst; congruence|]. intros (k & v & Hl & _). done.
    + set (args := _interpolate py_str (step_args s) context).
      pose proof (attempt_loop_spec s args 0 (Z.to_nat (1 + step_retry s)) None) as H.
      destruct (attempt_loop invoke s args 0 _ None) as [r ivs]. destruct H as (Hid & Hall & Hcase).
      exists r. split_and!; [done|done|done| | |].
      * destruct Hcase as [(k & v & Hk & Hl & _)|(Hl & _)]; lia.
      * destruct Hcase as [(k & v & Hk & Hl & -> & Ho & Hf)|(Hl & Hr & Hf)]; simpl.
        -- split; [|done]. intros _. by exists k, v.
        -- split; [congruence|]. intros (k & v & Hlk & Hv & _). destruct (Hf k) as [e He]; [lia|].
           simpl in *. congruence.
      * intros _ dep rd Ho. by eapply dep_check_none.
Qed.

(** ** Properties of a run *)

Lemma execute_step_result s c res : ∃ r ivs, _execute_step py_str invoke s c res = (inr r, ivs).
Proof.
  unfold _execute_step. case_test; [by eauto|]. destruct (dep_check _ _ _); [by eauto|].
  destruct (attempt_loop _ _ _ _ _ _). eauto.
Qed.

Lemma collect_results (f : Step → StepResult) level st :
  NoDup (dkeys (rs_results st) ++ (step_id <$> level)) →
  ∃ st', collect ((λ s, (s, inr (f s))) <$> level) st = inr st' ∧
    dkeys (rs_results st') = dkeys (rs_results st) ++ (step_id <$> level) ∧
    (∀ i, i ∉ (step_id <$> level) → dget (rs_results st') i = dget (rs_results st) i) ∧
    (∀ s, s ∈ level → dget (rs_results st') (step_id s) = Some (f s)).
Proof.
  revert st. induction level as [|s level IH]; intros st Hnd; csimpl in *.
  - exists st. rewrite app_nil_r. split_and!; [done|done|done|set_solver].
  - match goal with |- context [collect _ ?x] => set (st1 := x) end.
    assert (dkeys (rs_results st1) = dkeys (rs_results st) ++ [step_id s]) as Hk.
    { unfold st1. simpl. rewrite dkeys_dset, decide_False; [done|].
      apply NoDup_app in Hnd as (_ & Hd & _). intros Hin. apply (Hd _ Hin). left. }
    destruct (IH st1) as (st' & Hc & Hkeys & Hold & Hnew).
    { by rewrite Hk, <-app_assoc. }
    exists st'. split_and!; [done|by rewrite Hkeys, Hk, <-app_assoc| |].
    + intros i [Hi1 Hi2]%not_elem_of_cons. rewrite Hold by done. unfold st1. simpl.
      by rewrite dget_dset_ne.
    + intros s' [->|Hs']%elem_of_cons; [|by apply Hnew]. rewrite Hold.
      * unfold st1. simpl. by rewrite dget_dset_eq.
      * apply NoDup_app in Hnd as (_ & _ & [Hn _]%NoDup_cons). done.
Qed.

Lemma run_level_spec level st :
  NoDup (dkeys (rs_results st) ++ (step_id <$> level)) →
  ∃ st', run_level py_str invoke level st = inr st' ∧
    dkeys (rs_results st') = dkeys (rs_results st) ++ (step_id <$> level) ∧
    (∀ i, i ∉ (step_id <$> level) → dget (rs_results st') i = dget (rs_results st) i) ∧
    (∀ s, s ∈ level → ∃ r, dget (rs_results st') (step_id s) = Some r ∧
       (_execute_step py_str invoke s (rs_context st) (rs_results st)).1 = inr r).
Proof.
  intros Hnd. unfold run_level.
  set (f s := match (_execute_step py_str invoke s (rs_context st) (rs_results st)).1 with
              | inr r => r | inl _ => mk_result "" StFailed PNone None end).
  assert (∀ s, (_execute_step py_str invoke s (rs_context st) (rs_results st)).1 = inr (f s)) as Hf.
  { intros s. unfold f. destruct (execute_step_result s (rs_context st) (rs_results st)) as (r & ivs & ->). done. }
  rewrite <-list_fmap_compose.
  rewrite (list_fmap_ext _ (λ s, (s, inr (f s))) level); [|intros i s _; simpl; by rewrite Hf].
  destruct (collect_results f level {| rs_results := rs_results st; rs_context := rs_context st;
    rs_log := rs_log st ++ (((λ s, (s, _execute_step py_str invoke s (rs_context st) (rs_results st))) <$> level) ≫= λ o, o.2.2) |})
    as (st' & Hc & Hk & Hold & Hnew); [done|].
  exists st'. split_and!; [done|done|done|]. intros s Hs. exists (f s). auto.
Qed.

Lemma run_levels_spec levels st before :
  ordered before levels → before = list_to_set (dkeys (rs_results st)) →
  NoDup (dkeys (rs_results st) ++ (step_id <$> concat levels)) →
  ∃ st', run_levels py_str invoke levels st = inr st' ∧
    dkeys (rs_results st') = dkeys (rs_results st) ++ (step_id <$> concat levels) ∧
    (∀ i, i ∈ dkeys (rs_results st) → dget (rs_results st') i = dget (rs_results st) i) ∧
    (∀ s, s ∈ concat levels → ∃ r c res, dget (rs_results st') (step_id s) = Some r ∧
       (_execute_step py_str invoke s c res).1 = inr r ∧
       ∀ dep, dep ∈ depends_on s → ∃ rd, dget res dep = Some rd ∧ dget (rs_results st') dep = Some rd).
Proof.
  intros Ho. revert st. induction Ho as [before|before level levels Hdeps Ho IH]; intros st Hb Hnd; simpl in *.
  - exists st. rewrite app_nil_r. split_and!; [done|done|done|set_solver].
  - rewrite fmap_app in Hnd.
    assert (NoDup (dkeys (rs_results st) ++ (step_id <$> level))) as Hnd1.
    { rewrite app_assoc in Hnd. by apply NoDup_app in Hnd as [? _]. }
    destruct (run_level_spec level st Hnd1) as (st1 & -> & Hk1 & Hold1 & Hnew1).
    destruct (IH st1) as (st' & -> & Hk & Hold & Hnew).
    { rewrite Hk1, list_to_set_app_L. by rewrite Hb. }
    { by rewrite Hk1, <-app_assoc. }
    exists st'. split_and!; [done|by rewrite Hk, Hk1, fmap_app, app_assoc| |].
    + intros i Hi. rewrite Hold by (rewrite Hk1; set_solver). apply Hold1.
      apply NoDup_app in Hnd1 as (_ & Hd & _). by apply Hd.
    + intros s [Hs|Hs]%elem_of_app; [|by apply Hnew].
      destruct (Hnew1 s Hs) as (r & Hr & He).
      assert (step_id s ∈ dkeys (rs_results st1)) as Hin.
      { rewrite Hk1. apply elem_of_app. right. apply list_elem_of_fmap. eauto. }
      exists r, (rs_context st), (rs_results st). split_and!; [by rewrite Hold|done|].
      intros dep Hdep. specialize (Hdeps s dep Hs Hdep). rewrite Hb in Hdeps.
      apply elem_of_list_to_set in Hdeps. pose proof Hdeps as [rd Hrd]%dget_is_Some.
      exists rd. split; [done|]. rewrite Hold by (rewrite Hk1; set_solver). rewrite Hold1; [done|].
      apply NoDup_app in Hnd1 as (_ & Hd & _). by apply Hd.
Qed.
End executor_props.

Lemma levels_ids iter wf levels :
  (∀ X, Permutation (iter X) (elements X)) → NoDup (step_id <$> wf_steps wf) →
  topological_order iter wf = inr levels →
  NoDup (step_id <$> concat levels) ∧ ordered ∅ levels ∧ (∀ s, s ∈ concat levels ↔ s ∈ wf_steps wf).
Proof.
  intros Hit Hnd Hl. pose proof (topological_order_spec iter Hit wf) as H. cbv zeta in H. rewrite Hl in H.
  destruct H as [H1 H2 H3 H4 H5 H6 H7]. split_and!; [done|done|]. intros s.
  rewrite <-(build_step_map_lookup _ Hnd). split; [apply H5|]. intros Hs.
  assert (step_id s ∈ dom (build_step_map (wf_steps wf))) as Hd by (by apply elem_of_dom_2 in Hs).
  rewrite H3, elem_of_list_to_set in Hd. apply list_elem_of_fmap in Hd as (s' & He & Hs').
  specialize (H5 s' Hs'). rewrite <-He, Hs in H5. by simplify_eq.
Qed.


Definition sample_dict (i : string) (deps : list string) : step_dict :=
  {| sd_id := Some i; sd_tool := Some "t"; sd_args := Some [("x", PStr "${a.output}")];
     sd_depends_on := Some deps; sd_condition := None; sd_retry := None; sd_on_error := None;
     sd_description := None |}.
Definition sample_data : workflow_dict :=
  {| wd_name := Some "w"; wd_steps := Some [sample_dict "b" ["a"]; sample_dict "a" []];
     wd_description := None; wd_inputs := None; wd_output := None |}.
(** The tool of step [a] raises. *)
Definition failing_invoke (sid : string) (attempt : nat) (tool : string) (args : odict string pyval)
    : string + pyval := if bool_decide (sid = "a") then inl "boom" else inr (PInt 1).

