(* ===== verification/Plugins.v ===== *)
(** * Plugin framework (plugins/base.py, models.py, registry.py, manager.py,
    middleware.py)

    A hook of a plugin is a function from a snapshot of the context to an
    outcome; the manager runs the hooks of a phase in priority order and the
    middleware runs a phase before and one after the rest of the chain. *)
From S2P Require Import Prelude PyDict Effects Conflict Registry Auth Chain.

Inductive ExecutionMode := enforce | enforce_ignore_error | mode_permissive | disabled.
#[export] Instance ExecutionMode_eq_dec : EqDecision ExecutionMode.
Proof. solve_decision. Defined.

Record PluginCondition := {
  cond_servers : list string; cond_tools : list string; cond_mcp_methods : list string }.

(** [pc_timeout] is the per-hook timeout as it is printed. *)
Record PluginConfig := {
  pc_name : string; pc_enabled : bool; execution_mode : ExecutionMode; priority : Z;
  pc_timeout : string; pc_conditions : PluginCondition }.

Record PluginContext := {
  px_capability_name : string; px_mcp_method : string; px_arguments : odict string pyval;
  px_server_name : string; px_metadata : odict string mdval; px_result : response }.

(** How the awaited hook ended: a context, the timeout of the manager, a
    [PluginError] or another exception. *)
Inductive hook_outcome :=
  | HookOk (c : PluginContext)
  | HookTimeout
  | HookPluginError (e : exn)
  | HookRaised (e : exn).

(** [plugin_hook h] is [None] where the class inherits the no-op of the base. *)
Record plugin := {
  plugin_config : PluginConfig;
  plugin_hook : string → option (PluginContext → hook_outcome) }.

(** ** Registry *)

(** [load_from_config]: the class of each name, if one is registered; a later
    entry of the same name replaces the instance and keeps its position. *)
Definition load_from_config (classes : string → option (PluginConfig → plugin))
    (entries : list PluginConfig) : odict string plugin :=
  foldl (λ d entry,
    if negb (pc_enabled entry) then d
    else match classes (pc_name entry) with
         | None => d
         | Some cls => dset d (pc_name entry) (cls entry)
         end) [] entries.

Definition HOOKS : list string :=
  ["tool_pre_invoke"; "tool_post_invoke"; "prompt_pre_fetch"; "prompt_post_fetch";
   "resource_pre_fetch"; "resource_post_fetch"].

Definition overrides (hook_name : string) (p : plugin) : bool :=
  match plugin_hook p hook_name with Some _ => true | None => false end.

Definition get_by_hook (plugins : odict string plugin) (hook_name : string) : list plugin :=
  if negb (bool_decide (hook_name ∈ HOOKS)) then []
  else sort_by (λ p, priority (plugin_config p)) (keep (overrides hook_name) (dvalues plugins)).

(** ** Manager *)

Definition _matches_conditions (c : PluginCondition) (capability_name server_name mcp_method : string) : bool :=
  if negb (bool_decide (cond_servers c = [])) && negb (bool_decide (server_name ∈ cond_servers c)) then false
  else if negb (bool_decide (cond_tools c = [])) && negb (bool_decide (capability_name ∈ cond_tools c)) then false
  else if negb (bool_decide (cond_mcp_methods c = [])) && negb (bool_decide (mcp_method ∈ cond_mcp_methods c)) then false
  else true.

Definition plugin_error (p : plugin) (hook : string) (cause : string) : exn :=
  OtherError "PluginError" ("Plugin '" +:+ pc_name (plugin_config p) +:+ "' failed in " +:+ hook +:+ ": " +:+ cause).

(** [x or y] on strings. *)
Definition or_str (x y : string) : string := if bool_decide (x = "") then y else x.

(** The [for plugin in plugins] loop. *)
Fixpoint run_plugins (ps : list plugin) (hook cap svr method : string)
    (accumulated : PluginContext) (aggregated : odict string mdval)
    : exn + PluginContext * odict string mdval :=
  match ps with
  | [] => inr (accumulated, aggregated)
  | p :: rest =>
      let mode := execution_mode (plugin_config p) in
      if negb (_matches_conditions (pc_conditions (plugin_config p)) cap svr method) then
        run_plugins rest hook cap svr method accumulated aggregated
      else if bool_decide (mode = disabled) then run_plugins rest hook cap svr method accumulated aggregated
      else
        match plugin_hook p hook with
        | None => run_plugins rest hook cap svr method accumulated aggregated
        | Some f =>
            match f accumulated with
            | HookOk c => run_plugins rest hook cap svr method c (dupdate aggregated (px_metadata c))
            | HookTimeout =>
                if bool_decide (mode = enforce) then inl (plugin_error p hook ("timeout after " +:+ pc_timeout (plugin_config p) +:+ "s"))
                else run_plugins rest hook cap svr method accumulated aggregated
            | HookPluginError e => inl e
            | HookRaised e =>
                if bool_decide (mode = enforce) then inl (plugin_error p hook (exn_str e))
                else run_plugins rest hook cap svr method accumulated aggregated
            end
        end
  end.

Definition with_metadata (md : odict string mdval) (c : PluginContext) : PluginContext :=
  {| px_capability_name := px_capability_name c; px_mcp_method := px_mcp_method c;
     px_arguments := px_arguments c; px_server_name := px_server_name c; px_metadata := md;
     px_result := px_result c |}.

Definition run_hook (plugins : odict string plugin) (hook : string) (c : PluginContext)
    (cap svr method : string) : exn + PluginContext :=
  match get_by_hook plugins hook with
  | [] => inr c
  | ps =>
      match run_plugins ps hook (or_str cap (px_capability_name c)) (or_str svr (px_server_name c))
              (or_str method (px_mcp_method c)) c [] with
      | inl e => inl e
      | inr (acc, aggregated) => inr (with_metadata (dupdate (px_metadata acc) aggregated) acc)
      end
  end.

(** ** Middleware *)

Definition _PRE_HOOKS (method : string) : option string :=
  dget [("call_tool", "tool_pre_invoke"); ("read_resource", "resource_pre_fetch"); ("get_prompt", "prompt_pre_fetch")] method.
Definition _POST_HOOKS (method : string) : option string :=
  dget [("call_tool", "tool_post_invoke"); ("read_resource", "resource_post_fetch"); ("get_prompt", "prompt_post_fetch")] method.

Definition _request_to_plugin_ctx (c : RequestContext) (result : response) : PluginContext :=
  {| px_capability_name := capability_name c; px_mcp_method := mcp_method c;
     px_arguments := default [] (arguments c); px_server_name := default "" (server_name c);
     px_metadata := metadata c; px_result := result |}.

Definition _apply_plugin_ctx (p : PluginContext) (c : RequestContext) : RequestContext :=
  {| capability_name := capability_name c; mcp_method := mcp_method c; arguments := Some (px_arguments p);
     request_id := request_id c; server_name := server_name c; original_name := original_name c;
     start_time := start_time c; metadata := dupdate (metadata c) (px_metadata p); error := error c |}.

(** One phase: run the hook, merge its context, return its result. *)
Definition run_phase (plugins : odict string plugin) (hook : option string) (result : response) : handler :=
  match hook with
  | None => mret result
  | Some h =>
      s ← get_state;
      match run_hook plugins h (_request_to_plugin_ctx (ctx s) result) (capability_name (ctx s))
              (default "" (server_name (ctx s))) (mcp_method (ctx s)) with
      | inl e => raise e
      | inr p => modify (on_ctx (_apply_plugin_ctx p)) ≫= λ _, mret (px_result p)
      end
  end.

Definition PluginMiddleware (plugins : odict string plugin) : middleware := {|
  mw_name := "PluginMiddleware";
  mw_call next :=
    s ← get_state;
    let method := mcp_method (ctx s) in
    run_phase plugins (_PRE_HOOKS method) RespNone ≫= λ _,
    result ← next;
    run_phase plugins (_POST_HOOKS method) result |}.

(** ** Ordering and isolation *)

(** The plugins that take part in a phase. *)
Definition applies (hook cap svr method : string) (p : plugin) : bool :=
  _matches_conditions (pc_conditions (plugin_config p)) cap svr method &&
  negb (bool_decide (execution_mode (plugin_config p) = disabled)) && overrides hook p.

Lemma run_plugins_skip p rest hook cap svr method acc agg :
  applies hook cap svr method p = false →
  run_plugins (p :: rest) hook cap svr method acc agg = run_plugins rest hook cap svr method acc agg.
Proof.
  unfold applies, overrides. cbn [run_plugins].
  destruct (_matches_conditions _ _ _ _); simpl; [|done].
  destruct (bool_decide _); simpl; [done|]. by destruct (plugin_hook p hook).
Qed.

(** Only the plugins that apply matter. *)
Lemma run_plugins_keep ps hook cap svr method acc agg :
  run_plugins ps hook cap svr method acc agg =
  run_plugins (keep (applies hook cap svr method) ps) hook cap svr method acc agg.
Proof.
  revert acc agg. induction ps as [|p ps IH]; intros acc agg; [done|]. cbn [List.filter].
  destruct (applies hook cap svr method p) eqn:Ea.
  - cbn [run_plugins]. repeat (case_match; try done).
  - rewrite run_plugins_skip by done. apply IH.
Qed.

(** A plugin whose failures are ignored. *)
Definition tolerant (p : plugin) : Prop := execution_mode (plugin_config p) ≠ enforce.

Definition fails_softly (o : hook_outcome) : Prop := o = HookTimeout ∨ ∃ e, o = HookRaised e.

Lemma run_plugins_isolation ps1 p ps2 hook cap svr method acc agg :
  tolerant p → (∀ f c, plugin_hook p hook = Some f → fails_softly (f c)) →
  run_plugins (ps1 ++ p :: ps2) hook cap svr method acc agg =
  run_plugins (ps1 ++ ps2) hook cap svr method acc agg.
Proof.
  intros Ht Hf. revert acc agg. induction ps1 as [|q ps1 IH]; intros acc agg; cbn [app].
  - cbn [run_plugins]. case_test; [done|]. case_test; [done|].
    destruct (plugin_hook p hook) as [f|] eqn:Ef; [|done].
    destruct (Hf f acc eq_refl) as [->|[e ->]]; by rewrite bool_decide_eq_false_2.
  - cbn [run_plugins]. repeat (case_match; try done).
Qed.

Lemma with_metadata_id c : with_metadata (px_metadata c) c = c.
Proof. by destruct c. Qed.

(** [run_hook] without its special case for no plugin. *)
Lemma run_hook_eq plugins hook c cap svr method :
  run_hook plugins hook c cap svr method =
  match run_plugins (get_by_hook plugins hook) hook (or_str cap (px_capability_name c))
          (or_str svr (px_server_name c)) (or_str method (px_mcp_method c)) c [] with
  | inl e => inl e
  | inr (acc, aggregated) => inr (with_metadata (dupdate (px_metadata acc) aggregated) acc)
  end.
Proof.
  unfold run_hook. destruct (get_by_hook plugins hook) as [|p ps]; [|done].
  simpl. by rewrite with_metadata_id.
Qed.

Lemma get_by_hook_remove plugins name p hook :
  dget plugins name = Some p →
  get_by_hook (ddel plugins name) hook = get_by_hook plugins hook ∨
  ∃ l1 l2, get_by_hook plugins hook = l1 ++ p :: l2 ∧ get_by_hook (ddel plugins name) hook = l1 ++ l2.
Proof.
  intros (a & b & -> & ->)%ddel_split. unfold get_by_hook, dvalues. case_test; [by left|].
  rewrite !fmap_app. cbn [fmap list_fmap snd]. rewrite !List.filter_app. cbn [List.filter].
  destruct (overrides hook p); [right|by left]. apply sort_by_remove.
Qed.


Definition any_condition : PluginCondition := {| cond_servers := []; cond_tools := []; cond_mcp_methods := [] |}.
Definition demo_config (name : string) (mode : ExecutionMode) (pri : Z) (c : PluginCondition) : PluginConfig :=
  {| pc_name := name; pc_enabled := true; execution_mode := mode; priority := pri; pc_timeout := "30.0"; pc_conditions := c |}.
(** A plugin with the one hook [h]. *)
Definition demo_plugin (conf : PluginConfig) (hook : string) (f : PluginContext → hook_outcome) : plugin :=
  {| plugin_config := conf; plugin_hook := λ h, if bool_decide (h = hook) then Some f else None |}.


(** ** Plugins inside the stack *)

(** The request as the plugin layer passes it on, or the error of the
    pre-phase. *)
Definition pre_phase (plugins : odict string plugin) (s : req) : exn + req :=
  match run_phase plugins (_PRE_HOOKS (mcp_method (ctx s))) RespNone s with
  | (inl e, _) => inl e
  | (inr _, s') => inr s'
  end.

Lemma run_phase_facts plugins hook result s :
  match run_phase plugins hook result s with
  | (inl _, s') => s' = s
  | (inr _, s') => calls s' = calls s ∧ error (ctx s') = error (ctx s) ∧
      capability_name (ctx s') = capability_name (ctx s) ∧ mcp_method (ctx s') = mcp_method (ctx s) ∧
      server_name (ctx s') = server_name (ctx s) ∧ audit_log s' = audit_log s
  end.
Proof.
  unfold run_phase. destruct hook as [h|]; [|done]. unfold mbind, M_bind, get_state.
  by destruct (run_hook _ _ _ _ _ _).
Qed.

Lemma plugin_run plugins next s :
  mw_call (PluginMiddleware plugins) next s =
  match run_phase plugins (_PRE_HOOKS (mcp_method (ctx s))) RespNone s with
  | (inl e, s') => (inl e, s')
  | (inr _, s2) =>
      match next s2 with
      | (inl e, s') => (inl e, s')
      | (inr r, s3) => run_phase plugins (_POST_HOOKS (mcp_method (ctx s))) r s3
      end
  end.
Proof. reflexivity. Qed.

Lemma plugin_stack_run sc plugins reg mgr a rid now cap method args s1 :
  sc_plugins sc = Some (PluginMiddleware plugins) →
  after_auth sc (new_request a rid now cap method args) = inr s1 →
  let d := _dispatch (Some (_build_middleware_stack sc reg mgr)) a rid now cap method args in
  match pre_phase plugins s1 with
  | inl e => d = (inl e, on_ctx (set_error e) s1)
  | inr s2 => calls d.2 = calls (RoutingMiddleware reg mgr s2).2
  end.
Proof.
  intros Hp Ha. cbv zeta. unfold _dispatch, _build_middleware_stack. rewrite build_chain_foldr.
  unfold stack_middlewares. rewrite Hp. rewrite foldr_app. cbn [app foldr].
  set (inner := foldr wrap (RoutingMiddleware reg mgr)
    ((if sc_telemetry sc then [TelemetryMiddleware] else []) ++ [AuditMiddleware (sc_audit_logger sc)])).
  set (rest := wrap RecoveryMiddleware (wrap (PluginMiddleware plugins) inner)).
  set (s0 := new_request a rid now cap method args) in *.
  assert ((foldr wrap rest match sc_auth sc with Some (auth, mode) => [AuthMiddleware auth mode] | None => [] end
            ≫= reraise) s0 =
    match rest s1 with
    | (inr RespNone, s') => match sc_auth sc with
                            | Some _ => (inl (none_error "AuthMiddleware"), s')
                            | None => reraise RespNone s' end
    | (inr r, s') => reraise r s'
    | (inl e, s') => (inl e, s')
    end) as ->.
  { unfold after_auth in Ha. unfold mbind, M_bind.
    destruct (sc_auth sc) as [[auth mode]|]; cbn [foldr].
    - rewrite auth_run. destruct (auth_decision _ _ _) as [e|u]; [done|]. simplify_eq.
      by destruct (rest _) as [[e|[]] s'].
    - injection Ha as <-. by destruct (rest s0) as [[e|[]] s']. }
  assert (error (ctx s1) = None) as He1 by (by rewrite (after_auth_error _ _ _ Ha)).
  unfold rest, pre_phase. rewrite (wrap_run RecoveryMiddleware). cbn [mw_call RecoveryMiddleware mw_name].
  unfold try_except. rewrite wrap_run, plugin_run.
  pose proof (run_phase_facts plugins (_PRE_HOOKS (mcp_method (ctx s1))) RespNone s1) as Hf.
  destruct (run_phase plugins (_PRE_HOOKS (mcp_method (ctx s1))) RespNone s1) as [[e|r] s2].
  - subst s2. done.
  - destruct Hf as (_ & He & _).
    pose proof (inner_run sc reg mgr s2) as Hi. fold inner in Hi. rewrite Hi. clear Hi.
    pose proof (routing_error reg mgr s2) as Hre.
    destruct (RoutingMiddleware reg mgr s2) as [rout rs]. cbn [snd] in *.
    destruct (observed_facts sc rout rs) as (_ & Hctx & Hcalls).
    destruct (observed sc rout rs) as [[e|resp] rs']; cbn [snd] in *.
    + rewrite <-Hcalls. done.
    + pose proof (run_phase_facts plugins (_POST_HOOKS (mcp_method (ctx s1))) resp rs') as Hf2.
      destruct (run_phase plugins (_POST_HOOKS (mcp_method (ctx s1))) resp rs') as [[e|resp'] rs''].
      * subst rs''. rewrite <-Hcalls. done.
      * destruct Hf2 as (Hc2 & He2 & _). rewrite <-Hcalls, <-Hc2.
        assert (error (ctx rs'') = None) as Hn by (rewrite He2, Hctx, Hre, He; done).
        destruct resp'; cbn [fst snd]; unfold reraise, mbind, M_bind, get_state; rewrite ?Hn; done.
Qed.

(** A pre-hook that fails in enforce mode stops the request: the caller
    gets its error, no backend is called, and no audit event or metric is
    recorded. *)
Theorem plugin_gate sc plugins reg mgr a rid now cap method args s1 e :
  sc_plugins sc = Some (PluginMiddleware plugins) →
  after_auth sc (new_request a rid now cap method args) = inr s1 →
  pre_phase plugins s1 = inl e →
  let '(out, s) := _dispatch (Some (_build_middleware_stack sc reg mgr)) a rid now cap method args in
  out = inl e ∧ calls s = [] ∧ audit_log s = [] ∧ error (ctx s) = Some e.
Proof.
  intros Hp Ha He. pose proof (plugin_stack_run sc plugins reg mgr a rid now cap method args s1 Hp Ha) as H.
  cbv zeta in H. rewrite He in H. rewrite H.
  destruct (after_auth_ctx _ _ _ Ha) as (Hc & _ & _ & _ & Hl).
  split_and!; [done|exact Hc|exact Hl|done].
Qed.

Definition deny_plugin : plugin :=
  demo_plugin (demo_config "deny" enforce 1 any_condition) "tool_pre_invoke" (λ _, HookRaised (ValueError "blocked")).
Definition plugin_stack (plugins : odict string plugin) : stack_conf :=
  {| sc_auth := None; sc_plugins := Some (PluginMiddleware plugins); sc_telemetry := true; sc_audit_logger := true |}.

Lemma plugin_gate_witness :
  let e := OtherError "PluginError" "Plugin 'deny' failed in tool_pre_invoke: blocked" in
  let '(out, s) := _dispatch (Some (_build_middleware_stack (plugin_stack [("deny", deny_plugin)]) (Some demo_registry)
     (Some (demo_manager (inr (CallToolResult ["hit"] false)))))) demo_ambient "r1" 100 "search" "call_tool" None in
  out = inl e ∧ calls s = [] ∧ audit_log s = [] ∧ error (ctx s) = Some e.
Proof.
  intros e. apply (plugin_gate (plugin_stack [("deny", deny_plugin)]) [("deny", deny_plugin)] (Some demo_registry)
    (Some (demo_manager (inr (CallToolResult ["hit"] false)))) demo_ambient "r1" 100 "search" "call_tool" None
    (new_request demo_ambient "r1" 100 "search" "call_tool" None) e); reflexivity.
Defined.

(** A result that a pre-hook puts into its context never replaces the
    backend call: whenever the pre-phase succeeds and the capability routes to
    a live session, exactly one call is sent, whatever the hooks returned. *)
Theorem pre_hook_result_ignored sc plugins r mgr a rid now cap method args s1 s2 svr orig :
  sc_plugins sc = Some (PluginMiddleware plugins) →
  after_auth sc (new_request a rid now cap method args) = inr s1 →
  pre_phase plugins s1 = inr s2 →
  resolve_capability r cap = Some (svr, orig) → is_Some (mgr svr) → method ∈ _ALLOWED_MCP_METHODS →
  calls (_dispatch (Some (_build_middleware_stack sc (Some r) (Some mgr))) a rid now cap method args).2 =
  [{| bk_server := svr; bk_method := method; bk_name := orig;
      bk_args := method_args method (arguments (ctx s2)) |}].
Proof.
  intros Hp Ha Hpre Hres [sess Hs] Hm.
  pose proof (plugin_stack_run sc plugins (Some r) (Some mgr) a rid now cap method args s1 Hp Ha) as H.
  cbv zeta in H. rewrite Hpre in H. rewrite H.
  destruct (after_auth_ctx _ _ _ Ha) as (Hc & Hn & Hme & _).
  unfold pre_phase in Hpre. pose proof (run_phase_facts plugins (_PRE_HOOKS (mcp_method (ctx s1))) RespNone s1) as Hf.
  destruct (run_phase _ _ _ _) as [[e|x] s']; [done|]. simplify_eq. destruct Hf as (Hc2 & _ & Hn2 & Hm2 & _).
  assert (capability_name (ctx s2) = cap) as Hcap by (rewrite Hn2, Hn; done).
  assert (mcp_method (ctx s2) = method) as Hmet by (rewrite Hm2, Hme; done).
  unfold RoutingMiddleware, mbind, M_bind, get_state, modify. rewrite Hcap, Hres, Hs, Hmet.
  rewrite bool_decide_eq_true_2 by done. cbn [negb]. destruct (sess _ _ _) as [[e|y] dt]; simpl; by rewrite Hc2, Hc.
Qed.

(** A pre-hook that serves a cached result. *)
Definition cached_plugin : plugin :=
  demo_plugin (demo_config "cache" enforce 1 any_condition) "tool_pre_invoke"
    (λ c, HookOk {| px_capability_name := px_capability_name c; px_mcp_method := px_mcp_method c;
                    px_arguments := px_arguments c; px_server_name := px_server_name c;
                    px_metadata := dset (px_metadata c) "cache_hit" (MVal (PBool true));
                    px_result := CallToolResult ["cached"] false |}).

Lemma pre_hook_result_ignored_witness :
  let mgr := demo_manager (inr (CallToolResult ["hit"] false)) in
  let s1 := new_request demo_ambient "r1" 100 "search" "call_tool" None in
  let d := _dispatch (Some (_build_middleware_stack (plugin_stack [("cache", cached_plugin)]) (Some demo_registry)
     (Some mgr))) demo_ambient "r1" 100 "search" "call_tool" None in
  d.1 = inr (CallToolResult ["hit"] false) ∧
  calls d.2 = [{| bk_server := "a"; bk_method := "call_tool"; bk_name := "search"; bk_args := Some [] |}].
Proof.
  intros mgr s1 d. split; [reflexivity|].
  apply (pre_hook_result_ignored (plugin_stack [("cache", cached_plugin)]) [("cache", cached_plugin)] demo_registry mgr
    demo_ambient "r1" 100 "search" "call_tool" None s1
    (run_phase [("cache", cached_plugin)] (Some "tool_pre_invoke") RespNone s1).2 "a" "search").
  - reflexivity.
  - reflexivity.
  - reflexivity.
  - reflexivity.
  - by eexists.
  - by_decide.
Defined.

(** A plugin restricted to some servers never runs before a call: its
    pre-hooks see a request that the routing layer has not resolved yet, so the
    pre-phase is the same without that plugin. *)
Theorem server_condition_skips_pre_hooks plugins name p s :
  dget plugins name = Some p →
  cond_servers (pc_conditions (plugin_config p)) ≠ [] → "" ∉ cond_servers (pc_conditions (plugin_config p)) →
  server_name (ctx s) = None →
  pre_phase plugins s = pre_phase (ddel plugins name) s.
Proof.
  intros Hp Hne Hempty Hs. unfold pre_phase, run_phase.
  destruct (_PRE_HOOKS (mcp_method (ctx s))) as [h|]; [|done]. unfold mbind, M_bind, get_state. rewrite Hs.
  rewrite !run_hook_eq. cbn [default or_str px_server_name _request_to_plugin_ctx]. rewrite Hs. cbn [default].
  change (or_str "" "") with "".
  destruct (get_by_hook_remove plugins name p h Hp) as [->|(l1 & l2 & -> & ->)]; [done|].
  rewrite (run_plugins_keep (l1 ++ p :: l2)), (run_plugins_keep (l1 ++ l2)), !List.filter_app.
  cbn [List.filter]. replace (applies h _ "" _ p) with false; [done|]. symmetry.
  unfold applies, _matches_conditions. rewrite (bool_decide_eq_false_2 (_ = [])) by done.
  by rewrite (bool_decide_eq_false_2 ("" ∈ _)) by done.
Qed.

Lemma server_condition_skips_pre_hooks_witness :
  let p := demo_plugin (demo_config "deny" enforce 1
             {| cond_servers := ["a"]; cond_tools := []; cond_mcp_methods := [] |}) "tool_pre_invoke"
             (λ _, HookRaised (ValueError "blocked")) in
  let s := new_request demo_ambient "r1" 100 "search" "call_tool" None in
  pre_phase [("deny", p)] s = pre_phase [] s.
Proof.
  intros p s. apply (server_condition_skips_pre_hooks [("deny", p)] "deny" p s).
  - reflexivity.
  - discriminate.
  - by_decide.
  - reflexivity.
Defined.
