(* ===== verification/Builtins.v ===== *)
(** * Built-in plugins (plugins/builtins)

    The hooks of the built-in plugins: the fixed-window rate limiter, the
    response cache, the circuit breaker, the length guard, the secret scanner
    and the filter for personal data.  A hook is a computation over the state
    of its plugin from a context to a context.

    The regular expressions of the scanners are the record [pattern]; SHA-256 is
    a parameter; numbers inside messages are left out. *)
From Stdlib Require Import Ascii.
From S2P Require Import Prelude PyDict Effects PyStr Json Auth Chain Plugins.

Definition set_md (k : string) (v : pyval) (c : PluginContext) : PluginContext :=
  with_metadata (dset (px_metadata c) k (MVal v)) c.
Definition set_result (r : response) (c : PluginContext) : PluginContext :=
  {| px_capability_name := px_capability_name c; px_mcp_method := px_mcp_method c; px_arguments := px_arguments c;
     px_server_name := px_server_name c; px_metadata := px_metadata c; px_result := r |}.
Definition set_arguments (a : odict string pyval) (c : PluginContext) : PluginContext :=
  {| px_capability_name := px_capability_name c; px_mcp_method := px_mcp_method c; px_arguments := a;
     px_server_name := px_server_name c; px_metadata := px_metadata c; px_result := px_result c |}.

Definition md_truthy (c : PluginContext) (k : string) : bool :=
  match dget (px_metadata c) k with
  | None => false
  | Some (MVal v) => truthy v
  | Some (MStr s) => negb (bool_decide (s = ""))
  | Some (MUser _) => true
  end.

(** The text of a result, when the result is a string. *)
Definition str_result (c : PluginContext) : option string :=
  match px_result c with RespOther (PStr s) => Some s | _ => None end.

Definition tool_key (c : PluginContext) : string * string := (px_server_name c, px_capability_name c).
Definition tool_label (c : PluginContext) : string := px_server_name c +:+ "/" +:+ px_capability_name c.

(** ** Rate limiter (rate_limiter.py) *)

Record _WindowCounter := { wc_count : Z; wc_start : Z }.
Record RateLimiterPlugin := { rlp_max_requests : Z; rlp_window : Z }.
Definition windows : Type := odict (string * string) _WindowCounter.

Definition current_window (p : RateLimiterPlugin) (now : Z) (w : option _WindowCounter) : _WindowCounter :=
  match w with
  | Some w => if now - wc_start w >=? rlp_window p then {| wc_count := 0; wc_start := now |} else w
  | None => {| wc_count := 0; wc_start := now |}
  end.

Definition limiter_pre_invoke (p : RateLimiterPlugin) (now : Z) (c : PluginContext) : M windows exn PluginContext :=
  ws ← get_state;
  let key := tool_key c in
  let w := current_window p now (dget ws key) in
  let count := wc_count w + 1 in
  _ ← put_state (dset ws key {| wc_count := count; wc_start := wc_start w |});
  if count >? rlp_max_requests p then raise (ValueError ("Rate limit exceeded for " +:+ tool_label c))
  else mret (set_md "rate_limit_remaining" (PInt (rlp_max_requests p - count)) c).

(** ** Response cache (response_cache_by_prompt.py) *)

Record ResponseCachePlugin := { rcp_ttl : Z; rcp_max_entries : Z }.
Definition cache : Type := odict string (response * Z).

(** [json.dumps(..., sort_keys=True)] *)
Fixpoint insert_key (kv : string * pyval) (d : list (string * pyval)) : list (string * pyval) :=
  match d with
  | [] => [kv]
  | kv' :: d' => if bool_decide (String.le kv.1 kv'.1) then kv :: d else kv' :: insert_key kv d'
  end.
Definition sort_keys (d : list (string * pyval)) : list (string * pyval) := foldr insert_key [] d.
Fixpoint sort_value (v : pyval) : pyval :=
  match v with
  | PDict d => PDict (sort_keys ((fix go (d : list (string * pyval)) :=
      match d with [] => [] | (k, v) :: d' => (k, sort_value v) :: go d' end) d))
  | PList l => PList ((fix go (l : list pyval) :=
      match l with [] => [] | v :: l' => sort_value v :: go l' end) l)
  | _ => v
  end.

Section response_cache.
Variable sha256 : string → string.
Variable p : ResponseCachePlugin.

Definition _make_key (server capability : string) (arguments : odict string pyval) : string :=
  sha256 (dumps None (sort_value (PDict [("s", PStr server); ("c", PStr capability); ("a", PDict arguments)]))).

Definition _evict_expired (now : Z) (m : cache) : cache := keep (λ e, negb (now - e.2.2 >? rcp_ttl p)) m.

(** The first entry with the least time; [None] is the error of [min]. *)
Definition oldest_key (m : cache) : option string :=
  match m with
  | [] => None
  | e :: m' => Some (foldl (λ b e', if e'.2.2 <? b.2.2 then e' else b) e m').1
  end.
Definition _evict_oldest (m : cache) : exn + cache :=
  if Z.of_nat (length m) >=? rcp_max_entries p then
    match oldest_key m with Some k => inr (ddel m k) | None => inl (ValueError "min() arg is an empty sequence") end
  else inr m.

Definition cache_pre_invoke (now now' : Z) (c : PluginContext) : M cache exn PluginContext :=
  _ ← modify (_evict_expired now);
  m ← get_state;
  let key := _make_key (px_server_name c) (px_capability_name c) (px_arguments c) in
  let miss := set_md "_cache_key" (PStr key) (set_md "cache_hit" (PBool false) c) in
  match dget m key with
  | Some (result, ts) =>
      if now' - ts <=? rcp_ttl p then mret (set_md "cache_hit" (PBool true) (set_result result c))
      else _ ← put_state (ddel m key); mret miss
  | None => mret miss
  end.

Definition cache_post_invoke (now : Z) (c : PluginContext) : M cache exn PluginContext :=
  if md_truthy c "cache_hit" then mret c
  else match dget (px_metadata c) "_cache_key" with
       | Some (MVal (PStr key)) =>
           let c' := with_metadata (ddel (px_metadata c) "_cache_key") c in
           if md_truthy c' "error" then mret c'
           else
             m ← get_state;
             match _evict_oldest m with
             | inl e => raise e
             | inr m' => _ ← put_state (dset m' key (px_result c, now)); mret (set_md "cache_stored" (PBool true) c')
             end
       | _ => mret c
       end.
End response_cache.

(** ** Circuit breaker (circuit_breaker.py) *)

Inductive _State := closed | open | half_open.
#[export] Instance _State_eq_dec : EqDecision _State.
Proof. solve_decision. Defined.

Record _PerToolBreaker := { pb_state : _State; pb_failures : Z; pb_last_failure : Z; pb_threshold : Z; pb_cooldown : Z }.
Definition new_tool_breaker (threshold cooldown : Z) : _PerToolBreaker :=
  {| pb_state := closed; pb_failures := 0; pb_last_failure := 0; pb_threshold := threshold; pb_cooldown := cooldown |}.

Definition allows (now : Z) (b : _PerToolBreaker) : bool * _PerToolBreaker :=
  match pb_state b with
  | open =>
      if now - pb_last_failure b >=? pb_cooldown b
      then (true, {| pb_state := half_open; pb_failures := pb_failures b; pb_last_failure := pb_last_failure b;
                     pb_threshold := pb_threshold b; pb_cooldown := pb_cooldown b |})
      else (false, b)
  | _ => (true, b)
  end.
Definition tool_success (b : _PerToolBreaker) : _PerToolBreaker :=
  {| pb_state := closed; pb_failures := 0; pb_last_failure := pb_last_failure b; pb_threshold := pb_threshold b;
     pb_cooldown := pb_cooldown b |}.
Definition tool_failure (now : Z) (b : _PerToolBreaker) : _PerToolBreaker :=
  {| pb_state := if pb_failures b + 1 >=? pb_threshold b then open else pb_state b; pb_failures := pb_failures b + 1;
     pb_last_failure := now; pb_threshold := pb_threshold b; pb_cooldown := pb_cooldown b |}.

Record CircuitBreakerPlugin := { cbp_threshold : Z; cbp_cooldown : Z }.
Definition breakers : Type := odict (string * string) _PerToolBreaker.
Definition get_breaker (p : CircuitBreakerPlugin) (c : PluginContext) (bs : breakers) : _PerToolBreaker :=
  default (new_tool_breaker (cbp_threshold p) (cbp_cooldown p)) (dget bs (tool_key c)).

Definition state_text (s : _State) : pyval := PStr (match s with closed => "closed" | open => "open" | half_open => "half_open" end).

Definition breaker_pre_invoke (p : CircuitBreakerPlugin) (now : Z) (c : PluginContext) : M breakers exn PluginContext :=
  bs ← get_state;
  let '(ok, b) := allows now (get_breaker p c bs) in
  _ ← put_state (dset bs (tool_key c) b);
  if negb ok then raise (ValueError ("Circuit open for " +:+ tool_label c))
  else mret (set_md "circuit_state" (state_text (pb_state b)) c).

Definition breaker_post_invoke (p : CircuitBreakerPlugin) (now : Z) (c : PluginContext) : M breakers exn PluginContext :=
  bs ← get_state;
  let b := get_breaker p c bs in
  let b' := if md_truthy c "error" then tool_failure now b else tool_success b in
  _ ← put_state (dset bs (tool_key c) b');
  mret (set_md "circuit_state" (state_text (pb_state b')) c).

(** ** Length guard (output_length_guard.py) *)

Record OutputLengthGuardPlugin := { olg_max_length : Z; olg_suffix : string }.
Definition clip (p : OutputLengthGuardPlugin) (s : string) : string :=
  take_chars (Z.to_nat (Z.max 0 (olg_max_length p - strlen (olg_suffix p)))) s +:+ olg_suffix p.

Definition guard_post_invoke (p : OutputLengthGuardPlugin) (c : PluginContext) : PluginContext :=
  match str_result c with
  | None => c
  | Some s =>
      if strlen s <=? olg_max_length p then set_md "output_truncated" (PBool false) c
      else set_md "output_original_length" (PInt (strlen s))
             (set_md "output_truncated" (PBool true) (set_result (RespOther (PStr (clip p s))) c))
  end.

(** ** Scanners (secrets_detection.py, pii_filter.py) *)

(** A compiled expression: whether it occurs, and its replacement with the
    number of occurrences. *)
Record pattern := { pat_name : string; pat_search : string → bool; pat_subn : string → string * Z }.
Definition pat_sub (q : pattern) (s : string) : string := (pat_subn q s).1.

Section secrets_detection.
Variable patterns : list pattern.
Variable block : bool.

(** One argument: every pattern is applied to [value], the text as it was. *)
Fixpoint scan_value (qs : list pattern) (key value : string) (c : PluginContext) : exn + PluginContext :=
  match qs with
  | [] => inr c
  | q :: qs' =>
      if pat_search q value then
        if block then inl (ValueError ("Blocked: " +:+ pat_name q +:+ " detected in argument '" +:+ key +:+ "'"))
        else scan_value qs' key value
               (set_md "secrets_redacted" (PBool true)
                  (set_arguments (dset (px_arguments c) key (PStr (pat_sub q value))) c))
      else scan_value qs' key value c
  end.
Fixpoint scan_arguments (items : odict string pyval) (c : PluginContext) : exn + PluginContext :=
  match items with
  | [] => inr c
  | (key, PStr value) :: items' => c' ← scan_value patterns key value c; scan_arguments items' c'
  | _ :: items' => scan_arguments items' c
  end.
Definition secrets_pre_invoke (c : PluginContext) : exn + PluginContext := scan_arguments (px_arguments c) c.

Definition secrets_post_invoke (c : PluginContext) : PluginContext :=
  foldl (λ c q, match str_result c with
                | Some s => if pat_search q s
                            then set_md "secrets_redacted_result" (PBool true) (set_result (RespOther (PStr (pat_sub q s))) c)
                            else c
                | None => c end) c patterns.
End secrets_detection.

Section pii.
Variable patterns : list pattern.

Definition _mask_string (text : string) : string * odict string Z :=
  foldl (λ '(text, counts) q,
    let '(new_text, n) := pat_subn q text in
    if negb (n =? 0) then (new_text, dset counts (pat_name q) n) else (text, counts)) (text, []) patterns.

Definition add_counts (total counts : odict string Z) : odict string Z :=
  foldl (λ t kv, dset t kv.1 (default 0 (dget t kv.1) + kv.2)) total counts.

Definition _mask_dict (d : odict string pyval) : odict string pyval * odict string Z :=
  foldl (λ '(d, total) key,
    match dget d key with
    | Some (PStr value) =>
        let '(masked, counts) := _mask_string value in
        match counts with [] => (d, total) | _ => (dset d key (PStr masked), add_counts total counts) end
    | _ => (d, total)
    end) (d, []) (dkeys d).

Definition counts_val (counts : odict string Z) : pyval := PDict ((λ kv, (kv.1, PInt kv.2)) <$> counts).

Definition pii_pre_invoke (c : PluginContext) : PluginContext :=
  let '(d, counts) := _mask_dict (px_arguments c) in
  let c' := set_arguments d c in
  match counts with [] => c' | _ => set_md "pii_pre_masked" (counts_val counts) c' end.
Definition pii_post_invoke (c : PluginContext) : PluginContext :=
  match str_result c with
  | Some s =>
      let '(masked, counts) := _mask_string s in
      match counts with
      | [] => c
      | _ => set_md "pii_post_masked" (counts_val counts) (set_result (RespOther (PStr masked)) c)
      end
  | None => c
  end.
End pii.

(** ** The limiter's bound *)

(** The accepted calls for one key, in order, of a list of calls. *)
Fixpoint accepted (p : RateLimiterPlugin) (key : string * string) (reqs : list (Z * PluginContext)) (ws : windows) : list Z :=
  match reqs with
  | [] => []
  | (now, c) :: reqs' =>
      let '(r, ws') := limiter_pre_invoke p now c ws in
      (if bool_decide (tool_key c = key) then match r with inr _ => [now] | inl _ => [] end else []) ++
      accepted p key reqs' ws'
  end.

(** The calls of a period of one window length. *)
Definition in_period (p : RateLimiterPlugin) (a : Z) (ts : list Z) : Z :=
  Z.of_nat (length (keep (λ t, (a <=? t) && (t <? a + rlp_window p)) ts)).

Section limiter.
Variable p : RateLimiterPlugin.
Abbreviation W := (rlp_window p) (only parsing).
Abbreviation Max := (Z.max 0 (rlp_max_requests p)) (only parsing).

(** A window that was opened, with the calls accepted in it. *)
Definition window_ok (w : Z * list Z) : Prop :=
  Z.of_nat (length w.2) <= Max ∧ Forall (λ t, w.1 <= t < w.1 + W) w.2.
(** Windows, the newest first: each opens at least one length after the next. *)
Inductive spaced : Z → list (Z * list Z) → Prop :=
  | spaced_nil b : spaced b []
  | spaced_cons b s ts ws : s <= b → window_ok (s, ts) → spaced (s - W) ws → spaced b ((s, ts) :: ws).

Definition hits (a : Z) (ws : list (Z * list Z)) : Z := in_period p a (mjoin (ws.*2)).

Lemma in_period_app a l1 l2 : in_period p a (l1 ++ l2) = in_period p a l1 + in_period p a l2.
Proof. unfold in_period. rewrite keep_app, length_app. lia. Qed.
Lemma in_period_bound a ts : 0 <= in_period p a ts <= Z.of_nat (length ts).
Proof. unfold in_period. pose proof (keep_length (λ t, (a <=? t) && (t <? a + W)) ts). lia. Qed.
Lemma in_period_outside a s ts :
  Forall (λ t, s <= t < s + W) ts → s <= a - W ∨ a + W <= s → in_period p a ts = 0.
Proof.
  intros Hts Hs. unfold in_period. replace (keep _ ts) with ([] : list Z); [done|]. symmetry.
  induction Hts as [|t ts Ht _ IH]; [done|]. cbn [List.filter].
  destruct ((a <=? t) && (t <? a + W)) eqn:E; [|done]. reflect_bools. lia.
Qed.

Lemma spaced_hits b ws a : 0 <= W → spaced b ws →
  (b <= a - W → hits a ws = 0) ∧ (b <= a → hits a ws <= Max) ∧ hits a ws <= 2 * Max.
Proof.
  intros HW. induction 1 as [b|b s ts ws Hs [Hlen Hin] _ IH]; [unfold hits, in_period; simpl; lia|].
  destruct IH as (IH0 & IH1 & IH2). simpl in Hlen, Hin.
  assert (E : hits a ((s, ts) :: ws) = in_period p a ts + hits a ws) by apply in_period_app.
  pose proof (in_period_bound a ts) as Hb. rewrite E.
  destruct (decide (s <= a - W)) as [H1|H1]; [rewrite (in_period_outside a s ts) by auto; split_and!; lia|].
  destruct (decide (a + W <= s)) as [H2|H2]; [rewrite (in_period_outside a s ts) by auto; split_and!; lia|].
  split_and!; lia.
Qed.

(** What the state of the key says about the windows so far. *)
Definition tracks (w : option _WindowCounter) (last : Z) (ws : list (Z * list Z)) : Prop :=
  spaced last ws ∧
  match w with
  | None => ws = []
  | Some w => wc_start w <= last ∧
      match ws with [] => False | (s, ts) :: _ => s = wc_start w ∧ Z.of_nat (length ts) <= wc_count w end
  end.

Lemma spaced_weaken b b' ws : spaced b ws → b <= b' → spaced b' ws.
Proof. destruct 1; intros; constructor; auto with lia. Qed.

(** The windows as they are when the call counts. *)
Lemma tracks_current now w last ws :
  0 < W → tracks w last ws → last <= now →
  ∃ s ts rest, spaced now ((s, ts) :: rest) ∧ s = wc_start (current_window p now w) ∧ s <= now < s + W ∧
    Z.of_nat (length ts) <= wc_count (current_window p now w) ∧ mjoin (((s, ts) :: rest).*2) = mjoin (ws.*2).
Proof.
  intros HW [Hs Hw] Hnow. unfold current_window. destruct w as [w|].
  - destruct Hw as [Hle Hws]. destruct ws as [|[s ts] ws']; [done|]. destruct Hws as [-> Hlen].
    destruct (now - wc_start w >=? W) eqn:E; reflect_bools.
    + exists now, [], ((wc_start w, ts) :: ws'). split_and!; simpl; try lia; [|done]. constructor; [lia| |].
      * split; simpl; [lia|done].
      * inversion Hs; subst. constructor; [lia|done|done].
    + exists (wc_start w), ts, ws'. split_and!; try done; [by eapply spaced_weaken|lia..].
  - subst ws. exists now, [], []. split_and!; simpl; try lia; [|done]. constructor; [lia| |constructor]. split; simpl; [lia|done].
Qed.

Lemma accepted_hits key reqs ws last a wins :
  0 < W → tracks (dget ws key) last wins → Sorted Z.le (last :: reqs.*1) →
  ∃ wins' b, spaced b wins' ∧ in_period p a (accepted p key reqs ws) + hits a wins = hits a wins'.
Proof.
  intros HW. revert ws last wins. induction reqs as [|[now c] reqs IH]; intros ws last wins Ht Hsort.
  { destruct Ht as [Hs _]. exists wins, last. split; [done|]. unfold in_period at 1. simpl. lia. }
  simpl in Hsort. inversion Hsort as [|? ? Hsort' Hle]; subst. inversion Hle as [|? ? Hnow]; subst.
  cbn [accepted]. unfold limiter_pre_invoke. unfold_M.
  set (w := current_window p now (dget ws (tool_key c))).
  set (ws' := dset ws (tool_key c) {| wc_count := wc_count w + 1; wc_start := wc_start w |}).
  destruct (decide (tool_key c = key)) as [<-|Hne].
  - rewrite bool_decide_true by done.
    destruct (tracks_current now _ _ _ HW Ht Hnow) as (s & ts & rest & Hsp & Hs & Hin & Hlen & Hjoin).
    fold w in Hs, Hlen. inversion Hsp as [|? ? ? ? Hle' [Hl Hf] Hrest]; subst s. simpl in Hl, Hf.
    assert (Hst : dget ws' (tool_key c) = Some {| wc_count := wc_count w + 1; wc_start := wc_start w |}) by apply dget_dset_eq.
    destruct (wc_count w + 1 >? rlp_max_requests p) eqn:Ec; reflect_bools.
    + destruct (IH ws' now ((wc_start w, ts) :: rest)) as (wins' & bd & Hb & E); [|done|].
      { split; [done|]. rewrite Hst. simpl. split; [lia|]. split; [done|lia]. }
      exists wins', bd. split; [done|]. rewrite <-E. simpl app. unfold hits. by rewrite Hjoin.
    + destruct (IH ws' now ((wc_start w, now :: ts) :: rest)) as (wins' & bd & Hb & E); [|done|].
      { split; [|rewrite Hst; simpl; split; [lia|split; [done|lia]]].
        constructor; [lia| |done]. split; simpl; [lia|]. constructor; [lia|done]. }
      exists wins', bd. split; [done|]. rewrite <-E, in_period_app. unfold hits. rewrite <-Hjoin. cbn [fmap list_fmap snd].
      change (mjoin ((now :: ts) :: ?l)) with ([now] ++ mjoin (ts :: l)). rewrite (in_period_app _ [now]). lia.
  - rewrite bool_decide_false by done.
    assert (Hst : dget ws' key = dget ws key) by (by apply dget_dset_ne).
    assert (Ht' : tracks (dget ws' key) now wins).
    { rewrite Hst. destruct Ht as [Hsp Hw]. split; [by eapply spaced_weaken|]. destruct (dget ws key); [|done].
      destruct Hw as [? Hw]. split; [lia|done]. }
    destruct (IH ws' now wins Ht' Hsort') as (wins' & bd & Hb & E). exists wins', bd. split; [done|].
    by destruct (_ >? _).
Qed.
End limiter.

(** The limiter bounds every period.  For any sequence of calls with a clock
    that does not go back, and any tool, the calls accepted within any period
    of one window length number at most twice the configured maximum, however
    the windows fall. *)
Theorem fixed_window_bound (p : RateLimiterPlugin) (key : string * string) (reqs : list (Z * PluginContext)) (a : Z)
    (HW : 0 < rlp_window p) (Hsorted : Sorted Z.le (reqs.*1)) :
  in_period p a (accepted p key reqs []) <= 2 * Z.max 0 (rlp_max_requests p).
Proof.
  set (first := match reqs with [] => 0 | (t, _) :: _ => t end).
  destruct (accepted_hits p key reqs [] first a []) as (wins & b & Hs & E); [done| |destruct reqs as [|[t c] reqs]; constructor; simpl; auto with lia|].
  { split; [constructor|done]. }
  pose proof (spaced_hits p b wins a ltac:(lia) Hs) as (_ & _ & H).
  unfold hits at 1 in E. unfold in_period at 2 in E. simpl in E. lia.
Qed.

Definition tool_call (server tool : string) : PluginContext :=
  {| px_capability_name := tool; px_mcp_method := "call_tool"; px_arguments := []; px_server_name := server;
     px_metadata := []; px_result := RespNone |}.

(** The bound is reached: two calls at the end of a window and two at the start
    of the next one. *)
Lemma fixed_window_bound_witness :
  let p := {| rlp_max_requests := 2; rlp_window := 60 |} in
  let reqs := [(0, tool_call "" "t"); (59, tool_call "" "t"); (59, tool_call "" "t");
               (60, tool_call "" "t"); (61, tool_call "" "t"); (62, tool_call "" "t")] in
  accepted p ("", "t") reqs [] = [0; 59; 60; 61] ∧ in_period p 59 (accepted p ("", "t") reqs []) <= 4.
Proof.
  intros p reqs. split; [vm_compute; reflexivity|].
  apply (fixed_window_bound p ("", "t") reqs 59); [done|]. repeat constructor; simpl; lia.
Defined.

(** ** The response cache *)

Inductive cache_op := PreInvoke (now now' : Z) (c : PluginContext) | PostInvoke (now : Z) (c : PluginContext).

Section cache_proofs.
Variable p : ResponseCachePlugin.

Definition cache_step (sha256 : string → string) (m : cache) (o : cache_op) : cache :=
  match o with
  | PreInvoke now now' c => (cache_pre_invoke sha256 p now now' c m).2
  | PostInvoke now c => (cache_post_invoke p now c m).2
  end.

(** A result that a post-invoke hook stored: for a request without an error
    that had been a miss, under the key of that miss. *)
Definition stored_by (ops : list cache_op) (key : string) (r : response) (ts : Z) : Prop :=
  ∃ c, PostInvoke ts c ∈ ops ∧ px_result c = r ∧ dget (px_metadata c) "_cache_key" = Some (MVal (PStr key)) ∧
       md_truthy c "cache_hit" = false ∧ md_truthy c "error" = false.

Record cache_ok (ops : list cache_op) (m : cache) : Prop := {
  ck_wf : dict_wf m;
  ck_size : Z.of_nat (length m) <= rcp_max_entries p;
  ck_from key r ts : dget m key = Some (r, ts) → stored_by ops key r ts }.

Lemma stored_by_more ops o key r ts : stored_by ops key r ts → stored_by (ops ++ [o]) key r ts.
Proof. intros (c & Hc & H). exists c. set_solver. Qed.

Lemma keep_wf {V} (f : string * V → bool) (d : odict string V) : dict_wf d → dict_wf (keep f d).
Proof. unfold dict_wf, dkeys. apply NoDup_fmap_keep. Qed.

Lemma dget_keep {V} (f : string * V → bool) (d : odict string V) k v :
  dict_wf d → dget (keep f d) k = Some v → dget d k = Some v.
Proof.
  intros Hd H. apply dget_Some_elem in H. apply elem_of_keep in H as [H _]. by apply elem_dget.
Qed.

Lemma ddel_length {V} (d : odict string V) k : k ∈ dkeys d → S (length (ddel d k)) = length d.
Proof.
  intros [v Hv]%dget_is_Some. apply ddel_split in Hv as (a & b & -> & ->). rewrite !length_app. simpl. lia.
Qed.
Lemma ddel_length_le {V} (d : odict string V) k : (length (ddel d k) ≤ length d)%nat.
Proof. induction d as [|[k' v] d IH]; simpl; [lia|]. case_decide; simpl; lia. Qed.
Lemma dset_length_le {V} (d : odict string V) k v : (length (dset d k v) ≤ S (length d))%nat.
Proof. induction d as [|[k' w] d IH]; simpl; [lia|]. case_decide; simpl; lia. Qed.

Lemma dget_ddel_other {V} (d : odict string V) k k' : k ≠ k' → dget (ddel d k) k' = dget d k'.
Proof. intros Hne. induction d as [|[a v] d IH]; simpl; [done|]. repeat (case_decide; simplify_eq/=); done. Qed.

Lemma oldest_key_in m k : oldest_key m = Some k → k ∈ dkeys m.
Proof.
  destruct m as [|e m]; [done|]. cbn [oldest_key]. intros [= <-]. unfold dkeys. apply list_elem_of_fmap.
  eexists. split; [done|]. generalize e. induction m as [|e' m IH]; intros e0; simpl; [left|].
  destruct (e'.2.2 <? e0.2.2); [right; apply IH|]. specialize (IH e0). set_solver.
Qed.

Lemma evict_oldest_size m m' :
  1 <= rcp_max_entries p → Z.of_nat (length m) <= rcp_max_entries p → _evict_oldest p m = inr m' →
  Z.of_nat (length m') < rcp_max_entries p.
Proof.
  unfold _evict_oldest. intros H1 Hm H. destruct (_ >=? _) eqn:E; reflect_bools; [|simplify_eq; lia].
  destruct (oldest_key m) as [k|] eqn:Ek; simplify_eq. apply oldest_key_in, ddel_length in Ek. lia.
Qed.

Lemma evict_oldest_sub m m' key v :
  dict_wf m → _evict_oldest p m = inr m' → dict_wf m' ∧ (dget m' key = Some v → dget m key = Some v).
Proof.
  unfold _evict_oldest. intros Hwf H. repeat case_match; simplify_eq; [|by split].
  split; [by apply dict_wf_ddel|]. rewrite dget_ddel by done. by case_decide.
Qed.

Lemma evict_expired_ok ops m now : cache_ok ops m → cache_ok ops (_evict_expired p now m).
Proof.
  intros [Hwf Hs Hf]. split; [by apply keep_wf| |].
  - pose proof (keep_length (λ e : string * (response * Z), negb (now - e.2.2 >? rcp_ttl p)) m). unfold _evict_expired. lia.
  - intros key r ts H. by apply Hf, (dget_keep _ _ _ _ Hwf H).
Qed.

Lemma cache_ok_more ops o m : cache_ok ops m → cache_ok (ops ++ [o]) m.
Proof. intros [Hwf Hs Hf]. split; [done..|]. intros. by apply stored_by_more, Hf. Qed.

Lemma cache_step_ok sha256 ops m o :
  1 <= rcp_max_entries p → cache_ok ops m → cache_ok (ops ++ [o]) (cache_step sha256 m o).
Proof.
  intros H1 Hm. destruct o as [now now' c|now c]; simpl.
  - apply cache_ok_more. pose proof (evict_expired_ok _ _ now Hm) as He. unfold cache_pre_invoke. unfold_M.
    destruct (dget _ _) as [[r ts]|]; [|done]. case_match; simpl; [done|].
    destruct He as [Hwf Hs Hf]. split; [by apply dict_wf_ddel| |].
    + pose proof (ddel_length_le (_evict_expired p now m) (_make_key sha256 (px_server_name c) (px_capability_name c) (px_arguments c))). lia.
    + intros key r' ts'. rewrite dget_ddel by done. case_decide; [done|]. apply Hf.
  - pose proof (cache_ok_more _ (PostInvoke now c) _ Hm) as Hm'. unfold cache_post_invoke.
    destruct (md_truthy c "cache_hit") eqn:Eh; [done|].
    destruct (dget (px_metadata c) "_cache_key") as [[| |[| | |key| |]]|] eqn:Ek; try done.
    destruct (md_truthy (with_metadata (ddel (px_metadata c) "_cache_key") c) "error") eqn:Ee; [done|]. unfold_M.
    destruct (_evict_oldest p m) as [e|m'] eqn:Ev; [done|]. simpl.
    destruct Hm as [Hwf Hs Hf]. destruct (evict_oldest_sub m m' "" (RespNone, 0) Hwf Ev) as [Hwf' _].
    split; [by apply dict_wf_dset| |].
    + pose proof (evict_oldest_size _ _ H1 Hs Ev). pose proof (dset_length_le m' key (px_result c, now)). lia.
    + intros key' r ts. rewrite dget_dset. case_decide.
      * intros; simplify_eq. exists c. split_and!; [set_solver|done..|].
        unfold md_truthy in *. simpl in Ee. by rewrite dget_ddel_other in Ee.
      * intros H'. apply stored_by_more, Hf. by eapply (evict_oldest_sub m m').
Qed.
End cache_proofs.

(** Sorting keeps the entries. *)
Lemma insert_key_perm kv d : insert_key kv d ≡ₚ kv :: d.
Proof. induction d as [|kv' d IH]; simpl; [done|]. case_match; [done|]. rewrite IH. apply Permutation_swap. Qed.
Lemma sort_keys_perm d : sort_keys d ≡ₚ d.
Proof. induction d as [|kv d IH]; simpl; [done|]. by rewrite insert_key_perm, IH. Qed.

Lemma sort_value_dict d : sort_value (PDict d) = PDict (sort_keys ((λ kv, (kv.1, sort_value kv.2)) <$> d)).
Proof. simpl. f_equal. f_equal. induction d as [|[k v] d IH]; simpl; [done|]. by rewrite IH. Qed.
Lemma sort_value_list l : sort_value (PList l) = PList (sort_value <$> l).
Proof. simpl. f_equal. Qed.

Lemma sort_value_wf v : pv_wf v → pv_wf (sort_value v).
Proof.
  induction v as [|b|z|s|l IH|d IH] using pyval_nested_ind; intros Hwf; try done.
  - rewrite sort_value_list. inversion Hwf as [| | | |? Hl|]; subst. constructor. apply Forall_fmap.
    induction IH as [|v l Hv _ IHl]; [done|]. inversion Hl; subst. constructor; [by apply Hv|]. apply IHl; [by constructor|done].
  - rewrite sort_value_dict. inversion Hwf as [| | | | |? Hd Hl]; subst. constructor.
    + unfold dict_wf, dkeys. rewrite sort_keys_perm, <-list_fmap_compose. exact Hd.
    + rewrite sort_keys_perm. apply Forall_fmap. clear Hwf Hd. induction IH as [|kv d Hv _ IHd]; [done|].
      inversion Hl; subst. constructor; [by apply Hv|by apply IHd].
Qed.

(** A key names its request, up to the order of the arguments. *)
Lemma make_key_inj sha256 s1 c1 a1 s2 c2 a2 :
  (∀ x y, sha256 x = sha256 y → x = y) → pv_wf (PDict a1) → pv_wf (PDict a2) →
  _make_key sha256 s1 c1 a1 = _make_key sha256 s2 c2 a2 →
  s1 = s2 ∧ c1 = c2 ∧ sort_value (PDict a1) = sort_value (PDict a2).
Proof.
  intros Hinj H1 H2 E%Hinj.
  assert (Hwf : ∀ s c a, pv_wf (PDict a) → pv_wf (PDict [("s", PStr s); ("c", PStr c); ("a", PDict a)])).
  { intros. constructor; [by_decide|]. repeat constructor; try done; by inversion H. }
  apply dumps_inj in E; [|by apply sort_value_wf, Hwf..].
  assert (Htop : ∀ s c a, sort_value (PDict [("s", PStr s); ("c", PStr c); ("a", PDict a)]) =
    PDict [("a", sort_value (PDict a)); ("c", PStr c); ("s", PStr s)]) by reflexivity.
  rewrite !Htop in E. revert E. generalize (sort_value (PDict a1)) (sort_value (PDict a2)). intros x y E. by simplify_eq.
Qed.

Lemma run_cache_ok sha256 p ops : 1 <= rcp_max_entries p → cache_ok p ops (foldl (cache_step p sha256) [] ops).
Proof.
  intros H1. induction ops as [|o ops IH] using rev_ind; [split; simpl; [constructor|lia|done]|].
  rewrite foldl_app. simpl. by apply cache_step_ok.
Qed.

(** A cache hit is sound and the cache stays small.  After any sequence of
    hook calls the cache has at most the configured number of entries; a hit
    gives a result that a post-invoke hook stored without an error, no longer
    ago than the time to live, and that was stored for a request with the same
    server, the same tool and the same arguments up to the order of their keys. *)
Theorem cache_hit_sound (sha256 : string → string) (p : ResponseCachePlugin) (ops : list cache_op)
    (now now' : Z) (c c' : PluginContext)
    (Hmax : 1 <= rcp_max_entries p) (Hsha : ∀ x y, sha256 x = sha256 y → x = y)
    (Hargs : pv_wf (PDict (px_arguments c)))
    (Hpre : (cache_pre_invoke sha256 p now now' c (foldl (cache_step p sha256) [] ops)).1 = inr c')
    (Hhit : dget (px_metadata c') "cache_hit" = Some (MVal (PBool true))) :
  Z.of_nat (length (foldl (cache_step p sha256) [] ops)) <= rcp_max_entries p ∧
  ∃ c0 ts, PostInvoke ts c0 ∈ ops ∧ px_result c' = px_result c0 ∧ now' - ts <= rcp_ttl p ∧
    md_truthy c0 "error" = false ∧
    ∀ server cap args, pv_wf (PDict args) →
      dget (px_metadata c0) "_cache_key" = Some (MVal (PStr (_make_key sha256 server cap args))) →
      server = px_server_name c ∧ cap = px_capability_name c ∧
      sort_value (PDict args) = sort_value (PDict (px_arguments c)).
Proof.
  set (m := foldl (cache_step p sha256) [] ops) in *.
  pose proof (run_cache_ok sha256 p ops Hmax) as Hm. fold m in Hm. split; [apply Hm|].
  unfold cache_pre_invoke in Hpre. unfold_M.
  assert (Hmiss : ∀ k, inr (set_md "_cache_key" (PStr k) (set_md "cache_hit" (PBool false) c)) = (inr c' : exn + PluginContext) → False).
  { intros k [= <-]. unfold set_md in Hhit. cbn [px_metadata with_metadata] in Hhit.
    rewrite dget_dset_ne, dget_dset_eq in Hhit by done. simplify_eq. }
  destruct (dget (_evict_expired p now m) _) as [[r ts]|] eqn:Ek; [|destruct (Hmiss _ Hpre)].
  destruct (now' - ts <=? rcp_ttl p) eqn:Et; [|destruct (Hmiss _ Hpre)]. reflect_bools. simpl in Hpre. simplify_eq.
  destruct (ck_from _ _ _ (evict_expired_ok _ _ _ now Hm) _ _ _ Ek) as (c0 & Hin & Hr & Hk & _ & He).
  exists c0, ts. split_and!; [done|by rewrite Hr|lia|done|].
  intros server cap args Hwf Hkey. rewrite Hk in Hkey. simplify_eq. symmetry in Hkey. by apply make_key_inj in Hkey.
Qed.

Lemma cache_hit_sound_witness :
  let p := {| rcp_ttl := 300; rcp_max_entries := 2 |} in
  let c := tool_call "" "search" in
  let miss := set_md "_cache_key" (PStr (_make_key (λ x, x) "" "search" [])) (set_result (RespOther (PStr "r")) c) in
  let hit := set_md "cache_hit" (PBool true) (set_result (RespOther (PStr "r")) c) in
  (cache_pre_invoke (λ x, x) p 100 100 c (foldl (cache_step p (λ x, x)) [] [PostInvoke 50 miss])).1 = inr hit ∧
  ∃ c0 ts, PostInvoke ts c0 ∈ [PostInvoke 50 miss] ∧ px_result hit = px_result c0.
Proof.
  intros p c miss hit.
  assert (Hpre : (cache_pre_invoke (λ x, x) p 100 100 c (foldl (cache_step p (λ x, x)) [] [PostInvoke 50 miss])).1 = inr hit)
    by (vm_compute; reflexivity).
  split; [exact Hpre|].
  destruct (cache_hit_sound (λ x, x) p [PostInvoke 50 miss] 100 100 c hit) as (_ & c0 & ts & H1 & H2 & _);
    [done|done|constructor; [constructor|constructor]|exact Hpre|reflexivity|].
  exists c0, ts. exact (conj H1 H2).
Defined.

(** ** The plugins inside the gateway *)

(** The results of tool calls are objects, not strings: the hooks that filter
    results leave them as they are. *)
Lemma tool_results_not_filtered content is_error c secrets pii guard :
  px_result c = CallToolResult content is_error →
  px_result (pii_post_invoke pii c) = px_result c ∧ px_result (secrets_post_invoke secrets c) = px_result c ∧
  px_result (guard_post_invoke guard c) = px_result c.
Proof.
  intros H. assert (Hs : str_result c = None) by (unfold str_result; by rewrite H).
  unfold pii_post_invoke, guard_post_invoke, secrets_post_invoke. rewrite Hs. split_and!; try done.
  assert (∀ qs, foldl (λ c q, match str_result c with
                | Some s => if pat_search q s
                            then set_md "secrets_redacted_result" (PBool true) (set_result (RespOther (PStr (pat_sub q s))) c)
                            else c
                | None => c end) c qs = c) as ->; [|done].
  induction qs as [|q qs IH]; simpl; [done|]. by rewrite Hs.
Qed.

(** Without blocking, each pattern is applied to the original text of an
    argument: the last one that matches wins and the secrets found by the
    others are passed on. *)
Example second_redaction_restores_first_secret :
  let q name found redacted := {| pat_name := name; pat_search := λ s, contains s found; pat_subn := λ s, (redacted, 1) |} in
  let c := set_arguments [("text", PStr "KEY1 and KEY2")] (tool_call "" "t") in
  px_arguments <$> (match secrets_pre_invoke [q "first" "KEY1" "*** and KEY2"; q "second" "KEY2" "KEY1 and ***"] false c with
                    | inr c' => Some c' | inl _ => None end) = Some [("text", PStr "KEY1 and ***")].
Proof. vm_compute. reflexivity. Qed.

(** With blocking, an argument that matches any pattern stops the request. *)
Lemma secrets_block patterns c key value q :
  (key, PStr value) ∈ px_arguments c → q ∈ patterns → pat_search q value = true →
  ∃ e, secrets_pre_invoke patterns true c = inl e.
Proof.
  intros Hin Hq Hs. unfold secrets_pre_invoke. revert Hin. generalize (px_arguments c). intros items Hin.
  assert (Hfound : ∀ c, ∃ e, scan_value true patterns key value c = inl e).
  { intros c'. clear Hin. induction patterns as [|q' qs IH]; [by apply not_elem_of_nil in Hq|]. simpl.
    case_match; [eauto|]. apply IH. apply elem_of_cons in Hq as [->|Hq]; [congruence|done]. }
  revert c. induction items as [|[k v] items IH]; intros c; [by apply not_elem_of_nil in Hin|].
  apply elem_of_cons in Hin as [[= <- <-]|Hin]; simpl.
  - destruct (Hfound c) as [e ->]. by exists e.
  - specialize (IH Hin). destruct v; try apply IH. destruct (scan_value true patterns k s c) as [e|c']; [by exists e|apply IH].
Qed.

(** A clip is never longer than the maximum, unless the suffix alone is. *)
Lemma clip_length p s : strlen (clip p s) <= Z.max (olg_max_length p) (strlen (olg_suffix p)).
Proof.
  unfold clip, strlen, take_chars. rewrite chars_app, chars_text, length_app, length_take. lia.
Qed.

(** The breaker counts failures under the name of the backend, which is known
    after routing, but asks under the empty name that a request has before it:
    no failure ever closes the gate. *)
Lemma breaker_plugin_never_trips p now c bs :
  px_server_name c = "" → dget bs ("", px_capability_name c) = None ∨
    (∃ b, dget bs ("", px_capability_name c) = Some b ∧ pb_state b = closed) →
  let out := breaker_pre_invoke p now c bs in
  (∃ c', out.1 = inr c') ∧
  (∃ b, dget out.2 ("", px_capability_name c) = Some b ∧ pb_state b = closed) ∧
  (∀ later c2, px_server_name c2 ≠ "" → ∀ bs2, dget (breaker_post_invoke p later c2 bs2).2 ("", px_capability_name c) =
     dget bs2 ("", px_capability_name c)).
Proof.
  intros Hs Hb out.
  assert (Hk : tool_key c = ("", px_capability_name c)) by (unfold tool_key; by rewrite Hs).
  assert (Hg : pb_state (get_breaker p c bs) = closed).
  { unfold get_breaker. rewrite Hk. destruct Hb as [->|(b & -> & Hb)]; done. }
  assert (Hout : out = breaker_pre_invoke p now c bs) by done.
  unfold breaker_pre_invoke in Hout. unfold_M. unfold allows in Hout. rewrite Hg in Hout. simpl in Hout. rewrite Hout.
  split_and!; simpl; [eauto| |].
  - rewrite Hk, dget_dset_eq. eauto.
  - intros later c2 Hne bs2. apply dget_dset_ne. unfold tool_key. congruence.
Qed.
