(* ===== verification/PolicyPlugins.v ===== *)
(** * Plugins that ask external services (plugins/external; builtins/retry_with_backoff.py)

    Policy engines (OPA, Cedar, and the decision point that combines several),
    the virus scanner with its wire format, URL reputation, moderation and
    prompt scanning.  What a service answers is an argument: [None] stands for
    any failure of the request, including a status that is an error or a body
    that is no JSON.  Scores and thresholds are rationals.  The search for URLs
    in a text, [int()] of a text and [str()] of a number are parameters. *)
From Stdlib Require Import Ascii QArith.
From S2P Require Import Prelude PyDict Effects Glob PyStr Url Auth Chain Plugins Builtins.
#[local] Open Scope Z_scope.

(** ** Open Policy Agent (opa_policy.py) *)

(** [_sanitize], with the levels that are left. *)
Fixpoint _sanitize (levels : nat) (v : pyval) : pyval :=
  match levels with
  | O => PStr "<truncated>"
  | S n => match v with
           | PDict d => PDict ((λ kv, (kv.1, _sanitize n kv.2)) <$> d)
           | PList l => PList (_sanitize n <$> l)
           | _ => v
           end
  end.
Definition max_depth : nat := 5.

Record OPAPolicyPlugin := { opa_default_decision : bool; opa_loaded : bool }.

Definition _build_input (c : PluginContext) (phase : string) : pyval :=
  PDict [("input", PDict [("capability", PStr (px_capability_name c)); ("method", PStr (px_mcp_method c));
    ("server", PStr (px_server_name c)); ("phase", PStr phase); ("arguments", _sanitize max_depth (PDict (px_arguments c)))])].

Definition opa_answer (default_decision : bool) (reply : option pyval) : bool :=
  match reply with
  | Some (PDict data) =>
      match dget data "result" with
      | Some (PBool b) => b
      | Some (PDict result) => truthy (get_or result "allow" (PBool default_decision))
      | _ => default_decision
      end
  | _ => default_decision
  end.
Definition _query_opa (p : OPAPolicyPlugin) (ask : pyval → option pyval) (payload : pyval) : bool :=
  if negb (opa_loaded p) then opa_default_decision p else opa_answer (opa_default_decision p) (ask payload).

Definition verdict_text (allowed : bool) : pyval := PStr (if allowed then "allow" else "deny").
Definition opa_evaluate (p : OPAPolicyPlugin) (ask : pyval → option pyval) (c : PluginContext) (phase : string)
  : exn + PluginContext :=
  let allowed := _query_opa p ask (_build_input c phase) in
  if negb allowed then inl (ValueError ("OPA policy denied: " +:+ px_capability_name c +:+ " (" +:+ phase +:+ ", server=" +:+ px_server_name c +:+ ")"))
  else inr (set_md ("opa_" +:+ phase) (verdict_text allowed) c).

(** ** Cedar (cedar_policy.py) *)

Record CedarPolicyPlugin := { ced_policy_store_id : option string; ced_default_decision : bool; ced_loaded : bool }.

Definition _build_request (p : CedarPolicyPlugin) (c : PluginContext) (phase : string) : pyval :=
  PDict ([("principal", PDict [("entityType", PStr "Argus::Client"); ("entityId", PStr (or_str (px_server_name c) "anonymous"))]);
    ("action", PDict [("actionType", PStr "Argus::Action"); ("actionId", PStr phase)]);
    ("resource", PDict [("entityType", PStr "Argus::Capability"); ("entityId", PStr (or_str (px_capability_name c) "unknown"))]);
    ("context", PDict [("method", PStr (px_mcp_method c)); ("server", PStr (px_server_name c))])] ++
    (if str_truthy (ced_policy_store_id p) then [("policyStoreId", PStr (default "" (ced_policy_store_id p)))] else [])).

Definition cedar_answer (default_decision : bool) (reply : option pyval) : bool :=
  match reply with
  | Some (PDict data) =>
      match get_or data "decision" (get_or data "isAuthorized" PNone) with
      | PStr s => bool_decide (upper s = "ALLOW")
      | PBool b => b
      | _ => default_decision
      end
  | _ => default_decision
  end.
Definition _query_cedar (p : CedarPolicyPlugin) (ask : pyval → option pyval) (c : PluginContext) (phase : string) : bool :=
  if negb (ced_loaded p) then ced_default_decision p
  else cedar_answer (ced_default_decision p) (ask (_build_request p c phase)).
Definition cedar_evaluate (p : CedarPolicyPlugin) (ask : pyval → option pyval) (c : PluginContext) (phase : string)
  : exn + PluginContext :=
  let allowed := _query_cedar p ask c phase in
  if negb allowed then inl (ValueError ("Cedar policy denied: " +:+ px_capability_name c +:+ " (" +:+ phase +:+ ", server=" +:+ px_server_name c +:+ ")"))
  else inr (set_md ("cedar_" +:+ phase) (verdict_text allowed) c).

(** ** The unified decision point (unified_pdp.py) *)

Record pdp_engine := { en_name : string; en_url : string; en_path : string; en_api_key : string; en_enabled : bool }.
Record UnifiedPDPPlugin := {
  pdp_engines : list pdp_engine; pdp_mode : string; pdp_cache_ttl : Z; pdp_default_decision : bool }.
(** The constructor keeps the engines that are enabled. *)
Definition new_pdp (engines : list pdp_engine) (mode : string) (ttl : Z) (default_decision : bool) : UnifiedPDPPlugin :=
  {| pdp_engines := keep en_enabled engines; pdp_mode := mode; pdp_cache_ttl := ttl; pdp_default_decision := default_decision |}.

Definition pdp_payload (c : PluginContext) (phase : string) : pyval :=
  PDict [("input", PDict [("capability", PStr (px_capability_name c)); ("method", PStr (px_mcp_method c));
    ("server", PStr (px_server_name c)); ("phase", PStr phase)])].
Definition is_slash : ascii → bool := is_char 47.
Definition engine_endpoint (e : pdp_engine) : string :=
  if bool_decide (en_path e = "") then en_url e
  else rstrip_by is_slash (en_url e) +:+ "/" +:+ text (drop_while is_slash (chars (en_path e))).

(** What an engine decided, and whether it failed. *)
Record pdp_decision := { de_engine : string; de_allow : bool; de_error : bool }.

Definition engine_allows (default_decision : bool) (data : list (string * pyval)) : bool :=
  match get_or data "result" (get_or data "decision" (get_or data "allow" PNone)) with
  | PBool b => b
  | PStr s => bool_decide (upper s = "ALLOW")
  | PDict d => truthy (get_or d "allow" (PBool default_decision))
  | _ => default_decision
  end.
Definition engine_decision (p : UnifiedPDPPlugin) (ask : string → string → pyval → option pyval) (c : PluginContext)
    (phase : string) (e : pdp_engine) : pdp_decision :=
  match ask (engine_endpoint e) (en_api_key e) (pdp_payload c phase) with
  | Some (PDict data) => {| de_engine := en_name e; de_allow := engine_allows (pdp_default_decision p) data; de_error := false |}
  | _ => {| de_engine := en_name e; de_allow := pdp_default_decision p; de_error := true |}
  end.
Definition _query_engines (p : UnifiedPDPPlugin) (ask : string → string → pyval → option pyval) (c : PluginContext)
    (phase : string) : list pdp_decision := engine_decision p ask c phase <$> pdp_engines p.

Definition _combine (p : UnifiedPDPPlugin) (decisions : list pdp_decision) : bool :=
  match decisions with
  | [] => pdp_default_decision p
  | d :: _ =>
      if bool_decide (pdp_mode p = "any_allow") then existsb de_allow decisions
      else if bool_decide (pdp_mode p = "first_match") then de_allow d
      else forallb de_allow decisions
  end.

Definition pdp_key (c : PluginContext) (phase : string) : string :=
  px_server_name c +:+ ":" +:+ px_capability_name c +:+ ":" +:+ phase.
Definition pdp_cache : Type := odict string (Z * bool).
Definition details (ds : list pdp_decision) : pyval :=
  PList ((λ d, PDict ([("engine", PStr (de_engine d)); ("allow", PBool (de_allow d))] ++
                      (if de_error d then [("error", PStr "")] else []))) <$> ds).

(** [now] is the time when the cache is read, [now'] when it is written. *)
Definition _decide (p : UnifiedPDPPlugin) (ask : string → string → pyval → option pyval) (now now' : Z) (phase : string)
    (c : PluginContext) : M pdp_cache exn PluginContext :=
  m ← get_state;
  let key := pdp_key c phase in
  let fresh :=
    let decisions := _query_engines p ask c phase in
    let allowed := _combine p decisions in
    _ ← put_state (dset m key (now', allowed));
    if negb allowed then raise (ValueError ("Unified PDP denied: " +:+ px_capability_name c))
    else mret (set_md ("pdp_" +:+ phase +:+ "_details") (details decisions) (set_md ("pdp_" +:+ phase) (verdict_text allowed) c)) in
  match dget m key with
  | Some (ts, decision) =>
      if now - ts <? pdp_cache_ttl p then
        if negb decision then raise (ValueError ("Unified PDP denied (cached): " +:+ px_capability_name c))
        else mret (set_md ("pdp_" +:+ phase) (PStr "allow(cached)") c)
      else fresh
  | None => fresh
  end.

(** ** ClamAV (clamav.py) *)

Definition _INSTREAM_CMD : list ascii := chars "zINSTREAM" ++ [ascii_of_nat 0].
Definition _MAX_CHUNK : nat := Z.to_nat 8192.

(** [n.to_bytes(4, "big")] *)
Definition byte (z : Z) : ascii := ascii_of_nat (Z.to_nat (z mod 256)).
Definition to_bytes4 (n : nat) : list ascii :=
  let z := Z.of_nat n in [byte (z / 16777216); byte (z / 65536); byte (z / 256); byte z].

(** The loop that writes the chunks; each round takes at least one byte. *)
Fixpoint chunk_loop (fuel : nat) (data : list ascii) : list (list ascii) :=
  match fuel, data with
  | S f, _ :: _ => take _MAX_CHUNK data :: chunk_loop f (drop _MAX_CHUNK data)
  | _, _ => []
  end.
Definition frame (chunk : list ascii) : list ascii := to_bytes4 (length chunk) ++ chunk.
Definition instream (data : list ascii) : list ascii :=
  _INSTREAM_CMD ++ mjoin (frame <$> chunk_loop (length data) data) ++ to_bytes4 0.

Record ClamAVPlugin := { cl_max_scan_bytes : nat; cl_block : bool }.

(** [s.replace(pat, "")]; [skip] counts what is left of an occurrence. *)
Fixpoint remove_text (pat : list ascii) (skip : nat) (l : list ascii) : list ascii :=
  match l with
  | [] => []
  | c :: l' => match skip with
               | S k => remove_text pat k l'
               | O => if bool_decide (pat `prefix_of` l) then remove_text pat (length pat - 1) l'
                      else c :: remove_text pat 0 l'
               end
  end.
Definition found_name (result : string) : option string :=
  if startswith result "stream: " && contains result "FOUND"
  then Some (text (remove_text (chars " FOUND") 0 (drop 8 (chars result)))) else None.
(** [clamd] maps the bytes on the wire to the answer; [None]: unreachable. *)
Definition clamav_scan (p : ClamAVPlugin) (clamd : list ascii → option string) (c : PluginContext) (data : list ascii)
    (phase : string) : exn + PluginContext :=
  match clamd (instream (take (cl_max_scan_bytes p) data)) with
  | None => inr c
  | Some result =>
      match found_name result with
      | Some virus => if cl_block p then inl (ValueError ("ClamAV: malware detected — " +:+ virus))
                      else inr (set_md ("clamav_" +:+ phase) (PStr virus) c)
      | None => inr c
      end
  end.
Definition _extract_content (arguments : odict string pyval) : option (list ascii) :=
  match List.find (λ k, match dget arguments k with Some (PStr s) => negb (bool_decide (s = "")) | _ => false end)
          ["content"; "data"; "body"; "payload"] with
  | Some k => match dget arguments k with Some (PStr s) => Some (chars s) | _ => None end
  | None => None
  end.
Definition clamav_resource_pre_fetch (p : ClamAVPlugin) (clamd : list ascii → option string) (c : PluginContext) : exn + PluginContext :=
  match _extract_content (px_arguments c) with
  | Some ((_ :: _) as data) => clamav_scan p clamd c data "resource_pre_fetch"
  | _ => inr c
  end.
Definition clamav_tool_post_invoke (p : ClamAVPlugin) (clamd : list ascii → option string) (c : PluginContext) : exn + PluginContext :=
  match str_result c with
  | Some s => if bool_decide (s = "") then inr c else clamav_scan p clamd c (chars s) "tool_post_invoke"
  | None => inr c
  end.

(** ** VirusTotal (virustotal.py) *)

Record VirusTotalPlugin := { vt_threshold : Z; vt_cache_ttl : Z; vt_allow_list : list string; vt_deny_list : list string; vt_loaded : bool }.
Inductive vt_reply := VtFailed | VtUnknown | VtData (data : pyval).
Definition vt_cache : Type := odict string (Z * Z).

Section virustotal.
Context (bracket_ok : string → bool) (py_int : string → option Z) (find_urls : string → list string) (p : VirusTotalPlugin).

Definition _extract_domain (url : string) : string :=
  match urlparse bracket_ok url with Some u => lower (url_netloc u) | None => "" end.

(** [data.get("data", {}).get("attributes", {}).get("last_analysis_stats", {}).get("malicious", 0)] *)
Definition get_dict (v : pyval) (k : string) : option pyval :=
  match v with PDict d => Some (get_or d k (PDict [])) | _ => None end.
Definition malicious_count (data : pyval) : option Z :=
  stats ← (get_dict data "data" ≫= λ v, get_dict v "attributes" ≫= λ v, get_dict v "last_analysis_stats");
  match stats with
  | PDict d => match get_or d "malicious" (PInt 0) with
               | PStr s => py_int s
               | v => as_num v
               end
  | _ => None
  end.

(** [ask] answers for a URL. *)
Definition _lookup (ask : string → vt_reply) (now now' : Z) (url : string) : M vt_cache exn (option Z) :=
  m ← get_state;
  let query :=
    if negb (vt_loaded p) then mret None
    else match ask url with
         | VtData data =>
             match malicious_count data with
             | Some n => _ ← put_state (dset m url (now', n)); mret (Some n)
             | None => mret None
             end
         | _ => mret None
         end in
  match dget m url with
  | Some (ts, detections) => if now - ts <? vt_cache_ttl p then mret (Some detections) else query
  | None => query
  end.

Definition _check_url (ask : string → vt_reply) (now now' : Z) (url : string) : M vt_cache exn () :=
  let domain := _extract_domain url in
  if bool_decide (domain ∈ vt_allow_list p) || bool_decide (url ∈ vt_allow_list p) then mret ()
  else if bool_decide (domain ∈ vt_deny_list p) || bool_decide (url ∈ vt_deny_list p)
       then raise (ValueError ("VirusTotal: URL on deny list: " +:+ domain))
  else
    d ← _lookup ask now now' url;
    match d with
    | Some n => if n >=? vt_threshold p then raise (ValueError ("VirusTotal: detections for " +:+ domain)) else mret ()
    | None => mret ()
    end.

Fixpoint check_urls (ask : string → vt_reply) (now now' : Z) (urls : list string) : M vt_cache exn () :=
  match urls with
  | [] => mret ()
  | u :: urls' => _ ← _check_url ask now now' u; check_urls ask now now' urls'
  end.
Definition vt_resource_pre_fetch (ask : string → vt_reply) (now now' : Z) (c : PluginContext) : M vt_cache exn PluginContext :=
  match dget (px_arguments c) "uri" with
  | Some (PStr uri) => if startswith uri "http" then _ ← _check_url ask now now' uri; mret c else mret c
  | _ => mret c
  end.
(** The hook after a tool call and after the fetch of a resource. *)
Definition vt_post (ask : string → vt_reply) (now now' : Z) (c : PluginContext) : M vt_cache exn PluginContext :=
  match str_result c with
  | Some s => _ ← check_urls ask now now' (take 10 (find_urls s)); mret c
  | None => mret c
  end.
End virustotal.

(** ** Content moderation (content_moderation.py) *)

Definition _DEFAULT_CATEGORIES : list string :=
  ["hate"; "violence"; "sexual"; "self-harm"; "harassment"; "spam"; "profanity"; "toxicity"].
Record ContentModerationPlugin := {
  cmp_provider : string; cmp_threshold : Q; cmp_categories : list string; cmp_action : string; cmp_loaded : bool }.

(** What the three supported providers answer. *)
Record moderation_service := {
  ms_openai : string → option (list (list (string * Q)));
  ms_azure : string → option (list (option string * Q));
  ms_granite : string → option string }.

Definition dashes (s : string) : string :=
  replace_char (ascii_of_nat 95) (ascii_of_nat 45) (replace_char (ascii_of_nat 47) (ascii_of_nat 45) s).
Definition _openai (results : list (list (string * Q))) : list (string * Q) :=
  (λ cs, (dashes cs.1, cs.2)) <$> mjoin results.
Definition _azure (items : list (option string * Q)) : list (string * Q) :=
  (λ i, (lower (default "unknown" i.1), (i.2 / 6)%Q)) <$> items.
Definition _granite (response_text : string) : list (string * Q) :=
  (λ cat, (cat, 1%Q)) <$> keep (λ cat, contains (lower response_text) cat) _DEFAULT_CATEGORIES.

Definition _call_provider (p : ContentModerationPlugin) (s : moderation_service) (text : string) : list (string * Q) :=
  if bool_decide (cmp_provider p = "openai") then default [] (_openai <$> ms_openai s text)
  else if bool_decide (cmp_provider p = "azure") then default [] (_azure <$> ms_azure s text)
  else if bool_decide (cmp_provider p = "granite") then default [] (_granite <$> ms_granite s text)
  else [].
Definition triggered (p : ContentModerationPlugin) (flagged : list (string * Q)) : list (string * Q) :=
  keep (λ cs, Qle_bool (cmp_threshold p) cs.2) (keep (λ cs, bool_decide (cs.1 ∈ cmp_categories p)) flagged).
Definition _moderate (p : ContentModerationPlugin) (s : moderation_service) (c : PluginContext) (text phase : string)
  : exn + PluginContext :=
  if negb (cmp_loaded p) then inr c
  else match triggered p (_call_provider p s text) with
       | [] => inr c
       | hits =>
           if bool_decide (cmp_action p = "block")
           then inl (ValueError ("Content moderation: flagged categories — " +:+ str_join ", " (hits.*1)))
           else inr (set_md ("moderation_" +:+ phase) (PList (PStr <$> hits.*1)) c)
       end.
Definition moderation_text (arguments : odict string pyval) : option string :=
  match List.find (λ k, match dget arguments k with Some (PStr s) => negb (bool_decide (s = "")) | _ => false end)
          ["prompt"; "text"; "message"; "content"; "query"; "input"] with
  | Some k => match dget arguments k with Some (PStr s) => Some s | _ => None end
  | None => None
  end.
Definition moderation_pre (p : ContentModerationPlugin) (s : moderation_service) (phase : string) (c : PluginContext) : exn + PluginContext :=
  match moderation_text (px_arguments c) with Some t => _moderate p s c t phase | None => inr c end.
Definition moderation_tool_post_invoke (p : ContentModerationPlugin) (s : moderation_service) (c : PluginContext) : exn + PluginContext :=
  match str_result c with
  | Some t => if bool_decide (t = "") then inr c else _moderate p s c t "tool_post_invoke"
  | None => inr c
  end.

(** ** LLMGuard (llmguard.py) *)

Record LLMGuardPlugin := { lg_threshold : Q; lg_block : bool; lg_loaded : bool }.
(** The first result at or over the threshold blocks; otherwise all are noted.
    [score_text] is the value of a score in the metadata. *)
Fixpoint llm_results (p : LLMGuardPlugin) (score_value : Q → pyval) (phase : string) (items : list (string * Q)) (c : PluginContext)
  : exn + PluginContext :=
  match items with
  | [] => inr c
  | (scanner, score) :: items' =>
      if Qle_bool (lg_threshold p) score then
        if lg_block p then inl (ValueError ("LLMGuard: " +:+ scanner +:+ " detected during " +:+ phase))
        else llm_results p score_value phase items' (set_md ("llmguard_" +:+ scanner +:+ "_" +:+ phase) (score_value score) c)
      else llm_results p score_value phase items' c
  end.
Definition llm_scan (p : LLMGuardPlugin) (score_value : Q → pyval) (ask : string → option (list (string * Q))) (c : PluginContext)
    (text phase : string) : exn + PluginContext :=
  if negb (lg_loaded p) then inr c
  else match ask text with
       | None => inr c
       | Some items => llm_results p score_value phase items c
       end.
Definition is_text (v : pyval) : option string := match v with PStr s => Some s | _ => None end.
Definition llm_text (arguments : odict string pyval) : string :=
  match List.find (λ k, match dget arguments k with Some (PStr _) => true | _ => false end)
          ["prompt"; "text"; "message"; "content"; "query"] with
  | Some k => match dget arguments k with Some (PStr s) => s | _ => "" end
  | None => str_join " " (omap is_text (dvalues arguments))
  end.
Definition llm_prompt_pre_fetch (p : LLMGuardPlugin) (score_value : Q → pyval) (ask : string → option (list (string * Q)))
    (c : PluginContext) : exn + PluginContext :=
  let t := llm_text (px_arguments c) in
  if bool_decide (t = "") then inr c else llm_scan p score_value ask c t "pre_fetch".
Definition llm_prompt_post_fetch (p : LLMGuardPlugin) (score_value : Q → pyval) (ask : string → option (list (string * Q)))
    (c : PluginContext) : exn + PluginContext :=
  match str_result c with
  | Some t => if bool_decide (t = "") then inr c else llm_scan p score_value ask c t "post_fetch"
  | None => inr c
  end.

(** ** Retry with backoff (builtins/retry_with_backoff.py) *)

(** [delay] is the rounded delay of an attempt. *)
Definition retry_post_invoke (max_retries : Z) (delay : Z → pyval) (c : PluginContext) : PluginContext :=
  if negb (md_truthy c "error") then with_metadata (ddel (px_metadata c) "retry_attempt") c
  else
    let attempt := match dget (px_metadata c) "retry_attempt" with Some (MVal (PInt n)) => n | _ => 0 end in
    if attempt >=? max_retries then set_md "retries_exhausted" (PBool true) c
    else set_md "retry_suggested" (PBool true) (set_md "retry_delay" (delay attempt)
           (set_md "retry_attempt" (PInt (attempt + 1)) c)).

(** ** Properties *)

(** *** What OPA sees *)

Lemma height_fmap_list (f : pyval → pyval) l n :
  Forall (λ v, height (f v) <= n) l → 0 <= n → height (PList (f <$> l)) <= 1 + n.
Proof.
  intros Hl Hn. induction Hl as [|v l Hv _ IH]; [simpl; lia|]. rewrite fmap_cons, height_list_cons. lia.
Qed.
Lemma height_fmap_dict (f : pyval → pyval) (d : list (string * pyval)) n :
  Forall (λ kv, height (f kv.2) <= n) d → 0 <= n → height (PDict ((λ kv, (kv.1, f kv.2)) <$> d)) <= 1 + n.
Proof.
  intros Hd Hn. induction Hd as [|[k v] d Hv _ IH]; [simpl; lia|]. rewrite fmap_cons, height_dict_cons. simpl in *. lia.
Qed.

(** The arguments in a request are nested at most five levels deep, and those
    nested less deep are sent as they are. *)
Lemma sanitize_height n v : height (_sanitize n v) <= Z.of_nat n.
Proof.
  revert v. induction n as [|n IH]; intros v; [simpl; lia|]. destruct v as [| | | |l|d]; try (simpl; lia).
  - cbn [_sanitize]. pose proof (height_fmap_list (_sanitize n) l (Z.of_nat n)) as H. rewrite Nat2Z.inj_succ.
    etrans; [apply H|]; [|lia|lia]. apply Forall_forall. intros; apply IH.
  - cbn [_sanitize]. pose proof (height_fmap_dict (_sanitize n) d (Z.of_nat n)) as H. rewrite Nat2Z.inj_succ.
    etrans; [apply H|]; [|lia|lia]. apply Forall_forall. intros; apply IH.
Qed.
Lemma sanitize_shallow v n : height v < Z.of_nat n → _sanitize n v = v.
Proof.
  revert n. induction v as [| | | |l IH|d IH] using pyval_nested_ind; intros [|n] Hn;
    try (pose proof (height_nonneg (PList l)); lia); try (pose proof (height_nonneg (PDict d)); lia); try done;
    try (simpl in Hn; lia).
  - cbn [_sanitize]. f_equal. induction IH as [|v l Hv _ IHl]; [done|]. rewrite height_list_cons in Hn.
    rewrite fmap_cons, Hv by lia. rewrite IHl; [done|]. lia.
  - cbn [_sanitize]. f_equal. induction IH as [|[k v] d Hv _ IHd]; [done|]. rewrite height_dict_cons in Hn.
    rewrite fmap_cons. simpl in Hv |- *. rewrite Hv by lia. rewrite IHd; [done|]. lia.
Qed.

(** *** The decision point *)

Record pdp_call := { pd_ask : string → string → pyval → option pyval; pd_now : Z; pd_now' : Z; pd_phase : string; pd_ctx : PluginContext }.
Definition pdp_do (p : UnifiedPDPPlugin) (m : pdp_cache) (k : pdp_call) : (exn + PluginContext) * pdp_cache :=
  _decide p (pd_ask k) (pd_now k) (pd_now' k) (pd_phase k) (pd_ctx k) m.
Definition pdp_run (p : UnifiedPDPPlugin) (calls : list pdp_call) : pdp_cache := foldl (λ m k, (pdp_do p m k).2) [] calls.
Definition call_key (k : pdp_call) : string := pdp_key (pd_ctx k) (pd_phase k).
Definition call_verdict (p : UnifiedPDPPlugin) (k : pdp_call) : bool :=
  _combine p (_query_engines p (pd_ask k) (pd_ctx k) (pd_phase k)).

(** The result and the cache of a call. *)
Lemma pdp_do_cases p m k :
  (∃ ts b, dget m (call_key k) = Some (ts, b) ∧ pd_now k - ts < pdp_cache_ttl p ∧
     (pdp_do p m k).2 = m ∧ (is_Some (match (pdp_do p m k).1 with inr c => Some c | inl _ => None end) ↔ b = true)) ∨
  ((pdp_do p m k).2 = dset m (call_key k) (pd_now' k, call_verdict p k) ∧
   (is_Some (match (pdp_do p m k).1 with inr c => Some c | inl _ => None end) ↔ call_verdict p k = true)).
Proof.
  unfold pdp_do, _decide, call_verdict, call_key. rewrite run_get. cbv zeta.
  set (fresh := put_state _ ≫= _).
  assert ((fresh m).2 = dset m (pdp_key (pd_ctx k) (pd_phase k)) (pd_now' k, _combine p (_query_engines p (pd_ask k) (pd_ctx k) (pd_phase k))) ∧
    (is_Some (match (fresh m).1 with inr c => Some c | inl _ => None end) ↔
     _combine p (_query_engines p (pd_ask k) (pd_ctx k) (pd_phase k)) = true)) as Hf.
  { unfold fresh. rewrite run_bind. cbn. destruct (_combine p _); cbn; (split; [done|]); split; try done; eauto; by intros [? ?]. }
  destruct (dget m _) as [[ts b]|]; [|by right]. destruct (pd_now k - ts <? pdp_cache_ttl p) eqn:E; [|by right].
  left. reflect_bools. exists ts, b. split_and!; [done|done|by destruct b|]. destruct b; cbn; split; try done; eauto; by intros [? ?].
Qed.

Lemma pdp_cached p calls key ts b :
  dget (pdp_run p calls) key = Some (ts, b) →
  ∃ k, k ∈ calls ∧ call_key k = key ∧ pd_now' k = ts ∧ call_verdict p k = b.
Proof.
  induction calls as [|k calls IH] using rev_ind; [done|]. unfold pdp_run. rewrite foldl_app. cbn [foldl].
  fold (pdp_run p calls). destruct (pdp_do_cases p (pdp_run p calls) k) as [(ts' & b' & _ & _ & -> & _)|[-> _]].
  - intros (k' & Hk & ?)%IH. exists k'. set_solver.
  - rewrite dget_dset. case_decide as Ek; [intros [= <- <-]; exists k; set_solver|].
    intros (k' & Hk & ?)%IH. exists k'. set_solver.
Qed.

Lemma decision_allows p ask c phase e :
  pdp_default_decision p = false → de_allow (engine_decision p ask c phase e) = true →
  ∃ data, ask (engine_endpoint e) (en_api_key e) (pdp_payload c phase) = Some (PDict data) ∧ engine_allows false data = true.
Proof. intros Hd. unfold engine_decision. rewrite Hd. repeat case_match; simpl; intros; simplify_eq; eauto. Qed.

(** The unified decision point fails closed when it is told to.  With the
    default to deny, and any mode other than the two permissive ones, a request
    passes only if every enabled engine was asked about a request with the same
    server, capability and phase, in this call or less than the time to live
    ago, and answered with a decision that allows it. *)
Theorem pdp_allows_only_agreed (engines : list pdp_engine) (mode : string) (ttl : Z) (calls : list pdp_call) (k : pdp_call)
    (c : PluginContext) (Hmode : mode ∉ ["any_allow"; "first_match"])
    (Hrun : (pdp_do (new_pdp engines mode ttl false) (pdp_run (new_pdp engines mode ttl false) calls) k).1 = inr c) :
  ∃ k', (k' = k ∨ k' ∈ calls ∧ pd_now k - pd_now' k' < ttl) ∧ call_key k' = call_key k ∧
    (∃ e, e ∈ engines ∧ en_enabled e = true) ∧
    ∀ e, e ∈ engines → en_enabled e = true →
      ∃ data, pd_ask k' (engine_endpoint e) (en_api_key e) (pdp_payload (pd_ctx k') (pd_phase k')) = Some (PDict data) ∧
              engine_allows false data = true.
Proof.
  set (p := new_pdp engines mode ttl false) in *.
  assert (∃ k', (k' = k ∨ k' ∈ calls ∧ pd_now k - pd_now' k' < ttl) ∧ call_key k' = call_key k ∧ call_verdict p k' = true)
    as (k' & Hk & Hkey & Hv).
  { destruct (pdp_do_cases p (pdp_run p calls) k) as [(ts & b & Hd & Ht & _ & Hb)|[_ Hb]]; rewrite Hrun in Hb.
    - assert (b = true) as -> by (apply Hb; eauto). destruct (pdp_cached p calls _ _ _ Hd) as (k' & ? & ? & <- & ?).
      exists k'. eauto.
    - exists k. split_and!; [by left|done|]. apply Hb. eauto. }
  exists k'. split_and!; [done|done|..]; clear Hrun Hk Hkey; revert Hv; unfold call_verdict, _query_engines, _combine;
    cbn [pdp_engines new_pdp p pdp_mode].
  - destruct (keep en_enabled engines) as [|e es] eqn:E; [done|]. intros _. exists e.
    apply elem_of_keep. rewrite E. left.
  - intros Hv e Hin Hen. assert (e ∈ keep en_enabled engines) as He by (by apply elem_of_keep).
    assert (forallb de_allow (engine_decision p (pd_ask k') (pd_ctx k') (pd_phase k') <$> keep en_enabled engines) = true) as Hall.
    { revert Hv. destruct (keep en_enabled engines); [done|]. cbn [fmap list_fmap].
      rewrite !bool_decide_eq_false_2 by set_solver. done. }
    apply (decision_allows p); [done|]. rewrite forallb_elem_of in Hall. apply Hall, list_elem_of_fmap. by exists e.
Qed.

Definition demo_engine : pdp_engine :=
  {| en_name := "opa"; en_url := "http://opa/"; en_path := "/v1/allow"; en_api_key := ""; en_enabled := true |}.
Definition demo_pdp_call (answer : option pyval) (now : Z) (server cap : string) : pdp_call :=
  {| pd_ask := λ _ _ _, answer; pd_now := now; pd_now' := now; pd_phase := "tool_pre_invoke";
     pd_ctx := {| px_capability_name := cap; px_mcp_method := "call_tool"; px_arguments := []; px_server_name := server;
                  px_metadata := []; px_result := RespNone |} |}.
Definition ok_data (data : list (string * pyval)) : option pyval := Some (PDict data).

Lemma pdp_allows_only_agreed_witness :
  ∃ c k', (pdp_do (new_pdp [demo_engine] "all_must_allow" 60 false)
             (pdp_run (new_pdp [demo_engine] "all_must_allow" 60 false) [demo_pdp_call (ok_data [("result", PBool true)]) 0 "" "t"])
             (demo_pdp_call None 30 "" "t")).1 = inr c ∧
    call_key k' = call_key (demo_pdp_call None 30 "" "t").
Proof.
  eexists. destruct (pdp_allows_only_agreed [demo_engine] "all_must_allow" 60
    [demo_pdp_call (ok_data [("result", PBool true)]) 0 "" "t"] (demo_pdp_call None 30 "" "t")
    (set_md "pdp_tool_pre_invoke" (PStr "allow(cached)") (pd_ctx (demo_pdp_call None 30 "" "t")))) as (k' & _ & Hk & _).
  - by_decide.
  - vm_compute. reflexivity.
  - exists k'. split; [vm_compute; reflexivity|exact Hk].
Defined.

(** With the default to allow, an engine that fails counts as one that allows:
    one failure is enough for [any_allow], although every engine that answered
    denied, and [first_match] takes the failed engine as the first to respond. *)
Definition second_engine : pdp_engine :=
  {| en_name := "cedar"; en_url := "http://cedar"; en_path := ""; en_api_key := ""; en_enabled := true |}.
Definition first_fails (url key : string) (v : pyval) : option pyval :=
  if bool_decide (url = "http://cedar") then ok_data [("allow", PBool false)] else None.
Lemma failed_engine_allows mode : mode ∈ ["any_allow"; "first_match"] →
  let p := new_pdp [demo_engine; second_engine] mode 60 true in
  _combine p (_query_engines p first_fails (pd_ctx (demo_pdp_call None 0 "" "t")) "tool_pre_invoke") = true.
Proof. rewrite !elem_of_cons, elem_of_nil. by intros [->|[->|[]]]. Qed.

(** Different servers and capabilities can share a cached decision. *)
Lemma pdp_key_collision :
  pdp_key (pd_ctx (demo_pdp_call None 0 "files" "read:secret")) "tool_post_invoke" =
  pdp_key (pd_ctx (demo_pdp_call None 0 "files:read" "secret")) "tool_post_invoke".
Proof. reflexivity. Qed.

(** *** The format of the scanner *)

Definition from_bytes4 (a b c d : ascii) : nat :=
  Z.to_nat (Z.of_nat (code a) * 16777216 + Z.of_nat (code b) * 65536 + Z.of_nat (code c) * 256 + Z.of_nat (code d)).
(** A reader of the stream, as the daemon documents it: chunks with their length
    in front, up to an empty one. *)
Fixpoint read_chunks (fuel : nat) (l : list ascii) : option (list ascii) :=
  match fuel, l with
  | S f, a :: b :: c :: d :: rest =>
      match from_bytes4 a b c d with
      | O => if bool_decide (rest = []) then Some [] else None
      | n => if Nat.ltb (length rest) n then None
             else (app (take n rest)) <$> read_chunks f (drop n rest)
      end
  | _, _ => None
  end.
Definition read_instream (l : list ascii) : option (list ascii) :=
  if bool_decide (_INSTREAM_CMD `prefix_of` l) then read_chunks (S (length l)) (drop (length _INSTREAM_CMD) l) else None.

Lemma code_byte z : Z.of_nat (code (byte z)) = z mod 256.
Proof.
  unfold code, byte. pose proof (Z.mod_pos_bound z 256 ltac:(lia)).
  rewrite nat_ascii_embedding by lia. lia.
Qed.
Lemma from_to_bytes4 n : Z.of_nat n < 4294967296 →
  from_bytes4 (byte (Z.of_nat n / 16777216)) (byte (Z.of_nat n / 65536)) (byte (Z.of_nat n / 256)) (byte (Z.of_nat n)) = n.
Proof.
  intros Hn. unfold from_bytes4. rewrite !code_byte. set (z := Z.of_nat n) in *. assert (0 <= z) by lia.
  pose proof (Z.div_mod z 256 ltac:(lia)). pose proof (Z.div_mod (z / 256) 256 ltac:(lia)).
  pose proof (Z.div_mod (z / 65536) 256 ltac:(lia)).
  replace (z / 65536) with (z / 256 / 256) in * by (rewrite Z.div_div by lia; done).
  replace (z / 16777216) with (z / 256 / 256 / 256) in * by (rewrite !Z.div_div by lia; done).
  assert (z / 256 / 256 / 256 < 256) by (rewrite !Z.div_div by lia; apply Z.div_lt_upper_bound; lia).
  assert (0 <= z / 256 / 256 / 256) by (repeat apply Z.div_pos; lia).
  rewrite (Z.mod_small (z / 256 / 256 / 256)) by lia. lia.
Qed.

Lemma read_frame f chunk rest : chunk ≠ [] → (length chunk ≤ _MAX_CHUNK)%nat →
  read_chunks (S f) (frame chunk ++ rest) = (app chunk) <$> read_chunks f rest.
Proof.
  intros Hne Hl. unfold frame, to_bytes4. cbn [app read_chunks]. rewrite from_to_bytes4 by (unfold _MAX_CHUNK in Hl; lia).
  destruct chunk as [|c chunk]; [done|]. set (n := length (c :: chunk)). change (length (c :: chunk)) with n.
  assert (n = S (length chunk)) as En by done. rewrite En at 1. rewrite <-En.
  replace (Nat.ltb (length ((c :: chunk) ++ rest)) n) with false
    by (symmetry; apply Nat.ltb_ge; rewrite length_app; lia).
  by rewrite take_app_length', drop_app_length' by done.
Qed.

Lemma read_chunk_loop f n data : (length data ≤ n)%nat → (n < f)%nat →
  read_chunks f (mjoin (frame <$> chunk_loop n data) ++ to_bytes4 0) = Some data.
Proof.
  revert f data. induction n as [|n IH]; intros [|f] data Hl Hf; try lia.
  - destruct data; [|simpl in Hl; lia]. vm_compute. reflexivity.
  - destruct data as [|c data]; [vm_compute; reflexivity|]. cbn [chunk_loop fmap list_fmap mjoin list_join].
    rewrite <-app_assoc. rewrite read_frame.
    + rewrite IH; [by simpl; rewrite take_drop| |lia]. rewrite length_drop. unfold _MAX_CHUNK. simpl in *. lia.
    + unfold _MAX_CHUNK. simpl. by destruct (Z.to_nat 8192) eqn:E; [lia|].
    + rewrite length_take. lia.
Qed.

Lemma frame_length chunk : length (frame chunk) = (4 + length chunk)%nat.
Proof. unfold frame. by rewrite length_app. Qed.
Lemma chunk_loop_length n data : (length data ≤ n)%nat → (length data ≤ length (mjoin (frame <$> chunk_loop n data)))%nat.
Proof.
  revert data. induction n as [|n IH]; intros data Hl; [destruct data; simpl in *; lia|].
  destruct data as [|c data]; [simpl; lia|].
  change (mjoin (frame <$> chunk_loop (S n) (c :: data)))
    with (frame (take _MAX_CHUNK (c :: data)) ++ mjoin (frame <$> chunk_loop n (drop _MAX_CHUNK (c :: data)))).
  specialize (IH (drop _MAX_CHUNK (c :: data))). rewrite length_drop in IH.
  rewrite length_app, frame_length, length_take. assert (1 ≤ _MAX_CHUNK)%nat as Hm by (unfold _MAX_CHUNK; lia).
  cbn [length] in Hl, IH |- *. specialize (IH ltac:(lia)). lia.
Qed.

(** The stream that is written for a content is read back as that content. *)
Theorem instream_roundtrip (data : list ascii) : read_instream (instream data) = Some data.
Proof.
  unfold read_instream, instream. rewrite bool_decide_eq_true_2 by (by eexists). rewrite drop_app_length.
  apply read_chunk_loop; [lia|]. rewrite !length_app.
  assert (length data ≤ length (mjoin (frame <$> chunk_loop (length data) data)))%nat; [|lia].
  by apply chunk_loop_length.
Qed.

(** *** What modelling showed *)

(** An answer of the daemon that is an error, such as a content over its limit,
    counts as clean. *)
Lemma clamav_error_passes p c data phase :
  clamav_scan p (λ _, Some "INSTREAM size limit exceeded. ERROR") c data phase = inr c.
Proof. reflexivity. Qed.

(** The lists of domains are compared with the network location, which holds the
    port and the user: a domain of the deny list passes with either. *)
Definition strict_vt : VirusTotalPlugin :=
  {| vt_threshold := 3; vt_cache_ttl := 300; vt_allow_list := []; vt_deny_list := ["evil.example"]; vt_loaded := false |}.
Lemma vt_deny_list_with_port :
  (_check_url (λ _, true) (λ _, None) strict_vt (λ _, VtFailed) 0 0 "http://evil.example/x" []).1 =
    inl (ValueError "VirusTotal: URL on deny list: evil.example") ∧
  (_check_url (λ _, true) (λ _, None) strict_vt (λ _, VtFailed) 0 0 "http://evil.example:80/x" []).1 = inr () ∧
  (_check_url (λ _, true) (λ _, None) strict_vt (λ _, VtFailed) 0 0 "http://u@evil.example/x" []).1 = inr ().
Proof. split_and!; vm_compute; reflexivity. Qed.

(** Two of the five documented providers are not implemented, and an action
    other than blocking changes nothing in the result. *)
Lemma moderation_unsupported p s t : cmp_provider p ∈ ["aws"; "watson"] → _call_provider p s t = [].
Proof. unfold _call_provider. rewrite !elem_of_cons, elem_of_nil. by intros [->|[->|[]]]. Qed.
Lemma moderation_redact_keeps p s c t phase c' :
  cmp_action p = "redact" → _moderate p s c t phase = inr c' → px_result c' = px_result c ∧ px_arguments c' = px_arguments c.
Proof. intros Ha. unfold _moderate. rewrite Ha. repeat case_match; try done; by intros [= <-]. Qed.

(** The retry plugin returns the result it was given. *)
Lemma retry_never_resubmits n delay c : px_result (retry_post_invoke n delay c) = px_result c.
Proof. unfold retry_post_invoke. by repeat case_match. Qed.
