(* ===== verification/Groups.v ===== *)
(** * Server groups (bridge/groups.py)

    Two indexes of the same relation, from a server to its group and from a
    group to its servers, kept in step by every operation. *)
From S2P Require Import Prelude PyDict PyStr.

Definition DEFAULT_GROUP : string := "default".

Record GroupManager := { _server_group : gmap string string; _group_servers : gmap string (gset string) }.
Definition no_groups : GroupManager := {| _server_group := ∅; _group_servers := ∅ |}.

(** [self._group_servers[group].add(name)] of the [defaultdict] *)
Definition put_member (group name : string) (gs : gmap string (gset string)) : gmap string (gset string) :=
  <[group := {[name]} ∪ default ∅ (gs !! group)]> gs.
(** [discard] and [del] of an empty group *)
Definition drop_member (group name : string) (gs : gmap string (gset string)) : gmap string (gset string) :=
  let rest := default ∅ (gs !! group) ∖ {[name]} in
  if decide (rest = ∅) then delete group gs else <[group := rest]> gs.

(** [getattr(cfg, "group", DEFAULT_GROUP) or DEFAULT_GROUP]; the constructor *)
Definition new_group_manager (backends : odict string (option string)) : GroupManager :=
  foldl (λ m kv,
    let group := str_or kv.2 DEFAULT_GROUP in
    {| _server_group := <[kv.1 := group]> (_server_group m); _group_servers := put_member group kv.1 (_group_servers m) |})
    no_groups backends.

Definition groups (m : GroupManager) : list string := sorted_names (map_to_list (_group_servers m)).*1.
Definition group_count (m : GroupManager) : nat := size (_group_servers m).
Definition group_of (m : GroupManager) (server : string) : string := default DEFAULT_GROUP (_server_group m !! server).
Definition servers_in (m : GroupManager) (group : string) : gset string := default ∅ (_group_servers m !! group).
Definition all_servers (m : GroupManager) : gset string := dom (_server_group m).
Definition group_summary (m : GroupManager) : odict string (list string) :=
  (λ g, (g, sorted_names (elements (servers_in m g)))) <$> groups m.

Definition add_server (name group : string) (m : GroupManager) : GroupManager :=
  let gs := match _server_group m !! name with
            | Some old => if decide (old = group) then _group_servers m else drop_member old name (_group_servers m)
            | None => _group_servers m
            end in
  {| _server_group := <[name := group]> (_server_group m); _group_servers := put_member group name gs |}.

Definition remove_server (name : string) (m : GroupManager) : GroupManager :=
  match _server_group m !! name with
  | Some group => {| _server_group := delete name (_server_group m);
                     _group_servers := drop_member group name (_group_servers m) |}
  | None => m
  end.

Inductive group_op := AddServer (name group : string) | RemoveServer (name : string).
Definition group_step (m : GroupManager) (o : group_op) : GroupManager :=
  match o with AddServer n g => add_server n g m | RemoveServer n => remove_server n m end.

(** The specification: a map from servers to groups. *)
Definition configured (backends : list (string * option string)) : gmap string string :=
  list_to_map ((λ kv : string * option string, (kv.1, str_or kv.2 DEFAULT_GROUP)) <$> backends).
Definition spec_step (f : gmap string string) (o : group_op) : gmap string string :=
  match o with AddServer n g => <[n := g]> f | RemoveServer n => delete n f end.

(** The index of groups is the inverse of the map, without empty groups. *)
Definition inverse (f : gmap string string) (gs : gmap string (gset string)) : Prop :=
  (∀ g n, n ∈ default ∅ (gs !! g) ↔ f !! n = Some g) ∧ (∀ g X, gs !! g = Some X → X ≠ ∅).

Lemma inverse_put f gs g n : f !! n = None ∨ f !! n = Some g → inverse f gs → inverse (<[n := g]> f) (put_member g n gs).
Proof.
  intros Hn [Hi He]. split.
  - intros g' n'. unfold put_member. destruct (decide (g' = g)) as [->|Hg].
    + rewrite lookup_insert_eq. simpl. rewrite elem_of_union, elem_of_singleton, Hi.
      destruct (decide (n' = n)) as [->|Hne]; [by rewrite lookup_insert_eq; naive_solver|].
      rewrite lookup_insert_ne by done. naive_solver.
    + rewrite lookup_insert_ne by done. rewrite Hi. destruct (decide (n' = n)) as [->|Hne].
      * rewrite lookup_insert_eq. naive_solver.
      * by rewrite lookup_insert_ne.
  - intros g' X. unfold put_member. destruct (decide (g' = g)) as [->|Hg].
    + rewrite lookup_insert_eq. intros [= <-]. set_solver.
    + rewrite lookup_insert_ne by done. apply He.
Qed.

Lemma inverse_drop f gs g n : f !! n = Some g → inverse f gs → inverse (delete n f) (drop_member g n gs).
Proof.
  intros Hn [Hi He]. unfold drop_member. set (rest := default ∅ (gs !! g) ∖ {[n]}).
  assert (Hl : ∀ g', default ∅ ((if decide (rest = ∅) then delete g gs else <[g := rest]> gs) !! g') =
                     if decide (g' = g) then rest else default ∅ (gs !! g')).
  { intros g'. destruct (decide (rest = ∅)) as [E|E]; destruct (decide (g' = g)) as [->|Hg];
      rewrite ?lookup_delete_eq, ?lookup_insert_eq, ?lookup_delete_ne, ?lookup_insert_ne by done; [by rewrite E|done..]. }
  split.
  - intros g' n'. rewrite Hl. destruct (decide (n' = n)) as [->|Hne].
    + rewrite lookup_delete_eq. destruct (decide (g' = g)) as [->|Hg]; [split; [unfold rest; intros [_ H]%elem_of_difference; by destruct H; apply elem_of_singleton|done]|]. rewrite Hi. naive_solver.
    + rewrite lookup_delete_ne by done. destruct (decide (g' = g)) as [->|Hg]; [unfold rest|by rewrite Hi].
      rewrite elem_of_difference, elem_of_singleton, Hi. naive_solver.
  - intros g' X. destruct (decide (rest = ∅)) as [E|E].
    + destruct (decide (g' = g)) as [->|Hg]; [by rewrite lookup_delete_eq|]. rewrite lookup_delete_ne by done. apply He.
    + destruct (decide (g' = g)) as [->|Hg]; [rewrite lookup_insert_eq; naive_solver|].
      rewrite lookup_insert_ne by done. apply He.
Qed.

Definition group_ok (f : gmap string string) (m : GroupManager) : Prop := _server_group m = f ∧ inverse f (_group_servers m).

Lemma group_step_ok f m o : group_ok f m → group_ok (spec_step f o) (group_step m o).
Proof.
  intros [<- Hi]. destruct o as [n g|n]; simpl.
  - split; [done|]. simpl. destruct (_server_group m !! n) as [old|] eqn:E; [|apply inverse_put; auto].
    case_decide; subst; [apply inverse_put; auto|].
    rewrite <-insert_delete_eq. apply inverse_put; [left; apply lookup_delete_eq|by apply inverse_drop].
  - unfold remove_server. destruct (_server_group m !! n) as [g|] eqn:E; [split; [done|by apply inverse_drop]|].
    split; [symmetry; by apply delete_id|by rewrite delete_id].
Qed.

Lemma new_group_manager_ok backends : dict_wf backends →
  group_ok (configured backends) (new_group_manager backends).
Proof.
  unfold new_group_manager, dict_wf, dkeys. intros Hwf. induction backends as [|kv backends IH] using rev_ind.
  - split; [done|]. split; intros; simpl in *; by rewrite ?lookup_empty in *.
  - rewrite fmap_app in Hwf. apply NoDup_app in Hwf as (Hwf & Hd & _). destruct (IH Hwf) as [Hs Hi].
    unfold configured. rewrite foldl_app, fmap_app. cbn [foldl fmap list_fmap].
    assert (Hfresh : kv.1 ∉ ((λ kv : string * option string, (kv.1, str_or kv.2 DEFAULT_GROUP)) <$> backends).*1).
    { rewrite <-list_fmap_compose. intros H. by apply (Hd kv.1 H), list_elem_of_singleton. }
    rewrite list_to_map_snoc by done. split; [simpl; by rewrite Hs|]. simpl. apply inverse_put; [|done].
    left. by apply not_elem_of_list_to_map_1.
Qed.

Lemma run_groups_ok ops f m : group_ok f m → group_ok (foldl spec_step f ops) (foldl group_step m ops).
Proof. revert f m. induction ops as [|o ops IH]; intros f m H; simpl; [done|]. by apply IH, group_step_ok. Qed.

Lemma elem_of_groups m g : g ∈ groups m ↔ is_Some (_group_servers m !! g).
Proof.
  unfold groups. rewrite elem_of_sorted_names, list_elem_of_fmap. split.
  - intros ([k X] & -> & H%elem_of_map_to_list). eauto.
  - intros [X H]. exists (g, X). by rewrite elem_of_map_to_list.
Qed.

(** The group manager is a map from servers to groups.  From a manager built
    for any configuration, after any sequence of registrations and removals:
    [group_of] is the map; the servers listed for a group are exactly those the
    map sends there; the groups listed are exactly those with a server, once
    each, in alphabetical order, and their number is the group count. *)
Theorem groups_refine_map (backends : odict string (option string)) (ops : list group_op) (Hwf : dict_wf backends) :
  let m := foldl group_step (new_group_manager backends) ops in
  let f := foldl spec_step (configured backends) ops in
  (∀ n, group_of m n = default DEFAULT_GROUP (f !! n)) ∧ all_servers m = dom f ∧
  (∀ g n, n ∈ servers_in m g ↔ f !! n = Some g) ∧
  (∀ g, g ∈ groups m ↔ ∃ n, f !! n = Some g) ∧ Sorted String.le (groups m) ∧ length (groups m) = group_count m.
Proof.
  intros m f. destruct (run_groups_ok ops _ _ (new_group_manager_ok _ Hwf)) as [Hs [Hi He]]. fold m f in Hs, Hi, He.
  unfold group_of, all_servers, servers_in. rewrite Hs. split_and!; try done.
  - intros g. rewrite elem_of_groups. split.
    + intros [X HX]. destruct (set_choose_L X) as [n Hn]; [by eapply He|]. exists n. apply Hi. by rewrite HX.
    + intros [n Hn]. apply Hi in Hn. destruct (_group_servers m !! g); [eauto|]. simpl in Hn. set_solver.
  - apply sorted_names_sorted.
  - unfold groups, group_count. rewrite sorted_names_perm, length_fmap. by rewrite length_map_to_list.
Qed.

Lemma groups_refine_map_witness :
  let m := foldl group_step (new_group_manager [("a", Some "eu"); ("b", None); ("c", Some "")])
             [AddServer "b" "eu"; RemoveServer "c"] in
  groups m = ["eu"] ∧ servers_in m "eu" = {["a"; "b"]} ∧ length (groups m) = group_count m.
Proof.
  intros m. split; [vm_compute; reflexivity|split; [vm_compute; reflexivity|]].
  apply (groups_refine_map [("a", Some "eu"); ("b", None); ("c", Some "")] [AddServer "b" "eu"; RemoveServer "c"]).
  by_decide.
Defined.
