(* ===== verification/Skills.v ===== *)
(** * Skills (skills/manifest.py, skills/manager.py)

    Skill packages in a directory: their manifests, the table of installed
    skills, and the file that remembers which of them are disabled.

    Paths are absolute, as lists of components; the disk is the table of the
    directories that hold a [manifest.json], with its text, and the text of the
    state file.  The skills directory, the parameter [base], is not the root of
    the file system.  Input and output succeed, there are no symbolic links, a
    source directory holds one manifest, and names in manifests are strings
    ([STypeError] stands for what a name of another type leads to). *)
From S2P Require Import Prelude PyDict Effects PyStr Json.

Inductive SkillStatus := ENABLED | DISABLED.
#[export] Instance SkillStatus_eq_dec : EqDecision SkillStatus.
Proof. solve_decision. Defined.

Inductive skill_exc := SkillManifestError (msg : string) | SValueError (msg : string) | SAttributeError | STypeError.

(** ** Manifests *)

Record SkillManifest := {
  sm_name : string; sm_version : pyval; sm_description : pyval; sm_tools : pyval; sm_workflows : pyval;
  sm_config : pyval; sm_dependencies : pyval; sm_author : pyval; sm_license : pyval }.

Definition from_dict (data : odict string pyval) : skill_exc + SkillManifest :=
  let field k def := default def (dget data k) in
  let name := field "name" PNone in
  if negb (truthy name) then inl (SkillManifestError "Skill manifest must have a 'name' field")
  else match name with
       | PStr n =>
           inr {| sm_name := n; sm_version := field "version" (PStr "0.0.0"); sm_description := field "description" (PStr "");
                  sm_tools := field "tools" (PList []); sm_workflows := field "workflows" (PList []);
                  sm_config := field "config" (PDict []); sm_dependencies := field "dependencies" (PList []);
                  sm_author := field "author" (PStr ""); sm_license := field "license" (PStr "") |}
       | _ => inl STypeError
       end.

Definition to_dict (m : SkillManifest) : odict string pyval :=
  [("name", PStr (sm_name m)); ("version", sm_version m); ("description", sm_description m); ("tools", sm_tools m);
   ("workflows", sm_workflows m); ("config", sm_config m); ("dependencies", sm_dependencies m);
   ("author", sm_author m); ("license", sm_license m)].

(** [from_file] on the text of the file *)
Definition from_file (text : string) : skill_exc + SkillManifest :=
  match loads text with
  | None => inl (SkillManifestError "Failed to read manifest")
  | Some (PDict data) => from_dict data
  | Some _ => inl (SkillManifestError "Manifest must be a JSON object")
  end.

(** The number of errors of [validate]; tools that are no list cannot be
    enumerated by position unless they are a text or an object. *)
Definition bad_tool (t : pyval) : bool := match t with PDict d => negb (dmem d "name") | _ => true end.
Definition validate (m : SkillManifest) : skill_exc + nat :=
  let base := ((if bool_decide (sm_name m = "") then 1 else 0) + (if truthy (sm_version m) then 0 else 1))%nat in
  match sm_tools m with
  | PList l => inr (base + length (keep bad_tool l))%nat
  | PStr s => inr (base + length (chars s))%nat
  | PDict d => inr (base + length d)%nat
  | _ => inl STypeError
  end.

(** ** The manager *)

Abbreviation path := (list string) (only parsing).
Record InstalledSkill := { is_manifest : SkillManifest; is_status : SkillStatus; is_path : path }.

Record skill_state := {
  ss_skills : odict string InstalledSkill;
  ss_exists : bool;
  ss_dirs : gmap path string;
  ss_statefile : option string }.
Definition set_skills (t : odict string InstalledSkill) (s : skill_state) : skill_state :=
  {| ss_skills := t; ss_exists := ss_exists s; ss_dirs := ss_dirs s; ss_statefile := ss_statefile s |}.
Abbreviation sm := (M skill_state skill_exc) (only parsing).

Definition status_value (st : SkillStatus) : string := match st with ENABLED => "enabled" | DISABLED => "disabled" end.

Definition _load_state (s : skill_state) : pyval :=
  match ss_statefile s with
  | None => PDict []
  | Some text => default (PDict []) (loads text)
  end.

Definition state_json (t : odict string InstalledSkill) : pyval :=
  PDict ((λ kv, (kv.1, PStr (status_value (is_status kv.2)))) <$> t).
Definition _save_state : sm () :=
  modify (λ s, {| ss_skills := ss_skills s; ss_exists := true; ss_dirs := ss_dirs s;
                  ss_statefile := Some (dumps (Some 2%nat) (state_json (ss_skills s))) |}).

(** [state.get(name, "enabled") == "disabled"]; a state file that is JSON but no
    object has no [get]. *)
Definition status_in (state : pyval) (name : string) : skill_exc + SkillStatus :=
  match state with
  | PDict d => inr (match dget d name with Some (PStr "disabled") => DISABLED | _ => ENABLED end)
  | _ => inl SAttributeError
  end.

(** [os.path.join(skills_dir, name)], resolved *)
Definition path_step (p : path) (c : string) : path :=
  if bool_decide (c = "" ∨ c = ".") then p else if bool_decide (c = "..") then removelast p else p ++ [c].
Definition resolve (base : path) (name : string) : path :=
  foldl path_step (if startswith name "/" then [] else base) (str_split (chr 47) name).

Section manager.
Variable base : path.

(** The loop over the sorted entries: the table so far, and the exception that
    ended it.  An entry with an invalid manifest is skipped. *)
Fixpoint scan (state : pyval) (entries : list (string * string)) (t : odict string InstalledSkill)
  : odict string InstalledSkill * option skill_exc :=
  match entries with
  | [] => (t, None)
  | (entry, text) :: rest =>
      match from_file text with
      | inr m =>
          match status_in state (sm_name m) with
          | inr st => scan state rest (dset t (sm_name m) {| is_manifest := m; is_status := st; is_path := base ++ [entry] |})
          | inl e => (t, Some e)
          end
      | inl (SkillManifestError _) => scan state rest t
      | inl e => (t, Some e)
      end
  end.

(** The entries of the directory that hold a manifest, sorted. *)
Definition entry_of (p : path) : option string :=
  match last p with Some e => if bool_decide (p = base ++ [e]) then Some e else None | None => None end.
Definition sorted_entries (s : skill_state) : list (string * string) :=
  omap (λ e, (λ text, (e, text)) <$> ss_dirs s !! (base ++ [e]))
    (sorted_names (omap entry_of (map_to_list (ss_dirs s)).*1)).

Definition discover : sm (list InstalledSkill) :=
  _ ← modify (set_skills []);
  s ← get_state;
  if negb (ss_exists s) then mret []
  else let r := scan (_load_state s) (sorted_entries s) [] in
       _ ← modify (set_skills r.1);
       match r.2 with None => mret (dvalues r.1) | Some e => raise e end.

(** Iterating over the dependencies, each of them looked up in the table. *)
Definition hashable (v : pyval) : bool := match v with PList _ | PDict _ => false | _ => true end.
Definition dependencies_ok (v : pyval) : bool :=
  match v with PList l => forallb hashable l | PStr _ | PDict _ => true | _ => false end.

(** [source] is the text of the manifest of the source directory, if it has one. *)
Definition install (source : option string) : sm InstalledSkill :=
  match source with
  | None => raise (SkillManifestError "No manifest.json found")
  | Some text =>
      match from_file text with
      | inl e => raise e
      | inr m =>
          match validate m with
          | inl e => raise e
          | inr (S _) => raise (SkillManifestError "Invalid manifest")
          | inr O =>
              if negb (dependencies_ok (sm_dependencies m)) then raise STypeError
              else
                let dest := resolve base (sm_name m) in
                let skill := {| is_manifest := m; is_status := ENABLED; is_path := dest |} in
                _ ← modify (λ s, {| ss_skills := dset (ss_skills s) (sm_name m) skill; ss_exists := true;
                                    ss_dirs := <[dest := text]> (ss_dirs s); ss_statefile := ss_statefile s |});
                _ ← _save_state;
                mret skill
          end
      end
  end.

Definition not_installed (name : string) : skill_exc := SValueError ("Skill '" +:+ name +:+ "' is not installed").

(** [real_path.startswith(real_base + os.sep)] *)
Definition within (p : path) : bool := bool_decide (base `prefix_of` p ∧ base ≠ p).
(** [shutil.rmtree] *)
Definition rmtree (p : path) (dirs : gmap path string) : gmap path string :=
  filter (λ kv, ¬ (p `prefix_of` kv.1)) dirs.

Definition uninstall (name : string) : sm () :=
  s ← get_state;
  match dget (ss_skills s) name with
  | None => raise (not_installed name)
  | Some skill =>
      let present := bool_decide (is_Some (ss_dirs s !! is_path skill)) in
      if present && negb (within (is_path skill))
      then raise (SValueError "Refusing to remove: not within skills directory")
      else
        _ ← modify (λ s, {| ss_skills := ddel (ss_skills s) name; ss_exists := ss_exists s;
                            ss_dirs := if present then rmtree (is_path skill) (ss_dirs s) else ss_dirs s;
                            ss_statefile := ss_statefile s |});
        _save_state
  end.

Definition set_status (st : SkillStatus) (k : InstalledSkill) : InstalledSkill :=
  {| is_manifest := is_manifest k; is_status := st; is_path := is_path k |}.
Definition change_status (st : SkillStatus) (name : string) : sm () :=
  s ← get_state;
  match dget (ss_skills s) name with
  | None => raise (not_installed name)
  | Some skill => _ ← modify (set_skills (dset (ss_skills s) name (set_status st skill))); _save_state
  end.
Definition enable (name : string) : sm () := change_status ENABLED name.
Definition disable (name : string) : sm () := change_status DISABLED name.
End manager.

Definition list_enabled (s : skill_state) : list InstalledSkill :=
  keep (λ k, bool_decide (is_status k = ENABLED)) (dvalues (ss_skills s)).

(** [get_all_tools] for manifests whose tools are lists of objects *)
Definition tool_of (skill : string) (t : pyval) : pyval :=
  match t with
  | PDict d => PDict (if dmem d "name" then dset d "_skill" (PStr skill) else d)
  | _ => t
  end.
Definition get_all_tools (s : skill_state) : list pyval :=
  k ← list_enabled s;
  match sm_tools (is_manifest k) with
  | PList l => tool_of (sm_name (is_manifest k)) <$> l
  | _ => []
  end.

(** [get_all_workflows], for lists of objects as well *)
Definition workflow_of (skill : string) (t : pyval) : pyval :=
  match t with PDict d => PDict (dset d "_skill" (PStr skill)) | _ => t end.
Definition get_all_workflows (s : skill_state) : list pyval :=
  k ← list_enabled s;
  match sm_workflows (is_manifest k) with
  | PList l => workflow_of (sm_name (is_manifest k)) <$> l
  | _ => []
  end.

(** ** Facts *)

Lemma manifest_roundtrip m : sm_name m ≠ "" → from_dict (to_dict m) = inr m.
Proof. intros Hn. destruct m as [n ????????]; simpl in Hn. unfold from_dict, to_dict. simpl. by destruct n. Qed.

(** A name that is one component. *)
Definition plain (n : string) : Prop := (chr 47 ∉ chars n) ∧ n ∉ [""; "."; ".."].

Lemma split_on_plain c l : c ∉ l → split_on c l = [l].
Proof.
  induction l as [|x l IH]; [done|]. intros H. apply not_elem_of_cons in H as [Hx Hl]. simpl.
  rewrite bool_decide_false by congruence. by rewrite IH.
Qed.

Lemma resolve_plain base n : plain n → resolve base n = base ++ [n].
Proof.
  intros [Hs Hn]. unfold resolve, str_split. rewrite (split_on_plain _ _ Hs).
  destruct (startswith n "/") eqn:E.
  { apply startswith_app in E as [r ->]. exfalso. apply Hs. rewrite chars_app. by left. }
  simpl. rewrite text_chars. unfold path_step. rewrite !bool_decide_false by set_solver. done.
Qed.

Section facts.
Context (base : list string).

(** What the directory holds for a name. *)
Definition found (dirs : gmap (list string) string) (n : string) : option (SkillManifest * list string) :=
  text ← dirs !! (base ++ [n]);
  match from_file text with inr m => Some (m, base ++ [n]) | inl _ => None end.
(** A skill directory carries the name of its manifest. *)
Definition tidy_text (n text : string) : Prop :=
  match from_file text with inr m => sm_name m = n | inl (SkillManifestError _) => True | inl _ => False end.
Definition tidy (dirs : gmap (list string) string) : Prop := ∀ n text, dirs !! (base ++ [n]) = Some text → tidy_text n text.

Definition same_place (k : InstalledSkill) : SkillManifest * list string := (is_manifest k, is_path k).
(** The table is what the directory and the state file say. *)
Definition synced (s : skill_state) : Prop :=
  ss_exists s = true ∧ tidy (ss_dirs s) ∧ dict_wf (ss_skills s) ∧
  (∀ n, same_place <$> dget (ss_skills s) n = found (ss_dirs s) n) ∧
  (∀ n k, dget (ss_skills s) n = Some k → status_in (_load_state s) n = inr (is_status k)) ∧
  ∃ d, _load_state s = PDict d.

Lemma entry_of_Some p e : entry_of base p = Some e ↔ p = base ++ [e].
Proof.
  unfold entry_of. split.
  - destruct (last p); [|done]. case_bool_decide; congruence.
  - intros ->. rewrite last_snoc. by rewrite bool_decide_true.
Qed.

Lemma sorted_entries_keys s : NoDup (omap (entry_of base) (map_to_list (ss_dirs s)).*1).
Proof.
  generalize (NoDup_fst_map_to_list (ss_dirs s)). induction ((map_to_list (ss_dirs s)).*1) as [|p l IH]; [constructor|].
  intros [Hp Hl]%NoDup_cons. simpl. destruct (entry_of base p) as [e|] eqn:E; [|auto].
  constructor; [|auto]. apply entry_of_Some in E as ->. intros (q & Hq & Eq%entry_of_Some)%list_elem_of_omap. by subst.
Qed.

Lemma omap_pair_wf (f : string → option string) (l : list string) : NoDup l → dict_wf (omap (λ e, pair e <$> f e) l : list (string * string)).
Proof.
  unfold dict_wf, dkeys. induction 1 as [|x l Hx Hl IH]; simpl; [constructor|].
  destruct (f x); simpl; [|done]. constructor; [|done].
  intros ([y v] & -> & (z & Hz & Ez)%list_elem_of_omap)%list_elem_of_fmap.
  destruct (f z); by simplify_eq/=.
Qed.

Lemma dget_omap_pair (f : string → option string) (l : list string) n : n ∈ l → dget (omap (λ e, pair e <$> f e) l : list (string * string)) n = f n.
Proof.
  induction l as [|x l IH]; [set_solver|]. intros H. simpl.
  destruct (decide (x = n)) as [->|Hne].
  - destruct (f n) eqn:E; simpl; [by rewrite decide_True|]. destruct (decide (n ∈ l)) as [Hn|Hn]; [etrans; [by apply IH|done]|].
    apply dget_None. unfold dkeys. intros ([y v] & -> & (z & Hz & Ez)%list_elem_of_omap)%list_elem_of_fmap.
    destruct (f z); by simplify_eq/=.
  - assert (n ∈ l) by set_solver. destruct (f x); simpl; rewrite ?decide_False by done; auto.
Qed.

Lemma dget_sorted_entries s n : dget (sorted_entries base s) n = ss_dirs s !! (base ++ [n]).
Proof.
  unfold sorted_entries. destruct (ss_dirs s !! (base ++ [n])) as [text|] eqn:E.
  - rewrite (dget_omap_pair (λ e, ss_dirs s !! (base ++ [e]))); [done|].
    apply elem_of_sorted_names, list_elem_of_omap. exists (base ++ [n]). split; [|by apply entry_of_Some].
    apply list_elem_of_fmap. exists (base ++ [n], text). by rewrite elem_of_map_to_list.
  - apply dget_None. unfold dkeys. intros ([y v] & -> & (z & Hz & Ez)%list_elem_of_omap)%list_elem_of_fmap.
    destruct (ss_dirs s !! (base ++ [z])) eqn:Ez'; by simplify_eq/=.
Qed.

Lemma sorted_entries_wf s : dict_wf (sorted_entries base s).
Proof. apply (omap_pair_wf (λ e, ss_dirs s !! (base ++ [e]))). rewrite sorted_names_perm. apply sorted_entries_keys. Qed.

Definition entry_skill (d : odict string pyval) (n text : string) : option InstalledSkill :=
  match from_file text, status_in (PDict d) n with
  | inr m, inr st => Some {| is_manifest := m; is_status := st; is_path := base ++ [n] |}
  | _, _ => None
  end.

Lemma scan_tidy d es : ∀ t, dict_wf es → (∀ n text, (n, text) ∈ es → tidy_text n text) → dict_wf t →
  ∃ t', scan base (PDict d) es t = (t', None) ∧ dict_wf t' ∧
        ∀ n, dget t' n = match dget es n ≫= entry_skill d n with Some k => Some k | None => dget t n end.
Proof.
  induction es as [|[e text] es IH]; intros t Hes Htidy Ht.
  { exists t. simpl. split_and!; [done|done|by intros n]. }
  apply NoDup_cons in Hes as [He Hes].
  assert (Hnone : dget es e = None) by (by apply dget_None).
  assert (H1 := Htidy e text (list_elem_of_here _ _)).
  assert (H2 : ∀ n text', (n, text') ∈ es → tidy_text n text') by (intros; apply Htidy; by right).
  cbn [scan]. unfold tidy_text in H1. destruct (from_file text) as [x|m] eqn:Ef.
  - destruct x; try done. destruct (IH t Hes H2 Ht) as (t' & E & Hw & Hd). exists t'. split_and!; [done|done|].
    intros n. rewrite (Hd n). simpl. destruct (decide (e = n)) as [->|]; [|done].
    rewrite Hnone. simpl. unfold entry_skill. by rewrite Ef.
  - cbn [status_in]. subst e.
    match goal with |- context [scan _ _ _ (dset t ?k ?v)] =>
      destruct (IH (dset t k v) Hes H2 (dict_wf_dset _ _ _ Ht)) as (t' & E & Hw & Hd) end.
    exists t'. split_and!; [exact E|done|]. intros n. rewrite (Hd n). simpl.
    destruct (decide (sm_name m = n)) as [<-|Hne].
    + rewrite Hnone. simpl. unfold entry_skill. rewrite Ef. simpl. by rewrite dget_dset_eq.
    + by rewrite dget_dset_ne.
Qed.

(** Scanning a tidy directory brings the table in step with it. *)
Lemma discover_synced s d : ss_exists s = true → tidy (ss_dirs s) → _load_state s = PDict d →
  ∃ l s', discover base s = (inr l, s') ∧ synced s' ∧ ss_dirs s' = ss_dirs s ∧ _load_state s' = _load_state s ∧
    ∀ n, dget (ss_skills s') n = ss_dirs s !! (base ++ [n]) ≫= entry_skill d n.
Proof.
  intros Hx Ht Hd. unfold discover. rewrite run_bind. simpl. rewrite run_bind. simpl. rewrite Hx. simpl.
  change (_load_state (set_skills [] s)) with (_load_state s).
  change (sorted_entries base (set_skills [] s)) with (sorted_entries base s). rewrite Hd.
  destruct (scan_tidy d (sorted_entries base s) []) as (t' & E & Hw & Hg); [apply sorted_entries_wf| |constructor|].
  { intros n text Hin. apply Ht. rewrite <-dget_sorted_entries. apply elem_dget; [apply sorted_entries_wf|done]. }
  rewrite E. simpl.
  assert (Hdg : ∀ n, dget t' n = ss_dirs s !! (base ++ [n]) ≫= entry_skill d n).
  { intros n. rewrite (Hg n), dget_sorted_entries. simpl. by destruct (_ ≫= _). }
  eexists _, _. split_and!; [reflexivity| |done|done|done].
  split_and!; simpl; try done.
  - intros n. rewrite Hdg. unfold found. destruct (ss_dirs s !! _); [|done]. simpl. unfold entry_skill.
    by destruct (from_file _).
  - intros n k. rewrite Hdg. destruct (ss_dirs s !! _); [|done]. simpl. unfold entry_skill.
    change (_load_state _) with (_load_state s). rewrite Hd. destruct (from_file _); [done|]. simpl. by intros [= <-].
  - eauto.
Qed.

Lemma load_saved_state s t : dict_wf t → ss_statefile s = Some (dumps (Some 2%nat) (state_json t)) → _load_state s = state_json t.
Proof.
  intros Ht Hs. unfold _load_state. rewrite Hs, loads_dumps; [done|]. constructor.
  - unfold dict_wf, dkeys. by rewrite <-list_fmap_compose.
  - apply Forall_fmap, Forall_true. intros; constructor.
Qed.

Lemma status_saved (t : odict string InstalledSkill) n k : dget t n = Some k → status_in (state_json t) n = inr (is_status k).
Proof.
  intros H. unfold state_json. cbn [status_in]. f_equal. revert H. induction t as [|[k' v] t IH]; [done|]. simpl.
  case_decide; [|done]. intros [= ->]. by destruct (is_status k).
Qed.

(** Saving a table that agrees with the directory. *)
Lemma save_synced t dirs : tidy dirs → dict_wf t → (∀ n, same_place <$> dget t n = found dirs n) →
  synced {| ss_skills := t; ss_exists := true; ss_dirs := dirs;
            ss_statefile := Some (dumps (Some 2%nat) (state_json t)) |}.
Proof.
  intros Ht Hw Hf. set (s := {| ss_skills := t |}).
  assert (Hl := load_saved_state s t Hw eq_refl).
  split_and!; [done..|intros n k Hk; rewrite Hl; by apply status_saved|rewrite Hl; by eexists].
Qed.

Inductive skill_op := Install (source : option string) | Uninstall (name : string) | Enable (name : string) | Disable (name : string).
Definition skill_step (s : skill_state) (o : skill_op) : skill_state :=
  match o with
  | Install src => (install base src s).2
  | Uninstall n => (uninstall base n s).2
  | Enable n => (enable n s).2
  | Disable n => (disable n s).2
  end.
(** The name in the manifest is one path component. *)
Definition plain_op (o : skill_op) : Prop :=
  match o with
  | Install (Some text) => match from_file text with inr m => plain (sm_name m) | inl _ => True end
  | _ => True
  end.

Lemma change_status_synced st n s : synced s → synced (change_status st n s).2.
Proof.
  intros Hs. unfold change_status. rewrite run_bind. simpl. destruct (dget (ss_skills s) n) as [k|] eqn:E; [|done].
  destruct Hs as (_ & Ht & Hw & Hf & _). rewrite run_bind. simpl. apply save_synced; [done|auto with argus|].
  intros m. rewrite dget_dset. case_decide; [subst; simpl; by rewrite <-Hf, E|done].
Qed.

Lemma install_synced src s : plain_op (Install src) → synced s → synced (install base src s).2.
Proof.
  intros Hp Hs. unfold install. destruct src as [text|]; [|done]. simpl in Hp.
  destruct (from_file text) as [|m] eqn:Ef; [done|]. destruct (validate m) as [|[]]; try done.
  destruct (negb _); [done|]. rewrite run_bind. simpl.
  destruct Hs as (_ & Ht & Hw & Hf & _).
  apply save_synced; rewrite (resolve_plain _ _ Hp).
  - intros n text'. destruct (decide (n = sm_name m)) as [->|].
    + rewrite lookup_insert_eq. intros [= <-]. unfold tidy_text. by rewrite Ef.
    + rewrite lookup_insert_ne by (by intros [= ?]%(inj _)). apply Ht.
  - auto with argus.
  - intros n. rewrite dget_dset. unfold found. case_decide as Hn.
    + subst. rewrite lookup_insert_eq. simpl. by rewrite Ef.
    + rewrite lookup_insert_ne by (by intros [= ?]%(inj _)). apply Hf.
Qed.

Lemma found_rmtree n m dirs : found (rmtree (base ++ [n]) dirs) m = if decide (m = n) then None else found dirs m.
Proof.
  unfold found, rmtree. case_decide as Hm.
  - subst. rewrite map_lookup_filter_None_2; [done|]. right. intros ? _ H. apply H. by exists [].
  - destruct (dirs !! (base ++ [m])) as [text|] eqn:E; [|by rewrite map_lookup_filter_None_2; auto].
    erewrite map_lookup_filter_Some_2; [done|done|]. simpl. intros [k Hk]. rewrite <-app_assoc in Hk.
    apply (inj (base ++.)) in Hk. by simplify_eq/=.
Qed.

Lemma uninstall_synced n s : synced s → synced (uninstall base n s).2.
Proof.
  intros Hs. unfold uninstall. rewrite run_bind. simpl. destruct (dget (ss_skills s) n) as [k|] eqn:E; [|done].
  destruct Hs as (Hx & Ht & Hw & Hf & Hst & _).
  assert (Hp : is_path k = base ++ [n] ∧ is_Some (ss_dirs s !! (base ++ [n]))).
  { specialize (Hf n). rewrite E in Hf. unfold found in Hf. destruct (ss_dirs s !! _); [|done]. simpl in Hf.
    destruct (from_file _); [done|]. injection Hf as _ ->. split; [done|eauto]. }
  destruct Hp as [-> Hsome]. rewrite bool_decide_true by done. simpl. unfold within. rewrite bool_decide_true.
  2: { split; [by exists [n]|]. intros H%(f_equal length). rewrite length_app in H. simpl in H. lia. }
  simpl. rewrite ?Hx.
  apply save_synced.
  - intros m text H. apply Ht. unfold rmtree in H. by apply map_lookup_filter_Some in H as [? _].
  - auto with argus.
  - intros m. rewrite found_rmtree, dget_ddel by done. repeat case_decide; simplify_eq; [done|apply Hf].
Qed.

Lemma skill_steps_synced ops s : Forall plain_op ops → synced s → synced (foldl skill_step s ops).
Proof.
  intros Hops. revert s. induction Hops as [|o ops Ho _ IH]; intros s Hs; [done|]. simpl. apply IH.
  destruct o; simpl; [by apply install_synced|by apply uninstall_synced|by apply change_status_synced..].
Qed.

(** What is installed and enabled survives a restart.  On a skills directory
    whose skills carry the names of their manifests, after scanning it and any
    sequence of installations (of skills whose name is one path component),
    removals, enables and disables, successful or not, a new manager that scans
    the directory finds for every name the same skill, with the same status, in
    the same place. *)
Theorem skills_survive_restart (s0 : skill_state) (d : odict string pyval) (ops : list skill_op)
    (Hx : ss_exists s0 = true) (Htidy : tidy (ss_dirs s0)) (Hd : _load_state s0 = PDict d) (Hops : Forall plain_op ops) :
  let s := foldl skill_step (discover base s0).2 ops in
  ∃ l s', discover base (set_skills [] s) = (inr l, s') ∧ ∀ n, dget (ss_skills s') n = dget (ss_skills s) n.
Proof.
  destruct (discover_synced s0 d Hx Htidy Hd) as (l0 & s1 & E1 & Hs1 & _). intros s.
  assert (Es : s = foldl skill_step s1 ops) by (unfold s; by rewrite E1).
  destruct (skill_steps_synced ops s1 Hops Hs1) as (Hx' & Ht' & _ & Hf & Hst & d' & Hd').
  rewrite <-Es in Hx', Ht', Hf, Hst, Hd'. clearbody s.
  destruct (discover_synced (set_skills [] s) d' Hx' Ht' Hd') as (l & s' & E & _ & _ & _ & Hg).
  exists l, s'. split; [exact E|]. intros n. rewrite Hg. simpl. specialize (Hf n). specialize (Hst n). unfold found in Hf.
  rewrite Hd' in Hst.
  destruct (ss_dirs s !! _); [|by destruct (dget (ss_skills s) n)]. cbn [mbind option_bind] in *. unfold entry_skill.
  destruct (from_file _); [by destruct (dget (ss_skills s) n)|]. destruct (dget (ss_skills s) n) as [k|]; [|done].
  simpl in Hf. injection Hf as <- <-. rewrite (Hst _ eq_refl). by destruct k.
Qed.
End facts.

(** A directory with one skill. *)
Definition skill_manifest (name : string) : string := dumps None (PDict [("name", PStr name); ("tools", PList [])]).
Definition disk0 : skill_state :=
  {| ss_skills := []; ss_exists := true; ss_dirs := {[ ["srv"; "skills"; "web"] := skill_manifest "web" ]};
     ss_statefile := None |}.

Lemma skills_survive_restart_witness :
  let base := ["srv"; "skills"] in
  let s := foldl (skill_step base) (discover base disk0).2 [Install (Some (skill_manifest "db")); Disable "web"] in
  (is_status <$> dget (ss_skills s) "web") = Some DISABLED ∧ (is_status <$> dget (ss_skills s) "db") = Some ENABLED ∧
  ∃ l s', discover base (set_skills [] s) = (inr l, s') ∧ ∀ n, dget (ss_skills s') n = dget (ss_skills s) n.
Proof.
  split; [vm_compute; reflexivity|split; [vm_compute; reflexivity|]].
  apply (skills_survive_restart ["srv"; "skills"] disk0 []); [done| |done|].
  - intros n text H. simpl in H. apply lookup_singleton_Some in H as [Hn <-]. apply (inj (["srv"; "skills"] ++.)) in Hn.
    injection Hn as <-. vm_compute. reflexivity.
  - repeat constructor; by_decide.
Defined.

(** A manifest whose name climbs out of the directory is installed outside of it,
    over whatever is there; removing it is refused, though. *)
Lemma install_escapes :
  let base := ["srv"; "skills"] in
  let s := (install base (Some (skill_manifest "../../etc/app")) disk0).2 in
  ss_dirs s !! ["etc"; "app"] = Some (skill_manifest "../../etc/app") ∧
  (uninstall base "../../etc/app" s).1 = inl (SValueError "Refusing to remove: not within skills directory").
Proof. vm_compute. done. Qed.

(** A manager that installs without having scanned the directory forgets which
    of the other skills were disabled. *)
Lemma unscanned_install_enables :
  let base := ["srv"; "skills"] in
  let s := (disable "web" (discover base disk0).2).2 in
  let s' := (discover base (install base (Some (skill_manifest "db")) (set_skills [] s)).2).2 in
  (is_status <$> dget (ss_skills s) "web") = Some DISABLED ∧ (is_status <$> dget (ss_skills s') "web") = Some ENABLED.
Proof. vm_compute. done. Qed.
