(* ===== verification/RateLimit.v ===== *)
(** * Rate limiting (server/rate_limit.py)

    The per-IP sliding window with authentication lockout.  Its three tables
    are [cachetools.TTLCache] objects: the interface is a type class with the
    documented behaviour as laws, and an instance shows the laws can hold. *)
From S2P Require Import Prelude PyDict Glob.

(** ** The TTL cache *)

Class TTLCache (C V : Type) := {
  tget : C → Z → string → option V;        (* [cache.get(k)] at a time *)
  tset : C → Z → string → V → C;           (* [cache[k] = v] at a time *)
  tpop : C → Z → string → C }.             (* [cache.pop(k, None)] *)

(** An entry lives [ttl] from the time it was last set; fewer keys than
    [maxsize] are live, so none is evicted earlier. *)
Class TTLCacheLaws (C V : Type) `{TTLCache C V} (ttl : Z) := {
  tget_tset_eq c t k v t' : t <= t' → tget (tset c t k v) t' k = if t' <? t + ttl then Some v else None;
  tget_tset_ne c t k k' v t' : k ≠ k' → tget (tset c t k' v) t' k = tget c t' k;
  tget_tpop_eq c t k t' : tget (tpop c t k) t' k = None;
  tget_tpop_ne c t k k' t' : k ≠ k' → tget (tpop c t k') t' k = tget c t' k }.

(** A map with the expiry time of each entry. *)
Record map_cache (ttl : Z) (V : Type) := MapCache { mc_map : gmap string (Z * V) }.
Arguments MapCache {ttl V} _.
Arguments mc_map {ttl V} _.

#[export] Instance map_cache_ops ttl V : TTLCache (map_cache ttl V) V := {|
  tget c t k := '(exp, v) ← mc_map c !! k; if t <? exp then Some v else None;
  tset c t k v := MapCache (<[k := (t + ttl, v)]> (mc_map c));
  tpop c t k := MapCache (delete k (mc_map c)) |}.

#[export] Instance map_cache_laws ttl V : TTLCacheLaws (map_cache ttl V) V ttl.
Proof.
  split; simpl.
  - intros c t k v t' _. by rewrite lookup_insert_eq.
  - intros c t k k' v t' Hne. by rewrite lookup_insert_ne.
  - intros c t k t'. by rewrite lookup_delete_eq.
  - intros c t k k' t' Hne. by rewrite lookup_delete_ne.
Qed.

(** ** Client address *)

Section client_ip.
(** [ipaddress.ip_address], [None] for its [ValueError], and membership in one
    of the configured proxy networks. *)
Context {Addr : Type} (parse_ip : string → option Addr) (is_proxy : Addr → bool).

Definition is_blank (c : Ascii.ascii) : bool :=
  let n := Ascii.nat_of_ascii c in (Nat.leb 9 n && Nat.leb n 13) || (Nat.leb 28 n && Nat.leb n 32).
Fixpoint lstrip (l : list Ascii.ascii) : list Ascii.ascii :=
  match l with [] => [] | c :: l' => if is_blank c then lstrip l' else l end.
Definition strip (l : list Ascii.ascii) : list Ascii.ascii := rev (lstrip (rev (lstrip l))).
Fixpoint split_comma (acc l : list Ascii.ascii) : list string :=
  match l with
  | [] => [string_of_list_ascii (strip (rev acc))]
  | c :: l' => if Nat.eqb (Ascii.nat_of_ascii c) 44
               then string_of_list_ascii (strip (rev acc)) :: split_comma [] l'
               else split_comma (c :: acc) l'
  end.

(** The last header wins in the dictionary the code builds. *)
Definition last_header (headers : list (string * string)) (k : string) : option string :=
  dget (foldl (λ d '(k, v), dset d k v) [] headers) k.

(** [has_proxies] tells whether any trusted proxy is configured. *)
Definition _get_client_ip (has_proxies : bool) (client : option string)
    (headers : list (string * string)) : string :=
  match client with
  | None => "unknown"
  | Some direct_ip =>
      if negb has_proxies then direct_ip
      else
        match parse_ip direct_ip with
        | None => direct_ip
        | Some addr =>
            if negb (is_proxy addr) then direct_ip
            else
              match last_header headers "x-forwarded-for" with
              | None | Some "" => direct_ip
              | Some xff =>
                  let parts := split_comma [] (list_ascii_of_string xff) in
                  default direct_ip (List.find (λ p,
                    match parse_ip p with Some a => negb (is_proxy a) | None => false end) (rev parts))
              end
        end
  end.

(** A client cannot choose the address it is limited under: unless the
    direct peer is one of the configured proxies, the address is that of the
    direct peer whatever the headers say; behind a proxy it is the direct peer
    or the rightmost forwarded address that is not itself a proxy. *)
Theorem client_ip_not_spoofable has_proxies direct headers headers' :
  (has_proxies = false ∨ parse_ip direct = None ∨ (∃ a, parse_ip direct = Some a ∧ is_proxy a = false) →
   _get_client_ip has_proxies (Some direct) headers = direct) ∧
  (_get_client_ip has_proxies (Some direct) headers' = direct ∨
   ∃ xff pre ip post, last_header headers' "x-forwarded-for" = Some xff ∧
     split_comma [] (list_ascii_of_string xff) = pre ++ ip :: post ∧
     _get_client_ip has_proxies (Some direct) headers' = ip ∧
     (∃ a, parse_ip ip = Some a ∧ is_proxy a = false) ∧
     Forall (λ p, parse_ip p = None ∨ ∃ a, parse_ip p = Some a ∧ is_proxy a = true) post).
Proof.
  split.
  - intros H. unfold _get_client_ip. destruct has_proxies; cbn [negb]; [|done].
    destruct (parse_ip direct) as [a|]; [|done].
    destruct H as [?|[?|(a' & ? & Ha)]]; [done|done|]. simplify_eq. by rewrite Ha.
  - unfold _get_client_ip. destruct has_proxies; cbn [negb]; [|by left].
    destruct (parse_ip direct) as [a|]; [|by left]. destruct (is_proxy a); cbn [negb]; [|by left].
    destruct (last_header headers' "x-forwarded-for") as [[|c xff]|] eqn:Ex; [by left| |by left].
    set (parts := split_comma [] (list_ascii_of_string (String c xff))).
    destruct (List.find _ (rev parts)) as [ip|] eqn:Ef; [|by left]. right.
    apply find_first in Ef as (l1 & l2 & El & Hip & Hl1).
    exists (String c xff), (rev l2), ip, (rev l1). split_and!; [done| |done| |].
    + fold parts. rewrite <-(rev_involutive parts), El, rev_app_distr. simpl. by rewrite <-app_assoc.
    + destruct (parse_ip ip) as [b|]; [|done]. reflect_bools. eauto.
    + apply Forall_rev. eapply Forall_impl; [exact Hl1|]. simpl. intros p Hp.
      destruct (parse_ip p) as [b|]; [|by left]. reflect_bools. right. eauto.
Qed.
End client_ip.

(** ** The limiter *)

Record rl_conf := {
  rl_enabled : bool; rl_requests : Z; rl_window : Z;
  lockout_threshold : Z; lockout_window : Z; lockout_duration : Z }.

Section limiter.
Context (conf : rl_conf).
Context {C1 C2 C3 : Type} `{TTLCache C1 (list Z), TTLCache C2 (list Z), TTLCache C3 ()}.

Record limiter := { _request_log : C1; _auth_failure_log : C2; _lockouts : C3 }.

Definition _is_locked_out (ip : string) (now : Z) (st : limiter) : bool :=
  bool_decide (is_Some (tget (_lockouts st) now ip)).

Definition _prune_window (timestamps : list Z) (window_start : Z) : list Z :=
  keep (λ ts, window_start <=? ts) timestamps.

Definition _check_rate_limit (ip : string) (now : Z) (st : limiter) : bool * limiter :=
  let timestamps := _prune_window (default [] (tget (_request_log st) now ip)) (now - rl_window conf) in
  let save ts := {| _request_log := tset (_request_log st) now ip ts;
                    _auth_failure_log := _auth_failure_log st; _lockouts := _lockouts st |} in
  if Z.of_nat (length timestamps) >=? rl_requests conf then (false, save timestamps)
  else (true, save (timestamps ++ [now])).

(** [t_end] is the reading of the cache clock when the response is complete. *)
Definition _record_auth_failure (ip : string) (now t_end : Z) (st : limiter) : limiter :=
  let timestamps := _prune_window (default [] (tget (_auth_failure_log st) t_end ip)) (now - lockout_window conf)
                    ++ [now] in
  let log := tset (_auth_failure_log st) t_end ip timestamps in
  if Z.of_nat (length timestamps) >=? lockout_threshold conf then
    {| _request_log := _request_log st; _auth_failure_log := tpop log t_end ip;
       _lockouts := tset (_lockouts st) t_end ip () |}
  else {| _request_log := _request_log st; _auth_failure_log := log; _lockouts := _lockouts st |}.

(** A request: when it arrives, whether it is HTTP, its address, the status its
    response starts with if it reaches the application, and when it ends. *)
Record rl_request := { rq_http : bool; rq_now : Z; rq_ip : string; rq_status : option Z; rq_end : Z }.

Inductive verdict := Passed | Accepted | TooMany | LockedOut.
#[export] Instance verdict_eq_dec : EqDecision verdict.
Proof. solve_decision. Defined.

Definition call (rq : rl_request) (st : limiter) : verdict * limiter :=
  if negb (rq_http rq) then (Passed, st)
  else if negb (rl_enabled conf) then (Passed, st)
  else if _is_locked_out (rq_ip rq) (rq_now rq) st then (LockedOut, st)
  else
    let '(ok, st1) := _check_rate_limit (rq_ip rq) (rq_now rq) st in
    if negb ok then (TooMany, st1)
    else
      (Accepted,
       match rq_status rq with
       | Some s => if bool_decide (s ∈ [401; 403])
                   then _record_auth_failure (rq_ip rq) (rq_now rq) (rq_end rq) st1 else st1
       | None => st1
       end).

(** A run, with the times at which each address was let through. *)
Fixpoint run (rqs : list rl_request) (st : limiter) (acc : list (string * Z)) : limiter * list (string * Z) :=
  match rqs with
  | [] => (st, acc)
  | rq :: rest =>
      let '(v, st') := call rq st in
      run rest st' (if bool_decide (v = Accepted) then acc ++ [(rq_ip rq, rq_now rq)] else acc)
  end.

(** The times of [ip] in the closed window that ends at [t]. *)
Definition times_of (ip : string) (acc : list (string * Z)) : list Z :=
  (keep (λ x, bool_decide (x.1 = ip)) acc).*2.
Definition in_window (t : Z) (l : list Z) : list Z := keep (λ x, (t - rl_window conf <=? x) && (x <=? t)) l.

Lemma times_of_snoc ip acc ip' t :
  times_of ip (acc ++ [(ip', t)]) = times_of ip acc ++ (if bool_decide (ip' = ip) then [t] else []).
Proof.
  unfold times_of. rewrite List.filter_app, fmap_app. cbn [List.filter]. simpl.
  by destruct (bool_decide (ip' = ip)).
Qed.

Hypothesis laws : TTLCacheLaws C1 (list Z) (rl_window conf * 2).
Hypothesis window_pos : 0 < rl_window conf.

(** The invariant at time [t]: what a later check will read is the accepted
    times of its window, none of them is later than [t], and no window holds
    too many. *)
Record limiter_inv (t : Z) (st : limiter) (acc : list (string * Z)) : Prop := {
  li_log : ∀ ip t', t <= t' →
    _prune_window (default [] (tget (_request_log st) t' ip)) (t' - rl_window conf) =
    _prune_window (times_of ip acc) (t' - rl_window conf);
  li_past : ∀ ip x, x ∈ times_of ip acc → x <= t;
  li_bound : ∀ ip t', Z.of_nat (length (in_window t' (times_of ip acc))) <= Z.max 0 (rl_requests conf) }.

Lemma prune_snoc l t s : _prune_window (l ++ [t]) s = _prune_window l s ++ (if s <=? t then [t] else []).
Proof. unfold _prune_window. rewrite List.filter_app. done. Qed.

Lemma prune_prune l s s' : s <= s' → _prune_window (_prune_window l s) s' = _prune_window l s'.
Proof.
  intros Hs. unfold _prune_window. induction l as [|x l IH]; simpl; [done|].
  destruct (s <=? x) eqn:E1; simpl; [by rewrite IH|]. reflect_bools.
  by replace (s' <=? x) with false by (symmetry; apply Z.leb_gt; lia).
Qed.

Lemma prune_old l s : (∀ x, x ∈ l → x < s) → _prune_window l s = [].
Proof.
  intros Hx. unfold _prune_window. induction l as [|x l IH]; simpl; [done|].
  replace (s <=? x) with false by (symmetry; apply Z.leb_gt; apply Hx; left). apply IH.
  intros y Hy. apply Hx. by right.
Qed.

Lemma in_window_le t now l :
  now <= t → (length (in_window t l) ≤ length (_prune_window l (now - rl_window conf)))%nat.
Proof.
  intros Ht. unfold in_window, _prune_window. induction l as [|x l IH]; simpl; [done|].
  destruct ((t - rl_window conf <=? x) && (x <=? t)) eqn:E; simpl.
  - reflect_bools. replace (now - rl_window conf <=? x) with true by (symmetry; apply Z.leb_le; lia).
    simpl. lia.
  - case_test; simpl; lia.
Qed.

(** Saving the pruned times, with or without the new one, keeps the log in
    step with the accepted times. *)
Lemma saved_log t now st acc acc' ip :
  limiter_inv t st acc → t <= now → (∀ x, x ∈ times_of ip acc' → x <= now) →
  (∀ ip', ip' ≠ ip → times_of ip' acc' = times_of ip' acc) →
  ∀ ts, ts = _prune_window (times_of ip acc') (now - rl_window conf) →
  ∀ ip' t', now <= t' →
    _prune_window (default [] (tget (tset (_request_log st) now ip ts) t' ip')) (t' - rl_window conf) =
    _prune_window (times_of ip' acc') (t' - rl_window conf).
Proof using laws window_pos.
  intros [Hlog _ _] Ht Hpast Hother ts -> ip' t' Ht'. destruct (decide (ip' = ip)) as [->|Hne].
  - rewrite (tget_tset_eq (ttl := rl_window conf * 2)) by done.
    destruct (t' <? now + rl_window conf * 2) eqn:E; reflect_bools; simpl.
    + apply prune_prune. lia.
    + symmetry. apply prune_old. intros x Hx%Hpast. lia.
  - rewrite (tget_tset_ne (ttl := rl_window conf * 2)) by done. rewrite Hother by done. apply Hlog. lia.
Qed.

Lemma check_inv t now ip st acc :
  limiter_inv t st acc → t <= now →
  let '(ok, st') := _check_rate_limit ip now st in
  limiter_inv now st' (if ok then acc ++ [(ip, now)] else acc).
Proof using laws window_pos.
  intros Hinv Ht. pose proof Hinv as [Hlog Hpast Hbound]. unfold _check_rate_limit. cbv zeta.
  rewrite (Hlog ip now Ht). destruct (_ >=? _) eqn:E; reflect_bools.
  - split; cbn [_request_log].
    + apply (saved_log t now st acc acc ip); [done|done| |done|done]. intros x Hx%Hpast. lia.
    + intros ip' x Hx%Hpast. lia.
    + done.
  - assert (∀ ip', ip' ≠ ip → times_of ip' (acc ++ [(ip, now)]) = times_of ip' acc) as Hother.
    { intros ip' Hne. rewrite times_of_snoc, bool_decide_eq_false_2 by done. by rewrite app_nil_r. }
    assert (times_of ip (acc ++ [(ip, now)]) = times_of ip acc ++ [now]) as Hself.
    { by rewrite times_of_snoc, bool_decide_eq_true_2. }
    assert (∀ ip' x, x ∈ times_of ip' (acc ++ [(ip, now)]) → x <= now) as Hpast'.
    { intros ip' x. rewrite times_of_snoc, elem_of_app. intros [Hx%Hpast|Hx]; [lia|].
      case_bool_decide; [apply list_elem_of_singleton in Hx; lia|by apply not_elem_of_nil in Hx]. }
    split; cbn [_request_log].
    + apply (saved_log t now st acc _ ip); [done|done|apply Hpast'|done|].
      rewrite Hself, prune_snoc. by replace (now - rl_window conf <=? now) with true by (symmetry; apply Z.leb_le; lia).
    + done.
    + intros ip' t'. destruct (decide (ip' = ip)) as [->|Hne]; [|rewrite Hother by done; apply Hbound].
      rewrite Hself. unfold in_window. rewrite List.filter_app, length_app. fold (in_window t' (times_of ip acc)).
      cbn [List.filter]. destruct ((t' - rl_window conf <=? now) && (now <=? t')) eqn:Ew; cbn [length].
      * reflect_bools. pose proof (in_window_le t' now (times_of ip acc)) as Hle. lia.
      * specialize (Hbound ip t'). lia.
Qed.

Lemma call_inv t rq st acc :
  limiter_inv t st acc → t <= rq_now rq →
  let '(v, st') := call rq st in
  limiter_inv (rq_now rq) st' (if bool_decide (v = Accepted) then acc ++ [(rq_ip rq, rq_now rq)] else acc).
Proof using laws window_pos.
  intros Hinv Ht.
  assert (limiter_inv (rq_now rq) st acc) as Hlater.
  { destruct Hinv as [Hlog Hpast Hb]. split; [|intros ip x Hx%Hpast; lia|done]. intros ip t' Ht'. apply Hlog. lia. }
  unfold call. repeat (case_test; [done|]).
  pose proof (check_inv t (rq_now rq) (rq_ip rq) st acc Hinv Ht) as Hc.
  destruct (_check_rate_limit (rq_ip rq) (rq_now rq) st) as [[] st1]; cbn [negb]; [|done].
  rewrite bool_decide_eq_true_2 by done.
  assert (∀ st2, _request_log st2 = _request_log st1 → limiter_inv (rq_now rq) st2 (acc ++ [(rq_ip rq, rq_now rq)])) as Hsame.
  { intros st2 E2. destruct Hc as [H1' H2' H3']. split; [by rewrite E2|done|done]. }
  apply Hsame. destruct (rq_status rq); [|done]. case_test; [|done]. unfold _record_auth_failure. by case_test.
Qed.

Lemma run_inv rqs t st acc :
  StronglySorted Z.le (t :: (rq_now <$> rqs)) → limiter_inv t st acc →
  ∃ t', limiter_inv t' (run rqs st acc).1 (run rqs st acc).2.
Proof using laws window_pos.
  revert t st acc. induction rqs as [|rq rqs IH]; intros t st acc Hs Hinv; csimpl in *; [by eexists|].
  apply StronglySorted_inv in Hs as [Hs Hall]. apply Forall_cons in Hall as [Ht _].
  pose proof (call_inv t rq st acc Hinv Ht) as Hc. destruct (call rq st) as [v st']. by eapply IH.
Qed.

Lemma empty_inv t st : (∀ ip t', tget (_request_log st) t' ip = None) → limiter_inv t st [].
Proof.
  intros He. split.
  - intros ip t' _. by rewrite He.
  - intros ip x Hx. by apply not_elem_of_nil in Hx.
  - intros ip t'. simpl. lia.
Qed.
End limiter.


Definition demo_limits : rl_conf :=
  {| rl_enabled := true; rl_requests := 2; rl_window := 60; lockout_threshold := 3; lockout_window := 60;
     lockout_duration := 300 |}.
Definition demo_limiter : limiter (C1 := map_cache 120 (list Z)) (C2 := map_cache 60 (list Z)) (C3 := map_cache 300 ()) :=
  {| _request_log := MapCache ∅; _auth_failure_log := MapCache ∅; _lockouts := MapCache ∅ |}.
Definition get_at (t : Z) : rl_request :=
  {| rq_http := true; rq_now := t; rq_ip := "1.2.3.4"; rq_status := Some 200; rq_end := t |}.


(** The authentication failure that reaches the lockout threshold within
    its window locks the address out for exactly [lockout_duration]: until
    then every HTTP request from it is refused without touching the state, and
    afterwards it is not; no other address is affected. *)
Theorem lockout_exact {C1 C2 C3} `{TTLCache C1 (list Z), TTLCache C2 (list Z), TTLCache C3 ()}
    conf (laws : TTLCacheLaws C3 () (lockout_duration conf))
    (st : limiter (C1 := C1) (C2 := C2) (C3 := C3)) ip now t_end rq :
  lockout_threshold conf <= Z.of_nat (length (_prune_window
    (default [] (tget (_auth_failure_log st) t_end ip)) (now - lockout_window conf))) + 1 →
  t_end <= rq_now rq → rl_enabled conf = true → rq_http rq = true →
  let st' := _record_auth_failure conf ip now t_end st in
  _is_locked_out (rq_ip rq) (rq_now rq) st' =
    (if bool_decide (rq_ip rq = ip) then rq_now rq <? t_end + lockout_duration conf
     else _is_locked_out (rq_ip rq) (rq_now rq) st) ∧
  (rq_ip rq = ip → rq_now rq < t_end + lockout_duration conf → call conf rq st' = (LockedOut, st')).
Proof.
  intros Hn Ht Hen Hhttp st'.
  assert (_is_locked_out (rq_ip rq) (rq_now rq) st' =
    (if bool_decide (rq_ip rq = ip) then rq_now rq <? t_end + lockout_duration conf
     else _is_locked_out (rq_ip rq) (rq_now rq) st)) as Hlock.
  { unfold st', _record_auth_failure. rewrite length_app. cbn [length].
    replace (_ >=? _) with true by (symmetry; rewrite Z.geb_leb; apply Z.leb_le; lia).
    unfold _is_locked_out. cbn [_lockouts].
    destruct (decide (rq_ip rq = ip)) as [Hip|Hip];
      [rewrite (bool_decide_eq_true_2 (rq_ip rq = ip)) by done
      |rewrite (bool_decide_eq_false_2 (rq_ip rq = ip)) by done].
    - rewrite Hip. pose proof (tget_tset_eq (_lockouts st) t_end ip () (rq_now rq) Ht) as Hg.
      destruct (rq_now rq <? t_end + lockout_duration conf); by rewrite Hg.
    - pose proof (tget_tset_ne (_lockouts st) t_end (rq_ip rq) ip () (rq_now rq) Hip) as Hg.
      by rewrite Hg. }
  split; [done|]. intros Hip Hlt. unfold call. rewrite Hhttp, Hen, Hlock. cbn [negb].
  rewrite bool_decide_eq_true_2 by done. by replace (_ <? _) with true by (symmetry; apply Z.ltb_lt; lia).
Qed.

Lemma lockout_exact_witness :
  let st := _record_auth_failure demo_limits "1.2.3.4" 2 2
              (_record_auth_failure demo_limits "1.2.3.4" 1 1 demo_limiter) in
  let st' := _record_auth_failure demo_limits "1.2.3.4" 3 3 st in
  call demo_limits (get_at 302) st' = (LockedOut, st') ∧
  (call demo_limits (get_at 303) st').1 = Accepted.
Proof.
  intros st st'. split; [|vm_compute; reflexivity].
  apply (lockout_exact demo_limits (map_cache_laws 300 ()) st "1.2.3.4" 3 3 (get_at 302)).
  - vm_compute. discriminate.
  - discriminate.
  - reflexivity.
  - reflexivity.
  - reflexivity.
  - reflexivity.
Defined.
