(* ===== verification/PayloadLimits.v ===== *)
(** * Payload limits (server/payload_limits.py)

    The ASGI middleware that buffers a request body, checks its size and the
    nesting of its JSON, and replays it to the application.  The messages the
    server hands to [receive] are a stream. *)
From S2P Require Import Prelude PyDict Glob.

(** ** JSON depth *)

Fixpoint _check_json_depth (data : pyval) (max_depth current : Z) : bool :=
  if current >? max_depth then true
  else
    match data with
    | PDict d => (fix go (d : list (string * pyval)) : bool :=
        match d with [] => false | (_, v) :: d' => _check_json_depth v max_depth (current + 1) || go d' end) d
    | PList l => (fix go (l : list pyval) : bool :=
        match l with [] => false | v :: l' => _check_json_depth v max_depth (current + 1) || go l' end) l
    | _ => false
    end.

Lemma check_json_depth_height v max_depth current :
  _check_json_depth v max_depth current = (current + height v >? max_depth).
Proof.
  revert current.
  assert (∀ current h b, 0 <= h → (current >? max_depth) = false → b = (current + h >? max_depth) →
    (if current >? max_depth then true else b) = (current + h >? max_depth)) as Hstep by (intros ??? ? -> ->; done).
  assert (∀ current h, 0 <= h → (current >? max_depth) = true → (current + h >? max_depth) = true) as Hbig.
  { intros current h Hh Hc. reflect_bools. rewrite Z.gtb_ltb. apply Z.ltb_lt. lia. }
  assert (∀ current h, (current >? max_depth) = false → h = 0 → (current + h >? max_depth) = false) as Hzero.
  { intros current h Hc ->. by rewrite Z.add_0_r. }
  assert (∀ current a b, (current + Z.max (1 + a) b >? max_depth) =
    (current + 1 + a >? max_depth) || (current + b >? max_depth)) as Hmax.
  { intros current a b. rewrite !Z.gtb_ltb. apply eq_true_iff_eq.
    rewrite orb_true_iff, !Z.ltb_lt. lia. }
  induction v as [| | | |l IH|d IH] using pyval_nested_ind; intros current; simpl;
    try (destruct (current >? max_depth) eqn:E; symmetry; [by apply Hbig|by apply Hzero]).
  - destruct (current >? max_depth) eqn:E.
    + symmetry. apply Hbig; [|done]. apply (height_nonneg (PList l)).
    + induction IH as [|v l Hv _ IHl]; [symmetry; by apply Hzero|]. rewrite Hmax, <-Hv. by f_equal.
  - destruct (current >? max_depth) eqn:E.
    + symmetry. apply Hbig; [|done]. apply (height_nonneg (PDict d)).
    + induction IH as [|[k v] d Hv _ IHd]; [symmetry; by apply Hzero|]. rewrite Hmax, <-Hv. by f_equal.
Qed.

(** ** Buffering *)

Inductive asgi_message :=
  | HttpRequest (body : string) (more_body : bool)
  | HttpDisconnect.

Record pl_conf := { pl_enabled : bool; max_body_bytes : Z; max_json_depth : Z }.

Inductive buffered := BodyDone (body : string) (read : nat) | TooLarge (received : Z).

Definition size_of (s : string) : Z := Z.of_nat (String.length s).

(** The [while not body_done] loop, reading the stream from position [i];
    [None] when the fuel runs out. *)
Fixpoint buffer_loop (fuel : nat) (conf : pl_conf) (stream : nat → asgi_message) (i : nat)
    (body : string) (total : Z) : option buffered :=
  match fuel with
  | O => None
  | S fuel' =>
      match stream i with
      | HttpRequest chunk more =>
          let total' := total + size_of chunk in
          if total' >? max_body_bytes conf then Some (TooLarge total')
          else if negb more then Some (BodyDone (body +:+ chunk) (S i))
          else buffer_loop fuel' conf stream (S i) (body +:+ chunk) total'
      | HttpDisconnect => buffer_loop fuel' conf stream (S i) body total
      end
  end.

(** The methods without a body check. *)
Definition bodyless : list string := ["GET"; "HEAD"; "OPTIONS"; "DELETE"].

(** The scope: HTTP or not, the method in upper case, and [_is_json_content]. *)
Record http_scope := { sc_http : bool; sc_method : string; sc_json : bool }.

(** What the middleware does with the request: hand it on untouched, replay the
    body (the application then goes on reading the stream at [next]), or answer
    itself. *)
Inductive pl_result :=
  | PassThrough
  | Replay (body : string) (next : nat)
  | Status413
  | Status400.

Section middleware.
(** [json.loads], [None] for malformed JSON. *)
Context (json_loads : string → option pyval).

Definition payload_call (fuel : nat) (conf : pl_conf) (scope : http_scope) (stream : nat → asgi_message)
    : option pl_result :=
  if negb (sc_http scope) || negb (pl_enabled conf) then Some PassThrough
  else if bool_decide (sc_method scope ∈ bodyless) then Some PassThrough
  else
    match buffer_loop fuel conf stream 0 "" 0 with
    | None => None
    | Some (TooLarge _) => Some Status413
    | Some (BodyDone body next) =>
        if negb (bool_decide (body = "")) && sc_json scope then
          match json_loads body with
          | None => Some (Replay body next)
          | Some parsed =>
              if _check_json_depth parsed (max_json_depth conf) 0 then Some Status400
              else Some (Replay body next)
          end
        else Some (Replay body next)
    end.

(** The chunks of a complete upload as a stream, followed by disconnects. *)
Fixpoint upload (chunks : list string) (i : nat) : asgi_message :=
  match chunks, i with
  | [], _ => HttpDisconnect
  | [c], O => HttpRequest c false
  | c :: _, O => HttpRequest c true
  | _ :: cs, S i' => upload cs i'
  end.

Definition join (chunks : list string) : string := foldr String.append "" chunks.

Lemma size_app a b : size_of (a +:+ b) = size_of a + size_of b.
Proof.
  unfold size_of. assert (String.length (a +:+ b) = String.length a + String.length b)%nat as ->; [|lia].
  induction a as [|x a IH]; [done|]. exact (f_equal S IH).
Qed.

Lemma string_app_assoc a b c : (a +:+ b) +:+ c = a +:+ (b +:+ c).
Proof. induction a as [|x a IH]; [done|]. exact (f_equal (String x) IH). Qed.

Lemma string_app_nil a : a +:+ "" = a.
Proof. induction a as [|x a IH]; [done|]. exact (f_equal (String x) IH). Qed.

Lemma size_nonneg s : 0 <= size_of s.
Proof. unfold size_of. lia. Qed.

Lemma buffer_upload conf chunks fuel (stream : nat → asgi_message) i body total :
  chunks ≠ [] → (length chunks ≤ fuel)%nat → (∀ j, stream (i + j)%nat = upload chunks j) →
  total = size_of body → size_of (body +:+ join chunks) <= max_body_bytes conf →
  buffer_loop fuel conf stream i body total = Some (BodyDone (body +:+ join chunks) (i + length chunks)).
Proof.
  revert fuel i body total. induction chunks as [|c chunks IH]; intros fuel i body total Hne Hf Hs -> Hsz; [done|].
  destruct fuel as [|fuel]; [simpl in Hf; lia|]. cbn [buffer_loop].
  pose proof (Hs O) as H0. rewrite Nat.add_0_r in H0. rewrite H0.
  change (join (c :: chunks)) with (c +:+ join chunks) in *. rewrite !size_app in Hsz.
  pose proof (size_nonneg (join chunks)).
  destruct chunks as [|c' chunks]; cbn [upload negb].
  - replace (_ >? _) with false by (symmetry; rewrite Z.gtb_ltb; apply Z.ltb_ge; lia).
    cbn [join foldr length]. by rewrite string_app_nil, Nat.add_1_r.
  - replace (_ >? _) with false by (symmetry; rewrite Z.gtb_ltb; apply Z.ltb_ge; lia).
    rewrite IH; [|done|simpl in *; lia| |by rewrite size_app|rewrite !size_app; lia].
    + rewrite string_app_assoc. do 2 f_equal. simpl. lia.
    + intros j. change (upload (c' :: chunks) j) with (upload (c :: c' :: chunks) (S j)). rewrite <-Hs. f_equal. lia.
Qed.

Lemma buffer_too_large conf chunks fuel (stream : nat → asgi_message) i body total :
  chunks ≠ [] → (length chunks ≤ fuel)%nat → (∀ j, stream (i + j)%nat = upload chunks j) →
  total = size_of body → max_body_bytes conf < size_of (body +:+ join chunks) →
  ∃ r, buffer_loop fuel conf stream i body total = Some (TooLarge r).
Proof.
  revert fuel i body total. induction chunks as [|c chunks IH]; intros fuel i body total Hne Hf Hs -> Hbig; [done|].
  destruct fuel as [|fuel]; [simpl in Hf; lia|]. cbn [buffer_loop].
  pose proof (Hs O) as H0. rewrite Nat.add_0_r in H0. rewrite H0.
  destruct chunks as [|c' chunks].
  - simpl in *. rewrite !size_app in Hbig. replace (size_of "") with 0 in Hbig by done.
    replace (_ >? _) with true; [by eexists|]. symmetry. rewrite Z.gtb_ltb. apply Z.ltb_lt. lia.
  - change (upload (c :: c' :: chunks) 0) with (HttpRequest c true). cbn [negb].
    case_test; [by eexists|]. apply IH; [done|simpl in *; lia| |by rewrite size_app|].
    + intros j. change (upload (c' :: chunks) j) with (upload (c :: c' :: chunks) (S j)). rewrite <-Hs. f_equal. lia.
    + by rewrite string_app_assoc.
Qed.
End middleware.

(** On a complete upload the middleware is transparent or refuses: a body
    over the limit is answered with 413; one within the limit whose JSON nests
    deeper than the limit with 400; every other body reaches the application
    unchanged and in one piece, however it was cut into chunks.  As many rounds
    as there are chunks are enough. *)
Theorem payload_limits_exact json_loads conf scope chunks fuel :
  pl_enabled conf = true → sc_http scope = true → sc_method scope ∉ bodyless →
  chunks ≠ [] → (length chunks ≤ fuel)%nat →
  payload_call json_loads fuel conf scope (upload chunks) = Some (
    let body := join chunks in
    if max_body_bytes conf <? size_of body then Status413
    else if sc_json scope && negb (bool_decide (body = "")) &&
            match json_loads body with Some v => max_json_depth conf <? height v | None => false end
    then Status400 else Replay body (length chunks)).
Proof.
  intros Hen Hh Hm Hne Hf. unfold payload_call. rewrite Hen, Hh. cbn [negb orb].
  rewrite bool_decide_eq_false_2 by done.
  destruct (max_body_bytes conf <? size_of (join chunks)) eqn:E; reflect_bools; cbv zeta.
  - destruct (buffer_too_large conf chunks fuel (upload chunks) 0 "" 0) as [r ->]; done.
  - rewrite (buffer_upload conf chunks fuel (upload chunks) 0 "" 0) by done.
    change ("" +:+ join chunks) with (join chunks). cbn [Nat.add].
    rewrite (andb_comm (sc_json scope)). destruct (negb (bool_decide (join chunks = "")) && sc_json scope); [|done].
    cbn [andb]. destruct (json_loads (join chunks)) as [v|]; [|done].
    rewrite check_json_depth_height, Z.add_0_l, Z.gtb_ltb. by destruct (_ <? _).
Qed.

Lemma payload_limits_exact_witness :
  let conf := {| pl_enabled := true; max_body_bytes := 8; max_json_depth := 1 |} in
  let scope := {| sc_http := true; sc_method := "POST"; sc_json := true |} in
  let loads := λ s, if bool_decide (s = "[[1]]") then Some (PList [PList [PInt 1]]) else None in
  payload_call loads 2 conf scope (upload ["[[1"; "]]"]) = Some Status400 ∧
  payload_call loads 2 conf scope (upload ["12345"; "6789"]) = Some Status413 ∧
  payload_call loads 2 conf scope (upload ["123"; "45"]) = Some (Replay "12345" 2).
Proof.
  intros conf scope loads. split; [reflexivity|split; [reflexivity|]].
  apply (payload_limits_exact loads conf scope ["123"; "45"] 2); [reflexivity|reflexivity|by_decide|discriminate|cbn; lia].
Defined.

(** A client that disconnects before its body is complete leaves the
    middleware in its loop for ever: no number of rounds ends it. *)
Theorem disconnect_never_returns json_loads conf scope stream n :
  pl_enabled conf = true → sc_http scope = true → sc_method scope ∉ bodyless →
  (∀ i, (i < n)%nat → ∃ c, stream i = HttpRequest c true) → (∀ i, (n ≤ i)%nat → stream i = HttpDisconnect) →
  (∀ k, (k ≤ n)%nat → size_of (join ((λ i, match stream i with HttpRequest c _ => c | _ => "" end) <$> seq 0 k))
     <= max_body_bytes conf) →
  ∀ fuel, payload_call json_loads fuel conf scope stream = None.
Proof.
  intros Hen Hh Hm Hreq Hdis Hsize fuel. unfold payload_call. rewrite Hen, Hh. cbn [negb orb].
  rewrite bool_decide_eq_false_2 by done.
  set (chunk := λ i, match stream i with HttpRequest c _ => c | _ => "" end) in *.
  assert (∀ fuel i body total, total = size_of (join (chunk <$> seq 0 (Nat.min i n))) →
    buffer_loop fuel conf stream i body total = None) as ->; [|done|done].
  clear fuel. intros fuel. induction fuel as [|fuel IH]; intros i body total Ht; [done|]. cbn [buffer_loop].
  destruct (Nat.lt_ge_cases i n) as [Hi|Hi].
  - destruct (Hreq i Hi) as [c Hc]. rewrite Hc. cbn [negb].
    assert (∀ l, size_of (join (l ++ [c])) = size_of (join l) + size_of c) as Happ.
    { intros l. induction l as [|x l IHl]; cbn [app join foldr].
      - rewrite !size_app. by replace (size_of "") with 0 by done; rewrite Z.add_0_r.
      - fold (join (l ++ [c])) (join l). rewrite !size_app, IHl. lia. }
    assert (size_of (join (chunk <$> seq 0 (S i))) = total + size_of c) as Hnext.
    { rewrite seq_S, fmap_app. cbn [fmap list_fmap]. replace (chunk (0 + i)%nat) with c
        by (unfold chunk; simpl; by rewrite Hc). rewrite Happ, Ht. by replace (Nat.min i n) with i by lia. }
    replace (_ >? _) with false.
    + apply IH. rewrite <-Hnext. by replace (Nat.min (S i) n) with (S i) by lia.
    + symmetry. rewrite Z.gtb_ltb. apply Z.ltb_ge. rewrite <-Hnext. apply Hsize. lia.
  - rewrite Hdis by done. apply IH. rewrite Ht. by replace (Nat.min (S i) n) with (Nat.min i n) by lia.
Qed.

Lemma disconnect_never_returns_witness :
  let conf := {| pl_enabled := true; max_body_bytes := 8; max_json_depth := 1 |} in
  let scope := {| sc_http := true; sc_method := "POST"; sc_json := true |} in
  let stream i := match i with O => HttpRequest "abc" true | _ => HttpDisconnect end in
  payload_call (λ _, None) 1000 conf scope stream = None.
Proof.
  intros conf scope stream. apply (disconnect_never_returns (λ _, None) conf scope stream 1).
  - reflexivity.
  - reflexivity.
  - by_decide.
  - intros [|i] Hi; [by exists "abc"|exfalso; lia].
  - intros [|i] Hi; [exfalso; lia|reflexivity].
  - intros [|[|k]] Hk; [vm_compute; discriminate|vm_compute; discriminate|exfalso; lia].
Defined.
