(* ===== verification/Session.v ===== *)
(** * Client sessions (server/session/models.py, server/session/manager.py)

    A session freezes the routing table at its creation and expires when it
    has been idle for longer than its time-to-live.  Sessions are objects: the
    manager and its callers share them, so their mutable fields are read from
    the manager's table.  Times are in milliseconds. *)
From S2P Require Import Prelude PyDict.

Record MCPSession := {
  ses_id : string; routing_table : odict string string; capability_snapshot : odict string Z;
  ses_created_at : Z; last_active : Z; ses_ttl : Z; transport_type : string }.

Definition session_expired (now : Z) (s : MCPSession) : bool := now - last_active s >? ses_ttl s.
Definition idle_time (now : Z) (s : MCPSession) : Z := now - last_active s.

Definition touch (now : Z) (s : MCPSession) : MCPSession :=
  {| ses_id := ses_id s; routing_table := routing_table s; capability_snapshot := capability_snapshot s;
     ses_created_at := ses_created_at s; last_active := now; ses_ttl := ses_ttl s;
     transport_type := transport_type s |}.

Definition resolve_backend (s : MCPSession) (tool_name : string) : option string :=
  dget (routing_table s) tool_name.

Record SessionManager := { _sessions : odict string MCPSession; _default_ttl : Z }.

Definition set_sessions (d : odict string MCPSession) (m : SessionManager) : SessionManager :=
  {| _sessions := d; _default_ttl := _default_ttl m |}.

(** [fresh_id] is the generated id; a given non-empty [session_id] replaces it. *)
Definition create_session (now : Z) (fresh_id : string) (rt : odict string string)
    (snapshot : odict string Z) (transport : string) (session_id : option string) (m : SessionManager)
    : MCPSession * SessionManager :=
  let s := {| ses_id := str_or session_id fresh_id; routing_table := rt; capability_snapshot := snapshot;
              ses_created_at := now; last_active := now; ses_ttl := _default_ttl m; transport_type := transport |} in
  (s, set_sessions (dset (_sessions m) (ses_id s) s) m).

Definition _remove (sid : string) (m : SessionManager) : bool * SessionManager :=
  if dmem (_sessions m) sid then (true, set_sessions (ddel (_sessions m) sid) m) else (false, m).

Definition get_session (now : Z) (sid : string) (m : SessionManager) : option MCPSession * SessionManager :=
  match dget (_sessions m) sid with
  | None => (None, m)
  | Some s =>
      if session_expired now s then (None, (_remove sid m).2)
      else let s' := touch now s in (Some s', set_sessions (dset (_sessions m) sid s') m)
  end.

Definition remove_session (sid : string) (m : SessionManager) : bool * SessionManager := _remove sid m.

(** One sweep of the cleanup loop. *)
Definition cleanup (now : Z) (m : SessionManager) : SessionManager :=
  let expired := dkeys (keep (λ kv, session_expired now kv.2) (_sessions m)) in
  foldl (λ m sid, (_remove sid m).2) m expired.

Definition active_count (now : Z) (m : SessionManager) : nat :=
  length (keep (λ s, negb (session_expired now s)) (dvalues (_sessions m))).

Definition stop_manager (m : SessionManager) : SessionManager := set_sessions [] m.

(** ** Histories *)

Inductive ses_op :=
  | SCreate (now : Z) (fresh_id : string) (rt : odict string string) (snapshot : odict string Z)
      (transport : string) (session_id : option string)
  | SGet (now : Z) (sid : string)
  | SRemove (sid : string)
  | SCleanup (now : Z)
  | SStop.

Definition ses_step (m : SessionManager) (o : ses_op) : SessionManager :=
  match o with
  | SCreate now fid rt sn tr sid => (create_session now fid rt sn tr sid m).2
  | SGet now sid => (get_session now sid m).2
  | SRemove sid => (remove_session sid m).2
  | SCleanup now => cleanup now m
  | SStop => stop_manager m
  end.

Definition ses_run (m : SessionManager) (ops : list ses_op) : SessionManager := foldl ses_step m ops.

(** The operation does not create a session under [sid]. *)
Definition not_created (sid : string) (o : ses_op) : Prop :=
  match o with SCreate _ fid _ _ _ s => str_or s fid ≠ sid | _ => True end.

Definition ses_wf (m : SessionManager) : Prop := dict_wf (_sessions m).

Lemma remove_lookup sid m i :
  ses_wf m → dget (_sessions (_remove sid m).2) i = if decide (sid = i) then None else dget (_sessions m) i.
Proof.
  intros Hw. unfold _remove. destruct (dmem (_sessions m) sid) eqn:E; simpl.
  - by rewrite dget_ddel.
  - case_decide; [|done]. subst. apply dget_None. intros Hin. apply dmem_spec in Hin. congruence.
Qed.

Lemma remove_wf sid m : ses_wf m → ses_wf (_remove sid m).2.
Proof. intros Hw. unfold _remove. case_test; [by apply dict_wf_ddel|done]. Qed.

Lemma removes_lookup sids m i :
  ses_wf m → ses_wf (foldl (λ m sid, (_remove sid m).2) m sids) ∧
  dget (_sessions (foldl (λ m sid, (_remove sid m).2) m sids)) i =
    if decide (i ∈ sids) then None else dget (_sessions m) i.
Proof.
  revert m. induction sids as [|sid sids IH]; intros m Hw; cbn [foldl].
  - split; [done|]. by rewrite decide_False by apply not_elem_of_nil.
  - destruct (IH (_remove sid m).2 (remove_wf _ _ Hw)) as [H1 H2]. split; [done|].
    rewrite H2, remove_lookup by done. destruct (decide (i ∈ sids)).
    + by rewrite decide_True by set_solver.
    + destruct (decide (sid = i)) as [->|]; [by rewrite decide_True by set_solver|].
      by rewrite decide_False by set_solver.
Qed.

Lemma ses_step_wf m o : ses_wf m → ses_wf (ses_step m o).
Proof.
  intros Hw. destruct o as [now fid rt sn tr sid|now sid|sid|now|]; simpl.
  - by apply dict_wf_dset.
  - unfold get_session. destruct (dget _ sid); [|done]. case_test; [by apply remove_wf|by apply dict_wf_dset].
  - by apply remove_wf.
  - by apply (removes_lookup _ m "").
  - constructor.
Qed.

(** What one operation does to the entry of [sid]: it stays, it is touched or
    it goes. *)
Lemma ses_step_entry m o sid s :
  ses_wf m → not_created sid o → dget (_sessions (ses_step m o)) sid = Some s →
  ∃ s0, dget (_sessions m) sid = Some s0 ∧ (s = s0 ∨ ∃ now, s = touch now s0 ∧ session_expired now s0 = false).
Proof.
  intros Hw Hn. destruct o as [now fid rt sn tr sid'|now sid'|sid'|now|]; simpl in *.
  - rewrite dget_dset_ne by done. eauto.
  - unfold get_session. destruct (dget (_sessions m) sid') as [s1|] eqn:E; [|eauto].
    destruct (session_expired now s1) eqn:Ex; simpl.
    + rewrite remove_lookup by done. case_decide; [done|eauto].
    + rewrite dget_dset. case_decide; [|eauto]. intros; simplify_eq. eauto 6.
  - unfold remove_session. rewrite remove_lookup by done. case_decide; [done|eauto].
  - unfold cleanup. rewrite (proj2 (removes_lookup _ m sid Hw)). case_decide; [done|eauto].
  - done.
Qed.

Lemma ses_run_entry m ops sid s :
  ses_wf m → Forall (not_created sid) ops → dget (_sessions (ses_run m ops)) sid = Some s →
  ∃ s0, dget (_sessions m) sid = Some s0 ∧ routing_table s = routing_table s0 ∧
    capability_snapshot s = capability_snapshot s0 ∧ ses_ttl s = ses_ttl s0 ∧ ses_created_at s = ses_created_at s0.
Proof.
  intros Hw Hf. revert m Hw. induction Hf as [|o ops Hn Hf IH]; intros m Hw Hs; simpl in *; [by exists s|].
  destruct (IH _ (ses_step_wf _ o Hw) Hs) as (s1 & H1 & E1 & E2 & E3 & E4).
  destruct (ses_step_entry m o sid s1 Hw Hn H1) as (s0 & H0 & [->|(now & -> & _)]); exists s0; simpl in *; by split_and!.
Qed.

(** The routing of a session is frozen: whatever happens between its
    creation and a later successful look-up (other sessions, removals, cleanup
    sweeps, look-ups), short of creating a session under the same id, the
    session resolves every tool as the table given at its creation did, and its
    time-to-live is the default at that time.  A look-up succeeds only for a
    stored session that has not been idle beyond its time-to-live, and restarts
    the idle timer. *)
Theorem session_routing_frozen m now fid rt sn tr sid ops now' s :
  ses_wf m → Forall (not_created (str_or sid fid)) ops →
  let m1 := ses_run (create_session now fid rt sn tr sid m).2 ops in
  (get_session now' (str_or sid fid) m1).1 = Some s →
  (∀ tool, resolve_backend s tool = dget rt tool) ∧ ses_ttl s = _default_ttl m ∧ last_active s = now' ∧
  (∃ s0, dget (_sessions m1) (str_or sid fid) = Some s0 ∧ idle_time now' s0 <= ses_ttl s0).
Proof.
  intros Hw Hops m1 Hget. unfold get_session in Hget at 1.
  destruct (dget (_sessions m1) (str_or sid fid)) as [s0|] eqn:E; [|done].
  destruct (session_expired now' s0) eqn:Ex; [done|]. simpl in Hget. injection Hget as <-.
  destruct (ses_run_entry (create_session now fid rt sn tr sid m).2 ops (str_or sid fid) s0) as (s1 & H1 & E1 & E2 & E3 & E4);
    [by apply dict_wf_dset|done|done|].
  simpl in H1. rewrite dget_dset_eq in H1. simplify_eq. simpl in *.
  split_and!; [|done|done|].
  - intros tool. unfold resolve_backend. simpl. by rewrite E1.
  - exists s0. split; [done|]. unfold session_expired in Ex. reflect_bools. unfold idle_time. lia.
Qed.

Lemma session_routing_frozen_witness :
  let m := {| _sessions := []; _default_ttl := 1800000 |} in
  let m1 := ses_run (create_session 0 "s1" [("search", "a")] [] "sse" None m).2
              [SCreate 5 "s2" [("search", "b")] [] "sse" None; SCleanup 10; SGet 20 "s1"] in
  (∀ tool, resolve_backend (touch 30 (touch 20 (create_session 0 "s1" [("search", "a")] [] "sse" None m).1)) tool =
     dget [("search", "a")] tool) ∧
  (get_session 1900000 "s1" m1).1 = None.
Proof.
  intros m m1. split; [|vm_compute; reflexivity].
  destruct (session_routing_frozen m 0 "s1" [("search", "a")] [] "sse" None
    [SCreate 5 "s2" [("search", "b")] [] "sse" None; SCleanup 10; SGet 20 "s1"] 30
    (touch 30 (touch 20 (create_session 0 "s1" [("search", "a")] [] "sse" None m).1))) as [H _].
  - constructor.
  - repeat constructor. discriminate.
  - reflexivity.
  - exact H.
Defined.
