(* ===== verification/ConfigDiff.v ===== *)
(** * Configuration differences (config/diff.py)

    The comparison of two backend configurations that a reload acts on.  A
    configuration is a dictionary from backend names to the dictionaries that
    config/loader.py produces. *)
From Stdlib Require Import QArith.
From S2P Require Import Prelude PyDict.
Local Open Scope Z_scope.

(** Python's [==] on JSON-like values: dictionaries compare without order, and
    a boolean equals the integer it stands for. *)
Fixpoint py_eqb (a b : pyval) : bool :=
  match a, b with
  | PNone, PNone => true
  | PBool x, PBool y => Bool.eqb x y
  | PBool x, PInt z | PInt z, PBool x => Z.b2z x =? z
  | PInt x, PInt y => x =? y
  | PStr x, PStr y => bool_decide (x = y)
  | PList la, PList lb =>
      (fix go (la lb : list pyval) : bool :=
         match la, lb with
         | [], [] => true
         | x :: la', y :: lb' => py_eqb x y && go la' lb'
         | _, _ => false
         end) la lb
  | PDict da, PDict db =>
      bool_decide (length da = length db) &&
      (fix go (da : list (string * pyval)) : bool :=
         match da with
         | [] => true
         | (k, v) :: da' => match dget db k with Some w => py_eqb v w | None => false end && go da'
         end) da
  | _, _ => false
  end.

(** Every dictionary inside a value holds each key once. *)
Fixpoint py_wf (v : pyval) : Prop :=
  match v with
  | PList l => foldr (λ x P, py_wf x ∧ P) True l
  | PDict d => dict_wf d ∧ foldr (λ kv P, py_wf kv.2 ∧ P) True d
  | _ => True
  end.

Record StdioServerParameters := {
  sp_command : string; sp_args : list string; sp_env : option (odict string string) }.

Definition env_val (e : option (odict string string)) : pyval :=
  match e with Some d => PDict ((λ kv, (kv.1, PStr kv.2)) <$> d) | None => PNone end.

(** One entry of the configuration.  [bd_id] is the identity of the dictionary
    object, [bd_fields] its keys other than the ones with a field of their own. *)
Record backend_dict := {
  bd_id : nat;
  bd_type : option string;
  bd_params : option StdioServerParameters;
  bd_fields : odict string pyval;
  bd_retries : option Z;
  bd_retry_delay : option Q;
  bd_retry_backoff : option Q }.

Definition config := odict string backend_dict.

(** [d.get(k)] *)
Definition bget (d : backend_dict) (k : string) : pyval := default PNone (dget (bd_fields d) k).

Definition get_differ (old new : backend_dict) (k : string) : bool := negb (py_eqb (bget old k) (bget new k)).

Definition _stdio_configs_differ (old new : backend_dict) : bool :=
  match bd_params old, bd_params new with
  | Some o, Some n =>
      negb (bool_decide (sp_command o = sp_command n)) ||
      negb (bool_decide (sp_args o = sp_args n)) ||
      negb (py_eqb (env_val (sp_env o)) (env_val (sp_env n)))
  | None, None => false
  | _, _ => true
  end.

Definition _sse_configs_differ (old new : backend_dict) : bool :=
  get_differ old new "url" || get_differ old new "command" || get_differ old new "args" ||
  get_differ old new "env" || get_differ old new "headers" || get_differ old new "auth".

Definition _streamable_configs_differ (old new : backend_dict) : bool :=
  get_differ old new "url" || get_differ old new "headers" || get_differ old new "auth".

Definition configs_differ (old new : backend_dict) : bool :=
  if negb (bool_decide (bd_type old = bd_type new)) then true
  else if bool_decide (bd_type old = Some "stdio") then _stdio_configs_differ old new
  else if bool_decide (bd_type old = Some "sse") then _sse_configs_differ old new
  else if bool_decide (bd_type old = Some "streamable-http") then _streamable_configs_differ old new
  else false.

Record ConfigDiff := { added : gset string; removed : gset string; changed : gset string }.

Definition has_changes (d : ConfigDiff) : bool :=
  negb (bool_decide (added d = ∅)) || negb (bool_decide (removed d = ∅)) || negb (bool_decide (changed d = ∅)).

Definition name_differs (old_config new_config : config) (name : string) : bool :=
  match dget old_config name, dget new_config name with
  | Some o, Some n => configs_differ o n
  | _, _ => false
  end.

Definition compute_diff (old_config new_config : config) : ConfigDiff :=
  let old_names : gset string := list_to_set (dkeys old_config) in
  let new_names : gset string := list_to_set (dkeys new_config) in
  {| added := new_names ∖ old_names;
     removed := old_names ∖ new_names;
     changed := filter (λ name, name_differs old_config new_config name) (old_names ∩ new_names) |}.

(** ** Equality *)

Lemma py_eqb_refl v : py_wf v → py_eqb v v = true.
Proof.
  induction v as [| | | |l IH|d IH] using pyval_nested_ind; simpl; intros Hw.
  - done.
  - apply Bool.eqb_reflx.
  - apply Z.eqb_refl.
  - by rewrite bool_decide_eq_true.
  - induction IH as [|x l Hx _ IHl]; [done|]. destruct Hw as [Hwx Hwl]. by rewrite Hx, IHl.
  - destruct Hw as [Hd Hw]. rewrite bool_decide_eq_true_2 by done. cbn [andb].
    assert (∀ d', (∀ k v, (k, v) ∈ d' → (k, v) ∈ d) → Forall (λ kv, py_wf kv.2 → py_eqb kv.2 kv.2 = true) d' →
      foldr (λ kv P, py_wf kv.2 ∧ P) True d' →
      (fix go (da : list (string * pyval)) : bool :=
         match da with
         | [] => true
         | (k, v) :: da' => match dget d k with Some w => py_eqb v w | None => false end && go da'
         end) d' = true) as H; [|by apply H].
    clear IH Hw. intros d' Hsub Hall. induction Hall as [|[k v] d' Hv _ IHd]; [done|]. intros [Hwv Hwd].
    rewrite (elem_dget d k v) by (try done; apply Hsub; left). simpl in Hv. rewrite Hv by done.
    apply IHd; [|done]. intros k' v' Hin. apply Hsub. by right.
Qed.

(** Dictionaries that a Python program can build. *)
Definition backend_wf (d : backend_dict) : Prop :=
  (∀ k, py_wf (bget d k)) ∧
  match bd_params d with Some p => py_wf (env_val (sp_env p)) | None => True end.
Definition config_wf (c : config) : Prop := dict_wf c ∧ ∀ n d, dget c n = Some d → backend_wf d.

Lemma get_differ_refl d k : backend_wf d → get_differ d d k = false.
Proof. intros [H _]. unfold get_differ. by rewrite py_eqb_refl. Qed.

Lemma configs_differ_refl d : backend_wf d → configs_differ d d = false.
Proof.
  intros Hw. unfold configs_differ, _sse_configs_differ, _streamable_configs_differ.
  rewrite !get_differ_refl by done. rewrite (bool_decide_eq_true_2 (bd_type d = bd_type d)) by done.
  cbn [negb orb]. destruct Hw as [_ Hp]. repeat case_test; try done.
  unfold _stdio_configs_differ. destruct (bd_params d); [|done].
  rewrite !bool_decide_eq_true_2, py_eqb_refl by done. done.
Qed.

Lemma elem_added old new n : n ∈ added (compute_diff old new) ↔ n ∈ dkeys new ∧ n ∉ dkeys old.
Proof. unfold compute_diff. cbn [added]. set_solver. Qed.
Lemma elem_removed old new n : n ∈ removed (compute_diff old new) ↔ n ∈ dkeys old ∧ n ∉ dkeys new.
Proof. unfold compute_diff. cbn [removed]. set_solver. Qed.
Lemma elem_changed old new n :
  n ∈ changed (compute_diff old new) ↔
  ∃ o d, dget old n = Some o ∧ dget new n = Some d ∧ configs_differ o d = true.
Proof.
  unfold compute_diff. cbn [changed]. rewrite elem_of_filter, elem_of_intersection, !elem_of_list_to_set.
  rewrite <-!dget_is_Some. unfold name_differs. split.
  - intros (Hd & [o Ho] & [d Hn]). rewrite Ho, Hn in Hd. exists o, d. by destruct (configs_differ o d).
  - intros (o & d & Ho & Hn & Hd). rewrite Ho, Hn, Hd. by eauto.
Qed.

Lemma dget_perm {V} (c c' : odict string V) n : dict_wf c → Permutation c c' → dget c' n = dget c n.
Proof.
  intros Hw Hp. assert (dict_wf c') as Hw' by (unfold dict_wf, dkeys in *; by rewrite <-Hp).
  destruct (dget c n) as [v|] eqn:E.
  - apply elem_dget; [done|]. rewrite <-Hp. by apply dget_Some_elem.
  - apply dget_None. apply dget_None in E. unfold dkeys in *. by rewrite <-Hp.
Qed.

Lemma gset_empty_iff (X : gset string) : X = ∅ ↔ ∀ x, x ∉ X.
Proof. rewrite <-leibniz_equiv_iff. apply elem_of_equiv_empty. Qed.

(** A difference sorts every backend name into added, removed or changed,
    or none of them; the three sets are disjoint and lead from the old names to
    the new ones.  A reload of a configuration that only lists its backends in
    another order finds no change. *)
Theorem diff_exact old new :
  let d := compute_diff old new in
  (added d ## removed d ∧ added d ## changed d ∧ removed d ## changed d) ∧
  (∀ n, n ∈ dkeys new ↔ (n ∈ dkeys old ∧ n ∉ removed d) ∨ n ∈ added d) ∧
  (∀ n, n ∈ changed d ↔ ∃ o e, dget old n = Some o ∧ dget new n = Some e ∧ configs_differ o e = true) ∧
  (config_wf old → Permutation old new → has_changes d = false).
Proof.
  intros d. unfold d. split_and!.
  - intros n Ha Hr. apply elem_added in Ha. apply elem_removed in Hr. tauto.
  - intros n [_ Ha]%elem_added (o & _ & Ho & _)%elem_changed. apply Ha, dget_is_Some. by eauto.
  - intros n [_ Ha]%elem_removed (_ & e & _ & He & _)%elem_changed. apply Ha, dget_is_Some. by eauto.
  - intros n. rewrite elem_added, elem_removed. destruct (decide (n ∈ dkeys old)), (decide (n ∈ dkeys new)); tauto.
  - intros n. apply elem_changed.
  - intros [Hw Hb] Hp. assert (∀ n, n ∈ dkeys new ↔ n ∈ dkeys old) as Hk.
    { intros n. unfold dkeys. by rewrite Hp. }
    unfold has_changes. rewrite !bool_decide_eq_true_2; [done|..]; apply gset_empty_iff; intros n.
    + intros (o & e & Ho & He & Hd)%elem_changed. rewrite (dget_perm old) in He by done.
      rewrite Ho in He. injection He as <-. rewrite configs_differ_refl in Hd by eauto. done.
    + rewrite elem_removed, Hk. tauto.
    + rewrite elem_added, Hk. tauto.
Qed.

(** The keys a comparison reads. *)
Definition compared_keys : list string := ["url"; "command"; "args"; "env"; "headers"; "auth"].

(** Only the type, the process parameters and six keys count: a change of
    anything else (container limits, timeouts, retries) is not a difference. *)
Lemma unread_fields_ignored o e :
  backend_wf o → bd_type e = bd_type o → bd_params e = bd_params o →
  (∀ k, k ∈ compared_keys → bget e k = bget o k) → configs_differ o e = false.
Proof.
  intros Hw Ht Hp Hk. rewrite <-(configs_differ_refl o Hw). unfold configs_differ, _stdio_configs_differ,
    _sse_configs_differ, _streamable_configs_differ, get_differ. rewrite Ht, Hp.
  rewrite !Hk by (unfold compared_keys; set_solver). done.
Qed.

Definition example_backend (i : nat) (u : string) (fields : odict string pyval) : backend_dict :=
  {| bd_id := i; bd_type := Some "sse"; bd_params := None; bd_fields := ("url", PStr u) :: fields;
     bd_retries := None; bd_retry_delay := None; bd_retry_backoff := None |}.

Lemma diff_exact_witness :
  let a := example_backend 0 "http://a" [] in
  let b := example_backend 1 "http://b" [] in
  has_changes (compute_diff [("a", a); ("b", b)] [("b", b); ("a", a)]) = false.
Proof.
  intros a b. apply (diff_exact [("a", a); ("b", b)] [("b", b); ("a", a)]).
  - split; [by_decide|]. intros n d. cbn [dget]. repeat case_decide; intros E; inversion E; subst.
    + split; [|done]. intros k. unfold bget. simpl. by case_decide.
    + split; [|done]. intros k. unfold bget. simpl. by case_decide.
  - constructor.
Defined.
