(* ===== verification/Container.v ===== *)
(** * Container isolation (bridge/container/runtime.py, network.py, labels.py,
      go_docker_adapter.py, wrapper.py)

    Which container runtime is used, and how the command of a backend is turned
    into a container that was created beforehand: the arguments of the creation,
    the table of containers to clean up, and every way in which the backend
    ends up running without isolation.

    The outside answers as in Images.v.  [late] tells whether a command with a
    time limit exceeds it; [which] and [getenv] are the search path and the
    environment; [k8s_ok] is whether the Kubernetes API answers.  [py_int] is
    [int(text)]; [float_text] is [str(float(text))], with [None] inside for zero
    ([None]: a [ValueError]).  Warnings about volumes and secrets are not
    modelled. *)
From S2P Require Import Prelude PyDict Effects Glob PyStr Json Schema Images ConfigDiff.
From Stdlib Require Import Ascii.

(** ** Networks and labels *)

Definition DEFAULT_NETWORK : string := "bridge".
Definition effective_network (configured : option string) : string :=
  match configured with
  | Some n => if bool_decide (str_strip n = "") then DEFAULT_NETWORK else str_strip n
  | None => DEFAULT_NETWORK
  end.

Definition default_labels (server_id : string) (project session_id : option string) : odict string string :=
  [("argus.managed", "true"); ("argus.server_id", server_id)] ++
  (if str_truthy project then [("argus.project", default "" project)] else []) ++
  (if str_truthy session_id then [("argus.session_id", default "" session_id)] else []).

(** ** The arguments of [docker create] *)

Definition _DEFAULT_CAP_DROP : list string := ["ALL"].
Definition _DEFAULT_MEMORY : string := "512m".
Definition _DEFAULT_CPUS : string := "1".

(** [sorted(d.items())] *)
Definition sorted_items (d : odict string string) : list (string * string) :=
  (λ k, (k, default "" (dget d k))) <$> sorted_names (dkeys d).

Definition bare_flag (flag : string) : string := default "" (head (str_split equals_sign (lstrip_by (is_char 45) flag))).
Definition dangerous_flag (flag : string) : bool :=
  bool_decide (flag ∈ DANGEROUS_DOCKER_FLAGS) || bool_decide ("--" +:+ bare_flag flag ∈ DANGEROUS_DOCKER_FLAGS).

Definition tmpfs_options : string := ":rw,nosuid,size=64m,mode=1777".
Definition hardening (network memory cpus : string) : list string :=
  ["create"; "--rm"; "-i"; "--init"; "--network"; network; "--memory"; memory; "--cpus"; cpus; "--read-only"] ++
  (_DEFAULT_CAP_DROP ≫= λ cap, ["--cap-drop"; cap]) ++
  ["--security-opt"; "no-new-privileges"; "--security-opt"; "label=disable";
   "--tmpfs"; "/tmp" +:+ tmpfs_options; "--tmpfs"; CONTAINER_HOME +:+ tmpfs_options;
   "-e"; "HOME=" +:+ CONTAINER_HOME; "-e"; "TMPDIR=/tmp"].

Definition _build_create_args (image_tag : string) (runtime_args : list string) (env : option (odict string string))
    (network memory cpus : string) (volumes extra_args : list string) (labels : odict string string)
  : img_exc + list string :=
  _ ← check_each (λ flag, if dangerous_flag flag then inl (ERuntimeError ("Dangerous Docker flag '" +:+ flag +:+ "' rejected")) else inr tt)
        extra_args;
  inr (hardening network memory cpus ++
       (volumes ≫= λ vol, ["-v"; vol]) ++
       (sorted_items labels ≫= λ kv, ["--label"; kv.1 +:+ "=" +:+ kv.2]) ++
       (sorted_items (default [] env) ≫= λ kv, ["-e"; kv.1 +:+ "=" +:+ kv.2]) ++
       extra_args ++ image_tag :: runtime_args).

(** ** The native adapter *)

Definition _MEM_SUFFIXES : list (nat * Z) := [(107%nat, 1024); (109%nat, 1024 ^ 2); (103%nat, 1024 ^ 3); (116%nat, 1024 ^ 4)].
Definition _parse_memory_string (py_int : string → option Z) (mem : string) : option Z :=
  let m := chars (lower (str_strip mem)) in
  match reverse m with
  | [] => Some 0
  | c :: front =>
      match List.find (λ s, is_char s.1 c) _MEM_SUFFIXES with
      | Some (_, factor) => (λ n, n * factor) <$> py_int (text (reverse front))
      | None => py_int (text m)
      end
  end.

Definition opt_arg (k : string) (present : bool) (v : string) : odict string string := if present then [(k, v)] else [].
Definition json_list (l : list string) : string := dumps None (PList (PStr <$> l)).
Definition json_dict (d : odict string string) : string := dumps None (PDict ((λ kv, (kv.1, PStr kv.2)) <$> d)).

(** The request of [GoDockerAdapter.create]. *)
Definition create_request (image name : string) (cmd : list string) (env : odict string string) (network : string)
    (memory : Z) (cpus : option string) (volumes : list string) (read_only : bool) (cap_drop : list string)
    (labels : odict string string) : odict string string :=
  [("image", image); ("name", name)] ++
  opt_arg "cmd" (negb (bool_decide (cmd = []))) (json_list cmd) ++
  opt_arg "env" (negb (bool_decide (env = []))) (json_dict env) ++
  opt_arg "network" (negb (bool_decide (network = ""))) network ++
  opt_arg "memory" (negb (memory =? 0)) (str_of_int memory) ++
  match cpus with Some c => [("cpus", c)] | None => [] end ++
  opt_arg "volumes" (negb (bool_decide (volumes = []))) (json_list volumes) ++
  opt_arg "read_only" read_only "true" ++
  opt_arg "cap_drop" (negb (bool_decide (cap_drop = []))) (json_list cap_drop) ++
  opt_arg "labels" (negb (bool_decide (labels = []))) (json_dict labels).

Definition go_volumes (volumes : list string) : list string :=
  ["/tmp:/tmp:rw"; CONTAINER_HOME +:+ ":" +:+ CONTAINER_HOME +:+ ":rw"] ++ volumes.
Definition go_env (env : option (odict string string)) : odict string string :=
  dupdate [("HOME", CONTAINER_HOME); ("TMPDIR", "/tmp")] (default [] env).

(** ** Runtimes *)

Inductive RuntimeType := DOCKER | PODMAN | KUBERNETES.
#[global] Instance RuntimeType_eq_dec : EqDecision RuntimeType.
Proof. solve_decision. Defined.
Definition runtime_name (t : RuntimeType) : string :=
  match t with DOCKER => "docker" | PODMAN => "podman" | KUBERNETES => "kubernetes" end.
Definition from_str (value : string) : option RuntimeType :=
  let n := lower (str_strip value) in
  let n := default n (dget [("k8s", "kubernetes"); ("kube", "kubernetes")] n) in
  List.find (λ t, bool_decide (runtime_name t = n)) [DOCKER; PODMAN; KUBERNETES].

(** A runtime object with its cached health. *)
Record ContainerRuntime := { rt_type : RuntimeType; rt_healthy : option bool }.
Definition rt_name (r : ContainerRuntime) : string := runtime_name (rt_type r).

(** What the gateway process keeps: the history, the runtime that the factory
    has chosen, and the containers to clean up. *)
Record host := {
  h_history : history; h_runtime : option ContainerRuntime; h_active : odict string (string * string) }.
Definition set_history (h : history) (s : host) : host :=
  {| h_history := h; h_runtime := h_runtime s; h_active := h_active s |}.
Definition set_runtime (r : option ContainerRuntime) (s : host) : host :=
  {| h_history := h_history s; h_runtime := r; h_active := h_active s |}.
Definition set_active (a : odict string (string * string)) (s : host) : host :=
  {| h_history := h_history s; h_runtime := h_runtime s; h_active := a |}.
Abbreviation cm := (M host img_exc).
Definition outside {A} (m : hm A) : cm A := λ s, let '(r, h) := m (h_history s) in (r, set_history h s).

Record WrapOptions := {
  wo_enabled : bool; wo_runtime : option string; wo_network : option string; wo_memory : option string;
  wo_cpus : option string; wo_volumes : list string; wo_extra_args : list string; wo_image : ImageOptions;
  wo_shared : bool }.

Section wrapper.
Context (render : string → TemplateData → string) (sha256_hex : string → string) (bracket_ok : string → bool)
  (exec : history → list string → exec_result) (go_available : bool)
  (go_call : history → string → odict string string → option go_reply) (write_ok : history → bool)
  (cache_dir : string) (read_file : string → option (option string)) (abspath : string → string)
  (late : history → bool) (which : string → bool) (getenv : string → option string) (k8s_ok : history → bool)
  (py_int : string → option Z) (float_text : string → option (option string)).

(** A command with a time limit: [None] when it is exceeded. *)
Definition run_timed (argv : list string) : hm (option exec_result) := λ h,
  (inr (if late h then None else Some (exec h argv)), Exec argv :: h).

(** *** The operations of a runtime *)

Definition is_available : bool := str_truthy (getenv "KUBERNETES_SERVICE_HOST").
Definition probe (r : ContainerRuntime) : hm bool :=
  match rt_type r with
  | KUBERNETES => λ h, (inr (is_available && k8s_ok h), h)
  | _ => a ← run_timed [rt_name r; "version"]; mret (match a with Some res => succeeded res | None => false end)
  end.
(** For the runtime that the factory keeps; the answer is kept in the object. *)
Definition is_healthy (r : ContainerRuntime) : cm bool :=
  match rt_healthy r with
  | Some b => mret b
  | None =>
      b ← outside (probe r);
      _ ← modify (set_runtime (Some {| rt_type := rt_type r; rt_healthy := Some b |}));
      mret b
  end.

Definition create_network (r : ContainerRuntime) (network_name : string) (internal : bool) : hm bool :=
  match rt_type r with
  | KUBERNETES => mret true
  | _ =>
      found ← run exec [rt_name r; "network"; "inspect"; network_name];
      if succeeded found then mret true
      else made ← run exec ([rt_name r; "network"; "create"] ++ (if internal then ["--internal"] else []) ++ [network_name]);
           mret (succeeded made)
  end.
Definition remove_network (r : ContainerRuntime) (network_name : string) : hm () :=
  match rt_type r with
  | KUBERNETES => mret ()
  | _ => _ ← run exec [rt_name r; "network"; "rm"; network_name]; mret ()
  end.
Definition pull_image (r : ContainerRuntime) (image : string) : hm bool :=
  match rt_type r with
  | KUBERNETES => mret true
  | _ => a ← run exec [rt_name r; "pull"; image]; mret (succeeded a)
  end.
Definition remove_image (r : ContainerRuntime) (image_tag : string) : hm () :=
  match rt_type r with
  | KUBERNETES => mret ()
  | _ => _ ← run exec [rt_name r; "rmi"; "-f"; image_tag]; mret ()
  end.

(** *** The factory *)

Definition fresh_runtime (t : RuntimeType) : ContainerRuntime := {| rt_type := t; rt_healthy := None |}.
Definition _create_explicit (name : string) : option ContainerRuntime :=
  let n := lower (str_strip name) in
  if bool_decide (n = "docker") then if which "docker" then Some (fresh_runtime DOCKER) else None
  else if bool_decide (n = "podman") then if which "podman" then Some (fresh_runtime PODMAN) else None
  else if bool_decide (n ∈ ["kubernetes"; "k8s"; "kube"]) then
    if is_available then Some (fresh_runtime KUBERNETES) else None
  else None.
(** The registered runtimes in the order of their priority. *)
Definition detector (t : RuntimeType) : bool :=
  match t with DOCKER => which "docker" | PODMAN => which "podman" | KUBERNETES => is_available end.
Definition auto_detect : option ContainerRuntime := fresh_runtime <$> List.find detector [DOCKER; PODMAN; KUBERNETES].

Definition detect (override : option string) : cm (option ContainerRuntime) :=
  s ← get_state;
  match h_runtime s with
  | Some r => mret (Some r)
  | None =>
      let explicit := if str_truthy override then default "" override else str_strip (default "" (getenv "ARGUS_RUNTIME")) in
      let found := if bool_decide (explicit = "") then auto_detect
                   else match _create_explicit explicit with Some r => Some r | None => auto_detect end in
      _ ← modify (set_runtime found);
      mret found
  end.

(** *** Creating and removing containers *)

Definition _go_adapter_create (image_tag svr_name : string) (runtime_args : list string) (env : option (odict string string))
    (network memory cpus : string) (volumes : list string) (labels : odict string string) : hm (option string) :=
  match _parse_memory_string py_int memory, float_text cpus with
  | Some m, Some c =>
      r ← ask_adapter go_call "create" (create_request image_tag svr_name runtime_args (go_env env) network m c
                                   (go_volumes volumes) true _DEFAULT_CAP_DROP labels);
      mret (g ← r; if gr_ok g then gr_container_id g else None)
  | _, _ => mret None
  end.

Definition container_id_of (r : option exec_result) : option string :=
  match r with
  | Some (Exit 0 stdout) => if bool_decide (str_strip stdout = "") then None else Some (str_strip stdout)
  | _ => None
  end.
Definition _create_container (runtime : string) (create_args : list string) : hm (option string) :=
  r ← run_timed (runtime :: create_args); mret (container_id_of r).

(** Two attempts, the second one only after a time-out. *)
Definition _remove_stale_named_container (runtime name : string) : hm () :=
  r ← run_timed [runtime; "rm"; "-f"; name];
  match r with
  | Some _ => mret ()
  | None => _ ← run_timed [runtime; "rm"; "-f"; name]; mret ()
  end.

Definition cleanup_container (svr_name : string) : cm () :=
  s ← get_state;
  match dget (h_active s) svr_name with
  | None => mret ()
  | Some (runtime, cid) =>
      _ ← modify (set_active (ddel (h_active s) svr_name));
      _ ← outside (run_timed [runtime; "rm"; "-f"; cid]);
      mret ()
  end.
Fixpoint cleanup_names (names : list string) : cm () :=
  match names with
  | [] => mret ()
  | n :: names' => _ ← cleanup_container n; cleanup_names names'
  end.
Definition cleanup_all_containers : cm () := s ← get_state; cleanup_names (dkeys (h_active s)).

(** *** The wrapper *)

Definition isolation_off : bool :=
  bool_decide (lower (str_strip (default "" (getenv "ARGUS_CONTAINER_ISOLATION"))) ∈ ["0"; "false"; "no"; "off"; "disabled"]).

(** Whether the command can be turned into an image at all. *)
Definition wrappable (command : string) (o : ImageOptions) : bool :=
  str_truthy (io_source_url o) || str_truthy (io_dockerfile o) ||
  let transport := if str_truthy (io_transport o) then io_transport o else classify_command command in
  match transport with None => false | Some t => negb (bool_decide (t = "docker")) end.

Definition create_any (container_runtime image_tag svr_name : string) (runtime_args : list string)
    (env : option (odict string string)) (o : WrapOptions) : hm (option string) :=
  let net_mode := effective_network (wo_network o) in
  let mem := str_or (wo_memory o) _DEFAULT_MEMORY in
  let cpu := str_or (wo_cpus o) _DEFAULT_CPUS in
  let labels := default_labels svr_name None None in
  first ← (if go_available
           then _go_adapter_create image_tag svr_name runtime_args env net_mode mem cpu (wo_volumes o) labels
           else mret None);
  match first with
  | Some cid => mret (Some cid)
  | None =>
      create_args ← lift_sum (_build_create_args image_tag runtime_args env net_mode mem cpu (wo_volumes o)
                                (wo_extra_args o) labels);
      _create_container container_runtime create_args
  end.

(** A table that the caller does not share is empty and dropped. *)
Definition track (shared : bool) (svr_name : string) (entry : string * string) : cm () :=
  modify (λ s, if shared then set_active (dset (h_active s) svr_name entry) s else s).

Definition wrap_backend (svr_name : string) (params : StdioServerParameters) (o : WrapOptions)
  : cm (StdioServerParameters * bool) :=
  if negb (wo_enabled o) || isolation_off || is_already_containerised (sp_command params) (sp_args params)
  then mret (params, false)
  else
    found ← detect (wo_runtime o);
    match found with
    | None => mret (params, false)
    | Some runtime =>
        healthy ← is_healthy runtime;
        if negb healthy || negb (wrappable (sp_command params) (wo_image o)) then mret (params, false)
        else
          let container_runtime := rt_name runtime in
          '(image_tag, _, runtime_args) ←
             outside (ensure_image render sha256_hex bracket_ok exec go_available go_call write_ok cache_dir read_file
                        abspath (sp_command params) (sp_args params) container_runtime (wo_image o));
          match image_tag with
          | None => mret (params, false)
          | Some tag =>
              _ ← (if wo_shared o then cleanup_container svr_name else mret ());
              _ ← outside (_remove_stale_named_container container_runtime svr_name);
              cid ← outside (create_any container_runtime tag svr_name runtime_args (sp_env params) o);
              match cid with
              | None => mret (params, false)
              | Some cid =>
                  _ ← track (wo_shared o) svr_name (container_runtime, cid);
                  mret ({| sp_command := container_runtime; sp_args := ["start"; "-ai"; cid]; sp_env := None |}, true)
              end
          end
    end.

(** *** The callers (transport_factory.py, backend_connection.py, cli/_build.py) *)

Definition build_on_startup : bool :=
  let v := lower (str_strip (default "" (getenv "ARGUS_BUILD_ON_STARTUP"))) in
  if bool_decide (v = "") then true else bool_decide (v ∈ ["1"; "true"; "yes"; "on"; "enabled"]).

(** The options of a container section; [network_mode] is the fallback. *)
Definition options_of (c : ContainerConfig) (network_mode : option string) (build shared : bool) : WrapOptions := {|
  wo_enabled := cc_enabled c; wo_runtime := cc_runtime c;
  wo_network := if str_truthy (cc_network c) then cc_network c else network_mode;
  wo_memory := cc_memory c; wo_cpus := cc_cpus c; wo_volumes := cc_volumes c; wo_extra_args := cc_extra_args c;
  wo_image := {| io_build_if_missing := build; io_system_deps := cc_system_deps c;
                 io_build_system_deps := cc_build_system_deps c; io_builder_image := cc_builder_image c;
                 io_additional_packages := cc_additional_packages c; io_transport := cc_transport c;
                 io_go_package := cc_go_package c; io_source_url := cc_source_url c;
                 io_build_steps := cc_build_steps c; io_entrypoint := default [] (cc_entrypoint c);
                 io_build_env := Some (cc_build_env c); io_source_ref := cc_source_ref c;
                 io_dockerfile := cc_dockerfile c |};
  wo_shared := shared |}.

(** Wrapping before the connection starts: the result is kept with the
    configuration of the backend, and taken from there once. *)
Definition pre_build_container_image (svr_name : string) (params : option StdioServerParameters) (c : ContainerConfig)
    (network_mode : option string) : cm (option (StdioServerParameters * bool)) :=
  match params with
  | None => mret None
  | Some p => r ← wrap_backend svr_name p (options_of c network_mode build_on_startup true); mret (Some r)
  end.
Definition resolve_stdio_params (svr_name : string) (params : StdioServerParameters) (c : ContainerConfig)
    (network_mode : option string) (prebuilt : option (StdioServerParameters * bool)) : cm (StdioServerParameters * bool) :=
  match prebuilt with
  | Some r => mret r
  | None => wrap_backend svr_name params (options_of c network_mode build_on_startup true)
  end.
(** [argus-mcp build] wraps without a table of containers. *)
Definition _do_build (name : string) (params : StdioServerParameters) (c : ContainerConfig) (network_mode : option string)
  : cm string := λ s,
  match wrap_backend name params (options_of c network_mode true false) s with
  | (inr (_, isolated), s') => (inr (if isolated : bool then "ok" else "skip"), s')
  | (inl _, s') => (inr "fail", s')
  end.
End wrapper.

(** ** Containers that exist because of the gateway *)

Lemma ddel_absent {K V} `{EqDecision K} (d : odict K V) k : k ∉ dkeys d → ddel d k = d.
Proof.
  induction d as [|[a b] d IH]; [done|]. unfold dkeys. rewrite fmap_cons, not_elem_of_cons. intros [Hne Hd].
  simpl in *. rewrite decide_False by congruence. by rewrite IH.
Qed.

(** An event that creates a container with the whole baseline: through the
    command line, with the configured extra arguments after it, none of them on
    the list of dangerous flags; or through the adapter, read-only and without
    capabilities. *)
Definition baseline (o : WrapOptions) : list string :=
  hardening (effective_network (wo_network o)) (str_or (wo_memory o) _DEFAULT_MEMORY) (str_or (wo_cpus o) _DEFAULT_CPUS).
Definition creates (rt tag svr_name : string) (runtime_args : list string) (env : option (odict string string))
    (o : WrapOptions) (e : event) : Prop :=
  (Forall (λ flag, dangerous_flag flag = false) (wo_extra_args o) ∧
   ∃ settings, e = Exec (rt :: baseline o ++ settings ++ wo_extra_args o ++ tag :: runtime_args)) ∨
  (∃ memory cpus, e = Go "create" (create_request tag svr_name runtime_args (go_env env)
      (effective_network (wo_network o)) memory cpus (go_volumes (wo_volumes o)) true ["ALL"]
      (default_labels svr_name None None))).

Section facts.
Context (render : string → TemplateData → string) (sha256_hex : string → string) (bracket_ok : string → bool)
  (exec : history → list string → exec_result) (go_available : bool)
  (go_call : history → string → odict string string → option go_reply) (write_ok : history → bool)
  (cache_dir : string) (read_file : string → option (option string)) (abspath : string → string)
  (late : history → bool) (which : string → bool) (getenv : string → option string) (k8s_ok : history → bool)
  (py_int : string → option Z) (float_text : string → option (option string)).
Local Abbreviation wrap := (wrap_backend render sha256_hex bracket_ok exec go_available go_call write_ok cache_dir
  read_file abspath late which getenv k8s_ok py_int float_text).
Local Abbreviation cleanup := (cleanup_container exec late).
Local Abbreviation cleanup_all := (cleanup_all_containers exec late).
Local Abbreviation create := (create_any exec go_available go_call late py_int float_text).

(** The container that an event after a history created, as far as the gateway
    was told. *)
Definition created_by (h : history) (e : event) : option string :=
  match e with
  | Exec ((_ :: "create" :: _) as argv) => container_id_of (if late h then None else Some (exec h argv))
  | Go "create" args => g ← go_call h "create" args; if gr_ok g then gr_container_id g else None
  | _ => None
  end.
Fixpoint created (h : history) : list string :=
  match h with [] => [] | e :: h' => option_list (created_by h' e) ++ created h' end.
Definition removal_asked (cid : string) (h : history) : Prop := ∃ rt, Exec [rt; "rm"; "-f"; cid] ∈ h.

(** Events that create nothing. *)
Definition quiet (e : event) : Prop := ∀ h, created_by h e = None.

Lemma quiet_created new h : Forall quiet new → created (new ++ h) = created h.
Proof. induction 1 as [|e new He _ IH]; simpl; [done|]. by rewrite He, IH. Qed.
Lemma removal_asked_app new h cid : removal_asked cid h → removal_asked cid (new ++ h).
Proof. intros [rt H]. exists rt. apply elem_of_app. by right. Qed.
Lemma builder_event_quiet e : builder_event e → quiet e.
Proof.
  intros He h. destruct e as [[|rt [|verb argv]]|op args|]; cbn in He |- *; try done.
  - by destruct He as [->| ->].
  - by subst.
Qed.
Lemma quiet_exec rt verb argv : verb ≠ "create" → quiet (Exec (rt :: verb :: argv)).
Proof. intros Hv h. simpl. repeat case_match; simplify_eq; done. Qed.

(** A change of the state that creates no container and forgets one only after
    asking for its removal. *)
Definition calm (s s' : host) : Prop :=
  dict_wf (h_active s) →
  dict_wf (h_active s') ∧ (∃ new, h_history s' = new ++ h_history s) ∧
  created (h_history s') = created (h_history s) ∧
  (∀ n rt cid, dget (h_active s) n = Some (rt, cid) →
     dget (h_active s') n = Some (rt, cid) ∨ removal_asked cid (h_history s')) ∧
  (∀ n e, dget (h_active s') n = Some e → dget (h_active s) n = Some e).

Lemma calm_refl s : calm s s.
Proof. intros Hw. split_and!; [done|by exists []|done|auto|auto]. Qed.
Lemma calm_trans s1 s2 s3 : calm s1 s2 → calm s2 s3 → calm s1 s3.
Proof.
  intros H1 H2 Hw. destruct (H1 Hw) as (Hw2 & [n1 E1] & C1 & T1 & B1).
  destruct (H2 Hw2) as (Hw3 & [n2 E2] & C2 & T2 & B2).
  split_and!; [done|exists (n2 ++ n1); by rewrite E2, E1, app_assoc|congruence| |auto].
  intros n rt cid Hn. destruct (T1 _ _ _ Hn) as [Hn2|Hr]; [auto|]. right. rewrite E2. by apply removal_asked_app.
Qed.

Definition calms {A} (m : cm A) : Prop := ∀ s, calm s (m s).2.
Lemma calms_ret {A} (a : A) : calms (mret a).
Proof. intros s. apply calm_refl. Qed.
Lemma calms_bind {A B} (m : cm A) (k : A → cm B) : calms m → (∀ a, calms (k a)) → calms (m ≫= k).
Proof.
  intros Hm Hk s. rewrite run_bind. specialize (Hm s). destruct (m s) as [[e|a] s1]; [done|].
  eapply calm_trans; [exact Hm|apply Hk].
Qed.
Lemma calms_get {A} (k : host → cm A) : (∀ a, calms (k a)) → calms (get_state ≫= k).
Proof. intros Hk. apply calms_bind; [intros s; apply calm_refl|done]. Qed.
Lemma calms_outside {A} (m : hm A) : adds quiet m → calms (outside m).
Proof.
  intros Hm s Hw. unfold outside. destruct (Hm (h_history s)) as (new & E & Hq).
  destruct (m (h_history s)) as [r h]. cbn in E |- *. subst h.
  split_and!; [done|by exists new|by apply quiet_created|auto|auto].
Qed.
Lemma calms_set_runtime r : calms (modify (set_runtime r)).
Proof. intros s Hw. split_and!; [done|by exists []|done|auto|auto]. Qed.

Lemma adds_impl {A} (P Q : event → Prop) (m : hm A) : (∀ e, P e → Q e) → adds P m → adds Q m.
Proof. intros HPQ Hm h. destruct (Hm h) as (new & E & Hn). exists new. split; [done|]. by eapply Forall_impl. Qed.
Lemma adds_run_timed P argv : P (Exec argv) → adds P (run_timed exec late argv).
Proof. intros H h. exists [Exec argv]. split; [done|by constructor]. Qed.

Lemma adds_stale rt name : adds quiet (_remove_stale_named_container exec late rt name).
Proof.
  apply adds_bind; [by apply adds_run_timed, quiet_exec|]. intros [a|]; [apply adds_ret|].
  apply adds_bind; [by apply adds_run_timed, quiet_exec|]. intros. apply adds_ret.
Qed.
Lemma adds_probe r : adds quiet (probe exec late getenv k8s_ok r).
Proof.
  unfold probe. destruct (rt_type r).
  1-2: apply adds_bind; [by apply adds_run_timed, quiet_exec|intros; apply adds_ret].
  intros h. by exists [].
Qed.
Lemma calms_detect o : calms (detect which getenv o).
Proof. apply calms_get. intros s. case_match; [apply calms_ret|]. apply calms_bind; [apply calms_set_runtime|intros; apply calms_ret]. Qed.
Lemma calms_is_healthy r : calms (is_healthy exec late getenv k8s_ok r).
Proof.
  unfold is_healthy. destruct (rt_healthy r); [apply calms_ret|].
  apply calms_bind; [apply calms_outside, adds_probe|]. intros b.
  apply calms_bind; [apply calms_set_runtime|intros; apply calms_ret].
Qed.

(** Cleaning up asks for the removal of the container and forgets it. *)
Lemma cleanup_spec n s : dict_wf (h_active s) →
  (cleanup n s).1 = inr () ∧ h_active (cleanup n s).2 = ddel (h_active s) n ∧
  calm s (cleanup n s).2.
Proof.
  intros Hw. unfold cleanup_container. rewrite run_get. destruct (dget (h_active s) n) as [[rt cid]|] eqn:E.
  - rewrite run_modify. rewrite run_bind. simpl. split_and!; [done|done|]. intros _. split_and!.
    + by apply dict_wf_ddel.
    + by eexists [_].
    + apply (quiet_created [_]). constructor; [by apply quiet_exec|constructor].
    + intros n' rt' cid' Hn'. destruct (decide (n = n')) as [->|Hne].
      * right. rewrite E in Hn'. injection Hn' as <- <-. exists rt. left.
      * left. cbn. by rewrite dget_ddel_ne.
    + intros n' e. cbn. rewrite dget_ddel by done. by case_decide.
  - split_and!; [done| |apply calm_refl]. simpl. symmetry. apply ddel_absent. by apply dget_None.
Qed.
Lemma calms_cleanup n : calms (cleanup n).
Proof. intros s Hw. by apply (cleanup_spec n s). Qed.

(** *** Creating *)

Lemma go_create_spec tag svr rargs env net mem cpu vols labels h r h' :
  _go_adapter_create go_call py_int float_text tag svr rargs env net mem cpu vols labels h = (r, h') →
  match r with
  | inr (Some cid) => ∃ m c, let e := Go "create" (create_request tag svr rargs (go_env env) net m c (go_volumes vols) true ["ALL"] labels) in
      h' = e :: h ∧ created_by h e = Some cid
  | inr None => (∃ new, h' = new ++ h) ∧ created h' = created h
  | inl _ => False
  end.
Proof.
  unfold _go_adapter_create. destruct (_parse_memory_string py_int mem) as [m|].
  2: { intros [= <- <-]. split; [by exists []|done]. }
  destruct (float_text cpu) as [c|]. 2: { intros [= <- <-]. split; [by exists []|done]. }
  assert (∀ req, (ask_adapter go_call "create" req ≫= (λ g, mret (g ← g; if gr_ok g then gr_container_id g else None))) h = (r, h') →
    h' = Go "create" req :: h ∧ r = inr (created_by h (Go "create" req))) as Hcall.
  { intros req [= <- <-]. done. }
  intros H. destruct (Hcall _ H) as [-> ->]. destruct (created_by h _) as [cid|] eqn:Ec.
  - by exists m, c.
  - split; [by eexists [_]|]. cbn [created]. by rewrite Ec.
Qed.

Lemma create_container_spec rt args h r h' :
  _create_container exec late rt ("create" :: args) h = (r, h') →
  h' = Exec (rt :: "create" :: args) :: h ∧ r = inr (created_by h (Exec (rt :: "create" :: args))).
Proof. intros [= <- <-]. by split. Qed.

Lemma create_spec rt tag svr rargs env o h r h' :
  create rt tag svr rargs env o h = (r, h') →
  match r with
  | inr (Some cid) => ∃ e h1, h' = e :: h1 ∧ (∃ new, h1 = new ++ h) ∧ created h1 = created h ∧
      created_by h1 e = Some cid ∧ creates rt tag svr rargs env o e
  | _ => (∃ new, h' = new ++ h) ∧ created h' = created h
  end.
Proof.
  unfold create_any. rewrite run_bind.
  assert (∀ h1, (∃ new, h1 = new ++ h) → created h1 = created h →
    (lift_sum (_build_create_args tag rargs env (effective_network (wo_network o)) (str_or (wo_memory o) _DEFAULT_MEMORY)
       (str_or (wo_cpus o) _DEFAULT_CPUS) (wo_volumes o) (wo_extra_args o) (default_labels svr None None)) ≫=
       _create_container exec late rt) h1 = (r, h') →
    match r with
    | inr (Some cid) => ∃ e h1, h' = e :: h1 ∧ (∃ new, h1 = new ++ h) ∧ created h1 = created h ∧
        created_by h1 e = Some cid ∧ creates rt tag svr rargs env o e
    | _ => (∃ new, h' = new ++ h) ∧ created h' = created h
    end) as Hcli.
  { intros h1 [new ->] Hc. rewrite lift_sum_bind. unfold _build_create_args.
    destruct (check_each _ _) as [x|u] eqn:Ex; cbn [mbind sum_bind].
    { intros [= <- <-]. split; [by exists new|done]. }
    intros [-> ->]%create_container_spec. rewrite check_each_inr in Ex.
    destruct (created_by _ _) as [cid|] eqn:Ecid.
    - eexists _, _. split_and!; [done|by exists new|done|exact Ecid|]. left. split.
      + eapply Forall_impl; [exact Ex|]. intros f. cbn. by destruct (dangerous_flag f).
      + eexists ((_ ≫= _) ++ (_ ≫= _) ++ (_ ≫= _)). rewrite <-!app_assoc. reflexivity.
    - split; [by eexists (_ :: new)|]. cbn [created]. by rewrite Ecid. }
  destruct go_available; [|by apply Hcli; [exists []|]].
  destruct (_go_adapter_create _ _ _ _ _ _ _ _ _ _ _ _ h) as [rg h1] eqn:Eg. apply go_create_spec in Eg.
  destruct rg as [x|[cid|]]; [done| |].
  - intros [= <- <-]. destruct Eg as (m & c & -> & Hc). eexists _, h.
    split_and!; [done|by exists []|done|exact Hc|]. right. by exists m, c.
  - destruct Eg as [Hn Hc]. by apply Hcli.
Qed.

(** *** The wrapper *)

Definition started (rt cid : string) : StdioServerParameters :=
  {| sp_command := rt; sp_args := ["start"; "-ai"; cid]; sp_env := None |}.

Lemma calm_wf s s' : dict_wf (h_active s) → calm s s' → dict_wf (h_active s').
Proof. intros Hw Hc. by apply Hc. Qed.
Lemma calm_history s s' : dict_wf (h_active s) → calm s s' → ∃ new, h_history s' = new ++ h_history s.
Proof. intros Hw Hc. by apply Hc. Qed.
Lemma calm_created s s' : dict_wf (h_active s) → calm s s' → created (h_history s') = created (h_history s).
Proof. intros Hw Hc. by apply Hc. Qed.

Lemma adds_ensure_quiet command args rt o :
  adds quiet (ensure_image render sha256_hex bracket_ok exec go_available go_call write_ok cache_dir read_file abspath
                command args rt o).
Proof. eapply adds_impl; [apply builder_event_quiet|apply adds_ensure]. Qed.

(** The last part: a table entry is dropped, the container created and entered. *)
Lemma create_and_track svr params o rt tag rargs s :
  dict_wf (h_active s) →
  let m := _ ← (if wo_shared o then cleanup svr else mret ());
           _ ← outside (_remove_stale_named_container exec late rt svr);
           cid ← outside (create rt tag svr rargs (sp_env params) o);
           match cid with
           | None => mret (params, false)
           | Some cid => _ ← track (wo_shared o) svr (rt, cid); mret (started rt cid, true)
           end in
  match m s with
  | (inr (p, true), s') => ∃ cid e h1 s1, p = started rt cid ∧ calm s s1 ∧ h_history s' = e :: h1 ∧
      (∃ new, h1 = new ++ h_history s) ∧ created h1 = created (h_history s) ∧ created_by h1 e = Some cid ∧
      creates rt tag svr rargs (sp_env params) o e ∧
      h_active s' = (if wo_shared o then dset (h_active s1) svr (rt, cid) else h_active s1) ∧
      (wo_shared o = true → dget (h_active s1) svr = None) ∧ h_history s1 `suffix_of` h1
  | (inr (p, false), s') => p = params ∧ calm s s'
  | (inl _, s') => calm s s'
  end.
Proof.
  intros Hw m. subst m. rewrite run_bind.
  assert (∃ s0, (if wo_shared o then cleanup svr else mret ()) s = (inr (), s0) ∧ calm s s0 ∧
    (wo_shared o = true → dget (h_active s0) svr = None)) as (s0 & E0 & C0 & D0).
  { destruct (wo_shared o); [|exists s; split_and!; [done|apply calm_refl|done]].
    destruct (cleanup_spec svr s Hw) as (R & A & C). destruct (cleanup svr s) as [r s0]. cbn in R, A, C. subst r.
    exists s0. split_and!; [done|done|]. intros _. rewrite A. by apply dget_ddel_eq. }
  rewrite E0. cbn [fst snd]. rewrite run_bind.
  pose proof (calms_outside _ (adds_stale rt svr) s0) as C1.
  destruct (outside _ s0) as [r1 s1] eqn:E1.
  assert (r1 = inr () ∧ h_active s1 = h_active s0) as [-> A1].
  { revert E1. unfold outside, _remove_stale_named_container. rewrite run_bind. unfold run_timed.
    cbn. destruct (late (h_history s0)); cbn; by intros [= <- <-]. }
  cbn [snd] in C1. assert (calm s s1) as C by (by eapply calm_trans). clear C0 C1 E0 E1.
  rewrite run_bind. unfold outside. destruct (create rt tag svr rargs (sp_env params) o (h_history s1)) as [r h'] eqn:E2.
  apply create_spec in E2. pose proof (calm_created _ _ Hw C) as Cr. pose proof (calm_history _ _ Hw C) as [n0 Hn0].
  assert ((∃ new, h' = new ++ h_history s1) → created h' = created (h_history s1) → calm s (set_history h' s1)) as Hcalm.
  { intros [new ->] Hc. eapply calm_trans; [exact C|]. intros Hw1. split_and!; [done|by exists new|done|auto|auto]. }
  destruct r as [x|[cid|]]; cbn; [by apply Hcalm; apply E2| |split; [done|by apply Hcalm; apply E2]].
  destruct E2 as (e & h1 & -> & [new ->] & Hc & Hby & Hcr).
  exists cid, e, (new ++ h_history s1), s1.
  split_and!; [done|done|by destruct (wo_shared o)| |congruence|done|done|by destruct (wo_shared o)| |by eexists].
  - exists (new ++ n0). by rewrite Hn0, app_assoc.
  - intros Hs. rewrite A1. by apply D0.
Qed.

Lemma wrap_spec svr params o s : dict_wf (h_active s) →
  match wrap svr params o s with
  | (inr (p, true), s') => ∃ rt tag rargs cid e h1 s1,
      wo_enabled o = true ∧ isolation_off getenv = false ∧ p = started rt cid ∧ calm s s1 ∧ h_history s' = e :: h1 ∧
      (∃ new, h1 = new ++ h_history s) ∧ created h1 = created (h_history s) ∧ created_by h1 e = Some cid ∧
      creates rt tag svr rargs (sp_env params) o e ∧
      h_active s' = (if wo_shared o then dset (h_active s1) svr (rt, cid) else h_active s1) ∧
      (wo_shared o = true → dget (h_active s1) svr = None) ∧ h_history s1 `suffix_of` h1 ∧
      ∃ h2, h2 `suffix_of` h1 ∧ confirmed exec go_call rt tag h2
  | (inr (p, false), s') => p = params ∧ calm s s'
  | (inl _, s') => calm s s'
  end.
Proof.
  intros Hw. unfold wrap_backend.
  destruct (negb (wo_enabled o) || isolation_off getenv || _) eqn:Eoff; [by split; [|apply calm_refl]|].
  apply orb_false_iff in Eoff as [[Een%negb_false_iff Eiso]%orb_false_iff _].
  rewrite run_bind. pose proof (calms_detect (wo_runtime o) s) as C1.
  destruct (detect which getenv (wo_runtime o) s) as [[x|[runtime|]] s1]; cbn [snd] in C1; [done| |by split].
  rewrite run_bind. pose proof (calms_is_healthy runtime s1) as C2.
  destruct (is_healthy _ _ _ _ runtime s1) as [[x|healthy] s2]; cbn [snd] in C2; [by eapply calm_trans|].
  assert (calm s s2) as C by (by eapply calm_trans). clear C1 C2.
  destruct (negb healthy || _); [by split|]. rewrite run_bind. set (rt := rt_name runtime).
  set (ens := ensure_image _ _ _ _ _ _ _ _ _ _ _ _ _ _).
  pose proof (calms_outside ens (adds_ensure_quiet _ _ _ _) s2) as C3.
  destruct (outside ens s2) as [[x|[[[tag|] binary] rargs]] s3] eqn:E3; cbn [snd] in C3;
    [by eapply calm_trans| |by split; [|eapply calm_trans]].
  assert (confirmed exec go_call rt tag (h_history s3)) as Hconf.
  { revert E3. unfold outside. destruct (ens (h_history s2)) as [r h] eqn:E4. intros [= -> <-].
    by eapply ensure_confirmed. }
  assert (calm s s3) as C' by (by eapply calm_trans). pose proof (calm_wf _ _ Hw C') as Hw3.
  pose proof (create_and_track svr params o rt tag rargs s3 Hw3) as Hfin. cbv zeta in Hfin.
  match goal with |- match ?x with _ => _ end => change x with
    ((_ ← (if wo_shared o then cleanup svr else mret ());
      _ ← outside (_remove_stale_named_container exec late rt svr);
      cid ← outside (create rt tag svr rargs (sp_env params) o);
      match cid with
      | None => mret (params, false)
      | Some cid => _ ← track (wo_shared o) svr (rt, cid); mret (started rt cid, true)
      end) s3) end.
  revert Hfin. match goal with |- _ → match ?x with _ => _ end => destruct x as [[x0|[p []]] s'] end; intros Hfin.
  - by eapply calm_trans.
  - destruct Hfin as (cid & e & h1 & s4 & -> & C4 & Hh & [new Hn] & Hc & Hby & Hcr & Ha & Hd & Hsuf).
    destruct (calm_history _ _ Hw C') as [n3 Hn3]. destruct (calm_history _ _ Hw3 C4) as [n4 Hn4].
    exists rt, tag, rargs, cid, e, h1, s4.
    split_and!; [done|done|done|by eapply calm_trans|done| | |done|done|done|done|done|].
    + exists (new ++ n3). by rewrite Hn, Hn3, app_assoc.
    + rewrite Hc. by apply calm_created.
    + exists (h_history s3). split; [|done]. rewrite Hn. by eexists.
  - destruct Hfin as [-> C4]. split; [done|by eapply calm_trans].
Qed.


(** *** Every container is accounted for *)

Inductive container_op :=
  | OWrap (svr_name : string) (params : StdioServerParameters) (o : WrapOptions)
  | OCleanup (svr_name : string)
  | OCleanupAll.
(** The operations of the client manager, which shares its table with every
    call.  An exception leaves the state as it is then. *)
Definition container_step (s : host) (op : container_op) (s' : host) : Prop :=
  match op with
  | OWrap svr params o => wo_shared o = true ∧ s' = (wrap svr params o s).2
  | OCleanup n => s' = (cleanup n s).2
  | OCleanupAll => s' = (cleanup_all s).2
  end.

Record accounted (s : host) : Prop := {
  acc_wf : dict_wf (h_active s);
  acc_created : ∀ cid, cid ∈ created (h_history s) →
    removal_asked cid (h_history s) ∨ ∃ n rt, dget (h_active s) n = Some (rt, cid);
  acc_tracked : ∀ n rt cid, dget (h_active s) n = Some (rt, cid) → cid ∈ created (h_history s) }.

Lemma accounted_calm s s' : accounted s → calm s s' → accounted s'.
Proof.
  intros [Hw Hc Ht] C. destruct (C Hw) as (Hw' & [new Hn] & Hcr & T & B). split; [done| |].
  - intros cid. rewrite Hcr. intros [Ha|(n & rt & Hd)]%Hc.
    + left. rewrite Hn. by apply removal_asked_app.
    + destruct (T _ _ _ Hd); eauto.
  - intros n rt cid Hd. rewrite Hcr. eauto.
Qed.

Lemma accounted_wrap svr params o s :
  wo_shared o = true → accounted s → accounted (wrap svr params o s).2.
Proof.
  intros Hs Hacc. pose proof (acc_wf s Hacc) as Hw. pose proof (wrap_spec svr params o s Hw) as H.
  destruct (wrap svr params o s) as [[x|[p []]] s']; cbn [snd]; [by eapply accounted_calm| |by eapply accounted_calm, H].
  destruct H as (rt & tag & rargs & cid & e & h1 & s1 & _ & _ & _ & C & Hh & _ & Hc & Hby & _ & Ha & Hd & [m ->] & _).
  rewrite Hs in Ha. specialize (Hd Hs). apply (accounted_calm s s1) in Hacc; [|done]. destruct Hacc as [Hw1 Hcr Ht].
  assert (∀ c, c ∈ created (h_history s') ↔ c = cid ∨ c ∈ created (h_history s1)) as Hmem.
  { intros c. rewrite Hh. cbn [created]. rewrite Hby, Hc, <-(calm_created s s1); [apply elem_of_cons| |done]. exact Hw. }
  split.
  - rewrite Ha. by apply dict_wf_dset.
  - intros c [->|Hin]%Hmem; [right; exists svr, rt; rewrite Ha; apply dget_dset_eq|].
    destruct (Hcr c Hin) as [Hr|(n & rt' & Hn)].
    + left. rewrite Hh. by apply (removal_asked_app (e :: m)).
    + right. exists n, rt'. rewrite Ha, dget_dset_ne; [done|congruence].
  - intros n rt' c. rewrite Ha, dget_dset. case_decide as En; [intros [= <- <-]; apply Hmem; by left|].
    intros Hn. apply Hmem. right. by eapply Ht.
Qed.

Lemma cleanup_names_spec names s : dict_wf (h_active s) →
  calm s (cleanup_names exec late names s).2 ∧
  ∀ n, dget (h_active (cleanup_names exec late names s).2) n = if bool_decide (n ∈ names) then None else dget (h_active s) n.
Proof.
  revert s. induction names as [|m names IH]; intros s Hw; [split; [apply calm_refl|done]|].
  cbn [cleanup_names]. rewrite run_bind. destruct (cleanup_spec m s Hw) as (R & A & C).
  destruct (cleanup m s) as [r s1]. cbn in R, A, C. subst r. destruct (IH s1) as [C2 D2]; [by eapply calm_wf|].
  split; [by eapply calm_trans|]. intros n. rewrite D2, A, dget_ddel by done.
  destruct (decide (m = n)) as [->|Hne]; [rewrite (bool_decide_eq_true_2 (n ∈ n :: names)) by left; by case_bool_decide|].
  rewrite (bool_decide_ext (n ∈ m :: names) (n ∈ names)); [done|]. rewrite elem_of_cons.
  split; [|by right]. intros [E|?]; [by symmetry in E|done].
Qed.
Lemma no_keys_empty {K V} `{EqDecision K} (d : odict K V) : (∀ k, dget d k = None) → d = [].
Proof. destruct d as [|[k v] d]; [done|]. intros H. specialize (H k). simpl in H. by rewrite decide_True in H. Qed.
Lemma cleanup_all_spec s : dict_wf (h_active s) → calm s (cleanup_all s).2 ∧ h_active (cleanup_all s).2 = [].
Proof.
  intros Hw. unfold cleanup_all_containers. rewrite run_get. destruct (cleanup_names_spec (dkeys (h_active s)) s Hw) as [C D].
  split; [done|]. apply no_keys_empty. intros k. rewrite D. case_bool_decide; [done|]. by apply dget_None.
Qed.

Lemma accounted_step s op s' : accounted s → container_step s op s' → accounted s'.
Proof.
  destruct op as [svr params o|n|]; cbn.
  - intros Hacc [Hs ->]. by apply accounted_wrap.
  - intros Hacc ->. eapply accounted_calm; [done|apply calms_cleanup].
  - intros Hacc ->. eapply accounted_calm; [done|]. apply cleanup_all_spec, Hacc.
Qed.

(** C40: no container is forgotten.  Over every history of wrapping backends (with
    any options, whether it succeeds, falls back or raises), cleaning up one and
    cleaning up all, every container that the gateway was told about is in the
    table, or its removal has been asked for; the table holds nothing else.
    So after the clean-up at shutdown the table is empty and the removal of
    every container has been asked for. *)
Theorem containers_accounted (s0 s : host) (ops : list container_op)
    (Hh : h_history s0 = []) (Ha : h_active s0 = []) (Hruns : steps container_step s0 ops s) :
  accounted s ∧ h_active (cleanup_all s).2 = [] ∧
  ∀ cid, cid ∈ created (h_history (cleanup_all s).2) → removal_asked cid (h_history (cleanup_all s).2).
Proof.
  assert (accounted s) as Hacc.
  { eapply steps_invariant; [exact accounted_step|exact Hruns|]. split; [rewrite Ha; apply dict_wf_nil| |].
    - intros cid. rewrite Hh. by intros ?%not_elem_of_nil.
    - intros n rt cid. by rewrite Ha. }
  destruct (cleanup_all_spec s (acc_wf s Hacc)) as [C E]. split_and!; [done|done|].
  intros cid Hcid. destruct (acc_created _ (accounted_calm _ _ Hacc C) cid Hcid) as [Hr|(n & rt & Hn)]; [done|].
  by rewrite E in Hn.
Qed.
End facts.

(** ** Witnesses and what modelling showed *)

(** A machine with docker, on which every command succeeds. *)
Definition demo_exec (h : history) (argv : list string) : exec_result :=
  match argv with _ :: "create" :: _ => Exit 0 "c1" | _ => Exit 0 "" end.
Definition demo_go (h : history) (op : string) (args : odict string string) : option go_reply :=
  Some {| gr_ok := true; gr_container_id := Some "g1" |}.
Definition demo_wrap (go k8s : bool) := wrap_backend (λ _ d, td_install_cmd d) (λ s, s) (λ _, true) demo_exec go demo_go
  (λ _, true) "/home/u/.argus" (λ _, None) (λ p, p) (λ _, false) (λ b, negb k8s && bool_decide (b = "docker"))
  (λ v, if k8s && bool_decide (v = "KUBERNETES_SERVICE_HOST") then Some "10.0.0.1" else None) (λ _, true)
  (λ _, Some 512) (λ _, Some (Some "1.0")).
Definition plain_section : ContainerConfig := {|
  cc_enabled := true; cc_runtime := None; cc_network := None; cc_memory := None; cc_cpus := None;
  cc_volumes := []; cc_extra_args := []; cc_system_deps := []; cc_build_system_deps := []; cc_builder_image := None;
  cc_additional_packages := []; cc_transport := None; cc_go_package := None; cc_source_url := None;
  cc_build_steps := []; cc_entrypoint := None; cc_build_env := []; cc_source_ref := None; cc_dockerfile := None |}.
Definition plain_options (extra : list string) (shared : bool) : WrapOptions :=
  let o := options_of plain_section None true shared in
  {| wo_enabled := wo_enabled o; wo_runtime := wo_runtime o; wo_network := wo_network o; wo_memory := wo_memory o;
     wo_cpus := wo_cpus o; wo_volumes := wo_volumes o; wo_extra_args := extra; wo_image := wo_image o;
     wo_shared := wo_shared o |}.
Definition no_host : host := {| h_history := []; h_runtime := None; h_active := [] |}.
Definition uvx_command : StdioServerParameters := {| sp_command := "uvx"; sp_args := ["mcp-server"]; sp_env := None |}.


Lemma containers_accounted_witness :
  ∃ s, h_active s = [("b", ("docker", "c1"))] ∧
    h_active (cleanup_all_containers demo_exec (λ _, false) s).2 = [] ∧
    created demo_exec demo_go (λ _, false) (h_history (cleanup_all_containers demo_exec (λ _, false) s).2) = ["c1"].
Proof.
  exists (demo_wrap false false "b" uvx_command (plain_options [] true) no_host).2.
  split; [vm_compute; reflexivity|]. split; [|vm_compute; reflexivity].
  refine (proj1 (proj2 (containers_accounted (λ _ d, td_install_cmd d) (λ s, s) (λ _, true) demo_exec false demo_go
    (λ _, true) "/home/u/.argus" (λ _, None) (λ p, p) (λ _, false) (λ b, negb false && bool_decide (b = "docker"))
    (λ v, if false && bool_decide (v = "KUBERNETES_SERVICE_HOST") then Some "10.0.0.1" else None) (λ _, true)
    (λ _, Some 512) (λ _, Some (Some "1.0")) no_host _
    [OWrap "b" uvx_command (plain_options [] true)] eq_refl eq_refl _))).
  eapply steps_cons; [|apply steps_nil]. split; reflexivity.
Defined.

(** The runtime is detected once: the override of a later backend is not
    looked at. *)
Lemma runtime_override_ignored which getenv override s r :
  h_runtime s = Some r → detect which getenv override s = (inr (Some r), s).
Proof. intros H. unfold detect. rewrite run_get. by rewrite H. Qed.

(** [argus-mcp build] shares no table: the container it creates is neither
    tracked nor removed. *)
Lemma build_leaves_container :
  let s := (demo_wrap false false "b" uvx_command (plain_options [] false) no_host).2 in
  created demo_exec demo_go (λ _, false) (h_history s) = ["c1"] ∧ h_active s = [] ∧
  Exec ["docker"; "rm"; "-f"; "c1"] ∉ h_history s.
Proof. split_and!; [vm_compute; reflexivity..|]. by_decide. Qed.

(** Containers are created without a name, but before every creation the
    container with the name of the backend is removed, whoever made it. *)
Lemma foreign_container_removed :
  let s := (demo_wrap false false "postgres" uvx_command (plain_options [] true) no_host).2 in
  Exec ["docker"; "rm"; "-f"; "postgres"] ∈ h_history s ∧
  existsb (λ e, match e with Exec argv => bool_decide ("--name" ∈ argv) | _ => false end) (h_history s) = false.
Proof. split; [by_decide|vm_compute; reflexivity]. Qed.

(** Through the adapter the extra arguments are neither used nor checked, and
    the writable directories are those of the machine. *)
Lemma adapter_ignores_extra_args :
  let r := demo_wrap true false "b" uvx_command (plain_options ["--privileged"] true) no_host in
  r.1 = inr (started "docker" "g1", true) ∧
  (demo_wrap false false "b" uvx_command (plain_options ["--privileged"] true) no_host).1 =
    inl (ERuntimeError "Dangerous Docker flag '--privileged' rejected") ∧
  head (go_volumes []) = Some "/tmp:/tmp:rw".
Proof. split_and!; vm_compute; reflexivity. Qed.

(** With Kubernetes as the runtime its own operations are not used: the wrapper
    runs a program of that name. *)
Lemma kubernetes_as_program :
  (demo_wrap false true "b" uvx_command (plain_options [] true) no_host).1 = inr (started "kubernetes" "c1", true).
Proof. vm_compute. reflexivity. Qed.

(** A package that the validation refuses makes the wrapper raise instead of
    falling back. *)
Lemma refused_package_raises :
  (demo_wrap false false "b" {| sp_command := "npx"; sp_args := ["-y"; "github:o/r#main"]; sp_env := None |}
     (plain_options [] true) no_host).1 = inl (ValidationError "Package name contains unsafe characters").
Proof. vm_compute. reflexivity. Qed.
