(* ===== verification/Clean.v ===== *)
(** * Removing containers, images and the network (cli/_clean.py)

    The command [argus-mcp clean]: it finds the containers and images whose
    name starts with the prefix of the program and removes them in batches, with
    one attempt for each item of a batch that timed out.  A command of the
    container program is a parameter that answers as a function of the commands
    before it. *)
From S2P Require Import Prelude PyDict Effects PyStr Images.
From Stdlib Require Import Ascii.

(** How a command ends; [NoProgram] is a [FileNotFoundError]. *)
Inductive run_result := RanOk (stdout : string) | RanFailed (stdout : string) | RunTimeout | NoProgram.
Inductive clean_exn := TimeoutExpired | FileNotFoundError.

Definition _BATCH_SIZE : nat := 10.
Definition ARGUS_NETWORK : string := "argus-mcp".

(** [str.split(None, n)]: the blank-separated fields of a line, the last of at
    most [n + 1] being the rest. *)
Fixpoint take_field (l : list ascii) : list ascii * list ascii :=
  match l with
  | [] => ([], [])
  | c :: l' => if is_blank_char c then ([], l) else let '(a, b) := take_field l' in (c :: a, b)
  end.
Fixpoint split_blank (n : nat) (l : list ascii) : list (list ascii) :=
  match drop_while is_blank_char l with
  | [] => []
  | l' => match n with O => [l'] | S n' => let '(a, b) := take_field l' in a :: split_blank n' b end
  end.
Definition split_fields (n : nat) (line : string) : list string := text <$> split_blank n (chars line).

(** [splitlines] for line feeds *)
Definition lines (s : string) : list string := if bool_decide (s = "") then [] else str_split (ascii_of_nat 10) s.

Section clean.
Context (run : list (list string) → list string → run_result).

(** The state is the list of commands run so far. *)
Abbreviation cl := (M (list (list string)) clean_exn) (only parsing).
Definition subprocess_run (cmd : list string) : cl run_result := λ h, (inr (run h cmd), h ++ [cmd]).
(** [subprocess.run] without a handler: timeouts and a missing program raise. *)
Definition run_text (cmd : list string) : cl string :=
  r ← subprocess_run cmd;
  match r with RanOk s | RanFailed s => mret s | RunTimeout => raise TimeoutExpired | NoProgram => raise FileNotFoundError end.

Definition _detect_container_runtime : cl string :=
  r1 ← subprocess_run ["docker"; "version"];
  match r1 with
  | RanOk _ => mret "docker"
  | _ => r2 ← subprocess_run ["podman"; "version"];
         mret (match r2 with RanOk _ => "podman" | _ => "docker" end)
  end.

(** Each item of a batch that timed out, one by one. *)
Fixpoint remove_each (cmd items : list string) (removed failed : nat) : cl (nat * nat) :=
  match items with
  | [] => mret (removed, failed)
  | x :: xs =>
      r ← subprocess_run (cmd ++ [x]);
      match r with
      | RunTimeout => remove_each cmd xs removed (S failed)
      | NoProgram => raise FileNotFoundError
      | _ => remove_each cmd xs (S removed) failed
      end
  end.

(** [ids[i : i + batch_size]] for [i] in [range(0, total, batch_size)] *)
Fixpoint batches (fuel size : nat) (ids : list string) : list (list string) :=
  match fuel, ids with
  | S fuel', _ :: _ => take size ids :: batches fuel' size (drop size ids)
  | _, _ => []
  end.

Fixpoint remove_batches (cmd : list string) (bs : list (list string)) (removed failed : nat) : cl (nat * nat) :=
  match bs with
  | [] => mret (removed, failed)
  | b :: bs' =>
      r ← subprocess_run (cmd ++ b);
      match r with
      | RunTimeout => p ← remove_each cmd b removed failed; remove_batches cmd bs' p.1 p.2
      | NoProgram => raise FileNotFoundError
      | _ => remove_batches cmd bs' (removed + length b) failed
      end
  end.
Definition _batch_remove (runtime : string) (subcommand ids : list string) (batch_size : nat) : cl (nat * nat) :=
  remove_batches (runtime :: subcommand) (batches (length ids) batch_size ids) 0 0.

(** *** What is removed *)

Definition ps_format : string := "{{.ID}} {{.Names}} {{.Image}} {{.Status}}".

(** The loop over the lines of both listings. *)
Fixpoint pick_containers (image_prefix : string) (ls ids : list string) : list string :=
  match ls with
  | [] => ids
  | line :: ls' =>
      match split_fields 3 line with
      | cid :: _ :: image :: _ =>
          if bool_decide (cid ∈ ids) then pick_containers image_prefix ls' ids
          else if startswith image (image_prefix +:+ "/") then pick_containers image_prefix ls' (ids ++ [cid])
          else pick_containers image_prefix ls' ids
      | _ => pick_containers image_prefix ls' ids
      end
  end.
Definition _find_argus_containers (runtime image_prefix : string) : cl (list string) :=
  out1 ← run_text [runtime; "ps"; "-a"; "--filter"; "ancestor=" +:+ image_prefix +:+ "/"; "--format"; ps_format];
  out2 ← run_text [runtime; "ps"; "-a"; "--format"; ps_format];
  mret (pick_containers image_prefix (lines (str_strip (out1 +:+ nl +:+ out2))) []).

Definition image_ids (out : string) : list string := omap (λ line, head (split_fields 1 line)) (lines (str_strip out)).
Definition _clean_images (runtime image_prefix : string) : cl () :=
  out ← run_text [runtime; "images"; "--format"; "{{.ID}} {{.Repository}}:{{.Tag}}"; image_prefix +:+ "/*"];
  match image_ids out with
  | [] => mret ()
  | ids => _ ← _batch_remove runtime ["rmi"; "-f"] ids _BATCH_SIZE; mret ()
  end.

Definition _clean_network (runtime : string) : cl () :=
  out ← run_text [runtime; "network"; "ls"; "--filter"; "name=" +:+ ARGUS_NETWORK; "-q"];
  match lines (str_strip out) with
  | [] => mret ()
  | _ => r ← subprocess_run [runtime; "network"; "rm"; ARGUS_NETWORK];
         match r with NoProgram => raise FileNotFoundError | _ => mret () end
  end.

Definition _cmd_clean (images network all : bool) : cl () :=
  runtime ← _detect_container_runtime;
  ids ← _find_argus_containers runtime IMAGE_PREFIX;
  _ ← match ids with [] => mret () | _ => _ ← _batch_remove runtime ["rm"; "-f"] ids _BATCH_SIZE; mret () end;
  _ ← (if images || all then _clean_images runtime IMAGE_PREFIX else mret ());
  if network || all then _clean_network runtime else mret ().
End clean.

(** ** Every item is attempted, and counted once *)

Lemma batches_join fuel size ids : (0 < size)%nat → (length ids ≤ fuel)%nat → mjoin (batches fuel size ids) = ids.
Proof.
  intros Hs. revert ids. induction fuel as [|fuel IH]; intros [|x ids] Hl; try done; [simpl in Hl; lia|].
  change (take size (x :: ids) ++ mjoin (batches fuel size (drop size (x :: ids))) = x :: ids).
  rewrite IH; [apply take_drop|]. rewrite length_drop. simpl in *. lia.
Qed.

Lemma length_mjoin_cons {A} (b : list A) bs : length (mjoin (b :: bs)) = (length b + length (mjoin bs))%nat.
Proof. change (mjoin (b :: bs)) with (b ++ mjoin bs). apply length_app. Qed.

Section removal.
Context (run : list (list string) → list string → run_result).

Lemma remove_each_counts cmd items rm fl h rm' fl' h' :
  remove_each run cmd items rm fl h = (inr (rm', fl'), h') →
  (rm' + fl' = rm + fl + length items)%nat ∧ h' = h ++ ((λ x, cmd ++ [x]) <$> items).
Proof.
  revert rm fl h. induction items as [|x items IH]; intros rm fl h H; cbn [remove_each] in H.
  - injection H as <- <- <-. simpl. rewrite app_nil_r. split; [lia|done].
  - rewrite run_bind in H. cbn [subprocess_run] in H.
    destruct (run h (cmd ++ [x])); try discriminate; apply IH in H as [Hc ->]; (split; [simpl; lia|by rewrite <-app_assoc]).
Qed.

Lemma remove_batches_counts cmd bs rm fl h rm' fl' h' :
  remove_batches run cmd bs rm fl h = (inr (rm', fl'), h') →
  (rm' + fl' = rm + fl + length (mjoin bs))%nat ∧ (∃ ext, h' = h ++ ext ∧
    Forall (λ c, ∃ b, b ∈ bs ∧ (c = cmd ++ b ∨ ∃ x, x ∈ b ∧ c = cmd ++ [x])) ext ∧ ∀ b, b ∈ bs → cmd ++ b ∈ ext).
Proof.
  revert rm fl h. induction bs as [|b bs IH]; intros rm fl h H; cbn [remove_batches] in H.
  { injection H as <- <- <-. simpl. split; [lia|]. exists []. rewrite app_nil_r. split_and!; [done|done|]. intros b []%not_elem_of_nil. }
  rewrite run_bind in H. cbn [subprocess_run] in H.
  assert (Hlift : ∀ ext', Forall (λ c, ∃ b', b' ∈ bs ∧ (c = cmd ++ b' ∨ ∃ x, x ∈ b' ∧ c = cmd ++ [x])) ext' →
    Forall (λ c, ∃ b', b' ∈ b :: bs ∧ (c = cmd ++ b' ∨ ∃ x, x ∈ b' ∧ c = cmd ++ [x])) ext').
  { intros ext' Hf. eapply Forall_impl; [exact Hf|]. intros c (b' & Hb' & Hc). exists b'. split; [by right|done]. }
  assert (Hhead : ∃ b', b' ∈ b :: bs ∧ (cmd ++ b = cmd ++ b' ∨ ∃ x, x ∈ b' ∧ cmd ++ b = cmd ++ [x])) by (exists b; split; [left|auto]).
  assert (Hsimple : ∀ r2 f2, remove_batches run cmd bs r2 f2 (h ++ [cmd ++ b]) = (inr (rm', fl'), h') → r2 = (rm + length b)%nat → f2 = fl →
    (rm' + fl' = rm + fl + length (mjoin (b :: bs)))%nat ∧ (∃ ext, h' = h ++ ext ∧
    Forall (λ c, ∃ b', b' ∈ b :: bs ∧ (c = cmd ++ b' ∨ ∃ x, x ∈ b' ∧ c = cmd ++ [x])) ext ∧ ∀ b', b' ∈ b :: bs → cmd ++ b' ∈ ext)).
  { intros r2 f2 Hr -> ->. apply IH in Hr as [Hc (ext & -> & Hf & Hall)]. split; [rewrite length_mjoin_cons; lia|].
    exists ((cmd ++ b) :: ext). rewrite <-app_assoc. split_and!; [done|by constructor; auto|].
    intros b' [->|Hb']%elem_of_cons; [left|right; auto]. }
  destruct (run h (cmd ++ b)); [by eapply Hsimple..| |discriminate]. clear Hsimple.
  rewrite run_bind in H. destruct (remove_each run cmd b rm fl (h ++ [cmd ++ b])) as [[e|[r2 f2]] h2] eqn:Ee; [done|].
  apply remove_each_counts in Ee as [Hc2 ->]. apply IH in H as [Hc (ext & -> & Hf & Hall)]. simpl in Hc.
  split; [rewrite length_mjoin_cons; lia|]. exists ((cmd ++ b) :: ((λ x, cmd ++ [x]) <$> b) ++ ext).
  rewrite <-!app_assoc. split_and!; [done| |].
  - constructor; [done|]. apply Forall_app. split; [|by apply Hlift]. apply Forall_fmap, Forall_forall. intros x Hx.
    exists b. split; [left|right; eauto].
  - intros b' [->|Hb']%elem_of_cons; [left|right]. apply elem_of_app. right. auto.
Qed.

(** Removing in batches.  When the program is there, whatever it answers,
    every item is part of exactly one batch command; each command names only
    items that were given; and the two counts add up to the number of items. *)
Theorem batch_remove_exact runtime sub ids size h rm fl h' :
  (0 < size)%nat → _batch_remove run runtime sub ids size h = (inr (rm, fl), h') →
  (rm + fl = length ids)%nat ∧
  ∃ ext bs, h' = h ++ ext ∧ mjoin bs = ids ∧ (∀ b, b ∈ bs → (runtime :: sub) ++ b ∈ ext) ∧
    Forall (λ c, ∃ items, c = (runtime :: sub) ++ items ∧ ∀ x, x ∈ items → x ∈ ids) ext.
Proof.
  intros Hs H. unfold _batch_remove in H. apply remove_batches_counts in H as [Hc (ext & -> & Hf & Hall)].
  assert (Hj := batches_join (length ids) size ids Hs (le_n _)). rewrite Hj in Hc. split; [lia|].
  exists ext, (batches (length ids) size ids). split_and!; [done|done|done|].
  eapply Forall_impl; [exact Hf|]. intros c (b & Hb & Hcb).
  assert (Hin : ∀ x, x ∈ b → x ∈ ids) by (intros x Hx; rewrite <-Hj; apply list_elem_of_join; eauto).
  destruct Hcb as [->|(x & Hx & ->)]; eexists; (split; [done|]); [done|]. intros y ->%list_elem_of_singleton. auto.
Qed.
End removal.

(** Only containers of the program's images are picked, each once. *)
Lemma pick_containers_sound prefix ls ids :
  (∀ x, x ∈ ids → ∃ line y image rest, split_fields 3 line = x :: y :: image :: rest ∧ startswith image (prefix +:+ "/") = true) →
  NoDup ids →
  NoDup (pick_containers prefix ls ids) ∧
  (∀ x, x ∈ pick_containers prefix ls ids → ∃ line y image rest, split_fields 3 line = x :: y :: image :: rest ∧
     startswith image (prefix +:+ "/") = true).
Proof.
  revert ids. induction ls as [|line ls IH]; intros ids Hi Hn; cbn [pick_containers]; [done|].
  destruct (split_fields 3 line) as [|cid [|y [|image rest]]] eqn:E; try (by apply IH).
  case_bool_decide as Hin; [by apply IH|]. destruct (startswith image (prefix +:+ "/")) eqn:Ep; [|by apply IH].
  apply IH.
  - intros x [Hx| ->%list_elem_of_singleton]%elem_of_app; [auto|]. by exists line, y, image, rest.
  - apply NoDup_app. split_and!; [done| |apply NoDup_singleton]. intros x Hx ->%list_elem_of_singleton. done.
Qed.

(** A removal that the program refuses is reported as done. *)
Lemma refused_removal_counts ids size h : (0 < size)%nat →
  (_batch_remove (λ _ _, RanFailed "") "docker" ["rm"; "-f"] ids size h).1 = inr (length ids, 0%nat).
Proof.
  intros Hs. unfold _batch_remove.
  assert (H : ∀ bs r h, (remove_batches (λ _ _, RanFailed "") ["docker"; "rm"; "-f"] bs r 0 h).1 = inr ((r + length (mjoin bs))%nat, 0%nat)).
  { induction bs as [|b bs IH]; intros r h'; cbn [remove_batches].
    - cbn. do 2 f_equal. lia.
    - rewrite run_bind. cbn [subprocess_run]. rewrite IH, length_mjoin_cons. do 2 f_equal. lia. }
  rewrite H. by rewrite batches_join.
Qed.
