(* ===== verification/Watcher.v ===== *)
(** * Configuration watcher (config/watcher.py)

    The polling loop that turns changes of the configuration file into reloads.
    The file is its modification time as a function of time, [0] while it is
    missing; the two sleeps and the duration of the callback advance the clock. *)
From S2P Require Import Prelude.

Record ConfigWatcher := {
  _poll_interval : Z;
  _debounce : Z;
  _last_mtime : Z;
  w_running : bool }.

Definition set_last (m : Z) (w : ConfigWatcher) : ConfigWatcher :=
  {| _poll_interval := _poll_interval w; _debounce := _debounce w; _last_mtime := m; w_running := w_running w |}.

Section watcher.
(** [os.stat(path).st_mtime], and how long a callback takes. *)
Context (_current_mtime : Z → Z) (callback_time : Z).

Definition watcher_start (now : Z) (w : ConfigWatcher) : ConfigWatcher :=
  if w_running w then w
  else {| _poll_interval := _poll_interval w; _debounce := _debounce w;
          _last_mtime := _current_mtime now; w_running := true |}.

Definition watcher_stop (w : ConfigWatcher) : ConfigWatcher :=
  {| _poll_interval := _poll_interval w; _debounce := _debounce w;
     _last_mtime := _last_mtime w; w_running := false |}.

(** One turn of the loop, from time [t]: the time and the state after it, and
    the time of the callback when it was invoked. *)
Definition poll_once (t : Z) (w : ConfigWatcher) : Z * ConfigWatcher * option Z :=
  let t1 := t + _poll_interval w in
  let mtime := _current_mtime t1 in
  if mtime =? 0 then (t1, w, None)
  else if mtime =? _last_mtime w then (t1, w, None)
  else
    let t2 := t1 + _debounce w in
    let new_mtime := _current_mtime t2 in
    if negb (new_mtime =? mtime) then (t2, set_last new_mtime w, None)
    else (t2 + callback_time, set_last mtime w, Some t2).

(** [n] turns of [_poll_loop]: the callbacks in order. *)
Fixpoint _poll_loop (n : nat) (t : Z) (w : ConfigWatcher) : Z * ConfigWatcher * list Z :=
  match n with
  | O => (t, w, [])
  | S n' =>
      let '(t', w', call) := poll_once t w in
      let '(t'', w'', calls) := _poll_loop n' t' w' in
      (t'', w'', match call with Some c => c :: calls | None => calls end)
  end.

(** ** A quiet file *)

Lemma poll_quiet n t w :
  (∀ u, t <= u → _current_mtime u = _last_mtime w ∨ _current_mtime u = 0) →
  0 <= _poll_interval w →
  _poll_loop n t w = (t + Z.of_nat n * _poll_interval w, w, []).
Proof.
  intros Hq Hp. revert t Hq. induction n as [|n IH]; intros t Hq.
  { replace (t + _) with t by lia. done. }
  cbn [_poll_loop]. unfold poll_once. destruct (Hq (t + _poll_interval w)) as [H|H]; [lia| |].
  - rewrite H, Z.eqb_refl. replace (if _ =? 0 then _ else _) with (t + _poll_interval w, w, None : option Z)
      by (by case_test).
    rewrite IH by (intros; apply Hq; lia). by replace (t + Z.of_nat (S n) * _) with (t + _poll_interval w + Z.of_nat n * _poll_interval w) by lia.
  - rewrite H. cbn [Z.eqb].
    rewrite IH by (intros; apply Hq; lia). by replace (t + Z.of_nat (S n) * _) with (t + _poll_interval w + Z.of_nat n * _poll_interval w) by lia.
Qed.
End watcher.

Lemma poll_loop_app mt cb n m t w :
  _poll_loop mt cb (n + m) t w =
  let '(t1, w1, c1) := _poll_loop mt cb n t w in
  let '(t2, w2, c2) := _poll_loop mt cb m t1 w1 in (t2, w2, c1 ++ c2).
Proof.
  revert t w. induction n as [|n IH]; intros t w; simpl.
  { by destruct (_poll_loop mt cb m t w) as [[??]?]. }
  destruct (poll_once mt cb t w) as [[t' w'] c]. rewrite IH.
  destruct (_poll_loop mt cb n t' w') as [[t1 w1] c1]. destruct (_poll_loop mt cb m t1 w1) as [[t2 w2] c2].
  by destruct c.
Qed.

(** The file is touched once, at time [e]. *)
Definition edited (e a b : Z) (u : Z) : Z := if u <? e then a else b.

Lemma edited_after e a b u : e <= u → edited e a b u = b.
Proof. intros. unfold edited. by replace (u <? e) with false by (symmetry; by apply Z.ltb_ge). Qed.

(** The turns before the edit find nothing. *)
Lemma poll_before_edit cb e a b n t w :
  _last_mtime w = a → 0 <= _poll_interval w → t + Z.of_nat n * _poll_interval w < e →
  _poll_loop (edited e a b) cb n t w = (t + Z.of_nat n * _poll_interval w, w, []).
Proof.
  intros Ha Hp. revert t. induction n as [|n IH]; intros t Hn.
  { replace (t + _) with t by lia. done. }
  cbn [_poll_loop]. unfold poll_once, edited at 1 2 3.
  replace (t + _poll_interval w <? e) with true by (symmetry; apply Z.ltb_lt; nia).
  rewrite <-Ha, Z.eqb_refl. replace (if _ =? 0 then _ else _) with (t + _poll_interval w, w, None : option Z)
    by (by case_test).
  rewrite Ha, IH by lia. by replace (t + Z.of_nat (S n) * _) with (t + _poll_interval w + Z.of_nat n * _poll_interval w) by lia.
Qed.

(** C31: a single edit is reloaded exactly once.  If the watcher has seen the
    old time and the file changes once, then once the loop has polled past the
    edit it has invoked its callback exactly once, at least one debounce and at
    most one polling interval plus one debounce after the edit, however long
    it goes on. *)
Theorem single_edit_reloads_once cb e a b t w n :
  0 < _poll_interval w → 0 <= _debounce w → 0 <= cb →
  _last_mtime w = a → a ≠ b → b ≠ 0 → t < e → e <= t + Z.of_nat n * _poll_interval w →
  ∃ c, (_poll_loop (edited e a b) cb n t w).2 = [c] ∧
    e + _debounce w <= c < e + _poll_interval w + _debounce w.
Proof.
  intros Hp Hd Hc Ha Hab Hb Ht Hn.
  (* the number of polls before the edit *)
  set (P := _poll_interval w) in *. set (k := Z.to_nat ((e - t - 1) / P)).
  assert (Z.of_nat k = (e - t - 1) / P) as Hk by (unfold k; rewrite Z2Nat.id; [done|apply Z.div_pos; lia]).
  assert (P * Z.of_nat k <= e - t - 1 < P * Z.of_nat k + P) as Hdiv.
  { rewrite Hk. pose proof (Z.div_mod (e - t - 1) P). pose proof (Z.mod_pos_bound (e - t - 1) P). lia. }
  assert (k < n)%nat as Hkn by nia.
  replace n with (k + S (n - k - 1))%nat by lia. rewrite poll_loop_app.
  rewrite poll_before_edit by (try done; fold P; lia). fold P. cbn [_poll_loop].
  unfold poll_once. fold P. cbv zeta. rewrite !edited_after by lia.
  replace (b =? 0) with false by (symmetry; by apply Z.eqb_neq).
  rewrite Ha. replace (b =? a) with false by (symmetry; apply Z.eqb_neq; congruence).
  rewrite Z.eqb_refl. cbn [negb].
  rewrite poll_quiet; [|intros u Hu; left; apply edited_after; lia|cbn; fold P; lia].
  eexists. split; [reflexivity|]. lia.
Qed.

Definition example_watcher : ConfigWatcher :=
  {| _poll_interval := 2000; _debounce := 1000; _last_mtime := 1; w_running := true |}.

Lemma single_edit_reloads_once_witness :
  ∃ c, (_poll_loop (edited 3500 1 2) 50 10 0 example_watcher).2 = [c] ∧ 3500 + 1000 <= c < 3500 + 2000 + 1000.
Proof. apply (single_edit_reloads_once 50 3500 1 2 0 example_watcher 10); simpl; lia. Defined.

(** The file is touched at [e1] and again at [e2]. *)
Definition edited_twice (e1 e2 a b c : Z) (u : Z) : Z := if u <? e1 then a else if u <? e2 then b else c.

(** An edit that is followed by another one within the debounce is never
    reloaded: the loop stores the second modification time as already seen and
    starts over, so no later poll finds a difference. *)
Theorem debounce_loses_change cb e1 e2 a b c t w n :
  0 < _poll_interval w → 0 <= _debounce w → _last_mtime w = a →
  a ≠ b → b ≠ c → b ≠ 0 →
  e1 <= t + _poll_interval w < e2 → e2 <= t + _poll_interval w + _debounce w →
  (_poll_loop (edited_twice e1 e2 a b c) cb (S n) t w).2 = [].
Proof.
  intros Hp Hd Ha Hab Hbc Hb H1 H2. cbn [_poll_loop]. unfold poll_once, edited_twice at 1 2 3 4 5.
  replace (t + _poll_interval w <? e1) with false by (symmetry; apply Z.ltb_ge; lia).
  replace (t + _poll_interval w <? e2) with true by (symmetry; apply Z.ltb_lt; lia).
  replace (b =? 0) with false by (symmetry; by apply Z.eqb_neq).
  rewrite Ha. replace (b =? a) with false by (symmetry; apply Z.eqb_neq; congruence).
  replace (t + _poll_interval w + _debounce w <? e1) with false by (symmetry; apply Z.ltb_ge; lia).
  replace (t + _poll_interval w + _debounce w <? e2) with false by (symmetry; apply Z.ltb_ge; lia).
  replace (c =? b) with false by (symmetry; apply Z.eqb_neq; congruence). cbn [negb].
  rewrite poll_quiet; [done| |cbn; lia].
  intros u Hu. left. unfold edited_twice. cbn [set_last _last_mtime].
  replace (u <? e1) with false by (symmetry; apply Z.ltb_ge; lia).
  by replace (u <? e2) with false by (symmetry; apply Z.ltb_ge; lia).
Qed.

Lemma debounce_loses_change_witness :
  (_poll_loop (edited_twice 1500 2500 1 2 3) 50 20 0 example_watcher).2 = [].
Proof. apply (debounce_loses_change 50 1500 2500 1 2 3 0 example_watcher 19); simpl; lia. Defined.
