(* ===== verification/Loader.v ===== *)
(** * Loading a configuration and choosing a transport
      (config/loader.py, bridge/transport_factory.py)

    The pipeline from a YAML file to the dictionaries that the service and the
    client manager work with (ConfigDiff.v), and the function that turns such a
    dictionary into a transport.  YAML and pydantic's model construction are
    parameters; the validators of the source are those of Schema.v. *)
From Stdlib Require Import QArith.
From S2P Require Import Prelude PyDict Effects Glob PyStr Json Redaction Secrets Schema EnvFlags ConfigDiff.
#[global] Open Scope Z_scope.

(** ** From a validated backend to a dictionary *)

Definition str_list (l : list string) : pyval := PList (PStr <$> l).
Definition str_dict (d : odict string string) : pyval := PDict ((λ kv, (kv.1, PStr kv.2)) <$> d).

(** [cfg.auth.model_dump()]; the buffer in whole seconds *)
Definition auth_dump (a : AuthConfig) : pyval :=
  match a with
  | StaticAuthConfig headers => PDict [("type", PStr "static"); ("headers", str_dict headers)]
  | OAuth2AuthConfig token_url client_id client_secret scopes buffer retry =>
      PDict [("type", PStr "oauth2"); ("token_url", PStr token_url); ("client_id", PStr client_id);
             ("client_secret", PStr client_secret); ("scopes", str_list scopes);
             ("token_expiry_buffer_seconds", PInt buffer); ("auth_retry_on_401", PBool retry)]
  | PKCEAuthConfig authorization_endpoint token_endpoint client_id client_secret scopes buffer retry =>
      PDict [("type", PStr "pkce"); ("authorization_endpoint", PStr authorization_endpoint);
             ("token_endpoint", PStr token_endpoint); ("client_id", PStr client_id);
             ("client_secret", PStr client_secret); ("scopes", str_list scopes);
             ("token_expiry_buffer_seconds", PInt buffer); ("auth_retry_on_401", PBool retry)]
  end.

(** [cfg.container.model_dump(exclude_none=True)] *)
Definition opt_field (k : string) (v : option pyval) : odict string pyval :=
  match v with Some x => [(k, x)] | None => [] end.
Definition container_dump (c : ContainerConfig) : pyval :=
  PDict ([("enabled", PBool (cc_enabled c))] ++ opt_field "runtime" (PStr <$> cc_runtime c) ++
    opt_field "network" (PStr <$> cc_network c) ++ opt_field "memory" (PStr <$> cc_memory c) ++
    opt_field "cpus" (PStr <$> cc_cpus c) ++
    [("volumes", str_list (cc_volumes c)); ("extra_args", str_list (cc_extra_args c));
     ("system_deps", str_list (cc_system_deps c)); ("build_system_deps", str_list (cc_build_system_deps c))] ++
    opt_field "builder_image" (PStr <$> cc_builder_image c) ++
    [("additional_packages", str_list (cc_additional_packages c))] ++
    opt_field "transport" (PStr <$> cc_transport c) ++ opt_field "go_package" (PStr <$> cc_go_package c) ++
    opt_field "source_url" (PStr <$> cc_source_url c) ++ [("build_steps", str_list (cc_build_steps c))] ++
    opt_field "entrypoint" (str_list <$> cc_entrypoint c) ++ [("build_env", str_dict (cc_build_env c))] ++
    opt_field "source_ref" (PStr <$> cc_source_ref c) ++ opt_field "dockerfile" (PStr <$> cc_dockerfile c)).

Definition headers_field (h : option (odict string string)) : odict string pyval :=
  match h with Some ((_ :: _) as d) => [("headers", str_dict d)] | _ => [] end.

Definition backend_timeouts (b : BackendConfig) : TimeoutConfig :=
  match b with Stdio c => sb_timeouts c | Sse c => ss_timeouts c | StreamableHttp c => sh_timeouts c end.
Definition backend_auth (b : BackendConfig) : option AuthConfig :=
  match b with Stdio _ => None | Sse c => ss_auth c | StreamableHttp c => sh_auth c end.

(** [id] is the identity of the new dictionary object. *)
Definition _backend_to_dict (id : nat) (cfg : BackendConfig) : backend_dict :=
  let '(ty, params, fields) :=
    match cfg with
    | Stdio c => ("stdio", Some {| sp_command := sb_command c; sp_args := sb_args c; sp_env := sb_env c |},
                  [("container", container_dump (sb_container c))])
    | StreamableHttp c => ("streamable-http", None, ("url", PStr (sh_url c)) :: headers_field (sh_headers c))
    | Sse c => ("sse", None,
                ("url", PStr (ss_url c)) ::
                (if str_truthy (ss_command c)
                 then [("command", PStr (default "" (ss_command c))); ("args", str_list (ss_args c));
                       ("env", env_val (ss_env c))] else []) ++ headers_field (ss_headers c))
    end in
  let t := backend_timeouts cfg in
  {| bd_id := id; bd_type := Some ty; bd_params := params;
     bd_fields := fields ++ opt_field "auth" (auth_dump <$> backend_auth cfg) ++
       opt_field "init_timeout" (PInt <$> t_init t) ++ opt_field "cap_fetch_timeout" (PInt <$> t_cap_fetch t) ++
       opt_field "sse_startup_delay" (PInt <$> t_sse_startup t) ++ opt_field "startup_timeout" (PInt <$> t_startup t);
     bd_retries := t_retries t; bd_retry_delay := t_retry_delay t; bd_retry_backoff := None |}.

(** ** Transports *)

Inductive transport_error := TransportConfigError (msg : string) | AttributeError.

Inductive transport_plan :=
  | PlanStdio (params : StdioServerParameters)
  | PlanSse (url : string) (command : option string) (args : list string) (env : option (odict string string))
      (startup_delay : Z) (headers : option (odict string string))
  | PlanHttp (url : string) (headers : option (odict string string)).

Definition SSE_LOCAL_START_DELAY : Z := 5000.

Definition as_str (v : pyval) : option string := match v with PStr s => Some s | _ => None end.
Definition as_strs (v : pyval) : list string := match v with PList l => omap as_str l | _ => [] end.
Definition as_headers (v : pyval) : option (odict string string) :=
  match v with PDict d => Some (omap (λ kv, (λ s, (kv.1, s)) <$> as_str kv.2) d) | _ => None end.

Definition truthy_headers (h : option (odict string string)) : bool :=
  match h with Some (_ :: _) => true | _ => false end.
Definition _merge_headers (conf_headers auth_headers : option (odict string string)) : option (odict string string) :=
  if negb (truthy_headers conf_headers) && negb (truthy_headers auth_headers) then None
  else Some (dupdate (dupdate [] (default [] conf_headers)) (default [] auth_headers)).

(** [env.setdefault(k, v)] *)
Definition setdefault (env : odict string string) (k v : string) : odict string string :=
  match dget env k with Some _ => env | None => dset env k v end.

Definition apply_network_env (conf : backend_dict) (params : StdioServerParameters) : StdioServerParameters :=
  match bget conf "network" with
  | PDict net_cfg =>
      let str_of k d := match dget net_cfg k with Some (PStr s) => s | _ => d end in
      let mode := str_of "network_mode" "host" in
      let rebuild env := {| sp_command := sp_command params; sp_args := sp_args params;
                            sp_env := match env with [] => None | _ => Some env end |} in
      let env := default [] (sp_env params) in
      if bool_decide (mode = "host") then params
      else if bool_decide (mode = "none") then
        rebuild (setdefault (setdefault (setdefault env "HTTP_PROXY" "http://0.0.0.0:0")
                   "HTTPS_PROXY" "http://0.0.0.0:0") "NO_PROXY" "")
      else if bool_decide (mode = "bridge") then
        let http_proxy := str_of "http_proxy" "" in
        let no_proxy := str_of "no_proxy" "localhost,127.0.0.1" in
        let env1 := if bool_decide (http_proxy = "") then env
                    else dset (dset env "HTTP_PROXY" http_proxy) "HTTPS_PROXY" http_proxy in
        rebuild (if bool_decide (no_proxy = "") then env1 else dset env1 "NO_PROXY" no_proxy)
      else params
  | _ => params
  end.

Section transport.
(** [wrap_backend] of the container code: the parameters to start, and whether
    they run isolated. *)
Context (wrap_backend : string → StdioServerParameters → odict string pyval → StdioServerParameters * bool).

(** [prebuilt] is what an earlier image build left in the dictionary. *)
Definition resolve_stdio_params (name : string) (conf : backend_dict)
    (prebuilt : option (StdioServerParameters * bool)) : transport_error + (StdioServerParameters * bool) :=
  match bd_params conf with
  | None => inl (TransportConfigError ("Invalid stdio config for server '" +:+ name +:+ "' ('params' type mismatch)."))
  | Some params =>
      match prebuilt with
      | Some p => inr p
      | None =>
          match bget conf "container" with
          | PDict d => inr (wrap_backend name params d)
          | v => if truthy v then inl AttributeError else inr (wrap_backend name params [])
          end
      end
  end.

Definition create_transport_session (name : string) (conf : backend_dict) (svr_type : option string)
    (auth_headers : option (odict string string)) (prebuilt : option (StdioServerParameters * bool))
  : transport_error + transport_plan :=
  match svr_type with
  | Some ty =>
      if bool_decide (ty = "stdio") then
        match resolve_stdio_params name conf prebuilt with
        | inl e => inl e
        | inr (params, isolated) => inr (PlanStdio (if isolated : bool then params else apply_network_env conf params))
        end
      else if bool_decide (ty = "sse") then
        match bget conf "url" with
        | PStr url =>
            if bool_decide (url = "") then inl (TransportConfigError ("Invalid SSE 'url' configuration for server '" +:+ name +:+ "'."))
            else inr (PlanSse url (as_str (bget conf "command")) (as_strs (bget conf "args"))
                        (as_headers (bget conf "env"))
                        (match bget conf "sse_startup_delay" with PInt z => z | _ => SSE_LOCAL_START_DELAY end)
                        (_merge_headers (as_headers (bget conf "headers")) auth_headers))
        | _ => inl (TransportConfigError ("Invalid SSE 'url' configuration for server '" +:+ name +:+ "'."))
        end
      else if bool_decide (ty = "streamable-http") then
        match bget conf "url" with
        | PStr url =>
            if bool_decide (url = "") then inl (TransportConfigError ("Invalid streamable-http 'url' configuration for server '" +:+ name +:+ "'."))
            else inr (PlanHttp url (_merge_headers (as_headers (bget conf "headers")) auth_headers))
        | _ => inl (TransportConfigError ("Invalid streamable-http 'url' configuration for server '" +:+ name +:+ "'."))
        end
      else inl (TransportConfigError ("Unsupported server type '" +:+ ty +:+ "' for server '" +:+ name +:+ "'."))
  | None => inl (TransportConfigError ("Unsupported server type 'None' for server '" +:+ name +:+ "'."))
  end.
End transport.

(** *** A loaded backend always has a transport *)

Lemma default_Some {A} (d x : A) : default d (Some x) = x.
Proof. done. Qed.

Lemma dget_app {V} (d1 d2 : odict string V) k :
  dget (d1 ++ d2) k = match dget d1 k with Some v => Some v | None => dget d2 k end.
Proof. induction d1 as [|[a b] d1 IH]; simpl; [done|]. by case_decide. Qed.

Lemma dget_opt_field k v k' : dget (opt_field k v) k' = if decide (k = k') then v else None.
Proof. destruct v; simpl; by case_decide. Qed.

Lemma as_headers_str_dict d : as_headers (str_dict d) = Some d.
Proof.
  unfold as_headers, str_dict. f_equal. induction d as [|[k v] d IH]; [done|]. rewrite fmap_cons. simpl.
  f_equal. exact IH.
Qed.

Lemma as_strs_str_list l : as_strs (str_list l) = l.
Proof. unfold as_strs, str_list. induction l as [|s l IH]; [done|]. rewrite fmap_cons. simpl. f_equal. exact IH. Qed.

Lemma as_headers_env e : as_headers (env_val e) = e.
Proof. destruct e as [d|]; [apply as_headers_str_dict|done]. Qed.

(** The headers a backend is configured with: an empty table counts as none. *)
Definition nonempty (h : option (odict string string)) : option (odict string string) :=
  match h with Some (_ :: _) => h | _ => None end.

Lemma headers_field_get h : as_headers (default PNone (dget (headers_field h) "headers")) = nonempty h.
Proof. destruct h as [[|kv d]|]; [done| |done]. exact (as_headers_str_dict (kv :: d)). Qed.

(** What the configuration of a backend asks for. *)
Definition intended (wrap_backend : string → StdioServerParameters → odict string pyval → StdioServerParameters * bool)
    (name : string) (auth_headers : option (odict string string)) (b : BackendConfig) : transport_plan :=
  match b with
  | Stdio c =>
      PlanStdio (wrap_backend name {| sp_command := sb_command c; sp_args := sb_args c; sp_env := sb_env c |}
        (match container_dump (sb_container c) with PDict d => d | _ => [] end)).1
  | Sse c =>
      let local := str_truthy (ss_command c) in
      PlanSse (ss_url c) (if local then ss_command c else None) (if local then ss_args c else [])
        (if local then ss_env c else None) (default SSE_LOCAL_START_DELAY (t_sse_startup (ss_timeouts c)))
        (_merge_headers (nonempty (ss_headers c)) auth_headers)
  | StreamableHttp c => PlanHttp (sh_url c) (_merge_headers (nonempty (sh_headers c)) auth_headers)
  end.

Lemma loaded_type id b : bd_type (_backend_to_dict id b) =
  Some match b with Stdio _ => "stdio" | Sse _ => "sse" | StreamableHttp _ => "streamable-http" end.
Proof. by destruct b. Qed.
Lemma loaded_params id c : bd_params (_backend_to_dict id (Stdio c)) =
  Some {| sp_command := sb_command c; sp_args := sb_args c; sp_env := sb_env c |}.
Proof. done. Qed.

Lemma field_of_timeouts id b k :
  k ∉ ["auth"; "init_timeout"; "cap_fetch_timeout"; "sse_startup_delay"; "startup_timeout"] →
  bget (_backend_to_dict id b) k = default PNone (dget
    match b with
    | Stdio c => [("container", container_dump (sb_container c))]
    | StreamableHttp c => ("url", PStr (sh_url c)) :: headers_field (sh_headers c)
    | Sse c => ("url", PStr (ss_url c)) ::
        (if str_truthy (ss_command c)
         then [("command", PStr (default "" (ss_command c))); ("args", str_list (ss_args c));
               ("env", env_val (ss_env c))] else []) ++ headers_field (ss_headers c)
    end k).
Proof.
  intros Hk. unfold bget. f_equal. destruct b; cbn [_backend_to_dict bd_fields];
    rewrite !dget_app, !dget_opt_field, !decide_False by set_solver; by destruct (dget _ k).
Qed.

Lemma startup_delay_field id c :
  bget (_backend_to_dict id (Sse c)) "sse_startup_delay" = default PNone (PInt <$> t_sse_startup (ss_timeouts c)).
Proof.
  unfold bget. cbn [_backend_to_dict bd_fields backend_timeouts backend_auth]. rewrite !dget_app, !dget_opt_field.
  rewrite (decide_True (P := "sse_startup_delay" = _)), !decide_False by done. cbn [dget].
  rewrite decide_False by done. rewrite dget_app.
  assert (dget (headers_field (ss_headers c)) "sse_startup_delay" = None) as -> by (by destruct (ss_headers c) as [[]|]).
  destruct (str_truthy (ss_command c)); simpl; by destruct (t_sse_startup (ss_timeouts c)).
Qed.

Lemma validated_url_nonempty u u' : _validate_url u = inr u' → u' ≠ "".
Proof. by intros [_ ?]%validate_url_again. Qed.

Section loaded.
Context (resolve : string → string) (allowed_prefixes : option string)
  (bracket_ok : string → bool) (ip_class : string → option bool)
  (wrap_backend : string → StdioServerParameters → odict string pyval → StdioServerParameters * bool).

(** C35: Validated backends do not go wrong.  For every backend that the schema
    accepts, the dictionary the loader produces for it gives a transport: the
    dispatch raises none of its configuration errors and asks for exactly what
    was configured (command, arguments and environment through the container
    wrapper; or URL, optional local command with its start-up delay, and the
    configured headers overridden by those of the authentication provider). *)
Theorem validated_backend_has_transport (b b' : BackendConfig) (id : nat) (name : string)
    (auth_headers : option (odict string string))
    (Hvalid : validate_backend resolve allowed_prefixes bracket_ok ip_class b = inr b') :
  let conf := _backend_to_dict id b' in
  create_transport_session wrap_backend name conf (bd_type conf) auth_headers None =
    inr (intended wrap_backend name auth_headers b').
Proof.
  intros conf. unfold conf. destruct b as [c|c|c]; cbn [validate_backend] in Hvalid; peel Hvalid as c' H;
    injection Hvalid as <-; rewrite loaded_type; unfold create_transport_session.
  - rewrite bool_decide_true by done. unfold resolve_stdio_params. rewrite loaded_params.
    rewrite field_of_timeouts by by_decide. cbn [dget]. rewrite decide_True by done.
    assert (∃ d, container_dump (sb_container c') = PDict d) as [d Hd] by (eexists; reflexivity).
    cbn [intended]. rewrite Hd. rewrite default_Some.
    destruct (wrap_backend _ _ _) as [params isolated]. unfold apply_network_env.
    rewrite field_of_timeouts by by_decide. cbn [dget]. rewrite decide_False by done. by destruct isolated.
  - rewrite bool_decide_false, bool_decide_true by done. unfold validate_sse in H. peel H as u Hm. peel H as url Hu.
    destruct (min_length_1 (ss_url c)); [|done]. apply validated_url_nonempty in Hu.
    peel H as cmd Hc. peel H as a Ha. peel H as t Ht. injection H as <-. rewrite startup_delay_field.
    rewrite !field_of_timeouts by by_decide. cbn [ss_url ss_command ss_args ss_env ss_headers ss_timeouts].
    cbn [dget]. rewrite decide_True by done. rewrite default_Some. rewrite bool_decide_false by done.
    rewrite !decide_False by done. rewrite !dget_app. cbn [intended ss_url ss_command ss_args ss_env ss_headers ss_timeouts].
    assert (∀ k, k ≠ "headers" → dget (headers_field (ss_headers c)) k = None) as Hh.
    { intros k Hk. destruct (ss_headers c) as [[|kv d]|]; try done. simpl. by rewrite decide_False. }
    rewrite !(Hh _) by done. rewrite <-headers_field_get.
    destruct (str_truthy cmd) eqn:Ec.
    + destruct cmd as [s|]; [|done]. cbn [dget]. repeat first [rewrite decide_True by done|rewrite decide_False by done].
      rewrite !default_Some. cbn [as_str]. rewrite as_strs_str_list, as_headers_env. by destruct (t_sse_startup t).
    + cbn [dget default as_str as_strs as_headers]. by destruct (t_sse_startup t).
  - rewrite !bool_decide_false, bool_decide_true by done. unfold validate_streamable in H. peel H as u Hm. peel H as url Hu.
    destruct (min_length_1 (sh_url c)); [|done]. apply validated_url_nonempty in Hu.
    peel H as a Ha. peel H as t Ht. injection H as <-.
    rewrite !field_of_timeouts by by_decide. cbn [sh_url sh_headers dget]. rewrite decide_True by done. rewrite default_Some.
    rewrite bool_decide_false, decide_False by done. cbn [intended sh_url sh_headers]. by rewrite headers_field_get.
Qed.
End loaded.

(** A backend with a local SSE server, and one in a container. *)
Lemma validated_backend_has_transport_witness :
  let wrap (name : string) (p : StdioServerParameters) (d : odict string pyval) :=
    ({| sp_command := "docker"; sp_args := sp_command p :: sp_args p; sp_env := None |}, true) in
  validate_backend (λ p, p) None (λ _, true) no_ip (stdio_backend " uvx ") = inr (stdio_backend "uvx") ∧
  create_transport_session wrap "b" (_backend_to_dict 0 (stdio_backend "uvx")) (Some "stdio") None None =
    inr (PlanStdio {| sp_command := "docker"; sp_args := ["uvx"; "server"]; sp_env := None |}).
Proof.
  intros wrap. split; [vm_compute; reflexivity|].
  exact (validated_backend_has_transport (λ p, p) None (λ _, true) no_ip wrap
    (stdio_backend " uvx ") (stdio_backend "uvx") 0 "b" None eq_refl).
Defined.

(** The loader never writes the [network] key that [apply_network_env] reads,
    so the proxy variables of that function are never set. *)
Lemma network_env_unused id b params : apply_network_env (_backend_to_dict id b) params = params.
Proof.
  unfold apply_network_env. rewrite field_of_timeouts by by_decide.
  destruct b as [c|c|c]; cbn [dget].
  - by rewrite decide_False.
  - rewrite decide_False, dget_app by done.
    assert (dget (headers_field (ss_headers c)) "network" = None) as -> by (by destruct (ss_headers c) as [[]|]).
    by destruct (str_truthy (ss_command c)).
  - rewrite decide_False by done. by destruct (sh_headers c) as [[]|].
Qed.

(** ** The pipeline *)

Inductive load_error := ConfigurationError (msg : string) | LoadValueError (msg : string).

Record ArgusConfig := { ac_version : string; ac_backends : odict string BackendConfig }.

(** What loading reads and changes: the environment, the key ring, the secret
    files, and the log filter. *)
Record world (R : Type) := {
  w_env : environ;
  w_secret_file : string → option string;
  w_crypto : bool;
  w_ring : keyring_state R;
  w_filter : SecretRedactionFilter }.
Arguments w_env {R}. Arguments w_secret_file {R}. Arguments w_crypto {R}.
Arguments w_ring {R}. Arguments w_filter {R}.

Definition set_filter {R} (f : SecretRedactionFilter) (w : world R) : world R :=
  {| w_env := w_env w; w_secret_file := w_secret_file w; w_crypto := w_crypto w; w_ring := w_ring w; w_filter := f |}.

Definition _YAML_EXTS : list string := [".yaml"; ".yml"].

(** [os.path.splitext(p)[1].lower()]: leading dots of the last component do not
    start an extension. *)
Definition file_ext (p : string) : string :=
  let base := default [] (last (split_on slash (chars p))) in
  let name := drop_while (is_char 46) base in
  match split_on (Ascii.ascii_of_nat 46) name with
  | _ :: (_ :: _) as parts => lower ("." +:+ text (default [] (last parts)))
  | _ => ""
  end.

Section load.
Context {R : Type} `{!Keyring R} `{!Fernet} (order : list string → list string).
(** [yaml.safe_load] ([None] when it raises) and pydantic's construction of the
    model, which runs the validators of Schema.v and reports its errors. *)
Context (safe_load : string → option pyval) (model_validate : pyval → list (list string * string) + ArgusConfig).
(** The file system: [None] when there is no such file, [Some None] when it
    cannot be read. *)
Context (files : string → option (option string)).

Definition _read_config_file (path : string) : load_error + odict string pyval :=
  let ext := file_ext path in
  if negb (bool_decide (ext ∈ _YAML_EXTS)) then inl (ConfigurationError ("Unsupported config file extension '" +:+ ext +:+ "'."))
  else match files path with
       | Some (Some content) =>
           match safe_load content with
           | Some (PDict d) => inr d
           | Some _ => inl (ConfigurationError "Top-level configuration content must be a YAML mapping (dictionary).")
           | None => inl (ConfigurationError ("Error reading configuration file: " +:+ path))
           end
       | _ => inl (ConfigurationError ("Error reading configuration file: " +:+ path))
       end.

(** Resolution with the provider the section names; each run has a fresh store. *)
Definition run_resolve (k : provider_kind) (config : pyval) (strict : bool) (w : world R)
  : (secret_error + pyval) * world R :=
  match k with
  | EnvKind =>
      let '(r, st) := resolve_secrets order config strict {| rs_store := w_env w; rs_filter := w_filter w |} in
      (r, set_filter (rs_filter st) w)
  | FileKind path =>
      let s := {| fs_content := w_secret_file w path; fs_readable := true; fs_writable := true;
                  fs_env_key := dget (w_env w) "ARGUS_SECRET_KEY"; fs_installed := w_crypto w; _fernet := None |} in
      let '(r, st) := resolve_secrets order config strict {| rs_store := s; rs_filter := w_filter w |} in
      (r, set_filter (rs_filter st) w)
  | KeyringKind =>
      let '(r, st) := resolve_secrets order config strict {| rs_store := w_ring w; rs_filter := w_filter w |} in
      (r, set_filter (rs_filter st) w)
  end.

Definition section_get (d : odict string pyval) (k : string) (def : pyval) : pyval := default def (dget d k).

(** The store is constructed outside the [try], so an unknown provider name
    raises [ValueError] here. *)
Definition _maybe_resolve_secrets (raw : odict string pyval) (w : world R) : (load_error + odict string pyval) * world R :=
  match dget raw "secrets" with
  | Some (PDict sec) =>
      if negb (truthy (section_get sec "enabled" (PBool false))) then (inr raw, w)
      else if bool_decide (find_secret_references (PDict raw) = []) then (inr raw, w)
      else
        let provider := match section_get sec "provider" (PStr "env") with PStr s => s | _ => "" end in
        let path := match section_get sec "path" PNone with PStr "" => None | PStr s => Some s | _ => None end in
        match create_provider provider path with
        | inl (ValueError msg) => (inl (LoadValueError msg), w)
        | inl _ => (inl (LoadValueError "provider"), w)
        | inr k =>
            match run_resolve k (PDict raw) (truthy (section_get sec "strict" (PBool false))) w with
            | (inr (PDict d), w') => (inr d, w')
            | (inr _, w') => (inl (ConfigurationError "Secret resolution failed"), w')
            | (inl _, w') => (inl (ConfigurationError "Secret resolution failed"), w')
            end
        end
  | _ => (inr raw, w)
  end.

(** The steps that both loaders share. *)
Definition load_argus_config (path : string) (w : world R) : (load_error + ArgusConfig) * world R :=
  match files path with
  | None => (inl (ConfigurationError ("Configuration file does not exist: " +:+ path)), w)
  | Some _ =>
      match _read_config_file path with
      | inl e => (inl e, w)
      | inr raw =>
          match expand_env_vars (w_env w) (PDict raw) 0 with
          | Some (PDict expanded) =>
              match _maybe_resolve_secrets expanded w with
              | (inl e, w') => (inl e, w')
              | (inr resolved, w') =>
                  match model_validate (PDict resolved) with
                  | inl errs => (inl (ConfigurationError "Configuration validation failed"), w')
                  | inr config => (inr config, w')
                  end
              end
          | _ => (inl (LoadValueError "expand_env_vars: recursion depth limit exceeded"), w)
          end
      end
  end.

(** Each backend becomes a new dictionary object; the check for an empty result
    can only fire for a configuration without backends, where it does not. *)
Definition convert_backends (bs : odict string BackendConfig) : config :=
  imap (λ i kv, (kv.1, _backend_to_dict i kv.2)) bs.

Definition load_and_validate_config (path : string) (w : world R) : (load_error + config) * world R :=
  match load_argus_config path w with
  | (inl e, w') => (inl e, w')
  | (inr c, w') =>
      let validated := convert_backends (ac_backends c) in
      if bool_decide (length validated = 0%nat) && negb (bool_decide (length (ac_backends c) = 0%nat))
      then (inl (ConfigurationError "No valid server configurations were found in the file."), w')
      else (inr validated, w')
  end.

(** The configuration named by the environment or found in a directory. *)
Definition find_config_file (cwd pkg_parent_dir : string) : string :=
  let candidates := base ← [cwd; pkg_parent_dir]; (λ n, base +:+ "/" +:+ n) <$> ["config.yaml"; "config.yml"] in
  default (cwd +:+ "/config.yaml") (List.find (λ p, match files p with Some _ => true | None => false end) candidates).
End load.

Section load_proofs.
Context {R : Type} `{!Keyring R} `{!Fernet} (order : list string → list string).
Context (safe_load : string → option pyval) (model_validate : pyval → list (list string * string) + ArgusConfig)
  (files : string → option (option string)).
Implicit Types (w : world R).

(** A loaded configuration has one entry per backend of the model, in order;
    the error for an empty result is never raised. *)
Lemma loaded_entries path w c w' :
  load_argus_config order safe_load model_validate files path w = (inr c, w') →
  load_and_validate_config order safe_load model_validate files path w = (inr (convert_backends (ac_backends c)), w') ∧
  dkeys (convert_backends (ac_backends c)) = dkeys (ac_backends c) ∧
  ∀ i name b, ac_backends c !! i = Some (name, b) →
    convert_backends (ac_backends c) !! i = Some (name, _backend_to_dict i b).
Proof.
  intros E. unfold load_and_validate_config. rewrite E. unfold convert_backends. split_and!.
  - rewrite length_imap. destruct (ac_backends c) as [|kv bs]; [done|]. simpl. done.
  - unfold dkeys. induction (ac_backends c) as [|kv bs IH] using rev_ind; [done|].
    rewrite imap_app, !fmap_app, IH. done.
  - intros i name b Hi. etransitivity; [apply list_lookup_imap|].
    exact (f_equal (fmap (λ kv, (kv.1, _backend_to_dict i kv.2))) Hi).
Qed.

(** An over-nested file and an unknown provider name escape as [ValueError],
    not as the documented [ConfigurationError]. *)
Lemma deep_file_escapes path w d :
  (∃ c, files path = Some c) → _read_config_file safe_load files path = inr d →
  _MAX_RECURSION_DEPTH < height (PDict d) →
  ∃ msg, load_and_validate_config order safe_load model_validate files path w = (inl (LoadValueError msg), w).
Proof.
  intros [c Hc] Hr Hd. unfold load_and_validate_config, load_argus_config. rewrite Hc, Hr.
  pose proof (expand_env_vars_result (w_env w) (PDict d) 0) as He.
  replace (0 + height (PDict d) <=? _MAX_RECURSION_DEPTH) with false in He by (symmetry; apply Z.leb_gt; lia).
  rewrite He. by eexists.
Qed.

Lemma unknown_provider_escapes raw sec p w :
  dget raw "secrets" = Some (PDict sec) → dget sec "enabled" = Some (PBool true) →
  dget sec "provider" = Some (PStr p) → find_secret_references (PDict raw) ≠ [] →
  p ∉ ["env"; "file"; "keyring"] →
  ∃ msg, _maybe_resolve_secrets order raw w = (inl (LoadValueError msg), w).
Proof.
  intros Hs He Hp Hr Hn. unfold _maybe_resolve_secrets. rewrite Hs. unfold section_get. rewrite He, Hp. simpl.
  rewrite bool_decide_false by done. unfold create_provider.
  rewrite !bool_decide_false by (intros ->; set_solver). by eexists.
Qed.
End load_proofs.
