(* ===== verification/OutgoingAuth.v ===== *)
(** * Outgoing authentication
      (bridge/auth/token_cache.py, store.py, provider.py, httpx_auth.py,
      refresh_service.py; the token requests of pkce.py)

    How the gateway authenticates to its backends: the cache of a token, the
    files that keep tokens over a restart, the three kinds of providers, the
    single retry after a 401, and the background sweep that keeps tokens fresh.

    Times and lifetimes are whole seconds.  What the outside answers during one
    call (clock readings, HTTP replies, the browser flow, the disk) is the
    record [answers]; [py_str] is [str()], [py_float] the parsing of floats. *)
From Stdlib Require Import Ascii.
From S2P Require Import Prelude PyDict Effects PyStr Json Schema ConfigDiff Loader.

Inductive auth_exc :=
  | EValue (msg : string) | EKey (key : string) | EType | EAttribute | EUnbound
  | EOs | EHttpx | ERuntime (msg : string).

(** ** The token cache *)

(** [PNone] is [None]. *)
Record TokenCache := { _token : pyval; _expires_at : Z; _expiry_buffer : Z }.
Definition new_cache (expiry_buffer : Z) : TokenCache :=
  {| _token := PNone; _expires_at := 0; _expiry_buffer := expiry_buffer |}.

Definition is_none (v : pyval) : bool := match v with PNone => true | _ => false end.
Definition cache_valid (now : Z) (c : TokenCache) : bool := negb (is_none (_token c)) && (now <? _expires_at c).
Definition cache_get (now : Z) (c : TokenCache) : pyval := if cache_valid now c then _token c else PNone.
Definition cache_set (token : pyval) (expires_in : Z) (now : Z) (c : TokenCache) : TokenCache :=
  {| _token := token; _expires_at := now + Z.max 0 (expires_in - _expiry_buffer c);
     _expiry_buffer := _expiry_buffer c |}.
Definition cache_invalidate (c : TokenCache) : TokenCache :=
  {| _token := PNone; _expires_at := 0; _expiry_buffer := _expiry_buffer c |}.

Definition num (v : pyval) : auth_exc + Z := match as_num v with Some z => inr z | None => inl EType end.

(** ** Token sets and token requests *)

Record TokenSet := {
  ts_access_token : pyval; ts_token_type : pyval; ts_refresh_token : pyval;
  ts_expires_in : pyval; ts_scope : pyval }.

Definition DEFAULT_TOKEN_EXPIRES_IN : Z := 3600.

(** [Unreachable] is an exception of httpx while sending; the body is [None]
    when it is no JSON. *)
Inductive http_reply := Reply (status : Z) (body : option pyval) | Unreachable.

Definition form : Type := odict string pyval.

(** [resp.raise_for_status(); resp.json()] *)
Definition reply_json (r : http_reply) : auth_exc + pyval :=
  match r with
  | Unreachable => inl EHttpx
  | Reply status body =>
      if (200 <=? status) && (status <=? 299) then
        match body with Some v => inr v | None => inl (EValue "json") end
      else inl EHttpx
  end.

Section requests.
Variable py_float : string → option Z.

Definition float_val (v : pyval) : auth_exc + Z :=
  match v with
  | PStr s => match py_float s with Some z => inr z | None => inl (EValue "float") end
  | _ => num v
  end.

(** The [TokenSet(...)] of [_exchange_code] and [refresh_access_token]. *)
Definition token_set_of (default_refresh : pyval) (payload : pyval) : auth_exc + TokenSet :=
  match payload with
  | PDict d =>
      match dget d "access_token" with
      | None => inl (EKey "access_token")
      | Some token =>
          expires_in ← float_val (default (PInt DEFAULT_TOKEN_EXPIRES_IN) (dget d "expires_in"));
          inr {| ts_access_token := token; ts_token_type := default (PStr "Bearer") (dget d "token_type");
                 ts_refresh_token := default default_refresh (dget d "refresh_token");
                 ts_expires_in := PInt expires_in; ts_scope := default (PStr "") (dget d "scope") |}
      end
  | _ => inl EType
  end.

Definition refresh_form (client_id refresh_token client_secret : pyval) : form :=
  [("grant_type", PStr "refresh_token"); ("client_id", client_id); ("refresh_token", refresh_token)] ++
  (if truthy client_secret then [("client_secret", client_secret)] else []).

Definition refresh_access_token (post : pyval → form → http_reply)
    (token_endpoint client_id refresh_token client_secret : pyval) : auth_exc + TokenSet :=
  payload ← reply_json (post token_endpoint (refresh_form client_id refresh_token client_secret));
  token_set_of refresh_token payload.
End requests.

(** ** The token store *)

(** [re.sub(r"[^a-zA-Z0-9._-]", "_", name)] *)
Definition safe_char (c : ascii) : ascii :=
  if is_word c || is_char 46 c || is_char 45 c then c else ascii_of_nat 95.
Definition safe_name (name : string) : string := text (safe_char <$> chars name).
Definition _path_for (dir name : string) : string := dir +:+ "/" +:+ safe_name name +:+ ".json".

Abbreviation files := (gmap string string) (only parsing).

Definition token_json (t : TokenSet) (saved_at : Z) : pyval :=
  PDict [("access_token", ts_access_token t); ("token_type", ts_token_type t);
         ("refresh_token", ts_refresh_token t); ("expires_in", ts_expires_in t);
         ("scope", ts_scope t); ("saved_at", PInt saved_at)].

(** A write that fails leaves the old file, no file, or part of the text. *)
Inductive write_result := Written | WriteFailed (left : option string).

(** [OSError] is logged and swallowed. *)
Definition save (dir name : string) (t : TokenSet) (saved_at : Z) (w : write_result) (fs : files) : files :=
  match w with
  | Written => <[_path_for dir name := dumps (Some 2%nat) (token_json t saved_at)]> fs
  | WriteFailed (Some part) => <[_path_for dir name := part]> fs
  | WriteFailed None => fs
  end.

Definition expired (saved_at expires_in : pyval) (now : Z) : auth_exc + bool :=
  if truthy saved_at && truthy expires_in then
    s ← num saved_at; e ← num expires_in; inr (now - s >=? e - 60)
  else inr false.

(** An unreadable file only logs and goes on to the unbound [data]. *)
Definition load (dir name : string) (readable : bool) (now : Z) (fs : files) : auth_exc + option TokenSet :=
  match fs !! _path_for dir name with
  | None => inr None
  | Some raw =>
      if negb readable then inl EUnbound else
      match loads raw with
      | None => inr None
      | Some (PDict data) =>
          let field k def := default def (dget data k) in
          old ← expired (field "saved_at" (PInt 0)) (field "expires_in" (PInt 0)) now;
          if old : bool then
            let refresh := field "refresh_token" (PStr "") in
            inr (if truthy refresh then
                   Some {| ts_access_token := PStr ""; ts_token_type := field "token_type" (PStr "Bearer");
                           ts_refresh_token := refresh; ts_expires_in := PInt 0; ts_scope := field "scope" (PStr "") |}
                 else None)
          else match dget data "access_token" with
               | None => inl (EKey "access_token")
               | Some token =>
                   inr (Some {| ts_access_token := token; ts_token_type := field "token_type" (PStr "Bearer");
                                ts_refresh_token := field "refresh_token" (PStr "");
                                ts_expires_in := field "expires_in" (PInt DEFAULT_TOKEN_EXPIRES_IN);
                                ts_scope := field "scope" (PStr "") |})
               end
      | Some _ => inl EAttribute
      end
  end.

Definition store_delete_token (dir name : string) (fs : files) : bool * files :=
  match fs !! _path_for dir name with
  | Some _ => (true, delete (_path_for dir name) fs)
  | None => (false, fs)
  end.

(** ** Providers *)

Record OAuth2Provider := {
  oa_token_url : pyval; oa_client_id : pyval; oa_client_secret : pyval; oa_scopes : pyval; oa_cache : TokenCache }.
Record PKCEAuthProvider := {
  pk_backend_name : pyval; pk_auth_endpoint : pyval; pk_token_endpoint : pyval; pk_client_id : pyval;
  pk_client_secret : pyval; pk_scopes : pyval; pk_token_dir : pyval; pk_cache : TokenCache }.
Inductive provider :=
  | PStatic (headers : odict string pyval)
  | POAuth2 (p : OAuth2Provider)
  | PPkce (p : PKCEAuthProvider).

Definition oa_with (c : TokenCache) (p : OAuth2Provider) : OAuth2Provider :=
  {| oa_token_url := oa_token_url p; oa_client_id := oa_client_id p; oa_client_secret := oa_client_secret p;
     oa_scopes := oa_scopes p; oa_cache := c |}.
Definition pk_with (c : TokenCache) (p : PKCEAuthProvider) : PKCEAuthProvider :=
  {| pk_backend_name := pk_backend_name p; pk_auth_endpoint := pk_auth_endpoint p;
     pk_token_endpoint := pk_token_endpoint p; pk_client_id := pk_client_id p;
     pk_client_secret := pk_client_secret p; pk_scopes := pk_scopes p; pk_token_dir := pk_token_dir p;
     pk_cache := c |}.

(** What the outside answers during one call: the two looks at the cache, the
    disk, the token endpoint, the browser, the moment the token is cached. *)
Record answers := {
  an_now : Z; an_now_locked : Z;
  an_readable : bool; an_wall : Z;
  an_post : pyval → form → http_reply;
  an_flow : auth_exc + TokenSet;
  an_set_now : Z; an_saved_at : Z; an_write : write_result }.

Section providers.
Variable py_float : string → option Z.
Variable py_str : pyval → string.
Variable _DEFAULT_TOKEN_DIR : string.

Definition bearer (token : pyval) : odict string pyval := [("Authorization", PStr ("Bearer " +:+ py_str token))].

(** [" ".join(scopes)] *)
Definition join_scopes (scopes : pyval) : auth_exc + pyval :=
  match scopes with
  | PList l => match mapM as_str l with Some names => inr (PStr (str_join " " names)) | None => inl EType end
  | PStr s => inr (PStr (str_join " " ((λ c, text [c]) <$> chars s)))
  | PDict d => inr (PStr (str_join " " (dkeys d)))
  | _ => inl EType
  end.

Definition token_form (p : OAuth2Provider) : auth_exc + form :=
  let data := [("grant_type", PStr "client_credentials"); ("client_id", oa_client_id p);
               ("client_secret", oa_client_secret p)] in
  if truthy (oa_scopes p) then s ← join_scopes (oa_scopes p); inr (data ++ [("scope", s)]) else inr data.

(** [payload["access_token"]], then the lifetime *)
Definition token_reply (payload : pyval) : auth_exc + (pyval * Z) :=
  match payload with
  | PDict d =>
      match dget d "access_token" with
      | None => inl (EKey "access_token")
      | Some token =>
          e ← float_val py_float (default (PInt DEFAULT_TOKEN_EXPIRES_IN) (dget d "expires_in"));
          inr (token, e)
      end
  | _ => inl EType
  end.

Definition _fetch_token (a : answers) : M OAuth2Provider auth_exc pyval := λ p,
  match (f ← token_form p; payload ← reply_json (an_post a (oa_token_url p) f); token_reply payload) with
  | inl e => (inl e, p)
  | inr (token, expires_in) => (inr token, oa_with (cache_set token expires_in (an_set_now a) (oa_cache p)) p)
  end.

Definition oauth2_get_headers (a : answers) : M OAuth2Provider auth_exc (odict string pyval) :=
  p ← get_state;
  let token := cache_get (an_now a) (oa_cache p) in
  if is_none token then
    let token := cache_get (an_now_locked a) (oa_cache p) in
    if is_none token then token ← _fetch_token a; mret (bearer token) else mret (bearer token)
  else mret (bearer token).

(** The directory and the file of a provider. *)
Definition store_dir (p : PKCEAuthProvider) : auth_exc + string :=
  if truthy (pk_token_dir p) then match pk_token_dir p with PStr s => inr s | _ => inl EType end
  else inr _DEFAULT_TOKEN_DIR.
Definition store_key (p : PKCEAuthProvider) : auth_exc + (string * string) :=
  dir ← store_dir p; match pk_backend_name p with PStr n => inr (dir, n) | _ => inl EType end.

Definition pkce_state : Type := PKCEAuthProvider * files.

(** [self._cache.set(t.access_token, t.expires_in)] *)
Definition keep_token (t : TokenSet) (now : Z) : M pkce_state auth_exc () := λ '(p, fs),
  match num (ts_expires_in t) with
  | inl e => (inl e, (p, fs))
  | inr e => (inr (), (pk_with (cache_set (ts_access_token t) e now (pk_cache p)) p, fs))
  end.
Definition keep_and_save (dir name : string) (t : TokenSet) (a : answers) : M pkce_state auth_exc pyval :=
  _ ← keep_token t (an_set_now a);
  _ ← modify (λ '(p, fs), (p, save dir name t (an_saved_at a) (an_write a) fs));
  mret (ts_access_token t).

Definition lift {A} (r : auth_exc + A) : M pkce_state auth_exc A := λ s, (r, s).

Definition browser_flow (dir name : string) (a : answers) : M pkce_state auth_exc pyval :=
  t ← lift (an_flow a); keep_and_save dir name t a.

Definition _resolve_token (a : answers) : M pkce_state auth_exc pyval :=
  s ← get_state;
  let p := s.1 in
  key ← lift (store_key p);
  let '(dir, name) := key : string * string in
  stored ← lift (load dir name (an_readable a) (an_wall a) s.2);
  match stored with
  | Some t =>
      if truthy (ts_access_token t) then _ ← keep_token t (an_set_now a); mret (ts_access_token t)
      else if truthy (ts_refresh_token t) then
        try_except
          (refreshed ← lift (refresh_access_token py_float (an_post a) (pk_token_endpoint p) (pk_client_id p)
                               (ts_refresh_token t) (pk_client_secret p));
           keep_and_save dir name refreshed a)
          (λ e, match e with EOs => browser_flow dir name a | _ => raise e end)
      else browser_flow dir name a
  | None => browser_flow dir name a
  end.

Definition pkce_get_headers (a : answers) : M pkce_state auth_exc (odict string pyval) :=
  s ← get_state;
  let token := cache_get (an_now a) (pk_cache s.1) in
  if truthy token then mret (bearer token)
  else
    let token := cache_get (an_now_locked a) (pk_cache s.1) in
    if truthy token then mret (bearer token)
    else token ← _resolve_token a; mret (bearer token).

Definition trigger_reauth (a : answers) : M pkce_state auth_exc pyval :=
  _ ← modify (λ '(p, fs), (pk_with (cache_invalidate (pk_cache p)) p, fs));
  s ← get_state;
  key ← lift (store_key s.1);
  browser_flow key.1 key.2 a.

(** [provider.get_headers()] and [provider.invalidate()] *)
Definition get_headers (a : answers) : M (provider * files) auth_exc (odict string pyval) := λ '(p, fs),
  match p with
  | PStatic headers => (inr headers, (p, fs))
  | POAuth2 o => let '(r, o') := oauth2_get_headers a o in (r, (POAuth2 o', fs))
  | PPkce k => let '(r, (k', fs')) := pkce_get_headers a (k, fs) in (r, (PPkce k', fs'))
  end.
Definition invalidate (p : provider) : provider :=
  match p with
  | PStatic _ => p
  | POAuth2 o => POAuth2 (oa_with (cache_invalidate (oa_cache o)) o)
  | PPkce k => PPkce (pk_with (cache_invalidate (pk_cache k)) k)
  end.

(** ** The factory *)

Definition require_keys (what : string) (keys : list string) (cfg : odict string pyval) : auth_exc + unit :=
  check_each (λ k, if truthy (default PNone (dget cfg k)) then inr tt
                   else inl (EValue (what +:+ " auth requires '" +:+ k +:+ "'."))) keys.

(** [x or []] *)
Definition or_empty (v : pyval) : pyval := if truthy v then v else PList [].

Definition create_auth_provider (cfg : odict string pyval) (backend_name : string) : auth_exc + provider :=
  let at_key k := default PNone (dget cfg k) in
  match default (PStr "") (dget cfg "type") with
  | PStr "static" =>
      match dget cfg "headers" with
      | Some (PDict ((_ :: _) as headers)) => inr (PStatic headers)
      | _ => inl (EValue "Static auth requires non-empty 'headers' dict.")
      end
  | PStr "oauth2" =>
      _ ← require_keys "OAuth2" ["token_url"; "client_id"; "client_secret"] cfg;
      buffer ← float_val py_float (default (PInt 300) (dget cfg "token_expiry_buffer_seconds"));
      inr (POAuth2 {| oa_token_url := at_key "token_url"; oa_client_id := at_key "client_id";
                      oa_client_secret := at_key "client_secret";
                      oa_scopes := or_empty (default (PList []) (dget cfg "scopes"));
                      oa_cache := new_cache buffer |})
  | PStr "pkce" =>
      _ ← require_keys "PKCE" ["authorization_endpoint"; "token_endpoint"; "client_id"] cfg;
      buffer ← float_val py_float (default (PInt 300) (dget cfg "token_expiry_buffer_seconds"));
      inr (PPkce {| pk_backend_name := if bool_decide (backend_name = "")
                                       then default (PStr "unknown") (dget cfg "backend_name")
                                       else PStr backend_name;
                    pk_auth_endpoint := at_key "authorization_endpoint";
                    pk_token_endpoint := at_key "token_endpoint"; pk_client_id := at_key "client_id";
                    pk_client_secret := default (PStr "") (dget cfg "client_secret");
                    pk_scopes := or_empty (default (PList []) (dget cfg "scopes"));
                    pk_token_dir := at_key "token_dir"; pk_cache := new_cache buffer |})
  | _ => inl (EValue "Unknown auth type")
  end.
End providers.

(** [_redact(value, visible)] *)
Definition _redact (value : string) (visible : nat) : string :=
  let l := chars value in
  if Nat.leb (length l) visible then "****"
  else text (replicate (length l - visible) (ascii_of_nat 42) ++ drop (length l - visible) l).

(** [StaticTokenProvider.redacted_repr]: the headers it shows *)
Definition sensitive_words : list string := ["auth"; "token"; "key"; "secret"].
Definition redacted_headers (headers : odict string string) : odict string string :=
  (λ kv, (kv.1, if existsb (contains (lower kv.1)) sensitive_words then _redact kv.2 4 else kv.2)) <$> headers.

(** ** One retry after a 401 (httpx_auth.py) *)

Definition _MAX_401_RETRIES : nat := 1.

(** The provider, the token files and the requests that were sent. *)
Record flow_state := { fw_provider : provider; fw_files : files; fw_sent : list (odict string pyval) }.

Section bearer_auth.
Variable py_float : string → option Z.
Variable py_str : pyval → string.
Variable _DEFAULT_TOKEN_DIR : string.
(** The status of the reply to the n-th request; what the outside answers to
    the n-th call of the provider. *)
Variable server : nat → odict string pyval → Z.
Variable ask : nat → answers.

Definition authorize (i : nat) (request : odict string pyval) : M flow_state auth_exc (odict string pyval) := λ st,
  let '(r, (p, fs)) := get_headers py_float py_str _DEFAULT_TOKEN_DIR (ask i) (fw_provider st, fw_files st) in
  let st' := {| fw_provider := p; fw_files := fs; fw_sent := fw_sent st |} in
  match r with inl e => (inl e, st') | inr headers => (inr (dupdate request headers), st') end.

(** [response = yield request] *)
Definition send (i : nat) (request : odict string pyval) : M flow_state auth_exc Z :=
  _ ← modify (λ st, {| fw_provider := fw_provider st; fw_files := fw_files st; fw_sent := fw_sent st ++ [request] |});
  mret (server i request).

Fixpoint retry_401 (left : nat) (retry_on_401 : bool) (i : nat) (request : odict string pyval) (status : Z)
  : M flow_state auth_exc Z :=
  match left with
  | O => mret status
  | S left' =>
      if retry_on_401 && (status =? 401) then
        _ ← modify (λ st, {| fw_provider := invalidate (fw_provider st); fw_files := fw_files st; fw_sent := fw_sent st |});
        request ← authorize i request;
        status ← send i request;
        retry_401 left' retry_on_401 (S i) request status
      else mret status
  end.

Definition async_auth_flow (retry_on_401 : bool) (request : odict string pyval) : M flow_state auth_exc Z :=
  request ← authorize 0 request;
  status ← send 0 request;
  retry_401 _MAX_401_RETRIES retry_on_401 1 request status.
End bearer_auth.

(** ** The refresh sweep (refresh_service.py) *)

Section sweep.
Variable py_float : string → option Z.
Variable py_str : pyval → string.
Variable _DEFAULT_TOKEN_DIR : string.

(** The providers afterwards, the files, and the backends reported for
    re-authentication. *)
Fixpoint _sweep (ask : string → answers) (ps : odict string provider) (fs : files)
  : odict string provider * files * list string :=
  match ps with
  | [] => ([], fs, [])
  | (name, PStatic h) :: ps' =>
      let '(ps'', fs', calls) := _sweep ask ps' fs in ((name, PStatic h) :: ps'', fs', calls)
  | (name, p) :: ps' =>
      let '(r, (p', fs1)) := get_headers py_float py_str _DEFAULT_TOKEN_DIR (ask name) (p, fs) in
      let '(ps'', fs', calls) := _sweep ask ps' fs1 in
      ((name, p') :: ps'', fs', match r with inl _ => name :: calls | inr _ => calls end)
  end.
End sweep.

(** ** Concurrent callers of [OAuth2Provider.get_headers]

    A call looks at the cache, waits for the lock, looks again, and fetches
    while it holds the lock; a task can be suspended at the lock and at the
    request. *)

Inductive task := Begin | WantLock | Fetching | Finished (token : pyval) | Broken.
Record callers := {
  sf_cache : TokenCache; sf_lock : option nat; sf_tasks : list task; sf_started : nat; sf_failed : nat }.

(** Task [ev_task] runs at time [ev_now]; [ev_reply] is the outcome of its
    request if it was waiting for one. *)
Record event := { ev_task : nat; ev_now : Z; ev_reply : auth_exc + (pyval * Z) }.

Definition set_task (i : nat) (t : task) (s : callers) : callers :=
  {| sf_cache := sf_cache s; sf_lock := sf_lock s; sf_tasks := <[i := t]> (sf_tasks s);
     sf_started := sf_started s; sf_failed := sf_failed s |}.

Definition call_step (s : callers) (e : event) : option callers :=
  let i := ev_task e in
  let token := cache_get (ev_now e) (sf_cache s) in
  match sf_tasks s !! i with
  | Some Begin => Some (set_task i (if is_none token then WantLock else Finished token) s)
  | Some WantLock =>
      match sf_lock s with
      | Some _ => None
      | None =>
          if is_none token then
            Some {| sf_cache := sf_cache s; sf_lock := Some i; sf_tasks := <[i := Fetching]> (sf_tasks s);
                    sf_started := S (sf_started s); sf_failed := sf_failed s |}
          else Some (set_task i (Finished token) s)
      end
  | Some Fetching =>
      match ev_reply e with
      | inr (t, expires_in) =>
          Some {| sf_cache := cache_set t expires_in (ev_now e) (sf_cache s); sf_lock := None;
                  sf_tasks := <[i := Finished t]> (sf_tasks s); sf_started := sf_started s; sf_failed := sf_failed s |}
      | inl _ =>
          Some {| sf_cache := sf_cache s; sf_lock := None; sf_tasks := <[i := Broken]> (sf_tasks s);
                  sf_started := sf_started s; sf_failed := S (sf_failed s) |}
      end
  | _ => None
  end.
Definition calls (s : callers) (e : event) (s' : callers) : Prop := call_step s e = Some s'.
Definition callers_init (buffer : Z) (n : nat) : callers :=
  {| sf_cache := new_cache buffer; sf_lock := None; sf_tasks := replicate n Begin; sf_started := 0; sf_failed := 0 |}.

(** ** The token files *)

Definition token_wf (t : TokenSet) : Prop :=
  pv_wf (ts_access_token t) ∧ pv_wf (ts_token_type t) ∧ pv_wf (ts_refresh_token t) ∧
  pv_wf (ts_expires_in t) ∧ pv_wf (ts_scope t).

Lemma token_json_wf t saved_at : token_wf t → pv_wf (token_json t saved_at).
Proof.
  intros (? & ? & ? & ? & ?). unfold token_json. constructor; [by_decide|].
  repeat constructor; done.
Qed.

Lemma path_for_inj dir n1 n2 : _path_for dir n1 = _path_for dir n2 → safe_name n1 = safe_name n2.
Proof.
  unfold _path_for. intros H%(f_equal chars). rewrite !chars_app in H.
  apply app_inv_head, app_inv_head, app_inv_tail in H. by apply chars_inj.
Qed.

(** A name cannot leave the directory. *)
Lemma safe_name_no_slash n : ascii_of_nat 47 ∉ chars (safe_name n).
Proof.
  unfold safe_name. rewrite chars_text, list_elem_of_fmap. intros (c & Hc & _).
  unfold safe_char in Hc. destruct (is_word c || is_char 46 c || is_char 45 c) eqn:E; [|done].
  by subst c.
Qed.

(** What a file written at [saved_at] gives at [now]. *)
Definition read_back (t : TokenSet) (e saved_at now : Z) : option TokenSet :=
  if now - saved_at <? e - 60 then Some t
  else if truthy (ts_refresh_token t)
  then Some {| ts_access_token := PStr ""; ts_token_type := ts_token_type t;
               ts_refresh_token := ts_refresh_token t; ts_expires_in := PInt 0; ts_scope := ts_scope t |}
  else None.

Lemma load_saved dir name t e saved_at now fs :
  token_wf t → ts_expires_in t = PInt e → saved_at ≠ 0 → e ≠ 0 →
  load dir name true now (save dir name t saved_at Written fs) = inr (read_back t e saved_at now).
Proof.
  intros Hwf He Hs Hz. unfold load, save. rewrite lookup_insert_eq. simpl negb. cbn [negb].
  rewrite loads_dumps by (by apply token_json_wf). unfold token_json. rewrite He.
  cbn [dget]. repeat first [rewrite decide_True by done | rewrite decide_False by done]. rewrite !default_Some.
  unfold expired. cbn [truthy]. rewrite (proj2 (Z.eqb_neq _ _) Hs), (proj2 (Z.eqb_neq _ _) Hz). simpl.
  unfold read_back. rewrite Z.geb_leb, Z.leb_antisym. destruct (now - saved_at <? e - 60); simpl.
  - destruct t; simpl in *; by subst.
  - by destruct (truthy (ts_refresh_token t)).
Qed.

Lemma load_other dir name other t saved_at w readable now fs :
  safe_name other ≠ safe_name name →
  load dir other readable now (save dir name t saved_at w fs) = load dir other readable now fs.
Proof.
  intros Hne. unfold load, save.
  assert (_path_for dir name ≠ _path_for dir other) by (by intros H%path_for_inj).
  destruct w as [|[part|]]; rewrite ?lookup_insert_ne by done; done.
Qed.

(** A token set written for a backend is read back unchanged while more
    than sixty seconds of its lifetime are left; after that only its refresh
    token comes back, or nothing when it has none.  Reading the tokens of a
    backend with another file name gives what it gave before the write, also
    when the write failed half way, and no name leaves the token directory. *)
Theorem token_store_roundtrip (dir name other : string) (t : TokenSet) (e saved_at now : Z) (fs : files)
    (Hwf : token_wf t) (He : ts_expires_in t = PInt e) (Hs : saved_at ≠ 0) (Hz : e ≠ 0)
    (Hother : safe_name other ≠ safe_name name) :
  load dir name true now (save dir name t saved_at Written fs) = inr (read_back t e saved_at now) ∧
  (∀ w readable, load dir other readable now (save dir name t saved_at w fs) = load dir other readable now fs) ∧
  (∃ base, _path_for dir name = dir +:+ "/" +:+ base ∧ ascii_of_nat 47 ∉ chars base).
Proof.
  split_and!.
  - by apply load_saved.
  - intros w readable. by apply load_other.
  - exists (safe_name name +:+ ".json"). split; [done|]. rewrite chars_app, elem_of_app.
    intros [H|H]; [by apply safe_name_no_slash in H|]. revert H. by_decide.
Qed.

Definition sample_tokens : TokenSet := {|
  ts_access_token := PStr "at-1"; ts_token_type := PStr "Bearer"; ts_refresh_token := PStr "rt-1";
  ts_expires_in := PInt 3600; ts_scope := PStr "openid" |}.

Lemma token_store_roundtrip_witness :
  load "/tokens" "semgrep" true 1500 (save "/tokens" "semgrep" sample_tokens 1000 Written ∅) = inr (Some sample_tokens).
Proof.
  assert (token_wf sample_tokens) by (unfold token_wf; simpl; eauto with argus).
  apply (token_store_roundtrip "/tokens" "semgrep" "github" sample_tokens 3600 1000 1500 ∅); done.
Defined.

(** Two backends whose names differ only in replaced characters share a file. *)
Example token_files_collide : _path_for "/t" "my server" = _path_for "/t" "my_server".
Proof. reflexivity. Qed.

(** ** A login survives a restart *)

Section restart.
Variable py_float : string → option Z.
Variable py_str : pyval → string.
Variable default_dir : string.
Abbreviation ask_pkce := (pkce_get_headers py_float py_str default_dir) (only parsing).

(** A call with nothing usable in the cache goes to [_resolve_token]. *)
Lemma pkce_uncached a p fs :
  truthy (cache_get (an_now a) (pk_cache p)) = false → truthy (cache_get (an_now_locked a) (pk_cache p)) = false →
  ask_pkce a (p, fs) = (token ← _resolve_token py_float default_dir a; mret (bearer py_str token)) (p, fs).
Proof. intros H1 H2. unfold pkce_get_headers. rewrite run_get. simpl. by rewrite H1, H2. Qed.

Lemma new_cache_empty now b : cache_get now (new_cache b) = PNone.
Proof. done. Qed.

(** What a browser login leaves behind. *)
Lemma browser_login a p fs dir name t e :
  store_key default_dir p = inr (dir, name) →
  truthy (cache_get (an_now a) (pk_cache p)) = false → truthy (cache_get (an_now_locked a) (pk_cache p)) = false →
  load dir name (an_readable a) (an_wall a) fs = inr None →
  an_flow a = inr t → ts_expires_in t = PInt e →
  ask_pkce a (p, fs) =
    (inr (bearer py_str (ts_access_token t)),
     (pk_with (cache_set (ts_access_token t) e (an_set_now a) (pk_cache p)) p,
      save dir name t (an_saved_at a) (an_write a) fs)).
Proof.
  intros Hk H1 H2 Hl Hf He. rewrite pkce_uncached by done.
  unfold _resolve_token, browser_flow, keep_and_save, keep_token, lift. unfold_M.
  by rewrite Hk, Hl, Hf, He.
Qed.

(** What a stored token gives to a provider with an empty cache. *)
Lemma stored_token_used a p fs dir name t e :
  store_key default_dir p = inr (dir, name) →
  truthy (cache_get (an_now a) (pk_cache p)) = false → truthy (cache_get (an_now_locked a) (pk_cache p)) = false →
  load dir name (an_readable a) (an_wall a) fs = inr (Some t) →
  truthy (ts_access_token t) = true → ts_expires_in t = PInt e →
  ask_pkce a (p, fs) =
    (inr (bearer py_str (ts_access_token t)),
     (pk_with (cache_set (ts_access_token t) e (an_set_now a) (pk_cache p)) p, fs)).
Proof.
  intros Hk H1 H2 Hl Ht He. rewrite pkce_uncached by done.
  unfold _resolve_token, keep_token, lift. unfold_M. rewrite Hk, Hl, Ht. simpl. by rewrite He.
Qed.

(** A browser login is needed once.  A call that finds no token runs the
    browser flow and answers with its token; a provider created later for the
    same backend and directory, after a restart, answers with the same token
    until a minute before it expires, whatever the token endpoint and the
    browser would say. *)
Theorem login_survives_restart (a b : answers) (p q : PKCEAuthProvider) (fs : files) (dir name : string)
    (t : TokenSet) (e : Z)
    (Hp : store_key default_dir p = inr (dir, name)) (Hq : store_key default_dir q = inr (dir, name))
    (Hc1 : truthy (cache_get (an_now a) (pk_cache p)) = false)
    (Hc2 : truthy (cache_get (an_now_locked a) (pk_cache p)) = false)
    (Hnone : load dir name (an_readable a) (an_wall a) fs = inr None)
    (Hflow : an_flow a = inr t) (Hw : an_write a = Written) (Hwf : token_wf t)
    (Ht : truthy (ts_access_token t) = true) (He : ts_expires_in t = PInt e)
    (Hs : an_saved_at a ≠ 0) (Hfresh : pk_cache q = new_cache (_expiry_buffer (pk_cache q)))
    (Hread : an_readable b = true) (Htime : an_wall b - an_saved_at a < e - 60) (Hpos : e ≠ 0) :
  ∃ p' fs', ask_pkce a (p, fs) = (inr (bearer py_str (ts_access_token t)), (p', fs')) ∧
  ∃ q', ask_pkce b (q, fs') = (inr (bearer py_str (ts_access_token t)), (q', fs')).
Proof.
  do 2 eexists. split; [by eapply browser_login|]. eexists. rewrite Hw.
  eapply stored_token_used; [done|by rewrite Hfresh..| |done|done].
  rewrite Hread, (load_saved _ _ _ e) by done. unfold read_back.
  by rewrite (proj2 (Z.ltb_lt _ _) Htime).
Qed.

(** A refresh token that the server no longer accepts is never replaced: the
    error of httpx is not among those that lead to the browser, and nothing
    changes, so every later call fails the same way. *)
Lemma rejected_refresh_escapes a p fs dir name t status body :
  store_key default_dir p = inr (dir, name) →
  truthy (cache_get (an_now a) (pk_cache p)) = false → truthy (cache_get (an_now_locked a) (pk_cache p)) = false →
  load dir name (an_readable a) (an_wall a) fs = inr (Some t) →
  truthy (ts_access_token t) = false → truthy (ts_refresh_token t) = true →
  (∀ url f, an_post a url f = Reply status body) → 400 <= status →
  ask_pkce a (p, fs) = (inl EHttpx, (p, fs)).
Proof.
  intros Hk H1 H2 Hl Ha Hr Hpost Hst. rewrite pkce_uncached by done.
  unfold _resolve_token, lift, refresh_access_token. unfold_M. rewrite Hk, Hl, Ha, Hr.
  rewrite Hpost. unfold reply_json. rewrite (proj2 (Z.leb_gt status 299)) by lia.
  by rewrite andb_false_r.
Qed.

(** A token from the disk is cached with its whole lifetime, whatever its age:
    read shortly before its end, it is handed out long after. *)
Lemma disk_token_outlives_lifetime a p fs dir name t e saved_at late :
  store_key default_dir p = inr (dir, name) → pk_cache p = new_cache (_expiry_buffer (pk_cache p)) →
  an_readable a = true → token_wf t → ts_expires_in t = PInt e → truthy (ts_access_token t) = true →
  saved_at ≠ 0 → e ≠ 0 → an_wall a - saved_at < e - 60 → late < an_set_now a + (e - _expiry_buffer (pk_cache p)) →
  ∃ p', ask_pkce a (p, save dir name t saved_at Written fs) =
          (inr (bearer py_str (ts_access_token t)), (p', save dir name t saved_at Written fs)) ∧
        cache_get late (pk_cache p') = ts_access_token t.
Proof.
  intros Hk Hc Hr Hwf He Ht Hs Hz Hage Hlate. eexists. split.
  - eapply stored_token_used; [done|by rewrite Hc..| |done|done].
    rewrite Hr, (load_saved _ _ _ e) by done. unfold read_back. by rewrite (proj2 (Z.ltb_lt _ _) Hage).
  - unfold cache_get, cache_valid. cbn [pk_with pk_cache cache_set _token _expires_at].
    destruct (ts_access_token t); try done; rewrite (proj2 (Z.ltb_lt _ _)); try done; lia.
Qed.
End restart.

Definition offline : answers := {|
  an_now := 0; an_now_locked := 0; an_readable := true; an_wall := 2000; an_post := λ _ _, Unreachable;
  an_flow := inl (ERuntime "no browser"); an_set_now := 0; an_saved_at := 2000; an_write := Written |}.
Definition first_login : answers := {|
  an_now := 10; an_now_locked := 11; an_readable := true; an_wall := 1000; an_post := λ _ _, Unreachable;
  an_flow := inr sample_tokens; an_set_now := 12; an_saved_at := 1000; an_write := Written |}.
Definition sample_pkce : PKCEAuthProvider := {|
  pk_backend_name := PStr "semgrep"; pk_auth_endpoint := PStr "https://a/authorize";
  pk_token_endpoint := PStr "https://a/token"; pk_client_id := PStr "argus"; pk_client_secret := PStr "";
  pk_scopes := PList []; pk_token_dir := PNone; pk_cache := new_cache 300 |}.
Definition str_only (v : pyval) : string := match v with PStr s => s | _ => "" end.

Lemma login_survives_restart_witness :
  let ask := pkce_get_headers (λ _, None) str_only "/tokens" in
  ∃ p' fs', ask first_login (sample_pkce, ∅) = (inr (bearer str_only (PStr "at-1")), (p', fs')) ∧
  ∃ q', ask offline (sample_pkce, fs') = (inr (bearer str_only (PStr "at-1")), (q', fs')).
Proof.
  apply (login_survives_restart (λ _, None) str_only "/tokens" first_login offline sample_pkce sample_pkce ∅
           "/tokens" "semgrep" sample_tokens 3600); try reflexivity; try done.
  unfold token_wf; simpl; eauto with argus.
Defined.

(** ** The retry after a 401 *)

#[local] Arguments get_headers : simpl never.

Section flow_proofs.
Variable py_float : string → option Z.
Variable py_str : pyval → string.
Variable default_dir : string.
Variable server : nat → odict string pyval → Z.
Variable ask : nat → answers.
Abbreviation flow := (async_auth_flow py_float py_str default_dir server ask) (only parsing).
Abbreviation auth_step i p fs := (get_headers py_float py_str default_dir (ask i) (p, fs)) (only parsing).

Lemma authorize_run i request p fs sent h p' fs' :
  auth_step i p fs = (inr h, (p', fs')) →
  authorize py_float py_str default_dir ask i request {| fw_provider := p; fw_files := fs; fw_sent := sent |} =
    (inr (dupdate request h), {| fw_provider := p'; fw_files := fs'; fw_sent := sent |}).
Proof. intros H. unfold authorize. cbn [fw_provider fw_files fw_sent]. by rewrite H. Qed.

(** The first request and, after a 401, the second. *)
Lemma flow_run retry request p fs h p1 fs1 :
  auth_step 0 p fs = (inr h, (p1, fs1)) →
  let r1 := dupdate request h in
  flow retry request {| fw_provider := p; fw_files := fs; fw_sent := [] |} =
    if retry && (server 0 r1 =? 401) then
      match auth_step 1 (invalidate p1) fs1 with
      | (inl e, (p2, fs2)) => (inl e, {| fw_provider := p2; fw_files := fs2; fw_sent := [r1] |})
      | (inr h2, (p2, fs2)) =>
          (inr (server 1 (dupdate r1 h2)), {| fw_provider := p2; fw_files := fs2; fw_sent := [r1; dupdate r1 h2] |})
      end
    else (inr (server 0 r1), {| fw_provider := p1; fw_files := fs1; fw_sent := [r1] |}).
Proof.
  intros H r1. unfold async_auth_flow. rewrite run_bind, (authorize_run _ _ _ _ _ _ _ _ H).
  unfold send, retry_401, _MAX_401_RETRIES. unfold_M. fold r1.
  destruct (retry && (server 0 r1 =? 401)); [|done].
  unfold authorize. cbn [fw_provider fw_files fw_sent].
  by destruct (auth_step 1 (invalidate p1) fs1) as [[e|h2] [p2 fs2]].
Qed.

(** A cleared cache makes [OAuth2Provider.get_headers] ask the token endpoint. *)
Lemma oauth2_refetch a o :
  oauth2_get_headers py_float py_str a (oa_with (cache_invalidate (oa_cache o)) o) =
    (token ← _fetch_token py_float a; mret (bearer py_str token)) (oa_with (cache_invalidate (oa_cache o)) o).
Proof. done. Qed.

(** A request carries the headers of its provider and is repeated at most
    once, exactly when the reply is 401 and retries are enabled; the reply to
    the repeated request is final.  With client credentials the repeated
    request carries a token that the token endpoint issued after the
    rejection, never the rejected one from the cache. *)
Theorem auth_flow_exact (retry : bool) (request : odict string pyval) (p : provider) (fs : files)
    (h : odict string pyval) (p1 : provider) (fs1 : files)
    (Hfirst : auth_step 0 p fs = (inr h, (p1, fs1))) :
  let r1 := dupdate request h in
  let out := flow retry request {| fw_provider := p; fw_files := fs; fw_sent := [] |} in
  (retry && (server 0 r1 =? 401) = false → out.1 = inr (server 0 r1) ∧ fw_sent out.2 = [r1]) ∧
  (retry && (server 0 r1 =? 401) = true →
    (∃ e, out.1 = inl e ∧ fw_sent out.2 = [r1]) ∨
    (∃ h2, out.1 = inr (server 1 (dupdate r1 h2)) ∧ fw_sent out.2 = [r1; dupdate r1 h2] ∧
      ∀ o, p1 = POAuth2 o → ∃ f payload token expires_in,
        token_form o = inr f ∧ reply_json (an_post (ask 1) (oa_token_url o) f) = inr payload ∧
        token_reply py_float payload = inr (token, expires_in) ∧ h2 = bearer py_str token)).
Proof.
  intros r1 out. unfold out. rewrite (flow_run _ _ _ _ _ _ _ Hfirst). fold r1.
  destruct (retry && (server 0 r1 =? 401)); split; intros Hb; try done.
  destruct (auth_step 1 (invalidate p1) fs1) as [[e|h2] [p2 fs2]] eqn:E; [left; eauto|right].
  exists h2. split_and!; [done..|]. intros o ->. unfold get_headers, invalidate in E. rewrite oauth2_refetch, run_bind in E.
  unfold _fetch_token in E. cbn [oa_with oa_token_url token_form oa_scopes oa_client_id oa_client_secret] in E.
  change (token_form (oa_with (cache_invalidate (oa_cache o)) o)) with (token_form o) in E.
  destruct (token_form o) as [|f]; simpl in E; [by simplify_eq|].
  destruct (reply_json (an_post (ask 1) (oa_token_url o) f)) as [|payload] eqn:Ej; simpl in E; [by simplify_eq|].
  destruct (token_reply py_float payload) as [|[token expires_in]] eqn:Et; simplify_eq/=. naive_solver.
Qed.

(** After a browser login the token is on disk, and clearing the cache does not
    remove it: a backend that rejects the token is asked again with the same
    one, as long as the file says it is alive. *)
Lemma pkce_retry_repeats_token request k fs h k1 fs1 dir name t e :
  auth_step 0 (PPkce k) fs = (inr h, (PPkce k1, fs1)) →
  store_key default_dir k1 = inr (dir, name) →
  load dir name (an_readable (ask 1)) (an_wall (ask 1)) fs1 = inr (Some t) →
  truthy (ts_access_token t) = true → ts_expires_in t = PInt e → h = bearer py_str (ts_access_token t) →
  server 0 (dupdate request h) = 401 →
  fw_sent (flow true request {| fw_provider := PPkce k; fw_files := fs; fw_sent := [] |}).2 =
    [dupdate request h; dupdate (dupdate request h) h].
Proof.
  intros H0 Hk Hl Ht He Hh H401. rewrite (flow_run _ _ _ _ _ _ _ H0), H401. unfold get_headers, invalidate.
  rewrite (stored_token_used _ _ _ (ask 1) _ fs1 dir name t e) by done. simpl. by rewrite Hh.
Qed.
End flow_proofs.

Definition sample_oauth2 : OAuth2Provider := {|
  oa_token_url := PStr "https://a/token"; oa_client_id := PStr "argus"; oa_client_secret := PStr "s3cret";
  oa_scopes := PList []; oa_cache := cache_set (PStr "old") 3600 0 (new_cache 300) |}.
Definition issues (token : string) : answers := {|
  an_now := 100; an_now_locked := 101; an_readable := true; an_wall := 2000;
  an_post := λ _ _, Reply 200 (Some (PDict [("access_token", PStr token)]));
  an_flow := inl EType; an_set_now := 102; an_saved_at := 2000; an_write := Written |}.

Lemma auth_flow_exact_witness :
  let server (i : nat) (_ : odict string pyval) := match i with O => 401 | _ => 200 end in
  let out := async_auth_flow (λ _, None) str_only "/tokens" server (λ _, issues "new") true []
               {| fw_provider := POAuth2 sample_oauth2; fw_files := ∅; fw_sent := [] |} in
  out.1 = inr 200 ∧ fw_sent out.2 = [bearer str_only (PStr "old"); bearer str_only (PStr "new")].
Proof.
  intros server out.
  destruct (auth_flow_exact (λ _, None) str_only "/tokens" server (λ _, issues "new") true [] (POAuth2 sample_oauth2) ∅
    (bearer str_only (PStr "old")) (POAuth2 sample_oauth2) ∅ eq_refl) as [_ H].
  destruct (H eq_refl) as [(e & He & _)|(h2 & H1 & H2 & H3)]; [discriminate He|].
  destruct (H3 _ eq_refl) as (f & payload & token & ex & Hf & Hp & Ht & Hh).
  vm_compute in Hf. injection Hf as <-. vm_compute in Hp. injection Hp as <-. vm_compute in Ht. injection Ht as <- <-.
  rewrite Hh in H1, H2. exact (conj H1 H2).
Defined.

(** ** One token request for concurrent callers *)

(** The three phases of a group of callers that all fall into the lifetime of
    the first token: nobody has a token, one task fetches, one token serves
    everybody.  [T] is the end of the period. *)
Inductive phase (T : Z) (s : callers) : Prop :=
  | phase_idle :
      sf_lock s = None → is_none (_token (sf_cache s)) = true → sf_started s = sf_failed s →
      (∀ i t, sf_tasks s !! i = Some t → t ≠ Fetching ∧ ∀ tok, t ≠ Finished tok) → phase T s
  | phase_busy i :
      sf_lock s = Some i → is_none (_token (sf_cache s)) = true → sf_started s = S (sf_failed s) →
      (∀ j t, sf_tasks s !! j = Some t → (t = Fetching ↔ j = i) ∧ ∀ tok, t ≠ Finished tok) → phase T s
  | phase_served token :
      sf_lock s = None → _token (sf_cache s) = token → is_none token = false → T < _expires_at (sf_cache s) →
      sf_started s = S (sf_failed s) →
      (∀ j t, sf_tasks s !! j = Some t → t ≠ Fetching ∧ ∀ tok, t = Finished tok → tok = token) → phase T s.

Lemma empty_cache_get now c : is_none (_token c) = true → cache_get now c = PNone.
Proof. unfold cache_get, cache_valid. by intros ->. Qed.

Lemma live_cache_get now c : is_none (_token c) = false → now < _expires_at c → cache_get now c = _token c.
Proof. unfold cache_get, cache_valid. intros -> ?. by rewrite (proj2 (Z.ltb_lt _ _)). Qed.

(** A reply within the period is a token that outlives it. *)
Definition long_lived (T buffer : Z) (e : event) : Prop :=
  ev_now e <= T ∧ ∀ token expires_in, ev_reply e = inr (token, expires_in) →
    is_none token = false ∧ T < ev_now e + (expires_in - buffer).

Lemma phase_step T buffer s e s' :
  _expiry_buffer (sf_cache s) = buffer → long_lived T buffer e → phase T s → calls s e s' →
  phase T s' ∧ _expiry_buffer (sf_cache s') = buffer.
Proof.
  intros Hb [Hnow Hlong] Hp Hstep. unfold calls, call_step in Hstep.
  destruct Hp as [Hl Hc Hn Ht|i Hl Hc Hn Ht|token Hl Hc Hs Hx Hn Ht];
    (destruct (sf_tasks s !! ev_task e) as [[]|] eqn:Et; try done);
    try (rewrite (empty_cache_get _ _ Hc) in Hstep); try (rewrite Hl in Hstep; try done); simpl in Hstep.
  - simplify_eq. split; [|done]. apply phase_idle; try done. simpl. intros j t [[-> ->]|[_ Hj]]%list_insert_cases; [done|eauto].
  - simplify_eq. split; [|done]. apply (phase_busy _ _ (ev_task e)); simpl; [done|done|congruence|].
    intros j t [[-> ->]|[Hne Hj]]%list_insert_cases; [done|]. destruct (Ht _ _ Hj). naive_solver.
  - by destruct (Ht _ _ Et).
  - simplify_eq. split; [|done]. apply (phase_busy _ _ i); try done. simpl.
    intros j t [[-> ->]|[Hne Hj]]%list_insert_cases; [|eauto]. destruct (Ht _ _ Et) as [Hi _].
    split; [|done]. split; [done|]. intros H. by apply Hi in H.
  - destruct (Ht _ _ Et) as [Hi _]. pose proof (proj1 Hi eq_refl) as Hie.
    assert (Hrest : ∀ j t, j ≠ i → sf_tasks s !! j = Some t → t ≠ Fetching ∧ ∀ tok, t ≠ Finished tok).
    { intros j t Hne Hj. destruct (Ht _ _ Hj). naive_solver. }
    destruct (ev_reply e) as [err|[tok ex]] eqn:Er; simplify_eq; (split; [|done]).
    + apply phase_idle; simpl; [done|done|congruence|].
      intros j t [[-> ->]|[Hne Hj]]%list_insert_cases; [done|eauto].
    + destruct (Hlong _ _ eq_refl) as [Htok Hlife]. apply (phase_served _ _ tok); simpl; try done; [lia|].
      intros j t [[-> ->]|[Hne Hj]]%list_insert_cases; [naive_solver|]. destruct (Hrest _ _ Hne Hj). naive_solver.
  - subst token. rewrite live_cache_get, Hs in Hstep by (done || lia). simplify_eq. split; [|done].
    eapply phase_served; try done. simpl. intros j t [[-> ->]|[_ Hj]]%list_insert_cases; [naive_solver|eauto].
  - subst token. rewrite live_cache_get, Hs in Hstep by (done || lia). simplify_eq. split; [|done].
    eapply phase_served; try done. simpl. intros j t [[-> ->]|[_ Hj]]%list_insert_cases; [naive_solver|eauto].
  - by destruct (Ht _ _ Et).
Qed.

(** C36: callers that need a token at the same time share one request.  For any
    number of tasks, any interleaving at the lock and at the request, and any
    clock, as long as the tokens issued outlive the period: at most one request
    is in flight, a request is repeated only after one that failed, and every
    task that finishes has the same token. *)
Theorem oauth_single_flight (buffer T : Z) (n : nat) (evs : list event) (s : callers)
    (Hrun : steps calls (callers_init buffer n) evs s) (Hlong : Forall (long_lived T buffer) evs) :
  (∀ i j, sf_tasks s !! i = Some Fetching → sf_tasks s !! j = Some Fetching → i = j) ∧
  (sf_started s ≤ S (sf_failed s))%nat ∧
  (∀ i j tok tok', sf_tasks s !! i = Some (Finished tok) → sf_tasks s !! j = Some (Finished tok') → tok = tok').
Proof.
  assert (Hp : phase T s).
  { assert (H0 : phase T (callers_init buffer n) ∧ _expiry_buffer (sf_cache (callers_init buffer n)) = buffer).
    { split; [|done]. apply phase_idle; try done. simpl. intros i t [-> _]%lookup_replicate. done. }
    revert H0. induction Hrun as [s|s e s1 evs s2 Hstep _ IH]; intros [Hp Hb]; [done|].
    inversion Hlong; subst. apply IH; [done|]. by eapply phase_step. }
  destruct Hp as [Hl Hc Hn Ht|i Hl Hc Hn Ht|token Hl Hc Hs Hx Hn Ht]; split_and!; try lia.
  all: intros i' j'; intros; repeat match goal with H : _ !! _ = Some _ |- _ => apply Ht in H end; naive_solver.
Qed.

(** A task that runs alone does what [oauth2_get_headers] does. *)
Lemma lone_caller py_float py_str a o :
  is_none (cache_get (an_now a) (oa_cache o)) = true → is_none (cache_get (an_now_locked a) (oa_cache o)) = true →
  let reply := (f ← token_form o; payload ← reply_json (an_post a (oa_token_url o) f); token_reply py_float payload) in
  let ev now := {| ev_task := 0; ev_now := now; ev_reply := reply |} in
  let s0 := {| sf_cache := oa_cache o; sf_lock := None; sf_tasks := [Begin]; sf_started := 0; sf_failed := 0 |} in
  ∃ s, steps calls s0 [ev (an_now a); ev (an_now_locked a); ev (an_set_now a)] s ∧
    sf_cache s = oa_cache (oauth2_get_headers py_float py_str a o).2 ∧
    match (oauth2_get_headers py_float py_str a o).1 with
    | inr h => ∃ tok, sf_tasks s = [Finished tok] ∧ h = bearer py_str tok
    | inl _ => sf_tasks s = [Broken]
    end.
Proof.
  intros H1 H2 reply ev s0. unfold oauth2_get_headers, _fetch_token. unfold_M. rewrite H1, H2. fold reply.
  destruct reply as [e|[tok ex]] eqn:Er; simpl; eexists; (split; [|split]).
  1, 4: do 3 (eapply steps_cons; [unfold calls, call_step; simpl; rewrite ?H1, ?H2; reflexivity|]); apply steps_nil.
  all: simpl; eauto.
Qed.

(** Two callers: both wait for the lock, the first fetches, the second finds
    the token. *)
Lemma oauth_single_flight_witness :
  let ev i now := {| ev_task := i; ev_now := now; ev_reply := inr (PStr "t", 3600) |} in
  let evs := [ev 0%nat 1; ev 1%nat 2; ev 0%nat 3; ev 0%nat 4; ev 1%nat 5] in
  ∃ s, steps calls (callers_init 300 2) evs s ∧ sf_tasks s = [Finished (PStr "t"); Finished (PStr "t")] ∧
       (sf_started s ≤ S (sf_failed s))%nat.
Proof.
  intros ev evs.
  pose (s := {| sf_cache := cache_set (PStr "t") 3600 4 (new_cache 300); sf_lock := None;
                sf_tasks := [Finished (PStr "t"); Finished (PStr "t")]; sf_started := 1; sf_failed := 0 |}).
  assert (Hrun : steps calls (callers_init 300 2) evs s).
  { do 5 (eapply steps_cons; [unfold calls; vm_compute; reflexivity|]). apply steps_nil. }
  exists s. split; [exact Hrun|split; [reflexivity|]].
  refine (proj1 (proj2 (oauth_single_flight 300 100 2 evs s Hrun _))).
  repeat constructor; simpl; try lia; injection H as <- <-; (done || lia).
Defined.

(** ** Providers from validated configurations *)

Lemma truthy_str s : truthy (PStr s) = negb (bool_decide (s = "")).
Proof. done. Qed.
Lemma min_length_truthy s : min_length_1 s = true → truthy (PStr s) = true.
Proof. done. Qed.

Definition auth_cfg (a : AuthConfig) : odict string pyval := match auth_dump a with PDict d => d | _ => [] end.

Definition built_provider (a : AuthConfig) (backend_name : string) : provider :=
  match a with
  | StaticAuthConfig headers => PStatic ((λ kv, (kv.1, PStr kv.2)) <$> headers)
  | OAuth2AuthConfig token_url client_id client_secret scopes buffer _ =>
      POAuth2 {| oa_token_url := PStr token_url; oa_client_id := PStr client_id;
                 oa_client_secret := PStr client_secret; oa_scopes := str_list scopes; oa_cache := new_cache buffer |}
  | PKCEAuthConfig authorization_endpoint token_endpoint client_id client_secret scopes buffer _ =>
      PPkce {| pk_backend_name := PStr (if bool_decide (backend_name = "") then "unknown" else backend_name);
               pk_auth_endpoint := PStr authorization_endpoint; pk_token_endpoint := PStr token_endpoint;
               pk_client_id := PStr client_id; pk_client_secret := PStr client_secret;
               pk_scopes := str_list scopes; pk_token_dir := PNone; pk_cache := new_cache buffer |}
  end.

Lemma or_empty_scopes scopes : or_empty (str_list scopes) = str_list scopes.
Proof. by destruct scopes. Qed.

(** An authentication section that passes validation always gives a
    provider: the factory, applied to the dictionary the loader writes for it,
    does not raise, and the provider has the endpoints, credentials, scopes and
    expiry buffer of the configuration.  A static provider answers with exactly
    the configured headers. *)
Theorem validated_auth_builds_provider (py_float : string → option Z) (a a' : AuthConfig) (name : string)
    (Hv : validate_auth a = inr a') :
  create_auth_provider py_float (auth_cfg a') name = inr (built_provider a' name) ∧
  (∀ headers, a' = StaticAuthConfig headers → ∀ py_str dir ans fs,
    (get_headers py_float py_str dir ans (built_provider a' name, fs)).1 = inr ((λ kv, (kv.1, PStr kv.2)) <$> headers)).
Proof.
  assert (a' = a) as ->.
  { unfold validate_auth in Hv. destruct a; by case_match; simplify_eq. }
  split; [|by intros headers ->].
  unfold validate_auth in Hv. unfold auth_cfg. destruct a; simpl auth_dump; cbv beta iota;
    unfold create_auth_provider, require_keys, check_each; cbn [dget]; case_match; simplify_eq; reflect_bools;
    repeat first [rewrite decide_True by done | rewrite decide_False by done | progress rewrite ?default_Some];
    repeat match goal with H : min_length_1 _ = true |- _ => apply min_length_truthy in H; rewrite H end.
  - by destruct headers as [|[k v] h].
  - simpl. by rewrite or_empty_scopes.
  - simpl. rewrite or_empty_scopes. by destruct (bool_decide (name = "")).
Qed.

Lemma validated_auth_builds_provider_witness :
  create_auth_provider (λ _, None)
    (auth_cfg (OAuth2AuthConfig "https://a/token" "argus" "s3cret" ["read"; "write"] 300 true)) "gh" =
  inr (POAuth2 {| oa_token_url := PStr "https://a/token"; oa_client_id := PStr "argus";
                  oa_client_secret := PStr "s3cret"; oa_scopes := PList [PStr "read"; PStr "write"];
                  oa_cache := new_cache 300 |}).
Proof.
  apply (validated_auth_builds_provider (λ _, None) (OAuth2AuthConfig "https://a/token" "argus" "s3cret" ["read"; "write"] 300 true)
           (OAuth2AuthConfig "https://a/token" "argus" "s3cret" ["read"; "write"] 300 true) "gh"). reflexivity.
Defined.

(** ** The sweep *)

Definition is_static (p : provider) : bool := match p with PStatic _ => true | _ => false end.

(** Every provider is asked, whatever happens to the others: the names stay,
    static providers are not touched, and only names of providers that are not
    static are reported. *)
Lemma sweep_visits_all py_float py_str dir ask ps fs ps' fs' reported :
  _sweep py_float py_str dir ask ps fs = (ps', fs', reported) →
  dkeys ps' = dkeys ps ∧ reported `sublist_of` dkeys (keep (λ kv, negb (is_static kv.2)) ps) ∧
  Forall2 (λ kv kv', is_static kv.2 = true → kv' = kv) ps ps'.
Proof.
  revert fs ps' fs' reported. induction ps as [|[name p] ps IH]; intros fs ps' fs' reported H.
  { simpl in H. simplify_eq. by repeat constructor. }
  destruct (is_static p) eqn:Ep.
  - destruct p as [h| |]; try done. cbn [_sweep] in H. destruct (_sweep _ _ _ ask ps fs) as [[ps1 fs1] r1] eqn:E.
    simplify_eq. destruct (IH _ _ _ _ E) as (Hk & Hr & Hf). split_and!; simpl; [by f_equal|done|by constructor].
  - assert (Hs : ∃ r p' fs1 ps1 fs2 r1, get_headers py_float py_str dir (ask name) (p, fs) = (r, (p', fs1)) ∧
        _sweep py_float py_str dir ask ps fs1 = (ps1, fs2, r1) ∧ ps' = (name, p') :: ps1 ∧
        reported = match r with inl _ => name :: r1 | inr _ => r1 end).
    { destruct p as [|o|k]; [done|..]; cbn [_sweep] in H;
        destruct (get_headers _ _ _ _ _) as [r [p' fs1]]; destruct (_sweep _ _ _ ask ps fs1) as [[ps1 fs2] r1] eqn:E;
        simplify_eq; by exists r, p', fs1, ps1, fs', r1. }
    destruct Hs as (r & p' & fs1 & ps1 & fs2 & r1 & _ & E & -> & ->).
    destruct (IH _ _ _ _ E) as (Hk & Hr & Hf). simpl. rewrite Ep. simpl.
    split_and!; [by f_equal|by destruct r; constructor|by constructor; [simpl; rewrite Ep|]].
Qed.

(** ** Redaction *)

(** A redacted value shows its last characters and the length of the rest. *)
Lemma redact_shows_tail value visible :
  (visible < length (chars value))%nat →
  length (chars (_redact value visible)) = length (chars value) ∧
  take (length (chars value) - visible) (chars (_redact value visible)) =
    replicate (length (chars value) - visible) (ascii_of_nat 42).
Proof.
  intros H. unfold _redact. rewrite (proj2 (Nat.leb_gt _ _) H), chars_text. split.
  - rewrite length_app, length_replicate, length_drop. lia.
  - by rewrite take_app_length' by (by rewrite length_replicate).
Qed.
