(* ===== verification/Pkce.v ===== *)
(** * The PKCE flow (bridge/auth/pkce.py)

    The code verifier and its challenge, the callback handler, and the flow
    that waits for the callback and exchanges the code.  The handler keeps what
    it receives in class attributes, so all flows share them; a flow is split
    at the await for its callback.

    The random bytes and SHA-256 are parameters; the HTTP server and the browser
    are the order in which callbacks arrive. *)
From Stdlib Require Import Ascii ZifyNat.
From S2P Require Import Prelude PyDict Effects PyStr OutgoingAuth.

(** ** URL-safe base64 *)

Definition b64_char (n : nat) : ascii :=
  if Nat.ltb n 26 then ascii_of_nat (65 + n)
  else if Nat.ltb n 52 then ascii_of_nat (71 + n)
  else if Nat.ltb n 62 then ascii_of_nat (n - 4)
  else if Nat.eqb n 62 then ascii_of_nat 45 else ascii_of_nat 95.
Definition pad : ascii := ascii_of_nat 61.

Fixpoint urlsafe_b64encode (l : list ascii) : list ascii :=
  match l with
  | [] => []
  | [a] => [b64_char (code a / 4); b64_char (code a mod 4 * 16); pad; pad]
  | [a; b] => [b64_char (code a / 4); b64_char (code a mod 4 * 16 + code b / 16); b64_char (code b mod 16 * 4); pad]
  | a :: b :: c :: l' =>
      b64_char (code a / 4) :: b64_char (code a mod 4 * 16 + code b / 16) ::
      b64_char (code b mod 16 * 4 + code c / 64) :: b64_char (code c mod 64) :: urlsafe_b64encode l'
  end%nat.

Definition b64_text (l : list ascii) : string := text (rstrip_chars (is_char 61) (urlsafe_b64encode l)).

(** ** The challenge *)

Definition _VERIFIER_LENGTH : nat := 64.
Definition _CALLBACK_PATH : string := "/callback".

Record PKCEChallenge := { verifier : string; challenge : string }.
Definition challenge_method : string := "S256".

(** [token_bytes] are the bytes that [secrets.token_bytes] returned. *)
Definition generate_pkce_challenge (sha256 : list ascii → list ascii) (token_bytes : list ascii) : PKCEChallenge :=
  let verifier := b64_text token_bytes in
  {| verifier := verifier; challenge := b64_text (sha256 (chars verifier)) |}.

(** ** The callback handler *)

(** The class attributes; [ready_event] is the flow that is woken. *)
Record handler := { h_result : option (string * string); h_error : option string; h_ready : option nat }.

(** The parsed query: each name with its first value and the others. *)
Definition query : Type := odict string (string * list string).
Definition first_value (q : query) (k : string) : option string := fst <$> dget q k.

Definition do_GET (path : string) (params : query) (h : handler) : handler :=
  if negb (bool_decide (path = _CALLBACK_PATH)) then h
  else match first_value params "error" with
       | Some e => {| h_result := h_result h; h_error := Some e; h_ready := h_ready h |}
       | None =>
           match first_value params "code" with
           | Some code => {| h_result := Some (code, default "" (first_value params "state"));
                             h_error := h_error h; h_ready := h_ready h |}
           | None => {| h_result := h_result h; h_error := Some "missing_code"; h_ready := h_ready h |}
           end
       end.

(** ** A flow *)

Record PKCEFlow := {
  f_auth_endpoint : string; f_token_endpoint : pyval; f_client_id : pyval; f_client_secret : pyval;
  f_scopes : list string; f_redirect_uri : string; f_state : string; f_pkce : PKCEChallenge }.

Definition auth_params (f : PKCEFlow) : odict string pyval :=
  [("response_type", PStr "code"); ("client_id", f_client_id f); ("redirect_uri", PStr (f_redirect_uri f));
   ("state", PStr (f_state f)); ("code_challenge", PStr (challenge (f_pkce f)));
   ("code_challenge_method", PStr challenge_method)] ++
  (if bool_decide (f_scopes f = []) then [] else [("scope", PStr (str_join " " (f_scopes f)))]).

(** After the wait: the checks before the code is exchanged. *)
Definition check_callback (f : PKCEFlow) (h : handler) : auth_exc + string :=
  if str_truthy (h_error h) then inl (ERuntime ("OAuth authorization failed: " +:+ default "" (h_error h)))
  else match h_result h with
       | None => inl (ERuntime "No authorization code received.")
       | Some (code, state) =>
           if bool_decide (state = f_state f) then inr code
           else inl (ERuntime "OAuth state mismatch")
       end.

Definition exchange_form (f : PKCEFlow) (code : string) : form :=
  [("grant_type", PStr "authorization_code"); ("code", PStr code); ("redirect_uri", PStr (f_redirect_uri f));
   ("client_id", f_client_id f); ("code_verifier", PStr (verifier (f_pkce f)))] ++
  (if truthy (f_client_secret f) then [("client_secret", f_client_secret f)] else []).

Definition _exchange_code (py_float : string → option Z) (post : pyval → form → http_reply)
    (f : PKCEFlow) (code : string) : auth_exc + TokenSet :=
  payload ← reply_json (post (f_token_endpoint f) (exchange_form f code));
  token_set_of py_float (PStr "") payload.

(** ** Flows that share the handler *)

Inductive flow_status := Waiting | Woken | Ended (r : auth_exc + string).
Record flows := { fl_handler : handler; fl_flows : list (PKCEFlow * flow_status) }.
Definition no_flows : flows :=
  {| fl_handler := {| h_result := None; h_error := None; h_ready := None |}; fl_flows := [] |}.

Inductive flow_op :=
  | OpBegin (f : PKCEFlow)
  | OpCallback (path : string) (params : query)
  | OpResume (i : nat)
  | OpTimeout (i : nat).

(** [ready_event.set()] *)
Definition wake (st : flow_status) : flow_status := match st with Waiting => Woken | _ => st end.
Definition signal (h : handler) (fs : list (PKCEFlow * flow_status)) : list (PKCEFlow * flow_status) :=
  match h_ready h with Some i => alter (λ '(f, st), (f, wake st)) i fs | None => fs end.

Definition flow_step (s : flows) (o : flow_op) : flows :=
  match o with
  | OpBegin f =>
      {| fl_handler := {| h_result := None; h_error := None; h_ready := Some (length (fl_flows s)) |};
         fl_flows := fl_flows s ++ [(f, Waiting)] |}
  | OpCallback path params =>
      let h := do_GET path params (fl_handler s) in
      {| fl_handler := h;
         fl_flows := if bool_decide (path = _CALLBACK_PATH) then signal h (fl_flows s) else fl_flows s |}
  | OpResume i =>
      match fl_flows s !! i with
      | Some (f, Woken) => {| fl_handler := fl_handler s;
                              fl_flows := <[i := (f, Ended (check_callback f (fl_handler s)))]> (fl_flows s) |}
      | _ => s
      end
  | OpTimeout i =>
      match fl_flows s !! i with
      | Some (f, Waiting) => {| fl_handler := fl_handler s;
                                fl_flows := <[i := (f, Ended (inl (ERuntime "OAuth authorization timed out")))]> (fl_flows s) |}
      | _ => s
      end
  end.
Definition run_flows (ops : list flow_op) : flows := foldl flow_step no_flows ops.

(** ** The verifier *)

#[local] Ltac Zify.zify_post_hook ::= Z.to_euclidean_division_equations.

Definition unreserved (c : ascii) : bool := is_word c || is_char 45 c.

Lemma b64_char_unreserved n : (n < 64)%nat → unreserved (b64_char n) = true.
Proof.
  intros H. assert (Hall : Forall (λ n, unreserved (b64_char n) = true) (seq 0 64)) by by_decide.
  rewrite Forall_forall in Hall. apply Hall. apply elem_of_seq. lia.
Qed.
Lemma unreserved_not_pad c : unreserved c = true → is_char 61 c = false.
Proof. destruct (is_char 61 c) eqn:E; [|done]. apply is_char_eq in E as ->. done. Qed.

Lemma code_bound c : (code c < 256)%nat.
Proof. apply nat_ascii_bounded. Qed.

(** An encoding is a body of unreserved characters, four for every three bytes
    rounded up, and padding. *)
Lemma b64_shape l : ∃ body p, urlsafe_b64encode l = body ++ p ∧ Forall (λ c, unreserved c = true) body ∧
  Forall (λ c, is_char 61 c = true) p ∧ length body = ((4 * length l + 2) / 3)%nat.
Proof.
  induction l as [l IH] using (induction_ltof1 _ (@length _)). unfold ltof in IH.
  assert (Hu : ∀ n, (n < 64)%nat → unreserved (b64_char n) = true) by exact b64_char_unreserved.
  destruct l as [|a [|b [|c l']]].
  - by exists [], [].
  - pose proof (code_bound a).
    exists [b64_char (code a / 4); b64_char (code a mod 4 * 16)], [pad; pad].
    split_and!; [done| |by repeat constructor|done]. repeat (apply Forall_cons; split; [apply Hu; lia|]); (done || apply Forall_nil_2).
  - pose proof (code_bound a). pose proof (code_bound b).
    exists [b64_char (code a / 4); b64_char (code a mod 4 * 16 + code b / 16); b64_char (code b mod 16 * 4)], [pad].
    split_and!; [done| |by repeat constructor|done]. repeat (apply Forall_cons; split; [apply Hu; lia|]); (done || apply Forall_nil_2).
  - pose proof (code_bound a). pose proof (code_bound b). pose proof (code_bound c).
    destruct (IH l') as (body & p & E & Hb & Hp & Hlen); [simpl; lia|].
    eexists (_ :: _ :: _ :: _ :: body), p. split_and!; [cbn [urlsafe_b64encode]; by rewrite E| |done|].
    + repeat (apply Forall_cons; split; [apply Hu; lia|]); (done || apply Forall_nil_2).
    + cbn [length]. rewrite Hlen. lia.
Qed.

Lemma b64_text_shape l : Forall (λ c, unreserved c = true) (chars (b64_text l)) ∧
  length (chars (b64_text l)) = ((4 * length l + 2) / 3)%nat.
Proof.
  destruct (b64_shape l) as (body & p & E & Hb & Hp & Hlen). unfold b64_text. rewrite E, chars_text.
  assert (Hr : rstrip_chars (is_char 61) (body ++ p) = body); [|by rewrite Hr].
  clear E Hlen. induction p as [|c p IH] using rev_ind.
  - rewrite app_nil_r. destruct body as [|x body _] using rev_ind; [done|].
    apply rstrip_chars_keep. apply Forall_app in Hb as [_ Hx]. inversion Hx. by apply unreserved_not_pad.
  - apply Forall_app in Hp as [Hp Hc]. inversion Hc as [|? ? Hpad]; subst. rewrite app_assoc.
    rewrite <-(IH Hp) at 2. unfold rstrip_chars. rewrite reverse_snoc. simpl. by rewrite Hpad.
Qed.

(** The code verifier has the shape of RFC 7636: 86 characters, within the
    required 43 to 128, all of them unreserved; the challenge of a 32 byte
    digest has 43 characters of the same kind. *)
Theorem verifier_rfc7636 (sha256 : list ascii → list ascii) (token_bytes : list ascii)
    (Hlen : length token_bytes = _VERIFIER_LENGTH) (Hsha : ∀ l, length (sha256 l) = 32%nat) :
  let pkce := generate_pkce_challenge sha256 token_bytes in
  strlen (verifier pkce) = 86 ∧ Forall (λ c, unreserved c = true) (chars (verifier pkce)) ∧
  strlen (challenge pkce) = 43 ∧ Forall (λ c, unreserved c = true) (chars (challenge pkce)).
Proof.
  simpl. unfold strlen.
  destruct (b64_text_shape token_bytes) as [Hv Hvl]. rewrite Hvl, Hlen.
  destruct (b64_text_shape (sha256 (chars (b64_text token_bytes)))) as [Hc Hcl]. rewrite Hcl, Hsha. done.
Qed.

Lemma verifier_rfc7636_witness :
  strlen (verifier (generate_pkce_challenge (λ _, replicate 32 (ascii_of_nat 7)) (replicate 64 (ascii_of_nat 200)))) = 86.
Proof.
  apply (verifier_rfc7636 (λ _, replicate 32 (ascii_of_nat 7)) (replicate 64 (ascii_of_nat 200)));
    [reflexivity|intros; reflexivity].
Defined.

(** ** What is exchanged *)

(** The part of the handler and the flows that came from callbacks. *)
Definition answered (ops : list flow_op) (state code : string) : Prop :=
  ∃ params, OpCallback _CALLBACK_PATH params ∈ ops ∧ first_value params "error" = None ∧
    first_value params "code" = Some code ∧ default "" (first_value params "state") = state.

Record traced (ops : list flow_op) (s : flows) : Prop := {
  tr_handler code state : h_result (fl_handler s) = Some (code, state) → answered ops state code;
  tr_flows i f code : fl_flows s !! i = Some (f, Ended (inr code)) → answered ops (f_state f) code;
  tr_begun i f st : fl_flows s !! i = Some (f, st) → OpBegin f ∈ ops }.

Lemma answered_more ops ops' state code : answered ops state code → answered (ops ++ ops') state code.
Proof. intros (q & H & ?). exists q. set_solver. Qed.

Lemma do_GET_traced ops path params h :
  (∀ code state, h_result h = Some (code, state) → answered ops state code) →
  ∀ code state, h_result (do_GET path params h) = Some (code, state) →
    answered (ops ++ [OpCallback path params]) state code.
Proof.
  intros Hh code state H. unfold do_GET in H. destruct (bool_decide (path = _CALLBACK_PATH)) eqn:Ep; simpl in H.
  - reflect_bools. subst path. destruct (first_value params "error") eqn:Ee; [by apply answered_more, Hh|].
    destruct (first_value params "code") eqn:Ec; [|by apply answered_more, Hh].
    simplify_eq/=. exists params. set_solver.
  - by apply answered_more, Hh.
Qed.

Lemma signal_lookup h (fs : list (PKCEFlow * flow_status)) i f st :
  signal h fs !! i = Some (f, st) → ∃ st', fs !! i = Some (f, st') ∧ (st = st' ∨ st = Woken).
Proof.
  unfold signal. destruct (h_ready h) as [j|]; [|eauto]. destruct (decide (j = i)) as [->|Hne].
  - rewrite list_lookup_alter. destruct (fs !! i) as [[g st']|]; simpl; rewrite decide_True by done; intros; simplify_eq.
    exists st'. split; [done|]. destruct st'; auto.
  - rewrite list_lookup_alter_ne by done. eauto.
Qed.

Lemma traced_step ops s o : traced ops s → traced (ops ++ [o]) (flow_step s o).
Proof.
  intros [Hh Hf Hb].
  assert (Hkeep : traced (ops ++ [o]) s).
  { split; intros; [by eapply answered_more, Hh|by eapply answered_more, Hf|]. apply elem_of_app. left. by eapply Hb. }
  destruct o as [f|path params|i|i]; simpl.
  - split; simpl; [done|..].
    + intros i g code [[_ H]|[_ H]]%lookup_snoc_Some; [by eapply answered_more, Hf|done].
    + intros i g st [[_ H]|[_ H]]%lookup_snoc_Some; [|simplify_eq; set_solver]. apply elem_of_app. left. by eapply Hb.
  - destruct Hkeep as [Hh' Hf' Hb']. split; simpl; [by apply do_GET_traced|..]; intros i g; case_match;
      [intros code (st' & Hl & [<-|?])%signal_lookup; [by eapply Hf'|done]|by apply Hf'
      |intros st (st' & Hl & _)%signal_lookup; by eapply Hb'|by apply Hb'].
  - destruct (fl_flows s !! i) as [[f []]|] eqn:E; try done.
    destruct Hkeep as [Hh' Hf' Hb']. split; simpl; [done|..]; intros j g.
    + intros code [[-> H]|[_ H]]%list_insert_cases; [|by eapply Hf'].
      unfold check_callback in H. destruct (str_truthy _); [done|].
      destruct (h_result (fl_handler s)) as [[c state]|] eqn:Er; [|done].
      case_bool_decide; simplify_eq. by apply Hh'.
    + intros st [[-> H]|[_ H]]%list_insert_cases; [simplify_eq|]; by eapply Hb'.
  - destruct (fl_flows s !! i) as [[f []]|] eqn:E; try done.
    destruct Hkeep as [Hh' Hf' Hb']. split; simpl; [done|..]; intros j g.
    + intros code [[-> H]|[_ H]]%list_insert_cases; [done|by eapply Hf'].
    + intros st [[-> H]|[_ H]]%list_insert_cases; [simplify_eq|]; by eapply Hb'.
Qed.

Lemma run_flows_traced ops : traced ops (run_flows ops).
Proof.
  unfold run_flows. induction ops as [|o ops IH] using rev_ind.
  - split; simpl; [done|..]; intros; by rewrite lookup_nil in *.
  - rewrite foldl_app. simpl. by apply traced_step.
Qed.

(** C37: a code is exchanged only by the flow it was issued for.  In every
    interleaving of flows, callbacks (from anyone who can reach the port) and
    timeouts, a flow that goes on to the exchange has received a callback
    without an error whose state is the flow's own random state, with exactly
    that code; the exchange presents the verifier whose challenge the flow put
    into its authorization request. *)
Theorem code_exchange_bound_to_flow (ops : list flow_op) (i : nat) (f : PKCEFlow) (code : string)
    (Hend : fl_flows (run_flows ops) !! i = Some (f, Ended (inr code))) :
  OpBegin f ∈ ops ∧
  (∃ params, OpCallback _CALLBACK_PATH params ∈ ops ∧ first_value params "error" = None ∧
     first_value params "code" = Some code ∧ default "" (first_value params "state") = f_state f) ∧
  dget (auth_params f) "state" = Some (PStr (f_state f)) ∧
  dget (auth_params f) "code_challenge" = Some (PStr (challenge (f_pkce f))) ∧
  dget (exchange_form f code) "code_verifier" = Some (PStr (verifier (f_pkce f))) ∧
  dget (exchange_form f code) "code" = Some (PStr code).
Proof.
  destruct (run_flows_traced ops) as [_ Hf Hb]. split; [by eapply Hb|]. split; [by eapply Hf|].
  by repeat split.
Qed.

Definition sample_flow (state : string) : PKCEFlow := {|
  f_auth_endpoint := "https://a/authorize"; f_token_endpoint := PStr "https://a/token"; f_client_id := PStr "argus";
  f_client_secret := PStr ""; f_scopes := ["openid"]; f_redirect_uri := "http://127.0.0.1:4000/callback";
  f_state := state; f_pkce := {| verifier := "v-" +:+ state; challenge := "c-" +:+ state |} |}.
Definition code_for (code state : string) : query := [("code", (code, [])); ("state", (state, []))].

Lemma code_exchange_bound_to_flow_witness :
  let ops := [OpBegin (sample_flow "s1"); OpCallback "/favicon.ico" []; OpCallback "/callback" (code_for "k" "s1"); OpResume 0] in
  fl_flows (run_flows ops) !! 0%nat = Some (sample_flow "s1", Ended (inr "k")) ∧
  dget (exchange_form (sample_flow "s1") "k") "code_verifier" = Some (PStr "v-s1").
Proof.
  intros ops. split; [vm_compute; reflexivity|].
  apply (code_exchange_bound_to_flow ops 0 (sample_flow "s1") "k"). vm_compute. reflexivity.
Defined.

(** The handler's attributes belong to the class: a second flow that starts
    before the callback of the first takes the wake-up over.  The callback of
    the first then ends the second with a mismatch of states, and the first
    waits until its timeout. *)
Example concurrent_flows_interfere :
  (fl_flows (run_flows [OpBegin (sample_flow "s1"); OpBegin (sample_flow "s2");
                        OpCallback "/callback" (code_for "k" "s1"); OpResume 0; OpResume 1; OpTimeout 0])).*2 =
    [Ended (inl (ERuntime "OAuth authorization timed out")); Ended (inl (ERuntime "OAuth state mismatch"))].
Proof. vm_compute. reflexivity. Qed.
