(* ===== verification/Discovery.v ===== *)
(** * OAuth discovery and client registration
      (bridge/auth/discovery.py, bridge/auth/dcr.py)

    How the gateway finds the authorization server of a backend and registers
    as a client: which URLs it contacts, how two metadata documents are merged,
    what it caches, and which grant types it asks for.

    Parameters: the network, as the outcome of each request; [urljoin]; the
    parsing of IP literals. *)
From Stdlib Require Import Ascii.
From S2P Require Import Prelude PyDict Effects PyStr Url OutgoingAuth.

Inductive disc_exc := DValue (msg : string) | DOs | DHttpx | DAttribute | DType.

(** The outcome of a GET: the status, the headers that are read and the body,
    which is [None] when it is no JSON. *)
Inductive get_outcome :=
  | Got (status : Z) (location : option string) (www_authenticate : string) (body : option pyval)
  | GetOs | GetHttpx.
Inductive post_outcome := Posted (status : Z) (body : option pyval) | PostOs | PostHttpx.

Record OAuthMetadata := {
  md_issuer : pyval; md_authorization_endpoint : pyval; md_token_endpoint : pyval; md_registration_endpoint : pyval;
  md_code_challenge_methods : pyval; md_raw : odict string pyval }.

(** ["S256" in self.code_challenge_methods_supported] for a list *)
Definition supports_pkce (m : OAuthMetadata) : bool :=
  match md_code_challenge_methods m with
  | PList l => existsb (λ v, match v with PStr s => bool_decide (s = "S256") | _ => false end) l
  | PStr s => contains s "S256"
  | PDict d => dmem d "S256"
  | _ => false
  end.
Definition supports_dynamic_registration (m : OAuthMetadata) : bool := truthy (md_registration_endpoint m).

Record ClientRegistration := {
  cr_client_id : pyval; cr_client_secret : pyval; cr_secret_expires_at : pyval; cr_grant_types : pyval;
  cr_redirect_uris : pyval; cr_endpoint : string; cr_raw : odict string pyval }.

Record disc_state := {
  ds_visited : list string;
  ds_posts : list (string * pyval);
  ds_metadata : odict string (OAuthMetadata * Z);
  ds_registrations : odict string (ClientRegistration * Z) }.
Definition visit (u : string) (s : disc_state) : disc_state :=
  {| ds_visited := ds_visited s ++ [u]; ds_posts := ds_posts s; ds_metadata := ds_metadata s;
     ds_registrations := ds_registrations s |}.
Definition set_metadata (c : odict string (OAuthMetadata * Z)) (s : disc_state) : disc_state :=
  {| ds_visited := ds_visited s; ds_posts := ds_posts s; ds_metadata := c; ds_registrations := ds_registrations s |}.
Definition set_registrations (c : odict string (ClientRegistration * Z)) (s : disc_state) : disc_state :=
  {| ds_visited := ds_visited s; ds_posts := ds_posts s; ds_metadata := ds_metadata s; ds_registrations := c |}.
Definition add_post (u : string) (b : pyval) (s : disc_state) : disc_state :=
  {| ds_visited := ds_visited s; ds_posts := ds_posts s ++ [(u, b)]; ds_metadata := ds_metadata s;
     ds_registrations := ds_registrations s |}.

Abbreviation dm := (M disc_state disc_exc) (only parsing).
Definition lift_d {A} (r : disc_exc + A) : dm A := λ s, (r, s).

Definition _METADATA_CACHE_TTL : Z := 3600.
Definition _ALLOWED_SCHEMES : list string := ["https"; "http"].
Definition _MAX_REDIRECTS : nat := 3.

Section discovery.
Context (bracket_ok : string → bool) (ip_class : string → option bool).
Context (urljoin : string → string → string).
(** The reply to a GET, which may depend on how many came before. *)
Context (net : nat → string → get_outcome).

(** [ip_class] is [None] for a name that is no IP literal, otherwise whether the
    address is private, loopback or link-local. *)
Definition _validate_discovery_url (url : string) (allow_private : bool) : disc_exc + unit :=
  match urlparse bracket_ok url with
  | None => inl (DValue "Invalid URL")
  | Some parsed =>
      if negb (bool_decide (url_scheme parsed ∈ _ALLOWED_SCHEMES)) then inl (DValue "Unsupported scheme")
      else match url_hostname parsed with
           | None => inl (DValue "Missing host")
           | Some host =>
               if allow_private then inr tt
               else match ip_class host with
                    | Some true => inl (DValue "Private/loopback address not allowed")
                    | Some false => inr tt
                    | None => if contains host "not allowed" then inl (DValue "not an address") else inr tt
                    end
           end
  end.

(** A URL out of a JSON document. *)
Definition validate_value (v : pyval) : disc_exc + string :=
  match v with
  | PStr u => _ ← _validate_discovery_url u true; inr u
  | _ => inl DAttribute
  end.

Definition http_get (url : string) : dm get_outcome :=
  s ← get_state; _ ← modify (visit url); mret (net (length (ds_visited s)) url).

Definition redirect_codes : list Z := [301; 302; 303; 307; 308].

(** [last] is the response of the previous round. *)
Fixpoint safe_get_loop (n : nat) (url : string) (last : get_outcome) : dm get_outcome :=
  match n with
  | O => mret last
  | S n' =>
      resp ← http_get url;
      match resp with
      | GetOs => raise DOs
      | GetHttpx => raise DHttpx
      | Got status location _ _ =>
          if negb (bool_decide (status ∈ redirect_codes)) then mret resp
          else if negb (str_truthy location) then mret resp
          else let url' := urljoin url (default "" location) in
               _ ← lift_d (_validate_discovery_url url' true);
               safe_get_loop n' url' resp
      end
  end.
Definition _safe_get (url : string) : dm get_outcome := safe_get_loop _MAX_REDIRECTS url GetOs.

(** [try: … except (OSError, ConnectionError): ...] *)
Definition except_os {A} (m : dm A) (r : A) : dm A :=
  try_except m (λ e, match e with DOs => mret r | _ => raise e end).

(** [resp.json()] of a document that is then used as a dictionary *)
Definition json_dict (body : option pyval) : disc_exc + odict string pyval :=
  match body with
  | None => inl (DValue "json")
  | Some (PDict d) => inr d
  | Some _ => inl DAttribute
  end.

(** [f"{parsed.scheme}://{parsed.netloc}"] joined with an absolute path;
    the URL has been validated, so it parses *)
Definition site_url (url path : string) : string :=
  match urlparse bracket_ok url with
  | Some p => url_scheme p +:+ "://" +:+ url_netloc p +:+ path
  | None => path
  end.
Definition resource_path : string := "/.well-known/oauth-protected-resource".
Definition rfc8414_path : string := "/.well-known/oauth-authorization-server".
Definition oidc_path : string := "/.well-known/openid-configuration".

(** [PNone] is [None]. *)
Definition named_server (data : odict string pyval) : pyval :=
  match default (PList [PNone]) (dget data "authorization_servers") with
  | PList (first :: _) => first
  | _ => match dget data "authorization_server" with
         | Some (PStr u) => if bool_decide (u = "") then PNone else PStr u
         | _ => PNone
         end
  end.

Definition _discover_resource_metadata (mcp_url : string) : dm pyval :=
  except_os
    (resp ← _safe_get (site_url mcp_url resource_path);
     match resp with
     | Got 200 _ _ body => data ← lift_d (json_dict body); mret (named_server data)
     | _ => mret PNone
     end) PNone.

(** The first non-empty quoted value that follows the name and an equals sign. *)
Fixpoint search_quoted (name l : list ascii) : option (list ascii) :=
  let here :=
    if bool_decide (name `prefix_of` l) then
      let '(value, rest) := span (λ c, negb (is_char 34 c)) (drop (length name) l) in
      match value, rest with _ :: _, _ :: _ => Some value | _, _ => None end
    else None in
  match here with
  | Some v => Some v
  | None => match l with [] => None | _ :: l' => search_quoted name l' end
  end.
Definition quoted_param (name : string) (header : string) : option string :=
  text <$> search_quoted (chars name ++ [ascii_of_nat 61; ascii_of_nat 34]) (chars header).

Definition _parse_www_authenticate (header : string) : option string :=
  if bool_decide (header = "") then None
  else match quoted_param "authorization_uri" header with
       | Some u => Some u
       | None =>
           match quoted_param "realm" header with
           | Some realm => if startswith realm "http://" || startswith realm "https://" then Some realm else None
           | None => None
           end
       end.

Definition _probe_www_authenticate (mcp_url : string) : dm pyval :=
  except_os
    (resp ← _safe_get mcp_url;
     match resp with
     | Got 401 _ www _ => mret (match _parse_www_authenticate www with Some u => PStr u | None => PNone end)
     | _ => mret PNone
     end) PNone.

Definition fetch_document (url : string) : dm (option (odict string pyval)) :=
  except_os
    (resp ← _safe_get url;
     match resp with
     | Got 200 _ _ body => data ← lift_d (json_dict body); mret (Some data)
     | _ => mret None
     end) None.

Definition nonempty_dict (d : option (odict string pyval)) : odict string pyval := default [] d.

(** RFC 8414 values win unless they are empty and the other document has one. *)
Definition merge_documents (oidc rfc8414 : odict string pyval) : odict string pyval :=
  foldl (λ merged kv, if truthy kv.2 || negb (dmem merged kv.1) then dset merged kv.1 kv.2 else merged)
    (dupdate [] oidc) rfc8414.

Definition metadata_of (merged : odict string pyval) : OAuthMetadata :=
  let at_key k := default (PStr "") (dget merged k) in
  {| md_issuer := at_key "issuer"; md_authorization_endpoint := at_key "authorization_endpoint";
     md_token_endpoint := at_key "token_endpoint"; md_registration_endpoint := at_key "registration_endpoint";
     md_code_challenge_methods := default (PList []) (dget merged "code_challenge_methods_supported");
     md_raw := merged |}.

Definition _discover_oidc (auth_server_url : string) : dm (option OAuthMetadata) :=
  rfc8414 ← fetch_document (site_url auth_server_url rfc8414_path);
  oidc ← fetch_document (site_url auth_server_url oidc_path);
  match nonempty_dict rfc8414, nonempty_dict oidc with
  | [], [] => mret None
  | r, o => mret (Some (metadata_of (merge_documents o r)))
  end.

(** After the cache: steps 1 and 2, and the new entry. *)
Definition discover_uncached (mcp_server_url : string) (set_now : Z) : dm (option OAuthMetadata) :=
  named ← _discover_resource_metadata mcp_server_url;
  auth_server ← (if truthy named then mret named else _probe_www_authenticate mcp_server_url);
  if negb (truthy auth_server) then mret None
  else match validate_value auth_server with
       | inl (DValue _) => mret None
       | inl e => raise e
       | inr url =>
           meta ← _discover_oidc url;
           match meta with
           | Some m =>
               _ ← modify (λ s, set_metadata (dset (ds_metadata s) mcp_server_url (m, set_now)) s);
               mret (Some m)
           | None => mret None
           end
       end.

Definition discover_oauth_metadata (mcp_server_url : string) (now set_now : Z) : dm (option OAuthMetadata) :=
  _ ← lift_d (_validate_discovery_url mcp_server_url true);
  s ← get_state;
  match dget (ds_metadata s) mcp_server_url with
  | Some (m, cached_at) =>
      if now - cached_at <? _METADATA_CACHE_TTL then mret (Some m)
      else _ ← modify (λ s, set_metadata (ddel (ds_metadata s) mcp_server_url) s);
           discover_uncached mcp_server_url set_now
  | None => discover_uncached mcp_server_url set_now
  end.
End discovery.

(** ** Dynamic client registration *)

Record DCRClient := {
  dcr_allowlist : list string; dcr_cache_ttl : Z; dcr_client_name : string; dcr_redirect_uris : list string }.
Definition new_dcr_client (allowlist : list string) (cache_ttl : Z) (name : string) (uris : list string) : DCRClient :=
  {| dcr_allowlist := allowlist; dcr_cache_ttl := Z.max 0 cache_ttl; dcr_client_name := name; dcr_redirect_uris := uris |}.

(** In the order of [sorted]. *)
Definition _GATEWAY_GRANT_TYPES : list string := ["authorization_code"; "client_credentials"; "refresh_token"].

(** The clock is read only for a secret that has an expiry. *)
Definition is_expired (r : ClientRegistration) (wall : Z) : disc_exc + bool :=
  match as_num (cr_secret_expires_at r) with
  | Some 0 => inr false
  | Some t => inr (wall >? t)
  | None => inl DType
  end.

(** [set(value)] of a JSON value: its elements, or the error of a value that
    cannot be iterated or has elements that cannot be hashed. *)
Definition hashable (v : pyval) : bool := match v with PList _ | PDict _ => false | _ => true end.
Definition as_set (v : pyval) : disc_exc + list pyval :=
  match v with
  | PList l => if forallb hashable l then inr l else inl DType
  | PStr s => inr ((λ c, PStr (text [c])) <$> chars s)
  | PDict d => inr (PStr <$> dkeys d)
  | _ => inl DType
  end.
Definition is_str (s : string) (v : pyval) : bool := match v with PStr s' => bool_decide (s' = s) | _ => false end.

Definition _negotiate_grant_types (m : OAuthMetadata) : disc_exc + list string :=
  as_grants ← as_set (default (PList []) (dget (md_raw m) "grant_types_supported"));
  match as_grants with
  | [] => inr _GATEWAY_GRANT_TYPES
  | _ => inr (keep (λ g, existsb (is_str g) as_grants) _GATEWAY_GRANT_TYPES)
  end.

Definition str_values_of (l : list string) : pyval := PList (PStr <$> l).

Definition _build_registration_body (c : DCRClient) (grant_types : list string) : pyval :=
  PDict ([("client_name", PStr (dcr_client_name c)); ("grant_types", str_values_of grant_types);
          ("token_endpoint_auth_method", PStr "client_secret_post")] ++
         (if bool_decide (dcr_redirect_uris c = []) then [] else [("redirect_uris", str_values_of (dcr_redirect_uris c))]) ++
         (if bool_decide ("authorization_code" ∈ grant_types)
          then [("response_types", str_values_of ["code"]); ("code_challenge_methods_supported", str_values_of ["S256"])]
          else [])).

Section registration.
Context (bracket_ok : string → bool) (ip_class : string → option bool).
Context (http_post : string → pyval → post_outcome).

Definition registration_of (endpoint : string) (data : odict string pyval) : ClientRegistration :=
  {| cr_client_id := default (PStr "") (dget data "client_id");
     cr_client_secret := default (PStr "") (dget data "client_secret");
     cr_secret_expires_at := default (PInt 0) (dget data "client_secret_expires_at");
     cr_grant_types := default (PList []) (dget data "grant_types");
     cr_redirect_uris := default (PList []) (dget data "redirect_uris");
     cr_endpoint := endpoint; cr_raw := data |}.

Definition _do_register (endpoint : string) (body : pyval) (set_now : Z) : dm (option ClientRegistration) :=
  match _validate_discovery_url bracket_ok ip_class endpoint true with
  | inl _ => mret None
  | inr _ =>
      _ ← modify (add_post endpoint body);
      match http_post endpoint body with
      | PostOs => mret None
      | PostHttpx => raise DHttpx
      | Posted status reply =>
          if negb (bool_decide (status ∈ [200; 201])) then mret None
          else match reply with
               | None => mret None
               | Some (PDict data) =>
                   if negb (truthy (default (PStr "") (dget data "client_id"))) then mret None
                   else let reg := registration_of endpoint data in
                        _ ← modify (λ s, set_registrations (dset (ds_registrations s) endpoint (reg, set_now)) s);
                        mret (Some reg)
               | Some _ => raise DAttribute
               end
      end
  end.

(** [metadata.issuer not in allowlist] *)
Definition check_issuer (c : DCRClient) (issuer : pyval) : disc_exc + unit :=
  match dcr_allowlist c with
  | [] => inr tt
  | allowed => if negb (hashable issuer) then inl DType
               else if existsb (λ s, is_str s issuer) allowed then inr tt
               else inl (DValue "issuer not in the allowed issuers list")
  end.

Definition register_uncached (c : DCRClient) (m : OAuthMetadata) (endpoint : string) (set_now : Z)
  : dm (option ClientRegistration) :=
  grants ← lift_d (_negotiate_grant_types m);
  let grants := match grants with [] => _GATEWAY_GRANT_TYPES | _ => grants end in
  _do_register endpoint (_build_registration_body c grants) set_now.

Definition register (c : DCRClient) (m : OAuthMetadata) (now wall set_now : Z) : dm (option ClientRegistration) :=
  if negb (supports_dynamic_registration m) then mret None
  else
    endpoint ← lift_d (validate_value bracket_ok ip_class (md_registration_endpoint m));
    _ ← lift_d (check_issuer c (md_issuer m));
    s ← get_state;
    match dget (ds_registrations s) endpoint with
    | Some (reg, cached_at) =>
        usable ← (if now - cached_at <? dcr_cache_ttl c
                  then old ← lift_d (is_expired reg wall); mret (negb old) else mret false);
        if usable : bool then mret (Some reg)
        else _ ← modify (λ s, set_registrations (ddel (ds_registrations s) endpoint) s);
             register_uncached c m endpoint set_now
    | None => register_uncached c m endpoint set_now
    end.
End registration.

(** ** Which URLs are contacted *)

(** [m] makes at most [n] requests, all of them to URLs that satisfy [P]. *)
Definition visits {A} (P : string → Prop) (n : nat) (m : dm A) : Prop :=
  ∀ s r s', m s = (r, s') → ∃ us, ds_visited s' = ds_visited s ++ us ∧ Forall P us ∧ (length us ≤ n)%nat.

Section visits.
Context (P : string → Prop).

Lemma visits_same {A} n (m : dm A) : (∀ s, ds_visited (m s).2 = ds_visited s) → visits P n m.
Proof. intros H s r s' E. exists []. specialize (H s). rewrite E in H. simpl in H. rewrite H, app_nil_r. split_and!; [done..|simpl; lia]. Qed.

Lemma visits_ret {A} n (a : A) : visits P n (mret a).
Proof. by apply visits_same. Qed.
Lemma visits_raise {A} n e : visits P n (raise e : dm A).
Proof. by apply visits_same. Qed.

Lemma visits_bind {A B} n1 n2 (m : dm A) (k : A → dm B) :
  visits P n1 m → (∀ a, visits P n2 (k a)) → visits P (n1 + n2) (m ≫= k).
Proof.
  intros Hm Hk s r s' E. rewrite run_bind in E. destruct (m s) as [[e|a] s1] eqn:Em.
  - simplify_eq. destruct (Hm _ _ _ Em) as (us & ? & ? & ?). exists us. split_and!; [done..|lia].
  - destruct (Hm _ _ _ Em) as (us & H1 & H2 & H3). destruct (Hk a _ _ _ E) as (us' & H1' & H2' & H3').
    exists (us ++ us'). rewrite H1', H1, app_assoc, length_app. split_and!; [done|by apply Forall_app|lia].
Qed.

(** A step that makes no request. *)
Lemma visits_pure_bind {A B} n (m : dm A) (k : A → dm B) :
  (∀ s, ds_visited (m s).2 = ds_visited s) → (∀ a, visits P n (k a)) → visits P n (m ≫= k).
Proof. intros. change n with (0 + n)%nat. apply visits_bind; [by apply visits_same|done]. Qed.

Lemma visits_lift_bind {A B} n (r : disc_exc + A) (k : A → dm B) :
  (∀ a, r = inr a → visits P n (k a)) → visits P n (lift_d r ≫= k).
Proof. intros H s x s' E. rewrite run_bind in E. destruct r as [e|a]; simpl in E; [|by eapply H].
  by apply (visits_raise n e s x s'). Qed.

Lemma visits_except_os {A} n (m : dm A) a : visits P n m → visits P n (except_os m a).
Proof.
  intros Hm s r s' E. unfold except_os, try_except in E. destruct (m s) as [[e|b] s1] eqn:Em.
  - assert (s' = s1) as -> by (destruct e; unfold_M; by simplify_eq). by eapply Hm.
  - simplify_eq. by eapply Hm.
Qed.
End visits.

Section contacted.
Context (bracket_ok : string → bool) (ip_class : string → option bool) (urljoin : string → string → string)
  (net : nat → string → get_outcome).
Abbreviation valid u := (_validate_discovery_url bracket_ok ip_class u true = inr tt) (only parsing).

(** A URL that was validated, or a well-known document on the site of one. *)
Definition allowed_url (u : string) : Prop :=
  valid u ∨ ∃ v path, valid v ∧ path ∈ [resource_path; rfc8414_path; oidc_path] ∧ u = site_url bracket_ok v path.

Lemma visits_safe_get n url last : allowed_url url → visits allowed_url n (safe_get_loop bracket_ok ip_class urljoin net n url last).
Proof.
  revert url last. induction n as [|n IH]; intros url last Hu; [by apply visits_ret|].
  cbn [safe_get_loop]. change (S n) with (1 + n)%nat. apply visits_bind.
  { intros s r s' E. unfold http_get in E. unfold_M. simplify_eq. exists [url]. split_and!; [done|by apply Forall_singleton|simpl; lia]. }
  intros [status loc www body| |]; [|apply visits_raise..].
  do 2 (case_match; [by apply visits_ret|]). apply visits_lift_bind. intros [] Hv. apply IH. by left.
Qed.

Lemma visits_get_then {A} url (k : get_outcome → dm A) a :
  allowed_url url → (∀ resp s, ds_visited (k resp s).2 = ds_visited s) →
  visits allowed_url 3 (except_os (_safe_get bracket_ok ip_class urljoin net url ≫= k) a).
Proof.
  intros Hu Hk. apply visits_except_os. change 3%nat with (3 + 0)%nat.
  apply visits_bind; [by apply visits_safe_get|]. intros resp. by apply visits_same.
Qed.

Lemma site_allowed v path : valid v → path ∈ [resource_path; rfc8414_path; oidc_path] → allowed_url (site_url bracket_ok v path).
Proof. right. eauto. Qed.

Ltac no_request := intros resp s; repeat case_match; try done; unfold_M; by repeat case_match.

(** Discovery contacts only what it has checked.  Whatever the network
    replies, a discovery makes at most twelve requests, each to a URL with an
    accepted scheme and a host, or to a well-known document on the site of such
    a URL; every redirect is checked before it is followed. *)
Theorem discovery_contacts_checked_urls (url : string) (now set_now : Z) (s s' : disc_state)
    (r : disc_exc + option OAuthMetadata)
    (Hrun : discover_oauth_metadata bracket_ok ip_class urljoin net url now set_now s = (r, s')) :
  ∃ us, ds_visited s' = ds_visited s ++ us ∧ Forall allowed_url us ∧ (length us ≤ 12)%nat.
Proof.
  enough (Hv : visits allowed_url 12 (discover_oauth_metadata bracket_ok ip_class urljoin net url now set_now)) by by eapply Hv.
  clear. apply visits_lift_bind. intros [] Hurl.
  assert (Hun : visits allowed_url 12 (discover_uncached bracket_ok ip_class urljoin net url set_now)).
  { unfold discover_uncached. change 12%nat with (3 + (3 + 6))%nat. apply visits_bind.
    { apply visits_get_then; [apply site_allowed; [done|set_solver]|no_request]. }
    intros named. apply visits_bind.
    { case_match; [by apply visits_ret|]. apply visits_get_then; [by left|no_request]. }
    intros server. case_match; [by apply visits_ret|].
    destruct (validate_value bracket_ok ip_class server) as [[]|u] eqn:Eu; try apply visits_raise; [by apply visits_ret|].
    assert (Hu : valid u).
    { destruct server; try done. simpl in Eu. by peel Eu as v Ev; destruct v; simplify_eq. }
    change 6%nat with (6 + 0)%nat. apply visits_bind.
    - change 6%nat with (3 + (3 + 0))%nat. unfold _discover_oidc.
      apply visits_bind; [apply visits_get_then; [apply site_allowed; [done|set_solver]|no_request]|]. intros rfc.
      apply visits_bind; [apply visits_get_then; [apply site_allowed; [done|set_solver]|no_request]|]. intros oidc.
      by repeat case_match; apply visits_ret.
    - intros [m|]; [|by apply visits_ret]. by apply visits_same. }
  apply visits_pure_bind; [done|]. intros st. destruct (dget (ds_metadata st) url) as [[m at_]|]; [|done].
  case_match; [by apply visits_ret|]. by apply visits_pure_bind.
Qed.
End contacted.

Definition one_document (status : Z) (site : string) : nat → string → get_outcome := λ _ u,
  if bool_decide (u = site +:+ resource_path)
  then Got 200 None "" (Some (PDict [("authorization_servers", PList [PStr "https://as.example"])]))
  else if bool_decide (u = "https://as.example" +:+ rfc8414_path)
  then Got 200 None "" (Some (PDict [("issuer", PStr "https://as.example")]))
  else Got status None "" None.
Definition fresh_state : disc_state :=
  {| ds_visited := []; ds_posts := []; ds_metadata := []; ds_registrations := [] |}.

Lemma discovery_contacts_checked_urls_witness :
  let out := discover_oauth_metadata (λ _, true) (λ _, None) (λ _ l, l) (one_document 404 "https://mcp.example")
               "https://mcp.example/mcp" 0 1 fresh_state in
  ds_visited out.2 = ["https://mcp.example/.well-known/oauth-protected-resource";
                      "https://as.example/.well-known/oauth-authorization-server";
                      "https://as.example/.well-known/openid-configuration"] ∧
  (length (ds_visited out.2) ≤ 12)%nat.
Proof.
  intros out. split; [vm_compute; reflexivity|].
  destruct (discovery_contacts_checked_urls (λ _, true) (λ _, None) (λ _ l, l) (one_document 404 "https://mcp.example")
    "https://mcp.example/mcp" 0 1 fresh_state out.2 out.1) as (us & E & _ & Hn); [apply surjective_pairing|].
  rewrite E. exact Hn.
Defined.

(** The check of a redirect allows private addresses: the flag that refuses
    them is never set by a caller. *)
Example private_target_allowed :
  _validate_discovery_url (λ _, true) (λ _, Some true) "http://169.254.169.254/latest/meta-data" true = inr tt ∧
  ∃ e, _validate_discovery_url (λ _, true) (λ _, Some true) "http://169.254.169.254/latest/meta-data" false = inl e.
Proof. split; [reflexivity|eexists; reflexivity]. Qed.

(** A document with only the single-valued field names no server: the default
    for the missing list is a list with one [None], which is taken. *)
Lemma single_server_field_ignored data :
  dget data "authorization_servers" = None → named_server data = PNone.
Proof. unfold named_server. by intros ->. Qed.

(** ** Merging the two documents *)

Lemma merge_fold_lookup (base rfc : odict string pyval) k :
  dict_wf rfc →
  dget (foldl (λ merged kv, if truthy kv.2 || negb (dmem merged kv.1) then dset merged kv.1 kv.2 else merged) base rfc) k =
    match dget rfc k, dget base k with
    | Some v, Some w => Some (if truthy v then v else w)
    | Some v, None => Some v
    | None, w => w
    end.
Proof.
  unfold dict_wf, dkeys. revert base. induction rfc as [|[a b] rfc IH]; intros base Hwf; [simpl; by destruct (dget base k)|].
  apply NoDup_cons in Hwf as [Ha Hwf]. cbn [foldl]. rewrite IH by done. cbn [dget fst snd].
  assert (Hm : dmem base a = bool_decide (is_Some (dget base a))) by done. rewrite Hm.
  destruct (decide (a = k)) as [->|Hne].
  - assert (dget rfc k = None) as -> by (by apply dget_None).
    destruct (truthy b) eqn:Eb; simpl; [by rewrite dget_dset_eq; destruct (dget base k)|].
    destruct (dget base k) eqn:Ek; [by rewrite bool_decide_true by done|].
    rewrite bool_decide_false by (by intros []). simpl. by rewrite dget_dset_eq.
  - destruct (truthy b || negb (bool_decide (is_Some (dget base a)))); [by rewrite dget_dset_ne by done|done].
Qed.

(** A field comes from the RFC 8414 document, unless it is missing there or
    empty while the OpenID document has it. *)
Lemma merge_documents_lookup (oidc rfc : odict string pyval) k :
  dict_wf oidc → dict_wf rfc →
  dget (merge_documents oidc rfc) k =
    match dget rfc k, dget oidc k with
    | Some v, Some w => Some (if truthy v then v else w)
    | Some v, None => Some v
    | None, w => w
    end.
Proof.
  intros Ho Hr. unfold merge_documents. rewrite merge_fold_lookup by done. rewrite dget_dupdate by done. simpl.
  by destruct (dget oidc k).
Qed.

(** ** Registration *)

Lemma is_str_iff g v : is_str g v = true ↔ v = PStr g.
Proof. unfold is_str. destruct v; try by split. rewrite bool_decide_eq_true. naive_solver. Qed.

Section registered.
Context (bracket_ok : string → bool) (ip_class : string → option bool) (http_post : string → pyval → post_outcome).
Abbreviation valid u := (_validate_discovery_url bracket_ok ip_class u true = inr tt) (only parsing).

Definition issuer_allowed (c : DCRClient) (m : OAuthMetadata) : Prop :=
  dcr_allowlist c = [] ∨ ∃ i, md_issuer m = PStr i ∧ i ∈ dcr_allowlist c.

Lemma check_issuer_allowed c m : check_issuer c (md_issuer m) = inr tt → issuer_allowed c m.
Proof.
  intros H. unfold check_issuer in H. unfold issuer_allowed. destruct (dcr_allowlist c) as [|x l]; [auto|]. right.
  destruct (hashable (md_issuer m)); [|done]. cbn [negb] in H. destruct (existsb _ _) eqn:E; [clear H|done].
  apply existsb_elem_of in E as (i & Hi & Hs). unfold is_str in Hs. destruct (md_issuer m); try done.
  reflect_bools. subst. eauto.
Qed.

(** The grant types of a request: those of the gateway that the server also
    names, or all of them when it names none or none in common. *)
Definition requested_grants (m : OAuthMetadata) (grants : list string) : Prop :=
  grants ≠ [] ∧ grants ⊆ _GATEWAY_GRANT_TYPES ∧
  ∀ l, dget (md_raw m) "grant_types_supported" = Some (PList l) →
    (∃ g, g ∈ _GATEWAY_GRANT_TYPES ∧ PStr g ∈ l) → ∀ g, g ∈ grants ↔ g ∈ _GATEWAY_GRANT_TYPES ∧ PStr g ∈ l.

Lemma negotiated_grants m grants :
  _negotiate_grant_types m = inr grants →
  requested_grants m (match grants with [] => _GATEWAY_GRANT_TYPES | _ => grants end).
Proof.
  intros H. unfold _negotiate_grant_types in H. peel H as offered Eo.
  assert (Hsub : grants ⊆ _GATEWAY_GRANT_TYPES).
  { destruct offered; simplify_eq; [done|]. intros g [Hg _]%elem_of_keep. done. }
  split_and!; [by destruct grants|by destruct grants|].
  intros l Hl (g0 & Hg0 & Hin0). rewrite Hl in Eo. simpl in Eo.
  assert (offered = l) as -> by (by destruct (forallb hashable l); simplify_eq).
  assert (Hmem : ∀ g, g ∈ grants ↔ g ∈ _GATEWAY_GRANT_TYPES ∧ PStr g ∈ l).
  { intros g. destruct l as [|x l]; [by apply not_elem_of_nil in Hin0|].
    assert (grants = keep (λ g, existsb (is_str g) (x :: l)) _GATEWAY_GRANT_TYPES) as -> by (by simplify_eq).
    rewrite elem_of_keep, existsb_elem_of. split; intros [Hg H1]; (split; [done|]).
    - destruct H1 as (v & Hv & ->%is_str_iff). done.
    - exists (PStr g). by rewrite is_str_iff. }
  destruct grants as [|x grants]; [|done]. exfalso. eapply not_elem_of_nil. by apply (Hmem g0).
Qed.

(** Where the registration that [register] returns comes from. *)
Definition from_cache (c : DCRClient) (m : OAuthMetadata) (now wall : Z) (s : disc_state) (reg : ClientRegistration) : Prop :=
  ∃ endpoint at_, md_registration_endpoint m = PStr endpoint ∧
    dget (ds_registrations s) endpoint = Some (reg, at_) ∧ now - at_ < dcr_cache_ttl c ∧ is_expired reg wall = inr false.
Definition from_server (c : DCRClient) (m : OAuthMetadata) (set_now : Z) (s s' : disc_state)
    (r : disc_exc + option ClientRegistration) : Prop :=
  ∃ endpoint grants, md_registration_endpoint m = PStr endpoint ∧ valid endpoint ∧ issuer_allowed c m ∧
    requested_grants m grants ∧ ds_posts s' = ds_posts s ++ [(endpoint, _build_registration_body c grants)] ∧
    ∀ reg, r = inr (Some reg) →
      dget (ds_registrations s') endpoint = Some (reg, set_now) ∧ truthy (cr_client_id reg) = true.

Lemma do_register_run endpoint body set_now s r s' :
  valid endpoint → _do_register bracket_ok ip_class http_post endpoint body set_now s = (r, s') →
  ds_posts s' = ds_posts s ++ [(endpoint, body)] ∧
  ∀ reg, r = inr (Some reg) →
    dget (ds_registrations s') endpoint = Some (reg, set_now) ∧ truthy (cr_client_id reg) = true.
Proof.
  intros Hv H. unfold _do_register in H. rewrite Hv in H. unfold_M.
  repeat (case_match; simplify_eq/=; try done). split; [done|]. intros reg [= <-].
  rewrite dget_dset_eq. split; [done|]. by reflect_bools.
Qed.

Lemma register_uncached_run c m endpoint now wall set_now s s1 r s' :
  md_registration_endpoint m = PStr endpoint → valid endpoint → issuer_allowed c m → ds_posts s1 = ds_posts s →
  register_uncached bracket_ok ip_class http_post c m endpoint set_now s1 = (r, s') →
  (ds_posts s' = ds_posts s ∧ ∀ reg, r = inr (Some reg) → from_cache c m now wall s reg) ∨
  from_server c m set_now s s' r.
Proof.
  intros He Hv Hi Hs H. unfold register_uncached in H. rewrite run_bind in H. unfold lift_d in H.
  destruct (_negotiate_grant_types m) as [e|grants] eqn:Eg; simplify_eq; [by left|right].
  apply do_register_run in H as [Hp Hr]; [|done]. eexists endpoint, _. rewrite <-Hs. split_and!; try done.
  by apply negotiated_grants.
Qed.

#[local] Arguments register_uncached : simpl never.

(** Registration respects its configuration.  A call either makes no
    request, and then returns at most a cached registration that is younger
    than the time to live and whose secret has not expired; or it makes exactly
    one request, to a checked registration endpoint of an issuer that the
    allow-list admits, asking for a non-empty set of the gateway's own grant
    types (those the server also offers, if there are any), and what it returns
    has a client id and is cached. *)
Theorem registration_gate (c : DCRClient) (m : OAuthMetadata) (now wall set_now : Z) (s s' : disc_state)
    (r : disc_exc + option ClientRegistration)
    (Hrun : register bracket_ok ip_class http_post c m now wall set_now s = (r, s')) :
  (ds_posts s' = ds_posts s ∧ ∀ reg, r = inr (Some reg) → from_cache c m now wall s reg) ∨
  from_server c m set_now s s' r.
Proof.
  unfold register in Hrun. case_match; [unfold_M; simplify_eq; by left|].
  rewrite run_bind in Hrun. unfold lift_d at 1 in Hrun.
  destruct (validate_value _ _ _) as [e|endpoint] eqn:Ee; simplify_eq; [by left|].
  destruct (md_registration_endpoint m) as [| | |u| |] eqn:Em; try done. simpl in Ee.
  peel Ee as v Ev. destruct v. simplify_eq. rewrite run_bind in Hrun. unfold lift_d at 1 in Hrun.
  destruct (check_issuer c (md_issuer m)) as [e|[]] eqn:Ei; simplify_eq; [by left|].
  apply check_issuer_allowed in Ei. rewrite run_get in Hrun.
  destruct (dget (ds_registrations s) endpoint) as [[reg at_]|] eqn:Er.
  - rewrite run_bind in Hrun. destruct (now - at_ <? dcr_cache_ttl c) eqn:Eage; reflect_bools.
    + unfold lift_d in Hrun. unfold_M. destruct (is_expired reg wall) as [e|[]] eqn:Ex; simplify_eq/=.
      * by left.
      * eapply register_uncached_run; [..|exact Hrun]; done.
      * left. split; [done|]. intros reg' [= <-]. by exists endpoint, at_.
    + unfold_M. eapply register_uncached_run; [..|exact Hrun]; done.
  - eapply register_uncached_run; [..|exact Hrun]; done.
Qed.
End registered.

Definition sample_client : DCRClient := new_dcr_client ["https://as.example"] 3600 "argus-mcp-gateway" [].
Definition sample_metadata : OAuthMetadata :=
  metadata_of [("issuer", PStr "https://as.example"); ("registration_endpoint", PStr "https://as.example/register");
               ("grant_types_supported", PList [PStr "refresh_token"; PStr "implicit"])].
Definition accepts_all : string → pyval → post_outcome := λ _ _, Posted 201 (Some (PDict [("client_id", PStr "abc")])).

Lemma registration_gate_witness :
  let out := register (λ _, true) (λ _, None) accepts_all sample_client sample_metadata 5 1000 6 fresh_state in
  ds_posts out.2 = [("https://as.example/register", _build_registration_body sample_client ["refresh_token"])] ∧
  (ds_posts out.2 = [] ∨
   from_server (λ _, true) (λ _, None) sample_client sample_metadata 6 fresh_state out.2 out.1).
Proof.
  intros out. split; [vm_compute; reflexivity|].
  destruct (registration_gate (λ _, true) (λ _, None) accepts_all sample_client sample_metadata 5 1000 6 fresh_state
    out.2 out.1 (surjective_pairing _)) as [[H _]|H]; [left; exact H|right; exact H].
Defined.
