(* ===== verification/AuthDiscovery.v ===== *)
(** * Discovery of the authentication of a backend (bridge/auth_discovery.py)

    A backend that answers 401 gets its authentication discovered: the metadata
    of its authorization server (Discovery.v), a dynamic registration, the
    browser login (Pkce.v) and the token file (OutgoingAuth.v) together make an
    entry of [discovered_auth] that later connections use.  The task of a
    backend is one step; it touches only the entries of its backend and the
    shared caches, and no second task of the same backend runs beside it. *)
From Stdlib Require Import Ascii.
From S2P Require Import Prelude PyDict Effects PyStr Url Json OutgoingAuth Discovery.
#[local] Open Scope Z_scope.

(** ** Recognising a failure of authentication *)

(** An exception: the class name, the status code of its response, its text,
    and the exceptions of a group. *)
Inductive raised := Raised (type_name : string) (status : Z) (msg : string) (exceptions : list raised).

Definition _is_auth_status (e : raised) : bool :=
  let '(Raised type_name status msg _) := e in
  if bool_decide (type_name = "HTTPStatusError") then (status =? 401) || (status =? 403)
  else let m := lower msg in contains m "401" || contains m "unauthorized" || contains m "403".
Definition looks_like_auth_failure (e : raised) : bool :=
  _is_auth_status e || (let '(Raised _ _ _ subs) := e in existsb _is_auth_status subs).

(** ** Using an authentication *)

Section discovery_of_auth.
Context (py_float : string → option Z) (py_str : pyval → string) (default_dir : string).
Context (bracket_ok : string → bool) (ip_class : string → option bool) (urljoin : string → string → string).

(** The explicit section of the backend, else what was discovered. *)
Definition auth_cfg_of (svr_name : string) (svr_conf : odict string pyval) (discovered_auth : odict string (odict string pyval))
    : option pyval :=
  let v := default PNone (dget svr_conf "auth") in
  let v := if truthy v then v else match dget discovered_auth svr_name with Some d => PDict d | None => PNone end in
  if truthy v then Some v else None.

(** A section that is no dictionary makes the factory raise. *)
Definition make_provider (cfg : pyval) (svr_name : string) : auth_exc + provider :=
  match cfg with PDict d => create_auth_provider py_float d svr_name | _ => inl EAttribute end.

Definition resolve_auth_headers (a : answers) (svr_name : string) (svr_conf : odict string pyval)
    (discovered_auth : odict string (odict string pyval)) (fs : files) : option (odict string pyval) * files :=
  match auth_cfg_of svr_name svr_conf discovered_auth with
  | None => (None, fs)
  | Some cfg =>
      match make_provider cfg svr_name with
      | inl _ => (None, fs)
      | inr p =>
          let '(r, (_, fs')) := get_headers py_float py_str default_dir a (p, fs) in
          (match r with inl _ => None | inr h => Some h end, fs')
      end
  end.

Definition resolve_auth_provider (svr_name : string) (svr_conf : odict string pyval)
    (discovered_auth : odict string (odict string pyval)) : option provider :=
  match auth_cfg_of svr_name svr_conf discovered_auth with
  | None => None
  | Some cfg => match make_provider cfg svr_name with inl _ => None | inr p => Some p end
  end.

(** ** Discovering *)

(** [ad_posts] are the registrations sent, [ad_bound] the callback servers
    that are still bound. *)
Record ad_world := {
  ad_disc : disc_state; ad_files : files; ad_auth : odict string (odict string pyval);
  ad_posts : list (pyval * pyval); ad_bound : list string }.

Definition with_disc (d : disc_state) (w : ad_world) : ad_world :=
  {| ad_disc := d; ad_files := ad_files w; ad_auth := ad_auth w; ad_posts := ad_posts w; ad_bound := ad_bound w |}.
Definition with_bound (b : list string) (w : ad_world) : ad_world :=
  {| ad_disc := ad_disc w; ad_files := ad_files w; ad_auth := ad_auth w; ad_posts := ad_posts w; ad_bound := b |}.
Definition with_post (u b : pyval) (w : ad_world) : ad_world :=
  {| ad_disc := ad_disc w; ad_files := ad_files w; ad_auth := ad_auth w; ad_posts := ad_posts w ++ [(u, b)]; ad_bound := ad_bound w |}.
Definition with_login (name : string) (cfg : odict string pyval) (fs : files) (w : ad_world) : ad_world :=
  {| ad_disc := ad_disc w; ad_files := fs; ad_auth := dset (ad_auth w) name cfg; ad_posts := ad_posts w; ad_bound := ad_bound w |}.

(** How the outside behaves during one discovery: the network, the address the
    callback server is bound to, the registration endpoint, the browser flow
    (Pkce.v), and the disk. *)
Record disc_env := {
  de_net : nat → string → get_outcome; de_now : Z; de_set_now : Z;
  de_bind : auth_exc + string;
  de_post : pyval → pyval → http_reply;
  de_flow : auth_exc + TokenSet;
  de_saved_at : Z; de_write : write_result }.

Definition reg_data (svr_name redirect_uri : string) : pyval :=
  PDict [("client_name", PStr ("Argus MCP (" +:+ svr_name +:+ ")"));
         ("redirect_uris", PList [PStr (if bool_decide (redirect_uri = "") then "http://127.0.0.1/callback" else redirect_uri)]);
         ("grant_types", PList [PStr "authorization_code"; PStr "refresh_token"]);
         ("response_types", PList [PStr "code"]); ("token_endpoint_auth_method", PStr "none");
         ("application_type", PStr "native"); ("scope", PStr "openid email profile offline_access")].

(** The log line takes the length and a prefix of the client id. *)
Definition loggable (client_id : pyval) : bool :=
  match client_id with
  | PStr _ => true
  | PList l => Nat.leb (length l) 12
  | PDict d => Nat.leb (length d) 12
  | _ => false
  end.

Definition dynamic_register (env : disc_env) (svr_name : string) (endpoint : pyval) (redirect_uri : string)
    : M ad_world auth_exc (pyval * pyval) :=
  let body := reg_data svr_name redirect_uri in
  _ ← modify (with_post endpoint body);
  match reply_json (de_post env endpoint body) with
  | inl e => raise e
  | inr (PDict payload) =>
      let client_id := default (PStr "") (dget payload "client_id") in
      if loggable client_id then mret (client_id, default (PStr "") (dget payload "client_secret")) else raise EType
  | inr _ => raise EAttribute
  end.

Definition scopes_of (m : OAuthMetadata) : pyval := or_empty (default (PList []) (dget (md_raw m) "scopes_supported")).
Definition discovered_entry (m : OAuthMetadata) (client_id client_secret : pyval) : odict string pyval :=
  [("type", PStr "pkce"); ("authorization_endpoint", md_authorization_endpoint m); ("token_endpoint", md_token_endpoint m);
   ("client_id", client_id); ("client_secret", client_secret); ("scopes", scopes_of m)].

(** The body of the [try]. *)
Definition discovery_body (env : disc_env) (svr_name backend_url : string) : M ad_world auth_exc bool := λ w,
  match discover_oauth_metadata bracket_ok ip_class urljoin (de_net env) backend_url (de_now env) (de_set_now env) (ad_disc w) with
  | (inl _, d) => (inl EHttpx, with_disc d w)
  | (inr None, d) => (inr false, with_disc d w)
  | (inr (Some m), d) =>
      (if negb (truthy (md_authorization_endpoint m)) || negb (truthy (md_token_endpoint m)) then mret false
       else
         match de_bind env with
         | inl e => raise e
         | inr redirect_uri =>
             _ ← modify (λ w, with_bound (ad_bound w ++ [redirect_uri]) w);
             ids ← (if supports_dynamic_registration m
                    then try_except (dynamic_register env svr_name (md_registration_endpoint m) redirect_uri)
                           (λ e, match e with EOs => mret (PStr "", PStr "") | _ => raise e end)
                    else mret (PStr "", PStr ""));
             let '(client_id, client_secret) := ids : pyval * pyval in
             if negb (truthy client_id) then mret false
             else
               _ ← modify (λ w, with_bound (keep (λ u, negb (bool_decide (u = redirect_uri))) (ad_bound w)) w);
               match de_flow env with
               | inl e => raise e
               | inr tokens =>
                   _ ← modify (λ w, with_login svr_name (discovered_entry m client_id client_secret)
                                 (save default_dir svr_name tokens (de_saved_at env) (de_write env) (ad_files w)) w);
                   mret true
               end
         end) (with_disc d w)
  end.

Definition try_auth_discovery (env : disc_env) (svr_name : string) (svr_conf : odict string pyval) : ad_world → bool * ad_world := λ w,
  match default PNone (dget svr_conf "url") with
  | PStr url =>
      if bool_decide (url = "") || truthy (default PNone (dget svr_conf "auth")) || dmem (ad_auth w) svr_name then (false, w)
      else match discovery_body env svr_name url w with (inl _, w') => (false, w') | (inr b, w') => (b, w') end
  | _ => (false, w)
  end.

(** ** Tasks *)

Inductive task_state := TaskRunning (svr_conf : odict string pyval) | TaskDone.
Record ad_system := { sy_world : ad_world; sy_tasks : odict string task_state }.

Definition attempt_auth_discovery (svr_name : string) (svr_conf : odict string pyval) (svr_type : option string) (default_reason : string)
    (s : ad_system) : string * ad_system :=
  if negb (bool_decide (svr_type ∈ [Some "sse"; Some "streamable-http"])) then (default_reason, s)
  else match dget (sy_tasks s) svr_name with
  | Some (TaskRunning _) => ("Auth discovery already running — will retry after browser authentication completes.", s)
  | _ => ("Auth required — PKCE browser flow started. Will retry after authentication completes.",
          {| sy_world := sy_world s; sy_tasks := dset (sy_tasks s) svr_name (TaskRunning svr_conf) |})
  end.

Inductive ad_event :=
  | Attempt (svr_name : string) (svr_conf : odict string pyval) (svr_type : option string)
  | RunTask (svr_name : string) (env : disc_env).

Definition ad_step (s : ad_system) (ev : ad_event) : ad_system :=
  match ev with
  | Attempt n c t => (attempt_auth_discovery n c t "failed" s).2
  | RunTask n env =>
      match dget (sy_tasks s) n with
      | Some (TaskRunning c) =>
          {| sy_world := (try_auth_discovery env n c (sy_world s)).2; sy_tasks := dset (sy_tasks s) n TaskDone |}
      | _ => s
      end
  end.
Definition ad_run (s : ad_system) (evs : list ad_event) : ad_system := foldl ad_step s evs.
End discovery_of_auth.

(** ** What a discovery leaves *)

Section results.
Context (py_float : string → option Z) (py_str : pyval → string) (default_dir : string).
Context (bracket_ok : string → bool) (ip_class : string → option bool) (urljoin : string → string → string).
#[local] Set Default Proof Using "Type".
Abbreviation try_discovery := (try_auth_discovery default_dir bracket_ok ip_class urljoin) (only parsing).

(** The provider that the factory makes of a discovered entry. *)
Definition discovered_provider (name : string) (m : OAuthMetadata) (client_id client_secret : pyval) : PKCEAuthProvider :=
  {| pk_backend_name := PStr name; pk_auth_endpoint := md_authorization_endpoint m; pk_token_endpoint := md_token_endpoint m;
     pk_client_id := client_id; pk_client_secret := client_secret; pk_scopes := or_empty (scopes_of m);
     pk_token_dir := PNone; pk_cache := new_cache 300 |}.

Lemma entry_provider name m cid sec : name ≠ "" →
  truthy (md_authorization_endpoint m) = true → truthy (md_token_endpoint m) = true → truthy cid = true →
  create_auth_provider py_float (discovered_entry m cid sec) name = inr (PPkce (discovered_provider name m cid sec)).
Proof.
  intros Hn Ha Ht Hc. unfold create_auth_provider, discovered_entry, discovered_provider.
  cbn [dget]. repeat first [rewrite decide_True by done | rewrite decide_False by done]. cbn [default from_option id].
  unfold require_keys, check_each. unfold mbind, sum_bind. cbn [dget].
  repeat first [rewrite decide_True by done | rewrite decide_False by done]. cbn [default from_option id].
  rewrite Ha, Ht, Hc. simpl. by rewrite bool_decide_eq_false_2.
Qed.

(** A discovery that succeeded: its entry and the token file. *)
Lemma discovery_success env name conf w w' : try_discovery env name conf w = (true, w') →
  ∃ m cid sec t, truthy (md_authorization_endpoint m) = true ∧ truthy (md_token_endpoint m) = true ∧ truthy cid = true ∧
    de_flow env = inr t ∧ ad_auth w' = dset (ad_auth w) name (discovered_entry m cid sec) ∧
    ad_files w' = save default_dir name t (de_saved_at env) (de_write env) (ad_files w) ∧
    truthy (default PNone (dget conf "auth")) = false.
Proof.
  unfold try_auth_discovery. destruct (default PNone (dget conf "url")) as [| | |url| |]; try done.
  destruct (bool_decide (url = "") || truthy (default PNone (dget conf "auth")) || dmem (ad_auth w) name) eqn:Eg; [done|].
  apply orb_false_iff in Eg as [Eg _]. apply orb_false_iff in Eg as [_ Eg].
  unfold discovery_body. destruct (discover_oauth_metadata _ _ _ _ _ _ _ _) as [[e|[m|]] d]; [done| |done].
  destruct (negb (truthy (md_authorization_endpoint m)) || negb (truthy (md_token_endpoint m))) eqn:Em; [done|].
  apply orb_false_iff in Em as [Ha Ht]. apply negb_false_iff in Ha, Ht.
  destruct (de_bind env) as [e|uri]; [done|]. rewrite run_modify, run_bind. set (w1 := with_bound _ _).
  assert (Hreg : ∀ r w2, (if supports_dynamic_registration m
      then try_except (dynamic_register env name (md_registration_endpoint m) uri)
             (λ e, match e with EOs => mret (PStr "", PStr "") | _ => raise e end)
      else mret (PStr "", PStr "")) w1 = (r, w2) → ad_auth w2 = ad_auth w ∧ ad_files w2 = ad_files w).
  { intros r w2. destruct (supports_dynamic_registration m); [|by intros [= _ <-]].
    unfold try_except, dynamic_register. rewrite run_modify.
    destruct (reply_json _) as [[]|[]]; try (destruct (loggable _)); cbv [raise mret M_ret];
      intros [= <- <-]; split; reflexivity. }
  destruct (_ w1) as [[e|[cid sec]] w2]; [done|]. destruct (Hreg _ _ eq_refl) as [H1 H2].
  destruct (truthy cid) eqn:Ec; cbn [negb]; [|done]. rewrite run_modify.
  destruct (de_flow env) as [e|t] eqn:Ef; [done|]. rewrite run_modify. intros [= <-].
  exists m, cid, sec, t. simpl. rewrite H1, H2. split_and!; done.
Qed.

(** A discovered login is used.  When the discovery of a backend's
    authentication succeeds and its tokens are written, every later connection
    of that backend, until a minute before the token expires, sends the token
    of that login: the discovered entry builds a PKCE provider with the
    endpoints and the client of the discovery, and the headers come from the
    token file, whatever the browser and the token endpoint would answer. *)
Theorem discovered_login_used env name conf w w' t e a fs :
  name ≠ "" → try_discovery env name conf w = (true, w') →
  de_flow env = inr t → de_write env = Written → token_wf t → truthy (ts_access_token t) = true → ts_expires_in t = PInt e →
  de_saved_at env ≠ 0 → e ≠ 0 → an_readable a = true → an_wall a - de_saved_at env < e - 60 →
  fs = ad_files w' →
  (∃ p, resolve_auth_provider py_float name conf (ad_auth w') = Some (PPkce p) ∧
     truthy (pk_auth_endpoint p) = true ∧ truthy (pk_token_endpoint p) = true ∧ truthy (pk_client_id p) = true) ∧
  resolve_auth_headers py_float py_str default_dir a name conf (ad_auth w') fs = (Some (bearer py_str (ts_access_token t)), fs).
Proof.
  intros Hn Hd Hf Hw Hwf Ht He Hs Hz Hr Htime ->.
  apply discovery_success in Hd as (m & cid & sec & t' & Ha & Htk & Hc & Hf' & Hauth & Hfiles & Hexp).
  rewrite Hf in Hf'. injection Hf' as <-.
  assert (Hcfg : auth_cfg_of name conf (ad_auth w') = Some (PDict (discovered_entry m cid sec))).
  { unfold auth_cfg_of. rewrite Hexp, Hauth, dget_dset_eq. done. }
  set (p := discovered_provider name m cid sec).
  assert (Hp : make_provider py_float (PDict (discovered_entry m cid sec)) name = inr (PPkce p)) by (by apply entry_provider).
  split.
  - exists p. unfold resolve_auth_provider. by rewrite Hcfg, Hp.
  - unfold resolve_auth_headers. rewrite Hcfg, Hp. unfold get_headers.
    rewrite (stored_token_used py_float py_str default_dir a p (ad_files w') default_dir name t e); [done|done|done|done| |done|done].
    rewrite Hfiles, Hw, Hr, (load_saved _ _ _ e) by done. unfold read_back. by rewrite (proj2 (Z.ltb_lt _ _) Htime).
Qed.
End results.

Definition full_metadata : OAuthMetadata :=
  metadata_of [("issuer", PStr "https://as.example"); ("authorization_endpoint", PStr "https://as.example/authorize");
               ("token_endpoint", PStr "https://as.example/token"); ("registration_endpoint", PStr "https://as.example/register")].
Definition cached_world : ad_world :=
  {| ad_disc := {| ds_visited := []; ds_posts := []; ds_metadata := [("https://mcp.example/x", (full_metadata, 0))]; ds_registrations := [] |};
     ad_files := ∅; ad_auth := []; ad_posts := []; ad_bound := [] |}.
Definition demo_env (reply : http_reply) : disc_env :=
  {| de_net := λ _ _, GetHttpx; de_now := 10; de_set_now := 10; de_bind := inr "http://127.0.0.1:46293/callback";
     de_post := λ _ _, reply; de_flow := inr sample_tokens; de_saved_at := 1000; de_write := Written |}.
Definition registers : http_reply := Reply 201 (Some (PDict [("client_id", PStr "abc")])).
Definition demo_conf : odict string pyval := [("type", PStr "sse"); ("url", PStr "https://mcp.example/x")].
Definition demo_discovery (reply : http_reply) : bool * ad_world :=
  try_auth_discovery "/tokens" (λ _, true) (λ _, None) (λ a b, b) (demo_env reply) "semgrep" demo_conf cached_world.
Definition no_float : string → option Z := λ _, None.
Definition late : answers :=
  {| an_now := 0; an_now_locked := 0; an_readable := true; an_wall := 1500; an_post := λ _ _, Unreachable; an_flow := inl EHttpx;
     an_set_now := 0; an_saved_at := 0; an_write := Written |}.

Lemma discovered_login_used_witness :
  (demo_discovery registers).1 = true ∧
  (resolve_auth_headers no_float str_only "/tokens" late "semgrep" demo_conf (ad_auth (demo_discovery registers).2)
     (ad_files (demo_discovery registers).2)).1 = Some [("Authorization", PStr "Bearer at-1")].
Proof.
  split; [vm_compute; reflexivity|].
  assert (token_wf sample_tokens) by (unfold token_wf; simpl; eauto with argus).
  pose proof (discovered_login_used no_float str_only "/tokens" (λ _, true) (λ _, None) (λ a b, b) (demo_env registers) "semgrep" demo_conf
    cached_world (demo_discovery registers).2 sample_tokens 3600 late (ad_files (demo_discovery registers).2)) as H0.
  destruct H0 as [_ H0]; [done|vm_compute; reflexivity|done..|].
  rewrite H0. reflexivity.
Defined.

(** A registration that gives no client id leaves the callback server bound. *)
Lemma callback_server_left :
  let '(ok, w) := demo_discovery (Reply 500 None) in ok = false ∧ ad_bound w = ["http://127.0.0.1:46293/callback"].
Proof. vm_compute. by split. Qed.

(** Any text with the digits of a status code counts as a failure of
    authentication, and one inside two groups does not. *)
Lemma port_taken_for_status : looks_like_auth_failure (Raised "ConnectError" 0 "cannot connect to 10.0.0.1:4010" []) = true.
Proof. vm_compute. reflexivity. Qed.
Lemma nested_group_missed e : let g l := Raised "ExceptionGroup" 0 "unhandled errors in a TaskGroup (1 sub-exception)" l in
  looks_like_auth_failure (g [g [e]]) = false ∧ looks_like_auth_failure (g [Raised "HTTPStatusError" 401 "" []]) = true.
Proof. split; vm_compute; reflexivity. Qed.

(** An explicit section of the configuration is used as it is, and keeps the
    discovery from running. *)
Lemma explicit_auth_wins default_dir br ip uj env name conf w d :
  dget conf "auth" = Some (PDict d) → d ≠ [] →
  auth_cfg_of name conf (ad_auth w) = Some (PDict d) ∧ try_auth_discovery default_dir br ip uj env name conf w = (false, w).
Proof.
  intros Hd Hne. assert (Ht : truthy (PDict d) = true) by (by destruct d). split.
  - unfold auth_cfg_of. rewrite Hd. cbn [from_option id]. rewrite Ht. cbv beta iota zeta. by rewrite Ht.
  - unfold try_auth_discovery. rewrite Hd. destruct (default PNone (dget conf "url")) as [| | |url| |]; try done.
    cbn [from_option id]. by rewrite Ht, orb_true_r.
Qed.
