(* ===== verification/HttpEdge.v ===== *)
(** * The HTTP edge
      (server/management/auth.py, server/management/__init__.py,
      server/origin.py, server/security_headers.py)

    The ASGI layers in front of the endpoints: the origin check of the protocol
    endpoints, the bearer token of the management API, and the security headers
    of responses.  The limits of rates and payloads are in RateLimit.v and
    PayloadLimits.v.

    A layer either hands the request on, answers itself, or raises. *)
From Stdlib Require Import Ascii.
From S2P Require Import Prelude PyDict Effects PyStr Url.

(** Header names and values are latin-1 text, as the layers decode them. *)
Record http_scope := {
  sc_type : string; sc_path : option string; sc_headers : list (string * string); sc_scheme : option string }.

Inductive verdict := Pass | Deny (status : Z) (message : string) | Crash.

(** The first header with a name, as the loops with [break] find it. *)
Definition first_header (name : string) (headers : list (string * string)) : option string :=
  snd <$> List.find (λ kv, bool_decide (kv.1 = name)) headers.

Definition path_of (s : http_scope) : string := default "/" (sc_path s).

(** [path.rstrip("/")] *)
Definition stripped_path (s : http_scope) : string := rstrip_by (is_char 47) (path_of s).

(** ** The management token *)

Definition PUBLIC_PATH_SUFFIXES : list string := ["/health"; "/ready"].
Definition _KNOWN_PLACEHOLDERS : list string :=
  ["my-secret-token"; "changeme"; "changeme-changeme"; "secret"; "password"; "token"; "replace-me"; "your-token-here"].
Definition _MIN_TOKEN_LENGTH : Z := 16.

(** [inl] is the [ValueError]. *)
Definition validate_token_entropy (token : option string) (allow_weak : bool) : string + option string :=
  match token with
  | None => inr None
  | Some t =>
      if bool_decide (str_strip t = "") then inr None
      else if bool_decide (lower t ∈ _KNOWN_PLACEHOLDERS) then inl "placeholder token"
      else if negb allow_weak && (strlen t <? _MIN_TOKEN_LENGTH) then inl "token is too short"
      else inr (Some t)
  end.

(** [env] is the variable [ARGUS_MGMT_TOKEN]. *)
Definition resolve_token (env config_token : option string) : option string :=
  let env_token := str_strip (default "" env) in
  if negb (bool_decide (env_token = "")) then Some env_token
  else match config_token with
       | Some t => if bool_decide (str_strip t = "") then None else Some (str_strip t)
       | None => None
       end.

(** The token of the middleware that [create_management_app] builds. *)
Definition create_management_app (env config_token : option string) (allow_weak_tokens : bool) : string + option string :=
  validate_token_entropy (resolve_token env config_token) allow_weak_tokens.

Definition auth_enabled (token : option string) : bool := match token with Some _ => true | None => false end.
Definition set_token (token : string) (_ : option string) : option string := Some token.

(** [_attach_to_mcp_server]: the token of the configuration file is applied
    when the start found none in the environment. *)
Definition apply_config_token (cfg_token token : option string) : option string :=
  if negb (auth_enabled token) && str_truthy cfg_token then set_token (default "" cfg_token) token else token.

Definition is_ascii (s : string) : bool := forallb (λ c, Nat.ltb (code c) 128) (chars s).
(** [hmac.compare_digest] of two texts; [None] is its [TypeError]. *)
Definition compare_digest (a b : string) : option bool :=
  if is_ascii a && is_ascii b then Some (bool_decide (a = b)) else None.

Definition is_public (s : http_scope) : bool := existsb (endswith (stripped_path s)) PUBLIC_PATH_SUFFIXES.

Definition BearerAuthMiddleware (token : option string) (s : http_scope) : verdict :=
  if negb (bool_decide (sc_type s = "http")) then Pass
  else if is_public s then Pass
  else match token with
       | None => Pass
       | Some t =>
           let auth_header := default "" (first_header "authorization" (sc_headers s)) in
           if negb (startswith auth_header "Bearer ") then Deny 401 "Missing or malformed Authorization header"
           else match compare_digest (drop_chars 7 auth_header) t with
                | None => Crash
                | Some true => Pass
                | Some false => Deny 401 "Invalid bearer token."
                end
       end.

(** ** The origin check *)

Definition _MCP_PATH_PREFIXES : list string := ["/mcp"; "/sse"; "/messages"].
Definition _LOCALHOST_HOSTS : list string := ["localhost"; "127.0.0.1"; "::1"; "[::1]"].
Definition comma : ascii := ascii_of_nat 44.

(** [env] is the variable [ARGUS_ALLOWED_ORIGINS]. *)
Definition _parse_allowed_origins (env : option string) : list string :=
  let raw := str_strip (default "" env) in
  if bool_decide (raw = "") then []
  else (λ o, lower (str_strip o)) <$> keep (λ o, negb (bool_decide (str_strip o = ""))) (str_split comma raw).

Section origin.
Context (bracket_ok : string → bool).

Definition _is_localhost_origin (origin : string) : bool :=
  match urlparse bracket_ok origin with
  | None => false
  | Some parsed => bool_decide (lower (default "" (url_hostname parsed)) ∈ _LOCALHOST_HOSTS)
  end.

Record origin_conf := { oc_require : string; oc_allowed : list string }.
Definition new_origin_conf (require_origin : string) (env : option string) : origin_conf :=
  {| oc_require := lower require_origin; oc_allowed := _parse_allowed_origins env |}.
Definition default_require_origin : string := "strict".

Definition is_mcp_path (path : string) : bool := existsb (startswith path) _MCP_PATH_PREFIXES.

Definition OriginValidationMiddleware (c : origin_conf) (s : http_scope) : verdict :=
  if negb (bool_decide (sc_type s = "http")) then Pass
  else if negb (is_mcp_path (path_of s)) then Pass
  else
    let origin := first_header "origin" (sc_headers s) in
    if negb (str_truthy origin) then
      if bool_decide (oc_require c = "strict") then Deny 403 "Origin header is required" else Pass
    else
      let origin_lower := lower (default "" origin) in
      if _is_localhost_origin origin_lower then Pass
      else if bool_decide ("*" ∈ oc_allowed c) then Pass
      else if bool_decide (origin_lower ∈ oc_allowed c) then Pass
      else Deny 403 "Origin is not allowed".
End origin.

(** ** Security headers *)

Definition _STATIC_HEADERS : list (string * string) :=
  [("x-content-type-options", "nosniff"); ("x-frame-options", "DENY"); ("cache-control", "no-store");
   ("content-security-policy", "default-src 'none'")].

Inductive asgi_message :=
  | ResponseStart (status : Z) (headers : list (string * string))
  | OtherMessage (payload : string).

Record headers_conf := { hc_enabled : bool; hc_hsts_max_age : Z }.
Definition hsts_header (c : headers_conf) : string * string :=
  ("strict-transport-security", "max-age=" +:+ str_of_int (hc_hsts_max_age c) +:+ "; includeSubDomains").

Definition _is_tls (s : http_scope) : bool := bool_decide (default "http" (sc_scheme s) = "https").

Definition send_wrapper (c : headers_conf) (is_tls : bool) (m : asgi_message) : asgi_message :=
  match m with
  | ResponseStart status headers =>
      ResponseStart status (headers ++ _STATIC_HEADERS ++ (if is_tls then [hsts_header c] else []))
  | OtherMessage _ => m
  end.

(** What reaches the client of the messages the inner application sends. *)
Definition SecurityHeadersMiddleware (c : headers_conf) (s : http_scope) (sent : list asgi_message) : list asgi_message :=
  if negb (bool_decide (sc_type s = "http")) || negb (hc_enabled c) then sent
  else send_wrapper c (_is_tls s) <$> sent.

(** ** Theorems *)

Lemma first_header_spec name headers v :
  first_header name headers = Some v ↔
  (∃ h1 h2, headers = h1 ++ (name, v) :: h2 ∧ Forall (λ kv, kv.1 ≠ name) h1).
Proof.
  unfold first_header. split.
  - destruct (List.find _ headers) as [[k w]|] eqn:E; intros; simplify_eq/=.
    apply find_first in E as (h1 & h2 & -> & Hk & Hall). reflect_bools. simpl in Hk. subst k.
    exists h1, h2. split; [done|]. eapply Forall_impl; [exact Hall|]. simpl. intros kv H. by reflect_bools.
  - intros (h1 & h2 & -> & Hall). induction Hall as [|kv h1 Hk _ IH]; simpl.
    + by rewrite bool_decide_true.
    + by rewrite bool_decide_false by done.
Qed.

(** A token that survives start-up. *)
Lemma management_token_strong env config weak token :
  create_management_app env config weak = inr (Some token) →
  (lower token ∉ _KNOWN_PLACEHOLDERS) ∧ token ≠ "" ∧ (weak = false → _MIN_TOKEN_LENGTH <= strlen token) ∧
  str_strip token = token.
Proof.
  unfold create_management_app, validate_token_entropy. intros H.
  destruct (resolve_token env config) as [t|] eqn:Er; [|done].
  do 3 (case_match; [done|]). simplify_eq. reflect_bools.
  assert (Hs : str_strip token = token).
  { unfold resolve_token in Er. repeat case_match; simplify_eq; apply str_strip_idemp. }
  split_and!; [done|by intros ->| |done]. intros ->. simpl in *. by reflect_bools.
Qed.

Definition bearer_of (s : http_scope) : option string := first_header "authorization" (sc_headers s).

Lemma compare_digest_true a b : compare_digest a b = Some true → a = b.
Proof. unfold compare_digest. case_match; [|done]. intros. by simplify_eq; reflect_bools. Qed.

Lemma bearer_header h t : startswith h "Bearer " = true → drop_chars 7 h = t → h = "Bearer " +:+ t.
Proof. intros [r ->]%startswith_app. change 7%nat with (length (chars "Bearer ")). rewrite drop_chars_app. by intros ->. Qed.

(** With a token the management API is closed.  A token that start-up
    accepts is no placeholder, has no blanks around it and, unless weak tokens
    are allowed, at least sixteen characters; a request that is not for a public
    path reaches the endpoint exactly when its first authorization header is
    that token as a bearer token. *)
Theorem management_gate_exact (env config : option string) (weak : bool) (token : string) (s : http_scope)
    (Htoken : create_management_app env config weak = inr (Some token)) (Hascii : is_ascii token = true)
    (Hhttp : sc_type s = "http") (Hprivate : is_public s = false) :
  (BearerAuthMiddleware (Some token) s = Pass ↔ bearer_of s = Some ("Bearer " +:+ token)) ∧
  (lower token ∉ _KNOWN_PLACEHOLDERS) ∧ str_strip token = token ∧ (weak = false → _MIN_TOKEN_LENGTH <= strlen token).
Proof.
  destruct (management_token_strong _ _ _ _ Htoken) as (Hp & Hne & Hl & Hs). split; [|done].
  unfold BearerAuthMiddleware, bearer_of. rewrite bool_decide_true, Hprivate by done. cbn [negb].
  destruct (first_header "authorization" (sc_headers s)) as [h|]; simpl; [|done].
  split.
  - destruct (startswith h "Bearer ") eqn:Eh; cbn [negb]; [|done].
    destruct (compare_digest _ token) as [[]|] eqn:Ec; try done. apply compare_digest_true in Ec. intros _.
    f_equal. by apply bearer_header.
  - intros [= ->]. rewrite (proj2 (startswith_app _ _)) by eauto. cbn [negb].
    change 7%nat with (length (chars "Bearer ")). rewrite drop_chars_app.
    unfold compare_digest. by rewrite Hascii, bool_decide_true.
Qed.

Definition request (path : string) (headers : list (string * string)) : http_scope :=
  {| sc_type := "http"; sc_path := Some path; sc_headers := headers; sc_scheme := Some "http" |}.

Lemma management_gate_exact_witness :
  create_management_app (Some " 0123456789abcdef ") None false = inr (Some "0123456789abcdef") ∧
  BearerAuthMiddleware (Some "0123456789abcdef")
    (request "/manage/v1/reload" [("host", "x"); ("authorization", "Bearer 0123456789abcdef")]) = Pass.
Proof.
  split; [reflexivity|].
  apply (management_gate_exact (Some " 0123456789abcdef ") None false "0123456789abcdef"); reflexivity.
Defined.

(** The public suffixes are matched against the whole path, so an endpoint with
    a name at its end is public for a backend called health or ready. *)
Example reconnect_without_token :
  BearerAuthMiddleware (Some "0123456789abcdef") (request "/manage/v1/reconnect/health" []) = Pass ∧
  BearerAuthMiddleware (Some "0123456789abcdef") (request "/manage/v1/reauth/ready/" []) = Pass.
Proof. split; reflexivity. Qed.

(** The token of the configuration file skips the checks of start-up. *)
Example config_token_unchecked :
  apply_config_token (Some "changeme") None = Some "changeme" ∧
  (∃ e, create_management_app None (Some "changeme") true = inl e).
Proof. split; [reflexivity|eexists; reflexivity]. Qed.

(** ** Origins of browsers *)

(** Letters, digits, dots and dashes. *)
Definition host_char (c : ascii) : bool := is_alpha c || is_digit c || is_char 46 c || is_char 45 c.
(** A port with its colon, or nothing. *)
Definition port_text (p : list ascii) : Prop :=
  p = [] ∨ ∃ d, p = ascii_of_nat 58 :: d ∧ Forall (λ c, is_digit c = true) d.

Lemma all_ascii (P : ascii → bool) : forallb P (ascii_of_nat <$> seq 0 256) = true → ∀ c, P c = true.
Proof.
  intros H c. rewrite forallb_elem_of in H. apply H, list_elem_of_fmap. exists (nat_of_ascii c).
  rewrite ascii_nat_embedding. split; [done|]. apply elem_of_seq. pose proof (nat_ascii_bounded c). lia.
Qed.

Lemma host_char_lower c : host_char c = true → host_char (lower_char c) = true.
Proof.
  assert (H : ∀ c, implb (host_char c) (host_char (lower_char c)) = true) by (apply all_ascii; vm_compute; reflexivity).
  intros Hc. specialize (H c). by rewrite Hc in H.
Qed.

(** The characters with a meaning in a URL, apart from the colon. *)
Definition special (c : ascii) : bool :=
  Nat.leb (code c) 32 || is_char 47 c || is_char 63 c || is_char 35 c || is_char 91 c || is_char 93 c ||
  is_char 64 c || is_char 37 c || is_char 9 c || is_char 10 c || is_char 13 c.
Lemma host_not_special c : host_char c || is_char 58 c = true → special c = false.
Proof.
  assert (H : ∀ c, implb (host_char c || is_char 58 c) (negb (special c)) = true) by (apply all_ascii; vm_compute; reflexivity).
  intros Hc. specialize (H c). rewrite Hc in H. simpl in H. by reflect_bools.
Qed.
Lemma host_not_colon c : host_char c = true → is_char 58 c = false.
Proof.
  assert (H : ∀ c, implb (host_char c) (negb (is_char 58 c)) = true) by (apply all_ascii; vm_compute; reflexivity).
  intros Hc. specialize (H c). rewrite Hc in H. simpl in H. by reflect_bools.
Qed.

Lemma partition_none n l : Forall (λ c, is_char n c = false) l → partition_at n l = (l, None).
Proof. induction 1 as [|c l Hc _ IH]; simpl; [done|]. by rewrite Hc, IH. Qed.
Lemma partition_first n a c b : Forall (λ c, is_char n c = false) a → is_char n c = true →
  partition_at n (a ++ c :: b) = (a, Some b).
Proof. intros Ha Hc. induction Ha as [|x a Hx _ IH]; simpl; [by rewrite Hc|]. by rewrite Hx, IH. Qed.
Lemma has_char_none n l : Forall (λ c, is_char n c = false) l → has_char n l = false.
Proof. unfold has_char. induction 1 as [|c l Hc _ IH]; simpl; [done|]. by rewrite Hc, IH. Qed.
Lemma span_everything f l : Forall (λ c, f c = true) l → span f l = (l, []).
Proof. induction 1 as [|c l Hc _ IH]; simpl; [done|]. by rewrite Hc, IH. Qed.

Lemma special_code c n : special c = false → n ∈ [47; 63; 35; 91; 93; 64; 37; 9; 10; 13]%nat → is_char n c = false.
Proof.
  unfold special. intros H Hn. rewrite !orb_false_iff in H. destruct_and! H.
  rewrite !elem_of_cons, elem_of_nil in Hn. naive_solver.
Qed.

(** The host that the parser finds in a plain origin. *)
Lemma plain_origin_host bracket_ok scheme h p :
  scheme ∈ ["http"; "https"] → Forall (λ c, host_char c = true) h → h ≠ [] → port_text p →
  ∃ u, urlparse bracket_ok (text (chars scheme ++ chars "://" ++ h ++ p)) = Some u ∧
       url_hostname u = Some (text (lower_char <$> h)).
Proof.
  intros Hs Hh Hne Hp.
  assert (Hl : Forall (λ c, special c = false) (h ++ p)).
  { apply Forall_app. split; [eapply Forall_impl; [exact Hh|]; intros c Hc; apply host_not_special; by rewrite Hc|].
    destruct Hp as [->|(d & -> & Hd)]; [done|]. constructor; [done|]. eapply Forall_impl; [exact Hd|].
    intros c Hc. apply host_not_special. unfold host_char. by rewrite Hc, orb_true_r. }
  assert (Hclean : clean_url (chars scheme ++ chars "://" ++ h ++ p) = chars scheme ++ chars "://" ++ h ++ p).
  { assert (Hk : keep (λ c, negb (is_char 9 c || is_char 10 c || is_char 13 c)) (h ++ p) = h ++ p).
    { apply keep_all. intros c Hc. rewrite Forall_forall in Hl. apply Hl in Hc.
      by rewrite !(special_code c) by (done || set_solver). }
    unfold clean_url. rewrite !list_elem_of_In in Hs. destruct Hs as [<-|[<-|[]]]; simpl; by rewrite Hk. }
  assert (Hnone : ∀ n, n ∈ [47; 63; 35; 91; 93; 64; 37; 9; 10; 13]%nat → Forall (λ c, is_char n c = false) (h ++ p)).
  { intros n Hn. eapply Forall_impl; [exact Hl|]. intros c Hc. by apply special_code. }
  eexists. split.
  - unfold urlparse. rewrite chars_text, Hclean.
    assert (split_scheme (chars scheme ++ chars "://" ++ h ++ p) = (chars scheme, ascii_of_nat 47 :: ascii_of_nat 47 :: h ++ p)) as ->.
    { rewrite !list_elem_of_In in Hs. destruct Hs as [<-|[<-|[]]]; reflexivity. }
    cbv iota beta. change (is_char 47 (ascii_of_nat 47)) with true. cbn [andb].
    rewrite span_everything.
    2:{ eapply Forall_impl; [exact Hl|]. intros c Hc. unfold is_netloc_end. by rewrite !(special_code c) by (done || set_solver). }
    rewrite (has_char_none 91), (has_char_none 93) by (apply Hnone; set_solver). reflexivity.
  - unfold url_hostname. cbn [url_netloc]. rewrite chars_text. unfold after_last.
    rewrite (partition_none 64 (reverse _)) by (apply Forall_reverse, Hnone; set_solver). cbn [fst]. rewrite reverse_involutive.
    rewrite (partition_none 91) by (apply Hnone; set_solver).
    assert (Hcol : Forall (λ c, is_char 58 c = false) h) by (eapply Forall_impl; [exact Hh|]; apply host_not_colon).
    assert ((partition_at 58 (h ++ p)).1 = h) as ->.
    { destruct Hp as [->|(d & -> & _)]; [by rewrite app_nil_r, partition_none|by rewrite partition_first]. }
    destruct h as [|c h]; [done|]. rewrite (partition_none 37); [by rewrite app_nil_r|].
    apply (Forall_app _ (c :: h) p). apply Hnone. set_solver.
Qed.

(** The text of an origin: scheme, host and port. *)
Definition origin_text (scheme : string) (h p : list ascii) : string := text (chars scheme ++ chars "://" ++ h ++ p).

Lemma lower_origin scheme h p :
  scheme ∈ ["http"; "https"] → port_text p →
  lower (origin_text scheme h p) = origin_text scheme (lower_char <$> h) p.
Proof.
  intros Hs Hp. unfold lower, origin_text. rewrite chars_text, !fmap_app. f_equal.
  assert (lower_char <$> p = p) as ->.
  { destruct Hp as [->|(d & -> & Hd)]; [done|]. rewrite fmap_cons. f_equal. induction Hd as [|c d Hc _ IH]; [done|].
    rewrite fmap_cons, IH. f_equal. revert c Hc.
    assert (H : ∀ c, implb (is_digit c) (bool_decide (lower_char c = c)) = true) by (apply all_ascii; vm_compute; reflexivity).
    intros c Hc. specialize (H c). rewrite Hc in H. simpl in H. by reflect_bools. }
  rewrite !list_elem_of_In in Hs. by destruct Hs as [<-|[<-|[]]].
Qed.

Lemma lower_chars_idemp (l : list ascii) : lower_char <$> (lower_char <$> l) = lower_char <$> l.
Proof. apply text_inj. pose proof (lower_idemp (text l)) as H. unfold lower in H. by rewrite !chars_text in H. Qed.

(** With the default configuration a web page can reach the protocol
    endpoints only from the local machine.  On a protocol path, a request with
    the origin of a page, that is a scheme, a host name and perhaps a port,
    passes exactly when the host is localhost or 127.0.0.1, in any case of the
    letters; a request without an origin is refused.  A host that merely
    contains or starts with such a name is refused. *)
Theorem default_origin_gate (bracket_ok : string → bool) (s : http_scope) (scheme : string) (h p : list ascii)
    (Hhttp : sc_type s = "http") (Hpath : is_mcp_path (path_of s) = true)
    (Hs : scheme ∈ ["http"; "https"]) (Hh : Forall (λ c, host_char c = true) h) (Hne : h ≠ []) (Hp : port_text p) :
  let gate := OriginValidationMiddleware bracket_ok (new_origin_conf default_require_origin None) in
  (first_header "origin" (sc_headers s) = None → ∃ m, gate s = Deny 403 m) ∧
  (first_header "origin" (sc_headers s) = Some (origin_text scheme h p) →
    gate s = if bool_decide (lower (text h) ∈ ["localhost"; "127.0.0.1"]) then Pass
             else Deny 403 "Origin is not allowed").
Proof.
  intros gate. unfold gate, OriginValidationMiddleware. rewrite bool_decide_true, Hpath by done. cbn [negb].
  split; [intros ->; simpl; eauto|]. intros ->.
  assert (str_truthy (Some (origin_text scheme h p)) = true) as ->.
  { simpl. rewrite bool_decide_false; [done|]. intros E%(f_equal chars). unfold origin_text in E. rewrite chars_text in E.
    rewrite !list_elem_of_In in Hs. by destruct Hs as [<-|[<-|[]]]. }
  cbn [negb default from_option id]. rewrite lower_origin by done.
  destruct (plain_origin_host bracket_ok scheme (lower_char <$> h) p) as (u & Hu & Hhost); [done| |by destruct h|done|].
  { apply Forall_fmap. eapply Forall_impl; [exact Hh|]. apply host_char_lower. }
  unfold _is_localhost_origin, origin_text. rewrite Hu, Hhost. cbn [default from_option id].
  rewrite lower_chars_idemp. unfold lower. rewrite !chars_text, lower_chars_idemp.
  change (oc_allowed (new_origin_conf default_require_origin None)) with ([] : list string).
  rewrite !(bool_decide_false (_ ∈ [])) by apply not_elem_of_nil.
  assert (Hc : ∀ t, t ∈ ["::1"; "[::1]"] → text (lower_char <$> h) ≠ t).
  { intros t Ht E%(f_equal chars). rewrite chars_text in E.
    assert (Hcol : Forall (λ c, is_char 58 c = false) (lower_char <$> h)).
    { apply Forall_fmap. eapply Forall_impl; [exact Hh|]. intros c Hc. by apply host_not_colon, host_char_lower. }
    rewrite E, Forall_forall in Hcol.
    assert (Hin : ascii_of_nat 58 ∈ chars t) by (rewrite !list_elem_of_In in Ht; destruct Ht as [<-|[<-|[]]]; by_decide).
    by specialize (Hcol _ Hin). }
  rewrite (bool_decide_ext _ (text (lower_char <$> h) ∈ ["localhost"; "127.0.0.1"])); [by case_match|].
  unfold _LOCALHOST_HOSTS. set_solver.
Qed.

Lemma default_origin_gate_witness :
  OriginValidationMiddleware (λ _, true) (new_origin_conf default_require_origin None)
    (request "/mcp" [("origin", "http://LOCALHOST:3000")]) = Pass ∧
  OriginValidationMiddleware (λ _, true) (new_origin_conf default_require_origin None)
    (request "/mcp" [("origin", "http://localhost.evil.com")]) = Deny 403 "Origin is not allowed".
Proof.
  split.
  - refine (proj2 (default_origin_gate (λ _, true) (request "/mcp" [("origin", "http://LOCALHOST:3000")]) "http"
      (chars "LOCALHOST") (chars ":3000") eq_refl eq_refl _ _ _ _) eq_refl).
    + by_decide.
    + by_decide.
    + done.
    + right. exists (chars "3000"). split; [reflexivity|by_decide].
  - refine (proj2 (default_origin_gate (λ _, true) (request "/mcp" [("origin", "http://localhost.evil.com")]) "http"
      (chars "localhost.evil.com") [] eq_refl eq_refl _ _ _ _) eq_refl).
    + by_decide.
    + by_decide.
    + done.
    + by left.
Defined.

(** Every response of an HTTP request carries the static headers, and the
    transport security header exactly over TLS. *)
Lemma responses_hardened c s sent status headers :
  sc_type s = "http" → hc_enabled c = true →
  ResponseStart status headers ∈ SecurityHeadersMiddleware c s sent →
  _STATIC_HEADERS ⊆ headers ∧ (_is_tls s = true → hsts_header c ∈ headers).
Proof.
  intros Hs He. unfold SecurityHeadersMiddleware. rewrite bool_decide_true, He by done. simpl.
  rewrite list_elem_of_fmap. intros (m & Hm & _). destruct m as [st hd|]; simpl in Hm; simplify_eq.
  split; [set_solver|]. intros ->. set_solver.
Qed.
