(* ===== verification/Transport.v ===== *)
(** * The transports of the server (server/transport.py, server/sse_resilience.py,
      server/well_known.py, [_setup_incoming_auth] of server/lifespan.py)

    The gate in front of the MCP server: the authentication set up from the
    configuration, the request handlers of the two transports with the context
    variables they leave for the protocol handlers, the sessions of SSE
    connections, and the guarded streams.  Header bytes are decoded as Latin-1,
    so a string of 8-bit characters is the decoded value.  The MCP main loop
    ([mcp_server.run]) and the session manager of the SDK are parameters.  Times
    are in milliseconds. *)
From S2P Require Import Prelude PyDict Effects PyStr Registry Auth Chain Session.

(** ** Setting up authentication *)

(** The string-valued fields that are unset are absent from [ia_fields];
    [AuthProviderRegistry.from_config] treats [None] and the empty string alike. *)
Record IncomingAuthConfig := {
  ia_type : string; ia_auth_mode : auth_mode;
  ia_token : option string; ia_jwks_uri : option string; ia_issuer : option string; ia_audience : option string;
  ia_algorithms : list string }.

(** The module variables of transport.py. *)
Record transport_module := {
  _incoming_auth_provider : option Provider; _auth_mode : auth_mode; _auth_issuer : option string }.
Definition initial_module : transport_module :=
  {| _incoming_auth_provider := None; _auth_mode := strict; _auth_issuer := None |}.

Definition some_field (k : string) (v : option string) : odict string string :=
  match v with Some s => [(k, s)] | None => [] end.
Definition model_dump (c : IncomingAuthConfig) : odict string string :=
  ("type", ia_type c) :: some_field "token" (ia_token c) ++ some_field "jwks_uri" (ia_jwks_uri c) ++
  some_field "issuer" (ia_issuer c) ++ some_field "audience" (ia_audience c).

(** [None] is a configuration that could not be loaded. *)
Definition _setup_incoming_auth (full_cfg : option IncomingAuthConfig) (g : transport_module)
    : ConfigurationError + (option Provider * auth_mode * transport_module) :=
  match full_cfg with
  | None => inl (ConfigError "Auth configuration is required — cannot start gateway without auth config. Set incoming_auth.type in config.yaml (use 'anonymous' explicitly for dev mode).")
  | Some c =>
      if negb (bool_decide (ia_type c = "anonymous")) then
        match provider_from_config (Some (model_dump c)) (Some (ia_algorithms c)) with
        | inl e => inl e
        | inr p => inr (Some p, ia_auth_mode c,
            {| _incoming_auth_provider := Some p; _auth_mode := ia_auth_mode c; _auth_issuer := ia_issuer c |})
        end
      else match ia_auth_mode c with
        | permissive =>
            match provider_from_config (Some (model_dump c)) (Some (ia_algorithms c)) with
            | inl e => inl e
            | inr p => inr (Some p, permissive,
                {| _incoming_auth_provider := _incoming_auth_provider g; _auth_mode := permissive; _auth_issuer := _auth_issuer g |})
            end
        | strict => inr (None, strict, g)
        end
  end.

(** ** The gate *)

Record scope := { sc_headers : list (string * string); sc_client : option string }.
Record http_response := { rs_status : Z; rs_content : string; rs_headers : list (string * string) }.

Definition dquote : string := String (Ascii.ascii_of_nat 34) "".
Definition _build_www_authenticate (g : transport_module) (err : option string) : string :=
  let params :=
    (if str_truthy (_auth_issuer g) then ["realm=" +:+ dquote +:+ default "" (_auth_issuer g) +:+ dquote] else []) ++
    (if str_truthy err then ["error=" +:+ dquote +:+ default "" err +:+ dquote] else []) in
  match params with [] => "Bearer" | _ => "Bearer" +:+ " " +:+ str_join ", " params end.

Fixpoint header_value (k : string) (hs : list (string * string)) : option string :=
  match hs with [] => None | (n, v) :: hs' => if bool_decide (n = k) then Some v else header_value k hs' end.

Definition _extract_bearer_token (s : scope) : option string :=
  match header_value "authorization" (sc_headers s) with
  | Some v => if startswith (lower v) "bearer " then Some (text (drop 7 (chars v))) else None
  | None => None
  end.

(** The context variables of one request. *)
Record context_vars := { cv_ambient : ambient; current_auth_mode : auth_mode }.
Definition fresh_vars : context_vars :=
  {| cv_ambient := {| current_user := None; current_auth_token := None; current_session_id := None; current_client_ip := None |};
     current_auth_mode := strict |}.
Definition set_mode (m : auth_mode) (v : context_vars) : context_vars :=
  {| cv_ambient := cv_ambient v; current_auth_mode := m |}.
Definition set_session (s : option string) (v : context_vars) : context_vars :=
  match s with None => v | Some i =>
    let a := cv_ambient v in
    {| cv_ambient := {| current_user := current_user a; current_auth_token := current_auth_token a;
         current_session_id := Some i; current_client_ip := current_client_ip a |}; current_auth_mode := current_auth_mode v |} end.
Definition set_client (c : option string) (v : context_vars) : context_vars :=
  match c with None => v | Some i =>
    let a := cv_ambient v in
    {| cv_ambient := {| current_user := current_user a; current_auth_token := current_auth_token a;
         current_session_id := current_session_id a; current_client_ip := Some i |}; current_auth_mode := current_auth_mode v |} end.
Definition set_identity (u : UserIdentity) (token : option string) (v : context_vars) : context_vars :=
  let a := cv_ambient v in
  {| cv_ambient := {| current_user := Some u;
       current_auth_token := match token with Some t => Some t | None => current_auth_token a end;
       current_session_id := current_session_id a; current_client_ip := current_client_ip a |};
     current_auth_mode := current_auth_mode v |}.

Section gate.
Context (validate : JWTConfig → string → string + TokenClaims).

Definition _authenticate_request (g : transport_module) (s : scope) : M context_vars auth_error () :=
  modify (set_mode (_auth_mode g)) ≫= λ _,
  modify (set_session (header_value "mcp-session-id" (sc_headers s))) ≫= λ _,
  modify (set_client (sc_client s)) ≫= λ _,
  match _incoming_auth_provider g with
  | None => mret ()
  | Some p =>
      let token := _extract_bearer_token s in
      match authenticate validate p token with
      | inl e => raise e
      | inr user => modify (set_identity user token)
      end
  end.

Definition unauthorized (g : transport_module) (s : scope) : http_response :=
  let error_type := if str_truthy (_extract_bearer_token s) then Some "invalid_token" else None in
  {| rs_status := 401; rs_content := "Unauthorized";
     rs_headers := [("WWW-Authenticate", _build_www_authenticate g error_type)] |}.
Definition not_ready : http_response := {| rs_status := 503; rs_content := "Service not ready"; rs_headers := [] |}.

(** The gate of both transports: [None] lets the request pass; an exception
    other than [AuthenticationError] leaves the handler. *)
Definition gate (g : transport_module) (s : scope) : M context_vars auth_error (option http_response) :=
  try_except (_authenticate_request g s ≫= λ _, mret None)
    (λ e, match e with AuthenticationFailed _ => mret (Some (unauthorized g s)) | _ => raise e end).

Inductive http_outcome := Answered (r : http_response) | Delegated.

(** [ready] tells whether the session manager of the SDK is set. *)
Definition handle_streamable_http (g : transport_module) (ready : bool) (s : scope) : M context_vars auth_error http_outcome :=
  if negb ready then mret (Answered not_ready)
  else r ← gate g s; match r with Some resp => mret (Answered resp) | None => mret Delegated end.
End gate.

(** ** SSE connections and their sessions *)

Inductive sse_exn := SseAuth (e : auth_error) | SseRaised (msg : string).

(** [mcp_server] as the handler sees it, and the table of sessions it shares. *)
Record sse_server := { ss_manager : bool; ss_registry : option registry; ss_sessions : option SessionManager }.

Definition with_sessions (m : option SessionManager) (sv : sse_server) : sse_server :=
  {| ss_manager := ss_manager sv; ss_registry := ss_registry sv; ss_sessions := m |}.

Definition flat_routes (r : registry) : odict string string :=
  (λ kv : string * (string * string), (kv.1, kv.2.1)) <$> map_to_list (_route_map r).
Definition capability_counts (r : registry) : odict string Z :=
  [("tools", Z.of_nat (length (_tools r))); ("resources", Z.of_nat (length (_resources r)));
   ("prompts", Z.of_nat (length (_prompts r)))].

Inductive sse_opened := SseAnswered (r : http_response) | SseConnected (session : option MCPSession).

(** [handle_sse] up to the connection: gate, readiness, a session. *)
Definition sse_open (validate : JWTConfig → string → string + TokenClaims) (g : transport_module) (s : scope)
    (now : Z) (fresh_id : string) (v : context_vars) (sv : sse_server)
    : (sse_exn + sse_opened) * context_vars * sse_server :=
  match gate validate g s v with
  | (inl e, v') => (inl (SseAuth e), v', sv)
  | (inr (Some resp), v') => (inr (SseAnswered resp), v', sv)
  | (inr None, v') =>
      match ss_manager sv, ss_registry sv with
      | true, Some reg =>
          match ss_sessions sv with
          | None => (inr (SseConnected None), v', sv)
          | Some m =>
              let '(session, m') := create_session now fresh_id (flat_routes reg) (capability_counts reg) "sse" None m in
              (inr (SseConnected (Some session)), v', with_sessions (Some m') sv)
          end
      | _, _ => (inr (SseAnswered not_ready), v', sv)
      end
  end.

(** A clean-up coroutine that is cancelled at the deadline has not run; its
    exceptions are logged. *)
Definition cleanup_with_deadline (timed_out : bool) (coro : M sse_server sse_exn ()) : M sse_server sse_exn () :=
  if timed_out then mret () else try_except coro (λ _, mret ()).

Definition do_cleanup (sid : string) : M sse_server sse_exn () :=
  modify (λ sv, with_sessions ((λ m, (remove_session sid m).2) <$> ss_sessions sv) sv).

(** The rest of [handle_sse]: [run] is the MCP main loop, during which other
    requests may change the server. *)
Definition sse_serve (session : option MCPSession) (run : M sse_server sse_exn ()) (timed_out : bool) : M sse_server sse_exn () :=
  run ≫= λ _,
  match session with
  | Some s => cleanup_with_deadline timed_out (do_cleanup (ses_id s))
  | None => mret ()
  end.

Definition handle_sse (validate : JWTConfig → string → string + TokenClaims) (g : transport_module) (s : scope)
    (now : Z) (fresh_id : string) (run : M sse_server sse_exn ()) (timed_out : bool) (v : context_vars) (sv : sse_server)
    : (sse_exn + option http_response) * context_vars * sse_server :=
  match sse_open validate g s now fresh_id v sv with
  | (inl e, v', sv') => (inl e, v', sv')
  | (inr (SseAnswered resp), v', sv') => (inr (Some resp), v', sv')
  | (inr (SseConnected session), v', sv') =>
      match sse_serve session run timed_out sv' with
      | (inl e, sv'') => (inl e, v', sv'')
      | (inr _, sv'') => (inr None, v', sv'')
      end
  end.

(** ** Protected resource metadata (server/well_known.py) *)

Definition _is_auth_enabled (g : transport_module) : bool :=
  match _incoming_auth_provider g with Some _ => true | None => false end.

Definition handle_well_known_oauth_resource (g : transport_module) (scheme netloc : string) : Z * odict string pyval :=
  if negb (_is_auth_enabled g) then
    (404, [("error", PStr "no_auth_configured");
           ("error_description", PStr "This server does not require OAuth authentication.")])
  else if negb (str_truthy (_auth_issuer g)) then
    (404, [("error", PStr "no_oauth_server");
           ("error_description", PStr "This server uses static bearer-token authentication. No OAuth authorization server is configured.")])
  else
    (200, [("resource", PStr (scheme +:+ "://" +:+ netloc));
           ("authorization_servers", PList [PStr (default "" (_auth_issuer g))]);
           ("bearer_methods_supported", PList [PStr "header"])]).

(** ** Guarded streams (server/sse_resilience.py) *)

Record SseStreamMetrics := {
  messages_sent : nat; messages_received : nat; keepalives_sent : nat; send_timeouts : nat;
  spin_loop_warnings : nat; started_at : Z }.
Definition new_metrics (now : Z) : SseStreamMetrics :=
  {| messages_sent := 0; messages_received := 0; keepalives_sent := 0; send_timeouts := 0; spin_loop_warnings := 0; started_at := now |}.

(** The guarded streams of a connection with the metrics they share. *)
Record GuardedWriteStream := { _spin_window : Z; _spin_threshold : Z; _write_timestamps : list Z; _metrics : SseStreamMetrics }.
Definition wrap_streams (window threshold now : Z) : GuardedWriteStream :=
  {| _spin_window := window; _spin_threshold := threshold; _write_timestamps := []; _metrics := new_metrics now |}.

Definition on_metrics (f : SseStreamMetrics → SseStreamMetrics) (w : GuardedWriteStream) : GuardedWriteStream :=
  {| _spin_window := _spin_window w; _spin_threshold := _spin_threshold w; _write_timestamps := _write_timestamps w;
     _metrics := f (_metrics w) |}.
Definition add_sent (m : SseStreamMetrics) : SseStreamMetrics :=
  {| messages_sent := S (messages_sent m); messages_received := messages_received m; keepalives_sent := keepalives_sent m;
     send_timeouts := send_timeouts m; spin_loop_warnings := spin_loop_warnings m; started_at := started_at m |}.
Definition add_received (m : SseStreamMetrics) : SseStreamMetrics :=
  {| messages_sent := messages_sent m; messages_received := S (messages_received m); keepalives_sent := keepalives_sent m;
     send_timeouts := send_timeouts m; spin_loop_warnings := spin_loop_warnings m; started_at := started_at m |}.
Definition add_timeout (m : SseStreamMetrics) : SseStreamMetrics :=
  {| messages_sent := messages_sent m; messages_received := messages_received m; keepalives_sent := keepalives_sent m;
     send_timeouts := S (send_timeouts m); spin_loop_warnings := spin_loop_warnings m; started_at := started_at m |}.
Definition add_warning (m : SseStreamMetrics) : SseStreamMetrics :=
  {| messages_sent := messages_sent m; messages_received := messages_received m; keepalives_sent := keepalives_sent m;
     send_timeouts := send_timeouts m; spin_loop_warnings := S (spin_loop_warnings m); started_at := started_at m |}.

(** Returns whether a warning is logged. *)
Definition _detect_spin_loop (now : Z) (w : GuardedWriteStream) : bool * GuardedWriteStream :=
  let cutoff := now - _spin_window w in
  let ts := keep (λ t, cutoff <? t) (_write_timestamps w) ++ [now] in
  let w1 := {| _spin_window := _spin_window w; _spin_threshold := _spin_threshold w; _write_timestamps := ts; _metrics := _metrics w |} in
  if Z.of_nat (length ts) >? _spin_threshold w then
    let w2 := on_metrics add_warning w1 in (bool_decide (spin_loop_warnings (_metrics w2) ≤ 5)%nat, w2)
  else (false, w1).

(** How a send of the inner stream ends. *)
Inductive send_result := Delivered | TimedOut | SendFailed.
Definition send_end (r : send_result) (w : GuardedWriteStream) : GuardedWriteStream :=
  match r with Delivered => on_metrics add_sent w | TimedOut => on_metrics add_timeout w | SendFailed => w end.

(** [send] when nothing else happens on the stream in between. *)
Definition guarded_send (now : Z) (r : send_result) (w : GuardedWriteStream) : bool * GuardedWriteStream :=
  let '(logged, w1) := _detect_spin_loop now w in (logged, send_end r w1).

Definition receive (ok : bool) (w : GuardedWriteStream) : GuardedWriteStream := if ok then on_metrics add_received w else w.

(** ** What passes the gate *)

(** The configured provider of a non-anonymous type is not the anonymous one. *)
Lemma dump_type c : dget (model_dump c) "type" = Some (ia_type c).
Proof. done. Qed.

Lemma setup_provider c algs p :
  ia_type c ≠ "anonymous" → provider_from_config (Some (model_dump c)) algs = inr p → p ≠ AnonymousProvider.
Proof.
  intros Ht H ->. unfold provider_from_config in H. unfold model_dump in H at 1.
  change (dget (model_dump c)) with (dget (model_dump c)) in H. rewrite dump_type in H. simpl in H.
  rewrite bool_decide_eq_false_2 in H by done. repeat case_match; done.
Qed.

Lemma setup_cases c reg mode g :
  _setup_incoming_auth (Some c) initial_module = inr (reg, mode, g) →
  mode = ia_auth_mode c ∧
  ((ia_type c = "anonymous" ∧ _incoming_auth_provider g = None ∧ (reg = None ∨ reg = Some AnonymousProvider)) ∨
   (ia_type c ≠ "anonymous" ∧ ∃ p, reg = Some p ∧ p ≠ AnonymousProvider ∧ _incoming_auth_provider g = Some p)).
Proof.
  unfold _setup_incoming_auth. case_bool_decide as Ht; cbn [negb].
  - destruct (ia_auth_mode c) eqn:Em; intros H.
    + simplify_eq. split; [done|]. left. by auto.
    + destruct (provider_from_config _ _) as [e|p] eqn:Ep; simplify_eq. split; [done|]. left. split_and!; [done..|].
      right. unfold provider_from_config in Ep. unfold model_dump in Ep at 1. rewrite dump_type in Ep. simpl in Ep.
      rewrite bool_decide_eq_true_2 in Ep by done. congruence.
  - destruct (provider_from_config _ _) as [e|p] eqn:Ep; intros; simplify_eq. split; [done|]. right. split; [done|].
    exists p. split_and!; [done| |done]. by eapply setup_provider.
Qed.

Lemma authenticated_token validate p token u :
  p ≠ AnonymousProvider → authenticate validate p token = inr u → ∃ t, token = Some t ∧ t ≠ "".
Proof.
  intros Hp H. destruct p as [|e|c]; [done|..]; destruct token as [t|]; try done; exists t; split; try done;
    intros ->; done.
Qed.

(** The gate in closed form. *)
Definition vars_after (g : transport_module) (s : scope) (v : context_vars) : context_vars :=
  set_client (sc_client s) (set_session (header_value "mcp-session-id" (sc_headers s)) (set_mode (_auth_mode g) v)).

Lemma gate_run validate g s v :
  gate validate g s v =
  match _incoming_auth_provider g with
  | None => (inr None, vars_after g s v)
  | Some p =>
      match authenticate validate p (_extract_bearer_token s) with
      | inr u => (inr None, set_identity u (_extract_bearer_token s) (vars_after g s v))
      | inl (AuthenticationFailed _) => (inr (Some (unauthorized g s)), vars_after g s v)
      | inl TypeErrorAuth => (inl TypeErrorAuth, vars_after g s v)
      end
  end.
Proof.
  unfold gate, _authenticate_request, try_except, vars_after. cbv [mbind M_bind modify mret M_ret raise].
  destruct (_incoming_auth_provider g) as [p|]; [|done].
  destruct (authenticate validate p _) as [[m|]|u]; done.
Qed.

(** The token the protocol handlers pass on. *)
Lemma metadata_token a :
  md_str (dget (dispatch_metadata a) "auth_token") = current_auth_token a.
Proof. destruct a as [[u|] [t|] [i|] [c|]]; done. Qed.

(** The stack that the lifespan builds from the same set-up. *)
Definition gate_stack (validate : JWTConfig → string → string + TokenClaims) (reg : option Provider) (mode : auth_mode)
    (sc : stack_conf) : stack_conf :=
  {| sc_auth := (λ p, (authenticate validate p, mode)) <$> reg; sc_plugins := sc_plugins sc;
     sc_telemetry := sc_telemetry sc; sc_audit_logger := sc_audit_logger sc |}.

(** A request that a transport hands on has passed the gate. *)
Definition handed_on (validate : JWTConfig → string → string + TokenClaims) (g : transport_module) (s : scope) (v : context_vars) : Prop :=
  (∃ ready, handle_streamable_http validate g ready s fresh_vars = (inr Delegated, v)) ∨
  (∃ now fid sv session sv', sse_open validate g s now fid fresh_vars sv = (inr (SseConnected session), v, sv')).

Lemma handed_on_gate validate g s v : handed_on validate g s v → gate validate g s fresh_vars = (inr None, v).
Proof.
  intros [[ready H]|(now & fid & sv & session & sv' & H)].
  - unfold handle_streamable_http in H. destruct ready; cbn [negb] in H; [|done]. rewrite run_bind in H.
    destruct (gate validate g s fresh_vars) as [[e|[r|]] v']; [done..|]. injection H as <-. done.
  - unfold sse_open in H. destruct (gate validate g s fresh_vars) as [[e|[r|]] v']; [done..|].
    repeat case_match; simplify_eq; done.
Qed.


Definition demo_auth (mode : auth_mode) : IncomingAuthConfig :=
  {| ia_type := "local"; ia_auth_mode := mode; ia_token := Some "secret"; ia_jwks_uri := None; ia_issuer := Some "https://id.example";
     ia_audience := None; ia_algorithms := ["RS256"] |}.
Definition demo_module (mode : auth_mode) : transport_module :=
  {| _incoming_auth_provider := Some (LocalTokenProvider "secret"); _auth_mode := mode; _auth_issuer := Some "https://id.example" |}.
Definition no_jwt : JWTConfig → string → string + TokenClaims := λ _ _, inl "no key".
Definition local_user : UserIdentity :=
  {| subject := "local-user"; email := ""; user_name := ""; user_roles := []; provider := "local"; claims := [] |}.
Definition demo_scope (auth : string) : scope := {| sc_headers := [("host", "h"); ("authorization", auth)]; sc_client := Some "10.0.0.1" |}.


(** A request without a token is refused with 401 in both modes, although the
    middleware behind the gate would let it pass as anonymous in permissive
    mode. *)
Lemma permissive_refused_at_gate c p g s v :
  ia_type c ≠ "anonymous" → _setup_incoming_auth (Some c) initial_module = inr (Some p, permissive, g) →
  _extract_bearer_token s = None →
  (handle_streamable_http no_jwt g true s v).1 = inr (Answered (unauthorized g s)) ∧
  auth_decision (authenticate no_jwt p) permissive None = inr anonymous_user.
Proof.
  intros Ht Hs Hn. apply setup_cases in Hs as [_ [[? _]|(_ & p' & Hp & Hna & Hg)]]; [done|]. simplify_eq.
  split; [|done]. unfold handle_streamable_http. cbn [negb]. rewrite run_bind, gate_run, Hg, Hn.
  by destruct p'.
Qed.

(** A token with a character outside ASCII makes the comparison raise, and the
    exception is not the one the transports catch. *)
Lemma non_ascii_token_raises :
  (handle_streamable_http no_jwt (demo_module strict) true (demo_scope ("Bearer " +:+ String (Ascii.ascii_of_nat 233) "")) fresh_vars).1
    = inl TypeErrorAuth.
Proof. reflexivity. Qed.

(** The challenge of a refused request. *)
Lemma challenge_text g s :
  _build_www_authenticate (demo_module strict) None = "Bearer realm=" +:+ dquote +:+ "https://id.example" +:+ dquote ∧
  (str_truthy (_extract_bearer_token s) = false → _auth_issuer g = None →
   rs_headers (unauthorized g s) = [("WWW-Authenticate", "Bearer")]).
Proof.
  split; [reflexivity|]. intros Ht Hi. unfold unauthorized, _build_www_authenticate. rewrite Ht, Hi. reflexivity.
Qed.

(** ** Sessions of several connections

    The requests of several clients interleave at the main loops: a connection
    opens, later its loop returns or raises, and in between others come and go
    and the background task sweeps expired sessions.  Nothing else in the server
    looks a session up. *)
Inductive sse_event :=
  | Connect (now : Z) (fresh_id : string) (s : scope)
  | Leave (sid : string)
  | Break (sid : string)
  | Sweep (now : Z).

Record sse_system := { sy_server : sse_server; sy_open : list MCPSession; sy_broken : list MCPSession }.

Section connections.
Context (validate : JWTConfig → string → string + TokenClaims) (g : transport_module).

Definition has_id (sid : string) (s : MCPSession) : bool := bool_decide (ses_id s = sid).
Definition others (sid : string) (l : list MCPSession) : list MCPSession := keep (λ s, negb (has_id sid s)) l.

Definition loop_end (e : option sse_exn) : M sse_server sse_exn () := match e with None => mret () | Some x => raise x end.

Definition sse_step (st : sse_system) (ev : sse_event) : sse_system :=
  match ev with
  | Connect now fid s =>
      match sse_open validate g s now fid fresh_vars (sy_server st) with
      | (inr (SseConnected (Some session)), _, sv') =>
          {| sy_server := sv'; sy_open := session :: sy_open st; sy_broken := sy_broken st |}
      | (_, _, sv') => {| sy_server := sv'; sy_open := sy_open st; sy_broken := sy_broken st |}
      end
  | Leave sid =>
      match keep (has_id sid) (sy_open st) with
      | [] => st
      | s :: _ => {| sy_server := (sse_serve (Some s) (loop_end None) false (sy_server st)).2;
                     sy_open := others sid (sy_open st); sy_broken := sy_broken st |}
      end
  | Break sid =>
      match keep (has_id sid) (sy_open st) with
      | [] => st
      | s :: _ => {| sy_server := (sse_serve (Some s) (loop_end (Some (SseRaised "stream closed"))) false (sy_server st)).2;
                     sy_open := others sid (sy_open st); sy_broken := s :: sy_broken st |}
      end
  | Sweep now =>
      {| sy_server := with_sessions (cleanup now <$> ss_sessions (sy_server st)) (sy_server st);
         sy_open := sy_open st; sy_broken := sy_broken st |}
  end.
Definition sse_run (st : sse_system) (evs : list sse_event) : sse_system := foldl sse_step st evs.
End connections.

Definition connect_ids (evs : list sse_event) : list string :=
  omap (λ ev, match ev with Connect _ fid _ => Some fid | _ => None end) evs.
Definition table (st : sse_system) : odict string MCPSession := from_option _sessions [] (ss_sessions (sy_server st)).

(** What holds between the events; [used] are the ids handed out so far and
    [swept] the times of all sweeps. *)
Record accounted (swept : Z → Prop) (used : list string) (st : sse_system) : Prop := {
  acc_wf : dict_wf (table st);
  acc_nodup : NoDup (ses_id <$> sy_open st ++ sy_broken st);
  acc_keys sid : sid ∈ dkeys (table st) → sid ∈ ses_id <$> sy_open st ++ sy_broken st;
  acc_used s : s ∈ sy_open st ++ sy_broken st → ses_id s ∈ used;
  acc_live s : s ∈ sy_open st ++ sy_broken st →
    dget (table st) (ses_id s) = Some s ∨ (∃ now, swept now ∧ now - ses_created_at s > ses_ttl s);
  acc_age s : s ∈ sy_open st ++ sy_broken st → last_active s = ses_created_at s }.

Lemma elem_of_others sid s l : s ∈ others sid l ↔ s ∈ l ∧ ses_id s ≠ sid.
Proof.
  unfold others. rewrite elem_of_keep. unfold has_id. rewrite negb_true_iff, bool_decide_eq_false. naive_solver.
Qed.

Lemma accounted_connect validate g swept used st now fid s :
  fid ∉ used → accounted swept used st → accounted swept (fid :: used) (sse_step validate g st (Connect now fid s)).
Proof.
  intros Hf [Hw Hn Hk Hu Hl Ha].
  assert (Hsame : ∀ sv, ss_sessions sv = ss_sessions (sy_server st) →
    accounted swept (fid :: used) {| sy_server := sv; sy_open := sy_open st; sy_broken := sy_broken st |}).
  { intros sv E. assert (Et : table {| sy_server := sv; sy_open := sy_open st; sy_broken := sy_broken st |} = table st)
      by (unfold table; by rewrite <-E).
    constructor; rewrite ?Et; simpl; try done. intros x Hx. apply elem_of_cons. auto. }
  cbn [sse_step]. unfold sse_open. destruct (gate validate g s fresh_vars) as [[e|[r|]] v']; [by apply Hsame..|].
  destruct (ss_manager (sy_server st)); [|by apply Hsame].
  destruct (ss_registry (sy_server st)) as [reg|]; [|by apply Hsame].
  destruct (ss_sessions (sy_server st)) as [m|] eqn:Em; [|by apply Hsame].
  cbn [create_session str_or]. set (ns := Build_MCPSession _ _ _ _ _ _ _).
  assert (Etab : table st = _sessions m) by (unfold table; by rewrite Em). rewrite Etab in *.
  constructor; unfold table; simpl.
  - by apply dict_wf_dset.
  - constructor; [|done]. intros (x & E & Hx)%list_elem_of_fmap. apply Hf. simpl in E. rewrite E. auto.
  - intros sid Hsid. apply dget_is_Some in Hsid. rewrite dget_dset in Hsid. rewrite elem_of_cons.
    case_decide as E; [left; by rewrite <-E|right]. apply Hk. by apply dget_is_Some.
  - intros x [->|Hx]%elem_of_cons; apply elem_of_cons; auto.
  - intros x [->|Hx]%elem_of_cons; [left; apply dget_dset_eq|].
    destruct (Hl x Hx) as [E|?]; [left|by right]. rewrite dget_dset_ne; [done|]. intros E'. apply Hf. rewrite E'. auto.
  - intros x [->|Hx]%elem_of_cons; [done|auto].
Qed.

Lemma has_id_head sid s l l' : keep (has_id sid) l = s :: l' → s ∈ l ∧ ses_id s = sid.
Proof.
  intros E. assert (H : s ∈ keep (has_id sid) l) by (rewrite E; apply elem_of_cons; auto).
  apply elem_of_keep in H as [? H]. split; [done|]. by apply bool_decide_eq_true in H.
Qed.

Lemma others_ids_nodup sid l : NoDup (ses_id <$> l) → NoDup (ses_id <$> others sid l).
Proof.
  induction l as [|x l IH]; [done|]. intros [Hx Hn]%NoDup_cons. unfold others in *. simpl.
  case_match; [|by apply IH]. constructor; [|by apply IH]. intros (y & E & Hy)%list_elem_of_fmap.
  apply elem_of_keep in Hy as [Hy _]. apply Hx. rewrite E. by apply list_elem_of_fmap_2.
Qed.

Lemma accounted_leave validate g swept used st sid :
  accounted swept used st → accounted swept used (sse_step validate g st (Leave sid)).
Proof.
  intros [Hw Hn Hk Hu Hl Ha]. cbn [sse_step].
  destruct (keep (has_id sid) (sy_open st)) as [|s l] eqn:Es; [by constructor|].
  apply has_id_head in Es as [Hs Hid].
  set (st' := Build_sse_system _ _ _).
  assert (Ht : table st' = if dmem (table st) sid then ddel (table st) sid else table st).
  { unfold st', table, sse_serve, loop_end, cleanup_with_deadline, do_cleanup. cbv [mbind M_bind mret M_ret try_except modify]. simpl.
    destruct (ss_sessions (sy_server st)) as [m|]; [|done]. simpl. unfold remove_session, _remove. rewrite Hid.
    by destruct (dmem (_sessions m) sid). }
  assert (Hlk : ∀ k, dget (table st') k = if decide (sid = k) then None else dget (table st) k).
  { intros k. rewrite Ht. destruct (dmem (table st) sid) eqn:E; [by apply dget_ddel|].
    case_decide; [|done]. subst. apply dget_None. intros Hin. apply dmem_spec in Hin. congruence. }
  rewrite fmap_app in Hn. apply NoDup_app in Hn as (Hn1 & Hn2 & Hn3).
  assert (Hsub : ∀ x, x ∈ others sid (sy_open st) ++ sy_broken st → x ∈ sy_open st ++ sy_broken st ∧ ses_id x ≠ sid).
  { intros x [[Hx ?]%elem_of_others|Hx]%elem_of_app; split; rewrite ?elem_of_app; auto.
    intros E. apply (Hn2 sid); [rewrite <-Hid|rewrite <-E]; by apply list_elem_of_fmap_2. }
  constructor; simpl.
  - rewrite Ht. case_match; [by apply dict_wf_ddel|done].
  - rewrite fmap_app. apply NoDup_app. split_and!; [by apply others_ids_nodup| |done].
    intros x (y & -> & Hy)%list_elem_of_fmap Hx. apply elem_of_others in Hy as [Hy _].
    apply (Hn2 (ses_id y)); [by apply list_elem_of_fmap_2|done].
  - intros k Hin. apply dget_is_Some in Hin. rewrite Hlk in Hin. case_decide; [by destruct Hin|].
    apply dget_is_Some, Hk, list_elem_of_fmap in Hin as (x & -> & Hx). apply list_elem_of_fmap_2.
    apply elem_of_app in Hx as [Hx|Hx]; apply elem_of_app; [left; by apply elem_of_others|by right].
  - intros x Hx. apply Hu. by apply Hsub.
  - intros x Hx. destruct (Hsub x Hx) as [Hx' Hne]. rewrite Hlk, decide_False by done. by apply Hl.
  - intros x Hx. apply Ha. by apply Hsub.
Qed.

Lemma accounted_break validate g swept used st sid :
  accounted swept used st → accounted swept used (sse_step validate g st (Break sid)).
Proof.
  intros [Hw Hn Hk Hu Hl Ha]. cbn [sse_step].
  destruct (keep (has_id sid) (sy_open st)) as [|s l] eqn:Es; [by constructor|].
  apply has_id_head in Es as [Hs Hid]. set (st' := Build_sse_system _ _ _).
  assert (Ht : table st' = table st) by done.
  rewrite fmap_app in Hn. apply NoDup_app in Hn as (Hn1 & Hn2 & Hn3).
  assert (Hsub : ∀ x, x ∈ others sid (sy_open st) ++ s :: sy_broken st → x ∈ sy_open st ++ sy_broken st).
  { intros x [[Hx ?]%elem_of_others|[->|Hx]%elem_of_cons]%elem_of_app; rewrite elem_of_app; auto. }
  constructor; rewrite ?Ht; simpl; [done| | | | |].
  - rewrite fmap_app. apply NoDup_app. split_and!; [by apply others_ids_nodup| |].
    + intros x (y & -> & Hy)%list_elem_of_fmap Hx. apply elem_of_others in Hy as [Hy Hne].
      apply elem_of_cons in Hx as [E|Hx]; [congruence|].
      apply (Hn2 (ses_id y)); [by apply list_elem_of_fmap_2|done].
    + constructor; [|done]. apply Hn2. by apply list_elem_of_fmap_2.
  - intros k (x & -> & Hx)%Hk%list_elem_of_fmap. rewrite fmap_app, elem_of_app. simpl. rewrite elem_of_cons.
    apply elem_of_app in Hx as [Hx|Hx]; [|right; right; by apply list_elem_of_fmap_2].
    destruct (decide (ses_id x = sid)) as [E|E]; [right; left; congruence|left].
    apply list_elem_of_fmap_2. by apply elem_of_others.
  - intros x Hx. by apply Hu, Hsub.
  - intros x Hx. by apply Hl, Hsub.
  - intros x Hx. by apply Ha, Hsub.
Qed.

Lemma accounted_sweep validate g (swept : Z → Prop) used st now :
  swept now → accounted swept used st → accounted swept used (sse_step validate g st (Sweep now)).
Proof.
  intros Hsw [Hw Hn Hk Hu Hl Ha].
  destruct (ss_sessions (sy_server st)) as [m|] eqn:Em.
  2: { assert (Ht : table (sse_step validate g st (Sweep now)) = table st) by (unfold table; simpl; by rewrite Em).
       by constructor; rewrite ?Ht. }
  assert (Et : table st = _sessions m) by (unfold table; by rewrite Em). rewrite Et in *.
  assert (Et' : table (sse_step validate g st (Sweep now)) = _sessions (cleanup now m)) by (unfold table; simpl; by rewrite Em).
  set (sids := dkeys (keep (λ kv : string * MCPSession, session_expired now kv.2) (_sessions m))).
  assert (Hlk : ∀ k, dict_wf (_sessions (cleanup now m)) ∧
    dget (_sessions (cleanup now m)) k = if decide (k ∈ sids) then None else dget (_sessions m) k).
  { intros k. apply (removes_lookup sids m k). done. }
  constructor; rewrite ?Et'; simpl; try done.
  - apply (Hlk ""). 
  - intros k Hin. apply dget_is_Some in Hin. rewrite (proj2 (Hlk k)) in Hin. case_decide; [by destruct Hin|].
    by apply Hk, dget_is_Some.
  - intros x Hx. rewrite (proj2 (Hlk _)). destruct (Hl x Hx) as [E|?]; [|by right].
    case_decide as Hin; [|by left]. right. exists now. split; [done|].
    unfold sids, dkeys in Hin. apply list_elem_of_fmap in Hin as ([k y] & Ek & Hin). simpl in Ek. subst k.
    apply elem_of_keep in Hin as [Hin Hexp]. simpl in Hexp. apply (elem_dget _ _ _ Hw) in Hin.
    rewrite E in Hin. injection Hin as <-. unfold session_expired in Hexp. rewrite (Ha x Hx) in Hexp. reflect_bools. lia.
Qed.

Lemma accounted_run validate g swept used st evs :
  NoDup (used ++ connect_ids evs) → (∀ now, Sweep now ∈ evs → swept now) → accounted swept used st →
  ∃ used', accounted swept used' (sse_run validate g st evs).
Proof.
  revert used st. induction evs as [|ev evs IH]; intros used st Hn Hs Hacc; [by exists used|].
  assert (Hs' : ∀ now, Sweep now ∈ evs → swept now) by (intros; apply Hs, elem_of_cons; auto).
  destruct ev as [now fid s|sid|sid|now]; simpl in *.
  - assert (Hp : fid :: used ++ connect_ids evs ≡ₚ used ++ fid :: connect_ids evs) by apply Permutation_middle.
    rewrite <-Hp in Hn. apply (IH (fid :: used)); [done|done|]. apply (accounted_connect validate g); [|done].
    apply NoDup_cons in Hn as [Hn _]. rewrite elem_of_app in Hn. tauto.
  - apply (IH used); [done|done|]. by apply (accounted_leave validate g).
  - apply (IH used); [done|done|]. by apply (accounted_break validate g).
  - apply (IH used); [done|done|]. apply (accounted_sweep validate g); [apply Hs, elem_of_cons; auto|done].
Qed.

Definition started (sv : sse_server) : sse_system := {| sy_server := sv; sy_open := []; sy_broken := [] |}.

(** C20: sessions and connections.  From an empty table, after any interleaving
    of connections (with distinct generated ids), ends of main loops, and
    sweeps, every stored session belongs to a connection that is open or whose
    main loop raised; the session of an open connection is stored unchanged,
    unless some sweep ran more than its time-to-live after it was created.  So
    when every loop has returned, no session is left. *)
Theorem sse_sessions_accounted validate g sv evs :
  from_option _sessions [] (ss_sessions sv) = [] → NoDup (connect_ids evs) →
  let st := sse_run validate g (started sv) evs in
  (∀ sid, sid ∈ dkeys (table st) → ∃ s, ses_id s = sid ∧ (s ∈ sy_open st ∨ s ∈ sy_broken st)) ∧
  (∀ s, s ∈ sy_open st → dget (table st) (ses_id s) = Some s ∨
     ∃ now, Sweep now ∈ evs ∧ now - ses_created_at s > ses_ttl s) ∧
  (sy_open st = [] → sy_broken st = [] → table st = []).
Proof.
  intros H0 Hn st.
  destruct (accounted_run validate g (λ now, Sweep now ∈ evs) [] (started sv) evs) as [used [Hw _ Hk _ Hl _]]; [done|done| |].
  { assert (Ht : table (started sv) = []) by done.
    constructor; rewrite ?Ht; simpl; try (intros ? []%not_elem_of_nil); constructor. }
  fold st in Hk, Hl. split_and!.
  - intros sid (s & -> & Hs)%Hk%list_elem_of_fmap. exists s. by rewrite <-elem_of_app.
  - intros s Hs. apply Hl, elem_of_app. by left.
  - intros Ho Hb. rewrite Ho, Hb in Hk. destruct (table st) as [|[k x] l]; [done|].
    exfalso. apply (not_elem_of_nil k), Hk. simpl. apply elem_of_cons. by left.
Qed.

Definition demo_server : sse_server :=
  {| ss_manager := true; ss_registry := Some demo_registry; ss_sessions := Some {| _sessions := []; _default_ttl := 1800000 |} |}.
Definition demo_events : list sse_event :=
  [Connect 0 "s1" (demo_scope "Bearer secret"); Connect 5 "s2" (demo_scope "Bearer wrong"); Connect 9 "s3" (demo_scope "bearer secret");
   Leave "s1"; Sweep 1000].

Lemma sse_sessions_accounted_witness :
  let st := sse_run no_jwt (demo_module strict) (started demo_server) demo_events in
  dkeys (table st) = ["s3"] ∧ ses_id <$> sy_open st = ["s3"] ∧
  (sy_open st = [] → sy_broken st = [] → table st = []).
Proof.
  split_and!; [reflexivity|reflexivity|].
  apply (sse_sessions_accounted no_jwt (demo_module strict) demo_server demo_events);
    [reflexivity|apply (bool_decide_unpack _); reflexivity].
Defined.

(** The session of a connection whose loop raised stays in the table, and the
    session of a connection that is still open is swept once it is older than
    its time-to-live, however active the client is. *)
Lemma broken_connection_keeps_session :
  let st := sse_run no_jwt (demo_module strict) (started demo_server) [Connect 0 "s1" (demo_scope "Bearer secret"); Break "s1"] in
  sy_open st = [] ∧ dkeys (table st) = ["s1"].
Proof. split; reflexivity. Qed.
Lemma open_session_swept :
  let st := sse_run no_jwt (demo_module strict) (started demo_server) [Connect 0 "s1" (demo_scope "Bearer secret"); Sweep 1800001] in
  ses_id <$> sy_open st = ["s1"] ∧ table st = [].
Proof. split; reflexivity. Qed.

(** ** Spin detection

    Sends may overlap: the detection runs when a send begins, the counters
    change when it ends. *)
Inductive stream_event := SendBegin (now : Z) | SendEnd (r : send_result) | Receive (ok : bool).

Definition stream_step (st : nat * GuardedWriteStream) (ev : stream_event) : nat * GuardedWriteStream :=
  match ev with
  | SendBegin now => let '(logged, w) := _detect_spin_loop now st.2 in ((if logged : bool then S st.1 else st.1), w)
  | SendEnd r => (st.1, send_end r st.2)
  | Receive ok => (st.1, receive ok st.2)
  end.
Definition stream_run (w : GuardedWriteStream) (evs : list stream_event) : nat * GuardedWriteStream :=
  foldl stream_step (0%nat, w) evs.

Definition begins (evs : list stream_event) : list Z :=
  omap (λ ev, match ev with SendBegin t => Some t | _ => None end) evs.
Definition is_end (r : send_result) (ev : stream_event) : bool :=
  match ev, r with SendEnd Delivered, Delivered | SendEnd TimedOut, TimedOut | SendEnd SendFailed, SendFailed => true | _, _ => false end.

(** Reference: the sends that begin, counted with the earlier ones less than a
    window ago, as more than [threshold]. *)
Fixpoint spins (window threshold : Z) (past ts : list Z) : nat :=
  match ts with
  | [] => 0
  | t :: ts' =>
      (if Z.of_nat (length (keep (λ x, t - window <? x) past) + 1) >? threshold then 1 else 0) +
      spins window threshold (past ++ [t]) ts'
  end.

(** What the stream remembers: of the past, the sends that can still count. *)
Lemma keep_keep_cutoff c c' l : c <= c' → keep (λ x, c' <? x) (keep (λ x, c <? x) l) = keep (λ x, c' <? x) l.
Proof.
  intros Hc. induction l as [|x l IH]; [done|]. simpl. destruct (c <? x) eqn:E1; simpl; [by rewrite IH|].
  rewrite IH. destruct (c' <? x) eqn:E2; [|done]. apply Z.ltb_lt in E2. apply Z.ltb_ge in E1. lia.
Qed.

Lemma stream_run_exact evs n w past window threshold :
  _spin_window w = window → _spin_threshold w = threshold →
  (∀ t, t ∈ begins evs → keep (λ x, t - window <? x) (_write_timestamps w) = keep (λ x, t - window <? x) past) →
  StronglySorted Z.le (begins evs) →
  let '(n', w') := foldl stream_step (n, w) evs in
  spin_loop_warnings (_metrics w') = (spin_loop_warnings (_metrics w) + spins window threshold past (begins evs))%nat ∧
  n' = (n + (spin_loop_warnings (_metrics w') `min` 5 - spin_loop_warnings (_metrics w) `min` 5))%nat ∧
  messages_sent (_metrics w') = (messages_sent (_metrics w) + length (keep (is_end Delivered) evs))%nat ∧
  send_timeouts (_metrics w') = (send_timeouts (_metrics w) + length (keep (is_end TimedOut) evs))%nat.
Proof.
  intros Hw Ht. revert n w past Hw Ht. induction evs as [|ev evs IH]; intros n w past Hw Ht Hp Hs; [simpl; lia|].
  destruct ev as [t|r|ok]; cbn [foldl].
  2: { specialize (IH n (send_end r w) past). cbn [stream_step fst snd]. destruct (foldl stream_step _ evs) as [n' w'].
       destruct r; specialize (IH Hw Ht Hp Hs); simpl in IH |- *; lia. }
  2: { specialize (IH n (receive ok w) past). cbn [stream_step fst snd]. destruct (foldl stream_step _ evs) as [n' w'].
       destruct ok; specialize (IH Hw Ht Hp Hs); simpl in IH |- *; lia. }
  assert (Hb : begins (SendBegin t :: evs) = t :: begins evs) by done. rewrite Hb in *. inversion Hs as [|? ? Hs' Hall]; subst.
  rewrite Forall_forall in Hall.
  assert (Et := Hp t ltac:(apply elem_of_cons; auto)).
  assert (Hp' : ∀ t', t' ∈ begins evs → keep (λ x, t' - _spin_window w <? x) (keep (λ x, t - _spin_window w <? x) (_write_timestamps w) ++ [t])
     = keep (λ x, t' - _spin_window w <? x) (past ++ [t])).
  { intros t' Ht'. rewrite !keep_app, keep_keep_cutoff by (specialize (Hall _ Ht'); lia).
    rewrite Hp by (apply elem_of_cons; auto). done. }
  cbn [stream_step snd fst spins]. unfold _detect_spin_loop. rewrite length_app, Et. cbn [length].
  destruct (Z.of_nat (length (keep (λ x, t - _spin_window w <? x) past) + 1) >? _spin_threshold w) eqn:Ec; rewrite <-Et.
  - set (w1 := on_metrics _ _). specialize (IH (if bool_decide (spin_loop_warnings (_metrics w1) ≤ 5)%nat then S n else n) w1 (past ++ [t]) eq_refl eq_refl Hp' Hs').
    destruct (foldl stream_step _ evs) as [n' w']. simpl in IH |- *. case_bool_decide; lia.
  - set (w1 := Build_GuardedWriteStream _ _ _ _). specialize (IH n w1 (past ++ [t]) eq_refl eq_refl Hp' Hs').
    destruct (foldl stream_step _ evs) as [n' w']. simpl in IH |- *. lia.
Qed.

(** Spin detection against its reference: on a connection whose sends begin at
    non-decreasing times (a monotonic clock), however they overlap, the warning
    counter is the number of sends that begin with more than the threshold of
    sends in the window before them, themselves included; at most five warnings
    are logged; and the counters of delivered and timed-out messages are exact. *)
Theorem spin_detection_exact window threshold now evs :
  StronglySorted Z.le (begins evs) →
  let '(logged, w) := stream_run (wrap_streams window threshold now) evs in
  spin_loop_warnings (_metrics w) = spins window threshold [] (begins evs) ∧
  logged = (spin_loop_warnings (_metrics w) `min` 5)%nat ∧
  messages_sent (_metrics w) = length (keep (is_end Delivered) evs) ∧
  send_timeouts (_metrics w) = length (keep (is_end TimedOut) evs).
Proof.
  intros Hs. unfold stream_run.
  assert (H := stream_run_exact evs 0 (wrap_streams window threshold now) [] window threshold eq_refl eq_refl (λ _ _, eq_refl) Hs).
  destruct (foldl stream_step _ evs) as [n w]. simpl in H. lia.
Qed.

Definition demo_stream : list stream_event :=
  [SendBegin 0; SendBegin 1; SendEnd TimedOut; SendEnd Delivered; SendBegin 2; SendEnd Delivered; SendBegin 1500].
Lemma spin_detection_exact_witness :
  spins 1000 2 [] (begins demo_stream) = 1%nat ∧
  let '(logged, w) := stream_run (wrap_streams 1000 2 0) demo_stream in
  spin_loop_warnings (_metrics w) = spins 1000 2 [] (begins demo_stream) ∧
  logged = (spin_loop_warnings (_metrics w) `min` 5)%nat ∧
  messages_sent (_metrics w) = length (keep (is_end Delivered) demo_stream) ∧
  send_timeouts (_metrics w) = length (keep (is_end TimedOut) demo_stream).
Proof.
  split; [reflexivity|]. apply (spin_detection_exact 1000 2 0 demo_stream). repeat constructor; lia.
Defined.
