(* ===== verification/ServerConfig.v ===== *)
(** * The configuration models of the server
      (config/schema.py, config/schema_server.py, config/schema_security.py,
      config/schema_rate_limits.py, config/schema_registry.py,
      config/schema_client.py, config/schema_backends.py)

    The sections of a configuration file besides the backends, with the bounds
    of their fields and the validators written in the source, and the whole
    model [ArgusConfig].  As in Schema.v a field holds a value of its declared
    type, except where a validator of mode before sees the raw value.  A model is
    accepted or answers with the paths of all the fields that were refused, in
    the order of the fields.  Numbers of type float are rationals: the bounds
    exclude infinities and NaN. *)
From Stdlib Require Import QArith Qminmax Lqa.
From S2P Require Import Prelude PyDict Effects PyStr Url Schema Plugins Retry SessionPool.
From S2P Require Import RateLimit PayloadLimits HttpEdge Chain Transport.
#[local] Open Scope Z_scope.

(** ** Fields *)

(** The names of the fields whose constraint does not hold. *)
Definition refused (fields : list (string * bool)) : list string := (keep (λ f, negb f.2) fields).*1.
(** The errors of a nested model carry the path to it. *)
Definition under (name : string) (errs : list string) : list string := (λ e, name +:+ "." +:+ e) <$> errs.

Arguments refused _ : simpl never.
Arguments under _ _ : simpl never.

Definition between (lo hi v : Z) : bool := (lo <=? v) && (v <=? hi).
Definition at_least (lo v : Z) : bool := lo <=? v.
Definition between_q (lo hi v : Q) : bool := Qle_bool lo v && Qle_bool v hi.

(** ** Sections *)

Record ConflictResolutionConfig := { cr_strategy : string; cr_separator : string; cr_order : list string }.
Definition default_conflict : ConflictResolutionConfig :=
  {| cr_strategy := "first-wins"; cr_separator := "_"; cr_order := [] |}.
Definition conflict_errors (c : ConflictResolutionConfig) : list string :=
  refused [("strategy", bool_decide (cr_strategy c ∈ ["first-wins"; "prefix"; "priority"; "error"]))].

Record AuditConfig := { au_enabled : bool; au_file : string; au_max_size_mb : Z; au_backup_count : Z }.
Definition default_audit : AuditConfig :=
  {| au_enabled := true; au_file := "logs/audit.jsonl"; au_max_size_mb := 100; au_backup_count := 5 |}.
Definition audit_errors (c : AuditConfig) : list string :=
  refused [("max_size_mb", at_least 1 (au_max_size_mb c)); ("backup_count", at_least 0 (au_backup_count c))].

Record OptimizerConfig := { op_enabled : bool; op_keep_tools : list string }.
Definition default_optimizer : OptimizerConfig := {| op_enabled := false; op_keep_tools := [] |}.

Record TelemetrySettings := { te_enabled : bool; te_otlp_endpoint : string; te_service_name : string }.
Definition default_telemetry : TelemetrySettings :=
  {| te_enabled := false; te_otlp_endpoint := "http://localhost:4317"; te_service_name := "argus-mcp" |}.

Record RetryConfig := {
  re_enabled : bool; re_max_retries : Z; re_base_delay : Q; re_backoff_factor : Q; re_max_delay : Q; re_jitter : Q }.
Definition default_retry : RetryConfig :=
  {| re_enabled := true; re_max_retries := 3; re_base_delay := 1; re_backoff_factor := 2; re_max_delay := 60; re_jitter := 1 # 2 |}.
Definition retry_errors (c : RetryConfig) : list string :=
  refused [("max_retries", between 0 10 (re_max_retries c)); ("base_delay", between_q (1 # 10) 30 (re_base_delay c));
           ("backoff_factor", between_q 1 10 (re_backoff_factor c)); ("max_delay", between_q 1 300 (re_max_delay c));
           ("jitter", between_q 0 1 (re_jitter c))].

Record SseResilienceConfig := {
  sr_enabled : bool; sr_send_timeout : Q; sr_cleanup_deadline : Q; sr_keepalive_interval : Q;
  sr_spin_loop_window : Q; sr_spin_loop_threshold : Z }.
Definition default_sse_resilience : SseResilienceConfig :=
  {| sr_enabled := true; sr_send_timeout := 30; sr_cleanup_deadline := 15; sr_keepalive_interval := 30;
     sr_spin_loop_window := 1; sr_spin_loop_threshold := 200 |}.
Definition sse_resilience_errors (c : SseResilienceConfig) : list string :=
  refused [("send_timeout", between_q 1 300 (sr_send_timeout c)); ("cleanup_deadline", between_q 1 120 (sr_cleanup_deadline c));
           ("keepalive_interval", between_q 0 600 (sr_keepalive_interval c));
           ("spin_loop_window", between_q (1 # 10) 30 (sr_spin_loop_window c));
           ("spin_loop_threshold", between 10 10000 (sr_spin_loop_threshold c))].

Record HttpPoolConfig := { hp_enabled : bool; hp_max_connections : Z; hp_max_keepalive : Z; hp_timeout : Q }.
Definition default_http_pool : HttpPoolConfig :=
  {| hp_enabled := true; hp_max_connections := 200; hp_max_keepalive := 100; hp_timeout := 30 |}.
Definition http_pool_errors (c : HttpPoolConfig) : list string :=
  refused [("max_connections", between 1 2000 (hp_max_connections c)); ("max_keepalive", between 0 2000 (hp_max_keepalive c));
           ("timeout", between_q 1 300 (hp_timeout c))].

Record SessionPoolConfig := { sp_enabled : bool; sp_per_key_max : Z; sp_ttl : Q; sp_circuit_breaker_threshold : Z }.
Definition default_session_pool : SessionPoolConfig :=
  {| sp_enabled := true; sp_per_key_max := 4; sp_ttl := 300; sp_circuit_breaker_threshold := 3 |}.
Definition session_pool_errors (c : SessionPoolConfig) : list string :=
  refused [("per_key_max", between 1 64 (sp_per_key_max c)); ("ttl", between_q 10 3600 (sp_ttl c));
           ("circuit_breaker_threshold", between 1 50 (sp_circuit_breaker_threshold c))].

Record SecretsConfig := { se_enabled : bool; se_provider : string; se_path : string; se_strict : bool }.
Definition default_secrets : SecretsConfig := {| se_enabled := false; se_provider := "env"; se_path := ""; se_strict := false |}.
Record SkillsConfig := { sk_directory : string; sk_enabled : bool }.
Definition default_skills : SkillsConfig := {| sk_directory := "skills"; sk_enabled := true |}.
Record WorkflowsConfig := { wf_directory : string; wf_enabled : bool }.
Definition default_workflows : WorkflowsConfig := {| wf_directory := "workflows"; wf_enabled := true |}.

(** *** Server and client *)

Record ManagementSettings := { ms_enabled : bool; ms_token : option string; ms_reconnect_timeout : option Q }.
Definition default_management : ManagementSettings := {| ms_enabled := true; ms_token := None; ms_reconnect_timeout := None |}.
Definition management_errors (c : ManagementSettings) : list string :=
  refused [("reconnect_timeout", match ms_reconnect_timeout c with Some t => between_q 1 600 t | None => true end)].

Record ServerSettings := {
  sv_host : string; sv_port : Z; sv_transport : string; sv_management : ManagementSettings;
  sv_auth_background_refresh_enabled : bool; sv_auth_background_refresh_interval_seconds : Q }.
Definition default_server : ServerSettings :=
  {| sv_host := "127.0.0.1"; sv_port := 9000; sv_transport := "streamable-http"; sv_management := default_management;
     sv_auth_background_refresh_enabled := true; sv_auth_background_refresh_interval_seconds := 60 |}.
(** The validator that runs on the raw text. *)
Definition _normalise_transport (v : string) : string :=
  if bool_decide (lower (str_strip v) = "http") then "streamable-http" else v.
Definition server_errors (c : ServerSettings) : list string :=
  refused [("port", between 1 65535 (sv_port c));
           ("transport", bool_decide (_normalise_transport (sv_transport c) ∈ ["sse"; "streamable-http"]))] ++
  under "management" (management_errors (sv_management c)) ++
  refused [("auth_background_refresh_interval_seconds", between_q 5 3600 (sv_auth_background_refresh_interval_seconds c))].
Definition normal_server (c : ServerSettings) : ServerSettings :=
  {| sv_host := sv_host c; sv_port := sv_port c; sv_transport := _normalise_transport (sv_transport c);
     sv_management := sv_management c; sv_auth_background_refresh_enabled := sv_auth_background_refresh_enabled c;
     sv_auth_background_refresh_interval_seconds := sv_auth_background_refresh_interval_seconds c |}.

Record ClientConfig := {
  cl_server_url : string; cl_token : option string; cl_theme : string; cl_poll_interval : Q; cl_servers_config : option string }.
Definition default_client : ClientConfig :=
  {| cl_server_url := "http://127.0.0.1:9000"; cl_token := None; cl_theme := "textual-dark"; cl_poll_interval := 2;
     cl_servers_config := None |}.
Definition client_errors (c : ClientConfig) : list string := refused [("poll_interval", between_q (1 # 2) 60 (cl_poll_interval c))].

(** *** Registries *)

Record RegistryEntryConfig := {
  rg_name : string; rg_url : string; rg_type : string; rg_priority : Z; rg_auth : string;
  rg_api_key_env : option string; rg_token_env : option string; rg_meta : MetadataProvenance }.
(** The length is checked before the blanks are removed. *)
Definition registry_url (v : string) : option string :=
  let v := str_strip v in if startswith v "http://" || startswith v "https://" then Some v else None.
Definition registry_errors (c : RegistryEntryConfig) : list string :=
  refused [("metadata_version", version_ok (rg_meta c)); ("name", min_length_1 (rg_name c));
           ("url", min_length_1 (rg_url c) && bool_decide (is_Some (registry_url (rg_url c))));
           ("type", bool_decide (rg_type c ∈ ["auto"; "glama"; "smithery"; "generic"]));
           ("priority", at_least 0 (rg_priority c)); ("auth", bool_decide (rg_auth c ∈ ["none"; "api-key"; "bearer"]))].
Definition normal_registry (c : RegistryEntryConfig) : RegistryEntryConfig :=
  {| rg_name := rg_name c; rg_url := default (rg_url c) (registry_url (rg_url c)); rg_type := rg_type c;
     rg_priority := rg_priority c; rg_auth := rg_auth c; rg_api_key_env := rg_api_key_env c; rg_token_env := rg_token_env c;
     rg_meta := rg_meta c |}.

(** *** Security *)

Definition SUPPORTED_ALGORITHMS : list string := ["RS256"; "RS384"; "RS512"; "ES256"; "ES384"; "ES512"].
Definition HMAC_ALGORITHMS : list string := ["HS256"; "HS384"; "HS512"].
Definition algorithm_ok (alg : string) : bool :=
  negb (bool_decide (lower alg = "none")) && bool_decide (alg ∈ SUPPORTED_ALGORITHMS ++ HMAC_ALGORITHMS).
Definition validate_algorithms (v : list string) : bool := forallb algorithm_ok v.
Definition default_incoming_auth : IncomingAuthConfig :=
  {| ia_type := "anonymous"; ia_auth_mode := strict; ia_token := None; ia_jwks_uri := None; ia_issuer := None;
     ia_audience := None; ia_algorithms := ["RS256"; "ES256"] |}.
Definition incoming_auth_errors (c : IncomingAuthConfig) : list string :=
  refused [("type", bool_decide (ia_type c ∈ ["anonymous"; "local"; "jwt"; "oidc"])); ("algorithms", validate_algorithms (ia_algorithms c))].

Record AuthorizationConfig := { az_enabled : bool; az_default_effect : string; az_policies : list (odict string pyval) }.
Definition default_authorization : AuthorizationConfig := {| az_enabled := false; az_default_effect := "deny"; az_policies := [] |}.
Definition authorization_errors (c : AuthorizationConfig) : list string :=
  refused [("default_effect", bool_decide (az_default_effect c ∈ ["allow"; "deny"]))].

(** The models of the headers and of the limits are the records their
    middlewares read ([headers_conf], [pl_conf]). *)
Definition default_headers : headers_conf := {| hc_enabled := true; hc_hsts_max_age := 63072000 |}.
Definition validate_hsts_max_age (v : Z) : bool := negb (between 1 299 v).
Definition headers_errors (c : headers_conf) : list string :=
  refused [("hsts_max_age", between 0 63072000 (hc_hsts_max_age c) && validate_hsts_max_age (hc_hsts_max_age c))].
Definition default_payload_limits : pl_conf := {| pl_enabled := true; max_body_bytes := 1048576; max_json_depth := 20 |}.
Definition payload_limits_errors (c : pl_conf) : list string :=
  refused [("max_body_bytes", between 1024 104857600 (max_body_bytes c)); ("max_json_depth", between 1 100 (max_json_depth c))].

Record SecurityConfig := {
  sc_security_headers : headers_conf; sc_payload_limits : pl_conf; sc_allow_weak_tokens : bool; sc_require_origin : string;
  sc_trusted_proxies : option (list string); sc_redact_status : bool }.
Definition default_security : SecurityConfig :=
  {| sc_security_headers := default_headers; sc_payload_limits := default_payload_limits; sc_allow_weak_tokens := false;
     sc_require_origin := "strict"; sc_trusted_proxies := None; sc_redact_status := false |}.

(** *** Rate limits *)

Definition default_rate_limits : rl_conf :=
  {| rl_enabled := true; rl_requests := 100; rl_window := 60; lockout_threshold := 5; lockout_window := 300; lockout_duration := 900 |}.
Definition route_errors (c : rl_conf) : list string :=
  refused [("requests", between 1 100000 (rl_requests c)); ("window_seconds", between 1 86400 (rl_window c))].
Definition rate_limits_errors (c : rl_conf) : list string :=
  under "default" (route_errors c) ++
  refused [("auth_lockout_threshold", between 1 1000 (lockout_threshold c));
           ("auth_lockout_window_seconds", between 10 86400 (lockout_window c));
           ("auth_lockout_duration_seconds", between 10 86400 (lockout_duration c))].

(** *** Plugins; the timeout of an entry is kept beside it as a number. *)

Record PluginsConfig := { pl_plugins_enabled : bool; pl_entries : list (PluginConfig * Q) }.
Definition default_plugins : PluginsConfig := {| pl_plugins_enabled := true; pl_entries := [] |}.
Definition plugin_errors (e : PluginConfig * Q) : list string :=
  refused [("priority", between 0 10000 (priority e.1)); ("timeout", between_q (1 # 10) 300 e.2)].
(** The errors of the elements of a list, with their positions. *)
Definition list_errors {A} (f : A → list string) (l : list A) : list string :=
  mjoin (imap (λ i x, under (str_of_int (Z.of_nat i)) (f x)) l).
Definition plugins_errors (c : PluginsConfig) : list string := under "entries" (list_errors plugin_errors (pl_entries c)).

(** ** The types of backends, before the models see them *)

Definition _VALID_BACKEND_TYPES : list string := ["stdio"; "sse"; "streamable-http"].
Definition valid_types_text : string := "sse, stdio, streamable-http".
Definition _BACKEND_TYPE_HINTS : odict string string :=
  [("remote", "streamable-http"); ("http", "streamable-http"); ("https", "streamable-http");
   ("streamable_http", "streamable-http"); ("streamablehttp", "streamable-http"); ("server-sent-events", "sse")].

(** [AttributeErrorRaised] is the method [lower] missing on a number or a truth
    value, [TypeErrorRaised] an unhashable value in a set. *)
Inductive check_error := ConfigErrorRaised (msg : string) | AttributeErrorRaised | TypeErrorRaised.

Definition missing_type (name : string) : string :=
  "  • backends → " +:+ name +:+ ": missing required field 'type'. Valid types: " +:+ valid_types_text.
Definition unknown_type (name btype : string) : string :=
  "  • backends → " +:+ name +:+ ": unknown backend type '" +:+ btype +:+ "'. Valid types: " +:+ valid_types_text +:+
  match dget _BACKEND_TYPE_HINTS (str_strip (lower btype)) with
  | Some hint => ". Hint: '" +:+ btype +:+ "' is not an argus-mcp type — did you mean '" +:+ hint +:+ "'?"
  | None => ""
  end.

(** The message for one entry, if it is a bad one. *)
Definition backend_type_error (name : string) (cfg : pyval) : check_error + option string :=
  match cfg with
  | PDict d =>
      match dget d "type" with
      | None | Some PNone => inr (Some (missing_type name))
      | Some (PStr t) => inr (if bool_decide (t ∈ _VALID_BACKEND_TYPES) then None else Some (unknown_type name t))
      | Some (PList _) | Some (PDict _) => inl TypeErrorRaised
      | Some _ => inl AttributeErrorRaised
      end
  | _ => inr None
  end.
Definition _check_backend_types (backends : option pyval) : check_error + () :=
  match backends with
  | Some (PDict bs) =>
      found ← map_each (λ kv : string * pyval, backend_type_error kv.1 kv.2) bs;
      let bad := omap id found in
      if bool_decide (bad = []) then inr tt
      else inl (ConfigErrorRaised ("Configuration validation failed (" +:+ str_of_int (Z.of_nat (length bad)) +:+
                 " error(s)):" +:+ nl +:+ str_join nl bad))
  | _ => inr tt
  end.

Definition drop_none (data : odict string pyval) (key : string) : odict string pyval :=
  match dget data key with Some PNone => ddel data key | _ => data end.
Definition _coerce_none_to_default (data : pyval) : check_error + pyval :=
  match data with
  | PDict d =>
      let d' := foldl drop_none d ["registries"; "backends"] in
      _ ← _check_backend_types (dget d' "backends"); inr (PDict d')
  | _ => inr data
  end.

(** ** The whole configuration *)

Record ArgusConfig := {
  ac_version : string; ac_server : ServerSettings; ac_client : ClientConfig; ac_backends : odict string BackendConfig;
  ac_conflict_resolution : ConflictResolutionConfig; ac_audit : AuditConfig; ac_optimizer : OptimizerConfig;
  ac_telemetry : TelemetrySettings; ac_secrets : SecretsConfig; ac_registries : list RegistryEntryConfig;
  ac_incoming_auth : IncomingAuthConfig; ac_authorization : AuthorizationConfig; ac_session_pool : SessionPoolConfig;
  ac_http_pool : HttpPoolConfig; ac_retry : RetryConfig; ac_sse_resilience : SseResilienceConfig;
  ac_security : SecurityConfig; ac_rate_limits : rl_conf; ac_feature_flags : odict string bool;
  ac_plugins : PluginsConfig; ac_skills : SkillsConfig; ac_workflows : WorkflowsConfig }.
Definition default_config : ArgusConfig :=
  {| ac_version := "1"; ac_server := default_server; ac_client := default_client; ac_backends := [];
     ac_conflict_resolution := default_conflict; ac_audit := default_audit; ac_optimizer := default_optimizer;
     ac_telemetry := default_telemetry; ac_secrets := default_secrets; ac_registries := [];
     ac_incoming_auth := default_incoming_auth; ac_authorization := default_authorization;
     ac_session_pool := default_session_pool; ac_http_pool := default_http_pool; ac_retry := default_retry;
     ac_sse_resilience := default_sse_resilience; ac_security := default_security; ac_rate_limits := default_rate_limits;
     ac_feature_flags := []; ac_plugins := default_plugins; ac_skills := default_skills; ac_workflows := default_workflows |}.

Definition backend_name_ok (name : string) : bool :=
  negb (bool_decide (str_strip name = "")) && bool_decide (str_strip name = name).
Definition _validate_backend_names {A} (v : odict string A) : bool := forallb (λ kv, backend_name_ok kv.1) v.

Section model_validate.
Context (resolve : string → string) (allowed_prefixes : option string) (bracket_ok : string → bool) (ip_class : string → option bool).
(** [ipaddress.ip_network] without strictness and [ipaddress.ip_address]: do
    they accept a text? *)
Context (is_network is_address : string → bool).

Definition validate_trusted_proxies (v : option (list string)) : bool :=
  match v with None => true | Some l => forallb (λ e, is_network e || is_address e) l end.
Definition security_errors (c : SecurityConfig) : list string :=
  under "headers" (headers_errors (sc_security_headers c)) ++ under "payload_limits" (payload_limits_errors (sc_payload_limits c)) ++
  refused [("require_origin", bool_decide (sc_require_origin c ∈ ["strict"; "permissive"]));
           ("trusted_proxies", validate_trusted_proxies (sc_trusted_proxies c))].

Definition check_backend (kv : string * BackendConfig) : string * (string + BackendConfig) :=
  (kv.1, validate_backend resolve allowed_prefixes bracket_ok ip_class kv.2).
Definition failed_backends (bs : odict string BackendConfig) : list string :=
  omap (λ kv, match (check_backend kv).2 with inl _ => Some kv.1 | inr _ => None end) bs.
Definition kept_backends (bs : odict string BackendConfig) : odict string BackendConfig :=
  omap (λ kv, match (check_backend kv).2 with inl _ => None | inr b => Some (kv.1, b) end) bs.
(** The names are looked at once all the backends are models. *)
Definition backends_errors (bs : odict string BackendConfig) : list string :=
  match failed_backends bs with
  | [] => refused [("backends", _validate_backend_names bs)]
  | failed => under "backends" failed
  end.

Definition config_errors (c : ArgusConfig) : list string :=
  under "server" (server_errors (ac_server c)) ++ under "client" (client_errors (ac_client c)) ++
  backends_errors (ac_backends c) ++ under "conflict_resolution" (conflict_errors (ac_conflict_resolution c)) ++
  under "audit" (audit_errors (ac_audit c)) ++ under "registries" (list_errors registry_errors (ac_registries c)) ++
  under "incoming_auth" (incoming_auth_errors (ac_incoming_auth c)) ++
  under "authorization" (authorization_errors (ac_authorization c)) ++
  under "session_pool" (session_pool_errors (ac_session_pool c)) ++ under "http_pool" (http_pool_errors (ac_http_pool c)) ++
  under "retry" (retry_errors (ac_retry c)) ++ under "sse_resilience" (sse_resilience_errors (ac_sse_resilience c)) ++
  under "security" (security_errors (ac_security c)) ++ under "rate_limits" (rate_limits_errors (ac_rate_limits c)) ++
  under "plugins" (plugins_errors (ac_plugins c)).

Definition normal_config (c : ArgusConfig) : ArgusConfig :=
  {| ac_version := ac_version c; ac_server := normal_server (ac_server c); ac_client := ac_client c;
     ac_backends := kept_backends (ac_backends c); ac_conflict_resolution := ac_conflict_resolution c; ac_audit := ac_audit c;
     ac_optimizer := ac_optimizer c; ac_telemetry := ac_telemetry c; ac_secrets := ac_secrets c;
     ac_registries := normal_registry <$> ac_registries c; ac_incoming_auth := ac_incoming_auth c;
     ac_authorization := ac_authorization c; ac_session_pool := ac_session_pool c; ac_http_pool := ac_http_pool c;
     ac_retry := ac_retry c; ac_sse_resilience := ac_sse_resilience c; ac_security := ac_security c;
     ac_rate_limits := ac_rate_limits c; ac_feature_flags := ac_feature_flags c; ac_plugins := ac_plugins c;
     ac_skills := ac_skills c; ac_workflows := ac_workflows c |}.
Definition model_validate (c : ArgusConfig) : list string + ArgusConfig :=
  match config_errors c with [] => inr (normal_config c) | errs => inl errs end.
End model_validate.

(** ** Theorems *)

Lemma refused_nil fields : refused fields = [] ↔ Forall (λ f, f.2 = true) fields.
Proof.
  unfold refused. induction fields as [|[n []] fields IH]; csimpl; [done| |].
  - rewrite IH, Forall_cons. naive_solver.
  - split; [done|]. by intros [? _]%Forall_cons.
Qed.
Lemma under_nil name errs : under name errs = [] ↔ errs = [].
Proof. unfold under. destruct errs; csimpl; naive_solver. Qed.
Lemma imap_join_nil {A} (P : A → Prop) (h : nat → A → list string) l :
  (∀ i x, h i x = [] ↔ P x) → mjoin (imap h l) = [] ↔ Forall P l.
Proof.
  revert h. induction l as [|x l IH]; intros h Hh; [done|]. rewrite imap_cons, Forall_cons.
  change (h 0%nat x ++ mjoin (imap (h ∘ S) l) = [] ↔ P x ∧ Forall P l).
  rewrite <-(Hh 0%nat x), <-(IH (h ∘ S)) by (intros; apply Hh). split; [apply app_nil|by intros [-> ->]].
Qed.
Lemma list_errors_nil {A} (f : A → list string) l : list_errors f l = [] ↔ Forall (λ x, f x = []) l.
Proof. apply (imap_join_nil (λ x, f x = [])). intros. apply under_nil. Qed.

Lemma between_true lo hi v : between lo hi v = true ↔ lo <= v <= hi.
Proof. unfold between. rewrite andb_true_iff, !Z.leb_le. done. Qed.
Lemma between_q_true lo hi v : between_q lo hi v = true ↔ (lo <= v <= hi)%Q.
Proof. unfold between_q. by rewrite andb_true_iff, !Qle_bool_iff. Qed.

(** Take the accepted fields of a section apart. *)
Ltac accepted H :=
  unfold server_errors, management_errors, client_errors, conflict_errors, audit_errors, incoming_auth_errors,
    authorization_errors, session_pool_errors, http_pool_errors, retry_errors, sse_resilience_errors, security_errors,
    headers_errors, payload_limits_errors, rate_limits_errors, route_errors, plugins_errors, registry_errors in H;
  rewrite ?app_nil, ?under_nil, ?refused_nil, ?list_errors_nil in H;
  rewrite ?Forall_cons in H; simpl in H; rewrite ?andb_true_iff, ?between_true, ?between_q_true, ?bool_decide_eq_true in H;
  destruct_and? H.

Section theorems.
Context (resolve : string → string) (allowed_prefixes : option string) (bracket_ok : string → bool) (ip_class : string → option bool).
Context (is_network is_address : string → bool).
Local Abbreviation valid := (model_validate resolve allowed_prefixes bracket_ok ip_class is_network is_address).
Local Abbreviation errors := (config_errors resolve allowed_prefixes bracket_ok ip_class is_network is_address).
Local Abbreviation backend_ok := (validate_backend resolve allowed_prefixes bracket_ok ip_class).
Local Abbreviation kept := (kept_backends resolve allowed_prefixes bracket_ok ip_class).

Lemma model_validate_inr c c' :
  valid c = inr c' ↔ errors c = [] ∧ c' = normal_config resolve allowed_prefixes bracket_ok ip_class c.
Proof. unfold model_validate. destruct (errors c); naive_solver. Qed.

(** *** Accepting twice *)

Lemma normalise_transport_idemp v : _normalise_transport (_normalise_transport v) = _normalise_transport v.
Proof. unfold _normalise_transport at 2 3. case_bool_decide as H; [done|]. unfold _normalise_transport. by rewrite bool_decide_false. Qed.
Lemma registry_url_again v u : registry_url v = Some u → registry_url u = Some u ∧ u ≠ "".
Proof.
  unfold registry_url. destruct (_ || _) eqn:E; [|done]. intros [= <-]. rewrite str_strip_idemp, E. split; [done|].
  intros Hu. rewrite Hu in E. by vm_compute in E.
Qed.

(** When no backend fails, the kept ones are their results, in order. *)
Lemma kept_all bs : failed_backends resolve allowed_prefixes bracket_ok ip_class bs = [] ↔
  Forall2 (λ kv kv', kv'.1 = kv.1 ∧ backend_ok kv.2 = inr kv'.2) bs (kept bs).
Proof.
  unfold failed_backends, kept_backends, check_backend. induction bs as [|[k b] bs IH]; csimpl; [done|].
  destruct (backend_ok b) as [e|b'] eqn:Eb; csimpl.
  - split; [done|]. intros (x & l & [_ Hx] & _ & _)%Forall2_cons_inv_l. simpl in Hx. congruence.
  - rewrite IH, Forall2_cons. simpl. split; [done|by intros [_ ?]].
Qed.
Lemma kept_names bs : failed_backends resolve allowed_prefixes bracket_ok ip_class bs = [] → dkeys (kept bs) = dkeys bs.
Proof. rewrite kept_all. unfold dkeys. induction 1 as [|x y l l' [Hk _] _ IH]; csimpl; [done|]. by rewrite Hk, IH. Qed.
Lemma kept_again bs : failed_backends resolve allowed_prefixes bracket_ok ip_class bs = [] →
  Forall (λ kv, blank_stdio kv.2 = false) (kept bs) →
  failed_backends resolve allowed_prefixes bracket_ok ip_class (kept bs) = [] ∧ kept (kept bs) = kept bs.
Proof.
  rewrite kept_all. intros H. induction H as [|[k b] [k' b'] l l' [Hk Hb] _ IH]; [done|].
  intros [Hblank Hrest]%Forall_cons. destruct (IH Hrest) as [IH1 IH2].
  assert (Hb' := validation_idempotent resolve allowed_prefixes bracket_ok ip_class b b' Hb). simpl in Hblank. rewrite Hblank in Hb'.
  unfold failed_backends, kept_backends, check_backend in *. csimpl in *. rewrite Hb'. split; [done|]. by f_equal.
Qed.
Lemma names_again {A B} (d : odict string A) (d' : odict string B) :
  dkeys d' = dkeys d → _validate_backend_names d' = _validate_backend_names d.
Proof.
  unfold _validate_backend_names, dkeys. revert d'. induction d as [|x d IH]; intros [|y d'] H; try done.
  csimpl in *. injection H as Hk H. by rewrite Hk, (IH d').
Qed.
Lemma backends_errors_nil bs : backends_errors resolve allowed_prefixes bracket_ok ip_class bs = [] ↔
  failed_backends resolve allowed_prefixes bracket_ok ip_class bs = [] ∧ _validate_backend_names bs = true.
Proof.
  unfold backends_errors. destruct (failed_backends _ _ _ _ bs) as [|x l].
  - rewrite refused_nil, Forall_cons. simpl. split; [by intros [? _]|by intros [_ ?]].
  - rewrite under_nil. by split; [|intros [? _]].
Qed.

Lemma normal_server_errors c : server_errors c = [] → server_errors (normal_server c) = [].
Proof. unfold server_errors. cbn. by rewrite normalise_transport_idemp. Qed.
Lemma normal_server_idemp c : normal_server (normal_server c) = normal_server c.
Proof. unfold normal_server. cbn. by rewrite normalise_transport_idemp. Qed.
Lemma normal_registry_again c : registry_errors c = [] →
  registry_errors (normal_registry c) = [] ∧ normal_registry (normal_registry c) = normal_registry c.
Proof.
  intros H. accepted H. destruct (registry_url (rg_url c)) as [u|] eqn:Eu; [|by destruct_and? H; inversion select (is_Some None)].
  apply registry_url_again in Eu as Eu'. destruct Eu' as [Hu Hne].
  unfold registry_errors, normal_registry. rewrite Eu. cbn. rewrite Hu. split; [|done].
  apply refused_nil. repeat (constructor; [cbn; try done; try by apply bool_decide_eq_true|]); [|constructor].
  unfold min_length_1. by rewrite (bool_decide_false (u = "")).
Qed.

(** Accepting is idempotent.  A configuration that was accepted is accepted
    again and unchanged, as an exported one is when it is read back, unless it
    holds a process backend whose command is blank. *)
Theorem accepted_config_fixed c c' :
  valid c = inr c' → Forall (λ kv, blank_stdio kv.2 = false) (ac_backends c') → valid c' = inr c'.
Proof.
  intros [He ->]%model_validate_inr Hb. apply model_validate_inr. unfold config_errors in *. cbn in *.
  rewrite !app_nil, !under_nil, list_errors_nil, backends_errors_nil in *. destruct_and! He.
  destruct (kept_again (ac_backends c)) as [Hk1 Hk2]; [done|done|].
  assert (Hr : Forall (λ x, registry_errors x = []) (normal_registry <$> ac_registries c) ∧
    normal_registry <$> (normal_registry <$> ac_registries c) = normal_registry <$> ac_registries c).
  { rewrite Forall_fmap. split; [eapply Forall_impl; [done|]; intros x Hx; by apply normal_registry_again|].
    rewrite <-list_fmap_compose. apply Forall_fmap_ext. eapply Forall_impl; [done|]. intros x Hx. by apply normal_registry_again. }
  destruct Hr as [Hr1 Hr2]. split.
  - split_and!; try done; [by apply normal_server_errors| |by apply list_errors_nil].
    by rewrite (names_again (ac_backends c)) by by apply kept_names.
  - symmetry. unfold normal_config at 1. cbn [ac_server ac_backends ac_registries normal_config]. by rewrite normal_server_idemp, Hk2, Hr2.
Qed.
End theorems.

(** *** What an accepted configuration gives its components *)

(** The retry manager with the settings of the section of the same names. *)
Definition retry_manager (c : RetryConfig) : RetryManager :=
  {| _max_retries := re_max_retries c; _base_delay := re_base_delay c; _backoff_factor := re_backoff_factor c;
     _max_delay := re_max_delay c; _jitter := re_jitter c |}.

(** The waits of a manager with an accepted section, whatever the server asks for. *)
Lemma accepted_waits c parse_float uniform attempt after :
  retry_errors c = [] → (∀ a, -(1) <= uniform a <= 1)%Q →
  (0 < _wait uniform (retry_manager c) attempt (_parse_retry_after parse_float after) <= 600)%Q.
Proof.
  intros H Hu. accepted H. destruct (wait_bounds uniform (retry_manager c) attempt (_parse_retry_after parse_float after)) as [Hl Hh];
    cbn in *; try lra; [done|]. split; [done|]. eapply Qle_trans; [exact Hh|]. apply Q.max_lub; [lra|]. nra.
Qed.

(** Over any sequence of requests a limiter with an accepted section lets no
    address through more often than the section says. *)
Lemma accepted_limiter c {C1 C2 C3} `{TTLCache C1 (list Z), TTLCache C2 (list Z), TTLCache C3 ()}
    (laws : TTLCacheLaws C1 (list Z) (rl_window c * 2)) (st : limiter (C1 := C1) (C2 := C2) (C3 := C3)) rqs t0 ip t :
  rate_limits_errors c = [] → (∀ ip t', tget (_request_log st) t' ip = None) → StronglySorted Z.le (t0 :: (rq_now <$> rqs)) →
  Z.of_nat (length (in_window c t (times_of ip (run c rqs st []).2))) <= rl_requests c.
Proof.
  intros Ha He Hs. accepted Ha. destruct (run_inv c laws ltac:(lia) rqs t0 st [] Hs) as [t' [_ _ Hb]]; [by apply empty_inv|].
  specialize (Hb ip t). lia.
Qed.

Lemma known_algorithm alg : algorithm_ok alg = true → alg ∈ SUPPORTED_ALGORITHMS ++ HMAC_ALGORITHMS.
Proof. unfold algorithm_ok. by rewrite andb_true_iff, bool_decide_eq_true; intros [_ ?]. Qed.

Lemma valid_names_spec {A} (d : odict string A) : _validate_backend_names d = true →
  ∀ k, k ∈ dkeys d → k ≠ "" ∧ str_strip k = k.
Proof.
  unfold _validate_backend_names, dkeys. rewrite forallb_forall. intros H k ([k' v] & -> & Hin)%list_elem_of_fmap.
  apply list_elem_of_In, H in Hin. unfold backend_name_ok in Hin. simpl in *. rewrite andb_true_iff, negb_true_iff in Hin.
  destruct Hin as [H1 H2]. rewrite bool_decide_eq_true in H2. rewrite bool_decide_eq_false in H1. by rewrite H2 in H1.
Qed.



(** *** Types of backends *)

Definition typed (cfg : pyval) : Prop :=
  ∀ d, cfg = PDict d → ∃ t, dget d "type" = Some (PStr t) ∧ t ∈ _VALID_BACKEND_TYPES.

Lemma backend_type_error_none name cfg : backend_type_error name cfg = inr None ↔ typed cfg.
Proof.
  unfold typed, backend_type_error. destruct cfg as [| | | | |d]; try (by split; [intros _ ? [=]|]).
  destruct (dget d "type") as [v|] eqn:E.
  - destruct v as [| | |t| |]; try (split; [done|intros H; destruct (H d eq_refl) as (t' & Ht & _); congruence]).
    case_bool_decide as Hb; split; try done; [intros _ d' [= <-]; eauto|]. intros H. destruct (H d eq_refl) as (t' & Ht & Hv). congruence.
  - split; [done|]. intros H. destruct (H d eq_refl) as (t' & Ht & _). congruence.
Qed.

(** The check passes exactly the sections in which every entry that is a
    mapping has one of the types; an entry of another shape is left to the
    model. *)
Theorem check_backend_types_exact bs :
  _check_backend_types (Some (PDict bs)) = inr tt ↔ Forall (λ kv : string * pyval, typed kv.2) bs.
Proof.
  unfold _check_backend_types. rewrite sum_bind_inr. split.
  - intros (found & Hf & Hb). apply map_each_inr in Hf. case_bool_decide as He; [|done].
    eapply Forall2_Forall_l; [exact Hf|]. clear Hf Hb.
    induction found as [|[x|] found IH]; [constructor|done|]. csimpl in He. constructor; [|by apply IH].
    intros [k cfg] Hx. by apply (backend_type_error_none k).
  - intros H. exists (replicate (length bs) None). split.
    + apply map_each_inr. induction H as [|[k cfg] bs Hc _ IH]; csimpl; constructor; [by apply backend_type_error_none|done].
    + assert (omap id (replicate (length bs) (@None string)) = []) as ->; [|done]. clear H. by induction bs.
Qed.

(** A type that is a number makes the check fail with an exception its callers
    do not handle. *)
Example numeric_type_escapes :
  _check_backend_types (Some (PDict [("a", PDict [("type", PInt 5)])])) = inl AttributeErrorRaised ∧
  _check_backend_types (Some (PDict [("a", PDict [("type", PList [])])])) = inl TypeErrorRaised.
Proof. split; reflexivity. Qed.

Example hint_for_http :
  backend_type_error "a" (PDict [("type", PStr " HTTP")]) = inr (Some
    "  • backends → a: unknown backend type ' HTTP'. Valid types: sse, stdio, streamable-http. Hint: ' HTTP' is not an argus-mcp type — did you mean 'streamable-http'?").
Proof. reflexivity. Qed.
