(* ===== verification/App.v ===== *)
(** * The application of the server (server/app.py)

    The layers around the endpoints, as [create_app] stacks them: security
    headers, payload limits, rate limits, origin check, the middleware for the
    bare protocol path, and the router with its endpoints.  The layers are the
    definitions of HttpEdge.v, PayloadLimits.v, RateLimit.v and Transport.v, built
    with the default sections of ServerConfig.v; here they are composed as ASGI
    applications.

    An application takes the scope and the incoming messages and sends messages;
    it may raise after having sent some.  While it waits other requests are
    served, so what it awaits may change the whole state. *)
From S2P Require Import Prelude PyDict Effects PyStr Url Registry Auth Chain Session.
From S2P Require Import RateLimit PayloadLimits HttpEdge Transport ServerConfig.

(** ** Requests and applications *)

Record request := {
  req_type : string; req_method : option string; req_path : option string; req_headers : list (string * string);
  req_scheme : option string; req_client : option string }.
Definition incoming : Type := nat → PayloadLimits.asgi_message.

(** The scope as each layer reads it. *)
Definition edge_scope (r : request) : HttpEdge.http_scope :=
  {| sc_type := req_type r; sc_path := req_path r; HttpEdge.sc_headers := req_headers r; sc_scheme := req_scheme r |}.
Definition transport_scope (r : request) : scope := {| Transport.sc_headers := req_headers r; sc_client := req_client r |}.
Definition is_http (r : request) : bool := bool_decide (req_type r = "http").

Definition _is_json_content (r : request) : bool :=
  match first_header "content-type" (req_headers r) with Some v => contains (lower v) "json" | None => false end.
Definition payload_scope (r : request) : PayloadLimits.http_scope :=
  {| sc_http := is_http r; sc_method := upper (default "GET" (req_method r)); sc_json := _is_json_content r |}.

Inductive app_exn :=
  | AuthRaised (e : auth_error) | SseFailed (e : sse_exn) | CompareTypeError | NoneNotCallable | EndpointRaised (msg : string).
(** [StillReading]: the body loop has not ended within the fuel. *)
Inductive ending := Returned | Raised (e : app_exn) | StillReading.

(** ** Routes *)

Inductive endpoint := WellKnown | SseEndpoint | PostMessages | StreamableHttpEndpoint | ManagementApi.
Inductive route := Route (path : string) (e : endpoint) | Mount (path : string) (e : endpoint).

Definition SSE_PATH : string := "/sse".
Definition POST_MESSAGES_PATH : string := "/messages/".
Definition STREAMABLE_HTTP_PATH : string := "/mcp".
Definition MANAGEMENT_API_PREFIX : string := "/manage/v1".
Definition WELL_KNOWN_OAUTH_RESOURCE_PATH : string := "/.well-known/oauth-protected-resource".
Definition app_routes : list route :=
  [Route WELL_KNOWN_OAUTH_RESOURCE_PATH WellKnown; Route SSE_PATH SseEndpoint; Mount POST_MESSAGES_PATH PostMessages;
   Mount STREAMABLE_HTTP_PATH StreamableHttpEndpoint; Mount MANAGEMENT_API_PREFIX ManagementApi].
Definition _ALLOWED_METHODS : list string := ["GET"; "POST"; "DELETE"].

(** What a route says about the path of the requests it serves. *)
Definition route_endpoint (rt : route) : endpoint := match rt with Route _ e | Mount _ e => e end.
Definition route_covers (rt : route) (path : string) : bool :=
  match rt with
  | Route p _ => bool_decide (path = p)
  | Mount p _ => startswith path (rstrip_by (is_char 47) p +:+ "/")
  end.

Section app.
Context {C1 C2 C3 W : Type} `{TTLCache C1 (list Z), TTLCache C2 (list Z), TTLCache C3 ()}.

Record app_state := { st_limiter : limiter (C1 := C1) (C2 := C2) (C3 := C3); st_sse : sse_server; st_world : W }.
Definition set_limiter (l : limiter) (st : app_state) : app_state :=
  {| st_limiter := l; st_sse := st_sse st; st_world := st_world st |}.
Definition set_sse (s : sse_server) (st : app_state) : app_state :=
  {| st_limiter := st_limiter st; st_sse := s; st_world := st_world st |}.

Record outcome := { sent : list HttpEdge.asgi_message; ended : ending; after : app_state }.
Definition asgi : Type := request → incoming → app_state → outcome.

(** The applications of the SDK and of the management API, and what the router
    answers itself.  Those behind the gate see the context variables it set. *)
Record endpoints := {
  ep_streamable : context_vars → asgi;                              (* [session_manager.handle_request] *)
  ep_sse : context_vars → option MCPSession → asgi;                 (* [connect_sse] and [mcp_server.run] *)
  ep_messages : asgi;                                               (* [sse_transport.handle_post_message] *)
  ep_management : asgi;
  ep_router : asgi }.

(** The clock, the identifier of a new session, whether the clean-up of a
    connection is over its deadline, whether the session manager of the SDK is
    set, and the host of the request URL. *)
Context (clock : app_state → Z) (fresh_id : app_state → string) (overdue : app_state → bool) (sdk_ready : app_state → bool)
  (netloc : request → string).
(** Starlette: its responses as the messages they send, and its router. *)
Context (JSONResponse : Z → odict string pyval → list (string * string) → list HttpEdge.asgi_message)
  (Response : Z → string → list (string * string) → list HttpEdge.asgi_message)
  (router : list route → request → option (endpoint * request)).
Context (json_loads : string → option pyval) (bracket_ok : string → bool) (validate : JWTConfig → string → string + TokenClaims).
(** The environment and the module variables the application was built with. *)
Context (allowed_origins : option string) (mgmt_token : option string) (g : transport_module) (fuel : nat).

Definition respond (ms : list HttpEdge.asgi_message) (st : app_state) : outcome := {| sent := ms; ended := Returned; after := st |}.
Definition fail_with (e : app_exn) (st : app_state) : outcome := {| sent := []; ended := Raised e; after := st |}.

(** ** Endpoints *)

Definition http_answer (r : http_response) (st : app_state) : outcome :=
  respond (Response (rs_status r) (rs_content r) (rs_headers r)) st.

Definition streamable_app (E : endpoints) : asgi := λ r rcv st,
  match handle_streamable_http validate g (sdk_ready st) (transport_scope r) fresh_vars with
  | (inl e, _) => fail_with (AuthRaised e) st
  | (inr (Answered resp), _) => http_answer resp st
  | (inr Delegated, v) => ep_streamable E v r rcv st
  end.
Definition _streamable_http_app (E : endpoints) : asgi := λ r rcv st,
  if is_http r && negb (bool_decide (default "GET" (req_method r) ∈ _ALLOWED_METHODS))
  then respond (Response 405 "Method Not Allowed" []) st
  else streamable_app E r rcv st.

(** [handle_sse] under the wrapper of a [Route]: the value it returns is called
    as a response, and it returns none after a connection. *)
Definition sse_app (E : endpoints) : asgi := λ r rcv st,
  match sse_open validate g (transport_scope r) (clock st) (fresh_id st) fresh_vars (st_sse st) with
  | (inl e, _, sv) => fail_with (SseFailed e) (set_sse sv st)
  | (inr (SseAnswered resp), _, sv) => http_answer resp (set_sse sv st)
  | (inr (SseConnected session), v, sv) =>
      let o := ep_sse E v session r rcv (set_sse sv st) in
      match ended o with
      | Returned =>
          let cleaned := (sse_serve session (mret ()) (overdue (after o)) (st_sse (after o))).2 in
          {| sent := sent o; ended := Raised NoneNotCallable; after := set_sse cleaned (after o) |}
      | _ => o
      end
  end.

Definition well_known_app : asgi := λ r rcv st,
  let '(status, content) := handle_well_known_oauth_resource g (default "http" (req_scheme r)) (netloc r) in
  respond (JSONResponse status content []) st.

Definition unauthorized_body (message : string) : odict string pyval := [("error", PStr "unauthorized"); ("message", PStr message)].
Definition bearer_app (E : endpoints) : asgi := λ r rcv st,
  match BearerAuthMiddleware mgmt_token (edge_scope r) with
  | Pass => ep_management E r rcv st
  | Deny status message => respond (JSONResponse status (unauthorized_body message) [("WWW-Authenticate", "Bearer")]) st
  | Crash => fail_with CompareTypeError st
  end.

Definition router_app (E : endpoints) : asgi := λ r rcv st,
  match router app_routes r with
  | None => ep_router E r rcv st
  | Some (WellKnown, r') => well_known_app r' rcv st
  | Some (SseEndpoint, r') => sse_app E r' rcv st
  | Some (PostMessages, r') => ep_messages E r' rcv st
  | Some (StreamableHttpEndpoint, r') => _streamable_http_app E r' rcv st
  | Some (ManagementApi, r') => bearer_app E r' rcv st
  end.

(** ** Layers *)

Definition _MCPSlashMiddleware (mcp_path : string) (mcp_handler app : asgi) : asgi := λ r rcv st,
  if is_http r && bool_decide (default "" (req_path r) = mcp_path) then mcp_handler r rcv st else app r rcv st.

Definition origin_layer (c : origin_conf) (app : asgi) : asgi := λ r rcv st,
  match OriginValidationMiddleware bracket_ok c (edge_scope r) with
  | Pass => app r rcv st
  | Deny status message => respond (JSONResponse status [("error", PStr "forbidden"); ("message", PStr message)] []) st
  | Crash => fail_with CompareTypeError st
  end.

Definition too_many_answer (message : string) (retry_after : Z) : list HttpEdge.asgi_message :=
  JSONResponse 429 [("error", PStr "too_many_requests"); ("message", PStr message)] [("Retry-After", str_of_int retry_after)].
(** The status of the first response start, as the wrapper captures it. *)
Fixpoint captured_status (ms : list HttpEdge.asgi_message) : option Z :=
  match ms with [] => None | ResponseStart s _ :: _ => Some s | _ :: ms' => captured_status ms' end.
(** No proxy is trusted, so the address is that of the peer. *)
Definition client_ip (r : request) : string :=
  _get_client_ip (Addr := ()) (λ _, None) (λ _, false) false (req_client r) (req_headers r).
Definition rate_layer (c : rl_conf) (app : asgi) : asgi := λ r rcv st,
  if negb (is_http r) || negb (rl_enabled c) then app r rcv st
  else
    let now := clock st in
    let ip := client_ip r in
    if _is_locked_out ip now (st_limiter st)
    then respond (too_many_answer "Too many authentication failures. Try again later." (lockout_duration c)) st
    else
      let '(ok, l) := _check_rate_limit c ip now (st_limiter st) in
      if negb ok then respond (too_many_answer "Rate limit exceeded." (rl_window c)) (set_limiter l st)
      else
        let o := app r rcv (set_limiter l st) in
        match ended o, captured_status (sent o) with
        | Returned, Some s =>
            if bool_decide (s ∈ [401; 403])
            then {| sent := sent o; ended := Returned;
                    after := set_limiter (_record_auth_failure c ip now (clock (after o)) (st_limiter (after o))) (after o) |}
            else o
        | _, _ => o
        end.

(** The messages the application receives after a replayed body. *)
Definition replay (body : string) (next : nat) (rcv : incoming) : incoming := λ i,
  match i with O => HttpRequest body false | S i' => rcv (next + i')%nat end.
Definition payload_layer (c : pl_conf) (app : asgi) : asgi := λ r rcv st,
  match payload_call json_loads fuel c (payload_scope r) rcv with
  | None => {| sent := []; ended := StillReading; after := st |}
  | Some PassThrough => app r rcv st
  | Some (Replay body next) => app r (replay body next rcv) st
  | Some Status413 => respond (JSONResponse 413 [("error", PStr "payload_too_large");
      ("message", PStr ("Request body exceeds " +:+ str_of_int (max_body_bytes c) +:+ " byte limit."))] []) st
  | Some Status400 => respond (JSONResponse 400 [("error", PStr "bad_request");
      ("message", PStr ("JSON nesting depth exceeds " +:+ str_of_int (max_json_depth c) +:+ " level limit."))] []) st
  end.

Definition headers_layer (c : headers_conf) (app : asgi) : asgi := λ r rcv st,
  let o := app r rcv st in
  {| sent := SecurityHeadersMiddleware c (edge_scope r) (sent o); ended := ended o; after := after o |}.

(** Each [add_middleware] wraps what was added before it. *)
Definition create_app (E : endpoints) : asgi :=
  headers_layer default_headers
    (payload_layer default_payload_limits
      (rate_layer default_rate_limits
        (origin_layer (new_origin_conf default_require_origin allowed_origins)
          (_MCPSlashMiddleware STREAMABLE_HTTP_PATH (_streamable_http_app E) (router_app E))))).

(** ** Theorems *)

(** What the router promises: it serves a request with the first route that
    covers its path, and hands its headers and its client on. *)
Definition router_ok : Prop := ∀ r e r', router app_routes r = Some (e, r') →
  ∃ rt, rt ∈ app_routes ∧ route_endpoint rt = e ∧ route_covers rt (default "" (req_path r)) = true ∧
    req_headers r' = req_headers r ∧ req_client r' = req_client r ∧ req_type r' = req_type r.

Definition origin_allowed (r : request) : Prop := ∃ o, first_header "origin" (req_headers r) = Some o ∧ o ≠ "" ∧
  (_is_localhost_origin bracket_ok (lower o) = true ∨ "*" ∈ _parse_allowed_origins allowed_origins ∨
   lower o ∈ _parse_allowed_origins allowed_origins).
Definition gate_passed (r : request) : Prop := ∀ p, _incoming_auth_provider g = Some p →
  ∃ u, authenticate validate p (_extract_bearer_token (transport_scope r)) = inr u.
Definition token_shown (r : request) : Prop := ∀ t, mgmt_token = Some t → bearer_of (edge_scope r) = Some ("Bearer " +:+ t).

Lemma origin_pass r :
  OriginValidationMiddleware bracket_ok (new_origin_conf default_require_origin allowed_origins) (edge_scope r) = Pass →
  is_http r = true → is_mcp_path (default "/" (req_path r)) = true → origin_allowed r.
Proof.
  intros Hm Hh Hp. unfold OriginValidationMiddleware, is_http, path_of in *. cbn [edge_scope sc_type sc_path HttpEdge.sc_headers] in *.
  rewrite Hh, Hp in Hm. cbn [negb] in Hm. unfold origin_allowed.
  destruct (first_header "origin" (req_headers r)) as [o|]; cbn [str_truthy] in Hm; [|done].
  destruct (bool_decide (o = "")) eqn:Eo; cbn [negb default from_option id] in Hm; [done|]. apply bool_decide_eq_false in Eo.
  exists o. split_and!; [done|done|].
  destruct (_is_localhost_origin bracket_ok (lower o)); [by left|]. right.
  clear Hh. case_bool_decide; [by left|]. right. by case_bool_decide.
Qed.

Lemma gate_pass s v0 v : gate validate g s v0 = (inr None, v) →
  ∀ p, _incoming_auth_provider g = Some p → ∃ u, authenticate validate p (_extract_bearer_token s) = inr u.
Proof.
  intros Hm p Hp. unfold gate, _authenticate_request in Hm. rewrite Hp in Hm. unfold_M.
  destruct (authenticate validate p (_extract_bearer_token s)) as [e|u]; [|by exists u].
  by destruct e.
Qed.

Lemma bearer_pass r : BearerAuthMiddleware mgmt_token (edge_scope r) = Pass → is_http r = true →
  is_public (edge_scope r) = true ∨ token_shown r.
Proof.
  unfold BearerAuthMiddleware, is_http, token_shown, bearer_of. cbn [edge_scope sc_type]. intros Hm Hh. rewrite Hh in Hm. cbn [negb] in Hm.
  destruct (is_public (edge_scope r)); [by left|]. right. intros t ->.
  destruct (first_header "authorization" (HttpEdge.sc_headers (edge_scope r))) as [a|]; cbn [default from_option id] in Hm; [|done].
  destruct (startswith a "Bearer ") eqn:Ea; cbn [negb] in Hm; [|done].
  destruct (compare_digest _ t) as [[]|] eqn:Ec; try done. apply compare_digest_true in Ec. by rewrite (bearer_header a t Ea Ec).
Qed.

Lemma startswith_cut s p q : startswith s (p +:+ q) = true → startswith s p = true.
Proof. rewrite !startswith_app. intros [r ->]. exists (q +:+ r). by rewrite string_app_assoc. Qed.

Lemma covered_is_mcp rt path : rt ∈ app_routes → route_covers rt path = true →
  route_endpoint rt ∈ [SseEndpoint; PostMessages; StreamableHttpEndpoint] → is_mcp_path path = true.
Proof.
  intros Hrt Hc He. unfold app_routes in Hrt. rewrite !elem_of_cons, elem_of_nil in Hrt.
  unfold is_mcp_path, _MCP_PATH_PREFIXES. cbn [existsb].
  apply list_elem_of_In in He. destruct Hrt as [->|[->|[->|[->|[->|[]]]]]]; cbn in He, Hc; try (by destruct He as [?|[?|[?|[]]]]).
  - by apply bool_decide_eq_true in Hc as ->.
  - change (startswith path ("/messages" +:+ "/") = true) in Hc. apply startswith_cut in Hc. by rewrite Hc, !orb_true_r.
  - change (startswith path ("/mcp" +:+ "/") = true) in Hc. apply startswith_cut in Hc. by rewrite Hc.
Qed.

(** An endpoint that makes a difference was reached. *)
Lemma streamable_reached E E' r rcv st :
  _streamable_http_app E r rcv st ≠ _streamable_http_app E' r rcv st → is_http r = true →
  gate_passed r ∧ default "GET" (req_method r) ∈ _ALLOWED_METHODS.
Proof.
  unfold _streamable_http_app, streamable_app, handle_streamable_http. intros Hne Hh. rewrite Hh in Hne. cbn [andb] in Hne.
  destruct (bool_decide (default "GET" (req_method r) ∈ _ALLOWED_METHODS)) eqn:Em; cbn [negb] in Hne; [|done].
  apply bool_decide_eq_true in Em. split; [|done]. destruct (sdk_ready st); cbn [negb] in Hne; [|done].
  rewrite run_bind in Hne. destruct (gate validate g (transport_scope r) fresh_vars) as [[e|[resp|]] v] eqn:Eg; [done..|].
  exact (gate_pass _ _ _ Eg).
Qed.
Lemma sse_reached E E' r rcv st : sse_app E r rcv st ≠ sse_app E' r rcv st → gate_passed r.
Proof.
  unfold sse_app, sse_open. intros Hne.
  destruct (gate validate g (transport_scope r) fresh_vars) as [[e|[resp|]] v] eqn:Eg; [done..|]. exact (gate_pass _ _ _ Eg).
Qed.

Definition same_but_mcp (E E' : endpoints) : Prop := ep_management E = ep_management E' ∧ ep_router E = ep_router E'.
Definition same_but_management (E E' : endpoints) : Prop :=
  ep_streamable E = ep_streamable E' ∧ ep_sse E = ep_sse E' ∧ ep_messages E = ep_messages E' ∧ ep_router E = ep_router E'.

Local Abbreviation inner E := (_MCPSlashMiddleware STREAMABLE_HTTP_PATH (_streamable_http_app E) (router_app E)) (only parsing).

Lemma gate_passed_ext r r' : req_headers r' = req_headers r → req_client r' = req_client r → gate_passed r' → gate_passed r.
Proof. unfold gate_passed, transport_scope. by intros -> ->. Qed.

Lemma mcp_reached E E' r rcv st :
  router_ok → same_but_mcp E E' → is_http r = true → inner E r rcv st ≠ inner E' r rcv st →
  is_mcp_path (default "/" (req_path r)) = true ∧ (gate_passed r ∨ startswith (default "" (req_path r)) POST_MESSAGES_PATH = true).
Proof.
  intros Hok [Hmg Hrt] Hh Hne. unfold _MCPSlashMiddleware in Hne. rewrite Hh in Hne. cbn [andb] in Hne. case_bool_decide as Hp.
  - apply streamable_reached in Hne as [Hg _]; [|done]. split; [|by left]. destruct (req_path r) as [p|]; simpl in *; subst; done.
  - unfold router_app in Hne. destruct (router app_routes r) as [[e r']|] eqn:Er; [|by rewrite Hrt in Hne].
    destruct (Hok _ _ _ Er) as (rt & Hin & He & Hc & Hhd & Hcl & Hty).
    assert (Hpath : e ∈ [SseEndpoint; PostMessages; StreamableHttpEndpoint] → is_mcp_path (default "/" (req_path r)) = true).
    { intros Hm. assert (Hx := covered_is_mcp rt (default "" (req_path r)) Hin Hc). rewrite He in Hx. specialize (Hx Hm).
      destruct (req_path r); simpl in *; [done|by vm_compute in Hx]. }
    destruct e; simpl in Hne; try done.
    + split; [apply Hpath; rewrite !elem_of_cons; auto|]. left. eapply gate_passed_ext; [done..|]. by eapply sse_reached.
    + split; [apply Hpath; rewrite !elem_of_cons; auto|]. right. unfold app_routes in Hin. rewrite !elem_of_cons, elem_of_nil in Hin.
      by destruct Hin as [->|[->|[->|[->|[->|[]]]]]].
    + split; [apply Hpath; rewrite !elem_of_cons; auto|]. left. eapply gate_passed_ext; [done..|].
      apply streamable_reached in Hne as [? _]; [done|]. unfold is_http in *. by rewrite Hty.
    + unfold bearer_app in Hne. by rewrite Hmg in Hne.
Qed.

Lemma management_reached E E' r rcv st :
  router_ok → same_but_management E E' → is_http r = true → inner E r rcv st ≠ inner E' r rcv st →
  ∃ r', router app_routes r = Some (ManagementApi, r') ∧ (is_public (edge_scope r') = true ∨ token_shown r).
Proof.
  intros Hok (Hs & He & Hmsg & Hrt) Hh Hne. unfold _MCPSlashMiddleware in Hne. rewrite Hh in Hne. cbn [andb] in Hne.
  assert (Hsa : ∀ r rcv st, _streamable_http_app E r rcv st = _streamable_http_app E' r rcv st).
  { intros. unfold _streamable_http_app, streamable_app. by rewrite Hs. }
  case_bool_decide as Hp; [by rewrite Hsa in Hne|].
  unfold router_app in Hne. destruct (router app_routes r) as [[e r']|] eqn:Er; [|by rewrite Hrt in Hne].
  destruct (Hok _ _ _ Er) as (rt & Hin & _ & _ & Hhd & _ & Hty).
  destruct e; [done|unfold sse_app in Hne; by rewrite He in Hne|by rewrite Hmsg in Hne|by rewrite Hsa in Hne|].
  exists r'. split; [done|]. unfold bearer_app in Hne.
  destruct (BearerAuthMiddleware mgmt_token (edge_scope r')) eqn:Eb; [|done..].
  apply bearer_pass in Eb; [|unfold is_http in *; by rewrite Hty].
  destruct Eb as [?|Ht]; [by left|right]. unfold token_shown, bearer_of, edge_scope in *. cbn in *. by rewrite <-Hhd.
Qed.

(** *** Through the layers *)

Lemma origin_reached c (app app' : asgi) r rcv st :
  origin_layer c app r rcv st ≠ origin_layer c app' r rcv st →
  OriginValidationMiddleware bracket_ok c (edge_scope r) = Pass ∧ app r rcv st ≠ app' r rcv st.
Proof. unfold origin_layer. by destruct (OriginValidationMiddleware _ _ _). Qed.

Lemma rate_reached c (app app' : asgi) r rcv st :
  rate_layer c app r rcv st ≠ rate_layer c app' r rcv st → is_http r = true → rl_enabled c = true →
  _is_locked_out (client_ip r) (clock st) (st_limiter st) = false ∧
  (_check_rate_limit c (client_ip r) (clock st) (st_limiter st)).1 = true ∧
  ∃ st', app r rcv st' ≠ app' r rcv st'.
Proof.
  unfold rate_layer. intros Hne Hh He. rewrite Hh, He in Hne. cbn [negb orb] in Hne.
  destruct (_is_locked_out _ _ _); [done|]. split; [done|].
  destruct (_check_rate_limit _ _ _ _) as [[] l]; cbn [negb] in Hne; [|done]. split; [done|].
  exists (set_limiter l st). intros Heq. by rewrite Heq in Hne.
Qed.

(** The body the inner application reads. *)
Definition body_admitted (c : pl_conf) (r : request) (rcv rcv' : incoming) : Prop :=
  (payload_call json_loads fuel c (payload_scope r) rcv = Some PassThrough ∧ rcv' = rcv) ∨
  (∃ body next, payload_call json_loads fuel c (payload_scope r) rcv = Some (Replay body next) ∧ rcv' = replay body next rcv).
Lemma payload_reached c (app app' : asgi) r rcv st :
  payload_layer c app r rcv st ≠ payload_layer c app' r rcv st →
  ∃ rcv', body_admitted c r rcv rcv' ∧ app r rcv' st ≠ app' r rcv' st.
Proof.
  unfold payload_layer, body_admitted. destruct (payload_call _ _ _ _ _) as [[]|] eqn:E; try done; intros Hne; eexists; (split; [|done]); eauto.
Qed.

Lemma headers_reached c (app app' : asgi) r rcv st :
  headers_layer c app r rcv st ≠ headers_layer c app' r rcv st → app r rcv st ≠ app' r rcv st.
Proof. unfold headers_layer. intros Hne Heq. by rewrite Heq in Hne. Qed.

(** C14: every request passes all the guards before it reaches anything.
    Compare two servers that differ only in the applications behind the guards.
    If they treat a request differently, then its body passed the payload
    limits, its address is not locked out and has not exhausted its rate.  If
    they differ only behind the protocol paths, the path is one of them, the
    request names an allowed origin, and its token authenticated with the
    configured provider, unless it is a message to an open connection.  If they
    differ only in the management API, the request shows the management token
    or asks for one of the public paths. *)
Theorem app_guarded E E' r rcv st :
  router_ok → is_http r = true → create_app E r rcv st ≠ create_app E' r rcv st →
  (∃ rcv', body_admitted default_payload_limits r rcv rcv') ∧
  _is_locked_out (client_ip r) (clock st) (st_limiter st) = false ∧
  (_check_rate_limit default_rate_limits (client_ip r) (clock st) (st_limiter st)).1 = true ∧
  (same_but_mcp E E' → is_mcp_path (default "/" (req_path r)) = true ∧ origin_allowed r ∧
     (gate_passed r ∨ startswith (default "" (req_path r)) POST_MESSAGES_PATH = true)) ∧
  (same_but_management E E' → ∃ r', router app_routes r = Some (ManagementApi, r') ∧
     (is_public (edge_scope r') = true ∨ token_shown r)).
Proof.
  intros Hok Hh Hne. unfold create_app in Hne. apply headers_reached in Hne.
  apply payload_reached in Hne as (rcv' & Hbody & Hne). apply rate_reached in Hne as (Hlock & Hrate & st' & Hne); [|done|done].
  apply origin_reached in Hne as [Ho Hne]. split_and!; [by exists rcv'|done|done| |].
  - intros Hs. destruct (mcp_reached _ _ _ _ _ Hok Hs Hh Hne) as [Hp Hg]. split_and!; [done| |done]. by apply origin_pass.
  - intros Hs. by eapply management_reached.
Qed.

(** Every response over HTTP carries the security headers, whoever sent it. *)
Theorem app_responses_hardened E r rcv st status headers :
  is_http r = true → ResponseStart status headers ∈ sent (create_app E r rcv st) →
  _STATIC_HEADERS ⊆ headers ∧ (_is_tls (edge_scope r) = true → hsts_header default_headers ∈ headers).
Proof. intros Hh%bool_decide_eq_true. by apply responses_hardened. Qed.

(** Served without another request in between, the limiter of the application
    is the one of RateLimit.v, with the status of the response that was sent. *)
Lemma rate_layer_is_call c (app : asgi) r rcv st :
  is_http r = true → rl_enabled c = true →
  let l := (_check_rate_limit c (client_ip r) (clock st) (st_limiter st)).2 in
  let o := app r rcv (set_limiter l st) in
  ended o = Returned → st_limiter (after o) = l →
  st_limiter (after (rate_layer c app r rcv st)) =
  (call c {| rq_http := true; rq_now := clock st; rq_ip := client_ip r; rq_status := captured_status (sent o);
             rq_end := clock (after o) |} (st_limiter st)).2.
Proof.
  intros Hh He l o Ho Hl. unfold rate_layer, call. rewrite Hh, He. cbn [negb orb rq_http rq_now rq_ip rq_status rq_end].
  destruct (_is_locked_out _ _ _); [done|]. destruct (_check_rate_limit _ _ _ _) as [ok l'] eqn:Ec. cbn [snd] in *.
  subst l. destruct ok; cbn [negb]; [|done]. fold o. rewrite Ho. cbn [snd].
  destruct (captured_status (sent o)) as [s|]; [|done]. case_bool_decide; cbn [after set_limiter st_limiter]; by rewrite Hl.
Qed.
End app.

(** ** A server *)

Definition demo_router (rs : list route) (r : request) : option (endpoint * request) :=
  (λ rt, (route_endpoint rt, r)) <$> List.find (λ rt, route_covers rt (default "" (req_path r))) rs.
Lemma demo_router_ok : router_ok demo_router.
Proof.
  intros r e r' H. unfold demo_router in H. destruct (List.find _ app_routes) as [rt|] eqn:E; [|done].
  injection H as <- <-. apply find_some in E as [Hin Hc]. exists rt. split_and!; [by apply list_elem_of_In|done..].
Qed.

Abbreviation demo_state := (app_state (C1 := map_cache 120 (list Z)) (C2 := map_cache 300 (list Z)) (C3 := map_cache 900 ()) (W := Z)) (only parsing).
Definition demo_start (t : Z) : demo_state :=
  {| st_limiter := {| _request_log := MapCache ∅; _auth_failure_log := MapCache ∅; _lockouts := MapCache ∅ |};
     st_sse := {| ss_manager := true; ss_registry := None; ss_sessions := None |}; st_world := t |}.
Definition demo_response {A} (status : Z) (content : A) (headers : list (string * string)) : list HttpEdge.asgi_message :=
  [ResponseStart status headers; OtherMessage ""].
Definition demo_ok (status : Z) : asgi (C1 := map_cache 120 (list Z)) (C2 := map_cache 300 (list Z)) (C3 := map_cache 900 ()) (W := Z) :=
  λ r rcv st, respond (demo_response status () []) st.
Definition demo_endpoints (mcp manage : Z) : endpoints := {|
  ep_streamable := λ _, demo_ok mcp; ep_sse := λ _ _, demo_ok mcp; ep_messages := demo_ok mcp; ep_management := demo_ok manage;
  ep_router := demo_ok 404 |}.
Definition demo_module : transport_module :=
  {| _incoming_auth_provider := Some (LocalTokenProvider "s3cret"); _auth_mode := strict; _auth_issuer := None |}.
Definition demo_app (E : endpoints) : asgi :=
  create_app (λ st : demo_state, st_world st) (λ _, "id") (λ _, false) (λ _, true) (λ _, "localhost") demo_response demo_response
    demo_router (λ _, None) (λ _, true) (λ _ _, inl "") None (Some "0123456789abcdef") demo_module 2 E.
Definition demo_request (path : string) (headers : list (string * string)) : request :=
  {| req_type := "http"; req_method := Some "GET"; req_path := Some path; req_headers := headers; req_scheme := Some "http";
     req_client := Some "10.0.0.7" |}.
(** The statuses of requests that arrive a second apart. *)
Fixpoint demo_serve (rs : list request) (st : demo_state) : list (option Z) :=
  match rs with
  | [] => []
  | r :: rs' =>
      let o := demo_app (demo_endpoints 200 200) r (λ _, HttpDisconnect) st in
      captured_status (sent o) :: demo_serve rs' {| st_limiter := st_limiter (after o); st_sse := st_sse (after o); st_world := st_world (after o) + 1 |}
  end.

Lemma app_guarded_witness :
  let good := demo_request "/mcp" [("origin", "http://localhost:3000"); ("authorization", "Bearer s3cret")] in
  origin_allowed (λ _, true) None good.
Proof.
  intros good. assert (Hok := demo_router_ok).
  refine (proj1 (proj2 (proj1 (proj2 (proj2 (proj2 (app_guarded (λ st : demo_state, st_world st) (λ _, "id") (λ _, false) (λ _, true)
    (λ _, "localhost") demo_response demo_response demo_router (λ _, None) (λ _, true) (λ _ _, inl "") None (Some "0123456789abcdef")
    demo_module 2 (demo_endpoints 200 200) (demo_endpoints 201 200) good (λ _, HttpDisconnect) (demo_start 0) Hok eq_refl _)))) _))).
  - intros Heq. apply (f_equal (λ o, captured_status (sent o))) in Heq. vm_compute in Heq. discriminate.
  - split; reflexivity.
Defined.

(** Five refusals of any kind lock an address out of the whole server, the
    management API included; a request without an origin counts as one. *)
Example refusals_lock_out :
  demo_serve (replicate 5 (demo_request "/mcp" []) ++
    [demo_request "/manage/v1/status" [("authorization", "Bearer 0123456789abcdef")]; demo_request "/manage/v1/health" []]) (demo_start 0) =
  [Some 403; Some 403; Some 403; Some 403; Some 403; Some 429; Some 429] ∧
  demo_serve [demo_request "/mcp" [("origin", "http://localhost"); ("authorization", "Bearer s3cret")];
              demo_request "/mcp/" [("origin", "http://localhost"); ("authorization", "Bearer wrong")];
              demo_request "/manage/v1/status" []; demo_request "/manage/v1/status" [("authorization", "Bearer 0123456789abcdef")];
              demo_request "/messages/" [("origin", "http://localhost")]; demo_request "/nowhere" []] (demo_start 0) =
  [Some 200; Some 401; Some 401; Some 200; Some 200; Some 404].
Proof. split; vm_compute; reflexivity. Qed.

(** A connection over SSE that ends regularly ends in an error of the server:
    the handler returns no response, and its wrapper calls what it returns. *)
Lemma sse_connection_raises {C1 C2 C3 W} clock fresh_id overdue Response validate g
    (E : endpoints (C1 := C1) (C2 := C2) (C3 := C3) (W := W)) r rcv st session v sv :
  sse_open validate g (transport_scope r) (clock st) (fresh_id st) fresh_vars (st_sse st) = (inr (SseConnected session), v, sv) →
  ended (ep_sse E v session r rcv (set_sse sv st)) = Returned →
  ended (sse_app clock fresh_id overdue Response validate g E r rcv st) = Raised NoneNotCallable.
Proof. intros Ho Hr. unfold sse_app. by rewrite Ho, Hr. Qed.
