(* ===== verification/Backend.v ===== *)
(** * Backend connections (bridge/backend_connection.py, bridge/client_manager.py)

    The connection of one backend and the state the client manager keeps: the
    sessions, the exit stack that owns the resources of each connection, the
    status records and the authentication providers.  An attempt to connect is
    described by where it ends ([stage]); the transports and the network behind
    it are outside the model.  Attempts on different names only share counters
    and logs, and an attempt publishes its session without awaiting, so each
    operation is one step. *)
From S2P Require Import Prelude PyDict Registry Lifecycle ConfigDiff.

(** A session: the exit stack it lives on and what its [list_*] calls answer. *)
Record session := { ses_stack : nat; ses_answers : answers }.

Record progress_event := { pg_backend : string; pg_phase : string; pg_message : option string }.

(** [m_prebuilt] holds the configuration dictionaries with a
    ["_prebuild_params"] key; [m_closed] logs the exit stacks on which
    [aclose] was called; [m_progress] the calls of the progress callback. *)
Record manager := {
  _sessions : odict string session;
  _backend_stacks : odict string nat;
  _status_records : gmap string BackendStatusRecord;
  _auth_providers : gset string;
  _shutdown_requested : bool;
  _progress_cb : bool;
  m_prebuilt : gset nat;
  m_next : nat;
  m_closed : list nat;
  m_progress : list progress_event }.

Definition new_manager : manager :=
  {| _sessions := []; _backend_stacks := []; _status_records := ∅; _auth_providers := ∅;
     _shutdown_requested := false; _progress_cb := false; m_prebuilt := ∅; m_next := 0;
     m_closed := []; m_progress := [] |}.

Definition set_sessions (d : odict string session) (m : manager) : manager :=
  {| _sessions := d; _backend_stacks := _backend_stacks m; _status_records := _status_records m;
     _auth_providers := _auth_providers m; _shutdown_requested := _shutdown_requested m;
     _progress_cb := _progress_cb m; m_prebuilt := m_prebuilt m; m_next := m_next m;
     m_closed := m_closed m; m_progress := m_progress m |}.
Definition set_stacks (d : odict string nat) (next : nat) (closed : list nat) (m : manager) : manager :=
  {| _sessions := _sessions m; _backend_stacks := d; _status_records := _status_records m;
     _auth_providers := _auth_providers m; _shutdown_requested := _shutdown_requested m;
     _progress_cb := _progress_cb m; m_prebuilt := m_prebuilt m; m_next := next;
     m_closed := closed; m_progress := m_progress m |}.
Definition set_records (r : gmap string BackendStatusRecord) (m : manager) : manager :=
  {| _sessions := _sessions m; _backend_stacks := _backend_stacks m; _status_records := r;
     _auth_providers := _auth_providers m; _shutdown_requested := _shutdown_requested m;
     _progress_cb := _progress_cb m; m_prebuilt := m_prebuilt m; m_next := m_next m;
     m_closed := m_closed m; m_progress := m_progress m |}.
Definition set_providers (X : gset string) (m : manager) : manager :=
  {| _sessions := _sessions m; _backend_stacks := _backend_stacks m; _status_records := _status_records m;
     _auth_providers := X; _shutdown_requested := _shutdown_requested m;
     _progress_cb := _progress_cb m; m_prebuilt := m_prebuilt m; m_next := m_next m;
     m_closed := m_closed m; m_progress := m_progress m |}.
Definition set_prebuilt (X : gset nat) (m : manager) : manager :=
  {| _sessions := _sessions m; _backend_stacks := _backend_stacks m; _status_records := _status_records m;
     _auth_providers := _auth_providers m; _shutdown_requested := _shutdown_requested m;
     _progress_cb := _progress_cb m; m_prebuilt := X; m_next := m_next m;
     m_closed := m_closed m; m_progress := m_progress m |}.
Definition set_progress_cb (b : bool) (m : manager) : manager :=
  {| _sessions := _sessions m; _backend_stacks := _backend_stacks m; _status_records := _status_records m;
     _auth_providers := _auth_providers m; _shutdown_requested := _shutdown_requested m;
     _progress_cb := b; m_prebuilt := m_prebuilt m; m_next := m_next m;
     m_closed := m_closed m; m_progress := m_progress m |}.
(** [cancel_startup]: the flag; the cancelled tasks end as cancelled attempts. *)
Definition cancel_startup (m : manager) : manager :=
  {| _sessions := _sessions m; _backend_stacks := _backend_stacks m; _status_records := _status_records m;
     _auth_providers := _auth_providers m; _shutdown_requested := true;
     _progress_cb := _progress_cb m; m_prebuilt := m_prebuilt m; m_next := m_next m;
     m_closed := m_closed m; m_progress := m_progress m |}.

(** [if progress_cb is not None: progress_cb(name, phase, message)] *)
Definition progress (name ph : string) (message : option string) (m : manager) : manager :=
  {| _sessions := _sessions m; _backend_stacks := _backend_stacks m; _status_records := _status_records m;
     _auth_providers := _auth_providers m; _shutdown_requested := _shutdown_requested m;
     _progress_cb := _progress_cb m; m_prebuilt := m_prebuilt m; m_next := m_next m;
     m_closed := m_closed m;
     m_progress := m_progress m ++
       (if _progress_cb m then [{| pg_backend := name; pg_phase := ph; pg_message := message |}] else []) |}.

(** [try: record.transition(p, msg) except ValueError: pass] on a stored record *)
Definition try_transition (now : Z) (p : BackendPhase) (msg : string) (name : string) (m : manager) : manager :=
  match _status_records m !! name with
  | Some r => set_records (<[name := apply_op r (OpTransition now p msg)]> (_status_records m)) m
  | None => m
  end.

Definition ensure_status_record (name : string) (m : manager) : manager :=
  match _status_records m !! name with
  | Some _ => m
  | None => set_records (<[name := new_record name]> (_status_records m)) m
  end.

Definition record_failure (now : Z) (name msg : string) (m : manager) : manager :=
  progress name "failed" (Some msg) (try_transition now FAILED msg name m).

(** [auth_pending] tells whether an authentication task of the backend runs. *)
Definition record_auth_pending_or_failure (now : Z) (name msg : string) (auth_pending : bool)
    (m : manager) : manager :=
  if auth_pending
  then progress name "initializing" (Some msg) (try_transition now INITIALIZING msg name m)
  else record_failure now name msg m.

(** ** One attempt *)

(** How an attempt fails: the overall timeout (with the text of its limit); a
    cancellation, with the reason that authentication discovery would give; an
    exception, with its text and, when it looks like an authentication failure,
    the reason discovery gives.  The flag is [auth_pending]. *)
Inductive failure :=
  | FailTimeout (shown : string)
  | FailCancelled (reason : string) (pending : bool)
  | FailRaised (text : string) (auth : option string) (pending : bool).

(** Where [connect_backend] ends: before it prepared the exit stack, after, or
    with an initialized session. *)
Inductive stage := BeforeStack (f : failure) | AfterStack (f : failure) | Connected (a : answers).

(** A container build: the lines it printed and the exception it raised. *)
Record build := { b_lines : list string; b_error : option string }.

Record attempt := {
  at_init : Z;        (* time of the first transition *)
  at_build : build;
  at_provider : bool; (* an authentication provider was resolved *)
  at_end : Z;         (* time of the last transition *)
  at_stage : stage }.

Definition failure_reason (shutdown : bool) (f : failure) : string :=
  match f with
  | FailTimeout shown => "Overall startup timed out after " +:+ shown +:+ "s (subprocess spawn + MCP init)"
  | FailCancelled reason _ => if shutdown then "Startup cancelled (shutdown requested)" else reason
  | FailRaised text auth _ =>
      match auth with Some reason => if shutdown then text else reason | None => text end
  end.

Definition pre_build_container_image (name : string) (conf : backend_dict) (b : build) (m : manager)
    : (string + unit) * manager :=
  match bd_params conf with
  | None => (inr (), m)
  | Some _ =>
      let m1 := progress name "building" (Some "Building container image…") m in
      let m2 := foldl (λ m line, progress name "building" (Some line) m) m1 (b_lines b) in
      match b_error b with
      | Some exc => (inl exc, m2)
      | None => (inr (), set_prebuilt ({[bd_id conf]} ∪ m_prebuilt m2) m2)
      end
  end.

(** The new stack, after closing the previous one of the same name. *)
Definition prepare_backend_stack (name : string) (m : manager) : nat * manager :=
  let i := m_next m in
  let closed := match dget (_backend_stacks m) name with Some o => [o] | None => [] end in
  (i, set_stacks (dset (ddel (_backend_stacks m) name) name i) (S i) (m_closed m ++ closed) m).

Definition connect_backend (name : string) (a : attempt) (m : manager) : (failure + unit) * manager :=
  let m1 := if at_provider a then set_providers ({[name]} ∪ _auth_providers m) m else m in
  match at_stage a with
  | BeforeStack f => (inl f, m1)
  | AfterStack f => (inl f, (prepare_backend_stack name m1).2)
  | Connected ans =>
      let '(i, m2) := prepare_backend_stack name m1 in
      let m3 := set_sessions (dset (_sessions m2) name {| ses_stack := i; ses_answers := ans |}) m2 in
      let m4 := try_transition (at_end a) READY "Connection established" name m3 in
      (inr (), progress name "ready" None m4)
  end.

Definition type_text (conf : backend_dict) : string := default "None" (bd_type conf).

Definition start_backend_svr (name : string) (conf : backend_dict) (a : attempt) (m : manager)
    : bool * manager :=
  let msg := "Connecting (" +:+ type_text conf +:+ ")" in
  let m1 := try_transition (at_init a) INITIALIZING msg name (ensure_status_record name m) in
  let m2 := progress name "initializing" (Some msg) m1 in
  let '(built, m3) :=
    if bool_decide (bd_type conf = Some "stdio") && negb (bool_decide (bd_id conf ∈ m_prebuilt m2))
    then pre_build_container_image name conf (at_build a) m2 else (inr (), m2) in
  match built with
  | inl exc => (false, record_failure (at_end a) name ("Container image pre-build failed: " +:+ exc) m3)
  | inr _ =>
      match connect_backend name a m3 with
      | (inr _, m4) => (true, m4)
      | (inl f, m4) =>
          let reason := failure_reason (_shutdown_requested m) f in
          (false, match f with
                  | FailTimeout _ => record_failure (at_end a) name reason m4
                  | FailCancelled _ pending | FailRaised _ _ pending =>
                      record_auth_pending_or_failure (at_end a) name reason pending m4
                  end)
      end
  end.

(** ** The manager *)

Definition disconnect_one (name : string) (m : manager) : manager :=
  let closed := match dget (_backend_stacks m) name with Some o => [o] | None => [] end in
  let m1 := set_stacks (ddel (_backend_stacks m) name) (m_next m) (m_closed m ++ closed) m in
  set_providers (_auth_providers m1 ∖ {[name]}) (set_sessions (ddel (_sessions m1) name) m1).

(** [stop_all] at time [now]. *)
Definition stop_all (now : Z) (m : manager) : manager :=
  let shut r := if is_operational r then apply_op r (OpTransition now SHUTTING_DOWN "Graceful shutdown") else r in
  let m1 := set_records (shut <$> _status_records m) m in
  let m2 := set_stacks [] (m_next m1) (m_closed m1 ++ dvalues (_backend_stacks m1)) m1 in
  set_providers ∅ (set_sessions [] m2).

Definition get_session (name : string) (m : manager) : option session := dget (_sessions m) name.
Definition get_active_session_count (m : manager) : Z := Z.of_nat (length (_sessions m)).
Definition get_all_sessions (m : manager) : odict string session := _sessions m.

(** ** What an operation changes *)

(** The connections: everything but records, providers and logs. *)
Definition core (m : manager) : odict string session * odict string nat * nat * list nat :=
  (_sessions m, _backend_stacks m, m_next m, m_closed m).

Lemma progress_core n p t m : core (progress n p t m) = core m.
Proof. done. Qed.
Lemma try_transition_core now p t n m : core (try_transition now p t n m) = core m.
Proof. unfold try_transition. by case_match. Qed.
Lemma ensure_core n m : core (ensure_status_record n m) = core m.
Proof. unfold ensure_status_record. by case_match. Qed.
Lemma record_failure_core now n t m : core (record_failure now n t m) = core m.
Proof. unfold record_failure. by rewrite progress_core, try_transition_core. Qed.
Lemma record_auth_core now n t b m : core (record_auth_pending_or_failure now n t b m) = core m.
Proof.
  unfold record_auth_pending_or_failure. case_test; [|apply record_failure_core].
  by rewrite progress_core, try_transition_core.
Qed.
Lemma build_lines_core name ls m :
  core (foldl (λ m line, progress name "building" (Some line) m) m ls) = core m.
Proof. revert m. induction ls as [|l ls IH]; intros m; simpl; [done|]. by rewrite IH. Qed.
Lemma pre_build_core name conf b m : core (pre_build_container_image name conf b m).2 = core m.
Proof.
  unfold pre_build_container_image. case_match; [|done]. cbv zeta. case_match; cbn [snd].
  - by rewrite build_lines_core.
  - change (core (set_prebuilt _ ?x)) with (core x). by rewrite build_lines_core.
Qed.
#[export] Hint Rewrite progress_core try_transition_core ensure_core record_failure_core record_auth_core
  pre_build_core : argus.

(** The connections after a new stack, and after a new session. *)
Definition prepared (name : string) (m : manager) : odict string session * odict string nat * nat * list nat :=
  (_sessions m, dset (ddel (_backend_stacks m) name) name (m_next m), S (m_next m),
   m_closed m ++ match dget (_backend_stacks m) name with Some o => [o] | None => [] end).
Definition connected (name : string) (a : answers) (m : manager)
    : odict string session * odict string nat * nat * list nat :=
  (dset (_sessions m) name {| ses_stack := m_next m; ses_answers := a |},
   dset (ddel (_backend_stacks m) name) name (m_next m), S (m_next m),
   m_closed m ++ match dget (_backend_stacks m) name with Some o => [o] | None => [] end).

Lemma core_eq m m' :
  core m = core m' → _sessions m = _sessions m' ∧ _backend_stacks m = _backend_stacks m' ∧
  m_next m = m_next m' ∧ m_closed m = m_closed m'.
Proof. unfold core. intros E. by injection E. Qed.

Lemma connect_cases name a m r m' :
  connect_backend name a m = (r, m') →
  match at_stage a with
  | BeforeStack f => r = inl f ∧ core m' = core m
  | AfterStack f => r = inl f ∧ core m' = prepared name m
  | Connected ans => r = inr () ∧ core m' = connected name ans m
  end.
Proof.
  unfold connect_backend. destruct (at_stage a) as [f|f|ans].
  - intros; simplify_eq. split; [done|]. by destruct (at_provider a).
  - intros; simplify_eq. split; [done|]. by destruct (at_provider a).
  - cbn [prepare_backend_stack]. intros; simplify_eq. split; [done|].
    rewrite progress_core, try_transition_core. by destruct (at_provider a).
Qed.

(** An attempt leaves the connections as they are, replaces the stack of its
    name, or publishes a session on a new stack; it reports success exactly in
    the last case. *)
Lemma attempt_cases name conf a m b m' :
  start_backend_svr name conf a m = (b, m') →
  (b = false ∧ core m' = core m) ∨
  (b = false ∧ core m' = prepared name m) ∨
  (b = true ∧ ∃ ans, at_stage a = Connected ans ∧ core m' = connected name ans m).
Proof.
  unfold start_backend_svr. cbv zeta.
  set (m2 := progress _ _ _ _). assert (core m2 = core m) as E2 by (unfold m2; by autorewrite with argus).
  destruct (if _ && _ then _ else _) as [built m3] eqn:Eb.
  assert (core m3 = core m) as E3.
  { rewrite <-E2. revert Eb. case_test; intros; simplify_eq; [|done].
    by rewrite <-(pre_build_core name conf (at_build a) m2), Eb. }
  destruct built as [exc|[]].
  { intros E. injection E as <- <-. left. split; [done|]. by rewrite record_failure_core. }
  destruct (connect_backend name a m3) as [r m4] eqn:Ec. apply connect_cases in Ec.
  apply core_eq in E3 as (S1 & S2 & S3 & S4).
  destruct (at_stage a) as [f|f|ans]; destruct Ec as [-> Ec].
  - intros E. injection E as <- <-. left. split; [done|].
    destruct f; autorewrite with argus; rewrite Ec; unfold core; by rewrite S1, S2, S3, S4.
  - intros E. injection E as <- <-. right; left. split; [done|].
    destruct f; autorewrite with argus; rewrite Ec; unfold prepared; by rewrite S1, S2, S3, S4.
  - intros E. injection E as <- <-. right; right. split; [done|]. exists ans. split; [done|].
    rewrite Ec. unfold connected. by rewrite S1, S2, S3, S4.
Qed.

(** No attempt touches the shutdown flag. *)
Lemma try_transition_stopping now p t n m :
  _shutdown_requested (try_transition now p t n m) = _shutdown_requested m.
Proof. unfold try_transition. by case_match. Qed.
Lemma ensure_stopping n m : _shutdown_requested (ensure_status_record n m) = _shutdown_requested m.
Proof. unfold ensure_status_record. by case_match. Qed.
Lemma pre_build_stopping name conf b m :
  _shutdown_requested (pre_build_container_image name conf b m).2 = _shutdown_requested m.
Proof.
  unfold pre_build_container_image. case_match; [|done]. cbv zeta.
  assert (∀ ls m, _shutdown_requested (foldl (λ m line, progress name "building" (Some line) m) m ls) =
    _shutdown_requested m) as Hl by (intros ls; induction ls as [|l ls IH]; intros m'; simpl; [done|by rewrite IH]).
  case_match; cbn [snd set_prebuilt _shutdown_requested]; by rewrite Hl.
Qed.
Lemma connect_stopping name a m : _shutdown_requested (connect_backend name a m).2 = _shutdown_requested m.
Proof.
  unfold connect_backend. cbv zeta. destruct (at_stage a); destruct (at_provider a); cbn; try done;
    by rewrite try_transition_stopping.
Qed.
Lemma record_failure_stopping now n t m : _shutdown_requested (record_failure now n t m) = _shutdown_requested m.
Proof. unfold record_failure. cbn. apply try_transition_stopping. Qed.
Lemma record_auth_stopping now n t b m :
  _shutdown_requested (record_auth_pending_or_failure now n t b m) = _shutdown_requested m.
Proof.
  unfold record_auth_pending_or_failure. case_test; [|apply record_failure_stopping]. cbn.
  apply try_transition_stopping.
Qed.

Lemma start_stopping name conf a m ok m' :
  start_backend_svr name conf a m = (ok, m') → _shutdown_requested m' = _shutdown_requested m.
Proof.
  unfold start_backend_svr. cbv zeta. set (m2 := progress _ _ _ _).
  assert (_shutdown_requested m2 = _shutdown_requested m) as E2.
  { unfold m2. cbn. by rewrite try_transition_stopping, ensure_stopping. }
  destruct (if _ && _ then _ else _) as [built m3] eqn:Eb.
  assert (_shutdown_requested m3 = _shutdown_requested m) as E3.
  { rewrite <-E2. revert Eb. case_test; intros Eb; [|by injection Eb as _ <-].
    by rewrite <-(pre_build_stopping name conf (at_build a) m2), Eb. }
  destruct built as [exc|[]].
  { intros E. injection E as <- <-. by rewrite record_failure_stopping. }
  pose proof (connect_stopping name a m3) as Hc.
  destruct (connect_backend name a m3) as [[f|[]] m4]; cbn [snd] in Hc; intros E; injection E as <- <-;
    [|congruence].
  destruct f; rewrite ?record_failure_stopping, ?record_auth_stopping; congruence.
Qed.

(** ** No connection leaks *)

(** Every exit stack ever opened is in exactly one place, once: the table of
    live stacks or the log of closed ones; and a session lives on the stack
    that the table holds for its name. *)
Record mgr_wf (m : manager) : Prop := {
  wf_sessions : dict_wf (_sessions m);
  wf_stacks : dict_wf (_backend_stacks m);
  wf_once : Permutation (dvalues (_backend_stacks m) ++ m_closed m) (seq 0 (m_next m));
  wf_session : ∀ n s, dget (_sessions m) n = Some s → dget (_backend_stacks m) n = Some (ses_stack s) }.

Lemma mgr_wf_core m m' : core m' = core m → mgr_wf m → mgr_wf m'.
Proof. intros (E1 & E2 & E3 & E4)%core_eq []. constructor; rewrite ?E1, ?E2, ?E3, ?E4; done. Qed.

Lemma new_manager_wf : mgr_wf new_manager.
Proof. constructor; try done; apply dict_wf_nil. Qed.
#[export] Hint Resolve new_manager_wf : argus.

(** Taking the stack of a name out of the table. *)
Lemma dvalues_ddel (d : odict string nat) n :
  Permutation (dvalues (ddel d n) ++ match dget d n with Some o => [o] | None => [] end) (dvalues d).
Proof.
  unfold dvalues. destruct (dget d n) as [o|] eqn:E.
  - apply ddel_split in E as (a & b & -> & ->). rewrite !fmap_app, fmap_cons. cbn [snd].
    rewrite <-app_assoc. apply Permutation_app_head. by rewrite Permutation_app_comm.
  - rewrite app_nil_r. replace (ddel d n) with d; [done|].
    induction d as [|[k v] d IH]; [done|]. simpl in *. case_decide; [done|]. by rewrite <-IH.
Qed.

Lemma prepared_once name m :
  mgr_wf m →
  Permutation (dvalues (dset (ddel (_backend_stacks m) name) name (m_next m)) ++
    m_closed m ++ match dget (_backend_stacks m) name with Some o => [o] | None => [] end)
    (seq 0 (S (m_next m))).
Proof.
  intros [_ Hs Ho _]. rewrite dset_fresh by (rewrite elem_dkeys_ddel by done; tauto).
  unfold dvalues. rewrite fmap_app. cbn [fmap list_fmap snd]. rewrite seq_S, <-Ho, <-(dvalues_ddel _ name).
  unfold dvalues. simpl. solve_Permutation.
Qed.

Lemma attempt_wf name conf a m :
  mgr_wf m → name ∉ dkeys (_sessions m) → mgr_wf (start_backend_svr name conf a m).2.
Proof.
  intros Hw Hn. destruct (start_backend_svr name conf a m) as [b m'] eqn:E. cbn [snd].
  pose proof (prepared_once name m Hw) as Hp.
  apply attempt_cases in E as [[_ E]|[[_ E]|(_ & ans & _ & E)]].
  - by eapply mgr_wf_core.
  - destruct Hw as [H1 H2 H3 H4]. unfold core, prepared in E. injection E as E1 E2 E3 E4.
    constructor; rewrite ?E1, ?E2, ?E3, ?E4; auto with argus.
    intros n s Hs. rewrite dget_dset_ne; [rewrite dget_ddel_ne; auto|]; intros <-;
      by apply Hn, dget_is_Some; eauto.
  - destruct Hw as [H1 H2 H3 H4]. unfold core, connected in E. injection E as E1 E2 E3 E4.
    constructor; rewrite ?E1, ?E2, ?E3, ?E4; auto with argus.
    intros n s. rewrite !dget_dset. case_decide; [by intros; simplify_eq|].
    intros Hs. rewrite dget_ddel_ne; auto.
Qed.

Lemma disconnect_wf name m : mgr_wf m → mgr_wf (disconnect_one name m).
Proof.
  intros [H1 H2 H3 H4]. constructor; cbn [disconnect_one set_providers set_sessions set_stacks _sessions _backend_stacks m_closed m_next];
    auto with argus.
  - rewrite <-H3, <-(dvalues_ddel (_backend_stacks m) name), <-!app_assoc. apply Permutation_app_head.
    apply Permutation_app_comm.
  - intros n s. rewrite !dget_ddel by done. case_decide; [done|]. apply H4.
Qed.

Lemma stop_all_wf now m : mgr_wf m → mgr_wf (stop_all now m).
Proof.
  intros [H1 H2 H3 H4]. constructor; cbn; auto with argus; [|done].
  rewrite <-H3. apply Permutation_app_comm.
Qed.

Lemma pre_build_wf name conf b m : mgr_wf m → mgr_wf (pre_build_container_image name conf b m).2.
Proof. apply mgr_wf_core, pre_build_core. Qed.
#[export] Hint Resolve attempt_wf disconnect_wf stop_all_wf pre_build_wf : argus.
