(* ===== verification/Startup.v ===== *)
(** * Start-up of the backends (bridge/startup_coordinator.py)

    The first pass over all backends, remote ones concurrently and stdio ones
    after their container build, and the retry loop for those that failed.
    Each task runs one attempt (Backend.v); the order in which concurrent tasks
    complete is a parameter.  [att name k] describes the [k]-th attempt on a
    backend, [sig i] whether the signal handler has asked for a shutdown before
    the [i]-th look at the flag. *)
From stdpp Require Import pretty.
From Stdlib Require Import QArith Qminmax.
From S2P Require Import Prelude PyDict Registry Lifecycle ConfigDiff Backend.
Local Open Scope Z_scope.

Definition BACKEND_RETRIES : Z := 3.
Definition BACKEND_RETRY_DELAY : Q := 5 # 1.
Definition BACKEND_RETRY_BACKOFF : Q := 3 # 2.

Definition _TYPE_PRIORITY (t : string) : Z :=
  if bool_decide (t = "streamable-http") then 0 else if bool_decide (t = "sse") then 1 else 2.

Definition backend_priority (kv : string * backend_dict) : Z := _TYPE_PRIORITY (default "stdio" (bd_type kv.2)).

Definition is_stdio (kv : string * backend_dict) : bool := bool_decide (bd_type kv.2 = Some "stdio").

(** Remote and stdio backends, each in the order of a stable sort. *)
Definition _sort_backends (config_data : config) : config * config :=
  let sorted_items := sort_by backend_priority config_data in
  (keep (λ kv, negb (is_stdio kv)) sorted_items, keep is_stdio sorted_items).

Definition retries_of (c : backend_dict) : Z := default BACKEND_RETRIES (bd_retries c).

(** An attempt as the trace shows it: the backend, the number of the attempt
    and whether it connected. *)
Definition event : Type := string * nat * bool.

(** The state of a start-up: the manager, the attempts made and the sleeps
    between the rounds. *)
Record boot := { bt_manager : manager; bt_trace : list event; bt_sleeps : list Q }.

Definition on_manager (f : manager → manager) (s : boot) : boot :=
  {| bt_manager := f (bt_manager s); bt_trace := bt_trace s; bt_sleeps := bt_sleeps s |}.

Section startup.
(** The attempts ([None]: the task was cancelled before it began), the builds
    of the first pass, the signals, the completion order of concurrent tasks,
    the clock at a round and the rendering of a delay. *)
Context (att : string → nat → option attempt) (pre : string → build) (sig : nat → bool)
  (order : list (string * backend_dict) → list (string * backend_dict)) (clock : nat → Z) (fmt : Q → string).

(** [start_one(n, c)] as the [k]-th attempt on [n]; [None] when cancelled. *)
Definition start_one (k : nat) (kv : string * backend_dict) (s : boot) : option bool * boot :=
  match att kv.1 k with
  | None => (None, s)
  | Some a =>
      let '(ok, m) := start_backend_svr kv.1 kv.2 a (bt_manager s) in
      (Some ok, {| bt_manager := m; bt_trace := bt_trace s ++ [(kv.1, k, ok)]; bt_sleeps := bt_sleeps s |})
  end.

(** A first-pass task: a stdio backend is built first, and an exception of the
    build is only logged. *)
Definition first_task (kv : string * backend_dict) (s : boot) : option bool * boot :=
  let s1 := if is_stdio kv then on_manager (λ m, (pre_build_container_image kv.1 kv.2 (pre kv.1) m).2) s else s in
  start_one 0 kv s1.

(** Tasks in their completion order, and the results by name. *)
Fixpoint run_tasks (task : string * backend_dict → boot → option bool * boot)
    (l : list (string * backend_dict)) (s : boot) : gmap string (option bool) * boot :=
  match l with
  | [] => (∅, s)
  | kv :: l' =>
      let '(r, s1) := task kv s in
      let '(rs, s2) := run_tasks task l' s1 in (<[kv.1 := r]> rs, s2)
  end.

(** What [gather_remote_results] makes of a result: a cancelled task is not an
    [Exception], and [bool] of it is true. *)
Definition remote_result (r : option (option bool)) : bool :=
  match r with Some (Some b) => b | Some None => true | None => false end.
Definition stdio_result (r : option (option bool)) : bool :=
  match r with Some (Some b) => b | _ => false end.

(** The stdio backends that are started, and those reported as failed because
    a shutdown was requested. *)
Definition stdio_plan (shutdown parallel : bool) (stdio : config) : config * list string :=
  if negb shutdown then (stdio, [])
  else if parallel && bool_decide (1 < length stdio)%nat then ([], stdio.*1)
  else ([], match stdio with [] => [] | kv :: _ => [kv.1] end).

Definition signal_retry_phase (failed_names : list string) (attempt max_retries : nat) (delay : Q)
    (m : manager) : manager :=
  foldl (λ m name,
    let label := "Retry " +:+ pretty attempt +:+ "/" +:+ pretty max_retries in
    progress name "retrying" (Some (label +:+ " in " +:+ fmt delay +:+ "s…"))
      (try_transition (clock attempt) RETRYING label name m)) m failed_names.

(** The backends that get a task in round [attempt]. *)
Definition retry_items (failed_names : list string) (config_data : config) (attempt : nat) : config :=
  failed_names ≫= λ n,
    match dget config_data n with
    | Some c => if Z.of_nat attempt >? retries_of c then [] else [(n, c)]
    | None => []
    end.

Definition launch_retry_tasks (failed_names : list string) (config_data : config) (attempt : nat)
    (s : boot) : boot :=
  (run_tasks (start_one attempt) (order (retry_items failed_names config_data attempt)) s).2.

Definition Qmax_list (q : Q) (l : list Q) : Q := foldl Qmax q l.

Definition retry_delay (failed_names : list string) (config_data : config) (attempt : nat) : Q :=
  let delay_of n := match dget config_data n with
                    | Some c => default BACKEND_RETRY_DELAY (bd_retry_delay c) | None => BACKEND_RETRY_DELAY end in
  match failed_names with
  | [] => 0
  | n :: rest =>
      let base_delay := Qmax_list (delay_of n) (delay_of <$> rest) in
      let backoff := match dget config_data n with
                     | Some c => default BACKEND_RETRY_BACKOFF (bd_retry_backoff c) | None => BACKEND_RETRY_BACKOFF end in
      Qmult base_delay (Qpower backoff (Z.of_nat attempt - 1))
  end.

(** The signal handler may have run before the flag is read. *)
Definition look (i : nat) (s : boot) : bool * boot :=
  let s' := if sig i then on_manager cancel_startup s else s in
  (_shutdown_requested (bt_manager s'), s').

(** [for attempt in range(1, max_retries + 1)], with [rounds] turns to go. *)
Fixpoint retry_loop (rounds attempt max_retries : nat) (failed_names : list string) (config_data : config)
    (s : boot) : boot :=
  match rounds with
  | O => s
  | S rounds' =>
      match failed_names with
      | [] => s
      | _ =>
          let '(shutdown, s0) := look (S attempt) s in
          if shutdown then s0
          else
            let delay := retry_delay failed_names config_data attempt in
            let s1 := on_manager (signal_retry_phase failed_names attempt max_retries delay) s0 in
            let s2 := {| bt_manager := bt_manager s1; bt_trace := bt_trace s1; bt_sleeps := bt_sleeps s1 ++ [delay] |} in
            let s3 := launch_retry_tasks failed_names config_data attempt s2 in
            let still := keep (λ n, negb (dmem (_sessions (bt_manager s3)) n)) failed_names in
            retry_loop rounds' (S attempt) max_retries still config_data s3
      end
  end.

Definition retry_failed_backends (failed_names : list string) (config_data : config) (s : boot) : boot :=
  let budget n := match dget config_data n with Some c => retries_of c | None => BACKEND_RETRIES end in
  let max_retries := match failed_names with
                     | [] => 0 | n :: rest => foldl Z.max (budget n) (budget <$> rest) end in
  retry_loop (Z.to_nat max_retries) 1 (Z.to_nat max_retries) failed_names config_data s.

Definition start_all (parallel : bool) (config_data : config) (m : manager) : boot :=
  let s0 := {| bt_manager := set_progress_cb true m; bt_trace := []; bt_sleeps := [] |} in
  let '(remote_items, stdio_items) := _sort_backends config_data in
  let '(shutdown, s1) := look 0 s0 in
  let '(run_stdio, refused) := stdio_plan shutdown parallel stdio_items in
  let '(results, s2) := run_tasks first_task (order (remote_items ++ run_stdio)) s1 in
  let first_pass : odict string bool :=
    dupdate ((λ kv, (kv.1, remote_result (results !! kv.1))) <$> remote_items)
      (((λ kv, (kv.1, stdio_result (results !! kv.1))) <$> run_stdio) ++ ((λ n, (n, false)) <$> refused)) in
  let failed_names := (keep (λ kv, negb kv.2) first_pass).*1 in
  let '(shutdown', s3) := look 1 s2 in
  let s4 := match failed_names with
            | [] => s3
            | _ => if shutdown' then s3 else retry_failed_backends failed_names config_data s3
            end in
  on_manager (set_progress_cb false) s4.
End startup.

(** ** One round of tasks *)

Definition trace_of (n : string) (tr : list event) : list event := keep (λ e, bool_decide (e.1.1 = n)) tr.

Lemma trace_of_snoc n tr n' k ok :
  trace_of n (tr ++ [(n', k, ok)]) = if decide (n' = n) then trace_of n tr ++ [(n', k, ok)] else trace_of n tr.
Proof.
  unfold trace_of. rewrite keep_app. cbn [keep fst]. case_decide; case_bool_decide; try done. by rewrite app_nil_r.
Qed.

Definition sessions_of (s : boot) : list string := dkeys (_sessions (bt_manager s)).
Definition stopping (s : boot) : bool := _shutdown_requested (bt_manager s).

Lemma start_sessions name conf a m ok m' :
  start_backend_svr name conf a m = (ok, m') →
  ∀ n, n ∈ dkeys (_sessions m') ↔ n ∈ dkeys (_sessions m) ∨ (n = name ∧ ok = true).
Proof.
  intros E n. apply attempt_cases in E as [[-> E]|[[-> E]|(-> & ans & _ & E)]].
  - apply core_eq in E as (-> & _). naive_solver.
  - unfold core, prepared in E. injection E as -> _ _ _. naive_solver.
  - unfold core, connected in E. injection E as -> _ _ _. rewrite elem_dkeys_dset. naive_solver.
Qed.

(** A task that makes the [k]-th attempt on its backend. *)
Definition attempts (k : nat) (task : string * backend_dict → boot → option bool * boot) : Prop :=
  ∀ kv s, mgr_wf (bt_manager s) → kv.1 ∉ sessions_of s →
  let '(r, s') := task kv s in
  ∃ ok, r = Some ok ∧ bt_trace s' = bt_trace s ++ [(kv.1, k, ok)] ∧ mgr_wf (bt_manager s') ∧
    stopping s' = stopping s ∧ (∀ n, n ∈ sessions_of s' ↔ n ∈ sessions_of s ∨ (n = kv.1 ∧ ok = true)).

Lemma start_one_attempts att k : (∀ n, is_Some (att n k)) → attempts k (start_one att k).
Proof.
  intros Ha kv s Hw Hn. unfold start_one. destruct (Ha kv.1) as [a ->].
  destruct (start_backend_svr kv.1 kv.2 a (bt_manager s)) as [ok m] eqn:E. exists ok. split_and!.
  - done.
  - done.
  - replace m with (start_backend_svr kv.1 kv.2 a (bt_manager s)).2 by (by rewrite E). by apply attempt_wf.
  - unfold stopping. cbn [bt_manager]. by eapply start_stopping.
  - intros n. unfold sessions_of. cbn [bt_manager]. by eapply start_sessions.
Qed.

Lemma first_task_attempts att pre : (∀ n, is_Some (att n 0%nat)) → attempts 0 (first_task att pre).
Proof.
  intros Ha kv s Hw Hn. unfold first_task.
  set (s1 := if is_stdio kv then _ else s).
  assert (bt_trace s1 = bt_trace s ∧ core (bt_manager s1) = core (bt_manager s) ∧ stopping s1 = stopping s)
    as (Ht & Hc & Hs).
  { unfold s1. case_test; [|done]. split; [done|]. split; [apply pre_build_core|apply pre_build_stopping]. }
  assert (sessions_of s1 = sessions_of s) as Hse.
  { unfold sessions_of. by apply core_eq in Hc as (-> & _). }
  pose proof (start_one_attempts att 0 Ha kv s1) as H. rewrite Ht, Hs, Hse in H. apply H; [|done].
  by eapply mgr_wf_core.
Qed.

Lemma run_tasks_spec k task l s :
  attempts k task → NoDup l.*1 → mgr_wf (bt_manager s) → (∀ n, n ∈ l.*1 → n ∉ sessions_of s) →
  let '(rs, s') := run_tasks task l s in
  mgr_wf (bt_manager s') ∧ stopping s' = stopping s ∧
  (∀ n, n ∉ l.*1 → trace_of n (bt_trace s') = trace_of n (bt_trace s) ∧ (n ∈ sessions_of s' ↔ n ∈ sessions_of s)) ∧
  (∀ n, n ∈ l.*1 → ∃ ok, rs !! n = Some (Some ok) ∧
     trace_of n (bt_trace s') = trace_of n (bt_trace s) ++ [(n, k, ok)] ∧ (n ∈ sessions_of s' ↔ ok = true)).
Proof.
  intros Hk. revert s. induction l as [|kv l IH]; intros s Hnd Hw Hdis; cbn [run_tasks].
  { split_and!; [done|done|done|]. intros n Hn. by apply not_elem_of_nil in Hn. }
  rewrite fmap_cons in *. apply NoDup_cons in Hnd as [Hkv Hnd].
  assert (kv.1 ∉ sessions_of s) as Hns by (apply Hdis; left).
  specialize (Hk kv s Hw Hns). destruct (task kv s) as [r s1].
  destruct Hk as (ok & -> & Ht & Hw1 & Hs1 & Hse).
  specialize (IH s1 Hnd Hw1). destruct (run_tasks task l s1) as [rs s2].
  destruct IH as (Hw2 & Hs2 & Hout & Hin).
  { intros n Hn. rewrite Hse. intros [?|[-> _]]; [|done]. by apply (Hdis n); [right|]. }
  split_and!; [done|congruence| |].
  - intros n [Hne Hn]%not_elem_of_cons. destruct (Hout n Hn) as [-> ->].
    rewrite Ht, trace_of_snoc, decide_False by congruence. split; [done|]. rewrite Hse. naive_solver.
  - intros n [->|Hn]%elem_of_cons.
    + exists ok. rewrite lookup_insert_eq. destruct (Hout kv.1 Hkv) as [-> ->].
      rewrite Ht, trace_of_snoc, decide_True by done. split_and!; [done|done|]. rewrite Hse. naive_solver.
    + assert (kv.1 ≠ n) by (intros <-; done). destruct (Hin n Hn) as (ok' & Hr & Htr & Hss).
      exists ok'. rewrite lookup_insert_ne by done. split_and!; [done| |done].
      by rewrite Htr, Ht, trace_of_snoc, decide_False.
Qed.

(** ** The retry loop *)

(** Attempts [0 .. k-1] on [n], all failed. *)
Definition failures (n : string) (k : nat) : list event := (λ i, (n, i, false)) <$> seq 0 k.

Lemma failures_S n k : failures n (S k) = failures n k ++ [(n, k, false)].
Proof. unfold failures. by rewrite seq_S, fmap_app. Qed.

(** [n] connected at its [k]-th attempt, within its budget. *)
Definition settled (c : backend_dict) (n : string) (s : boot) : Prop :=
  ∃ k, trace_of n (bt_trace s) = failures n k ++ [(n, k, true)] ∧ (k ≤ Z.to_nat (retries_of c))%nat ∧ n ∈ sessions_of s.
(** [n] has failed in every round before round [j]. *)
Definition failing_until (j : nat) (c : backend_dict) (n : string) (s : boot) : Prop :=
  trace_of n (bt_trace s) = failures n (S (Nat.min (j - 1) (Z.to_nat (retries_of c)))) ∧ n ∉ sessions_of s.

Record round_inv (old : list string) (config_data : config) (j : nat) (failed_names : list string) (s : boot) : Prop := {
  ri_wf : mgr_wf (bt_manager s);
  ri_go : stopping s = false;
  ri_nodup : NoDup failed_names;
  ri_known : ∀ n, n ∈ failed_names → n ∈ dkeys config_data;
  ri_names : ∀ n c, dget config_data n = Some c →
    (n ∈ failed_names ∧ failing_until j c n s) ∨ ((n ∉ failed_names) ∧ settled c n s);
  ri_other : ∀ n, n ∉ dkeys config_data → trace_of n (bt_trace s) = [] ∧ (n ∈ sessions_of s ↔ n ∈ old) }.

Lemma retry_items_names failed_names config_data j n :
  n ∈ (retry_items failed_names config_data j).*1 ↔
  n ∈ failed_names ∧ ∃ c, dget config_data n = Some c ∧ Z.of_nat j <= retries_of c.
Proof.
  unfold retry_items. rewrite list_elem_of_fmap. setoid_rewrite list_elem_of_bind. split.
  - intros ([n' c'] & -> & m & Hin & Hm). destruct (dget config_data m) as [c|] eqn:E; [|set_solver].
    destruct (_ >? _) eqn:Ej; [set_solver|]. reflect_bools. apply list_elem_of_singleton in Hin. simplify_eq/=. eauto.
  - intros (Hn & c & E & Hj). exists (n, c). split; [done|]. exists n. split; [|done].
    rewrite E. replace (_ >? _) with false by (symmetry; rewrite Z.gtb_ltb; by apply Z.ltb_ge). left.
Qed.

Lemma retry_items_nodup failed_names config_data j :
  NoDup failed_names → NoDup (retry_items failed_names config_data j).*1.
Proof.
  unfold retry_items. induction 1 as [|n l Hn Hl IH]; [constructor|]. rewrite bind_cons, fmap_app.
  apply NoDup_app. split_and!; [repeat case_match; simpl; repeat constructor; set_solver| |done].
  intros m Hm Hm'. assert (m = n) as -> by (repeat case_match; set_solver).
  apply (retry_items_names l config_data j) in Hm' as [? _]. done.
Qed.

Lemma signal_core clock fmt names j mx d m : core (signal_retry_phase clock fmt names j mx d m) = core m.
Proof.
  unfold signal_retry_phase. revert m. induction names as [|n names IH]; intros m; simpl; [done|].
  rewrite IH. by autorewrite with argus.
Qed.
Lemma signal_stopping clock fmt names j mx d m :
  _shutdown_requested (signal_retry_phase clock fmt names j mx d m) = _shutdown_requested m.
Proof.
  unfold signal_retry_phase. revert m. induction names as [|n names IH]; intros m; simpl; [done|].
  rewrite IH. cbn. apply try_transition_stopping.
Qed.

(** The invariant only reads the connections, the flag and the trace. *)
Lemma round_inv_ext old cfg j F s s' :
  core (bt_manager s') = core (bt_manager s) → stopping s' = stopping s → bt_trace s' = bt_trace s →
  round_inv old cfg j F s → round_inv old cfg j F s'.
Proof.
  intros Hc Hs Ht [H1 H2 H3 H4 H5 H6].
  assert (sessions_of s' = sessions_of s) as He by (unfold sessions_of; by apply core_eq in Hc as (-> & _)).
  constructor; [by eapply mgr_wf_core|congruence|done|done|..]; rewrite ?Ht, ?He; [|done].
  unfold failing_until, settled. rewrite Ht, He. exact H5.
Qed.

Section loop.
Context (att : string → nat → option attempt)
  (order : list (string * backend_dict) → list (string * backend_dict)) (config_data : config) (old : list string).
Hypothesis (Hatt : ∀ n k, is_Some (att n k)) (Horder : ∀ l, Permutation (order l) l).

Lemma launch_round j failed_names s :
  (1 ≤ j)%nat → round_inv old config_data j failed_names s →
  let s' := launch_retry_tasks att order failed_names config_data j s in
  round_inv old config_data (S j) (keep (λ n, negb (dmem (_sessions (bt_manager s')) n)) failed_names) s'.
Proof using Hatt Horder.
  intros Hj [Hw Hgo Hnd Hkn Hn Ho]. cbv zeta. unfold launch_retry_tasks.
  set (l := order (retry_items failed_names config_data j)).
  assert (∀ n, n ∈ l.*1 ↔ n ∈ failed_names ∧ ∃ c, dget config_data n = Some c ∧ Z.of_nat j <= retries_of c) as Hl.
  { intros n. unfold l. rewrite Horder. apply retry_items_names. }
  assert (NoDup l.*1) as Hld by (unfold l; rewrite Horder; by apply retry_items_nodup).
  pose proof (run_tasks_spec j (start_one att j) l s (start_one_attempts att j (λ n, Hatt n j)) Hld Hw) as Hrun.
  destruct (run_tasks (start_one att j) l s) as [rs s']. cbn [snd].
  destruct Hrun as (Hw' & Hs' & Hout & Hin).
  { intros n [Hf (c & Hc & _)]%Hl. destruct (Hn n c Hc) as [[_ [_ ?]]|[? _]]; done. }
  assert (∀ n, n ∈ keep (λ n, negb (dmem (_sessions (bt_manager s')) n)) failed_names ↔
    n ∈ failed_names ∧ n ∉ sessions_of s') as Hstill.
  { intros n. rewrite elem_of_keep. unfold sessions_of. rewrite <-dmem_spec. destruct (dmem _ n); naive_solver. }
  constructor.
  - done.
  - congruence.
  - by apply NoDup_keep.
  - intros n [? _]%Hstill. auto.
  - intros n c Hc. rewrite Hstill. destruct (Hn n c Hc) as [[Hf [Ht Hns]]|[Hf (k & Ht & Hk & Hse)]].
    + destruct (decide (n ∈ l.*1)) as [Hnl|Hnl].
      * destruct (Hin n Hnl) as (ok & _ & Ht' & Hse'). apply Hl in Hnl as [_ (c' & Hc' & Hjc)].
        rewrite Hc in Hc'. injection Hc' as <-. rewrite Ht in Ht'.
        replace (S (Nat.min (j - 1) (Z.to_nat (retries_of c)))) with j in Ht' by lia.
        destruct ok.
        -- right. split; [naive_solver|]. exists j. split_and!; [done|lia|naive_solver].
        -- left. unfold failing_until.
           replace (S (Nat.min (S j - 1) (Z.to_nat (retries_of c)))) with (S j) by lia. rewrite failures_S.
           naive_solver.
      * destruct (Hout n Hnl) as [Ht' Hse']. left. unfold failing_until. rewrite Hse', Ht'.
        split; [done|]. split; [|done]. rewrite Ht. do 2 f_equal.
        assert (¬ Z.of_nat j <= retries_of c) by (intros ?; apply Hnl, Hl; eauto). lia.
    + assert (n ∉ l.*1) as Hnl by (rewrite Hl; tauto). destruct (Hout n Hnl) as [Ht' Hse'].
      right. split; [tauto|]. exists k. rewrite Ht', Hse'. done.
  - intros n Hnk. destruct (Hout n) as [-> ->]; [|auto].
    intros [_ (c & Hc & _)]%Hl. apply Hnk, dget_is_Some. eauto.
Qed.

Context (sig : nat → bool) (clock : nat → Z) (fmt : Q → string).
Hypothesis (Hsig : ∀ i, sig i = false).

Lemma retry_loop_inv rounds j mx failed_names s :
  (1 ≤ j)%nat → round_inv old config_data j failed_names s →
  ∃ j' F', round_inv old config_data j' F' (retry_loop att sig order clock fmt rounds j mx failed_names config_data s) ∧
    (F' = [] ∨ (j' = j + rounds)%nat) ∧ (∀ n, n ∈ F' → n ∈ failed_names).
Proof using Hatt Hsig Horder.
  revert j failed_names s. induction rounds as [|rounds IH]; intros j F s Hj Hi; cbn [retry_loop].
  { exists j, F. split_and!; [done|right; lia|done]. }
  destruct F as [|n0 F0]; [by exists j, []; split_and!; [|left|]|]. set (F := n0 :: F0) in *.
  unfold look. rewrite Hsig. pose proof (ri_go _ _ _ _ _ Hi) as Hgo. unfold stopping in Hgo. rewrite Hgo.
  set (s2 := {| bt_manager := _; bt_trace := _; bt_sleeps := _ |}).
  assert (round_inv old config_data j F s2) as Hi2.
  { eapply round_inv_ext; [..|exact Hi]; [apply signal_core|apply signal_stopping|done]. }
  destruct (IH (S j) _ _ ltac:(lia) (launch_round j F s2 Hj Hi2)) as (j' & F' & Hi' & Hj' & Hsub).
  exists j', F'. split_and!; [done|destruct Hj'; [by left|right; lia]|].
  intros n [? _]%Hsub%elem_of_keep. done.
Qed.
End loop.

(** ** The whole start-up *)

Lemma dget_fmap_keys {V W} (h : string → W) (l : odict string V) n :
  dget ((λ kv, (kv.1, h kv.1)) <$> l) n = if decide (n ∈ dkeys l) then Some (h n) else None.
Proof.
  unfold dkeys. induction l as [|[k v] l IH]; [done|]. cbn [fmap list_fmap dget fst]. rewrite IH.
  destruct (decide (k = n)) as [->|Hk].
  - rewrite decide_True; [done|]. left.
  - destruct (decide (n ∈ l.*1)); [rewrite decide_True; [done|by right]|].
    rewrite decide_False; [done|]. by intros [?|?]%elem_of_cons.
Qed.

Lemma foldl_max_base l x : x <= foldl Z.max x l.
Proof. revert x. induction l as [|z l IH]; intros x; simpl; [lia|]. specialize (IH (Z.max x z)). lia. Qed.

Lemma foldl_max_ge l x y : y ∈ x :: l → y <= foldl Z.max x l.
Proof.
  intros [->|Hy]%elem_of_cons; [apply foldl_max_base|].
  revert x Hy. induction l as [|z l IH]; intros x; simpl; [set_solver|].
  intros [->|Hy]%elem_of_cons; [|by apply IH]. pose proof (foldl_max_base l (Z.max x z)). lia.
Qed.

Lemma sort_backends_perm cfg : Permutation ((_sort_backends cfg).1 ++ (_sort_backends cfg).2) cfg.
Proof. unfold _sort_backends. cbn [fst snd]. rewrite keep_partition. symmetry. apply sort_by_perm. Qed.

(** The failed names of a first pass that ran every backend. *)
Lemma first_pass_failed (remote stdio : config) (rs : gmap string (option bool)) n :
  NoDup (dkeys (remote ++ stdio)) →
  (∀ n, n ∈ dkeys (remote ++ stdio) → ∃ ok, rs !! n = Some (Some ok)) →
  let first_pass : odict string bool :=
    dupdate ((λ kv, (kv.1, remote_result (rs !! kv.1))) <$> remote)
      (((λ kv, (kv.1, stdio_result (rs !! kv.1))) <$> stdio) ++ ((λ n, (n, false)) <$> [])) in
  NoDup (keep (λ kv, negb kv.2) first_pass).*1 ∧
  (n ∈ (keep (λ kv, negb kv.2) first_pass).*1 ↔ n ∈ dkeys (remote ++ stdio) ∧ rs !! n = Some (Some false)).
Proof.
  intros Hnd Hrs. cbv zeta. cbn [fmap list_fmap]. rewrite app_nil_r. set (fp := dupdate _ _).
  assert (NoDup (dkeys remote) ∧ NoDup (dkeys stdio)) as [Hr Hs].
  { unfold dkeys in *. rewrite fmap_app in Hnd. apply NoDup_app in Hnd. tauto. }
  assert (∀ (h : string → bool) (l : config), dkeys ((λ kv, (kv.1, h kv.1)) <$> l) = dkeys l) as Hkeys.
  { intros h l. unfold dkeys. rewrite <-list_fmap_compose. done. }
  assert (dict_wf fp) as Hfp.
  { unfold fp. apply dict_wf_dupdate. unfold dict_wf. by rewrite (Hkeys (λ n, remote_result (rs !! n))). }
  split; [by apply NoDup_fmap_keep|].
  transitivity (dget fp n = Some false).
  { rewrite list_elem_of_fmap. split.
    - intros ([k b] & -> & [Hin Hb]%elem_of_keep). destruct b; [done|]. by apply elem_dget.
    - intros H. exists (n, false). split; [done|]. apply elem_of_keep. split; [by apply dget_Some_elem|done]. }
  unfold fp. rewrite dget_dupdate by (unfold dict_wf; by rewrite (Hkeys (λ n, stdio_result (rs !! n)))).
  rewrite (dget_fmap_keys (λ n, stdio_result (rs !! n))), (dget_fmap_keys (λ n, remote_result (rs !! n))).
  assert (n ∈ dkeys (remote ++ stdio) ↔ n ∈ dkeys remote ∨ n ∈ dkeys stdio) as Happ.
  { unfold dkeys. by rewrite fmap_app, elem_of_app. }
  rewrite Happ. destruct (decide (n ∈ dkeys stdio)) as [H1|H1]; [|destruct (decide (n ∈ dkeys remote)) as [H2|H2]].
  - destruct (Hrs n) as [ok ->]; [by apply Happ; right|]. destruct ok; naive_solver.
  - destruct (Hrs n) as [ok ->]; [by apply Happ; left|]. destruct ok; naive_solver.
  - naive_solver.
Qed.

(** When the loop is over, every backend is settled or has spent its budget. *)
Definition start_result (cfg : config) (old : list string) (s : boot) : Prop :=
  mgr_wf (bt_manager s) ∧
  (∀ n c, dget cfg n = Some c → ∃ k ok,
     trace_of n (bt_trace s) = failures n k ++ [(n, k, ok)] ∧ (k ≤ Z.to_nat (retries_of c))%nat ∧
     (ok = false → k = Z.to_nat (retries_of c)) ∧ (n ∈ sessions_of s ↔ ok = true)) ∧
  (∀ n, n ∉ dkeys cfg → trace_of n (bt_trace s) = [] ∧ (n ∈ sessions_of s ↔ n ∈ old)) ∧ stopping s = false.

Lemma round_inv_result old cfg j F s :
  round_inv old cfg j F s →
  (∀ n c, n ∈ F → dget cfg n = Some c → (Z.to_nat (retries_of c) ≤ j - 1)%nat) →
  start_result cfg old s.
Proof.
  intros [Hw Hgo _ _ Hn Ho] HF. split_and!; [done| |done|done].
  intros n c Hc. destruct (Hn n c Hc) as [[Hf [Ht Hs]]|[_ (k & Ht & Hk & Hs)]].
  - specialize (HF n c Hf Hc). exists (Z.to_nat (retries_of c)), false.
    replace (Nat.min (j - 1) _) with (Z.to_nat (retries_of c)) in Ht by lia.
    rewrite failures_S in Ht. split_and!; [done|done|done|naive_solver].
  - exists k, true. split_and!; [done|done|done|naive_solver].
Qed.

Section start_all_proof.
Context (att : string → nat → option attempt) (pre : string → build) (sig : nat → bool)
  (order : list (string * backend_dict) → list (string * backend_dict)) (clock : nat → Z) (fmt : Q → string).
Hypothesis (Hatt : ∀ n k, is_Some (att n k)) (Hsig : ∀ i, sig i = false) (Horder : ∀ l, Permutation (order l) l).

Lemma retry_failed_result cfg old F s :
  round_inv old cfg 1 F s → start_result cfg old (retry_failed_backends att sig order clock fmt F cfg s).
Proof using Hatt Hsig Horder.
  intros Hi. unfold retry_failed_backends. cbv zeta. set (mx := Z.to_nat _).
  destruct (retry_loop_inv att order cfg old Hatt Horder sig clock fmt Hsig mx 1 mx F s ltac:(lia) Hi)
    as (j' & F' & Hi' & Hj' & Hsub).
  eapply round_inv_result; [exact Hi'|]. intros n c Hn Hc. destruct Hj' as [->| ->]; [by apply not_elem_of_nil in Hn|].
  apply Hsub in Hn. unfold mx. destruct F as [|n0 F0]; [by apply not_elem_of_nil in Hn|].
  set (budget := λ n, match dget cfg n with Some c => retries_of c | None => BACKEND_RETRIES end).
  pose proof (foldl_max_ge (budget <$> F0) (budget n0) (retries_of c)) as H.
  assert (retries_of c = budget n) as Hb by (unfold budget; by rewrite Hc).
  rewrite Hb in *.
  change (Z.to_nat (budget n) ≤ 1 + Z.to_nat (foldl Z.max (budget n0) (budget <$> F0)) - 1)%nat.
  enough (budget n <= foldl Z.max (budget n0) (budget <$> F0)) by lia. apply H.
  apply elem_of_cons in Hn as [->|Hn]; [left|right]. by apply list_elem_of_fmap_2.
Qed.

Lemma start_all_result parallel cfg m :
  dict_wf cfg → mgr_wf m → _shutdown_requested m = false →
  (∀ n, n ∈ dkeys cfg → n ∉ dkeys (_sessions m)) →
  start_result cfg (dkeys (_sessions m)) (start_all att pre sig order clock fmt parallel cfg m).
Proof using Hatt Hsig Horder.
  intros Hcfg Hw Hgo Hdis. unfold start_all. pose proof (sort_backends_perm cfg) as Hperm.
  destruct (_sort_backends cfg) as [remote stdio]. cbn [fst snd] in Hperm.
  set (s0 := {| bt_manager := set_progress_cb true m; bt_trace := []; bt_sleeps := [] |}).
  unfold look at 1. rewrite Hsig. replace (_shutdown_requested (bt_manager s0)) with false by done.
  cbn [stdio_plan negb].
  set (l := order (remote ++ stdio)). assert (Permutation l cfg) as Hl by (unfold l; by rewrite Horder).
  assert (∀ n, n ∈ l.*1 ↔ n ∈ dkeys cfg) as Hln by (intros n; unfold dkeys; by rewrite Hl).
  assert (NoDup l.*1) as Hnd by (unfold dict_wf, dkeys in Hcfg; by rewrite Hl).
  pose proof (run_tasks_spec 0 (first_task att pre) l s0 (first_task_attempts att pre (λ n, Hatt n 0%nat)) Hnd) as Hrun.
  destruct (run_tasks (first_task att pre) l s0) as [rs s2].
  destruct Hrun as (Hw2 & Hs2 & Hout & Hin); [by apply (mgr_wf_core m)|intros n Hn; by apply Hdis, Hln|].
  assert (∀ n, n ∈ dkeys (remote ++ stdio) ↔ n ∈ dkeys cfg) as Hrn by (intros n; unfold dkeys; by rewrite Hperm).
  set (F := (keep _ _).*1). unfold look. rewrite Hsig. unfold stopping in Hs2. rewrite Hs2.
  replace (_shutdown_requested (bt_manager s0)) with false by done.
  assert (round_inv (dkeys (_sessions m)) cfg 1 F s2) as Hi.
  { assert (∀ n, NoDup F ∧ (n ∈ F ↔ n ∈ dkeys cfg ∧ rs !! n = Some (Some false))) as HF.
    { intros n. rewrite <-Hrn. apply first_pass_failed; [unfold dkeys; rewrite Hperm; exact Hcfg|].
      intros n' Hn'%Hrn%Hln. destruct (Hin n' Hn') as (ok & Hok & _). eauto. }
    constructor; [done|unfold stopping; by rewrite Hs2|apply (HF "")|intros n Hn; by apply (proj2 (HF n)) in Hn as [? _]| |].
    - intros n c Hc. assert (n ∈ dkeys cfg) as Hnc by (apply dget_is_Some; eauto).
      destruct (Hin n) as (ok & Hr & Ht & Hse); [by apply Hln|]. destruct (HF n) as [_ HFn]. destruct ok.
      + right. rewrite HFn. split; [naive_solver|]. exists 0%nat. split_and!; [done|lia|naive_solver].
      + left. rewrite HFn. split; [done|]. split; [done|naive_solver].
    - intros n Hn. rewrite <-Hln in Hn. apply Hout in Hn as [Ht Hse]. done. }
  assert (start_result cfg (dkeys (_sessions m))
    (match F with [] => s2 | _ => retry_failed_backends att sig order clock fmt F cfg s2 end)) as Hres.
  { destruct F eqn:EF; [|by apply retry_failed_result].
    eapply round_inv_result; [exact Hi|]. intros n c Hn. by apply not_elem_of_nil in Hn. }
  destruct F; destruct Hres as (R1 & R2 & R3 & R4); (split_and!; [refine (mgr_wf_core _ _ _ R1); reflexivity|exact R2|exact R3|exact R4]).
Qed.
End start_all_proof.


(** Two backends: [a] never connects and has no retry, [b] connects at its
    second attempt and may be retried twice. *)
Definition example_conf (i : nat) (r : Z) : backend_dict :=
  {| bd_id := i; bd_type := Some "sse"; bd_params := None; bd_fields := [];
     bd_retries := Some r; bd_retry_delay := None; bd_retry_backoff := None |}.
Definition example_config : config := [("a", example_conf 0 0); ("b", example_conf 1 2)].
Definition example_attempt (n : string) (k : nat) : attempt :=
  {| at_init := 0; at_build := {| b_lines := []; b_error := None |}; at_provider := false; at_end := 0;
     at_stage := if bool_decide (n = "b") && bool_decide (1 ≤ k)%nat
                 then Connected {| ans_tools := FResult RNone; ans_resources := FResult RNone; ans_prompts := FResult RNone |}
                 else AfterStack (FailRaised "refused" None false) |}.
Definition example_start : boot :=
  start_all (λ n k, Some (example_attempt n k)) (λ _, {| b_lines := []; b_error := None |}) (λ _, false)
    (λ l, l) (λ _, 0) (λ _, "5") false example_config new_manager.


(** Every failed backend is marked as retrying in every round, also one whose
    budget is spent and which therefore gets no attempt: [a] ends in the phase
    [RETRYING] although nothing will retry it. *)
Lemma exhausted_backend_left_retrying :
  phase <$> _status_records (bt_manager example_start) !! "a" = Some RETRYING ∧
  ¬ ("a" ∈ dkeys (_sessions (bt_manager example_start))).
Proof. split; [vm_compute; reflexivity|by_decide]. Qed.
