(* ===== verification/Service.v ===== *)
(** * Service runtime (runtime/service.py)

    [ArgusService] owns the client manager and the capability registry and runs
    start, stop, hot reload and reconnect.  Registries are objects: the service,
    the health checker and the MCP server hold references to them, so they live
    in a heap ([sv_heap]) and a reference is an index.  Reload and reconnect
    run under one lock and start-up runs before the server accepts requests, so
    each operation is one step; what files contain, how connections end and in
    which order concurrent tasks and sets are traversed are parameters. *)
From stdpp Require Import pretty sorting.
From Stdlib Require Import QArith.
From S2P Require Import Prelude PyDict Effects Glob Conflict Filter Registry Lifecycle ConfigDiff Backend Startup Authz Auth Chain.
Local Open Scope Z_scope.

Record svc_event := {
  ev_timestamp : string; ev_stage : string; ev_message : string; ev_severity : string; ev_backend : option string }.

(** The part of [ArgusConfig] that the registry is built from. *)
Record filter_pair := { fp_allow : list string; fp_deny : list string }.
Record full_backend := {
  fb_tools : filter_pair; fb_resources : filter_pair; fb_prompts : filter_pair;
  fb_tool_overrides : odict string override; fb_cap_fetch : option Z }.
Record full_config := {
  fc_strategy : string; fc_separator : string; fc_order : list string;
  fc_backends : odict string full_backend }.

(** How reading the configuration fails: with [ConfigurationError]; with one of
    [OSError], [YAMLError], [AttributeError], [KeyError] and [ValueError]; with
    something else.  The strings are the type and the text. *)
Inductive load_error := LConfiguration (msg : string) | LListed (type msg : string) | LOther (type msg : string).

Inductive svc_exn :=
  | InvalidStateTransition (current target : ServiceState)
  | LoadFailed (e : load_error)
  | NoBackends (total : Z).

Definition state_value (s : ServiceState) : string :=
  match s with
  | SPending => "pending" | SStarting => "starting" | SRunning => "running"
  | SStopping => "stopping" | SStopped => "stopped" | SError => "error"
  end.

Definition load_error_text (e : load_error) : string :=
  match e with
  | LConfiguration m => "ConfigurationError: " +:+ m
  | LListed t m | LOther t m => t +:+ ": " +:+ m
  end.
Definition svc_exn_text (e : svc_exn) : string :=
  match e with
  | InvalidStateTransition c t => "_InvalidStateTransition: Invalid state transition: " +:+ state_value c +:+ " → " +:+ state_value t
  | LoadFailed e => load_error_text e
  | NoBackends n => "BackendServerError: Backend server error: Unable to connect to any backend server (" +:+ pretty n +:+
      " configured). Server cannot start."
  end.

(** The bounded buffer of events and the queues of the subscribers. *)
Record svc_log := {
  lg_events : list svc_event;
  lg_emitted : nat;
  lg_subscribers : odict nat (list svc_event);
  lg_next_queue : nat }.

(** The lists the service took from its registry after the last discovery. *)
Record snapshot := { sn_tools : list cap_item; sn_resources : list cap_item; sn_prompts : list cap_item }.

Record service := {
  sv_state : ServiceState;
  sv_error_message : option string;
  sv_config_path : option string;
  sv_config_data : option config;
  sv_manager : manager;
  sv_heap : list (reg_conf * registry);
  sv_registry : nat;
  sv_health_checker : option nat;
  sv_config_watcher : bool;
  sv_ready_event : bool;
  sv_snapshot : snapshot;
  sv_backends_total : Z;
  sv_backends_connected : Z;
  sv_log : svc_log }.

Definition set_state (x : ServiceState) (s : service) : service :=
  {| sv_state := x; sv_error_message := sv_error_message s; sv_config_path := sv_config_path s;
     sv_config_data := sv_config_data s; sv_manager := sv_manager s; sv_heap := sv_heap s;
     sv_registry := sv_registry s; sv_health_checker := sv_health_checker s;
     sv_config_watcher := sv_config_watcher s; sv_ready_event := sv_ready_event s;
     sv_snapshot := sv_snapshot s; sv_backends_total := sv_backends_total s;
     sv_backends_connected := sv_backends_connected s; sv_log := sv_log s |}.
Definition set_error_message (x : option string) (s : service) : service :=
  {| sv_state := sv_state s; sv_error_message := x; sv_config_path := sv_config_path s;
     sv_config_data := sv_config_data s; sv_manager := sv_manager s; sv_heap := sv_heap s;
     sv_registry := sv_registry s; sv_health_checker := sv_health_checker s;
     sv_config_watcher := sv_config_watcher s; sv_ready_event := sv_ready_event s;
     sv_snapshot := sv_snapshot s; sv_backends_total := sv_backends_total s;
     sv_backends_connected := sv_backends_connected s; sv_log := sv_log s |}.
Definition set_config_path (x : option string) (s : service) : service :=
  {| sv_state := sv_state s; sv_error_message := sv_error_message s; sv_config_path := x;
     sv_config_data := sv_config_data s; sv_manager := sv_manager s; sv_heap := sv_heap s;
     sv_registry := sv_registry s; sv_health_checker := sv_health_checker s;
     sv_config_watcher := sv_config_watcher s; sv_ready_event := sv_ready_event s;
     sv_snapshot := sv_snapshot s; sv_backends_total := sv_backends_total s;
     sv_backends_connected := sv_backends_connected s; sv_log := sv_log s |}.
Definition set_config_data (c : config) (s : service) : service :=
  {| sv_state := sv_state s; sv_error_message := sv_error_message s; sv_config_path := sv_config_path s;
     sv_config_data := Some c; sv_manager := sv_manager s; sv_heap := sv_heap s;
     sv_registry := sv_registry s; sv_health_checker := sv_health_checker s;
     sv_config_watcher := sv_config_watcher s; sv_ready_event := sv_ready_event s;
     sv_snapshot := sv_snapshot s; sv_backends_total := Z.of_nat (length c);
     sv_backends_connected := sv_backends_connected s; sv_log := sv_log s |}.
Definition set_manager (m : manager) (s : service) : service :=
  {| sv_state := sv_state s; sv_error_message := sv_error_message s; sv_config_path := sv_config_path s;
     sv_config_data := sv_config_data s; sv_manager := m; sv_heap := sv_heap s;
     sv_registry := sv_registry s; sv_health_checker := sv_health_checker s;
     sv_config_watcher := sv_config_watcher s; sv_ready_event := sv_ready_event s;
     sv_snapshot := sv_snapshot s; sv_backends_total := sv_backends_total s;
     sv_backends_connected := sv_backends_connected s; sv_log := sv_log s |}.
Definition set_connected (n : Z) (s : service) : service :=
  {| sv_state := sv_state s; sv_error_message := sv_error_message s; sv_config_path := sv_config_path s;
     sv_config_data := sv_config_data s; sv_manager := sv_manager s; sv_heap := sv_heap s;
     sv_registry := sv_registry s; sv_health_checker := sv_health_checker s;
     sv_config_watcher := sv_config_watcher s; sv_ready_event := sv_ready_event s;
     sv_snapshot := sv_snapshot s; sv_backends_total := sv_backends_total s; sv_backends_connected := n;
     sv_log := sv_log s |}.
Definition set_registry (h : list (reg_conf * registry)) (i : nat) (s : service) : service :=
  {| sv_state := sv_state s; sv_error_message := sv_error_message s; sv_config_path := sv_config_path s;
     sv_config_data := sv_config_data s; sv_manager := sv_manager s; sv_heap := h; sv_registry := i;
     sv_health_checker := sv_health_checker s; sv_config_watcher := sv_config_watcher s;
     sv_ready_event := sv_ready_event s; sv_snapshot := sv_snapshot s;
     sv_backends_total := sv_backends_total s; sv_backends_connected := sv_backends_connected s;
     sv_log := sv_log s |}.
Definition set_checkers (h : option nat) (w : bool) (s : service) : service :=
  {| sv_state := sv_state s; sv_error_message := sv_error_message s; sv_config_path := sv_config_path s;
     sv_config_data := sv_config_data s; sv_manager := sv_manager s; sv_heap := sv_heap s;
     sv_registry := sv_registry s; sv_health_checker := h; sv_config_watcher := w;
     sv_ready_event := sv_ready_event s; sv_snapshot := sv_snapshot s;
     sv_backends_total := sv_backends_total s; sv_backends_connected := sv_backends_connected s;
     sv_log := sv_log s |}.
Definition set_ready (b : bool) (s : service) : service :=
  {| sv_state := sv_state s; sv_error_message := sv_error_message s; sv_config_path := sv_config_path s;
     sv_config_data := sv_config_data s; sv_manager := sv_manager s; sv_heap := sv_heap s;
     sv_registry := sv_registry s; sv_health_checker := sv_health_checker s;
     sv_config_watcher := sv_config_watcher s; sv_ready_event := b; sv_snapshot := sv_snapshot s;
     sv_backends_total := sv_backends_total s; sv_backends_connected := sv_backends_connected s;
     sv_log := sv_log s |}.
Definition set_snapshot (x : snapshot) (s : service) : service :=
  {| sv_state := sv_state s; sv_error_message := sv_error_message s; sv_config_path := sv_config_path s;
     sv_config_data := sv_config_data s; sv_manager := sv_manager s; sv_heap := sv_heap s;
     sv_registry := sv_registry s; sv_health_checker := sv_health_checker s;
     sv_config_watcher := sv_config_watcher s; sv_ready_event := sv_ready_event s; sv_snapshot := x;
     sv_backends_total := sv_backends_total s; sv_backends_connected := sv_backends_connected s;
     sv_log := sv_log s |}.
Definition set_log (x : svc_log) (s : service) : service :=
  {| sv_state := sv_state s; sv_error_message := sv_error_message s; sv_config_path := sv_config_path s;
     sv_config_data := sv_config_data s; sv_manager := sv_manager s; sv_heap := sv_heap s;
     sv_registry := sv_registry s; sv_health_checker := sv_health_checker s;
     sv_config_watcher := sv_config_watcher s; sv_ready_event := sv_ready_event s;
     sv_snapshot := sv_snapshot s; sv_backends_total := sv_backends_total s;
     sv_backends_connected := sv_backends_connected s; sv_log := x |}.

(** [CapabilityRegistry()] *)
Definition default_conf : reg_conf :=
  {| _strategy := First Build_FirstWinsStrategy; _filters := []; _rename_maps := []; _cap_fetch_timeouts := [] |}.

Definition new_service : service :=
  {| sv_state := SPending; sv_error_message := None; sv_config_path := None; sv_config_data := None;
     sv_manager := new_manager; sv_heap := [(default_conf, empty_registry)]; sv_registry := 0;
     sv_health_checker := None; sv_config_watcher := false; sv_ready_event := false;
     sv_snapshot := {| sn_tools := []; sn_resources := []; sn_prompts := [] |};
     sv_backends_total := 0; sv_backends_connected := 0;
     sv_log := {| lg_events := []; lg_emitted := 0; lg_subscribers := []; lg_next_queue := 0 |} |}.

(** ** The registry configuration *)

Definition _build_capability_filters (full_cfg : full_config) : odict string (odict string CapabilityFilter) :=
  foldl (λ filters '(name, backend),
    let add ct (p : filter_pair) (d : odict string CapabilityFilter) :=
      if negb (bool_decide (fp_allow p = [])) || negb (bool_decide (fp_deny p = []))
      then dset d ct (build_filter (Some (fp_allow p)) (Some (fp_deny p))) else d in
    let svr_filters := add "prompts" (fb_prompts backend)
      (add "resources" (fb_resources backend) (add "tools" (fb_tools backend) [])) in
    match svr_filters with [] => filters | _ => dset filters name svr_filters end)
  [] (fc_backends full_cfg).

Definition _build_rename_maps (full_cfg : full_config) : odict string RenameMap :=
  foldl (λ maps '(name, backend),
    match fb_tool_overrides backend with
    | [] => maps
    | ovs => dset maps name (build_rename_map (Some ovs))
    end) [] (fc_backends full_cfg).

Definition _build_cap_fetch_timeouts (full_cfg : full_config) : odict string Z :=
  foldl (λ ts '(name, backend),
    match fb_cap_fetch backend with Some t => dset ts name t | None => ts end) [] (fc_backends full_cfg).

(** [_build_registry]: the configuration of the new registry.  A listed error,
    or a strategy that cannot be created, falls back to the defaults; any other
    exception of the loader escapes. *)
Definition _build_registry (config_path : option string) (loaded : load_error + full_config)
    : svc_exn + reg_conf :=
  if negb (str_truthy config_path) then inr default_conf
  else
    match loaded with
    | inl (LListed _ _) => inr default_conf
    | inl e => inl (LoadFailed e)
    | inr full_cfg =>
        match create_strategy (fc_strategy full_cfg) (fc_separator full_cfg)
                (match fc_order full_cfg with [] => None | o => Some o end) with
        | inl _ => inr default_conf
        | inr st => inr {| _strategy := st; _filters := _build_capability_filters full_cfg;
                           _rename_maps := _build_rename_maps full_cfg;
                           _cap_fetch_timeouts := _build_cap_fetch_timeouts full_cfg |}
        end
    end.

(** ** Events *)

Section service.
(** The text of the clock at the [n]-th event. *)
Context (stamp : nat → string).

Definition EVENT_BUFFER : nat := 500.
Definition QUEUE_SIZE : nat := 256.

(** [deque(maxlen=500).append] *)
Definition push_event (l : list svc_event) (e : svc_event) : list svc_event :=
  let l' := l ++ [e] in drop (length l' - EVENT_BUFFER) l'.

(** [queue.put_nowait], dropping the event when the queue is full. *)
Definition put_nowait (q : list svc_event) (e : svc_event) : list svc_event :=
  if bool_decide (length q < QUEUE_SIZE)%nat then q ++ [e] else q.

Definition emit_event (stage message severity : string) (backend : option string) (s : service) : service :=
  let lg := sv_log s in
  let e := {| ev_timestamp := stamp (lg_emitted lg); ev_stage := stage; ev_message := message;
              ev_severity := severity; ev_backend := backend |} in
  set_log {| lg_events := push_event (lg_events lg) e; lg_emitted := S (lg_emitted lg);
             lg_subscribers := (λ kq, (kq.1, put_nowait kq.2 e)) <$> lg_subscribers lg;
             lg_next_queue := lg_next_queue lg |} s.

Definition get_events (limit : nat) (since severity : option string) (s : service) : list svc_event :=
  let r0 := lg_events (sv_log s) in
  let r1 := if str_truthy since then keep (λ e, String.ltb (default "" since) (ev_timestamp e)) r0 else r0 in
  let r2 := if str_truthy severity then keep (λ e, bool_decide (Some (ev_severity e) = severity)) r1 else r1 in
  match limit with O => r2 | _ => drop (length r2 - limit) r2 end.

Definition subscribe (s : service) : nat * service :=
  let lg := sv_log s in
  (lg_next_queue lg,
   set_log {| lg_events := lg_events lg; lg_emitted := lg_emitted lg;
              lg_subscribers := lg_subscribers lg ++ [(lg_next_queue lg, [])];
              lg_next_queue := S (lg_next_queue lg) |} s).

Definition unsubscribe (q : nat) (s : service) : service :=
  let lg := sv_log s in
  set_log {| lg_events := lg_events lg; lg_emitted := lg_emitted lg;
             lg_subscribers := ddel (lg_subscribers lg) q; lg_next_queue := lg_next_queue lg |} s.

(** ** The state machine *)

Abbreviation svc := (M service svc_exn).

Definition _transition (target : ServiceState) : svc () :=
  s ← get_state;
  if negb (is_valid_transition (sv_state s) target)
  then raise (InvalidStateTransition (sv_state s) target)
  else
    modify (set_state target) ≫= λ _,
    modify (emit_event "status" ("State changed: " +:+ state_value (sv_state s) +:+ " → " +:+ state_value target)
              "info" None).

(** ** Discovery *)

(** [discover_and_register(sessions)] on a new registry, for a completion order. *)
Definition discovered (order : list task → list task) (conf : reg_conf) (sessions : odict string session) : registry :=
  discover_and_register conf
    (order (discover_tasks ((λ kv, (kv.1, Some (ses_answers kv.2))) <$> sessions))).

(** A new registry object becomes the registry of the service. *)
Definition install (conf : reg_conf) (r : registry) (s : service) : service :=
  set_registry (sv_heap s ++ [(conf, r)]) (length (sv_heap s)) s.

Definition snapshot_of (r : registry) : snapshot :=
  {| sn_tools := _tools r; sn_resources := _resources r; sn_prompts := _prompts r |}.

(** Build a registry, discover into it and take the snapshot. *)
Definition rediscover (loaded : load_error + full_config) (order : list task → list task) : svc () :=
  s ← get_state;
  match _build_registry (sv_config_path s) loaded with
  | inl e => raise e
  | inr conf =>
      let r := discovered order conf (get_all_sessions (sv_manager s)) in
      modify (λ s, set_snapshot (snapshot_of r) (install conf r s))
  end.

(** ** Start *)

(** What a start meets: the configuration, as it is read for the backends, the
    registry and the groups, the conduct of the backends (Startup.v) and the
    completion order of the discovery. *)
Record start_env := {
  se_load : load_error + config;
  se_full : load_error + full_config;
  se_groups : load_error + unit;
  se_att : string → nat → option attempt;
  se_pre : string → build;
  se_sig : nat → bool;
  se_sched : list (string * backend_dict) → list (string * backend_dict);
  se_clock : nat → Z;
  se_fmt : Q → string;
  se_parallel : bool;
  se_order : list task → list task }.

(** [_event_progress_cb] *)
Definition progress_to_event (s : service) (p : progress_event) : service :=
  let severity := if bool_decide (pg_phase p = "failed") then "error"
                  else if bool_decide (pg_phase p = "retrying") then "warning" else "info" in
  emit_event ("backend_" +:+ pg_phase p) ("[" +:+ pg_backend p +:+ "] " +:+ str_or (pg_message p) (pg_phase p))
    severity (Some (pg_backend p)) s.

(** [await self._manager.start_all(...)]: the events are those of the progress
    reports the manager makes meanwhile. *)
Definition run_start_all (env : start_env) (c : config) (s : service) : service :=
  let m := bt_manager (start_all (se_att env) (se_pre env) (se_sig env) (se_sched env) (se_clock env)
                         (se_fmt env) (se_parallel env) c (sv_manager s)) in
  foldl progress_to_event (set_manager m s) (drop (length (m_progress (sv_manager s))) (m_progress m)).

(** [_build_group_manager] raises as the loader does. *)
Definition check_groups (env : start_env) : svc () :=
  s ← get_state;
  match se_groups env with
  | inl (LListed _ _) | inr _ => mret ()
  | inl e => if str_truthy (sv_config_path s) then raise (LoadFailed e) else mret ()
  end.

Definition count_text (s : service) : string :=
  "Capabilities: " +:+ pretty (length (sn_tools (sv_snapshot s))) +:+ " tools, " +:+
  pretty (length (sn_resources (sv_snapshot s))) +:+ " resources, " +:+
  pretty (length (sn_prompts (sv_snapshot s))) +:+ " prompts.".

(** From the check that some backend connected to the running state. *)
Definition finish_start (env : start_env) (conf : reg_conf) : svc () :=
  s ← get_state;
  let connected := sv_backends_connected s in
  if (connected =? 0) && (0 <? sv_backends_total s) then raise (NoBackends (sv_backends_total s))
  else
    modify (emit_event "backend_connected" ("Backend connections: " +:+ pretty connected +:+ "/" +:+
              pretty (sv_backends_total s) +:+ " active.") "info" None) ≫= λ _,
    (if 0 <? connected then
       modify (λ s,
         let r := discovered (se_order env) conf (get_all_sessions (sv_manager s)) in
         set_snapshot (snapshot_of r)
           (set_registry (<[sv_registry s := (conf, r)]> (sv_heap s)) (sv_registry s) s)) ≫= λ _,
       modify (λ s, emit_event "capability_change" (count_text s) "info" None s)
     else mret ()) ≫= λ _,
    _transition SRunning ≫= λ _,
    modify (set_ready true) ≫= λ _,
    modify (λ s, set_checkers (Some (sv_registry s))
                   (if str_truthy (sv_config_path s) then true else sv_config_watcher s) s).

Definition start_body (config_path : string) (env : start_env) : svc () :=
  modify (emit_event "config" ("Loading configuration: " +:+ config_path) "info" None) ≫= λ _,
  match se_load env with
  | inl e => raise (LoadFailed e)
  | inr c =>
      modify (set_config_data c) ≫= λ _,
      modify (emit_event "config" ("Configuration loaded: " +:+ pretty (length c) +:+ " backend(s) defined.") "info" None) ≫= λ _,
      match _build_registry (Some config_path) (se_full env) with
      | inl e => raise e
      | inr conf =>
          modify (install conf empty_registry) ≫= λ _,
          check_groups env ≫= λ _,
          modify (emit_event "backend_init" ("Connecting " +:+ pretty (length c) +:+ " backend service(s)...") "info" None) ≫= λ _,
          modify (run_start_all env c) ≫= λ _,
          modify (λ s, set_connected (get_active_session_count (sv_manager s)) s) ≫= λ _,
          finish_start env conf
      end
  end.

Definition start (config_path : string) (env : start_env) : svc () :=
  _transition SStarting ≫= λ _,
  modify (set_error_message None) ≫= λ _,
  modify (set_config_path (Some config_path)) ≫= λ _,
  try_except (start_body config_path env) (λ e,
    modify (set_error_message (Some (svc_exn_text e))) ≫= λ _,
    _transition SError ≫= λ _,
    modify (set_ready false) ≫= λ _,
    raise e).

(** ** Stop *)

(** Stopping the watcher or the health checker re-raises what ended its task:
    whether it is a [RuntimeError], and the type and text. *)
Definition task_error : Type := option (bool * string).

(** The body of the [try] up to the last transition; [Some] when it raised. *)
Definition teardown (now : Z) (watcher_error health_error : task_error) (s : service) : task_error * service :=
  match (if sv_config_watcher s then watcher_error else None) with
  | Some e => (Some e, s)
  | None =>
      let s1 := set_checkers (sv_health_checker s) false s in
      match (match sv_health_checker s1 with Some _ => health_error | None => None end) with
      | Some e => (Some e, s1)
      | None =>
          let s2 := set_checkers None false s1 in
          (None, set_manager (stop_all now (sv_manager s2)) s2)
      end
  end.

Definition stop_body (now : Z) (watcher_error health_error : task_error) : svc () :=
  finally_
    (λ s, match teardown now watcher_error health_error s with
          | (None, s') => _transition SStopped s'
          | (Some (true, _), s') => _transition SStopped s'
          | (Some (false, text), s') =>
              _transition SError (set_error_message (Some ("Shutdown error: " +:+ text)) s')
          end)
    (set_ready false).

Definition stop (now : Z) (watcher_error health_error : task_error) : svc () :=
  s ← get_state;
  match sv_state s with
  | SRunning | SError => _transition SStopping ≫= λ _, stop_body now watcher_error health_error
  | SStarting =>
      modify (set_state SError) ≫= λ _,
      _transition SStopping ≫= λ _, stop_body now watcher_error health_error
  | SStopped | SPending | SStopping => mret ()
  end.

(** What a stop has done when it is cut off while the manager closes its
    stacks, [closed] of them done. *)
Definition cut_off_stop (now : Z) (closed : nat) (s : service) : service :=
  let shut r := if is_operational r then apply_op r (OpTransition now SHUTTING_DOWN "Graceful shutdown") else r in
  let m := sv_manager s in
  let m1 := set_records (shut <$> _status_records m) m in
  let m2 := set_stacks (_backend_stacks m1) (m_next m1)
              (m_closed m1 ++ take closed (dvalues (_backend_stacks m1))) m1 in
  set_ready false (set_checkers None false (set_manager m2 s)).

(** A [shutdown] that stops in time, or whose stop is cut off. *)
Definition shutdown (timeout_text : string) (now : Z) (watcher_error health_error : task_error)
    (cut_off : option nat) : svc () :=
  modify (emit_event "status" "Shutdown requested via management API." "info" None) ≫= λ _,
  s ← get_state;
  match cut_off with
  | Some closed =>
      if bool_decide (sv_state s ∈ [SRunning; SError; SStarting]) then
        (if bool_decide (sv_state s = SStarting) then modify (set_state SError) else mret ()) ≫= λ _,
        _transition SStopping ≫= λ _,
        modify (cut_off_stop now closed) ≫= λ _,
        modify (set_error_message (Some ("Shutdown timed out after " +:+ timeout_text +:+ "s"))) ≫= λ _,
        modify (set_state SError)
      else stop now watcher_error health_error
  | None => stop now watcher_error health_error
  end.

(** ** Reload *)

Record reload_result := {
  rr_reloaded : bool; rr_added : list string; rr_removed : list string; rr_changed : list string;
  rr_errors : list string }.

Definition not_reloaded (errors : list string) : reload_result :=
  {| rr_reloaded := false; rr_added := []; rr_removed := []; rr_changed := []; rr_errors := errors |}.

(** [sorted(names)] *)
Definition sorted_names (X : gset string) : list string := merge_sort String.le (elements X).

Definition _disconnect_backend (name : string) (m : manager) : manager :=
  match get_session name m with Some _ => disconnect_one name m | None => m end.

(** [_start_backend_svr] returns [False] instead of raising. *)
Definition _connect_backend (a : string → attempt) (name : string) (c : backend_dict) (m : manager) : bool * manager :=
  start_backend_svr name c (a name) m.

(** One name of the two connecting loops: the manager and the errors so far. *)
Definition connect_step (a : string → attempt) (new_config : config) (label : string)
    (acc : manager * list string) (name : string) : manager * list string :=
  match dget new_config name with
  | None => acc
  | Some c =>
      let '(success, m) := _connect_backend a name c acc.1 in
      (m, if success then acc.2 else acc.2 ++ ["Failed to " +:+ label +:+ " backend '" +:+ name +:+ "'."])
  end.
Definition reconnect_step (a : string → attempt) (new_config : config) (acc : manager * list string) (name : string)
    : manager * list string :=
  connect_step a new_config "reconnect" (_disconnect_backend name acc.1, acc.2) name.

(** The three loops over the difference; [iter] is the order of a set. *)
Definition apply_diff (a : string → attempt) (iter : gset string → list string) (d : ConfigDiff)
    (new_config : config) (m : manager) : manager * list string :=
  let m1 := foldl (λ m name, _disconnect_backend name m) m (iter (removed d)) in
  let acc := foldl (reconnect_step a new_config) (m1, []) (iter (changed d)) in
  foldl (connect_step a new_config "connect new") acc (iter (added d)).

Definition diff_summary (d : ConfigDiff) : string :=
  "+" +:+ pretty (size (added d)) +:+ " -" +:+ pretty (size (removed d)) +:+ " ~" +:+ pretty (size (changed d)).

Record reload_env := {
  re_load : load_error + config;
  re_full : load_error + full_config;
  re_attempt : string → attempt;
  re_iter : gset string → list string;
  re_order : list task → list task }.

Definition reload (env : reload_env) : svc reload_result :=
  s ← get_state;
  if negb (bool_decide (sv_state s = SRunning))
  then mret (not_reloaded ["Cannot reload in state: " +:+ state_value (sv_state s)])
  else
    match sv_config_path s with
    | None => mret (not_reloaded ["No config path available."])
    | Some _ =>
        modify (emit_event "config_reloaded" "Reloading configuration..." "info" None) ≫= λ _,
        match re_load env with
        | inl (LListed t m) =>
            let msg := "Config reload failed: " +:+ t +:+ ": " +:+ m in
            modify (emit_event "config_reloaded" msg "error" None) ≫= λ _, mret (not_reloaded [msg])
        | inl e => raise (LoadFailed e)
        | inr new_config =>
            let d := compute_diff (default [] (sv_config_data s)) new_config in
            let '(m, errors) := apply_diff (re_attempt env) (re_iter env) d new_config (sv_manager s) in
            modify (set_manager m) ≫= λ _,
            modify (set_config_data new_config) ≫= λ _,
            modify (set_connected (get_active_session_count m)) ≫= λ _,
            match get_all_sessions m with
            | [] => mret ()
            | _ => rediscover (re_full env) (re_order env)
            end ≫= λ _,
            modify (emit_event "config_reloaded" ("Config reloaded: " +:+ diff_summary d) "info" None) ≫= λ _,
            mret {| rr_reloaded := true; rr_added := sorted_names (added d); rr_removed := sorted_names (removed d);
                    rr_changed := sorted_names (changed d); rr_errors := errors |}
        end
    end.

(** ** Reconnect *)

Record reconnect_result := { rc_reconnected : bool; rc_error : option string }.

(** How the bounded part of a reconnect ends.  A timeout while connecting is
    caught by the attempt itself; the others interrupt the disconnection or
    the discovery, with the tasks that had completed. *)
Inductive reconnect_end := RcDone | RcTimeoutDisconnect | RcTimeoutDiscover (completed : list task).

Record reconnect_env := {
  rc_full : load_error + full_config;
  rc_attempt : attempt;
  rc_order : list task → list task;
  rc_end : reconnect_end;
  rc_timeout : string }.

Definition recount : svc () := modify (λ s, set_connected (get_active_session_count (sv_manager s)) s).

(** An interrupted discovery: the new registry object stays installed, with the
    routes found so far and empty lists. *)
Definition interrupted (loaded : load_error + full_config) (completed : list task) : svc () :=
  s ← get_state;
  match _build_registry (sv_config_path s) loaded with
  | inl e => raise e
  | inr conf => modify (install conf (during_discovery conf completed empty_registry))
  end.

(** [None] when the timeout strikes. *)
Definition _do_reconnect (name : string) (c : backend_dict) (env : reconnect_env) : svc (option reconnect_result) :=
  modify (emit_event "backend_disconnected" ("Reconnecting backend '" +:+ name +:+ "'...") "info" (Some name)) ≫= λ _,
  modify (λ s, set_manager (_disconnect_backend name (sv_manager s)) s) ≫= λ _,
  match rc_end env with
  | RcTimeoutDisconnect => mret None
  | _ =>
      s ← get_state;
      let '(success, m) := _connect_backend (λ _, rc_attempt env) name c (sv_manager s) in
      modify (set_manager m) ≫= λ _,
      if success then
        match rc_end env with
        | RcTimeoutDiscover completed => interrupted (rc_full env) completed ≫= λ _, mret None
        | _ =>
            rediscover (rc_full env) (rc_order env) ≫= λ _,
            recount ≫= λ _,
            modify (emit_event "backend_connected" ("Backend '" +:+ name +:+ "' reconnected.") "info" (Some name)) ≫= λ _,
            mret (Some {| rc_reconnected := true; rc_error := None |})
        end
      else
        recount ≫= λ _,
        mret (Some {| rc_reconnected := false; rc_error := Some ("Failed to reconnect backend '" +:+ name +:+ "'.") |})
  end.

Definition reconnect_backend (name : string) (env : reconnect_env) : svc reconnect_result :=
  s ← get_state;
  if negb (bool_decide (sv_state s = SRunning))
  then mret {| rc_reconnected := false; rc_error := Some ("Cannot reconnect in state: " +:+ state_value (sv_state s)) |}
  else
    match dget (default [] (sv_config_data s)) name with
    | None => mret {| rc_reconnected := false; rc_error := Some ("Backend '" +:+ name +:+ "' not found in configuration.") |}
    | Some c =>
        try_except
          (r ← _do_reconnect name c env;
           match r with
           | Some r => mret r
           | None =>
               modify (λ s, set_manager (_disconnect_backend name (sv_manager s)) s) ≫= λ _,
               recount ≫= λ _,
               mret {| rc_reconnected := false; rc_error := Some ("Reconnect timed out after " +:+ rc_timeout env +:+ "s.") |}
           end)
          (λ e, mret {| rc_reconnected := false; rc_error := Some (svc_exn_text e) |})
    end.
End service.

(** ** Applying a difference *)

Lemma disconnect_backend_wf n m : mgr_wf m → mgr_wf (_disconnect_backend n m).
Proof. intros. unfold _disconnect_backend. case_match; auto with argus. Qed.

Lemma disconnect_backend_sessions n m k :
  mgr_wf m → dget (_sessions (_disconnect_backend n m)) k = if decide (n = k) then None else dget (_sessions m) k.
Proof.
  intros Hw. unfold _disconnect_backend, get_session. destruct (dget (_sessions m) n) eqn:E.
  - cbn [disconnect_one set_providers set_sessions set_stacks _sessions]. apply dget_ddel, Hw.
  - case_decide; congruence.
Qed.

Lemma disconnect_backend_next n m : m_next (_disconnect_backend n m) = m_next m.
Proof. unfold _disconnect_backend. by case_match. Qed.

Lemma disconnect_all_spec l m :
  mgr_wf m →
  let m' := foldl (λ m n, _disconnect_backend n m) m l in
  mgr_wf m' ∧ m_next m' = m_next m ∧
  ∀ k, dget (_sessions m') k = if decide (k ∈ l) then None else dget (_sessions m) k.
Proof.
  revert m. induction l as [|n l IH]; intros m Hw; cbn [foldl].
  { split_and!; [done|done|]. intros k. rewrite decide_False; [done|apply not_elem_of_nil]. }
  destruct (IH _ (disconnect_backend_wf n m Hw)) as (H1 & H2 & H3). split_and!; [done| |].
  - by rewrite H2, disconnect_backend_next.
  - intros k. rewrite H3, disconnect_backend_sessions by done.
    destruct (decide (k ∈ l)); [rewrite decide_True; [done|by right]|].
    destruct (decide (n = k)) as [->|]; [rewrite decide_True; [done|left]|].
    rewrite decide_False; [done|]. rewrite elem_of_cons. naive_solver.
Qed.

Section diff.
Context (a : string → attempt) (new_config : config).

(** A step that connects its name: what it may rely on and what it does. *)
Definition connects (f : manager * list string → string → manager * list string)
    (P : option session → Prop) (msg : string → string) : Prop :=
  ∀ acc n, is_Some (dget new_config n) → mgr_wf acc.1 → P (dget (_sessions acc.1) n) →
  let acc' := f acc n in
  mgr_wf acc'.1 ∧ (m_next acc.1 ≤ m_next acc'.1)%nat ∧
  (∀ k, k ≠ n → dget (_sessions acc'.1) k = dget (_sessions acc.1) k) ∧
  (∀ s, dget (_sessions acc'.1) n = Some s → (m_next acc.1 ≤ ses_stack s)%nat) ∧
  acc'.2 = acc.2 ++ (if dmem (_sessions acc'.1) n then [] else [msg n]).

Definition reconnect_msg (n : string) : string := "Failed to reconnect backend '" +:+ n +:+ "'.".
Definition connect_msg (n : string) : string := "Failed to connect new backend '" +:+ n +:+ "'.".

Lemma connect_step_connects label msg :
  (∀ n, msg n = "Failed to " +:+ label +:+ " backend '" +:+ n +:+ "'.") →
  connects (connect_step a new_config label) (λ x, x = None) msg.
Proof.
  intros Hmsg acc n [c Hc] Hw Hn. unfold connect_step, _connect_backend. rewrite Hc.
  destruct (start_backend_svr n c (a n) acc.1) as [b m'] eqn:E. cbn [fst snd].
  assert (mgr_wf m') as Hw'.
  { replace m' with (start_backend_svr n c (a n) acc.1).2 by (by rewrite E). apply attempt_wf; [done|].
    by apply dget_None. }
  rewrite <-Hmsg. unfold dmem.
  apply attempt_cases in E as [[-> E]|[[-> E]|(-> & ans & _ & E)]]; unfold core, prepared, connected in E;
    injection E as E1 E2 E3 E4; rewrite ?E1, ?E3.
  - rewrite Hn. split_and!; [done|lia|done|done|done].
  - rewrite Hn. split_and!; [done|lia|done|done|done].
  - rewrite dget_dset_eq, app_nil_r. split_and!; [done|lia| | |done].
    + intros k Hk. by rewrite dget_dset_ne.
    + intros s Hs. injection Hs as <-. simpl. lia.
Qed.

Lemma reconnect_step_connects : connects (reconnect_step a new_config) (λ _, True) reconnect_msg.
Proof.
  intros acc n Hc Hw _. unfold reconnect_step.
  destruct (connect_step_connects "reconnect" reconnect_msg (λ _, eq_refl) (_disconnect_backend n acc.1, acc.2) n)
    as (H1 & H2 & H3 & H4 & H5); cbn [fst snd] in *.
  - done.
  - by apply disconnect_backend_wf.
  - rewrite disconnect_backend_sessions by done. by rewrite decide_True.
  - rewrite disconnect_backend_next in *. split_and!; [done|done| |done|done].
    intros k Hk. rewrite H3, disconnect_backend_sessions by done. by rewrite decide_False.
Qed.

Lemma connect_loop_spec f P msg l acc :
  connects f P msg → NoDup l → (∀ n, n ∈ l → is_Some (dget new_config n)) → mgr_wf acc.1 →
  (∀ n, n ∈ l → P (dget (_sessions acc.1) n)) →
  let acc' := foldl f acc l in
  mgr_wf acc'.1 ∧ (m_next acc.1 ≤ m_next acc'.1)%nat ∧
  (∀ k, k ∉ l → dget (_sessions acc'.1) k = dget (_sessions acc.1) k) ∧
  (∀ n s, n ∈ l → dget (_sessions acc'.1) n = Some s → (m_next acc.1 ≤ ses_stack s)%nat) ∧
  acc'.2 = acc.2 ++ (msg <$> keep (λ n, negb (dmem (_sessions acc'.1) n)) l).
Proof.
  intros Hf. revert acc. induction l as [|n l IH]; intros acc Hnd Hc Hw HP; cbn [foldl].
  { split_and!; [done|lia|done|set_solver|by rewrite app_nil_r]. }
  apply NoDup_cons in Hnd as [Hn Hnd].
  destruct (Hf acc n) as (A1 & A2 & A3 & A4 & A5); [apply Hc; left|done|apply HP; left|].
  destruct (IH (f acc n)) as (B1 & B2 & B3 & B4 & B5); [done|intros; apply Hc; by right|done| |].
  { intros k Hk. rewrite A3 by (intros ->; done). apply HP. by right. }
  split_and!; [done|lia| | |].
  - intros k [Hk1 Hk2]%not_elem_of_cons. by rewrite B3, A3.
  - intros k s [->|Hk]%elem_of_cons Hs; [|specialize (B4 k s Hk Hs); lia].
    rewrite B3 in Hs by done. by apply A4.
  - assert (dmem (_sessions (foldl f (f acc n) l).1) n = dmem (_sessions (f acc n).1) n) as Hd
      by (unfold dmem; by rewrite B3).
    rewrite B5, A5, <-app_assoc. f_equal. cbn [keep]. rewrite Hd. by destruct (dmem (_sessions (f acc n).1) n).
Qed.

(** The sessions after a difference has been applied, and the errors. *)
Lemma apply_diff_spec iter old m :
  (∀ X, Permutation (iter X) (elements X)) → mgr_wf m →
  (∀ n, n ∈ dkeys (_sessions m) → n ∈ dkeys old) →
  let d := compute_diff old new_config in
  let '(m', errs) := apply_diff a iter d new_config m in
  let failed n := negb (dmem (_sessions m') n) in
  mgr_wf m' ∧
  (∀ n, n ∉ dkeys new_config → dget (_sessions m') n = None) ∧
  (∀ n, n ∈ dkeys new_config → n ∉ changed d → n ∉ added d → dget (_sessions m') n = dget (_sessions m) n) ∧
  (∀ n s, n ∈ changed d ∨ n ∈ added d → dget (_sessions m') n = Some s → (m_next m ≤ ses_stack s)%nat) ∧
  errs = (reconnect_msg <$> keep failed (iter (changed d))) ++ (connect_msg <$> keep failed (iter (added d))).
Proof.
  intros Hiter Hw Hold. cbv zeta. unfold apply_diff. set (d := compute_diff old new_config).
  assert (∀ X n, n ∈ iter X ↔ n ∈ X) as Hin by (intros X n; rewrite Hiter; apply elem_of_elements).
  assert (∀ X, NoDup (iter X)) as Hnd by (intros X; rewrite Hiter; apply NoDup_elements).
  destruct (disconnect_all_spec (iter (removed d)) m Hw) as (R1 & R2 & R3).
  set (m1 := foldl (λ m n, _disconnect_backend n m) m (iter (removed d))) in *.
  destruct (connect_loop_spec _ _ _ (iter (changed d)) (m1, []) reconnect_step_connects (Hnd _)) as (C1 & C2 & C3 & C4 & C5).
  { intros n (o & e & _ & He & _)%Hin%elem_changed. eauto. }
  { done. } { done. }
  set (acc := foldl (reconnect_step a new_config) (m1, []) (iter (changed d))) in *.
  cbn [fst snd] in C2, C3, C4, C5.
  assert (∀ n, n ∈ added d → (n ∉ changed d) ∧ (n ∉ removed d) ∧ dget (_sessions m) n = None) as Hadd.
  { intros n [Hn Ho]%elem_added. split_and!.
    - intros (o & e & Ho' & _)%elem_changed. apply Ho, dget_is_Some. eauto.
    - intros [? _]%elem_removed. done.
    - apply dget_None. naive_solver. }
  assert (∀ n, n ∈ added d → dget (_sessions acc.1) n = None) as Hacc.
  { intros n Hn. destruct (Hadd n Hn) as (H1 & H2 & H3). rewrite C3 by (by rewrite Hin).
    rewrite R3. by case_decide. }
  destruct (connect_loop_spec _ _ _ (iter (added d)) acc
    (connect_step_connects "connect new" connect_msg (λ _, eq_refl)) (Hnd _)) as (A1 & A2 & A3 & A4 & A5).
  { intros n [? _]%Hin%elem_added. by apply dget_is_Some. }
  { done. } { intros n Hn%Hin. auto. }
  destruct (foldl (connect_step a new_config "connect new") acc (iter (added d))) as [m' errs].
  cbn [fst snd] in *. split_and!; [done| | | |].
  - intros n Hn. assert (n ∉ added d) by (intros [? _]%elem_added; done).
    assert (n ∉ changed d) by (intros (o & e & _ & He & _)%elem_changed; apply Hn, dget_is_Some; eauto).
    rewrite A3, C3 by (by rewrite Hin). rewrite R3. case_decide as Hr; [done|].
    apply dget_None. intros Hs%Hold. apply Hr, Hin, elem_removed. done.
  - intros n Hn Hc Ha. rewrite A3, C3 by (by rewrite Hin). rewrite R3.
    rewrite decide_False; [done|]. intros [_ ?]%Hin%elem_removed. done.
  - intros n s [Hc|Ha] Hs.
    + destruct (decide (n ∈ added d)) as [Ha|Ha]; [by apply Hadd in Ha as [? _]|].
      rewrite A3 in Hs by (by rewrite Hin). rewrite <-R2. eapply C4; [by apply Hin|done].
    + etrans; [|eapply (A4 n s); [by apply Hin|done]]. lia.
  - rewrite A5, C5. cbn [app]. f_equal. f_equal. apply keep_ext. intros n Hn%Hin. unfold dmem. f_equal.
    rewrite A3; [done|]. rewrite Hin. intros Ha. by apply Hadd in Ha as [? _].
Qed.
End diff.

(** ** The log is on the outside

    Every state below is brought into the form [set_log lg s'], where [s'] has
    no event in it. *)

Lemma emit_event_log stamp a b c d s : ∃ lg, emit_event stamp a b c d s = set_log lg s.
Proof. by eexists. Qed.
Lemma set_state_log x lg s : set_state x (set_log lg s) = set_log lg (set_state x s).
Proof. done. Qed.
Lemma set_error_message_log x lg s : set_error_message x (set_log lg s) = set_log lg (set_error_message x s).
Proof. done. Qed.
Lemma set_config_path_log x lg s : set_config_path x (set_log lg s) = set_log lg (set_config_path x s).
Proof. done. Qed.
Lemma set_config_data_log x lg s : set_config_data x (set_log lg s) = set_log lg (set_config_data x s).
Proof. done. Qed.
Lemma set_manager_log x lg s : set_manager x (set_log lg s) = set_log lg (set_manager x s).
Proof. done. Qed.
Lemma set_connected_log x lg s : set_connected x (set_log lg s) = set_log lg (set_connected x s).
Proof. done. Qed.
Lemma set_registry_log x y lg s : set_registry x y (set_log lg s) = set_log lg (set_registry x y s).
Proof. done. Qed.
Lemma set_checkers_log x y lg s : set_checkers x y (set_log lg s) = set_log lg (set_checkers x y s).
Proof. done. Qed.
Lemma set_ready_log x lg s : set_ready x (set_log lg s) = set_log lg (set_ready x s).
Proof. done. Qed.
Lemma set_snapshot_log x lg s : set_snapshot x (set_log lg s) = set_log lg (set_snapshot x s).
Proof. done. Qed.
Lemma install_log x y lg s : install x y (set_log lg s) = set_log lg (install x y s).
Proof. done. Qed.
Lemma set_log_log lg lg' s : set_log lg (set_log lg' s) = set_log lg s.
Proof. done. Qed.
Lemma state_set_log lg s : sv_state (set_log lg s) = sv_state s.
Proof. done. Qed.
Lemma error_message_set_log lg s : sv_error_message (set_log lg s) = sv_error_message s.
Proof. done. Qed.
Lemma config_path_set_log lg s : sv_config_path (set_log lg s) = sv_config_path s.
Proof. done. Qed.
Lemma config_data_set_log lg s : sv_config_data (set_log lg s) = sv_config_data s.
Proof. done. Qed.
Lemma manager_set_log lg s : sv_manager (set_log lg s) = sv_manager s.
Proof. done. Qed.
Lemma heap_set_log lg s : sv_heap (set_log lg s) = sv_heap s.
Proof. done. Qed.
Lemma registry_set_log lg s : sv_registry (set_log lg s) = sv_registry s.
Proof. done. Qed.
Lemma health_checker_set_log lg s : sv_health_checker (set_log lg s) = sv_health_checker s.
Proof. done. Qed.
Lemma config_watcher_set_log lg s : sv_config_watcher (set_log lg s) = sv_config_watcher s.
Proof. done. Qed.
Lemma ready_event_set_log lg s : sv_ready_event (set_log lg s) = sv_ready_event s.
Proof. done. Qed.
Lemma snapshot_set_log lg s : sv_snapshot (set_log lg s) = sv_snapshot s.
Proof. done. Qed.
Lemma backends_total_set_log lg s : sv_backends_total (set_log lg s) = sv_backends_total s.
Proof. done. Qed.
Lemma backends_connected_set_log lg s : sv_backends_connected (set_log lg s) = sv_backends_connected s.
Proof. done. Qed.
Create Rewrite HintDb svlog.
#[export] Hint Rewrite set_state_log set_error_message_log set_config_path_log set_config_data_log set_manager_log
  set_connected_log set_registry_log set_checkers_log set_ready_log set_snapshot_log install_log
  set_log_log state_set_log error_message_set_log config_path_set_log config_data_set_log
  manager_set_log heap_set_log registry_set_log health_checker_set_log config_watcher_set_log
  ready_event_set_log snapshot_set_log backends_total_set_log backends_connected_set_log : svlog.

(** Take the events of a state to its outside. *)
Ltac pull_log :=
  repeat match goal with
  | |- context [emit_event ?st ?a ?b ?c ?d ?s] =>
      let lg := fresh "lg" in let E := fresh "E" in
      destruct (emit_event_log st a b c d s) as [lg E]; rewrite E; clear E
  end;
  autorewrite with svlog.

(** ** Reload *)

(** The service after a reload that read [new_config]. *)
Lemma reload_run stamp env s path new_config conf :
  sv_state s = SRunning → sv_config_path s = Some path → re_load env = inr new_config →
  _build_registry (Some path) (re_full env) = inr conf →
  let d := compute_diff (default [] (sv_config_data s)) new_config in
  let '(m, errs) := apply_diff (re_attempt env) (re_iter env) d new_config (sv_manager s) in
  ∃ lg,
  reload stamp env s =
  (inr {| rr_reloaded := true; rr_added := sorted_names (added d); rr_removed := sorted_names (removed d);
          rr_changed := sorted_names (changed d); rr_errors := errs |},
   set_log lg
     (let s1 := set_connected (get_active_session_count m) (set_config_data new_config (set_manager m s)) in
      match get_all_sessions m with
      | [] => s1
      | _ => let r := discovered (re_order env) conf (get_all_sessions m) in
             set_snapshot (snapshot_of r) (install conf r s1)
      end)).
Proof.
  intros Hrun Hpath Hload Hbuild. cbv zeta. destruct (apply_diff _ _ _ _ _) as [m errs] eqn:Ed.
  unfold reload. rewrite run_get, Hrun, Hpath. rewrite bool_decide_eq_true_2 by done. cbn [negb].
  rewrite run_modify, Hload, Ed, !run_modify. pull_log.
  destruct (get_all_sessions m) as [|kv l] eqn:El; rewrite run_bind.
  - unfold mret at 1, M_ret at 1. rewrite run_modify. pull_log. by eexists.
  - unfold rediscover. rewrite run_get. autorewrite with svlog. set (s1 := set_connected _ _).
    replace (sv_config_path s1) with (Some path) by (symmetry; exact Hpath). rewrite Hbuild.
    change (sv_manager s1) with m. rewrite El. unfold modify at 1. rewrite run_modify. pull_log. by eexists.
Qed.

(** C5: a hot reload is exact.  For a running service whose sessions belong to
    its configuration, a reload that can read the new configuration returns;
    afterwards a backend that is no longer configured has no session, one whose
    connection parameters did not change keeps the very same session, and a new
    or changed one has a session on a new exit stack or is reported in the
    errors, in the order the sets are walked; the counters match the sessions,
    no exit stack is lost, and when any session is left the registry of the
    service is a new one filled from exactly the current sessions. *)
Theorem reload_exact stamp env s path old new_config conf :
  sv_state s = SRunning → sv_config_path s = Some path → sv_config_data s = Some old →
  re_load env = inr new_config → _build_registry (Some path) (re_full env) = inr conf →
  (∀ X, Permutation (re_iter env X) (elements X)) → mgr_wf (sv_manager s) →
  (∀ n, n ∈ dkeys (_sessions (sv_manager s)) → n ∈ dkeys old) →
  let d := compute_diff old new_config in
  ∃ res s', reload stamp env s = (inr res, s') ∧
    let before := _sessions (sv_manager s) in
    let after := _sessions (sv_manager s') in
    let failed n := negb (dmem after n) in
    rr_reloaded res = true ∧ sv_state s' = SRunning ∧ sv_config_data s' = Some new_config ∧
    mgr_wf (sv_manager s') ∧
    (∀ n, n ∉ dkeys new_config → dget after n = None) ∧
    (∀ n, n ∈ dkeys new_config → n ∉ changed d → n ∉ added d → dget after n = dget before n) ∧
    (∀ n x, n ∈ changed d ∨ n ∈ added d → dget after n = Some x → (m_next (sv_manager s) ≤ ses_stack x)%nat) ∧
    rr_errors res = (reconnect_msg <$> keep failed (re_iter env (changed d))) ++
                    (connect_msg <$> keep failed (re_iter env (added d))) ∧
    sv_backends_total s' = Z.of_nat (length new_config) ∧ sv_backends_connected s' = Z.of_nat (length after) ∧
    (after ≠ [] → sv_registry s' = length (sv_heap s) ∧
       sv_heap s' !! sv_registry s' = Some (conf, discovered (re_order env) conf after) ∧
       sv_snapshot s' = snapshot_of (discovered (re_order env) conf after)).
Proof.
  intros Hrun Hpath Hold Hload Hbuild Hiter Hw Hsub d.
  pose proof (reload_run stamp env s path new_config conf Hrun Hpath Hload Hbuild) as Hr.
  rewrite Hold in Hr. change (default [] (Some old)) with old in Hr. cbv zeta in Hr. fold d in Hr.
  pose proof (apply_diff_spec (re_attempt env) new_config (re_iter env) old (sv_manager s) Hiter Hw Hsub) as Hs.
  cbv zeta in Hs. fold d in Hs.
  destruct (apply_diff (re_attempt env) (re_iter env) d new_config (sv_manager s)) as [m errs].
  destruct Hr as [lg Hr]. destruct Hs as (S1 & S2 & S3 & S4 & S5).
  unfold get_all_sessions in Hr. set (s' := set_log lg _) in Hr.
  assert (sv_manager s' = m ∧ sv_state s' = SRunning ∧ sv_config_data s' = Some new_config ∧
    sv_backends_total s' = Z.of_nat (length new_config) ∧ sv_backends_connected s' = Z.of_nat (length (_sessions m)) ∧
    (_sessions m ≠ [] → sv_registry s' = length (sv_heap s) ∧
       sv_heap s' !! sv_registry s' = Some (conf, discovered (re_order env) conf (_sessions m)) ∧
       sv_snapshot s' = snapshot_of (discovered (re_order env) conf (_sessions m)))) as (Hm & F1 & F2 & F3 & F4 & F5).
  { unfold s', get_active_session_count. destruct (_sessions m); [by split_and!|]. split_and!; try done.
    intros _. split_and!; [done| |done]. by apply list_lookup_middle. }
  clearbody s'. subst m. eexists _, s'. split; [exact Hr|]. cbn [rr_reloaded rr_errors].
  split_and!; try done; apply F5.
Qed.

(** ** Histories *)

Inductive svc_op :=
  | OpStart (config_path : string) (env : start_env)
  | OpStop (now : Z) (watcher_error health_error : task_error)
  | OpReload (env : reload_env)
  | OpReconnect (name : string) (env : reconnect_env)
  | OpSubscribe
  | OpUnsubscribe (q : nat).

(** The service after an operation, whether it returned or raised. *)
Definition svc_run (stamp : nat → string) (s : service) (o : svc_op) : service :=
  match o with
  | OpStart p env => (start stamp p env s).2
  | OpStop now w h => (stop stamp now w h s).2
  | OpReload env => (reload stamp env s).2
  | OpReconnect name env => (reconnect_backend stamp name env s).2
  | OpSubscribe => (subscribe s).2
  | OpUnsubscribe q => unsubscribe q s
  end.

Lemma progress_events_log stamp l s : ∃ lg, foldl (progress_to_event stamp) s l = set_log lg s.
Proof.
  revert s. induction l as [|p l IH]; intros s; cbn [foldl]; [exists (sv_log s); by destruct s|].
  destruct (IH (progress_to_event stamp s p)) as [lg ->]. by exists lg.
Qed.

Lemma run_start_all_eq stamp env c s : ∃ lg,
  run_start_all stamp env c s =
  set_log lg (set_manager (bt_manager (start_all (se_att env) (se_pre env) (se_sig env) (se_sched env)
    (se_clock env) (se_fmt env) (se_parallel env) c (sv_manager s))) s).
Proof. unfold run_start_all. apply progress_events_log. Qed.

(** *** Registry objects are never modified once they are installed *)

Lemma transition_heap stamp t s : sv_heap (_transition stamp t s).2 = sv_heap s.
Proof. unfold _transition, mbind, M_bind, get_state. by case_test. Qed.

Lemma rediscover_heap loaded order s : sv_heap s `prefix_of` sv_heap (rediscover loaded order s).2.
Proof.
  unfold rediscover, mbind, M_bind, get_state. destruct (_build_registry _ _); cbn; [done|]. by eexists.
Qed.

Lemma reload_heap stamp env s : sv_heap s `prefix_of` sv_heap (reload stamp env s).2.
Proof.
  unfold reload, mbind, M_bind, get_state. case_test; [done|]. destruct (sv_config_path s) eqn:Hp; [|done].
  cbn [modify]. destruct (re_load env) as [[m|t m|t m]|c]; cbn; try done.
  destruct (apply_diff _ _ _ _ _) as [m errs]. cbn [modify]. destruct (get_all_sessions m); cbn; [done|].
  set (s1 := set_connected _ _). pose proof (rediscover_heap (re_full env) (re_order env) s1) as H.
  destruct (rediscover (re_full env) (re_order env) s1) as [[e|[]] s2]; cbn in *; done.
Qed.

Lemma interrupted_heap loaded done s : sv_heap s `prefix_of` sv_heap (interrupted loaded done s).2.
Proof.
  unfold interrupted, mbind, M_bind, get_state. destruct (_build_registry _ _); cbn; [done|]. by eexists.
Qed.

Lemma do_reconnect_heap stamp name c env s : sv_heap s `prefix_of` sv_heap (_do_reconnect stamp name c env s).2.
Proof.
  unfold _do_reconnect, mbind, M_bind, get_state. cbn [modify].
  destruct (rc_end env) as [| |completed]; [|done|];
    destruct (_connect_backend _ _ _ _) as [[] m]; cbn [modify]; try done;
    set (s1 := set_manager m _).
  - pose proof (rediscover_heap (rc_full env) (rc_order env) s1) as H.
    destruct (rediscover (rc_full env) (rc_order env) s1) as [[e|[]] s2]; cbn in *; done.
  - pose proof (interrupted_heap (rc_full env) completed s1) as H.
    destruct (interrupted (rc_full env) completed s1) as [[e|[]] s2]; cbn in *; done.
Qed.

Lemma reconnect_heap stamp name env s : sv_heap s `prefix_of` sv_heap (reconnect_backend stamp name env s).2.
Proof.
  unfold reconnect_backend, mbind, M_bind, get_state. case_test; [done|].
  destruct (dget _ name) as [c|]; [|done]. unfold try_except.
  pose proof (do_reconnect_heap stamp name c env s) as H.
  destruct (_do_reconnect stamp name c env s) as [[e|[r|]] s1]; done.
Qed.

Lemma stop_heap stamp now w h s : sv_heap (stop stamp now w h s).2 = sv_heap s.
Proof.
  assert (∀ s, sv_heap (stop_body stamp now w h s).2 = sv_heap s) as Hb.
  { clear s. intros s. unfold stop_body, finally_.
    assert (sv_heap (teardown now w h s).2 = sv_heap s) as Ht.
    { unfold teardown. repeat case_match; done. }
    destruct (teardown now w h s) as [[[[] text]|] s1]; cbn [snd] in Ht; rewrite <-Ht.
    - pose proof (transition_heap stamp SStopped s1). by destruct (_transition stamp SStopped s1).
    - set (s2 := set_error_message _ s1). pose proof (transition_heap stamp SError s2).
      by destruct (_transition stamp SError s2).
    - pose proof (transition_heap stamp SStopped s1). by destruct (_transition stamp SStopped s1). }
  assert (∀ s, sv_heap ((_transition stamp SStopping ≫= λ _, stop_body stamp now w h) s).2 = sv_heap s) as Ht.
  { clear s. intros s. unfold mbind, M_bind. pose proof (transition_heap stamp SStopping s) as E.
    destruct (_transition stamp SStopping s) as [[e|[]] s1]; cbn [snd] in E; [done|]. by rewrite Hb. }
  unfold stop. unfold mbind at 1, M_bind at 1, get_state. destruct (sv_state s); try done; try apply Ht.
  unfold mbind at 1, M_bind at 1. cbn [modify]. by rewrite Ht.
Qed.

(** *** The outcomes of a start *)

Definition booted (env : start_env) (c : config) (m : manager) : manager :=
  bt_manager (start_all (se_att env) (se_pre env) (se_sig env) (se_sched env) (se_clock env) (se_fmt env)
    (se_parallel env) c m).

(** The service when its backends have been started. *)
Definition after_boot (env : start_env) (c : config) (conf : reg_conf) (s : service) : service :=
  let m := booted env c (sv_manager s) in
  set_connected (get_active_session_count m) (set_manager m (install conf empty_registry (set_config_data c s))).

(** The registry of a started service, filled when there is a session. *)
Definition with_capabilities (env : start_env) (conf : reg_conf) (s : service) : service :=
  if 0 <? sv_backends_connected s then
    let r := discovered (se_order env) conf (get_all_sessions (sv_manager s)) in
    set_snapshot (snapshot_of r) (set_registry (<[sv_registry s := (conf, r)]> (sv_heap s)) (sv_registry s) s)
  else s.

Lemma transition_ok stamp t s :
  is_valid_transition (sv_state s) t = true → ∃ lg, _transition stamp t s = (inr (), set_log lg (set_state t s)).
Proof.
  intros H. unfold _transition. rewrite run_get, H. cbn [negb]. rewrite run_modify. unfold modify. pull_log. by eexists.
Qed.

Lemma finish_start_cases stamp env conf p s lg :
  sv_state s = SStarting → sv_config_path s = Some p →
  let '(r, s') := finish_start stamp env conf (set_log lg s) in
  ∃ lg',
  (∃ e, r = inl e ∧ s' = set_log lg' s ∧ sv_backends_connected s = 0) ∨
  (r = inr () ∧ s' = set_log lg' (set_checkers (Some (sv_registry s))
     (if str_truthy (Some p) then true else sv_config_watcher s)
     (set_ready true (set_state SRunning (with_capabilities env conf s))))).
Proof.
  intros Hs Hp. unfold finish_start. rewrite run_get. autorewrite with svlog.
  destruct ((sv_backends_connected s =? 0) && (0 <? sv_backends_total s)) eqn:Ez.
  { eexists. left. eexists. split; [reflexivity|]. split; [done|].
    apply andb_true_iff in Ez as [Ez _]. by apply Z.eqb_eq in Ez. }
  rewrite run_modify. pull_log. rewrite run_bind.
  match goal with |- context [(if _ then ?a else ?b) ?x] =>
    assert (∃ lg, (if 0 <? sv_backends_connected s then a else b) x = (inr (), set_log lg (with_capabilities env conf s)))
      as [lgc ->] end.
  { unfold with_capabilities. destruct (0 <? sv_backends_connected s); [|by eexists].
    rewrite run_modify. unfold modify. pull_log. by eexists. }
  assert (sv_state (with_capabilities env conf s) = SStarting ∧
    sv_registry (with_capabilities env conf s) = sv_registry s ∧
    sv_config_path (with_capabilities env conf s) = Some p ∧
    sv_config_watcher (with_capabilities env conf s) = sv_config_watcher s) as (Hs3 & Hr & Hc & Hw).
  { unfold with_capabilities. by destruct (0 <? sv_backends_connected s). }
  rewrite run_bind. match goal with |- context [_transition stamp SRunning ?x] =>
    destruct (transition_ok stamp SRunning x) as [lgt ->] end.
  { autorewrite with svlog. by rewrite Hs3. }
  unfold mbind, M_bind, modify. autorewrite with svlog. eexists. right. split; [done|].
  assert (∀ s', sv_registry (set_ready true (set_state SRunning s')) = sv_registry s' ∧
    sv_config_path (set_ready true (set_state SRunning s')) = sv_config_path s' ∧
    sv_config_watcher (set_ready true (set_state SRunning s')) = sv_config_watcher s') as Hq by done.
  destruct (Hq (with_capabilities env conf s)) as (-> & -> & ->). by rewrite Hr, Hc, Hw.
Qed.

Lemma start_body_cases stamp p env s :
  sv_state s = SStarting → sv_config_path s = Some p →
  let '(r, s') := start_body stamp p env s in
  ∃ lg,
  (∃ e, r = inl e ∧
     (s' = set_log lg s ∨
      ∃ c, se_load env = inr c ∧
        (s' = set_log lg (set_config_data c s) ∨
         ∃ conf, s' = set_log lg (install conf empty_registry (set_config_data c s)) ∨
           (s' = set_log lg (after_boot env c conf s) ∧ sv_backends_connected (after_boot env c conf s) = 0)))) ∨
  (∃ c conf, r = inr () ∧ se_load env = inr c ∧ _build_registry (Some p) (se_full env) = inr conf ∧
     s' = set_log lg (set_checkers (Some (sv_registry (after_boot env c conf s)))
            (if str_truthy (Some p) then true else sv_config_watcher s)
            (set_ready true (set_state SRunning (with_capabilities env conf (after_boot env c conf s)))))).
Proof.
  intros Hs Hp. unfold start_body. rewrite run_modify. pull_log.
  destruct (se_load env) as [e|c] eqn:El.
  { eexists. left. exists (LoadFailed e). split; [done|]. left. reflexivity. }
  rewrite run_modify, run_modify. pull_log.
  destruct (_build_registry (Some p) (se_full env)) as [e|conf] eqn:Eb.
  { eexists. left. exists e. split; [done|]. right. exists c. split; [done|]. left. reflexivity. }
  rewrite run_modify. autorewrite with svlog. set (s1 := install conf empty_registry (set_config_data c s)).
  rewrite run_bind. unfold check_groups. rewrite run_get. autorewrite with svlog.
  set (g := match se_groups env with inl (LListed _ _) => _ | _ => _ end).
  assert (∀ s', g s' = (inr (), s') ∨ ∃ e, g s' = (inl e, s')) as Hg.
  { intros s'. unfold g. destruct (se_groups env) as [[]|]; try (by left); case_test; try (by left); right; by eexists. }
  match goal with |- context [g ?x] => destruct (Hg x) as [E|[e E]]; rewrite E; clear E end.
  2:{ eexists. left. exists e. split; [done|]. right. exists c. split; [done|]. right. exists conf. by left. }
  rewrite !run_modify. pull_log. match goal with |- context [run_start_all stamp env c ?x] =>
    destruct (run_start_all_eq stamp env c x) as [lgb ->] end.
  autorewrite with svlog. fold (booted env c (sv_manager s1)). change (sv_manager s1) with (sv_manager s).
  set (m' := booted env c (sv_manager s)).
  change (set_connected (get_active_session_count (sv_manager (set_manager m' s1))) (set_manager m' s1))
    with (after_boot env c conf s).
  pose proof (finish_start_cases stamp env conf p (after_boot env c conf s) lgb Hs Hp) as Hf.
  destruct (finish_start stamp env conf _) as [r s']. destruct Hf as [lg' [(e & -> & -> & Hz)|[-> ->]]]; exists lg'.
  - left. exists e. split; [done|]. right. exists c. split; [done|]. right. exists conf. by right.
  - right. by exists c, conf.
Qed.

(** A start from a state that may start: its outcome is that of its body; an
    exception ends it in the error state. *)
Lemma start_outcome stamp p env s :
  is_valid_transition (sv_state s) SStarting = true →
  let s0 := set_config_path (Some p) (set_error_message None (set_state SStarting s)) in
  ∃ lg0,
  let '(r, s1) := start_body stamp p env (set_log lg0 s0) in
  match r with
  | inr _ => start stamp p env s = (inr (), s1)
  | inl e => sv_state s1 = SStarting → ∃ lg,
      start stamp p env s =
      (inl e, set_log lg (set_ready false (set_state SError (set_error_message (Some (svc_exn_text e)) s1))))
  end.
Proof.
  intros Hv. cbv zeta. unfold start. rewrite run_bind. destruct (transition_ok stamp SStarting s Hv) as [lg0 ->].
  rewrite !run_modify. autorewrite with svlog.
  exists lg0. unfold try_except. destruct (start_body stamp p env _) as [[e|[]] s1]; [|done].
  intros Hs. rewrite run_modify, run_bind.
  destruct (transition_ok stamp SError (set_error_message (Some (svc_exn_text e)) s1)) as [lg1 ->].
  { change (sv_state (set_error_message (Some (svc_exn_text e)) s1)) with (sv_state s1). by rewrite Hs. }
  rewrite run_modify. autorewrite with svlog. by eexists.
Qed.

Lemma start_refused stamp p env s :
  is_valid_transition (sv_state s) SStarting = false → (start stamp p env s).2 = s.
Proof. intros Hv. unfold start. rewrite run_bind. unfold _transition. by rewrite run_get, Hv. Qed.

Lemma insert_end_prefix {A} (l : list A) x y : l `prefix_of` <[length l := y]> (l ++ [x]).
Proof. exists [y]. rewrite insert_app_r_alt by lia. by rewrite Nat.sub_diag. Qed.

Lemma start_heap stamp p env s : sv_heap s `prefix_of` sv_heap (start stamp p env s).2.
Proof.
  destruct (is_valid_transition (sv_state s) SStarting) eqn:Hv; [|by rewrite start_refused].
  destruct (start_outcome stamp p env s Hv) as [lg0 H]. cbv zeta in H. set (s0 := set_log lg0 _) in H.
  pose proof (start_body_cases stamp p env s0 eq_refl eq_refl) as Hb.
  change (sv_heap s) with (sv_heap s0).
  destruct (start_body stamp p env s0) as [r s1].
  destruct Hb as (lg & [(e & -> & Hs)|(c & conf & -> & _ & _ & ->)]).
  - assert (sv_state s1 = SStarting ∧ sv_heap s0 `prefix_of` sv_heap s1) as [Hst Hh].
    { destruct Hs as [->|(c & _ & [->|(conf & [->|[-> _]])])]; (split; [done|]);
        [apply (reflexivity (R := prefix))|apply (reflexivity (R := prefix))|
         exists [(conf, empty_registry)]; reflexivity|exists [(conf, empty_registry)]; reflexivity]. }
    destruct (H Hst) as [lg1 ->]. exact Hh.
  - rewrite H. unfold with_capabilities. destruct (0 <? sv_backends_connected (after_boot env c conf s0));
      [apply insert_end_prefix|exists [(conf, empty_registry)]; reflexivity].
Qed.

Lemma svc_run_heap stamp s o : sv_heap s `prefix_of` sv_heap (svc_run stamp s o).
Proof.
  destruct o; cbn [svc_run]; [apply start_heap|by rewrite stop_heap|apply reload_heap|apply reconnect_heap|done|done].
Qed.

Lemma svc_runs_heap stamp ops s : sv_heap s `prefix_of` sv_heap (foldl (svc_run stamp) s ops).
Proof.
  revert s. induction ops as [|o ops IH]; intros s; cbn [foldl]; [done|].
  etrans; [apply svc_run_heap|apply IH].
Qed.

(** ** What clients see *)

(** [mcp_server.registry] and the registry of [RoutingMiddleware] are the
    object that was the registry of the service when the server was attached
    to it (server/lifespan.py, [_attach_to_mcp_server]). *)
Definition _attach_to_mcp_server (s : service) : nat := sv_registry s.
Definition attached_registry (i : nat) (s : service) : option registry := snd <$> sv_heap s !! i.

(** The manager as the routing layer uses it; [call] is a request on a session. *)
Definition attached_manager (call : session → session_t) (s : service) : string → option session_t :=
  λ n, call <$> get_session n (sv_manager s).


(** ** The invariant of the service *)

(** A manager whose sessions belong to configured backends. *)
Record good_manager (c : config) (m : manager) : Prop := {
  gm_wf : mgr_wf m;
  gm_go : _shutdown_requested m = false;
  gm_known : ∀ n, n ∈ dkeys (_sessions m) → n ∈ dkeys c }.

Record svc_inv (s : service) : Prop := {
  iv_manager : good_manager (default [] (sv_config_data s)) (sv_manager s);
  iv_ref : (sv_registry s < length (sv_heap s))%nat;
  iv_steady : sv_state s ∈ [SPending; SRunning; SStopped; SError];
  iv_ready : sv_ready_event s = true ↔ sv_state s = SRunning;
  iv_running : sv_state s = SRunning →
    is_Some (sv_config_path s) ∧ is_Some (sv_config_data s) ∧ is_Some (sv_health_checker s);
  iv_idle : sv_state s ≠ SRunning → _sessions (sv_manager s) = [] }.

(** A running service; each step of a reload or a reconnect keeps it so. *)
Definition running (s : service) : Prop := svc_inv s ∧ sv_state s = SRunning.

Lemma running_log lg s : running s → running (set_log lg s).
Proof. intros [[] ?]. done. Qed.
Lemma running_emit stamp a b c d s : running s → running (emit_event stamp a b c d s).
Proof. apply running_log. Qed.
Lemma running_connected n s : running s → running (set_connected n s).
Proof. intros [[] ?]. done. Qed.
Lemma running_snapshot x s : running s → running (set_snapshot x s).
Proof. intros [[] ?]. done. Qed.
Lemma running_manager m s :
  running s → good_manager (default [] (sv_config_data s)) m → running (set_manager m s).
Proof. intros [[] Hs] Hm. split; [|done]. constructor; done. Qed.
Lemma running_install conf r s : running s → running (install conf r s).
Proof.
  intros [[] Hs]. split; [|done]. constructor; try done. cbn. rewrite length_app. simpl. lia.
Qed.
Lemma running_config m c s :
  running s → good_manager c m → running (set_config_data c (set_manager m s)).
Proof.
  intros [[H1 H2 H3 H4 H5 H6] Hs] Hm. split; [|done]. constructor; try done.
  intros _. destruct (H5 Hs) as (? & _ & ?). cbn. by split_and!.
Qed.
#[export] Hint Resolve running_log running_emit running_connected running_snapshot running_manager running_install
  running_config : argus.

Lemma running_rediscover loaded order s : running s → running (rediscover loaded order s).2.
Proof.
  intros H. unfold rediscover. rewrite run_get. destruct (_build_registry _ _); cbn [raise modify snd]; auto with argus.
Qed.
Lemma running_interrupted loaded done s : running s → running (interrupted loaded done s).2.
Proof.
  intros H. unfold interrupted. rewrite run_get. destruct (_build_registry _ _); cbn [raise modify snd]; auto with argus.
Qed.

Lemma good_disconnect c n m : good_manager c m → good_manager c (_disconnect_backend n m).
Proof.
  intros [H1 H2 H3]. constructor.
  - by apply disconnect_backend_wf.
  - unfold _disconnect_backend. by case_match.
  - intros k Hk. apply H3. apply dget_is_Some in Hk as [x Hx]. apply dget_is_Some.
    rewrite disconnect_backend_sessions in Hx by done. case_decide; [done|]. eauto.
Qed.

Lemma good_connect c d n a m :
  good_manager c m → n ∈ dkeys c → n ∉ dkeys (_sessions m) → good_manager c (start_backend_svr n d a m).2.
Proof.
  intros [H1 H2 H3] Hn Hs. constructor; [by apply attempt_wf|..];
    destruct (start_backend_svr n d a m) as [b m'] eqn:E; cbn [snd].
  - by rewrite (start_stopping _ _ _ _ _ _ E).
  - intros k [?|[-> _]]%(start_sessions _ _ _ _ _ _ E); auto.
Qed.

Lemma running_reconnect stamp name env s : running s → running (reconnect_backend stamp name env s).2.
Proof.
  intros H. unfold reconnect_backend. rewrite run_get. case_test; [done|].
  destruct (dget (default [] (sv_config_data s)) name) as [d|] eqn:Ed; [|done].
  assert (running (_do_reconnect stamp name d env s).2) as Hd.
  { unfold _do_reconnect. rewrite !run_modify. set (s1 := emit_event _ _ _ _ _ s).
    assert (good_manager (default [] (sv_config_data s)) (_disconnect_backend name (sv_manager s1))) as Hg.
    { apply good_disconnect, H. }
    set (s2 := set_manager _ s1). assert (running s2) as H2 by (apply running_manager; [by apply running_emit|done]).
    assert (good_manager (default [] (sv_config_data s)) (start_backend_svr name d (rc_attempt env) (sv_manager s2)).2) as Hc.
    { apply good_connect; [done|apply dget_is_Some; eauto|]. apply dget_None. unfold s2. cbn [sv_manager set_manager].
      rewrite disconnect_backend_sessions by apply H. by rewrite decide_True. }
    destruct (rc_end env) as [| |completed]; [|exact H2|]; rewrite run_get; unfold _connect_backend;
      destruct (start_backend_svr name d (rc_attempt env) (sv_manager s2)) as [[] m]; cbn [snd] in Hc;
      rewrite run_modify; (assert (running (set_manager m s2)) as H3 by (by apply running_manager));
      try exact (running_connected _ _ H3).
    - unfold mbind, M_bind. pose proof (running_rediscover (rc_full env) (rc_order env) _ H3) as H4.
      destruct (rediscover _ _ _) as [[e|[]] s4]; cbn [snd] in *; [done|].
      exact (running_emit _ _ _ _ _ _ (running_connected _ _ H4)).
    - unfold mbind, M_bind. pose proof (running_interrupted (rc_full env) completed _ H3) as H4.
      by destruct (interrupted _ _ _) as [[e|[]] s4]. }
  unfold try_except, mbind, M_bind. destruct (_do_reconnect stamp name d env s) as [[e|[r|]] s1]; cbn [snd] in Hd; [done|done|].
  refine (running_connected _ _ (running_manager _ _ Hd _)). apply good_disconnect, Hd.
Qed.

(** A difference does not touch the shutdown flag. *)
Lemma disconnect_backend_stopping n m : _shutdown_requested (_disconnect_backend n m) = _shutdown_requested m.
Proof. unfold _disconnect_backend. by case_match. Qed.
Lemma connect_step_stopping a c l acc n :
  _shutdown_requested (connect_step a c l acc n).1 = _shutdown_requested acc.1.
Proof.
  unfold connect_step, _connect_backend. destruct (dget c n) as [d|]; [|done].
  destruct (start_backend_svr n d (a n) acc.1) as [b m] eqn:E. by apply start_stopping in E.
Qed.
Lemma apply_diff_stopping a iter d c m :
  _shutdown_requested (apply_diff a iter d c m).1 = _shutdown_requested m.
Proof.
  unfold apply_diff.
  assert (∀ (f : manager * list string → string → manager * list string) l acc, (∀ acc n, _shutdown_requested (f acc n).1 = _shutdown_requested acc.1) →
    _shutdown_requested (foldl f acc l).1 = _shutdown_requested acc.1) as Hl.
  { intros f l acc Hf. revert acc. induction l as [|x l IH]; intros acc; simpl; [done|]. by rewrite IH, Hf. }
  rewrite Hl by apply connect_step_stopping. rewrite Hl.
  - cbn [fst]. generalize (iter (removed d)) as l. intros l. revert m.
    induction l as [|x l IH]; intros m; cbn [foldl]; [done|]. by rewrite IH, disconnect_backend_stopping.
  - intros acc n. unfold reconnect_step. rewrite connect_step_stopping. apply disconnect_backend_stopping.
Qed.

Lemma good_apply_diff a iter old new_config m :
  (∀ X, Permutation (iter X) (elements X)) → good_manager old m →
  good_manager new_config (apply_diff a iter (compute_diff old new_config) new_config m).1.
Proof.
  intros Hiter [H1 H2 H3]. pose proof (apply_diff_spec a new_config iter old m Hiter H1 H3) as Hs. cbv zeta in Hs.
  pose proof (apply_diff_stopping a iter (compute_diff old new_config) new_config m) as Hf.
  destruct (apply_diff _ _ _ _ _) as [m' errs]. cbn [fst] in *. destruct Hs as (S1 & S2 & _).
  constructor; [done|congruence|]. intros n Hn. apply dget_is_Some in Hn as [x Hx].
  destruct (decide (n ∈ dkeys new_config)) as [|Hc]; [done|]. by rewrite S2 in Hx.
Qed.

Lemma running_reload stamp env s :
  (∀ X, Permutation (re_iter env X) (elements X)) → running s → running (reload stamp env s).2.
Proof.
  intros Hiter H. unfold reload. rewrite run_get. case_test; [done|].
  destruct (sv_config_path s) as [p|]; [|done]. rewrite run_modify.
  destruct (re_load env) as [[msg|t msg|t msg]|c];
    [by apply running_emit|by apply (running_emit _ _ _ _ _ _ (running_emit _ _ _ _ _ _ H))|by apply running_emit|].
  pose proof (good_apply_diff (re_attempt env) (re_iter env) (default [] (sv_config_data s)) c (sv_manager s) Hiter) as Hg.
  destruct (apply_diff _ _ _ _ _) as [m errs]. cbn [fst] in Hg. rewrite !run_modify.
  set (s1 := emit_event _ _ _ _ _ s). set (s2 := set_connected _ _).
  assert (running s2) as H2.
  { apply running_connected, running_config; [by apply running_emit|]. apply Hg, H. }
  unfold mbind, M_bind. destruct (get_all_sessions m); [exact (running_emit _ _ _ _ _ _ H2)|].
  pose proof (running_rediscover (re_full env) (re_order env) s2 H2) as H3.
  destruct (rediscover _ _ s2) as [[e|[]] s3]; cbn [snd] in H3; [done|exact (running_emit _ _ _ _ _ _ H3)].
Qed.

(** A stop whose background tasks end cleanly. *)
Lemma teardown_clean now s :
  teardown now None None s = (None, set_manager (stop_all now (sv_manager s)) (set_checkers None false s)).
Proof.
  unfold teardown. destruct (sv_config_watcher s); cbn [set_checkers sv_health_checker];
    by destruct (sv_health_checker s).
Qed.

Lemma stop_clean stamp now s :
  sv_state s = SRunning ∨ sv_state s = SError →
  ∃ lg, (stop stamp now None None s).2 =
    set_log lg (set_ready false (set_state SStopped
      (set_manager (stop_all now (sv_manager s)) (set_checkers None false (set_state SStopping s))))).
Proof.
  intros Hs. unfold stop. unfold mbind at 1, M_bind at 1, get_state.
  assert (∃ lg, ((_transition stamp SStopping ≫= λ _, stop_body stamp now None None) s).2 =
    set_log lg (set_ready false (set_state SStopped
      (set_manager (stop_all now (sv_manager s)) (set_checkers None false (set_state SStopping s)))))) as H.
  { unfold mbind, M_bind. destruct (transition_ok stamp SStopping s) as [lg0 ->]; [by destruct Hs as [-> | ->]|].
    unfold stop_body, finally_. rewrite teardown_clean.
    match goal with |- context [_transition stamp SStopped ?x] =>
      destruct (transition_ok stamp SStopped x) as [lg1 ->]; [done|] end.
    exists lg1. cbn [snd]. by autorewrite with svlog. }
  destruct Hs as [-> | ->]; exact H.
Qed.

Lemma stop_inv stamp now s : svc_inv s → svc_inv (stop stamp now None None s).2.
Proof.
  intros Hi. pose proof (iv_steady s Hi) as Hs.
  assert (sv_state s = SPending ∨ sv_state s = SStopped ∨ sv_state s = SRunning ∨ sv_state s = SError) as [E|[E|E]].
  { rewrite !elem_of_cons, elem_of_nil in Hs. tauto. }
  - unfold stop. unfold mbind at 1, M_bind at 1, get_state. rewrite E. exact Hi.
  - unfold stop. unfold mbind at 1, M_bind at 1, get_state. rewrite E. exact Hi.
  - destruct (stop_clean stamp now s E) as [lg ->]. destruct Hi as [[M1 M2 M3] I2 I3 I4 I5 I6].
    constructor; try done.
    + constructor; [by apply stop_all_wf|done|]. cbn. intros n Hn. by apply not_elem_of_nil in Hn.
    + cbn. set_solver.
Qed.

(** What an operation may rely on: a configuration is a dictionary, no shutdown
    signal arrives during a start, the orders are permutations, and the
    background tasks have not died with an exception. *)
Definition op_ok (o : svc_op) : Prop :=
  match o with
  | OpStart _ env =>
      (∀ c, se_load env = inr c → dict_wf c) ∧ (∀ n k, is_Some (se_att env n k)) ∧ (∀ i, se_sig env i = false) ∧
      (∀ l, Permutation (se_sched env l) l)
  | OpStop _ w h => w = None ∧ h = None
  | OpReload env => ∀ X, Permutation (re_iter env X) (elements X)
  | _ => True
  end.

Lemma booted_good env c m :
  dict_wf c → (∀ n k, is_Some (se_att env n k)) → (∀ i, se_sig env i = false) →
  (∀ l, Permutation (se_sched env l) l) → mgr_wf m → _shutdown_requested m = false → _sessions m = [] →
  good_manager c (booted env c m).
Proof.
  intros Hc Ha Hs Hp Hw Hg He.
  destruct (start_all_result (se_att env) (se_pre env) (se_sig env) (se_sched env) (se_clock env) (se_fmt env) Ha Hs Hp
    (se_parallel env) c m Hc Hw Hg) as (R1 & _ & R3 & R4).
  { rewrite He. intros n _. apply not_elem_of_nil. }
  constructor; [exact R1|exact R4|]. intros n Hn. destruct (decide (n ∈ dkeys c)) as [|Hne]; [done|].
  apply (R3 n) in Hne as [_ Hiff]. rewrite He in Hiff. by apply Hiff, not_elem_of_nil in Hn.
Qed.

Lemma start_inv stamp p env s : op_ok (OpStart p env) → svc_inv s → svc_inv (start stamp p env s).2.
Proof.
  intros (Hc & Ha & Hg & Hp) Hi.
  destruct (is_valid_transition (sv_state s) SStarting) eqn:Hv; [|by rewrite start_refused].
  destruct (start_outcome stamp p env s Hv) as [lg0 H]. cbv zeta in H.
  set (s0 := set_log lg0 _) in H. pose proof (start_body_cases stamp p env s0 eq_refl eq_refl) as Hb.
  destruct Hi as [[M1 M2 M3] I2 I3 I4 I5 I6].
  assert (sv_state s ≠ SRunning) as Hne by (intros E; by rewrite E in Hv). specialize (I6 Hne).
  assert (∀ c, se_load env = inr c → good_manager c (booted env c (sv_manager s))) as Hboot.
  { intros c Hl. apply booted_good; auto. }
  assert (∀ c, good_manager c (sv_manager s)) as Hempty.
  { intros c. constructor; [done|done|]. rewrite I6. intros n Hn. by apply not_elem_of_nil in Hn. }
  destruct (start_body stamp p env s0) as [r s1].
  destruct Hb as (lg & [(e & -> & Hs)|(c & conf & -> & Hl & _ & ->)]).
  - assert (sv_state s1 = SStarting ∧ good_manager (default [] (sv_config_data s1)) (sv_manager s1) ∧
      (sv_registry s1 < length (sv_heap s1))%nat ∧ _sessions (sv_manager s1) = []) as (Hst & G1 & G2 & G3).
    { destruct Hs as [->|(c & Hl & [->|(conf & [->|[-> Hz]])])]; (split_and!; [done| | |]); try done; try apply Hempty;
        cbn; rewrite ?length_app; simpl; try lia.
      - by apply Hboot.
      - cbn in Hz. unfold get_active_session_count in Hz. apply length_zero_iff_nil. lia. }
    destruct (H Hst) as [lg1 ->]. cbn [snd].
    constructor; [exact G1|exact G2|cbn; set_solver|split; discriminate|discriminate|intros _; exact G3].
  - rewrite H. cbn [snd]. unfold with_capabilities.
    destruct (0 <? sv_backends_connected (after_boot env c conf s0));
      (constructor; [by apply Hboot| |cbn; set_solver|done|intros _; split_and!; by eexists|intros Hn; by destruct Hn]);
      cbn; rewrite ?length_insert, length_app; simpl; lia.
Qed.

Lemma svc_run_inv stamp s o : op_ok o → svc_inv s → svc_inv (svc_run stamp s o).
Proof.
  intros Ho Hi. destruct o as [p env|now w h|env|name env| |q]; cbn [svc_run].
  - by apply start_inv.
  - destruct Ho as [-> ->]. by apply stop_inv.
  - destruct (decide (sv_state s = SRunning)) as [E|E]; [by apply running_reload|].
    unfold reload. rewrite run_get. by rewrite bool_decide_eq_false_2.
  - destruct (decide (sv_state s = SRunning)) as [E|E]; [by apply running_reconnect|].
    unfold reconnect_backend. rewrite run_get. by rewrite bool_decide_eq_false_2.
  - by destruct Hi.
  - by destruct Hi.
Qed.


(** ** A concrete run *)

Definition one_tool (n : string) : answers :=
  {| ans_tools := FResult (RAttr [RawItem {| ci_name := n; ci_description := None; ci_rest := PNone |}]);
     ans_resources := FResult RNone; ans_prompts := FResult RNone |}.
Definition connecting (n : string) : attempt :=
  {| at_init := 0; at_build := {| b_lines := []; b_error := None |}; at_provider := false; at_end := 0;
     at_stage := Connected (one_tool (n +:+ "_tool")) |}.
Definition sse (i : nat) : backend_dict := example_backend i "http://localhost" [].
Definition plain_full : full_config :=
  {| fc_strategy := "first-wins"; fc_separator := "_"; fc_order := []; fc_backends := [] |}.

(** A start with the backend [a], then a reload that replaces it by [b]. *)
Definition start_a : start_env :=
  {| se_load := inr [("a", sse 0)]; se_full := inr plain_full; se_groups := inr ();
     se_att := λ n _, Some (connecting n); se_pre := λ _, {| b_lines := []; b_error := None |};
     se_sig := λ _, false; se_sched := λ l, l; se_clock := λ _, 0; se_fmt := λ _, "5"; se_parallel := false;
     se_order := λ l, l |}.
Definition reload_b : reload_env :=
  {| re_load := inr [("b", sse 1)]; re_full := inr plain_full; re_attempt := connecting;
     re_iter := elements; re_order := λ l, l |}.
Definition no_stamp (n : nat) : string := "".
Definition running_a : service := svc_run no_stamp new_service (OpStart "config.yaml" start_a).

Lemma reload_exact_witness :
  ∃ res s', reload no_stamp reload_b running_a = (inr res, s') ∧ rr_reloaded res = true ∧
    dget (_sessions (sv_manager s')) "a" = None ∧ sv_backends_total s' = 1.
Proof.
  destruct (reload_exact no_stamp reload_b running_a "config.yaml" [("a", sse 0)] [("b", sse 1)] default_conf)
    as (res & s' & Hr & H1 & _ & _ & _ & H2 & _ & _ & _ & H3 & _).
  - vm_compute. reflexivity.
  - vm_compute. reflexivity.
  - vm_compute. reflexivity.
  - reflexivity.
  - reflexivity.
  - reflexivity.
  - assert (svc_inv running_a) as Hi.
    { apply svc_run_inv.
      - split_and!; [|by eexists|done|done]. intros c Hc. injection Hc as <-. by_decide.
      - constructor; try done; [|cbn; lia|cbn; set_solver].
        constructor; [apply new_manager_wf|done|]. cbn. intros n Hn. by apply not_elem_of_nil in Hn. }
    apply Hi.
  - intros n Hn. exact Hn.
  - exists res, s'. split_and!; [exact Hr|exact H1|apply H2; by_decide|exact H3].
Defined.


(** A request for a tool. *)
Definition ask (cap : string) : req :=
  new_request {| current_user := None; current_auth_token := None; current_session_id := None;
                 current_client_ip := None |} "r" 0 cap "call_tool" None.


(** ** Where a reload falls short *)

(** An invalid configuration file makes the loader raise [ConfigurationError],
    which the handler of [reload] does not list: it escapes instead of being
    reported in the result.  The service itself stays as it was. *)
Lemma invalid_config_escapes_reload stamp env s path msg :
  sv_state s = SRunning → sv_config_path s = Some path → re_load env = inl (LConfiguration msg) →
  ∃ lg, reload stamp env s = (inl (LoadFailed (LConfiguration msg)), set_log lg s).
Proof.
  intros Hs Hp Hl. unfold reload. rewrite run_get, Hs, Hp. rewrite bool_decide_eq_true_2 by done. cbn [negb].
  rewrite run_modify, Hl. pull_log. by eexists.
Qed.

(** When a reload leaves no session, the registry and the lists of the service
    keep the capabilities of the backends that are gone. *)
Lemma reload_to_nothing_keeps_capabilities :
  let env := {| re_load := inr []; re_full := inr plain_full; re_attempt := connecting;
                re_iter := elements; re_order := λ l, l |} in
  let s' := svc_run no_stamp running_a (OpReload env) in
  _sessions (sv_manager s') = [] ∧ ci_name <$> sn_tools (sv_snapshot s') = ["a_tool"] ∧
  (snd <$> sv_heap s' !! sv_registry s') ≫= (λ r, resolve_capability r "a_tool") = Some ("a", "a_tool").
Proof. cbv zeta. split; [|split]; vm_compute; reflexivity. Qed.
