(* ===== verification/EventStream.v ===== *)
(** * The stream of events (handle_events_stream of server/management/router.py,
      stream_events of api/client.py)

    The service puts its events into the bounded queue of each subscriber
    (Service.v); the generator of a connection takes them out and writes them as
    server-sent events, with a heartbeat when nothing came for a while; the
    client reads the lines and yields the payloads.  The transport between them
    is a reliable stream of characters that the HTTP client cuts into lines. *)
From S2P Require Import Prelude PyDict Effects PyStr Json Service.
From Stdlib Require Import Ascii.

(** ** The server side *)

(** [json.dumps] of the data in one line. *)
Definition _sse_format (event_type : string) (data : pyval) (event_id : option string) : string :=
  str_join nl (["event: " +:+ event_type; "data: " +:+ dumps None data] ++
    (if str_truthy event_id then ["id: " +:+ default "" event_id] else []) ++ [nl]).

Section stream.
(** The clock of the service, and what its events carry beyond the fields of
    Service.v: a random identifier and the details. *)
Context (stamp : nat → string) (event_id : svc_event → string) (details : svc_event → pyval).

Definition event_dict (e : svc_event) : odict string pyval :=
  [("id", PStr (event_id e)); ("timestamp", PStr (ev_timestamp e)); ("stage", PStr (ev_stage e)); ("message", PStr (ev_message e));
   ("severity", PStr (ev_severity e)); ("backend", match ev_backend e with Some b => PStr b | None => PNone end); ("details", details e)].
Definition message_dict (m : string) : pyval := PDict [("message", PStr m)].
Definition hello : string := _sse_format "heartbeat" (message_dict "connected") (Some "hb-0").
Definition ping : string := _sse_format "heartbeat" (message_dict "ping") None.
Definition event_text (e : svc_event) : string := _sse_format (ev_stage e) (PDict (event_dict e)) (Some (event_id e)).

(** A connection: the service, the queue of the connection, what was written. *)
Record connection := { cn_service : service; cn_queue : nat; cn_written : list string }.
Definition open_stream (s : service) : connection :=
  let '(q, s') := subscribe s in {| cn_service := s'; cn_queue := q; cn_written := [hello] |}.

(** [queue.get] of a queue that is not empty. *)
Definition take_event (q : nat) (s : service) : option (svc_event * service) :=
  let lg := sv_log s in
  match dget (lg_subscribers lg) q with
  | Some (e :: rest) => Some (e, set_log {| lg_events := lg_events lg; lg_emitted := lg_emitted lg;
      lg_subscribers := dset (lg_subscribers lg) q rest; lg_next_queue := lg_next_queue lg |} s)
  | _ => None
  end.

(** One turn of the loop: an event, or the heartbeat after the timeout. *)
Definition turn (c : connection) : connection :=
  match take_event (cn_queue c) (cn_service c) with
  | Some (e, s') => {| cn_service := s'; cn_queue := cn_queue c; cn_written := cn_written c ++ [event_text e] |}
  | None => {| cn_service := cn_service c; cn_queue := cn_queue c; cn_written := cn_written c ++ [ping] |}
  end.

(** What happens while the connection is open. *)
Inductive stream_step := Emit (stage message severity : string) (backend : option string) | Turn.
Definition stream_do (c : connection) (a : stream_step) : connection :=
  match a with
  | Emit stage message severity backend =>
      {| cn_service := emit_event stamp stage message severity backend (cn_service c); cn_queue := cn_queue c; cn_written := cn_written c |}
  | Turn => turn c
  end.
(** The generator is closed. *)
Definition close_stream (c : connection) : service := unsubscribe (cn_queue c) (cn_service c).
End stream.

(** ** The client side *)

(** The complete lines of what has arrived. *)
Definition aiter_lines (l : list ascii) : list (list ascii) := removelast (split_on (ascii_of_nat 10) l).

Record reader := { rd_event_type : string; rd_data_buf : list string; rd_yielded : list pyval }.
Definition new_reader : reader := {| rd_event_type := ""; rd_data_buf := []; rd_yielded := [] |}.
Definition read_line (r : reader) (line : string) : reader :=
  if startswith line "event:" then
    {| rd_event_type := str_strip (drop_chars 6 line); rd_data_buf := rd_data_buf r; rd_yielded := rd_yielded r |}
  else if startswith line "data:" then
    {| rd_event_type := rd_event_type r; rd_data_buf := rd_data_buf r ++ [str_strip (drop_chars 5 line)]; rd_yielded := rd_yielded r |}
  else if bool_decide (line = "") then
    {| rd_event_type := ""; rd_data_buf := [];
       rd_yielded := rd_yielded r ++
         (if negb (bool_decide (rd_data_buf r = [])) && negb (bool_decide (rd_event_type r = "heartbeat"))
          then match loads (str_join nl (rd_data_buf r)) with Some v => [v] | None => [] end else []) |}
  else r.
Definition stream_events (received : string) : list pyval :=
  rd_yielded (foldl read_line new_reader (text <$> aiter_lines (chars received))).

(** ** Lines *)

Local Abbreviation LF := (ascii_of_nat 10).
Definition one_line (s : string) : Prop := LF ∉ chars s.

Lemma lines_cut a b : LF ∉ a → aiter_lines (a ++ LF :: b) = a :: aiter_lines b.
Proof.
  intros Ha. unfold aiter_lines. assert (split_on LF (a ++ LF :: b) = a :: split_on LF b) as ->.
  { induction a as [|x a IH]; [done|]. cbn [app split_on]. rewrite not_elem_of_cons in Ha. destruct Ha as [Hx Ha].
    rewrite bool_decide_false by done. by rewrite IH. }
  destruct (split_on_cons LF b) as (p & ps & ->). done.
Qed.

Lemma dump_one_line v lvl : LF ∉ dump None lvl v.
Proof.
  assert (He : ∀ c, LF ∉ escape_char c) by (intros [[] [] [] [] [] [] [] []]; by_decide).
  assert (Hq : ∀ l, LF ∉ quote_chars l).
  { intros l. unfold quote_chars. rewrite elem_of_cons, elem_of_app, list_elem_of_singleton. intros [H|[H|H]]; [done| |done].
    apply list_elem_of_join in H as (x & Hx & (c & -> & _)%list_elem_of_fmap). by apply He in Hx. }
  assert (Hb : ∀ o c lvl items, o ≠ LF → c ≠ LF → Forall (λ x, LF ∉ x) items → LF ∉ brackets None o c lvl items).
  { intros o c lvl' [|x xs] Ho Hc Hi; unfold brackets; [set_solver|]. apply Forall_cons in Hi as [Hx Hxs].
    simpl. rewrite elem_of_cons, !elem_of_app, list_elem_of_singleton. intros [?|[?|[H|?]]]; try done.
    apply list_elem_of_join in H as (z & Hz & (y & -> & Hy)%list_elem_of_fmap).
    rewrite Forall_forall in Hxs. specialize (Hxs y Hy). unfold item_sep in Hz. simpl in Hz.
    rewrite !elem_of_cons in Hz. by destruct Hz as [?|[?|?]]. }
  revert lvl. induction v as [|b|z|s|l IH|d IH] using pyval_nested_ind; intros lvl; cbn [dump].
  - by_decide.
  - destruct b; by_decide.
  - intros H. pose proof (print_int_chars z) as Hz. rewrite Forall_forall in Hz. by apply Hz in H.
  - apply Hq.
  - apply Hb; [done|done|]. apply Forall_fmap. eapply Forall_impl; [exact IH|]. intros v Hv. apply Hv.
  - apply Hb; [done|done|]. apply Forall_fmap. eapply Forall_impl; [exact IH|]. intros [k v] Hv. cbn [compose fst snd].
    rewrite elem_of_app, !elem_of_cons. intros [H|[H|[H|H]]]; [by apply Hq in H|done|done|by apply Hv in H].
Qed.

Lemma strip_after_blank s : str_strip (" " +:+ s) = str_strip s.
Proof. done. Qed.

Lemma strip_object d : str_strip (dumps None (PDict d)) = dumps None (PDict d).
Proof.
  assert (Hb : ∀ items, ∃ mid, brackets None (ascii_of_nat 123) (ascii_of_nat 125) 0 items = ascii_of_nat 123 :: mid ++ [ascii_of_nat 125]).
  { intros [|x xs]; [by exists []|]. unfold brackets. eexists. rewrite !app_assoc. done. }
  unfold dumps. cbn [dump]. destruct (Hb ((λ kv : string * pyval, quote_chars (chars kv.1) ++ ascii_of_nat 58 :: ascii_of_nat 32 :: dump None 1 kv.2) <$> d)) as [mid ->].
  unfold str_strip. rewrite chars_text. f_equal. cbn [drop_while]. change (is_blank_char (ascii_of_nat 123)) with false. cbn match.
  rewrite app_comm_cons. by apply rstrip_chars_keep.
Qed.

(** ** Reading a message *)

Definition rest_of (yielded : list pyval) : reader := {| rd_event_type := ""; rd_data_buf := []; rd_yielded := yielded |}.
Local Abbreviation feed r l := (foldl read_line r (text <$> aiter_lines l)).

Lemma feed_line r a rest : one_line a → feed r (chars a ++ LF :: rest) = feed (read_line r a) rest.
Proof. intros Ha. rewrite lines_cut by done. csimpl. by rewrite text_chars. Qed.

Lemma read_event r t : str_strip t = t →
  read_line r ("event: " +:+ t) = {| rd_event_type := t; rd_data_buf := rd_data_buf r; rd_yielded := rd_yielded r |}.
Proof.
  intros Ht. unfold read_line. change ("event: " +:+ t) with ("event:" +:+ (" " +:+ t)).
  rewrite (proj2 (startswith_app _ "event:")) by eauto. change 6%nat with (length (chars "event:")).
  by rewrite drop_chars_app, strip_after_blank, Ht.
Qed.
Lemma read_data r d : read_line r ("data: " +:+ dumps None (PDict d)) =
  {| rd_event_type := rd_event_type r; rd_data_buf := rd_data_buf r ++ [dumps None (PDict d)]; rd_yielded := rd_yielded r |}.
Proof.
  unfold read_line. change ("data: " +:+ dumps None (PDict d)) with ("data:" +:+ (" " +:+ dumps None (PDict d))).
  assert (startswith ("data:" +:+ (" " +:+ dumps None (PDict d))) "event:" = false) as -> by done.
  rewrite (proj2 (startswith_app _ "data:")) by eauto. change 5%nat with (length (chars "data:")).
  by rewrite drop_chars_app, strip_after_blank, strip_object.
Qed.

Lemma format_chars t data i rest :
  chars (_sse_format t data i) ++ rest = chars ("event: " +:+ t) ++ LF :: chars ("data: " +:+ dumps None data) ++ LF ::
    (if str_truthy i then chars ("id: " +:+ default "" i) ++ [LF] else []) ++ LF :: rest.
Proof.
  unfold _sse_format. assert (Hnl : chars nl = [LF]) by done.
  destruct (str_truthy i); cbn [str_join app foldl]; rewrite !chars_app, Hnl, <-!app_assoc; done.
Qed.

(** A complete message is read as its payload, and a heartbeat as nothing. *)
Lemma feed_message ys t d i rest :
  one_line t → str_strip t = t → (∀ x, i = Some x → one_line x) → pv_wf (PDict d) →
  feed (rest_of ys) (chars (_sse_format t (PDict d) i) ++ rest) =
  feed (rest_of (ys ++ if bool_decide (t = "heartbeat") then [] else [PDict d])) rest.
Proof.
  intros Ht Hs Hi Hd. rewrite format_chars.
  assert (Hpre : ∀ p x, one_line p → one_line x → one_line (p +:+ x)).
  { unfold one_line. intros p x Hp Hx. rewrite chars_app, elem_of_app. by intros [?|?]. }
  rewrite feed_line by (apply Hpre; [by_decide|done]). rewrite read_event by done.
  rewrite feed_line by (apply Hpre; [by_decide|]; unfold one_line, dumps; rewrite chars_text; apply dump_one_line).
  rewrite read_data. cbn [rest_of rd_event_type rd_data_buf rd_yielded app].
  set (r := {| rd_event_type := t; rd_data_buf := [dumps None (PDict d)]; rd_yielded := ys |}).
  assert (Hid : feed r ((if str_truthy i then chars ("id: " +:+ default "" i) ++ [LF] else []) ++ LF :: rest) = feed r (LF :: rest)).
  { destruct (str_truthy i) eqn:Ei; [|done]. destruct i as [x|]; [|done]. rewrite <-app_assoc. cbn [app].
    by rewrite feed_line by (apply Hpre; [by_decide|by apply Hi]). }
  rewrite Hid. change (LF :: rest) with (chars "" ++ LF :: rest). rewrite feed_line by by_decide. f_equal. unfold read_line, rest_of, r.
  change (startswith "" "event:") with false. change (startswith "" "data:") with false.
  cbn [rd_event_type rd_data_buf rd_yielded str_join foldl]. rewrite (bool_decide_true ("" = "")), (bool_decide_false (_ = [])) by done.
  cbn [negb andb]. rewrite loads_dumps by done. by case_bool_decide.
Qed.

(** ** Delivery *)

Definition join_text (ws : list string) : string := text (mjoin (chars <$> ws)).

Section delivery.
Context (stamp : nat → string) (event_id : svc_event → string) (details : svc_event → pyval).
Local Abbreviation payload := (λ e, PDict (event_dict event_id details e)).
Local Abbreviation do := (stream_do stamp event_id details).

(** What the program's own events satisfy: the stage is a word other than
    heartbeat, the identifier one line, the details a JSON value. *)
Definition streamable (e : svc_event) : Prop :=
  one_line (ev_stage e) ∧ str_strip (ev_stage e) = ev_stage e ∧ ev_stage e ≠ "heartbeat" ∧ one_line (event_id e) ∧ pv_wf (details e).

Lemma event_dict_wf e : pv_wf (details e) → pv_wf (payload e).
Proof.
  intros Hd. constructor; [by_decide|]. repeat (constructor; [cbn; try constructor|]); [by destruct (ev_backend e); constructor|done|constructor].
Qed.

(** A heartbeat, or an event. *)
Definition written_item (i : option svc_event) : string := match i with Some e => event_text event_id details e | None => ping end.
Lemma read_items items ys : Forall streamable (omap id items) →
  feed (rest_of ys) (mjoin (chars <$> (written_item <$> items))) = rest_of (ys ++ (payload <$> omap id items)).
Proof.
  revert ys. induction items as [|i items IH]; intros ys Hg; [by rewrite app_nil_r|].
  change (mjoin _) with (chars (written_item i) ++ mjoin (chars <$> (written_item <$> items))). destruct i as [e|].
  - csimpl in Hg. apply Forall_cons in Hg as [(H1 & H2 & H3 & H4 & H5) Hg]. cbn [written_item]. unfold event_text.
    rewrite feed_message; [|done|done|by intros x [= <-]|by apply event_dict_wf].
    rewrite bool_decide_false by done. rewrite IH by done. csimpl. by rewrite <-app_assoc.
  - cbn [written_item]. unfold ping, message_dict. rewrite feed_message; [|by_decide|done|done|].
    + by rewrite bool_decide_true, app_nil_r, IH.
    + constructor; [by_decide|]. repeat constructor.
Qed.
Lemma read_stream items : Forall streamable (omap id items) →
  stream_events (join_text (hello :: (written_item <$> items))) = payload <$> omap id items.
Proof.
  intros Hg. unfold stream_events, join_text. rewrite chars_text.
  change (mjoin _) with (chars hello ++ mjoin (chars <$> (written_item <$> items))). change new_reader with (rest_of []).
  unfold hello at 1, message_dict. rewrite feed_message; [|by_decide|done|by intros x [= <-]; by_decide|constructor; [by_decide|repeat constructor]].
  rewrite bool_decide_true by done. by rewrite read_items.
Qed.

(** The events of a run, and whether the queue, with [n] events in it, always
    has room for them. *)
Fixpoint emitted_events (n : nat) (steps : list stream_step) : list svc_event :=
  match steps with
  | [] => []
  | Emit stage message severity backend :: steps' =>
      {| ev_timestamp := stamp n; ev_stage := stage; ev_message := message; ev_severity := severity; ev_backend := backend |}
      :: emitted_events (S n) steps'
  | Turn :: steps' => emitted_events n steps'
  end.
Fixpoint never_full (n : nat) (steps : list stream_step) : bool :=
  match steps with
  | [] => true
  | Emit _ _ _ _ :: steps' => bool_decide (n < QUEUE_SIZE)%nat && never_full (S n) steps'
  | Turn :: steps' => never_full (pred n) steps'
  end.

Lemma dget_map_values {V V'} (f : V → V') (d : odict nat V) k : dget ((λ kv, (kv.1, f kv.2)) <$> d) k = f <$> dget d k.
Proof. induction d as [|[k' v] d IH]; csimpl; [done|]. by case_decide. Qed.

Local Abbreviation queue_of c := (dget (lg_subscribers (sv_log (cn_service c))) (cn_queue c)).

Lemma stream_run steps : ∀ c items queue,
  queue_of c = Some queue → cn_written c = hello :: (written_item <$> items) → (length queue ≤ QUEUE_SIZE)%nat →
  let c' := foldl do c steps in
  ∃ more pending, queue_of c' = Some pending ∧ cn_written c' = hello :: (written_item <$> (items ++ more)) ∧
    (length pending ≤ QUEUE_SIZE)%nat ∧
    omap id more ++ pending `sublist_of` queue ++ emitted_events (lg_emitted (sv_log (cn_service c))) steps ∧
    (never_full (length queue) steps = true →
     omap id more ++ pending = queue ++ emitted_events (lg_emitted (sv_log (cn_service c))) steps).
Proof.
  induction steps as [|a steps IH]; intros c items queue Hq Hw Hl c'.
  { exists [], queue. rewrite !app_nil_r. csimpl. auto. }
  destruct a as [stage message severity backend|].
  - set (e := {| ev_timestamp := stamp (lg_emitted (sv_log (cn_service c))); ev_stage := stage; ev_message := message;
                 ev_severity := severity; ev_backend := backend |}).
    destruct (IH (do c (Emit stage message severity backend)) items (put_nowait queue e)) as (more & pending & H1 & H2 & H3 & H4 & H5).
    + transitivity ((λ q, put_nowait q e) <$> queue_of c); [apply (dget_map_values (λ q, put_nowait q e))|by rewrite Hq].
    + done.
    + unfold put_nowait. case_bool_decide; [rewrite length_app; simpl; lia|done].
    + exists more, pending. split_and!; [done|done|done| |].
      * etrans; [exact H4|]. cbn. unfold put_nowait. case_bool_decide; [by rewrite <-app_assoc|]. apply sublist_app; [done|by apply sublist_cons].
      * cbn [never_full]. intros [Hr Hn]%andb_true_iff. apply bool_decide_eq_true in Hr.
        unfold put_nowait in H5. rewrite bool_decide_true in H5 by done. rewrite length_app, Nat.add_1_r in H5.
        rewrite (H5 Hn), <-app_assoc. done.
  - destruct queue as [|e queue].
    + destruct (IH (do c Turn) (items ++ [None]) []) as (more & pending & H1 & H2 & H3 & H4 & H5).
      * cbn. unfold turn, take_event. by rewrite Hq.
      * cbn. unfold turn, take_event. rewrite Hq. cbn. by rewrite Hw, fmap_app.
      * done.
      * exists (None :: more), pending. cbn in H4, H5. unfold turn, take_event in H4, H5. rewrite Hq in H4, H5.
        rewrite <-app_assoc in H2. split_and!; done.
    + destruct (IH (do c Turn) (items ++ [Some e]) queue) as (more & pending & H1 & H2 & H3 & H4 & H5).
      * cbn. unfold turn, take_event. rewrite Hq. cbn. by rewrite dget_dset_eq.
      * cbn. unfold turn, take_event. rewrite Hq. cbn. by rewrite Hw, fmap_app.
      * simpl in Hl. lia.
      * exists (Some e :: more), pending. cbn in H4, H5. unfold turn, take_event in H4, H5. rewrite Hq in H4, H5. cbn in H4, H5.
        rewrite <-app_assoc in H2. split_and!; [done|done|done|csimpl; by apply sublist_skip|]. intros Hn. csimpl. f_equal. by apply H5.
Qed.

(** C21: the client sees the events of the service.  Open a stream on a service
    and let it emit events and the connection take its turns in any order: what
    the client has read, from what was written so far, followed by what waits in
    the queue, is part of the emitted events in their order; the queue stays
    bounded; and as long as the queue never was full when an event came, not one
    is missing.  Heartbeats are never seen. *)
Theorem events_delivered s steps :
  dget (lg_subscribers (sv_log s)) (lg_next_queue (sv_log s)) = None →
  Forall streamable (emitted_events (lg_emitted (sv_log s)) steps) →
  let c := foldl do (open_stream s) steps in
  ∃ taken pending,
    stream_events (join_text (cn_written c)) = payload <$> taken ∧
    dget (lg_subscribers (sv_log (cn_service c))) (cn_queue c) = Some pending ∧ (length pending ≤ QUEUE_SIZE)%nat ∧
    taken ++ pending `sublist_of` emitted_events (lg_emitted (sv_log s)) steps ∧
    (never_full 0 steps = true → taken ++ pending = emitted_events (lg_emitted (sv_log s)) steps).
Proof.
  intros Hfresh Hg c.
  destruct (stream_run steps (open_stream s) [] []) as (more & pending & H1 & H2 & H3 & H4 & H5).
  - cbn. induction (lg_subscribers (sv_log s)) as [|[k v] d IH]; csimpl in *; [by rewrite decide_True|]. case_decide; [done|]. by apply IH.
  - done.
  - cbn. lia.
  - exists (omap id more), pending. fold c in H1, H2. split_and!; [|done|done|exact H4|exact H5].
    rewrite H2. apply read_stream. apply Forall_forall. intros e He. rewrite Forall_forall in Hg. apply Hg.
    eapply elem_of_sublist; [|exact H4]. apply elem_of_app. by left.
Qed.
End delivery.

Definition demo_steps : list stream_step :=
  [Turn; Emit "status" "State changed: pending → starting" "info" None; Emit "backend_ready" "[a] ready" "info" (Some "a"); Turn; Turn; Turn].
Definition demo_id (e : svc_event) : string := "evt-" +:+ ev_stage e.

Lemma events_delivered_witness :
  let c := foldl (stream_do no_stamp demo_id (λ _, PNone)) (open_stream new_service) demo_steps in
  stream_events (join_text (cn_written c)) =
    (λ e, PDict (event_dict demo_id (λ _, PNone) e)) <$> emitted_events no_stamp 0 demo_steps ∧
  ∃ taken pending, stream_events (join_text (cn_written c)) = (λ e, PDict (event_dict demo_id (λ _, PNone) e)) <$> taken ∧
    taken ++ pending = emitted_events no_stamp 0 demo_steps.
Proof.
  intros c. split; [vm_compute; reflexivity|].
  destruct (events_delivered no_stamp demo_id (λ _, PNone) new_service demo_steps) as (taken & pending & H1 & _ & _ & _ & H5).
  - reflexivity.
  - repeat (constructor; [split_and!; [by_decide|reflexivity|discriminate|by_decide|constructor]|]). constructor.
  - exists taken, pending. split; [exact H1|]. apply H5. reflexivity.
Defined.

(** The 257th event of a client that does not read is lost. *)
Example slow_client_loses :
  let c := foldl (stream_do no_stamp demo_id (λ _, PNone)) (open_stream new_service) (replicate 257 (Emit "status" "x" "info" None)) in
  length <$> dget (lg_subscribers (sv_log (cn_service c))) (cn_queue c) = Some 256%nat.
Proof. vm_compute. reflexivity. Qed.
