(* ===== verification/Lifespan.v ===== *)
(** * Start and shutdown of the server (server/lifespan.py)

    [app_lifespan] drives the service (Service.v), attaches it to the MCP server
    with its authentication (Transport.v), feature flags and sessions, serves,
    and cleans up.  A signal that arrives while the backends are connected runs
    the temporary handlers.  What files hold and how the external parts behave
    are parameters, and so is [serve], everything between start and shutdown. *)
From S2P Require Import Prelude PyDict Effects PyStr Auth Chain EnvFlags Session Transport Lifecycle Service.
From Stdlib Require Import Ascii.
#[local] Open Scope Z_scope.

(** ** Workflow files *)

Definition _WORKFLOW_YAML_DIRS : list string := ["workflows"; "examples/workflows"].
Definition _YAML_EXTS : list string := [".yaml"; ".yml"].

(** [PurePath.suffix]: from the last dot, unless it starts or ends the name. *)
Definition is_dot (c : ascii) : bool := Nat.eqb (nat_of_ascii c) 46.
Fixpoint after_last_dot (l : list ascii) : option (list ascii) :=
  match l with
  | [] => None
  | c :: l' => match after_last_dot l' with Some r => Some r | None => if is_dot c then Some l' else None end
  end.
Definition suffix (name : string) : string :=
  match chars name with
  | [] => ""
  | _ :: l => match after_last_dot l with Some (c :: r) => text (ascii_of_nat 46 :: c :: r) | _ => "" end
  end.

(** A directory entry: name, whether it is a file, and what parsing it gives
    ([None] for an [OSError] or a [YAMLError]). *)
Record dir_entry := { de_name : string; de_path : string; de_is_file : bool; de_yaml : option pyval }.

Definition truthy_name (d : odict string pyval) : bool :=
  match dget d "name" with Some v => truthy v | None => false end.
Definition scan_dirs (extra_dirs : list string) : list string :=
  foldl (λ acc d, if bool_decide (d ∈ acc) then acc else acc ++ [d]) [] (extra_dirs ++ _WORKFLOW_YAML_DIRS).
Definition yaml_workflow (e : dir_entry) : option (odict string pyval) :=
  if bool_decide (suffix (de_name e) ∈ _YAML_EXTS) && de_is_file e then
    match de_yaml e with
    | Some (PDict d) => if truthy_name d then Some (if dmem d "_source" then d else dset d "_source" (PStr (de_path e))) else None
    | _ => None
    end
  else None.
(** [listing]: the sorted entries of a directory, looked up in the working
    directory first and then in the project; [None] when there is none. *)
Definition _discover_workflow_yamls (listing : string → option (list dir_entry)) (extra_dirs : list string) : list (odict string pyval) :=
  mjoin ((λ d, match listing d with Some es => omap yaml_workflow es | None => [] end) <$> scan_dirs extra_dirs).

(** ** Attaching the server *)

(** The parts of [ArgusConfig] read here. *)
Record argus_config := {
  ac_incoming_auth : IncomingAuthConfig; ac_feature_flags : odict string pyval;
  ac_telemetry : bool; ac_workflow_dir : string }.

(** How the pieces outside behave: the configuration as it is loaded, whether
    OpenTelemetry initialises, and an exception of what follows the flags
    (skills, workflows). *)
Record attach_env := { ae_config : load_error + argus_config; ae_telemetry_ok : bool; ae_late_error : option string }.

(** What is stored on the MCP server. *)
Record attached := {
  at_registry : option nat; at_auth : option (option Provider * auth_mode); at_telemetry : bool;
  at_sessions : option SessionManager; at_flags : option (odict string bool); at_workflow_dirs : option (list string) }.
Definition detached : attached :=
  {| at_registry := None; at_auth := None; at_telemetry := false; at_sessions := None; at_flags := None; at_workflow_dirs := None |}.

(** The process; [pr_handlers] are the handlers of SIGINT and SIGTERM and
    [pr_streamable] tells whether the session manager of the SDK is set. *)
Record process := {
  pr_service : service; pr_module : transport_module; pr_environ : odict string string; pr_server : attached;
  pr_handlers : string * string; pr_should_exit : bool; pr_streamable : bool }.

Definition set_service (x : service) (p : process) : process :=
  {| pr_service := x; pr_module := pr_module p; pr_environ := pr_environ p; pr_server := pr_server p;
     pr_handlers := pr_handlers p; pr_should_exit := pr_should_exit p; pr_streamable := pr_streamable p |}.
Definition set_module (x : transport_module) (p : process) : process :=
  {| pr_service := pr_service p; pr_module := x; pr_environ := pr_environ p; pr_server := pr_server p;
     pr_handlers := pr_handlers p; pr_should_exit := pr_should_exit p; pr_streamable := pr_streamable p |}.
Definition set_environ (x : odict string string) (p : process) : process :=
  {| pr_service := pr_service p; pr_module := pr_module p; pr_environ := x; pr_server := pr_server p;
     pr_handlers := pr_handlers p; pr_should_exit := pr_should_exit p; pr_streamable := pr_streamable p |}.
Definition set_server (x : attached) (p : process) : process :=
  {| pr_service := pr_service p; pr_module := pr_module p; pr_environ := pr_environ p; pr_server := x;
     pr_handlers := pr_handlers p; pr_should_exit := pr_should_exit p; pr_streamable := pr_streamable p |}.
Definition set_handlers (x : string * string) (p : process) : process :=
  {| pr_service := pr_service p; pr_module := pr_module p; pr_environ := pr_environ p; pr_server := pr_server p;
     pr_handlers := x; pr_should_exit := pr_should_exit p; pr_streamable := pr_streamable p |}.
Definition set_should_exit (x : bool) (p : process) : process :=
  {| pr_service := pr_service p; pr_module := pr_module p; pr_environ := pr_environ p; pr_server := pr_server p;
     pr_handlers := pr_handlers p; pr_should_exit := x; pr_streamable := pr_streamable p |}.
Definition set_streamable (x : bool) (p : process) : process :=
  {| pr_service := pr_service p; pr_module := pr_module p; pr_environ := pr_environ p; pr_server := pr_server p;
     pr_handlers := pr_handlers p; pr_should_exit := pr_should_exit p; pr_streamable := x |}.

(** [Unexpected] is any other exception, with its text; [HardExit] is
    [os._exit(1)], which runs no [finally] clause. *)
Inductive life_exn := Configuration (msg : string) | ServiceRaised (e : svc_exn) | Unexpected (text : string) | HardExit.

Definition with_registry (i : nat) (a : attached) : attached :=
  {| at_registry := Some i; at_auth := at_auth a; at_telemetry := at_telemetry a; at_sessions := at_sessions a;
     at_flags := at_flags a; at_workflow_dirs := at_workflow_dirs a |}.
Definition with_chain (reg : option Provider) (mode : auth_mode) (tel : bool) (a : attached) : attached :=
  {| at_registry := at_registry a; at_auth := Some (reg, mode); at_telemetry := tel; at_sessions := at_sessions a;
     at_flags := at_flags a; at_workflow_dirs := at_workflow_dirs a |}.
Definition with_sessions (m : SessionManager) (a : attached) : attached :=
  {| at_registry := at_registry a; at_auth := at_auth a; at_telemetry := at_telemetry a; at_sessions := Some m;
     at_flags := at_flags a; at_workflow_dirs := at_workflow_dirs a |}.
Definition with_flags (f : odict string bool) (a : attached) : attached :=
  {| at_registry := at_registry a; at_auth := at_auth a; at_telemetry := at_telemetry a; at_sessions := at_sessions a;
     at_flags := Some f; at_workflow_dirs := at_workflow_dirs a |}.
Definition with_workflows (ds : list string) (a : attached) : attached :=
  {| at_registry := at_registry a; at_auth := at_auth a; at_telemetry := at_telemetry a; at_sessions := at_sessions a;
     at_flags := at_flags a; at_workflow_dirs := Some ds |}.

(** [os.environ.setdefault] *)
Definition setdefault (k v : string) (d : odict string string) : odict string string := if dmem d k then d else dset d k v.

Definition SESSION_DEFAULT_TTL : Z := 1800000.
Definition _setup_telemetry (cfg : option argus_config) (ok : bool) : bool :=
  match cfg with Some c => ac_telemetry c && ok | None => false end.

(** The flags that the container wrapper reads from the environment. *)
Definition propagate_flags (flags : odict string bool) (env : odict string string) : odict string string :=
  let e1 := if negb (is_enabled flags "container_isolation") then setdefault "ARGUS_CONTAINER_ISOLATION" "false" env else env in
  if negb (is_enabled flags "build_on_startup") then setdefault "ARGUS_BUILD_ON_STARTUP" "false" e1 else e1.

Definition on_server (f : attached → attached) (p : process) : process := set_server (f (pr_server p)) p.

Definition attach (env : attach_env) : M process life_exn () :=
  p ← get_state;
  modify (on_server (with_registry (Service._attach_to_mcp_server (pr_service p)))) ≫= λ _,
  match (if str_truthy (sv_config_path (pr_service p)) then
           match ae_config env with
           | inr c => inr (Some c)
           | inl (LListed _ _) => inr None
           | inl (LConfiguration m) => inl (Configuration m)
           | inl (LOther t m) => inl (Unexpected (t +:+ ": " +:+ m))
           end
         else inr None) with
  | inl e => raise e
  | inr full_cfg =>
      p ← get_state;
      match _setup_incoming_auth (ac_incoming_auth <$> full_cfg) (pr_module p) with
      | inl (ConfigError m) => raise (Configuration m)
      | inr (reg, mode, g) =>
          modify (set_module g) ≫= λ _,
          let tel := _setup_telemetry full_cfg (ae_telemetry_ok env) in
          modify (on_server (with_chain reg mode tel)) ≫= λ _,
          modify (on_server (with_sessions {| _sessions := []; _default_ttl := SESSION_DEFAULT_TTL |})) ≫= λ _,
          let flags := FeatureFlags (match full_cfg with Some c => ac_feature_flags c | None => [] end) in
          modify (on_server (with_flags flags)) ≫= λ _,
          modify (λ p, set_environ (propagate_flags flags (pr_environ p)) p) ≫= λ _,
          match ae_late_error env with
          | Some t => raise (Unexpected t)
          | None =>
              let extra := match full_cfg with
                           | Some c => if bool_decide (ac_workflow_dir c ∈ _WORKFLOW_YAML_DIRS) then [] else [ac_workflow_dir c]
                           | None => [] end in
              modify (on_server (with_workflows (scan_dirs extra)))
          end
      end
  end.

(** ** Signals during start-up *)

Inductive signal := SigInt | SigTerm.

(** The handlers, for the signals that arrive while the service starts: the
    second SIGINT ends the process. *)
Fixpoint handle_signals (force_count : nat) (sigs : list signal) : M process life_exn () :=
  match sigs with
  | [] => mret ()
  | SigInt :: rest =>
      if Nat.leb 2 (S force_count) then raise HardExit
      else modify (set_should_exit true) ≫= λ _, handle_signals (S force_count) rest
  | SigTerm :: rest => modify (set_should_exit true) ≫= λ _, handle_signals force_count rest
  end.

Definition override : string * string := ("startup_sigint", "startup_sigterm").

(** ** The lifespan *)

(** [try: m  finally: fin] where [fin] may raise; [HardExit] skips it. *)
Definition finally_run {A} (m : M process life_exn A) (fin : M process life_exn ()) : M process life_exn A := λ p,
  match m p with
  | (inl HardExit, p1) => (inl HardExit, p1)
  | (r, p1) => match fin p1 with (inl e, p2) => (inl e, p2) | (inr _, p2) => (r, p2) end
  end.

Record life_env := {
  le_config_path : string;
  le_signals : list signal;
  le_start : odict string string → start_env;   (* how the start goes, under the environment variables *)
  le_attach : attach_env;
  le_sdk_error : option string;                 (* an exception of the session manager of the SDK *)
  le_stop_time : Z; le_watcher_error : task_error; le_health_error : task_error }.

Section lifespan.
Context (stamp : nat → string).

Definition lift_service (c : M service svc_exn ()) : M process life_exn () := λ p,
  let '(r, s) := c (pr_service p) in
  (match r with inl e => inl (ServiceRaised e) | inr _ => inr () end, set_service s p).

(** [await service.start(...)] while signals arrive. *)
Definition start_service (env : life_env) : M process life_exn () :=
  handle_signals 0 (le_signals env) ≫= λ _,
  p ← get_state;
  lift_service (start stamp (le_config_path env) (le_start env (pr_environ p))).

Definition startup (env : life_env) : M process life_exn () :=
  p ← get_state;
  let original := pr_handlers p in
  modify (set_handlers override) ≫= λ _,
  finally_run (start_service env) (modify (set_handlers original)) ≫= λ _,
  attach (le_attach env) ≫= λ _,
  modify (set_streamable true) ≫= λ _,
  match le_sdk_error env with
  | Some t => raise (Unexpected t)
  | None => modify (set_should_exit false)
  end.

Definition stop_sessions (a : attached) : attached :=
  match at_sessions a with Some m => with_sessions (stop_manager m) a | None => a end.

(** The session manager of the SDK is stopped if it was created; its errors
    are logged. *)
Definition _shutdown_streamable_http : M process life_exn () :=
  modify (set_streamable false) ≫= λ _, modify (on_server stop_sessions).

Definition app_shutdown (env : life_env) : M process life_exn () :=
  _shutdown_streamable_http ≫= λ _,
  lift_service (stop stamp (le_stop_time env) (le_watcher_error env) (le_health_error env)).

Definition app_lifespan (env : life_env) (serve : M process life_exn ()) : M process life_exn () :=
  finally_run (startup env ≫= λ _, serve) (app_shutdown env).
End lifespan.

(** The last status line. *)
Definition final_message (startup_ok : bool) (err_detail_msg : option string) : string :=
  if startup_ok then "Server shut down normally."
  else "Server exited abnormally" +:+ (if str_truthy err_detail_msg then " - Error: " +:+ default "" err_detail_msg else "").

(** ** Lemmas on the service *)

Lemma transition_state stamp t s : is_valid_transition (sv_state s) t = true →
  ∃ s', _transition stamp t s = (inr (), s') ∧ sv_state s' = t.
Proof. intros H. destruct (transition_ok stamp t s H) as [lg ->]. eauto. Qed.

Lemma teardown_state now we he s : sv_state (teardown now we he s).2 = sv_state s.
Proof. unfold teardown. repeat case_match; done. Qed.

Lemma stop_body_ends stamp now we he s : sv_state s = SStopping →
  ∃ s', stop_body stamp now we he s = (inr (), s') ∧ sv_state s' ∈ [SStopped; SError].
Proof.
  intros Hs. unfold stop_body, finally_. pose proof (teardown_state now we he s) as Ht.
  destruct (teardown now we he s) as [r s1]. simpl in Ht. rewrite Hs in Ht.
  assert (He : ∀ t s2, sv_state s2 = SStopping → t ∈ [SStopped; SError] →
    ∃ s3, _transition stamp t s2 = (inr (), s3) ∧ sv_state (set_ready false s3) = t).
  { intros t s2 H2 Hin. destruct (transition_state stamp t s2) as (s3 & E & Hst); [|by exists s3].
    rewrite H2. by apply bool_decide_eq_true. }
  destruct r as [[[] text]|]; cbv beta iota.
  - destruct (He SStopped s1 Ht) as (s3 & -> & Hst); [by apply (bool_decide_unpack _)|]. eexists. split; [done|]. rewrite Hst. by apply (bool_decide_unpack _).
  - destruct (He SError (set_error_message (Some ("Shutdown error: " +:+ text)) s1) Ht) as (s3 & -> & Hst);
      [by apply (bool_decide_unpack _)|]. eexists. split; [done|]. rewrite Hst. by apply (bool_decide_unpack _).
  - destruct (He SStopped s1 Ht) as (s3 & -> & Hst); [by apply (bool_decide_unpack _)|]. eexists. split; [done|]. rewrite Hst. by apply (bool_decide_unpack _).
Qed.

(** Stopping never raises, and the service is then neither starting nor running. *)
Lemma stop_total stamp now we he s :
  ∃ s', stop stamp now we he s = (inr (), s') ∧ sv_state s' ≠ SStarting ∧ sv_state s' ≠ SRunning.
Proof.
  assert (Hs : ∀ s0, sv_state s0 ∈ [SRunning; SError] → ∃ s', (_transition stamp SStopping ≫= λ _, stop_body stamp now we he) s0 = (inr (), s') ∧
    sv_state s' ≠ SStarting ∧ sv_state s' ≠ SRunning).
  { intros s0 H0. destruct (transition_state stamp SStopping s0) as (s1 & E & Hst).
    { apply elem_of_cons in H0 as [->|H0%list_elem_of_singleton]; [done|by rewrite H0]. }
    rewrite run_bind, E. destruct (stop_body_ends stamp now we he s1 Hst) as (s2 & -> & Hin). exists s2. split; [done|].
    apply elem_of_cons in Hin as [->|Hin%list_elem_of_singleton]; [done|by rewrite Hin]. }
  unfold stop. rewrite run_get. destruct (sv_state s) eqn:E.
  1, 4, 5: exists s; rewrite E; done.
  - rewrite run_modify. apply Hs. by apply (bool_decide_unpack _).
  - apply Hs. rewrite E. by apply (bool_decide_unpack _).
  - apply Hs. rewrite E. by apply (bool_decide_unpack _).
Qed.

(** A start that succeeds leaves the service running, with its path. *)
Lemma start_running stamp path env s s' : start stamp path env s = (inr (), s') →
  sv_state s' = SRunning ∧ sv_config_path s' = Some path.
Proof.
  intros H. destruct (is_valid_transition (sv_state s) SStarting) eqn:Hv.
  2: { unfold start in H. rewrite run_bind in H. unfold _transition in H. rewrite run_get, Hv in H. done. }
  destruct (start_outcome stamp path env s Hv) as [lg0 Ho]. cbv zeta in Ho. set (s0 := set_log lg0 _) in Ho.
  pose proof (start_body_cases stamp path env s0 eq_refl eq_refl) as Hb.
  destruct (start_body stamp path env s0) as [r s1].
  destruct Hb as (lg & [(e & -> & Hs)|(c & conf & -> & _ & _ & ->)]).
  - assert (sv_state s1 = SStarting) as Hst.
    { destruct Hs as [->|(c & _ & [->|(conf & [->|[-> _]])])]; done. }
    destruct (Ho Hst) as [lg1 E]. congruence.
  - rewrite Ho in H. injection H as <-. split; [done|]. unfold with_capabilities. destruct (0 <? sv_backends_connected _); reflexivity.
Qed.

(** ** What the steps leave alone *)

(** Everything but the service and the exit flag. *)
Definition same_frame (p q : process) : Prop :=
  pr_module p = pr_module q ∧ pr_environ p = pr_environ q ∧ pr_server p = pr_server q ∧ pr_handlers p = pr_handlers q ∧
  pr_streamable p = pr_streamable q.

Lemma handle_signals_frame n sigs p : same_frame (handle_signals n sigs p).2 p ∧ pr_service (handle_signals n sigs p).2 = pr_service p.
Proof.
  revert n p. induction sigs as [|[] sigs IH]; intros n p; cbn [handle_signals]; [done| |].
  - destruct (Nat.leb 2 (S n)); [done|]. rewrite run_modify. apply (IH (S n) (set_should_exit true p)).
  - rewrite run_modify. apply (IH n (set_should_exit true p)).
Qed.

Lemma start_service_frame stamp env p : same_frame (start_service stamp env p).2 p.
Proof.
  unfold start_service. rewrite run_bind. destruct (handle_signals_frame 0 (le_signals env) p) as [Hf _].
  destruct (handle_signals 0 (le_signals env) p) as [[e|u] p1]; [done|]. rewrite run_get. unfold lift_service.
  destruct (start stamp _ _ _) as [r s]. exact Hf.
Qed.

Lemma start_service_running stamp env p p1 : start_service stamp env p = (inr (), p1) →
  sv_state (pr_service p1) = SRunning ∧ sv_config_path (pr_service p1) = Some (le_config_path env).
Proof.
  unfold start_service. rewrite run_bind. destruct (handle_signals 0 (le_signals env) p) as [[e|u] p0]; [done|].
  rewrite run_get. unfold lift_service. destruct (start stamp _ _ _) as [[e|[]] s] eqn:E; [done|].
  intros [= <-]. by eapply start_running.
Qed.

(** Attaching succeeds only with a configuration whose authentication could
    be set up. *)
Lemma attach_inv env p p1 : attach env p = (inr (), p1) →
  ∃ cfg reg mode, ae_config env = inr cfg ∧
    _setup_incoming_auth (Some (ac_incoming_auth cfg)) (pr_module p) = inr (reg, mode, pr_module p1) ∧
    at_auth (pr_server p1) = Some (reg, mode) ∧ at_registry (pr_server p1) = Some (sv_registry (pr_service p)) ∧
    pr_service p1 = pr_service p ∧ pr_handlers p1 = pr_handlers p ∧ pr_streamable p1 = pr_streamable p ∧
    pr_environ p1 = propagate_flags (FeatureFlags (ac_feature_flags cfg)) (pr_environ p).
Proof.
  unfold attach. rewrite run_get, run_modify. set (q := on_server _ p).
  set (loaded := if str_truthy _ then _ else _). destruct loaded as [e|full] eqn:El; [done|]. rewrite run_get.
  destruct (_setup_incoming_auth (ac_incoming_auth <$> full) (pr_module q)) as [[m]|[[reg mode] g]] eqn:Ea; [done|].
  assert (Hfull : ∃ cfg, full = Some cfg ∧ ae_config env = inr cfg).
  { destruct full as [cfg|]; [|done]. exists cfg. split; [done|]. unfold loaded in El.
    destruct (str_truthy _); [|done]. destruct (ae_config env) as [[]|]; congruence. }
  destruct Hfull as (cfg & -> & Hcfg). rewrite !run_modify. destruct (ae_late_error env); [done|].
  intros [= <-]. exists cfg, reg, mode. split_and!; done.
Qed.

(** C15: the server serves only with the authentication it is configured with.
    A start-up that completes has loaded a configuration, and both the gate of
    the transports and the middleware stack carry exactly the provider and mode
    set up from it (nothing is left over from defaults, and an unreadable
    configuration or an invalid authentication section prevents serving); the
    service is running, the MCP server holds the current registry of the
    service, and the signal handlers are those from before. *)
Theorem served_with_configured_auth stamp env p p1 :
  pr_module p = initial_module → startup stamp env p = (inr (), p1) →
  ∃ cfg reg mode, ae_config (le_attach env) = inr cfg ∧
    _setup_incoming_auth (Some (ac_incoming_auth cfg)) initial_module = inr (reg, mode, pr_module p1) ∧
    at_auth (pr_server p1) = Some (reg, mode) ∧ sv_state (pr_service p1) = SRunning ∧
    at_registry (pr_server p1) = Some (sv_registry (pr_service p1)) ∧ pr_handlers p1 = pr_handlers p.
Proof.
  intros Hm H. unfold startup in H. rewrite run_get, run_modify, run_bind in H. unfold finally_run in H.
  set (p0 := set_handlers override p) in H. pose proof (start_service_frame stamp env p0) as Hf.
  pose proof (start_service_running stamp env p0) as Hr.
  destruct (start_service stamp env p0) as [[e|[]] q]; [by destruct e|]. destruct (Hr q eq_refl) as [Hrun Hpath].
  cbn [modify] in H. rewrite run_bind in H. destruct Hf as (Hfm & _). simpl in Hfm.
  destruct (attach (le_attach env) (set_handlers (pr_handlers p) q)) as [[e|[]] q1] eqn:Ea; [done|].
  apply attach_inv in Ea as (cfg & reg & mode & Hcfg & Hs & Hat & Hreg & Hsv & Hh & _). simpl in Hs, Hreg, Hsv, Hh.
  rewrite Hfm, Hm in Hs. rewrite run_modify in H. destruct (le_sdk_error env); [done|]. injection H as <-.
  exists cfg, reg, mode. simpl. rewrite Hsv. split_and!; done.
Qed.

Definition is_int (s : signal) : bool := match s with SigInt => true | SigTerm => false end.

Lemma handle_signals_exit n sigs p e p1 : handle_signals n sigs p = (inl e, p1) → (n ≤ 1)%nat →
  e = HardExit ∧ (2 ≤ n + length (keep is_int sigs))%nat.
Proof.
  revert n p. induction sigs as [|[] sigs IH]; intros n p H Hn; cbn [handle_signals keep is_int length] in *; [done| |].
  - destruct (Nat.leb 2 (S n)) eqn:E; [injection H as <- <-; apply Nat.leb_le in E; split; [done|simpl; lia]|].
    apply Nat.leb_gt in E. rewrite run_modify in H. apply IH in H as [-> ?]; [split; [done|simpl; lia]|lia].
  - rewrite run_modify in H. by apply IH in H.
Qed.

Lemma attach_handlers env p : pr_handlers (attach env p).2 = pr_handlers p ∧ (attach env p).1 ≠ inl HardExit.
Proof.
  unfold attach. rewrite run_get, run_modify. set (q := on_server _ p).
  destruct (if str_truthy _ then _ else _) as [e|full] eqn:El.
  { split; [done|]. simpl. intros [= ->]. repeat case_match; done. }
  rewrite run_get. destruct (_setup_incoming_auth _ _) as [[m]|[[reg mode] g]]; [done|]. rewrite !run_modify.
  by destruct (ae_late_error env).
Qed.

Lemma app_shutdown_total stamp env p : ∃ p', app_shutdown stamp env p = (inr (), p') ∧
  pr_streamable p' = false ∧ (∀ m, at_sessions (pr_server p') = Some m → _sessions m = []) ∧
  sv_state (pr_service p') ≠ SRunning ∧ sv_state (pr_service p') ≠ SStarting ∧ pr_handlers p' = pr_handlers p.
Proof.
  unfold app_shutdown, _shutdown_streamable_http. rewrite run_bind, run_modify. cbn [modify]. unfold lift_service.
  destruct (stop_total stamp (le_stop_time env) (le_watcher_error env) (le_health_error env) (pr_service p)) as (s' & E & H1 & H2).
  change (pr_service (on_server stop_sessions (set_streamable false p))) with (pr_service p). rewrite E.
  eexists. split; [reflexivity|]. split_and!; try done.
  intros m. simpl. unfold stop_sessions. destruct (at_sessions (pr_server p)) as [m0|] eqn:Em; simpl; [|by rewrite Em].
  by intros [= <-].
Qed.

Lemma startup_failed stamp env p e p0 : startup stamp env p = (inl e, p0) →
  (e ≠ HardExit → pr_handlers p0 = pr_handlers p) ∧ (e = HardExit → (2 ≤ length (keep is_int (le_signals env)))%nat).
Proof.
  intros H. unfold startup in H. rewrite run_get, run_modify, run_bind in H. unfold finally_run in H.
  set (p1 := set_handlers override p) in H.
  destruct (start_service stamp env p1) as [[e1|[]] q] eqn:Es.
  - assert (He : e1 = HardExit → (2 ≤ length (keep is_int (le_signals env)))%nat).
    { intros ->. unfold start_service in Es. rewrite run_bind in Es.
      destruct (handle_signals 0 (le_signals env) p1) as [[e2|u] q2] eqn:Eh; [apply handle_signals_exit in Eh; [apply Eh|lia]|].
      rewrite run_get in Es. unfold lift_service in Es. by destruct (start stamp _ _ _) as [[|] ?]. }
    destruct e1; cbn [modify] in H; injection H as <- <-; done.
  - cbn [modify] in H. rewrite run_bind in H. destruct (attach_handlers (le_attach env) (set_handlers (pr_handlers p) q)) as [Hh Hn].
    destruct (attach (le_attach env) (set_handlers (pr_handlers p) q)) as [[e1|[]] q1].
    + injection H as <- <-. simpl in *. split; [done|]. intros ->. done.
    + rewrite run_modify in H. destruct (le_sdk_error env); [|done]. injection H as <- <-. done.
Qed.


Definition new_process : process :=
  {| pr_service := new_service; pr_module := initial_module; pr_environ := []; pr_server := detached;
     pr_handlers := ("uvicorn", "uvicorn"); pr_should_exit := false; pr_streamable := false |}.
Definition demo_config (flags : odict string pyval) : argus_config :=
  {| ac_incoming_auth := demo_auth strict; ac_feature_flags := flags; ac_telemetry := false; ac_workflow_dir := "wf" |}.
Definition demo_life (sigs : list signal) (c : load_error + argus_config) : life_env :=
  {| le_config_path := "config.yaml"; le_signals := sigs; le_start := λ _, start_a;
     le_attach := {| ae_config := c; ae_telemetry_ok := true; ae_late_error := None |}; le_sdk_error := None;
     le_stop_time := 0; le_watcher_error := None; le_health_error := None |}.

Lemma served_with_configured_auth_witness :
  let p1 := (startup no_stamp (demo_life [] (inr (demo_config []))) new_process).2 in
  sv_state (pr_service p1) = SRunning ∧ at_auth (pr_server p1) = Some (Some (LocalTokenProvider "secret"), strict).
Proof.
  intros p1.
  destruct (served_with_configured_auth no_stamp (demo_life [] (inr (demo_config []))) new_process p1)
    as (cfg & reg & mode & Hc & Hs & Ha & Hr & _ & _).
  - reflexivity.
  - unfold p1. vm_compute. reflexivity.
  - split; [exact Hr|]. rewrite Ha. injection Hc as <-. vm_compute in Hs. injection Hs as <- <-. reflexivity.
Defined.

(** An unreadable configuration ends the start-up with an error, and the
    service that was already running is stopped again. *)
Example unreadable_config :
  let '(r, p) := app_lifespan no_stamp (demo_life [] (inl (LListed "OSError" "gone"))) (mret ()) new_process in
  (∃ m, r = inl (Configuration m)) ∧ sv_state (pr_service p) = SStopped.
Proof. vm_compute. eauto. Qed.

(** A Ctrl+C during a start-up that then succeeds is forgotten. *)
Lemma interrupt_forgotten stamp env p p1 : startup stamp env p = (inr (), p1) → pr_should_exit p1 = false.
Proof.
  intros H. unfold startup in H. rewrite run_get, run_modify, run_bind in H.
  destruct (finally_run _ _ _) as [[e|[]] q]; [done|]. rewrite run_bind in H.
  destruct (attach _ q) as [[e|[]] q1]; [done|]. rewrite run_modify in H. destruct (le_sdk_error env); [done|].
  by injection H as <-.
Qed.
Example interrupt_forgotten_example :
  let '(r, p) := startup no_stamp (demo_life [SigInt] (inr (demo_config []))) new_process in
  r = inr () ∧ pr_should_exit p = false.
Proof. vm_compute. by split. Qed.

(** The flags for the containers reach the environment after the backends have
    been connected: they do not influence the start of the service. *)
Lemma flags_after_start stamp sigs path start f1 f2 p p1 p2 :
  let env f := {| le_config_path := path; le_signals := sigs; le_start := start;
     le_attach := {| ae_config := inr (demo_config f); ae_telemetry_ok := true; ae_late_error := None |}; le_sdk_error := None;
     le_stop_time := 0; le_watcher_error := None; le_health_error := None |} in
  startup stamp (env f1) p = (inr (), p1) → startup stamp (env f2) p = (inr (), p2) → pr_service p1 = pr_service p2.
Proof.
  intros env.
  assert (H : ∀ f q, startup stamp (env f) p = (inr (), q) →
    pr_service q = pr_service (start_service stamp (env f1) (set_handlers override p)).2).
  { intros f q H. unfold startup in H. rewrite run_get, run_modify, run_bind in H. unfold finally_run in H.
    change (start_service stamp (env f)) with (start_service stamp (env f1)) in H.
    destruct (start_service stamp (env f1) (set_handlers override p)) as [[e|[]] q0]; [by destruct e|].
    cbn [modify] in H. rewrite run_bind in H. destruct (attach _ _) as [[e|[]] q1] eqn:Ea; [done|].
    apply attach_inv in Ea as (? & ? & ? & _ & _ & _ & _ & Hsv & _). rewrite run_modify in H. injection H as <-. exact Hsv. }
  intros H1 H2. by rewrite (H f1 p1 H1), (H f2 p2 H2).
Qed.
