(* ===== verification/Management.v ===== *)
(** * The management API (server/management/router.py; ArgusService.reauth_backend)

    The REST endpoints over the service runtime, behind the bearer-token layer
    of HttpEdge.v.  Response bodies are the JSON objects of the response models.

    What a request meets outside the program is the record [mg_env]: how
    connections and reloads end, what the checker and the group manager say,
    what a backend answers.  [py_int] is [int(text)], [coerce_int] the integer
    field of a pydantic model, [item_field] a field of a capability that the
    program only passes on.  The event stream, the registry search and the
    list of client sessions are not modelled. *)
From Stdlib Require Import Ascii.
From S2P Require Import Prelude PyDict Effects PyStr Glob Conflict Filter Registry Lifecycle ConfigDiff Backend Service Groups Skills HttpEdge.
#[local] Open Scope Z_scope.

Definition MGMT_EVENTS_LIMIT_MIN : Z := 1.
Definition MGMT_EVENTS_LIMIT_MAX : Z := 10000.
Definition MGMT_SHUTDOWN_TIMEOUT_MIN : Z := 1.
Definition MGMT_SHUTDOWN_TIMEOUT_MAX : Z := 300.
Definition MGMT_BACKEND_NAME_MAX_LEN : Z := 255.
Definition MGMT_QUERY_PARAM_MAX_LEN : Z := 255.

Record mg_response := { rp_status : Z; rp_body : pyval }.
Definition ok (body : pyval) : mg_response := {| rp_status := 200; rp_body := body |}.
Definition _error_json (error message : string) (status : Z) : mg_response :=
  {| rp_status := status; rp_body := PDict [("error", PStr error); ("message", PStr message); ("details", PNone)] |}.

Definition opt_str (s : option string) : pyval := match s with Some s => PStr s | None => PNone end.
Definition str_list (l : list string) : pyval := PList (PStr <$> l).

(** [re.match(r"^[class]+$", s)]: a line feed may follow the last character. *)
Definition matches_class (f : ascii → bool) (s : string) : bool :=
  let l := chars s in
  (forallb f l && negb (bool_decide (l = []))) ||
  match last l with
  | Some c => is_char 10 c && forallb f (removelast l) && negb (bool_decide (removelast l = []))
  | None => false
  end.
Definition _BACKEND_NAME_RE (s : string) : bool :=
  matches_class (λ c, is_word c || is_char 45 c || is_char 46 c) s.
Definition _SAFE_QUERY_RE (s : string) : bool :=
  matches_class (λ c, is_word c || is_char 45 c || is_char 46 c || is_space c || is_char 47 c || is_char 42 c) s.

(** ** Redaction *)

(** [d[key] = {**d[key], ...}] when the key is there and holds an object *)
Definition on_key (key : string) (f : odict string pyval → odict string pyval) (d : odict string pyval) : odict string pyval :=
  match dget d key with Some (PDict x) => dset d key (PDict (f x)) | _ => d end.

Definition redacted : pyval := PStr "[redacted]".
Definition redact_transport (t : odict string pyval) : odict string pyval :=
  let t1 := dset (dset (dset t "host" redacted) "port" (PInt 0)) "sse_url" redacted in
  if dmem t1 "streamable_http_url" then dset t1 "streamable_http_url" redacted else t1.
Definition _redact_status_response (status : odict string pyval) : odict string pyval :=
  on_key "transport" redact_transport (on_key "config" (λ c, dset c "file_path" redacted) status).

Definition redact_backend (b : pyval) : pyval :=
  match b with PDict d => PDict (dset (dset d "error" PNone) "conditions" (PList [])) | _ => b end.
Definition _redact_backends_response (backends : odict string pyval) : odict string pyval :=
  match dget backends "backends" with
  | Some (PList l) => dset backends "backends" (PList (redact_backend <$> l))
  | _ => backends
  end.

(** ** The requests and the outside *)

Record mg_request := { rq_method : string; rq_query : odict string string; rq_body : option pyval }.

Record call_result := { call_content : list (string * string); call_is_error : bool }.
(** How [trigger_reauth] of a provider ends: it has none, or the text of its
    exception. *)
Inductive reauth_outcome := NoReauth | ReauthFails (msg : string) | ReauthDone.

Record mg_env := {
  me_reload : reload_env;
  me_reconnect : reconnect_env;
  me_reauth : reauth_outcome;
  me_health : option (odict string string);
  me_groups : option GroupManager;
  me_redact : bool;
  me_uptime : pyval; me_started_at : pyval; me_host : string; me_port : Z; me_flags : odict string bool;
  me_optimizer : option (list string);
  me_call : string → string → pyval → string + call_result;
  me_read : string → string → string + list (string * string * pyval) }.

(** The service, the skills, the shutdowns that were scheduled and the calls that
    reached a backend session: backend, name and arguments. *)
Record mgmt := {
  mg_service : service;
  mg_skills : option skill_state;
  mg_shutdowns : list Z;
  mg_calls : list (string * string * pyval) }.
Definition set_service (s : service) (m : mgmt) : mgmt :=
  {| mg_service := s; mg_skills := mg_skills m; mg_shutdowns := mg_shutdowns m; mg_calls := mg_calls m |}.
Definition set_mg_skills (k : skill_state) (m : mgmt) : mgmt :=
  {| mg_service := mg_service m; mg_skills := Some k; mg_shutdowns := mg_shutdowns m; mg_calls := mg_calls m |}.
Definition schedule (t : Z) (m : mgmt) : mgmt :=
  {| mg_service := mg_service m; mg_skills := mg_skills m; mg_shutdowns := mg_shutdowns m ++ [t]; mg_calls := mg_calls m |}.
Definition log_call (c : string * string * pyval) (m : mgmt) : mgmt :=
  {| mg_service := mg_service m; mg_skills := mg_skills m; mg_shutdowns := mg_shutdowns m; mg_calls := mg_calls m ++ [c] |}.

(** What leaves a handler as an exception. *)
Inductive mg_exc := MgService (e : svc_exn) | MgSkill (e : skill_exc) | MgAttribute.
Abbreviation mgm := (M mgmt mg_exc) (only parsing).
Definition the_service : mgm service := λ m, (inr (mg_service m), m).
Definition on_service {A} (f : M service svc_exn A) : mgm A := λ m,
  match f (mg_service m) with
  | (inr a, s) => (inr a, set_service s m)
  | (inl e, s) => (inl (MgService e), set_service s m)
  end.

Definition registry_of (s : service) : registry :=
  match sv_heap s !! sv_registry s with Some (_, r) => r | None => empty_registry end.
Definition is_running (s : service) : bool := bool_decide (sv_state s = SRunning).

Section api.
Context (stamp : nat → string) (py_int : string → option Z) (coerce_int : pyval → option Z)
  (dump_condition : BackendCondition → pyval) (item_field : string → cap_item → pyval) (base : list string).

(** ** Probes and status *)

Definition handle_health (env : mg_env) (s : service) : mg_response :=
  let total := sv_backends_total s in
  let connected := sv_backends_connected s in
  let health := if (connected =? total) && (0 <? total) then "healthy"
                else if 0 <? connected then "degraded"
                else if total =? 0 then "healthy" else "unhealthy" in
  let healthy_count := match me_health env with
    | Some states => Z.of_nat (length (keep (λ st, bool_decide (st = "healthy")) (dvalues states)))
    | None => connected
    end in
  ok (PDict [("status", PStr health); ("uptime_seconds", me_uptime env); ("version", PStr "0.8.6");
             ("backends", PDict [("total", PInt total); ("connected", PInt connected); ("healthy", PInt healthy_count)])]).

Definition handle_ready (s : service) : mg_response :=
  if sv_ready_event s then ok (PDict [("ready", PBool true); ("reason", PStr "accepting traffic")])
  else {| rp_status := 503; rp_body := PDict [("ready", PBool false); ("reason", PStr "backends not connected")] |}.

Definition base_url (env : mg_env) (path : string) : string :=
  "http://" +:+ me_host env +:+ ":" +:+ str_of_int (me_port env) +:+ path.
Definition _build_status (env : mg_env) (s : service) : odict string pyval :=
  [("service", PDict [("name", PStr "Argus MCP"); ("version", PStr "0.8.6"); ("state", PStr (state_value (sv_state s)));
                      ("uptime_seconds", me_uptime env); ("started_at", me_started_at env)]);
   ("config", PDict [("file_path", opt_str (sv_config_path s)); ("loaded_at", me_started_at env);
                     ("backend_count", PInt (sv_backends_total s))]);
   ("transport", PDict [("sse_url", PStr (base_url env "/sse")); ("streamable_http_url", PStr (base_url env "/mcp"));
                        ("host", PStr (me_host env)); ("port", PInt (me_port env))]);
   ("feature_flags", PDict ((λ kv, (kv.1, PBool kv.2)) <$> me_flags env))].
Definition handle_status (env : mg_env) (s : service) : mg_response :=
  let data := _build_status env s in
  ok (PDict (if me_redact env then _redact_status_response data else data)).

(** [_count_by_backend]: the items whose route goes to a backend *)
Definition count_for (r : registry) (items : list cap_item) (backend : string) : Z :=
  Z.of_nat (length (keep (λ i, bool_decide (fst <$> resolve_capability r (ci_name i) = Some backend)) items)).

Definition health_status (env : mg_env) (name : string) (connected : bool) : string :=
  let fallback := if connected then "healthy" else "unknown" in
  match me_health env with Some states => default fallback (dget states name) | None => fallback end.

Definition backend_detail (env : mg_env) (s : service) (kv : string * backend_dict) : pyval :=
  let '(name, c) := kv in
  let connected := dmem (_sessions (sv_manager s)) name in
  let r := registry_of s in
  let record := _status_records (sv_manager s) !! name in
  PDict [("name", PStr name); ("type", PStr (default "unknown" (bd_type c)));
         ("group", PStr (match me_groups env with Some g => group_of g name | None => "default" end));
         ("phase", PStr (match record with Some sr => phase_value (phase sr) | None => "pending" end));
         ("state", PStr (if connected then "connected" else "disconnected")); ("connected_at", PNone);
         ("error", match record with Some sr => opt_str (rec_error sr) | None => PNone end);
         ("capabilities", PDict [("tools", PInt (count_for r (sn_tools (sv_snapshot s)) name));
                                 ("resources", PInt (count_for r (sn_resources (sv_snapshot s)) name));
                                 ("prompts", PInt (count_for r (sn_prompts (sv_snapshot s)) name))]);
         ("health", PDict [("status", PStr (health_status env name connected)); ("last_check", PNone); ("latency_ms", PNone)]);
         ("conditions", match record with Some sr => PList (dump_condition <$> recent_conditions sr) | None => PList [] end);
         ("labels", PDict [])].
Definition _build_backends (env : mg_env) (s : service) : odict string pyval :=
  [("backends", PList (backend_detail env s <$> default [] (sv_config_data s)))].
Definition handle_backends (env : mg_env) (s : service) : mg_response :=
  let data := _build_backends env s in
  ok (PDict (if me_redact env then _redact_backends_response data else data)).

(** ** Groups, capabilities, events *)

Definition group_entry (servers : list string) : pyval :=
  PDict [("servers", str_list servers); ("count", PInt (Z.of_nat (length servers)))].
Definition groups_body (groups : odict string pyval) (total_groups total_servers : Z) : pyval :=
  PDict [("groups", PDict groups); ("total_groups", PInt total_groups); ("total_servers", PInt total_servers)].
(** [GroupManager.to_dict] *)
Definition groups_to_dict (g : GroupManager) : pyval :=
  groups_body ((λ n, (n, group_entry (PyStr.sorted_names (elements (servers_in g n))))) <$> groups g)
    (Z.of_nat (group_count g)) (Z.of_nat (size (all_servers g))).

Definition too_long (v : option string) : bool :=
  match v with Some v => MGMT_QUERY_PARAM_MAX_LEN <? strlen v | None => false end.

Definition handle_groups (env : mg_env) (q : mg_request) : mg_response :=
  let filter_group := dget (rq_query q) "group" in
  if str_truthy filter_group && too_long filter_group then _error_json "bad_request" "Group name is too long." 400
  else if str_truthy filter_group && negb (_SAFE_QUERY_RE (default "" filter_group))
  then _error_json "bad_request" "Group name contains invalid characters." 400
  else match me_groups env with
       | None => ok (groups_body [] 0 0)
       | Some g =>
           if str_truthy filter_group then
             let name := default "" filter_group in
             let servers := PyStr.sorted_names (elements (servers_in g name)) in
             ok (groups_body [(name, group_entry servers)] (if bool_decide (servers = []) then 0 else 1)
                   (Z.of_nat (length servers)))
           else ok (groups_to_dict g)
       end.

(** [_filter_caps]: the items of a kind that pass the filters, with their route *)
Definition _filter_caps (r : registry) (kind : string) (filter_type filter_backend : option string) (search : string)
    (items : list cap_item) (detail : cap_item → option (string * string) → string → pyval) : list pyval :=
  if negb (bool_decide (filter_type = None)) && negb (bool_decide (filter_type = Some kind)) then []
  else
    omap (λ i,
      let entry := resolve_capability r (ci_name i) in
      let backend := match entry with Some e => e.1 | None => "" end in
      if (str_truthy filter_backend && negb (bool_decide (Some backend = filter_backend))) ||
         (negb (bool_decide (search = "")) && negb (contains (lower (ci_name i)) search))
      then None else Some (detail i entry backend)) items.

Definition tool_detail (i : cap_item) (entry : option (string * string)) (backend : string) : pyval :=
  PDict [("name", PStr (ci_name i)); ("original_name", PStr (match entry with Some e => e.2 | None => ci_name i end));
         ("description", PStr (str_or (ci_description i) "")); ("backend", PStr backend);
         ("input_schema", item_field "inputSchema" i); ("filtered", PBool false); ("renamed", PBool false)].
Definition resource_detail (i : cap_item) (_ : option (string * string)) (backend : string) : pyval :=
  PDict [("uri", item_field "uri" i); ("name", PStr (ci_name i)); ("backend", PStr backend);
         ("mime_type", item_field "mimeType" i)].
Definition prompt_detail (i : cap_item) (_ : option (string * string)) (backend : string) : pyval :=
  PDict [("name", PStr (ci_name i)); ("description", PStr (str_or (ci_description i) "")); ("backend", PStr backend);
         ("arguments", item_field "arguments" i)].

(** [me_optimizer]: the list of kept tools when the optimizer is active; the
    two meta tools are always visible then. *)
Definition _build_capabilities (env : mg_env) (s : service) (filter_type filter_backend : option string) (search : string)
  : odict string pyval :=
  let r := registry_of s in
  let tools := _filter_caps r "tools" filter_type filter_backend search (sn_tools (sv_snapshot s)) tool_detail in
  [("tools", PList tools);
   ("resources", PList (_filter_caps r "resources" filter_type filter_backend search (sn_resources (sv_snapshot s)) resource_detail));
   ("prompts", PList (_filter_caps r "prompts" filter_type filter_backend search (sn_prompts (sv_snapshot s)) prompt_detail));
   ("route_map", PDict ((λ kv, (kv.1, PList [PStr kv.2.1; PStr kv.2.2])) <$> map_to_list (_route_map r)));
   ("optimizer_active", PBool (match me_optimizer env with Some _ => true | None => false end));
   ("mcp_visible_tool_count", PInt (match me_optimizer env with
      | Some keep_list => 2 + Z.of_nat (length (keep (λ i, bool_decide (ci_name i ∈ keep_list)) (sn_tools (sv_snapshot s))))
      | None => Z.of_nat (length tools) end))].

Definition handle_capabilities (env : mg_env) (q : mg_request) (s : service) : mg_response :=
  let filter_type := dget (rq_query q) "type" in
  let filter_backend := dget (rq_query q) "backend" in
  let search := lower (default "" (dget (rq_query q) "search")) in
  if too_long filter_type || too_long filter_backend || too_long (Some search)
  then _error_json "bad_request" "Query parameter is too long." 400
  else if str_truthy filter_backend && negb (_BACKEND_NAME_RE (default "" filter_backend))
  then _error_json "bad_request" "Backend name contains invalid characters." 400
  else if str_truthy filter_type && negb (bool_decide (default "" filter_type ∈ ["tools"; "resources"; "prompts"]))
  then _error_json "bad_request" "Type must be one of: tools, resources, prompts." 400
  else ok (PDict (_build_capabilities env s filter_type filter_backend search)).

(** The identifier and the details of an event are left out, as in Service.v. *)
Definition event_item (e : svc_event) : pyval :=
  PDict [("timestamp", PStr (ev_timestamp e)); ("stage", PStr (ev_stage e)); ("message", PStr (ev_message e));
         ("severity", PStr (ev_severity e)); ("backend", opt_str (ev_backend e))].
Definition _build_events (limit : Z) (since severity : option string) (s : service) : odict string pyval :=
  [("events", PList (event_item <$> get_events (Z.to_nat limit) since severity s))].
Definition handle_events (q : mg_request) (s : service) : mg_response :=
  match py_int (default "100" (dget (rq_query q) "limit")) with
  | None => _error_json "bad_request" "'limit' must be an integer." 400
  | Some limit =>
      if negb ((MGMT_EVENTS_LIMIT_MIN <=? limit) && (limit <=? MGMT_EVENTS_LIMIT_MAX))
      then _error_json "bad_request" "'limit' must be between 1 and 10000." 400
      else ok (PDict (_build_events limit (dget (rq_query q) "since") (dget (rq_query q) "severity") s))
  end.

Definition handle_batch (env : mg_env) (q : mg_request) (s : service) : mg_response :=
  let requested := default 20 (py_int (default "20" (dget (rq_query q) "events_limit"))) in
  let limit := Z.max MGMT_EVENTS_LIMIT_MIN (Z.min requested MGMT_EVENTS_LIMIT_MAX) in
  let status := _build_status env s in
  let backends := _build_backends env s in
  ok (PDict [("status", PDict (if me_redact env then _redact_status_response status else status));
             ("backends", PDict (if me_redact env then _redact_backends_response backends else backends));
             ("capabilities", PDict (_build_capabilities env s None None ""));
             ("events", PDict (_build_events limit None None s))]).

(** ** Operations *)

Definition handle_reload (env : mg_env) : mgm mg_response :=
  s ← the_service;
  if negb (is_running s) then mret (_error_json "service_unavailable" "Service is not running." 503)
  else
    r ← on_service (reload stamp (me_reload env));
    mret (ok (PDict [("reloaded", PBool (rr_reloaded r)); ("backends_added", str_list (rr_added r));
                     ("backends_removed", str_list (rr_removed r)); ("backends_changed", str_list (rr_changed r));
                     ("errors", str_list (rr_errors r))])).

(** The checks that reconnecting and re-authenticating share. *)
Definition check_backend_name (name : string) (s : service) : option mg_response :=
  if bool_decide (name = "") then Some (_error_json "bad_request" "Backend name is required." 400)
  else if MGMT_BACKEND_NAME_MAX_LEN <? strlen name then Some (_error_json "bad_request" "Backend name is too long." 400)
  else if negb (_BACKEND_NAME_RE name) then Some (_error_json "bad_request" "Backend name contains invalid characters." 400)
  else if negb (is_running s) then Some (_error_json "service_unavailable" "Service is not running." 503)
  else match sv_config_data s with
       | Some ((_ :: _) as c) => if dmem c name then None else Some (_error_json "not_found" ("Backend '" +:+ name +:+ "' not found.") 404)
       | _ => None
       end.

Definition named_result (name key : string) (done : bool) (error : option string) : mg_response :=
  {| rp_status := if done then 200 else 500;
     rp_body := PDict [("name", PStr name); (key, PBool done); ("error", opt_str error)] |}.

Definition handle_reconnect (env : mg_env) (name : string) : mgm mg_response :=
  s ← the_service;
  match check_backend_name name s with
  | Some r => mret r
  | None => r ← on_service (reconnect_backend stamp name (me_reconnect env));
            mret (named_result name "reconnected" (rc_reconnected r) (rc_error r))
  end.

(** [ArgusService.reauth_backend]; the provider itself is that of OutgoingAuth.v. *)
Definition reauth_backend (outcome : reauth_outcome) (name : string) : M service svc_exn (bool * option string) :=
  s ← get_state;
  if negb (is_running s) then mret (false, Some ("Cannot re-authenticate in state: " +:+ state_value (sv_state s)))
  else if negb (dmem (default [] (sv_config_data s)) name)
  then mret (false, Some ("Backend '" +:+ name +:+ "' not found in configuration."))
  else if negb (bool_decide (name ∈ _auth_providers (sv_manager s)))
  then mret (false, Some ("Backend '" +:+ name +:+ "' has no auth provider."))
  else match outcome with
       | NoReauth => mret (false, Some ("Backend '" +:+ name +:+ "' does not support interactive re-auth."))
       | ReauthFails msg => mret (false, Some msg)
       | ReauthDone =>
           _ ← modify (emit_event stamp "backend_reauth" ("Re-authentication completed for backend '" +:+ name +:+ "'.") "info" (Some name));
           mret (true, None)
       end.
Definition handle_reauth (env : mg_env) (name : string) : mgm mg_response :=
  s ← the_service;
  match check_backend_name name s with
  | Some r => mret r
  | None => r ← on_service (reauth_backend (me_reauth env) name);
            mret (named_result name "reauth_initiated" r.1 r.2)
  end.

(** The shutdown runs after the response; a body that is no JSON counts as empty. *)
Definition handle_shutdown (q : mg_request) : mgm mg_response :=
  let timeout := match rq_body q with
    | Some (PDict d) => match dget d "timeout_seconds" with Some v => coerce_int v | None => Some 30 end
    | _ => Some 30
    end in
  match timeout with
  | None => mret (_error_json "bad_request" "Invalid shutdown request body." 400)
  | Some t =>
      if negb ((MGMT_SHUTDOWN_TIMEOUT_MIN <=? t) && (t <=? MGMT_SHUTDOWN_TIMEOUT_MAX))
      then mret (_error_json "bad_request" "'timeout_seconds' must be between 1 and 300." 400)
      else _ ← modify (schedule t); mret (ok (PDict [("shutting_down", PBool true)]))
  end.

(** [body.get(field, "").strip()] *)
Definition body_text (body : pyval) (field : string) : mg_exc + string :=
  match body with
  | PDict d => match get_or d field (PStr "") with PStr s => inr (str_strip s) | _ => inl MgAttribute end
  | _ => inl MgAttribute
  end.
Definition body_field (body : pyval) (field : string) (def : pyval) : pyval :=
  match body with PDict d => get_or d field def | _ => def end.

(** The backend that a name is routed to, or the answer without one. *)
Definition route_to (what name : string) (s : service) : mg_response + (string * string) :=
  match resolve_capability (registry_of s) name with
  | None => inl (_error_json "not_found" (what +:+ " '" +:+ name +:+ "' not found.") 404)
  | Some (svr_name, orig) =>
      match get_session svr_name (sv_manager s) with
      | None => inl (_error_json "backend_unavailable" ("Backend '" +:+ svr_name +:+ "' session not available.") 503)
      | Some _ => inr (svr_name, orig)
      end
  end.

Definition handle_tools_call (env : mg_env) (q : mg_request) : mgm mg_response :=
  match rq_body q with
  | None => mret (_error_json "bad_request" "Invalid JSON body." 400)
  | Some body =>
      match body_text body "tool" with
      | inl e => raise e
      | inr tool =>
          if bool_decide (tool = "") then mret (_error_json "bad_request" "Field 'tool' is required." 400)
          else match body_field body "arguments" (PDict []) with
               | PDict args =>
                   s ← the_service;
                   match route_to "Tool" tool s with
                   | inl r => mret r
                   | inr (svr_name, orig) =>
                       _ ← modify (log_call (svr_name, orig, PDict args));
                       mret match me_call env svr_name orig (PDict args) with
                            | inl msg => _error_json "call_failed" msg 502
                            | inr r => ok (PDict [("tool", PStr tool); ("backend", PStr svr_name);
                                ("content", PList ((λ c, PDict [("type", PStr c.1); ("text", PStr c.2)]) <$> call_content r));
                                ("isError", PBool (call_is_error r))])
                            end
                   end
               | _ => mret (_error_json "bad_request" "'arguments' must be an object." 400)
               end
      end
  end.

Definition handle_resources_read (env : mg_env) (q : mg_request) : mgm mg_response :=
  match rq_body q with
  | None => mret (_error_json "bad_request" "Invalid JSON body." 400)
  | Some body =>
      match body_text body "uri" with
      | inl e => raise e
      | inr uri =>
          if bool_decide (uri = "") then mret (_error_json "bad_request" "Field 'uri' is required." 400)
          else
            s ← the_service;
            match route_to "Resource" uri s with
            | inl r => mret r
            | inr (svr_name, orig) =>
                _ ← modify (log_call (svr_name, orig, PNone));
                mret match me_read env svr_name orig with
                     | inl msg => _error_json "read_failed" msg 502
                     | inr l => ok (PDict [("uri", PStr uri); ("backend", PStr svr_name);
                         ("contents", PList ((λ c, PDict [("uri", PStr c.1.1); ("text", PStr c.1.2); ("mimeType", c.2)]) <$> l))])
                     end
            end
      end
  end.

(** ** Skills *)

Definition on_skills {A} (k : skill_state) (f : M skill_state skill_exc A) : mgm A := λ m,
  match f k with
  | (inr a, k') => (inr a, set_mg_skills k' m)
  | (inl e, k') => (inl (MgSkill e), set_mg_skills k' m)
  end.
Definition with_skills (f : skill_state → mgm mg_response) : mgm mg_response := λ m,
  match mg_skills m with
  | None => (inr (_error_json "not_available" "Skill manager not initialized." 503), m)
  | Some k => f k m
  end.

(** [len] of a list, a text or an object *)
Definition py_len (v : pyval) : option Z :=
  match v with
  | PList l => Some (Z.of_nat (length l)) | PStr s => Some (strlen s) | PDict d => Some (Z.of_nat (length d)) | _ => None
  end.
Definition skill_detail (k : InstalledSkill) : mg_exc + pyval :=
  match py_len (sm_tools (is_manifest k)), py_len (sm_workflows (is_manifest k)) with
  | Some t, Some w =>
      inr (PDict [("name", PStr (sm_name (is_manifest k))); ("version", sm_version (is_manifest k));
                  ("description", sm_description (is_manifest k)); ("status", PStr (status_value (is_status k)));
                  ("tools", PInt t); ("workflows", PInt w); ("author", sm_author (is_manifest k))])
  | _, _ => inl (MgSkill STypeError)
  end.
(** Listing scans the directory again. *)
Definition handle_skills_list : mgm mg_response :=
  with_skills (λ k,
    skills ← on_skills k (discover base);
    match map_each skill_detail skills with
    | inl e => raise e
    | inr l => mret (ok (PDict [("skills", PList l)]))
    end).

Definition handle_skills_action (action : string) (f : string → M skill_state skill_exc ()) (name : string) : mgm mg_response :=
  with_skills (λ k,
    if bool_decide (name = "") || negb (_BACKEND_NAME_RE name) then mret (_error_json "bad_request" "Invalid skill name." 400)
    else if negb (dmem (ss_skills k) name) then mret (_error_json "not_found" ("Skill '" +:+ name +:+ "' not found.") 404)
    else _ ← on_skills k (f name);
         mret (ok (PDict [("name", PStr name); ("action", PStr action); ("ok", PBool true)]))).
Definition handle_skills_enable (name : string) : mgm mg_response := handle_skills_action "enabled" enable name.
Definition handle_skills_disable (name : string) : mgm mg_response := handle_skills_action "disabled" disable name.

(** ** The router *)

Inductive endpoint :=
  | EHealth | EReady | EStatus | EBackends | EGroups | ECapabilities | EEvents | EBatch | ESkills
  | EReload | EReconnect (name : string) | EReauth (name : string) | EShutdown
  | ESkillEnable (name : string) | ESkillDisable (name : string) | EToolsCall | EResourcesRead.

(** The segments of a path below the mount point, and the routes: method and
    endpoint.  A parameter is a non-empty segment. *)
Definition segments (path : string) : list string := str_split (ascii_of_nat 47) path.
Definition fixed_routes : list (list string * (string * endpoint)) :=
  [([""; "health"], ("GET", EHealth)); ([""; "ready"], ("GET", EReady)); ([""; "status"], ("GET", EStatus));
   ([""; "backends"], ("GET", EBackends)); ([""; "groups"], ("GET", EGroups)); ([""; "capabilities"], ("GET", ECapabilities));
   ([""; "events"], ("GET", EEvents)); ([""; "batch"], ("GET", EBatch)); ([""; "reload"], ("POST", EReload));
   ([""; "shutdown"], ("POST", EShutdown)); ([""; "skills"], ("GET", ESkills)); ([""; "tools"; "call"], ("POST", EToolsCall));
   ([""; "resources"; "read"], ("POST", EResourcesRead))].
Definition named_route (segs : list string) : option endpoint :=
  match segs with
  | [r; a; name] =>
      if negb (bool_decide (r = "" ∧ name ≠ "")) then None
      else if bool_decide (a = "reconnect") then Some (EReconnect name)
      else if bool_decide (a = "reauth") then Some (EReauth name) else None
  | [r; a; name; action] =>
      if negb (bool_decide (r = "" ∧ a = "skills" ∧ name ≠ "")) then None
      else if bool_decide (action = "enable") then Some (ESkillEnable name)
      else if bool_decide (action = "disable") then Some (ESkillDisable name) else None
  | _ => None
  end.
Definition management_routes (path : string) : option (string * endpoint) :=
  match List.find (λ kv, bool_decide (kv.1 = segments path)) fixed_routes with
  | Some kv => Some kv.2
  | None => (λ e, ("POST", e)) <$> named_route (segments path)
  end.

Definition view (f : service → mg_response) : mgm mg_response := s ← the_service; mret (f s).
Definition run_endpoint (env : mg_env) (q : mg_request) (e : endpoint) : mgm mg_response :=
  match e with
  | EHealth => view (handle_health env)
  | EReady => view handle_ready
  | EStatus => view (handle_status env)
  | EBackends => view (handle_backends env)
  | EGroups => mret (handle_groups env q)
  | ECapabilities => view (handle_capabilities env q)
  | EEvents => view (handle_events q)
  | EBatch => view (handle_batch env q)
  | ESkills => handle_skills_list
  | EReload => handle_reload env
  | EReconnect name => handle_reconnect env name
  | EReauth name => handle_reauth env name
  | EShutdown => handle_shutdown q
  | ESkillEnable name => handle_skills_enable name
  | ESkillDisable name => handle_skills_disable name
  | EToolsCall => handle_tools_call env q
  | EResourcesRead => handle_resources_read env q
  end.

Definition status_only (code : Z) : mg_response := {| rp_status := code; rp_body := PNone |}.
Definition route (env : mg_env) (path : string) (q : mg_request) : mgm mg_response :=
  match management_routes path with
  | None => mret (status_only 404)
  | Some (method, e) =>
      if bool_decide (rq_method q = method) || (bool_decide (rq_method q = "HEAD") && bool_decide (method = "GET"))
      then run_endpoint env q e else mret (status_only 405)
  end.

(** The application: the token layer in front of the router.  [prefix] is the
    mount point, which the layer sees and the router does not. *)
Definition management_app (token : option string) (prefix : string) (headers : list (string * string)) (env : mg_env)
    (path : string) (q : mg_request) : mgm mg_response :=
  let scope := {| sc_type := "http"; sc_path := Some (prefix +:+ path); sc_headers := headers; sc_scheme := Some "http" |} in
  match BearerAuthMiddleware token scope with
  | Pass => route env path q
  | Deny code msg => mret {| rp_status := code; rp_body := PDict [("error", PStr "unauthorized"); ("message", PStr msg)] |}
  | Crash => mret (status_only 500)
  end.
End api.

(** ** Without the token nothing changes *)

Lemma split_on_app c a b : split_on c (a ++ c :: b) = split_on c a ++ split_on c b.
Proof.
  induction a as [|x a IH]; simpl; [by rewrite bool_decide_true|]. rewrite IH.
  destruct (split_on_cons c a) as (p & ps & ->). by case_bool_decide.
Qed.
Lemma last_split c a b : last (split_on c (a ++ c :: b)) = last (split_on c b).
Proof. rewrite split_on_app. destruct (split_on_cons c b) as (p & ps & ->). apply last_app_cons. Qed.

Local Abbreviation slash := (ascii_of_nat 47).

(** The last segment of a public path is one of the public names. *)
Lemma public_last_segment sc w : is_public sc = true →
  last (split_on slash (chars (path_of sc))) = Some w → w ≠ [] → text w ∈ ["health"; "ready"].
Proof.
  unfold is_public, stripped_path, rstrip_by. intros Hp Hl Hw.
  assert (Hs : rstrip_chars (is_char 47) (chars (path_of sc)) = chars (path_of sc)).
  { destruct (rstrip_chars_split (is_char 47) (chars (path_of sc))) as (b & E & Hb).
    destruct b as [|c b] using rev_ind; [by rewrite app_nil_r in E|]. apply Forall_app in Hb as [_ Hb].
    apply Forall_cons in Hb as [Hc _]. apply is_char_eq in Hc as ->. rewrite E, app_assoc, last_split in Hl.
    simpl in Hl. by simplify_eq. }
  rewrite Hs, text_chars in Hp. apply existsb_exists in Hp as (suf & Hsuf & He).
  assert (Hcase : ∃ v, chars suf = slash :: chars v ∧ (slash ∉ chars v) ∧ v ∈ ["health"; "ready"]).
  { apply list_elem_of_In in Hsuf. unfold PUBLIC_PATH_SUFFIXES in Hsuf. rewrite !elem_of_cons, elem_of_nil in Hsuf.
    destruct Hsuf as [->|[->|[]]]; [exists "health"|exists "ready"]; (split; [done|split; [by_decide|by_decide]]). }
  destruct Hcase as (v & Ev & Hv & Hin). apply bool_decide_eq_true in He as [r Hr]. rewrite Ev in Hr.
  rewrite Hr, last_split, (split_on_plain _ _ Hv) in Hl. simplify_eq/=. by rewrite text_chars.
Qed.

(** The endpoints that may change something. *)
Definition mutating (e : endpoint) : bool :=
  match e with
  | EHealth | EReady | EStatus | EBackends | EGroups | ECapabilities | EEvents | EBatch => false
  | _ => true
  end.

Lemma split_head c l q qs : split_on c l = [] :: q :: qs → ∃ rest, l = c :: rest ∧ split_on c rest = q :: qs.
Proof.
  destruct l as [|x l]; [done|]. cbn [split_on]. destruct (bool_decide_reflect (x = c)) as [->|].
  - intros [= H]. eauto.
  - by destruct (split_on c l).
Qed.

Lemma segments_last path a ys w : segments path = "" :: a :: ys → last (a :: ys) = Some w →
  ∃ rest, chars path = slash :: rest ∧ last (split_on slash rest) = Some (chars w).
Proof.
  unfold segments, str_split. intros Hs Hw. destruct (split_on slash (chars path)) as [|p l] eqn:E; [done|].
  rewrite fmap_cons in Hs. injection Hs as Hp Hl. destruct p; [|done]. destruct l as [|q qs]; [done|].
  destruct (split_head _ _ _ _ E) as (rest & -> & Hr). exists rest. split; [done|].
  rewrite <-Hl, <-Hr, fmap_last in Hw. destruct (last (split_on slash rest)) as [v|]; [|done]. simpl in Hw.
  injection Hw as <-. by rewrite chars_text.
Qed.

Lemma route_last path method e : management_routes path = Some (method, e) →
  ∃ rest w, chars path = slash :: rest ∧ last (split_on slash rest) = Some (chars w) ∧ w ≠ "" ∧
    (mutating e = true → w ∈ ["health"; "ready"] → e = EReconnect w ∨ e = EReauth w).
Proof.
  unfold management_routes. destruct (List.find _ fixed_routes) as [[segs me]|] eqn:Ef.
  - intros [= ->]. apply find_some in Ef as [Hin Hs%bool_decide_eq_true]. simpl in Hs. symmetry in Hs.
    apply list_elem_of_In in Hin. unfold fixed_routes in Hin. rewrite !elem_of_cons, elem_of_nil in Hin.
    destruct_or?; simplify_eq;
      (match goal with H : _ = segments path |- _ => symmetry in H | _ => idtac end);
      (match goal with H : segments path = _ |- _ => destruct (segments_last _ _ _ _ H eq_refl) as (rest & H1 & H2) end);
      (eexists rest, _; split; [done|split; [exact H2|split; [done|]]]);
      (intros Hm Hw; exfalso; revert Hm Hw; simpl; set_solver).
  - destruct (named_route (segments path)) as [e'|] eqn:En; [|done]. intros [= <- <-].
    unfold named_route in En. destruct (segments path) as [|r [|a [|name [|action [|? ?]]]]] eqn:Es; try done.
    + case_bool_decide as Hr; [|done]. destruct Hr as [-> Hne]. simpl in En.
      destruct (segments_last _ _ _ name Es eq_refl) as (rest & H1 & H2). exists rest, name. split_and!; try done.
      intros _ _. repeat case_bool_decide; simplify_eq; auto.
    + case_bool_decide as Hr; [|done]. destruct Hr as (-> & -> & Hne). simpl in En.
      destruct (segments_last _ _ _ action Es eq_refl) as (rest & H1 & H2). exists rest, action.
      repeat case_bool_decide; simplify_eq; (split_and!; [done|done|done|]); intros _ Hin; exfalso; revert Hin; by_decide.
Qed.

Lemma bearer_needed token sc : sc_type sc = "http" → is_public sc = false → BearerAuthMiddleware (Some token) sc = Pass →
  first_header "authorization" (sc_headers sc) = Some ("Bearer " +:+ token).
Proof.
  intros Ht Hp. unfold BearerAuthMiddleware. rewrite bool_decide_true, Hp by done. cbn [negb].
  destruct (first_header _ _) as [h|]; simpl; [|done]. destruct (startswith h "Bearer ") eqn:Eh; cbn [negb]; [|done].
  destruct (compare_digest _ token) as [[]|] eqn:Ec; try done. apply compare_digest_true in Ec. intros _.
  f_equal. by apply bearer_header.
Qed.

Section claims.
Context (stamp : nat → string) (py_int : string → option Z) (coerce_int : pyval → option Z)
  (dump_condition : BackendCondition → pyval) (item_field : string → cap_item → pyval) (base : list string).
Local Abbreviation app := (management_app stamp py_int coerce_int dump_condition item_field base).
Local Abbreviation run := (run_endpoint stamp py_int coerce_int dump_condition item_field base).

Lemma views_change_nothing env q e m : mutating e = false → (run env q e m).2 = m.
Proof. by destruct e. Qed.

(** C39: without the token the management API changes nothing.  Whatever the
    request, if a token is configured and the first authorization header is not
    that token, the service, the skills, the scheduled shutdowns and the calls
    to backends stay as they are; with one exception, which the public paths
    open: reconnecting or re-authenticating a backend that is called "health" or
    "ready". *)
Theorem management_needs_token (token prefix : string) (headers : list (string * string)) (env : mg_env) (path : string)
    (q : mg_request) (m : mgmt) (Hauth : first_header "authorization" headers ≠ Some ("Bearer " +:+ token)) :
  (app (Some token) prefix headers env path q m).2 = m ∨
  ∃ method name, name ∈ ["health"; "ready"] ∧
    (management_routes path = Some (method, EReconnect name) ∨ management_routes path = Some (method, EReauth name)).
Proof.
  unfold management_app. set (sc := {| sc_type := "http" |}).
  destruct (BearerAuthMiddleware (Some token) sc) eqn:Eb; [|by left|by left].
  destruct (is_public sc) eqn:Ep; [|by destruct Hauth; apply (bearer_needed token sc)].
  unfold route. destruct (management_routes path) as [[method e]|] eqn:Er; [|by left].
  destruct (_ || _); [|by left]. destruct (mutating e) eqn:Em; [|left; by apply views_change_nothing].
  right. destruct (route_last path method e Er) as (rest & w & Hpath & Hlast & Hne & Hname).
  assert (Hw : w ∈ ["health"; "ready"]).
  { rewrite <-(text_chars w). apply (public_last_segment sc); [done| |].
    - unfold path_of. simpl. by rewrite chars_app, Hpath, last_split.
    - intros H. apply Hne, chars_inj. by rewrite H. }
  exists method, w. split; [done|]. destruct (Hname Em Hw) as [->| ->]; auto.
Qed.

(** ** Redacted answers *)

(** Two situations that differ only in what redaction hides: the path of the
    configuration file, the address of the server, and the errors and conditions
    of the backends. *)
Record same_public (env1 env2 : mg_env) (s1 s2 : service) : Prop := {
  sp_uptime : me_uptime env1 = me_uptime env2; sp_started : me_started_at env1 = me_started_at env2;
  sp_flags : me_flags env1 = me_flags env2; sp_groups : me_groups env1 = me_groups env2;
  sp_health : me_health env1 = me_health env2;
  sp_state : sv_state s1 = sv_state s2; sp_total : sv_backends_total s1 = sv_backends_total s2;
  sp_config : sv_config_data s1 = sv_config_data s2; sp_snapshot : sv_snapshot s1 = sv_snapshot s2;
  sp_registry : registry_of s1 = registry_of s2;
  sp_sessions : dkeys (_sessions (sv_manager s1)) = dkeys (_sessions (sv_manager s2));
  sp_phases : ∀ n, phase <$> _status_records (sv_manager s1) !! n = phase <$> _status_records (sv_manager s2) !! n }.

Lemma redacted_status_same env1 env2 s1 s2 : same_public env1 env2 s1 s2 →
  _redact_status_response (_build_status env1 s1) = _redact_status_response (_build_status env2 s2).
Proof.
  intros [Hu Hst Hf Hg Hh Hs Ht Hc Hsn Hr Hse Hp]. unfold _build_status. rewrite Hu, Hst, Hf, Hs, Ht. reflexivity.
Qed.

Lemma redacted_backends_same env1 env2 s1 s2 : same_public env1 env2 s1 s2 →
  _redact_backends_response (_build_backends dump_condition env1 s1) =
  _redact_backends_response (_build_backends dump_condition env2 s2).
Proof.
  intros [Hu Hst Hf Hg Hh Hs Ht Hc Hsn Hr Hse Hp]. unfold _build_backends. rewrite Hc.
  unfold _redact_backends_response. cbn [dget dset decide]. simpl. do 3 f_equal.
  rewrite <-!list_fmap_compose. apply list_fmap_ext. intros _ [name c] _. unfold compose, backend_detail, health_status.
  assert (Hm : dmem (_sessions (sv_manager s1)) name = dmem (_sessions (sv_manager s2)) name).
  { apply eq_true_iff_eq. by rewrite !dmem_spec, Hse. }
  rewrite Hm, Hg, Hh, Hsn, Hr. specialize (Hp name).
  destruct (_status_records (sv_manager s1) !! name), (_status_records (sv_manager s2) !! name); simpl in Hp; simplify_eq;
    simpl; by rewrite ?Hp.
Qed.

(** Redaction hides what it promises.  With redaction on, the answers of the
    status and backends endpoints, and those parts of the batch answer, are the
    same for any two situations that differ only in the path of the configuration
    file, the host and port of the server, and the errors and conditions recorded
    for the backends: nothing about these can be learnt from them. *)
Theorem redaction_hides (env1 env2 : mg_env) (s1 s2 : service) (q : mg_request)
    (H1 : me_redact env1 = true) (H2 : me_redact env2 = true) (Hsame : same_public env1 env2 s1 s2) :
  handle_status env1 s1 = handle_status env2 s2 ∧
  handle_backends dump_condition env1 s1 = handle_backends dump_condition env2 s2 ∧
  ∀ key, key ∈ ["status"; "backends"] →
    match rp_body (handle_batch py_int dump_condition item_field env1 q s1), rp_body (handle_batch py_int dump_condition item_field env2 q s2) with
    | PDict d1, PDict d2 => dget d1 key = dget d2 key
    | _, _ => False
    end.
Proof.
  pose proof (redacted_status_same _ _ _ _ Hsame) as Hst. pose proof (redacted_backends_same _ _ _ _ Hsame) as Hba.
  unfold handle_status, handle_backends, handle_batch. rewrite H1, H2, Hst, Hba. split_and!; [done|done|].
  intros key Hk. cbn [rp_body ok]. simpl. rewrite !elem_of_cons, elem_of_nil in Hk. destruct Hk as [->|[->|[]]]; reflexivity.
Qed.
End claims.

(** ** Examples *)

Definition sample_env : mg_env := {|
  me_reload := reload_b;
  me_reconnect := {| rc_full := inr plain_full; rc_attempt := connecting "a"; rc_order := λ l, l; rc_end := RcDone; rc_timeout := "60" |};
  me_reauth := NoReauth; me_health := None; me_groups := None; me_redact := true; me_uptime := PInt 7; me_started_at := PNone;
  me_host := "10.1.2.3"; me_port := 9000; me_flags := []; me_optimizer := None;
  me_call := λ _ _ _, inr {| call_content := [("text", "done")]; call_is_error := false |}; me_read := λ _ _, inr [] |}.
Definition mgmt_a : mgmt := {| mg_service := running_a; mg_skills := None; mg_shutdowns := []; mg_calls := [] |}.
Definition post (body : pyval) : mg_request := {| rq_method := "POST"; rq_query := []; rq_body := Some body |}.
Definition sample_app := management_app no_stamp (λ _, None) (λ v, as_num v) (λ _, PNone) (λ _ _, PNone) ["skills"].
Definition sample_token : string := "0123456789abcdef".
Definition with_token : list (string * string) := [("authorization", "Bearer " +:+ sample_token)].

Lemma management_needs_token_witness :
  (sample_app (Some sample_token) "/manage/v1" [("authorization", "Bearer guess")] sample_env "/shutdown" (post (PDict [])) mgmt_a).2 = mgmt_a ∧
  mg_shutdowns (sample_app (Some sample_token) "/manage/v1" with_token sample_env "/shutdown" (post (PDict [])) mgmt_a).2 = [30].
Proof.
  split; [|vm_compute; reflexivity].
  destruct (management_needs_token no_stamp (λ _, None) (λ v, as_num v) (λ _, PNone) (λ _ _, PNone) ["skills"] sample_token
              "/manage/v1" [("authorization", "Bearer guess")] sample_env "/shutdown" (post (PDict [])) mgmt_a) as [H|(me & n & _ & [H|H])];
    [vm_compute; congruence|exact H|vm_compute in H; congruence|vm_compute in H; congruence].
Defined.

(** A call through the management API reaches the owner of the tool under its
    original name. *)
Example management_call :
  let r := sample_app (Some sample_token) "/manage/v1" with_token sample_env "/tools/call"
             (post (PDict [("tool", PStr " a_tool "); ("arguments", PDict [])])) mgmt_a in
  mg_calls r.2 = [("a", "a_tool", PDict [])] ∧
  (sample_app (Some sample_token) "/manage/v1" with_token sample_env "/reconnect/zz" (post PNone) mgmt_a).1 =
    inr (_error_json "not_found" "Backend 'zz' not found." 404).
Proof. vm_compute. done. Qed.

Definition moved_env : mg_env := {|
  me_reload := me_reload sample_env; me_reconnect := me_reconnect sample_env; me_reauth := NoReauth; me_health := None;
  me_groups := None; me_redact := true; me_uptime := PInt 7; me_started_at := PNone; me_host := "192.168.0.9"; me_port := 1;
  me_flags := []; me_optimizer := None; me_call := me_call sample_env; me_read := me_read sample_env |}.
Lemma moved_same_public s p : same_public sample_env moved_env s (set_config_path p s).
Proof. by split. Qed.

Lemma redaction_hides_witness :
  let s2 := set_config_path (Some "/etc/secret.yaml") running_a in
  sv_config_path s2 ≠ sv_config_path running_a ∧ handle_status sample_env running_a = handle_status moved_env s2.
Proof.
  split; [vm_compute; congruence|].
  apply (redaction_hides (λ _, None) (λ _, PNone) (λ _ _, PNone) sample_env moved_env running_a
           (set_config_path (Some "/etc/secret.yaml") running_a) {| rq_method := "GET"; rq_query := []; rq_body := None |});
    [done|done|apply moved_same_public].
Defined.
