(* ===== verification/ArgusClient.v ===== *)
(** * The clients of the command line

    packages/argus_cli/argus_cli/client.py: the synchronous and the asynchronous
    client of the management API, with their retries; daemon_client.py: the client
    of the argusd daemon.

    The network is a parameter: [answer n r] is what comes back for the request [r]
    when it is the [n]-th one that is sent.  A response is its status and its text.
    [py_str] is [str(v)] of a value that is not a string.  Time is in milliseconds. *)
From S2P Require Import Prelude PyDict Effects PyStr Json Lifecycle Registry CliConfig HttpEdge Groups Service Management.
From Stdlib Require Import Ascii.
#[local] Open Scope Z_scope.

Definition MAX_RETRIES : nat := 3.
Definition RETRY_BACKOFF_BASE : Z := 500.

(** ** Requests *)

Record http_request := { hr_method : string; hr_path : string; hr_params : odict string pyval; hr_json : option pyval }.
Definition plain_request (method path : string) : http_request :=
  {| hr_method := method; hr_path := path; hr_params := []; hr_json := None |}.

Definition _build_headers (py_str : pyval → string) (config : CliConfig) : odict string string :=
  let headers := [("Accept", "application/json")] in
  if truthy (cli_token config)
  then dset headers "Authorization" ("Bearer " +:+ match cli_token config with PStr s => s | v => py_str v end)
  else headers.

(** [if x: params[key] = x] *)
Definition add_param (key : string) (v : option string) (params : odict string pyval) : odict string pyval :=
  if str_truthy v then dset params key (opt_val v) else params.
Definition _build_group_params (group : option string) : odict string pyval := add_param "group" group [].
Definition _build_capabilities_params (type_filter backend search : option string) : odict string pyval :=
  add_param "search" search (add_param "backend" backend (add_param "type" type_filter [])).
Definition _build_events_params (limit : Z) (since severity : option string) : odict string pyval :=
  add_param "severity" severity (add_param "since" since [("limit", PStr (str_of_int limit))]).

(** The methods of a client with their arguments. *)
Inductive api_call :=
  | CallHealth | CallStatus | CallBackends
  | CallGroups (group : option string)
  | CallCapabilities (type_filter backend search : option string)
  | CallSessions
  | CallEvents (limit : Z) (since severity : option string)
  | CallReload
  | CallReconnect (name : string)
  | CallShutdown (timeout_seconds : Z)
  | CallRegistrySearch (query : string) (limit : Z) (registry : option string)
  | CallSkillsList
  | CallSkillsEnable (name : string)
  | CallSkillsDisable (name : string)
  | CallTool (name : string) (arguments : option pyval)
  | CallReadResource (uri : string).

(** The request of each method of [ArgusClient]. *)
Definition request_of (c : api_call) : http_request :=
  match c with
  | CallHealth => plain_request "get" "/health"
  | CallStatus => plain_request "get" "/status"
  | CallBackends => plain_request "get" "/backends"
  | CallGroups group => {| hr_method := "get"; hr_path := "/groups"; hr_params := _build_group_params group; hr_json := None |}
  | CallCapabilities t b s =>
      {| hr_method := "get"; hr_path := "/capabilities"; hr_params := _build_capabilities_params t b s; hr_json := None |}
  | CallSessions => plain_request "get" "/sessions"
  | CallEvents limit since severity =>
      {| hr_method := "get"; hr_path := "/events"; hr_params := _build_events_params limit since severity; hr_json := None |}
  | CallReload => plain_request "post" "/reload"
  | CallReconnect name => plain_request "post" ("/reconnect/" +:+ name)
  | CallShutdown t =>
      {| hr_method := "post"; hr_path := "/shutdown"; hr_params := []; hr_json := Some (PDict [("timeout_seconds", PInt t)]) |}
  | CallRegistrySearch query limit registry =>
      {| hr_method := "get"; hr_path := "/registry/search";
         hr_params := add_param "registry" registry [("q", PStr query); ("limit", PInt limit)]; hr_json := None |}
  | CallSkillsList => plain_request "get" "/skills"
  | CallSkillsEnable name => plain_request "post" ("/skills/" +:+ name +:+ "/enable")
  | CallSkillsDisable name => plain_request "post" ("/skills/" +:+ name +:+ "/disable")
  | CallTool name arguments =>
      {| hr_method := "post"; hr_path := "/tools/call"; hr_params := [];
         hr_json := Some (PDict [("tool", PStr name); ("arguments", py_or (default PNone arguments) (PDict []))]) |}
  | CallReadResource uri =>
      {| hr_method := "post"; hr_path := "/resources/read"; hr_params := []; hr_json := Some (PDict [("uri", PStr uri)]) |}
  end.

(** The request of each method of [AsyncArgusClient]. *)
Definition async_request_of (c : api_call) : http_request :=
  match c with
  | CallHealth => plain_request "get" "/health"
  | CallStatus => plain_request "get" "/status"
  | CallBackends => plain_request "get" "/backends"
  | CallGroups group => {| hr_method := "get"; hr_path := "/groups"; hr_params := _build_group_params group; hr_json := None |}
  | CallCapabilities t b s =>
      {| hr_method := "get"; hr_path := "/capabilities"; hr_params := _build_capabilities_params t b s; hr_json := None |}
  | CallSessions => plain_request "get" "/sessions"
  | CallEvents limit since severity =>
      {| hr_method := "get"; hr_path := "/events"; hr_params := _build_events_params limit since severity; hr_json := None |}
  | CallReload => plain_request "post" "/reload"
  | CallReconnect name => plain_request "post" ("/reconnect/" +:+ name)
  | CallShutdown t =>
      {| hr_method := "post"; hr_path := "/shutdown"; hr_params := []; hr_json := Some (PDict [("timeout_seconds", PInt t)]) |}
  | CallRegistrySearch query limit registry =>
      {| hr_method := "get"; hr_path := "/registry/search";
         hr_params := add_param "registry" registry [("q", PStr query); ("limit", PInt limit)]; hr_json := None |}
  | CallSkillsList => plain_request "get" "/skills"
  | CallSkillsEnable name => plain_request "post" ("/skills/" +:+ name +:+ "/enable")
  | CallSkillsDisable name => plain_request "post" ("/skills/" +:+ name +:+ "/disable")
  | CallTool name arguments =>
      {| hr_method := "post"; hr_path := "/tools/call"; hr_params := [];
         hr_json := Some (PDict [("tool", PStr name); ("arguments", py_or (default PNone arguments) (PDict []))]) |}
  | CallReadResource uri =>
      {| hr_method := "post"; hr_path := "/resources/read"; hr_params := []; hr_json := Some (PDict [("uri", PStr uri)]) |}
  end.

(** ** Answers *)

Record http_response := { hp_status : Z; hp_text : string }.
(** [ArgusClientError], or an exception that the client does not translate. *)
Inductive client_exn := ArgusClientError (status_code : Z) (error message : pyval) | Untranslated (what : string).

Definition _handle_response (r : http_response) : client_exn + pyval :=
  if 400 <=? hp_status r then
    match loads (hp_text r) with
    | Some (PDict body) =>
        inl (ArgusClientError (hp_status r) (get_or body "error" (PStr "unknown_error")) (get_or body "message" (PStr (hp_text r))))
    | Some _ => inl (Untranslated "AttributeError")
    | None => inl (ArgusClientError (hp_status r) (PStr "http_error") (PStr (hp_text r)))
    end
  else match loads (hp_text r) with
       | Some result => inr result
       | None => inl (ArgusClientError (hp_status r) (PStr "parse_error") (PStr "Response is not valid JSON"))
       end.

(** How sending fails: the last case are the exceptions outside [TransportError]. *)
Inductive fault := ConnectError | TimeoutException | TransportError (text : string) | OtherError (text : string).

Definition fault_error (server_url : string) (f : fault) : client_exn + client_exn :=
  match f with
  | ConnectError => inr (ArgusClientError 0 (PStr "connection_error") (PStr ("Cannot connect to " +:+ server_url)))
  | TimeoutException => inr (ArgusClientError 0 (PStr "timeout_error") (PStr "Request timed out"))
  | TransportError t => inr (ArgusClientError 0 (PStr "transport_error") (PStr ("Network error: " +:+ t)))
  | OtherError t => inl (Untranslated t)
  end.

Record net := { nt_sent : list http_request; nt_slept : list Z }.
Definition send (r : http_request) (s : net) : net := {| nt_sent := nt_sent s ++ [r]; nt_slept := nt_slept s |}.
Definition sleep (t : Z) (s : net) : net := {| nt_sent := nt_sent s; nt_slept := nt_slept s ++ [t] |}.

Section client.
Context (answer : nat → http_request → fault + http_response) (config : CliConfig).

(** The turns of the loop that are left, from [attempt] on. *)
Fixpoint try_request (left attempt : nat) (r : http_request) (last_exc : client_exn) (s : net) : (client_exn + pyval) * net :=
  match left with
  | O => (inl last_exc, s)
  | S left' =>
      let s1 := send r s in
      match answer (length (nt_sent s)) r with
      | inr response => (_handle_response response, s1)
      | inl f =>
          match fault_error (cli_server_url config) f with
          | inl e => (inl e, s1)
          | inr e =>
              let s2 := if bool_decide (attempt < MAX_RETRIES - 1)%nat then sleep (RETRY_BACKOFF_BASE * 2 ^ Z.of_nat attempt) s1
                        else s1 in
              try_request left' (S attempt) r e s2
          end
      end
  end.
Definition sync_request (r : http_request) : M net client_exn pyval :=
  try_request MAX_RETRIES 0 r (Untranslated "TypeError").
Definition async_request (r : http_request) : M net client_exn pyval :=
  try_request MAX_RETRIES 0 r (Untranslated "TypeError").

Definition call_sync (c : api_call) : M net client_exn pyval := sync_request (request_of c).
Definition call_async (c : api_call) : M net client_exn pyval := async_request (async_request_of c).
End client.

(** The events of a stream as the SSE reader hands them over. *)
Record sse := { sse_event : string; sse_data : string; sse_id : string }.
Definition parsed_data (data : string) : pyval := default (PStr data) (loads data).
Definition events_stream (received : list sse) : list (odict string pyval) :=
  (λ e, [("event", PStr (sse_event e)); ("data", parsed_data (sse_data e)); ("id", PStr (sse_id e))]) <$> received.

(** ** Retries *)

Section retries.
Context (answer : nat → http_request → fault + http_response) (config : CliConfig).
Local Abbreviation run := (sync_request answer config).

Definition retryable (f : fault) : bool := match f with OtherError _ => false | _ => true end.
(** The pauses before the second and the third attempt. *)
Definition pauses (k : nat) : list Z := take k [500; 1000].

Definition sent_times (k : nat) (p : nat) (r : http_request) (s : net) : net :=
  {| nt_sent := nt_sent s ++ replicate k r; nt_slept := nt_slept s ++ pauses p |}.

Lemma fault_retryable f : retryable f = true → ∃ st err msg, fault_error (cli_server_url config) f = inr (ArgusClientError st err msg).
Proof. destruct f; simpl; eauto; done. Qed.

(** One turn of the loop, by the answer to it. *)
Lemma turn_answer left attempt r e s resp : answer (length (nt_sent s)) r = inr resp →
  try_request answer config (S left) attempt r e s = (_handle_response resp, send r s).
Proof. intros H. simpl. by rewrite H. Qed.
Lemma turn_other left attempt r e s t : answer (length (nt_sent s)) r = inl (OtherError t) →
  try_request answer config (S left) attempt r e s = (inl (Untranslated t), send r s).
Proof. intros H. simpl. by rewrite H. Qed.
Lemma turn_fault left attempt r e s f : answer (length (nt_sent s)) r = inl f → retryable f = true →
  ∃ e', fault_error (cli_server_url config) f = inr e' ∧
  try_request answer config (S left) attempt r e s =
    try_request answer config left (S attempt) r e'
      (if bool_decide (attempt < MAX_RETRIES - 1)%nat then sleep (RETRY_BACKOFF_BASE * 2 ^ Z.of_nat attempt) (send r s) else send r s).
Proof.
  intros H Hf. destruct (fault_retryable f Hf) as (st & err & msg & E). eexists. split; [exact E|]. simpl. by rewrite H, E.
Qed.

(** The state after [k] faults, in front of the next attempt. *)
Definition after_faults (k : nat) (r : http_request) (s : net) : net := sent_times k k r s.

Lemma run_faults r s k : (k ≤ 2)%nat →
  (∀ i, (i < k)%nat → ∃ f, answer (length (nt_sent s) + i)%nat r = inl f ∧ retryable f = true) →
  ∃ e, run r s = try_request answer config (3 - k) k r e (after_faults k r s).
Proof.
  intros Hk Hf. unfold sync_request, MAX_RETRIES.
  assert (after_faults 0 r s = s) as E0 by (destruct s; unfold after_faults, sent_times; simpl; by rewrite !app_nil_r).
  destruct k as [|[|[|]]]; [rewrite E0; eauto| | |lia].
  - destruct (Hf 0%nat) as (f & Ef & Hr); [lia|]. rewrite Nat.add_0_r in Ef.
    destruct (turn_fault 2 0 r (Untranslated "TypeError") s f Ef Hr) as (e & _ & ->). by exists e.
  - destruct (Hf 0%nat) as (f & Ef & Hr); [lia|]. rewrite Nat.add_0_r in Ef.
    destruct (turn_fault 2 0 r (Untranslated "TypeError") s f Ef Hr) as (e & _ & ->).
    destruct (Hf 1%nat) as (f' & Ef' & Hr'); [lia|].
    destruct (turn_fault 1 1 r e (sleep 500 (send r s)) f') as (e' & _ & E'); [|done|].
    { simpl. by rewrite length_app. }
    exists e'. etransitivity; [exact E'|]. f_equal. unfold after_faults, sent_times, sleep, send. simpl. by rewrite <-!app_assoc.
Qed.

Lemma after_faults_length k r s : length (nt_sent (after_faults k r s)) = (length (nt_sent s) + k)%nat.
Proof. simpl. by rewrite length_app, length_replicate. Qed.
Lemma send_after_faults k r s : send r (after_faults k r s) = sent_times (S k) k r s.
Proof. unfold send, after_faults, sent_times. simpl. by rewrite <-app_assoc, <-replicate_cons_app. Qed.

(** A request is sent until the first answer, at most three times, with growing
    pauses; the answer, or the last fault, decides the result. *)
Theorem request_exact r s :
  let faults k := ∀ i, (i < k)%nat → ∃ f, answer (length (nt_sent s) + i)%nat r = inl f ∧ retryable f = true in
  (∀ k resp, (k < 3)%nat → faults k → answer (length (nt_sent s) + k)%nat r = inr resp →
     run r s = (_handle_response resp, sent_times (S k) k r s)) ∧
  (∀ k t, (k < 3)%nat → faults k → answer (length (nt_sent s) + k)%nat r = inl (OtherError t) →
     run r s = (inl (Untranslated t), sent_times (S k) k r s)) ∧
  (faults 3%nat → ∃ f e, answer (length (nt_sent s) + 2)%nat r = inl f ∧ fault_error (cli_server_url config) f = inr e ∧
     run r s = (inl e, sent_times 3 2 r s)).
Proof.
  cbv zeta. split_and!.
  - intros k resp Hk Hf Ha. destruct (run_faults r s k) as [e ->]; [lia|done|].
    replace (3 - k)%nat with (S (2 - k)) by lia. rewrite (turn_answer _ _ _ _ _ resp) by (by rewrite after_faults_length).
    by rewrite send_after_faults.
  - intros k t Hk Hf Ha. destruct (run_faults r s k) as [e ->]; [lia|done|].
    replace (3 - k)%nat with (S (2 - k)) by lia. rewrite (turn_other _ _ _ _ _ t) by (by rewrite after_faults_length).
    by rewrite send_after_faults.
  - intros Hf. destruct (Hf 2%nat) as (f & Ef & Hr); [lia|].
    destruct (run_faults r s 2) as [e ->]; [lia|intros i Hi; apply Hf; lia|].
    destruct (turn_fault 0 2 r e (after_faults 2 r s) f) as (e' & Ee & E'); [by rewrite after_faults_length|done|].
    exists f, e'. split_and!; [done..|]. etransitivity; [exact E'|]. simpl. by rewrite send_after_faults.
Qed.

(** A tool call whose answers are late is made three times. *)
Lemma late_call_repeated name arguments s : (∀ n r, answer n r = inl TimeoutException) →
  nt_sent (call_sync answer config (CallTool name arguments) s).2 = nt_sent s ++ replicate 3 (request_of (CallTool name arguments)).
Proof.
  intros H. unfold call_sync. destruct (request_exact (request_of (CallTool name arguments)) s) as (_ & _ & Hall).
  destruct Hall as (f & e & _ & _ & ->); [|done]. intros i _. exists TimeoutException. by rewrite H.
Qed.
End retries.

Lemma clients_agree c answer config : call_sync answer config c = call_async answer config c.
Proof. by destruct c. Qed.

(** ** The client in front of the server *)

Local Abbreviation slash := (ascii_of_nat 47).

(** A segment of a path that needs no quoting. *)
Definition plain_segment (s : string) : bool :=
  forallb (λ c, is_word c || is_char 45 c || is_char 46 c) (chars s) && negb (bool_decide (s ∈ [""; "."; ".."])).
Definition plain_path (p : string) : bool :=
  match segments p with "" :: segs => forallb plain_segment segs | _ => false end.

(** The endpoint each method is meant for; the two without one are outside
    Management.v. *)
Definition endpoint_of (c : api_call) : option endpoint :=
  match c with
  | CallHealth => Some EHealth | CallStatus => Some EStatus | CallBackends => Some EBackends
  | CallGroups _ => Some EGroups | CallCapabilities _ _ _ => Some ECapabilities | CallSessions => None
  | CallEvents _ _ _ => Some EEvents | CallReload => Some EReload | CallReconnect name => Some (EReconnect name)
  | CallShutdown _ => Some EShutdown | CallRegistrySearch _ _ _ => None | CallSkillsList => Some ESkills
  | CallSkillsEnable name => Some (ESkillEnable name) | CallSkillsDisable name => Some (ESkillDisable name)
  | CallTool _ _ => Some EToolsCall | CallReadResource _ => Some EResourcesRead
  end.
Definition names_plain (c : api_call) : bool :=
  match c with CallReconnect name | CallSkillsEnable name | CallSkillsDisable name => plain_segment name | _ => true end.

Lemma split_no_sep c l : c ∉ l → split_on c l = [l].
Proof.
  induction l as [|x l IH]; simpl; [done|]. intros [Hx Hl]%not_elem_of_cons.
  by rewrite bool_decide_false, IH by congruence.
Qed.

Lemma segments_cons a rest : slash ∉ chars a → segments (a +:+ "/" +:+ rest) = a :: segments rest.
Proof.
  intros Ha. unfold segments, str_split. rewrite !chars_app. simpl. rewrite split_on_app, split_no_sep by done.
  simpl. by rewrite text_chars.
Qed.
Lemma segments_one a : slash ∉ chars a → segments a = [a].
Proof. intros Ha. unfold segments, str_split. rewrite split_no_sep by done. simpl. by rewrite text_chars. Qed.

Lemma plain_no_slash s : plain_segment s = true → slash ∉ chars s.
Proof.
  unfold plain_segment. intros [H _]%andb_true_iff Hin. rewrite forallb_elem_of in H. by specialize (H _ Hin).
Qed.
Lemma plain_nonempty s : plain_segment s = true → s ≠ "".
Proof. intros H ->. by vm_compute in H. Qed.

Lemma call_segments c : names_plain c = true →
  segments (hr_path (request_of c)) =
    match c with
    | CallReconnect name => [""; "reconnect"; name]
    | CallSkillsEnable name => [""; "skills"; name; "enable"]
    | CallSkillsDisable name => [""; "skills"; name; "disable"]
    | _ => segments (hr_path (request_of c))
    end.
Proof.
  destruct c; try done; cbn [names_plain request_of hr_path plain_request]; intros H%plain_no_slash.
  - change ("/reconnect/" +:+ name) with ("" +:+ "/" +:+ "reconnect" +:+ "/" +:+ name).
    rewrite segments_cons by by_decide. rewrite segments_cons by by_decide. by rewrite segments_one.
  - change ("/skills/" +:+ name +:+ "/enable") with ("" +:+ "/" +:+ "skills" +:+ "/" +:+ name +:+ "/" +:+ "enable").
    rewrite segments_cons by by_decide. rewrite segments_cons by by_decide. by rewrite segments_cons.
  - change ("/skills/" +:+ name +:+ "/disable") with ("" +:+ "/" +:+ "skills" +:+ "/" +:+ name +:+ "/" +:+ "disable").
    rewrite segments_cons by by_decide. rewrite segments_cons by by_decide. by rewrite segments_cons.
Qed.

Lemma call_path_plain c : names_plain c = true → plain_path (hr_path (request_of c)) = true.
Proof.
  intros H. unfold plain_path. rewrite call_segments by done.
  destruct c; try (vm_compute; reflexivity); cbn [names_plain] in H; simpl; by rewrite H.
Qed.

Lemma not_fixed segs : Forall (λ kv : list string * (string * endpoint), kv.1 ≠ segs) fixed_routes →
  List.find (λ kv, bool_decide (kv.1 = segs)) fixed_routes = None.
Proof. intros H. apply find_nothing. eapply Forall_impl; [exact H|]. intros kv Hkv. by apply bool_decide_false. Qed.

Lemma call_routed c e : names_plain c = true → endpoint_of c = Some e →
  management_routes (hr_path (request_of c)) = Some (upper (hr_method (request_of c)), e).
Proof.
  intros Hn He. unfold management_routes. rewrite call_segments by done.
  destruct c; cbn [endpoint_of] in He; simplify_eq; try (vm_compute; reflexivity); cbn [names_plain] in Hn;
    apply plain_nonempty in Hn; rewrite not_fixed by (unfold fixed_routes; repeat constructor; simpl; congruence);
    unfold named_route; rewrite bool_decide_true by done; reflexivity.
Qed.

Section end_to_end.
(** The server and what lies between: [wire] is the path that arrives for a path
    that is asked for, [render] the text of a response body, [param_text] a query
    parameter as text. *)
Context (stamp : nat → string) (py_int : string → option Z) (coerce_int : pyval → option Z)
  (dump_condition : BackendCondition → pyval) (item_field : string → cap_item → pyval) (base : list string).
Context (wire : string → string) (render : pyval → string) (param_text : pyval → string) (py_str : pyval → string).
Context (wire_plain : ∀ p, plain_path p = true → wire p = p).
Context (render_loads : ∀ v, pv_wf v → loads (render v) = Some v).

Definition arrives (r : http_request) : mg_request :=
  {| rq_method := upper (hr_method r); rq_query := (λ kv, (kv.1, param_text kv.2)) <$> hr_params r; rq_body := hr_json r |}.
Definition arriving_headers (config : CliConfig) : list (string * string) :=
  (λ kv, (lower kv.1, kv.2)) <$> _build_headers py_str config.
Definition server_app (token : string) (config : CliConfig) (env : mg_env) (r : http_request) : M mgmt mg_exc mg_response :=
  management_app stamp py_int coerce_int dump_condition item_field base (Some token) MANAGE_API_PREFIX (arriving_headers config)
    env (wire (hr_path r)) (arrives r).
(** A network that delivers everything to a server in the state [m]. *)
Definition served (token : string) (config : CliConfig) (env : mg_env) (m : mgmt) (_ : nat) (r : http_request) : fault + http_response :=
  match (server_app token config env r m).1 with
  | inr resp => inr {| hp_status := rp_status resp; hp_text := render (rp_body resp) |}
  | inl _ => inr {| hp_status := 500; hp_text := "Internal Server Error" |}
  end.

Lemma token_accepted token config path : cli_token config = PStr token → token ≠ "" → is_ascii token = true →
  BearerAuthMiddleware (Some token) {| sc_type := "http"; sc_path := Some path; sc_headers := arriving_headers config;
                                       sc_scheme := Some "http" |} = Pass.
Proof.
  intros Ht Hne Ha. unfold BearerAuthMiddleware. rewrite bool_decide_true by done. cbn [negb].
  destruct (is_public _); [done|]. unfold arriving_headers, _build_headers. rewrite Ht. cbn [truthy].
  rewrite bool_decide_false by done. cbn [negb].
  replace (first_header _ _) with (Some ("Bearer " +:+ token)) by (vm_compute; reflexivity). cbv zeta. cbn [default from_option id].
  rewrite (proj2 (startswith_app _ _)) by eauto. cbn [negb].
  change 7%nat with (length (chars "Bearer ")). rewrite drop_chars_app.
  unfold compare_digest. by rewrite Ha, bool_decide_true.
Qed.

End end_to_end.

Definition client_config : CliConfig :=
  {| cli_server_url := DEFAULT_SERVER_URL; cli_token := PStr sample_token; cli_output_format := PStr "rich"; cli_no_color := false;
     cli_theme := PStr "nord"; cli_show_toolbar := true; cli_vi_mode := false; cli_poll_interval := 30;
     cli_history_limit := 50; cli_argusd_auto_start := false; cli_argusd_binary := PNone; cli_argusd_socket := PNone |}.
Definition sample_text (v : pyval) : string := match v with PStr s => s | PInt z => str_of_int z | _ => "" end.
Definition sample_served :=
  served no_stamp (λ _, None) (λ v, as_num v) (λ _, PNone) (λ _ _, PNone) ["skills"] (λ p, p) (dumps None) sample_text sample_text.

