(* ===== verification/DaemonClient.v ===== *)
(** * The client of the daemon

    packages/argus_cli/argus_cli/daemon_client.py: requests and streams over a
    Unix socket, and the start of the daemon when it is missing.

    Parameters: what a request is answered with, the events of a stream, the file
    system ([is_file], [executable], [which]), the start of a process and the clock,
    one reading per call, in milliseconds. *)
From S2P Require Import Prelude PyDict Effects PyStr Json CliConfig ArgusClient.
#[local] Open Scope Z_scope.

(** [DaemonError], or an exception that goes through. *)
Inductive daemon_exn := DaemonError (message : pyval) (status_code : Z) | Through (what : string).

(** [_client]: [None], or whether the HTTP client is open. *)
Record DaemonClient := { dm_socket_path : string; dm_client : option bool }.

Definition path_join (a b : string) : string :=
  if startswith b "/" then b else if bool_decide (a = "") || endswith a "/" then a +:+ b else a +:+ "/" +:+ b.
Definition default_socket_path (xdg : option string) (tempdir : string) : string :=
  if str_truthy xdg then path_join (default "" xdg) "argusd.sock" else path_join tempdir "argusd.sock".
Definition new_daemon_client (socket_path xdg : option string) (tempdir : string) : DaemonClient :=
  {| dm_socket_path := str_or socket_path (default_socket_path xdg tempdir); dm_client := None |}.

Definition connect (d : DaemonClient) : DaemonClient :=
  match dm_client d with Some _ => d | None => {| dm_socket_path := dm_socket_path d; dm_client := Some true |} end.
Definition close (d : DaemonClient) : DaemonClient :=
  match dm_client d with Some _ => {| dm_socket_path := dm_socket_path d; dm_client := None |} | None => d end.
Definition is_connected (d : DaemonClient) : bool := default false (dm_client d).
(** [async with DaemonClient() as client: body] *)
Definition with_daemon {A} (body : M DaemonClient daemon_exn A) : M DaemonClient daemon_exn A :=
  modify connect ;; finally_ body close.

(** ** Requests *)

Definition _ensure_connected (d : DaemonClient) : daemon_exn + () :=
  if is_connected d then inr () else inl (DaemonError (PStr "DaemonClient is not connected; call connect() first") 0).

Definition daemon_response (r : http_response) : daemon_exn + pyval :=
  if 400 <=? hp_status r then
    match loads (hp_text r) with
    | Some (PDict body) => inl (DaemonError (get_or body "error" (PStr (hp_text r))) (hp_status r))
    | Some _ => inl (Through "AttributeError")
    | None => inl (DaemonError (PStr (hp_text r)) (hp_status r))
    end
  else match loads (hp_text r) with Some v => inr v | None => inl (Through "JSONDecodeError") end.

Definition daemon_request (answer : http_request → (fault * string) + http_response) (r : http_request) (d : DaemonClient)
    : daemon_exn + pyval :=
  _ ← _ensure_connected d;
  match answer {| hr_method := hr_method r; hr_path := "/v1" +:+ hr_path r; hr_params := hr_params r; hr_json := hr_json r |} with
  | inr resp => daemon_response resp
  | inl (ConnectError, exc) => inl (DaemonError (PStr ("Cannot connect to argusd at " +:+ dm_socket_path d +:+ ": " +:+ exc)) 0)
  | inl (TimeoutException, exc) => inl (DaemonError (PStr ("Timeout communicating with argusd: " +:+ exc)) 0)
  | inl (TransportError _, exc) | inl (OtherError _, exc) => inl (Through exc)
  end.

Inductive daemon_call :=
  | DHealth | DListContainers | DInspectContainer (id : string) | DStartContainer (id : string) | DStopContainer (id : string)
  | DRestartContainer (id : string) | DRemoveContainer (id : string) | DListPods | DDescribePod (namespace name : string)
  | DDeletePod (namespace name : string) | DPodEvents (namespace name : string) | DRolloutRestart (namespace name : string).
Definition daemon_request_of (c : daemon_call) : http_request :=
  match c with
  | DHealth => plain_request "GET" "/health"
  | DListContainers => plain_request "GET" "/containers"
  | DInspectContainer id => plain_request "GET" ("/containers/" +:+ id)
  | DStartContainer id => plain_request "POST" ("/containers/" +:+ id +:+ "/start")
  | DStopContainer id => plain_request "POST" ("/containers/" +:+ id +:+ "/stop")
  | DRestartContainer id => plain_request "POST" ("/containers/" +:+ id +:+ "/restart")
  | DRemoveContainer id => plain_request "POST" ("/containers/" +:+ id +:+ "/remove")
  | DListPods => plain_request "GET" "/pods"
  | DDescribePod ns name => plain_request "GET" ("/pods/" +:+ ns +:+ "/" +:+ name)
  | DDeletePod ns name => plain_request "DELETE" ("/pods/" +:+ ns +:+ "/" +:+ name)
  | DPodEvents ns name => plain_request "GET" ("/pods/" +:+ ns +:+ "/" +:+ name +:+ "/events")
  | DRolloutRestart ns name => plain_request "POST" ("/deployments/" +:+ ns +:+ "/" +:+ name +:+ "/restart")
  end.

(** ** Streams *)

(** [if x is not None: params[key] = x] *)
Definition given (key : string) (v : option string) (params : odict string pyval) : odict string pyval :=
  match v with Some s => dset params key (PStr s) | None => params end.
Inductive stream_call :=
  | SLogs (id : string) (tail since : option string)
  | SStats (id : string)
  | SEvents
  | SPodLogs (namespace name : string) (container tail since : option string).
(** The path and the parameters; [params or None] makes no parameters of an empty
    dictionary. *)
Definition stream_request (c : stream_call) : string * odict string pyval :=
  match c with
  | SLogs id tail since => ("/containers/" +:+ id +:+ "/logs", given "since" since (given "tail" tail []))
  | SStats id => ("/containers/" +:+ id +:+ "/stats", [])
  | SEvents => ("/events", [])
  | SPodLogs ns name container tail since =>
      ("/pods/" +:+ ns +:+ "/" +:+ name +:+ "/logs", given "since" since (given "tail" tail (given "container" container [])))
  end.

Definition stream_error (data : string) : daemon_exn :=
  match loads data with
  | Some (PDict d) => DaemonError (get_or d "error" (PStr data)) 0
  | Some _ => Through "AttributeError"
  | None => DaemonError (PStr data) 0
  end.
(** What the generator yields for the events it receives, and how it ends. *)
Fixpoint read_sse (received : list sse) : list (odict string pyval) * option daemon_exn :=
  match received with
  | [] => ([], None)
  | e :: rest =>
      if bool_decide (sse_event e = "error") then ([], Some (stream_error (sse_data e)))
      else let '(ys, x) := read_sse rest in
           ([("event", PStr (sse_event e)); ("data", parsed_data (sse_data e))] :: ys, x)
  end.
(** [inl]: the connection is refused. *)
Definition _stream_sse (opened : string + list sse) (d : DaemonClient) : list (odict string pyval) * option daemon_exn :=
  match _ensure_connected d with
  | inl e => ([], Some e)
  | inr _ =>
      match opened with
      | inl exc => ([], Some (DaemonError (PStr ("Cannot connect to argusd at " +:+ dm_socket_path d +:+ ": " +:+ exc)) 0))
      | inr received => read_sse received
      end
  end.

(** ** Starting the daemon *)

Section start.
Context (expanduser : string → string) (is_file executable : string → bool) (which : string → option string) (repo_root : string).

Definition find_binary (hint : option string) : option string :=
  if str_truthy hint then
    let p := expanduser (default "" hint) in if is_file p && executable p then Some p else None
  else if str_truthy (which "argusd") then which "argusd"
  else
    let candidate := path_join (path_join (path_join repo_root "packages") "argusd") "argusd" in
    if is_file candidate && executable candidate then Some candidate else None.

(** [clock i] is the [i]-th reading of the clock, [exists_at i] whether the socket is
    there after the [i]-th reading. *)
Context (clock : nat → Z) (exists_at : nat → bool).
Fixpoint wait_socket (fuel i : nat) (deadline : Z) : option bool :=
  match fuel with
  | O => None
  | S fuel' =>
      if clock i <? deadline then if exists_at i then Some true else wait_socket fuel' (S i) deadline
      else Some false
  end.
(** The commands of the process that was started, and the result; one turn of the
    loop takes at least a tenth of the three seconds. *)
Definition auto_start (spawns : list string → bool) (d : DaemonClient) (hint : option string) : list (list string) * option bool :=
  match find_binary hint with
  | None => ([], Some false)
  | Some binary =>
      let cmd := [binary; "-socket"; dm_socket_path d] in
      if negb (spawns cmd) then ([], Some false)
      else ([cmd], wait_socket 31 1 (clock 0 + 3000))
  end.

(** ** The start comes to an end *)

Lemma wait_ends fuel : ∀ i deadline, (∀ i, clock i + 100 <= clock (S i)) → deadline - clock i <= 100 * (Z.of_nat fuel - 1) → (0 < fuel)%nat →
  ∃ b, wait_socket fuel i deadline = Some b ∧
  (b = true ↔ ∃ j, (i <= j)%nat ∧ clock j < deadline ∧ exists_at j = true).
Proof.
  induction fuel as [|fuel IH]; intros i deadline Hclock Hd Hf; [lia|]. simpl.
  assert (∀ j, (i <= j)%nat → clock i <= clock j) as Hmono.
  { intros j Hj. induction Hj as [|j _ IHj]; [lia|]. specialize (Hclock j). lia. }
  destruct (clock i <? deadline) eqn:E; reflect_bools.
  - destruct (exists_at i) eqn:Ex.
    + exists true. split; [done|]. split; [|done]. intros _. exists i. split_and!; [lia|done|done].
    + destruct (IH (S i) deadline) as (b & Hb & Hiff); [done|specialize (Hclock i); lia| |].
      { specialize (Hclock i). lia. }
      exists b. split; [done|]. rewrite Hiff. split; intros (j & Hj & Hc & He).
      * exists j. split_and!; [lia|done|done].
      * exists j. split_and!; [|done|done]. destruct (decide (j = i)) as [->|]; [congruence|lia].
  - exists false. split; [done|]. split; [done|]. intros (j & Hj & Hc & _). specialize (Hmono j Hj). lia.
Qed.

(** The start always ends, and succeeds exactly if a process was started and the
    socket was seen before three seconds had passed. *)
Theorem auto_start_exact spawns d hint : (∀ i, clock i + 100 <= clock (S i)) →
  ∃ b, (auto_start spawns d hint).2 = Some b ∧
  (b = true ↔ ∃ binary j, (auto_start spawns d hint).1 = [[binary; "-socket"; dm_socket_path d]] ∧ find_binary hint = Some binary ∧
                (1 <= j)%nat ∧ clock j < clock 0 + 3000 ∧ exists_at j = true).
Proof.
  intros Hclock. unfold auto_start. destruct (find_binary hint) as [binary|].
  2:{ exists false. split; [done|]. split; [done|]. by intros (? & ? & ? & ? & _). }
  destruct (spawns _); cbn [negb].
  2:{ exists false. split; [done|]. split; [done|]. by intros (? & ? & ? & _). }
  destruct (wait_ends 31 1 (clock 0 + 3000)) as (b & Hb & Hiff); [done|specialize (Hclock 0%nat); lia|lia|].
  exists b. cbn [fst snd]. split; [done|]. rewrite Hiff. split.
  - intros (j & Hj & Hc & He). by exists binary, j.
  - intros (b' & j & _ & _ & Hj & Hc & He). by exists j.
Qed.
End start.

(** A stream yields what precedes the first error event, and raises if there is one. *)
Lemma stream_until_error received :
  (Forall (λ e, sse_event e ≠ "error") received → read_sse received =
     ((λ e, [("event", PStr (sse_event e)); ("data", parsed_data (sse_data e))]) <$> received, None)) ∧
  (∀ e rest, sse_event e = "error" → Forall (λ e, sse_event e ≠ "error") received →
     read_sse (received ++ e :: rest) =
     ((λ e, [("event", PStr (sse_event e)); ("data", parsed_data (sse_data e))]) <$> received, Some (stream_error (sse_data e)))).
Proof.
  split.
  - induction 1 as [|e l He _ IH]; simpl; [done|]. rewrite bool_decide_false by done. by rewrite IH.
  - intros e rest He H. induction H as [|x l Hx _ IH]; simpl; [by rewrite bool_decide_true|].
    rewrite bool_decide_false by done. by rewrite IH.
Qed.

(** The client is closed again however its use ends. *)
Lemma with_daemon_closes {A} (body : M DaemonClient daemon_exn A) d : dm_client d = None →
  dm_client (with_daemon body d).2 = None.
Proof.
  intros Hd. unfold with_daemon. rewrite run_modify. unfold finally_.
  destruct (body (connect d)) as [r d']. simpl. unfold close. by destruct (dm_client d') eqn:E.
Qed.
