(* ===== verification/Repl.v ===== *)
(** * The interactive shell

    packages/argus_cli/argus_cli/repl: the state of a session (state.py), the
    refresh of status and completions (completions.py), the commands of the shell
    itself (handlers.py), the dispatch of all others (dispatch.py) and the loop
    (loop.py).

    The loop is a step function on the inputs at its prompts; the continuation
    prompt is a mode of its own.  Parameters: the Typer application (its output and
    what it does to the configuration object, which it shares with the shell), the
    network, YAML, how often a watched command runs before it is interrupted, and
    the themes.  The printed text is left out. *)
From S2P Require Import Prelude PyDict Effects PyStr Url Json Themes CliConfig ArgusClient.
From Stdlib Require Import Ascii.
#[local] Open Scope Z_scope.

(** ** [shlex.split] *)

Definition is_shlex_blank (c : ascii) : bool := is_char 32 c || is_char 9 c || is_char 13 c || is_char 10 c.
Definition is_quote (c : ascii) : bool := is_char 39 c || is_char 34 c.
Inductive lex_state := LBlank | LWord | LQuote (q : ascii) | LEscape (back : lex_state).
(** [cur] is the token that is being read, [None] when there is none yet: a pair of
    quotes begins a token even if nothing is between them.  [None]: [ValueError]. *)
Fixpoint shlex_go (st : lex_state) (cur : option (list ascii)) (l : list ascii) : option (list (list ascii)) :=
  let more c := Some (default [] cur ++ [c]) in
  match l with
  | [] => match st with LQuote _ | LEscape _ => None | _ => Some (match cur with Some t => [t] | None => [] end) end
  | c :: l' =>
      match st with
      | LBlank =>
          if is_shlex_blank c then shlex_go LBlank None l'
          else if is_char 92 c then shlex_go (LEscape LWord) (Some []) l'
          else if is_quote c then shlex_go (LQuote c) (Some []) l'
          else shlex_go LWord (Some [c]) l'
      | LWord =>
          if is_shlex_blank c then (λ ts, match cur with Some t => t :: ts | None => ts end) <$> shlex_go LBlank None l'
          else if is_quote c then shlex_go (LQuote c) cur l'
          else if is_char 92 c then shlex_go (LEscape LWord) cur l'
          else shlex_go LWord (more c) l'
      | LQuote q =>
          if bool_decide (c = q) then shlex_go LWord cur l'
          else if is_char 92 c && is_char 34 q then shlex_go (LEscape (LQuote q)) cur l'
          else shlex_go (LQuote q) (more c) l'
      | LEscape back =>
          let kept := match back with
                      | LQuote q => if negb (is_char 92 c) && negb (bool_decide (c = q)) then [ascii_of_nat 92] else []
                      | _ => []
                      end in
          shlex_go back (Some (default [] cur ++ kept ++ [c])) l'
      end
  end.
Definition shlex_split (s : string) : option (list string) := List.map text <$> shlex_go LBlank None (chars s).

Example shlex_words : shlex_split "tools call 'my tool' --arg a\ b" = Some ["tools"; "call"; "my tool"; "--arg"; "a b"].
Proof. reflexivity. Qed.
Example shlex_open : shlex_split "tools 'call" = None.
Proof. reflexivity. Qed.
Example shlex_json : shlex_split "{'a': 1} ''" = Some ["{a:"; "1}"; ""].
Proof. reflexivity. Qed.

(** ** Text *)

(** [s.replace("$_", r)] *)
Fixpoint replace_last (r l : list ascii) : list ascii :=
  match l with
  | a :: ((b :: l') as t) => if is_char 36 a && is_char 95 b then r ++ replace_last r l' else a :: replace_last r t
  | _ => l
  end.
(** [s.split()[0] if s.split() else ""] *)
Definition first_word (s : string) : string := text (span (λ c, negb (is_blank_char c)) (drop_while is_blank_char (chars s))).1.
Definition rstrip_blank (s : string) : string := rstrip_by is_blank_char s.
Definition rstrip_backslash (s : string) : string := rstrip_by (is_char 92) s.
(** [s.strip(chars)] *)
Definition strip_by (f : ascii → bool) (s : string) : string := text (rstrip_chars f (drop_while f (chars s))).

(** ** The state of a session *)

Record ConnectionState := {
  rc_is_connected : bool; rc_server_status : pyval; rc_version : pyval; rc_uptime : string;
  rc_backend_count : Z; rc_healthy_count : Z; rc_last_event_age : string }.
Record CompletionData := {
  cd_backend_names : list pyval; cd_tool_names : list pyval; cd_resource_uris : list pyval; cd_prompt_names : list pyval;
  cd_skill_names : list pyval; cd_workflow_names : list pyval; cd_secret_names : list pyval }.
Record SessionState := { ss_aliases : odict string string; ss_scoped_backend : option string; ss_last_result : pyval }.

(** The objects of the shell, the network, the files, and what [dispatch_command]
    changes for the time of a command: the flag of the module and [sys.stdout].
    [r_ran] are the commands the application was run with. *)
Record repl := {
  r_config : CliConfig; r_connection : ConnectionState; r_completions : CompletionData; r_session : SessionState;
  r_net : net; r_files : cli_files; r_alias_file : option string; r_repl_mode : bool; r_tee : bool;
  r_ran : list (list string) }.

Definition new_connection : ConnectionState :=
  {| rc_is_connected := false; rc_server_status := PStr "unknown"; rc_version := PStr ""; rc_uptime := "";
     rc_backend_count := 0; rc_healthy_count := 0; rc_last_event_age := "" |}.
Definition new_completions : CompletionData :=
  {| cd_backend_names := []; cd_tool_names := []; cd_resource_uris := []; cd_prompt_names := []; cd_skill_names := [];
     cd_workflow_names := []; cd_secret_names := [] |}.

Definition set_config (c : CliConfig) (r : repl) : repl :=
  {| r_config := c; r_connection := r_connection r; r_completions := r_completions r; r_session := r_session r; r_net := r_net r;
     r_files := r_files r; r_alias_file := r_alias_file r; r_repl_mode := r_repl_mode r; r_tee := r_tee r; r_ran := r_ran r |}.
Definition set_connection (c : ConnectionState) (r : repl) : repl :=
  {| r_config := r_config r; r_connection := c; r_completions := r_completions r; r_session := r_session r; r_net := r_net r;
     r_files := r_files r; r_alias_file := r_alias_file r; r_repl_mode := r_repl_mode r; r_tee := r_tee r; r_ran := r_ran r |}.
Definition set_completions (c : CompletionData) (r : repl) : repl :=
  {| r_config := r_config r; r_connection := r_connection r; r_completions := c; r_session := r_session r; r_net := r_net r;
     r_files := r_files r; r_alias_file := r_alias_file r; r_repl_mode := r_repl_mode r; r_tee := r_tee r; r_ran := r_ran r |}.
Definition set_session (s : SessionState) (r : repl) : repl :=
  {| r_config := r_config r; r_connection := r_connection r; r_completions := r_completions r; r_session := s; r_net := r_net r;
     r_files := r_files r; r_alias_file := r_alias_file r; r_repl_mode := r_repl_mode r; r_tee := r_tee r; r_ran := r_ran r |}.
Definition set_net (n : net) (r : repl) : repl :=
  {| r_config := r_config r; r_connection := r_connection r; r_completions := r_completions r; r_session := r_session r; r_net := n;
     r_files := r_files r; r_alias_file := r_alias_file r; r_repl_mode := r_repl_mode r; r_tee := r_tee r; r_ran := r_ran r |}.
Definition set_files (w : cli_files) (r : repl) : repl :=
  {| r_config := r_config r; r_connection := r_connection r; r_completions := r_completions r; r_session := r_session r; r_net := r_net r;
     r_files := w; r_alias_file := r_alias_file r; r_repl_mode := r_repl_mode r; r_tee := r_tee r; r_ran := r_ran r |}.
Definition set_alias_file (f : option string) (r : repl) : repl :=
  {| r_config := r_config r; r_connection := r_connection r; r_completions := r_completions r; r_session := r_session r; r_net := r_net r;
     r_files := r_files r; r_alias_file := f; r_repl_mode := r_repl_mode r; r_tee := r_tee r; r_ran := r_ran r |}.
Definition set_running (on : bool) (r : repl) : repl :=
  {| r_config := r_config r; r_connection := r_connection r; r_completions := r_completions r; r_session := r_session r; r_net := r_net r;
     r_files := r_files r; r_alias_file := r_alias_file r; r_repl_mode := on; r_tee := on; r_ran := r_ran r |}.
Definition log_run (args : list string) (r : repl) : repl :=
  {| r_config := r_config r; r_connection := r_connection r; r_completions := r_completions r; r_session := r_session r; r_net := r_net r;
     r_files := r_files r; r_alias_file := r_alias_file r; r_repl_mode := r_repl_mode r; r_tee := r_tee r; r_ran := r_ran r ++ [args] |}.

Definition with_aliases (a : odict string string) (s : SessionState) : SessionState :=
  {| ss_aliases := a; ss_scoped_backend := ss_scoped_backend s; ss_last_result := ss_last_result s |}.
Definition with_scope (b : option string) (s : SessionState) : SessionState :=
  {| ss_aliases := ss_aliases s; ss_scoped_backend := b; ss_last_result := ss_last_result s |}.
Definition with_result (v : pyval) (s : SessionState) : SessionState :=
  {| ss_aliases := ss_aliases s; ss_scoped_backend := ss_scoped_backend s; ss_last_result := v |}.

(** ** Reading answers *)

Abbreviation rm := (M repl client_exn).

Definition type_error {A} : client_exn + A := inl (Untranslated "TypeError").
Definition attribute_error {A} : client_exn + A := inl (Untranslated "AttributeError").
(** [v.get(k, def)] *)
Definition vget (v : pyval) (k : string) (def : pyval) : client_exn + pyval :=
  match v with PDict d => inr (get_or d k def) | _ => attribute_error end.
(** [for x in v] *)
Definition py_iter (v : pyval) : client_exn + list pyval :=
  match v with
  | PList l => inr l
  | PDict d => inr (PStr <$> dkeys d)
  | PStr s => inr ((λ c, PStr (text [c])) <$> chars s)
  | _ => type_error
  end.
(** [k in v] and [v[k]] *)
Definition has_key (v : pyval) (k : string) : client_exn + bool :=
  match v with
  | PDict d => inr (dmem d k)
  | PStr s => inr (contains s k)
  | PList l => inr (existsb (λ x, match x with PStr s => bool_decide (s = k) | _ => false end) l)
  | _ => type_error
  end.
Definition subscript (v : pyval) (k : string) : client_exn + pyval :=
  match v with
  | PDict d => match dget d k with Some x => inr x | None => inl (Untranslated "KeyError") end
  | _ => type_error
  end.
(** [[x[k] for x in l if k in x]] *)
Fixpoint named_items (k : string) (l : list pyval) : client_exn + list pyval :=
  match l with
  | [] => inr []
  | x :: l' =>
      here ← has_key x k;
      if here : bool then (v ← subscript x k; vs ← named_items k l'; inr (v :: vs)) else named_items k l'
  end.
Definition items_of (data : pyval) (field k : string) : client_exn + list pyval :=
  v ← vget data field (PList []); l ← py_iter v; named_items k l.
(** [sum(1 for b in l if b.get("health", {}).get("status") == "healthy")] *)
Fixpoint count_healthy (l : list pyval) : client_exn + Z :=
  match l with
  | [] => inr 0
  | b :: l' =>
      h ← vget b "health" (PDict []); st ← vget h "status" PNone; n ← count_healthy l';
      inr (n + match st with PStr s => if bool_decide (s = "healthy") then 1 else 0 | _ => 0 end)
  end.

Section repl.
Context (answer : nat → http_request → fault + http_response).
Context (py_int : pyval → option Z) (py_str : pyval → string) (bracket_ok : string → bool).
Context (safe_load : string → option pyval) (yaml_dump : odict string pyval → string) (known_theme : string → bool).

Definition ask (c : api_call) : rm pyval := λ r,
  let '(v, n) := call_sync answer (r_config r) c (r_net r) in (v, set_net n r).
Definition lift_c {A} (v : client_exn + A) : rm A := λ r, (v, r).
(** [try: m  except ArgusClientError: h] *)
Definition catching (m : rm ()) (h : rm ()) : rm () :=
  try_except m (λ e, match e with ArgusClientError _ _ _ => h | Untranslated _ => raise e end).
Definition on_connection (f : ConnectionState → ConnectionState) : rm () := modify (λ r, set_connection (f (r_connection r)) r).
Definition on_completions (f : CompletionData → CompletionData) : rm () := modify (λ r, set_completions (f (r_completions r)) r).

Definition mark (connected : bool) (status : pyval) (c : ConnectionState) : ConnectionState :=
  {| rc_is_connected := connected; rc_server_status := status; rc_version := rc_version c; rc_uptime := rc_uptime c;
     rc_backend_count := rc_backend_count c; rc_healthy_count := rc_healthy_count c; rc_last_event_age := rc_last_event_age c |}.
Definition with_version (v : pyval) (c : ConnectionState) : ConnectionState :=
  {| rc_is_connected := rc_is_connected c; rc_server_status := rc_server_status c; rc_version := v; rc_uptime := rc_uptime c;
     rc_backend_count := rc_backend_count c; rc_healthy_count := rc_healthy_count c; rc_last_event_age := rc_last_event_age c |}.
Definition with_uptime (u : string) (c : ConnectionState) : ConnectionState :=
  {| rc_is_connected := rc_is_connected c; rc_server_status := rc_server_status c; rc_version := rc_version c; rc_uptime := u;
     rc_backend_count := rc_backend_count c; rc_healthy_count := rc_healthy_count c; rc_last_event_age := rc_last_event_age c |}.
Definition with_count (n : Z) (c : ConnectionState) : ConnectionState :=
  {| rc_is_connected := rc_is_connected c; rc_server_status := rc_server_status c; rc_version := rc_version c; rc_uptime := rc_uptime c;
     rc_backend_count := n; rc_healthy_count := rc_healthy_count c; rc_last_event_age := rc_last_event_age c |}.
Definition with_healthy (n : Z) (c : ConnectionState) : ConnectionState :=
  {| rc_is_connected := rc_is_connected c; rc_server_status := rc_server_status c; rc_version := rc_version c; rc_uptime := rc_uptime c;
     rc_backend_count := rc_backend_count c; rc_healthy_count := n; rc_last_event_age := rc_last_event_age c |}.
Definition with_age (a : string) (c : ConnectionState) : ConnectionState :=
  {| rc_is_connected := rc_is_connected c; rc_server_status := rc_server_status c; rc_version := rc_version c; rc_uptime := rc_uptime c;
     rc_backend_count := rc_backend_count c; rc_healthy_count := rc_healthy_count c; rc_last_event_age := a |}.
Definition with_backends (l : list pyval) (c : CompletionData) : CompletionData :=
  {| cd_backend_names := l; cd_tool_names := cd_tool_names c; cd_resource_uris := cd_resource_uris c; cd_prompt_names := cd_prompt_names c;
     cd_skill_names := cd_skill_names c; cd_workflow_names := cd_workflow_names c; cd_secret_names := cd_secret_names c |}.
Definition with_tools (l : list pyval) (c : CompletionData) : CompletionData :=
  {| cd_backend_names := cd_backend_names c; cd_tool_names := l; cd_resource_uris := cd_resource_uris c; cd_prompt_names := cd_prompt_names c;
     cd_skill_names := cd_skill_names c; cd_workflow_names := cd_workflow_names c; cd_secret_names := cd_secret_names c |}.
Definition with_resources (l : list pyval) (c : CompletionData) : CompletionData :=
  {| cd_backend_names := cd_backend_names c; cd_tool_names := cd_tool_names c; cd_resource_uris := l; cd_prompt_names := cd_prompt_names c;
     cd_skill_names := cd_skill_names c; cd_workflow_names := cd_workflow_names c; cd_secret_names := cd_secret_names c |}.
Definition with_prompts (l : list pyval) (c : CompletionData) : CompletionData :=
  {| cd_backend_names := cd_backend_names c; cd_tool_names := cd_tool_names c; cd_resource_uris := cd_resource_uris c; cd_prompt_names := l;
     cd_skill_names := cd_skill_names c; cd_workflow_names := cd_workflow_names c; cd_secret_names := cd_secret_names c |}.

Definition uptime_text (uptime_s : Z) : string :=
  let hours := uptime_s / 3600 in let remainder := uptime_s mod 3600 in
  str_of_int hours +:+ "h" +:+ str_of_int (remainder / 60) +:+ "m" +:+ str_of_int (remainder mod 60) +:+ "s".

Definition refresh_status : rm () :=
  data ← ask CallStatus;
  service ← lift_c (vget data "service" (PDict []));
  version ← lift_c (vget service "version" (PStr ""));
  on_connection (with_version version) ;;
  uptime_s ← lift_c (vget service "uptime_seconds" (PInt 0));
  if truthy uptime_s then
    match py_int uptime_s with
    | Some n => on_connection (with_uptime (uptime_text n))
    | None => raise (Untranslated "ValueError")
    end
  else mret ().
Definition refresh_backends : rm () :=
  data ← ask CallBackends;
  backends ← lift_c (vget data "backends" (PList []));
  l ← lift_c (py_iter backends);
  names ← lift_c (named_items "name" l);
  on_completions (with_backends names) ;;
  on_connection (with_count (Z.of_nat (length l))) ;;
  healthy ← lift_c (count_healthy l);
  on_connection (with_healthy healthy).
Definition refresh_capabilities : rm () :=
  data ← ask (CallCapabilities None None None);
  tools ← lift_c (items_of data "tools" "name"); on_completions (with_tools tools) ;;
  resources ← lift_c (items_of data "resources" "uri"); on_completions (with_resources resources) ;;
  prompts ← lift_c (items_of data "prompts" "name"); on_completions (with_prompts prompts).
Definition refresh_events : rm () :=
  data ← ask (CallEvents 1 None None);
  events ← lift_c (vget data "events" (PList []));
  on_connection (with_age (if truthy events then "recent" else "none")).

Definition disconnected : rm () := on_connection (mark false (PStr "disconnected")).
Definition refresh_health : rm bool := λ r,
  match (data ← ask CallHealth; status ← lift_c (vget data "status" (PStr "unknown")); on_connection (mark true status)) r with
  | (inr _, r') => (inr true, r')
  | (inl (ArgusClientError _ _ _), r') => (disconnected ;; mret false) r'
  | (inl e, r') => (inl e, r')
  end.
Definition refresh_completions : rm () :=
  catching
    (up ← refresh_health;
     if up : bool then
       catching refresh_status (mret ()) ;;
       catching refresh_backends (mret ()) ;;
       catching refresh_capabilities (mret ()) ;;
       catching refresh_events (on_connection (with_age "n/a"))
     else mret ())
    disconnected.

(** ** Aliases *)

Definition text_of (v : pyval) : string := match v with PStr s => s | _ => py_str v end.
(** [None]: the [YAMLError] that nobody catches. *)
Definition load_aliases (file : option string) : option (odict string string) :=
  match file with
  | None => Some []
  | Some content =>
      match safe_load content with
      | None => None
      | Some (PDict data) => Some (dupdate [] ((λ kv, (kv.1, text_of kv.2)) <$> data))
      | Some _ => Some []
      end
  end.
Definition save_aliases (aliases : odict string string) : rm () :=
  modify (set_alias_file (Some (yaml_dump ((λ kv, (kv.1, PStr kv.2)) <$> aliases)))).

Definition put_aliases (f : odict string string → odict string string) : rm () :=
  modify (λ r, set_session (with_aliases (f (ss_aliases (r_session r))) (r_session r)) r) ;;
  r ← get_state; save_aliases (ss_aliases (r_session r)).

Definition handle_alias (args : list string) : rm () :=
  match args with
  | [] => mret ()
  | _ =>
      match partition_at 61 (chars (str_join " " args)) with
      | (_, None) => mret ()
      | (name, Some value) =>
          let name := str_strip (text name) in
          let value := strip_by is_quote (str_strip (text value)) in
          if bool_decide (name = "") || bool_decide (value = "") then mret ()
          else put_aliases (λ a, dset a name value)
      end
  end.
Definition handle_unalias (args : list string) : rm () :=
  match args with
  | [] => mret ()
  | name :: _ =>
      r ← get_state;
      if dmem (ss_aliases (r_session r)) name then put_aliases (λ a, ddel a name) else mret ()
  end.

(** ** The other commands of the shell *)

Definition scope_to (b : option string) : rm () := modify (λ r, set_session (with_scope b (r_session r)) r).
Definition is_name (name : string) (v : pyval) : bool := match v with PStr s => bool_decide (s = name) | _ => false end.
Definition handle_use (args : list string) : rm () :=
  match args with
  | a :: name :: _ =>
      if negb (bool_decide (a = "backend")) then mret ()
      else if bool_decide (name ∈ ["none"; ""]) then scope_to None
      else
        r ← get_state;
        if existsb (is_name name) (cd_backend_names (r_completions r)) then scope_to (Some name) else mret ()
  | _ => mret ()
  end.

Definition handle_connect (args : list string) : rm () :=
  match args with
  | [] => mret ()
  | url :: _ =>
      match urlparse bracket_ok url with
      | None => raise (Untranslated "ValueError")
      | Some parsed =>
          if bool_decide (url_scheme parsed ∈ ["http"; "https"]) then
            modify (λ r, set_config (with_server url (r_config r)) r) ;; refresh_completions
          else mret ()
      end
  end.

Definition set_command (args : list string) : rm () :=
  modify (λ r, let '(_, c, w) := handle_set safe_load yaml_dump known_theme args (r_config r) (r_files r) in
               set_files w (set_config c r)).

(** ** Dispatch to the application *)

(** What a command leaves: its output, the configuration object that it shares with
    the shell, and whether it ended with an interrupt. *)
Record app_outcome := { ao_output : string; ao_config : CliConfig; ao_interrupted : bool }.
Context (run_app : nat → list string → CliConfig → app_outcome).

Definition scoped_args (scope : option string) (args : list string) : list string :=
  match args with
  | a :: _ =>
      if str_truthy scope && bool_decide (a ∈ ["tools"; "resources"; "prompts"]) && negb (bool_decide ("--backend" ∈ args))
      then args ++ ["--backend"; default "" scope] else args
  | [] => args
  end.
Definition global_args (c : CliConfig) : list string :=
  (if bool_decide (cli_server_url c = DEFAULT_SERVER_URL) then [] else ["--server"; cli_server_url c]) ++
  (if truthy (cli_token c) then ["--token"; text_of (cli_token c)] else []) ++
  ["--output"; text_of (cli_output_format c)] ++ (if cli_no_color c then ["--no-color"] else []).
Definition captured_result (captured : string) : pyval := default (PStr (str_strip captured)) (loads captured).

Definition dispatch_command (line : string) : rm () :=
  match shlex_split line with
  | None | Some [] => mret ()
  | Some args =>
      r ← get_state;
      let args := scoped_args (ss_scoped_backend (r_session r)) args in
      let saved_output_format := cli_output_format (r_config r) in
      let all := global_args (r_config r) ++ args in
      modify (set_running true) ;;
      r ← get_state;
      let o := run_app (length (r_ran r)) all (r_config r) in
      modify (log_run all) ;;
      modify (set_config (ao_config o)) ;;
      (** the [finally] of the command *)
      modify (set_running false) ;;
      modify (λ r, set_config (with_output saved_output_format (r_config r)) r) ;;
      if ao_interrupted o then raise (Untranslated "KeyboardInterrupt")
      else if bool_decide (ao_output o = "") then mret ()
      else modify (λ r, set_session (with_result (captured_result (ao_output o)) (r_session r)) r)
  end.

(** [turns] says how often a command is run again before the pause is interrupted. *)
Context (turns : string → nat).
Fixpoint watch_loop (n : nat) (cmd : string) (r : repl) : (client_exn + ()) * repl :=
  match dispatch_command cmd r with
  | (inl (Untranslated "KeyboardInterrupt"), r') => (inr (), r')
  | (inl e, r') => (inl e, r')
  | (inr _, r') => match n with O => (inr (), r') | S n' => watch_loop n' cmd r' end
  end.
Definition handle_watch (args : list string) : rm () :=
  match args with
  | [] => mret ()
  | a :: rest =>
      let cmd_args :=
        match rest with
        | n :: cmd => if bool_decide (a = "--interval") then match py_int (PStr n) with Some _ => Some cmd | None => None end else Some args
        | [] => Some args
        end in
      match cmd_args with
      | None | Some [] => mret ()
      | Some cmd => watch_loop (turns (str_join " " cmd)) (str_join " " cmd)
      end
  end.

(** [_REPL_HANDLERS] *)
Definition repl_handler (cmd : string) : option (list string → rm ()) :=
  if bool_decide (cmd ∈ ["clear"; "help"; "history"]) then Some (λ _, mret ())
  else if bool_decide (cmd = "use") then Some handle_use
  else if bool_decide (cmd = "alias") then Some handle_alias
  else if bool_decide (cmd = "unalias") then Some handle_unalias
  else if bool_decide (cmd = "watch") then Some handle_watch
  else if bool_decide (cmd = "connect") then Some handle_connect
  else if bool_decide (cmd = "set") then Some set_command
  else None.

(** ** The loop *)

Inductive input := Typed (line : string) | Interrupt | EndOfFile.
Inductive mode := AtPrompt | Continuing (lines : list string) | Ended.

Definition substitute_last (v : pyval) (line : string) : string :=
  if contains line "$_" && negb (match v with PNone => true | _ => false end) then
    text (replace_last (chars (match v with PStr s => s | _ => dumps None v end)) (chars line))
  else line.
Definition expand_alias (aliases : odict string string) (line : string) : string :=
  match dget aliases (first_word line) with
  | Some a => a +:+ drop_chars (length (chars (first_word line))) line
  | None => line
  end.

Definition run_line (line : string) : rm mode :=
  if bool_decide (line ∈ ["exit"; "quit"]) then mret Ended
  else
    r ← get_state;
    let line := substitute_last (ss_last_result (r_session r)) line in
    let line := expand_alias (ss_aliases (r_session r)) line in
    match shlex_split line with
    | None | Some [] => mret AtPrompt
    | Some (cmd :: args) =>
        match repl_handler cmd with
        | Some handler => handler args ;; mret AtPrompt
        | None =>
            dispatch_command line ;;
            (if bool_decide (cmd ∈ ["config"; "backends"; "registry"; "skills"]) then refresh_completions else mret ()) ;;
            mret AtPrompt
        end
    end.

Definition on_input (m : mode) (i : input) : rm mode :=
  match m, i with
  | Ended, _ => mret Ended
  | AtPrompt, Interrupt => mret AtPrompt
  | AtPrompt, EndOfFile => mret Ended
  | AtPrompt, Typed line =>
      let line := str_strip line in
      if bool_decide (line = "") then mret AtPrompt
      else if endswith line "\" then mret (Continuing [rstrip_blank (rstrip_backslash line)])
      else run_line line
  | Continuing lines, Typed cont =>
      if endswith (rstrip_blank cont) "\" then mret (Continuing (lines ++ [rstrip_blank (rstrip_backslash cont)]))
      else run_line (str_join " " (lines ++ [cont]))
  | Continuing lines, _ => run_line (str_join " " lines)
  end.
Fixpoint repl_loop (m : mode) (inputs : list input) : rm mode :=
  match inputs with [] => mret m | i :: rest => m' ← on_input m i; repl_loop m' rest end.

Definition start_repl (config : CliConfig) (n : net) (w : cli_files) (alias_file : option string) (inputs : list input) : (client_exn + mode) * repl :=
  let fresh aliases := {| r_config := config; r_connection := new_connection; r_completions := new_completions;
    r_session := {| ss_aliases := aliases; ss_scoped_backend := None; ss_last_result := PNone |}; r_net := n; r_files := w;
    r_alias_file := alias_file; r_repl_mode := false; r_tee := false; r_ran := [] |} in
  match load_aliases alias_file with
  | None => (inl (Untranslated "YAMLError"), fresh [])
  | Some aliases => (refresh_completions ;; repl_loop AtPrompt inputs) (fresh aliases)
  end.
End repl.

(** ** The tree of completions *)

(** [None] and dictionaries; the names that come from the server are texts. *)
Inductive tree := Leaf | Node (children : list (string * tree)).
Definition leaves (names : list string) : tree := Node ((λ n, (n, Leaf)) <$> names).
(** [{n: None for n in names} or None] *)
Definition name_tree (names : list pyval) : tree :=
  match omap (λ v, match v with PStr s => Some s | _ => None end) names with
  | [] => Leaf
  | l => Node (dupdate [] ((λ n, (n, Leaf)) <$> l))
  end.
Definition _STATIC_TREE : odict string tree :=
  [("server", leaves ["start"; "stop"; "status"; "build"; "clean"]);
   ("config", leaves ["show"; "validate"; "diff"; "reload"; "export"; "init"; "local"; "themes"]);
   ("auth", leaves ["status"; "configure"; "test"]);
   ("health", leaves ["status"; "sessions"; "versions"; "groups"]);
   ("audit", leaves ["list"; "export"]);
   ("events", leaves ["list"; "stream"]);
   ("operations", leaves ["optimizer"; "telemetry"]);
   ("batch", leaves ["reconnect-all"; "restart-all"]);
   ("alias", Leaf); ("unalias", Leaf); ("help", Leaf); ("clear", Leaf); ("history", Leaf); ("exit", Leaf); ("quit", Leaf)].
Definition build_command_tree (themes : list string) (c : CompletionData) : odict string tree :=
  let backend_dict := name_tree (cd_backend_names c) in
  let tool_dict := name_tree (cd_tool_names c) in
  let resource_dict := name_tree (cd_resource_uris c) in
  let prompt_dict := name_tree (cd_prompt_names c) in
  let skill_dict := name_tree (cd_skill_names c) in
  let workflow_dict := name_tree (cd_workflow_names c) in
  let secret_dict := name_tree (cd_secret_names c) in
  let dynamic : odict string tree :=
    [("backends", Node [("list", Leaf); ("inspect", backend_dict); ("reconnect", backend_dict); ("health", Leaf); ("groups", Leaf);
                        ("sessions", Leaf); ("versions", Leaf)]);
     ("tools", Node [("list", Leaf); ("inspect", tool_dict); ("call", tool_dict); ("rename", tool_dict); ("filter", Leaf)]);
     ("resources", Node [("list", Leaf); ("read", resource_dict)]);
     ("prompts", Node [("list", Leaf); ("get", prompt_dict)]);
     ("registry", leaves ["search"; "inspect"; "install"]);
     ("secrets", Node [("list", Leaf); ("set", secret_dict); ("get", secret_dict); ("delete", secret_dict)]);
     ("skills", Node [("list", Leaf); ("inspect", skill_dict); ("enable", skill_dict); ("disable", skill_dict); ("apply", skill_dict)]);
     ("workflows", Node [("list", Leaf); ("run", workflow_dict); ("history", workflow_dict)]);
     ("use", Node [("backend", backend_dict)]); ("watch", Leaf); ("connect", Leaf);
     ("set", Node [("output", leaves ["rich"; "json"; "table"; "text"]); ("no-color", leaves ["true"; "false"]);
                   ("theme", Node (dupdate [] ((λ t, (t, Leaf)) <$> themes))); ("show-toolbar", leaves ["true"; "false"]);
                   ("vi-mode", leaves ["true"; "false"])])] in
  dupdate _STATIC_TREE dynamic.

(** Every command that the shell handles itself is offered. *)
Lemma handlers_offered answer py_int py_str bracket_ok safe_load yaml_dump known_theme run_app turns themes c cmd h :
  repl_handler answer py_int py_str bracket_ok safe_load yaml_dump known_theme run_app turns cmd = Some h →
  cmd ∈ dkeys (build_command_tree themes c).
Proof.
  unfold build_command_tree, repl_handler. intros H. apply elem_dkeys_dupdate.
  assert (cmd ∈ ["clear"; "help"; "history"; "use"; "alias"; "unalias"; "watch"; "connect"; "set"]) as Hin.
  { repeat (case_bool_decide; [set_solver|]). done. }
  clear H. revert cmd Hin. apply Forall_forall. repeat constructor; first [left; by_decide|right; by_decide].
Qed.

(** ** What the shell keeps *)

(** The changes that the commands of the shell itself make to the configuration. *)
Inductive shell_change (bracket_ok known_theme : string → bool) : CliConfig → CliConfig → Prop :=
  | change_server c url u : urlparse bracket_ok url = Some u → url_scheme u ∈ ["http"; "https"] →
      shell_change bracket_ok known_theme c (with_server url c)
  | change_setting c safe_load yaml_dump args w b c' w' : handle_set safe_load yaml_dump known_theme args c w = (b, c', w') →
      shell_change bracket_ok known_theme c c'.

Section kept.
Context (answer : nat → http_request → fault + http_response).
Context (py_int : pyval → option Z) (py_str : pyval → string) (bracket_ok : string → bool).
Context (safe_load : string → option pyval) (yaml_dump : odict string pyval → string) (known_theme : string → bool).
Context (run_app : nat → list string → CliConfig → app_outcome) (turns : string → nat).
Context (yaml_inverse : ∀ d, pv_wf (PDict d) → safe_load (yaml_dump d) = Some (PDict d)).
(** A command only ever assigns the output format of the configuration. *)
Context (app_config : ∀ n args c, with_output (cli_output_format c) (ao_config (run_app n args c)) = c).
Context (config : CliConfig).

Record kept (r : repl) : Prop := {
  kp_config : rtc (shell_change bracket_ok known_theme) config (r_config r);
  kp_mode : r_repl_mode r = false;
  kp_tee : r_tee r = false;
  kp_aliases : load_aliases py_str safe_load (r_alias_file r) = Some (ss_aliases (r_session r));
  kp_wf : dict_wf (ss_aliases (r_session r)) }.
Definition keeps {A} (m : rm A) : Prop := ∀ r, kept r → kept (m r).2.

Lemma keeps_ret {A} (a : A) : keeps (mret a).
Proof. by intros r Hr. Qed.
Lemma keeps_raise {A} e : keeps (raise e : rm A).
Proof. by intros r Hr. Qed.
Lemma keeps_bind {A B} (m : rm A) (k : A → rm B) : keeps m → (∀ a, keeps (k a)) → keeps (m ≫= k).
Proof. intros Hm Hk r Hr. rewrite run_bind. specialize (Hm r Hr). destruct (m r) as [[e|a] r']; [done|]. by apply Hk. Qed.
Lemma keeps_modify f : (∀ r, kept r → kept (f r)) → keeps (modify f).
Proof. intros H r Hr. by apply H. Qed.
Lemma keeps_get {A} (k : repl → rm A) : (∀ r, keeps (k r)) → keeps (get_state ≫= k).
Proof. intros H r Hr. by apply H. Qed.
Lemma keeps_lift {A} (v : client_exn + A) : keeps (lift_c v).
Proof. by intros r Hr. Qed.
Lemma keeps_ask c : keeps (ask answer c).
Proof. intros r []. unfold ask. destruct (call_sync _ _ _ _). by split. Qed.
Lemma keeps_connection f : keeps (on_connection f).
Proof. apply keeps_modify. intros r []. by split. Qed.
Lemma keeps_completions f : keeps (on_completions f).
Proof. apply keeps_modify. intros r []. by split. Qed.
Lemma keeps_catching m h : keeps m → keeps h → keeps (catching m h).
Proof.
  intros Hm Hh r Hr. unfold catching, try_except. specialize (Hm r Hr). destruct (m r) as [[[]|a] r']; [by apply Hh|done|done].
Qed.
Create HintDb keeps.
#[local] Hint Resolve keeps_ret keeps_raise keeps_lift keeps_ask keeps_connection keeps_completions : keeps.
Ltac keep_it :=
  repeat match goal with
  | |- keeps (get_state ≫= _) => apply keeps_get; intros ?
  | |- keeps (_ ≫= _) => apply keeps_bind; [|intros ?]
  | |- keeps (match ?x with _ => _ end) => destruct x
  | |- _ => solve [auto with keeps]
  end.

Lemma keeps_refresh : keeps (refresh_completions answer py_int).
Proof.
  apply keeps_catching; [|apply keeps_connection]. apply keeps_bind.
  - intros r Hr. unfold refresh_health.
    assert (keeps (data ← ask answer CallHealth; status ← lift_c (vget data "status" (PStr "unknown")); on_connection (mark true status))) as H
      by keep_it.
    specialize (H r Hr). destruct ((ask answer CallHealth ≫= _) r) as [[[]|[]] r']; try done. by apply keeps_connection.
  - intros []; [|apply keeps_ret].
    apply keeps_bind; [apply keeps_catching; [unfold refresh_status; keep_it|apply keeps_ret]|intros _].
    apply keeps_bind; [apply keeps_catching; [unfold refresh_backends; keep_it|apply keeps_ret]|intros _].
    apply keeps_bind; [apply keeps_catching; [unfold refresh_capabilities; keep_it|apply keeps_ret]|intros _].
    apply keeps_catching; [unfold refresh_events; keep_it|apply keeps_connection].
Qed.

Lemma aliases_reload (a : odict string string) : dict_wf a →
  load_aliases py_str safe_load (Some (yaml_dump ((λ kv, (kv.1, PStr kv.2)) <$> a))) = Some a.
Proof using yaml_inverse.
  intros Ha. unfold load_aliases. rewrite yaml_inverse.
  - assert ((λ kv : string * pyval, (kv.1, text_of py_str kv.2)) <$> ((λ kv : string * string, (kv.1, PStr kv.2)) <$> a) = a) as ->.
    { clear Ha. induction a as [|[k v] a IH]; [done|]. rewrite !fmap_cons. by f_equal. }
    by rewrite dupdate_nil_wf.
  - constructor; [|apply Forall_fmap, Forall_true; intros; constructor].
    unfold dict_wf, dkeys. rewrite <-list_fmap_compose. exact Ha.
Qed.

Lemma keeps_aliases f : (∀ a, dict_wf a → dict_wf (f a)) → keeps (put_aliases yaml_dump f).
Proof using yaml_inverse.
  intros Hf r [Hc Hm Ht Ha Hw]. split; try done; [|by apply Hf]. simpl. by apply aliases_reload, Hf.
Qed.

Lemma keeps_set args : keeps (set_command safe_load yaml_dump known_theme args).
Proof.
  intros r [Hc Hm Ht Ha Hw]. unfold set_command, modify. simpl.
  destruct (handle_set _ _ _ _ _ _) as [[b c] w] eqn:E. split; try done. simpl.
  eapply rtc_r; [exact Hc|]. by eapply change_setting.
Qed.

Lemma keeps_connect args : keeps (handle_connect answer py_int bracket_ok args).
Proof.
  destruct args as [|url args]; [apply keeps_ret|]. simpl. destruct (urlparse bracket_ok url) as [u|] eqn:E; [|apply keeps_raise].
  case_bool_decide; [|apply keeps_ret]. apply keeps_bind; [|intros _; apply keeps_refresh].
  apply keeps_modify. intros r []. split; try done. simpl. eapply rtc_r; [done|]. by eapply change_server.
Qed.

Lemma keeps_scope b : keeps (scope_to b).
Proof. apply keeps_modify. intros r []. by split. Qed.

Lemma with_output_twice v w c : with_output v (with_output w c) = with_output v c.
Proof. done. Qed.

(** A command of the application leaves everything but the last result as it was. *)
Lemma keeps_dispatch line : keeps (dispatch_command py_str run_app line).
Proof using app_config.
  unfold dispatch_command. destruct (shlex_split line) as [[|a args]|]; [apply keeps_ret| |apply keeps_ret].
  intros r [Hc Hm Ht Ha Hw]. rewrite run_get. cbv zeta. rewrite run_modify, run_get, !run_modify.
  set (o := run_app _ _ _). pose proof (app_config (length (r_ran (set_running true r)))
    (global_args py_str (r_config r) ++ scoped_args (ss_scoped_backend (r_session r)) (a :: args)) (r_config (set_running true r))) as Ho.
  fold o in Ho. destruct (ao_interrupted o); [|case_bool_decide]; split; try done; cbn in *; by rewrite Ho.
Qed.

Lemma keeps_watch n cmd : keeps (watch_loop py_str run_app n cmd).
Proof using app_config.
  induction n as [|n IH]; intros r Hr; simpl; pose proof (keeps_dispatch cmd r Hr) as H;
    destruct (dispatch_command py_str run_app cmd r) as [[e|u] r']; try (by repeat case_match); by apply IH.
Qed.

Lemma keeps_alias args : keeps (handle_alias yaml_dump args).
Proof using yaml_inverse.
  destruct args as [|a args]; [apply keeps_ret|]. unfold handle_alias. destruct (partition_at _ _) as [n [v|]]; [|apply keeps_ret].
  case_match; [apply keeps_ret|]. apply keeps_aliases. auto with argus.
Qed.
Lemma keeps_unalias args : keeps (handle_unalias yaml_dump args).
Proof using yaml_inverse.
  destruct args as [|a args]; [apply keeps_ret|]. apply keeps_get. intros r.
  destruct (dmem _ _); [|apply keeps_ret]. apply keeps_aliases. auto with argus.
Qed.
Lemma keeps_use args : keeps (handle_use args).
Proof.
  unfold handle_use. destruct args as [|a [|name args]]; [apply keeps_ret..|].
  repeat (case_match; [by auto using keeps_ret, keeps_scope|]). apply keeps_get. intros r.
  case_match; [apply keeps_scope|apply keeps_ret].
Qed.
Lemma keeps_watching args : keeps (handle_watch py_int py_str run_app turns args).
Proof using app_config.
  unfold handle_watch. destruct args as [|a args]; [apply keeps_ret|]. cbv zeta.
  match goal with |- keeps (match ?x with _ => _ end) => destruct x as [[|b cmd]|] end; [apply keeps_ret|apply keeps_watch|apply keeps_ret].
Qed.

Lemma keeps_handler cmd h args :
  repl_handler answer py_int py_str bracket_ok safe_load yaml_dump known_theme run_app turns cmd = Some h → keeps (h args).
Proof using yaml_inverse app_config.
  unfold repl_handler. intros H. repeat (case_bool_decide; [by simplify_eq; auto using keeps_ret, keeps_use, keeps_alias,
    keeps_unalias, keeps_watching, keeps_connect, keeps_set|]). done.
Qed.

Local Abbreviation line_ := (run_line answer py_int py_str bracket_ok safe_load yaml_dump known_theme run_app turns).
Lemma keeps_line line : keeps (line_ line).
Proof using yaml_inverse app_config.
  unfold run_line. case_bool_decide; [apply keeps_ret|]. apply keeps_get. intros r. cbv zeta.
  destruct (shlex_split _) as [[|cmd args]|]; [apply keeps_ret| |apply keeps_ret].
  destruct (repl_handler _ _ _ _ _ _ _ _ _ cmd) as [h|] eqn:E.
  - apply keeps_bind; [by eapply keeps_handler|intros _; apply keeps_ret].
  - apply keeps_bind; [apply keeps_dispatch|intros _]. apply keeps_bind; [|intros _; apply keeps_ret].
    case_bool_decide; [apply keeps_refresh|apply keeps_ret].
Qed.

Local Abbreviation loop := (repl_loop answer py_int py_str bracket_ok safe_load yaml_dump known_theme run_app turns).
Lemma keeps_loop inputs : ∀ m, keeps (loop m inputs).
Proof using yaml_inverse app_config.
  induction inputs as [|i inputs IH]; intros m; simpl; [apply keeps_ret|]. apply keeps_bind; [|intros m'; apply IH].
  unfold on_input. destruct m; [destruct i|destruct i|]; cbv zeta; repeat case_match; auto using keeps_ret, keeps_line.
Qed.
End kept.

(** Whatever is typed at the prompts of the shell, and however a command ends (an
    exception that ends the shell included), the aliases of the session are the ones
    in their file, the standard output and the flag of the shell are restored, and the
    configuration was changed by [connect] and [set] only: the options of a command
    leave no trace in it. *)
Theorem repl_keeps answer py_int py_str bracket_ok safe_load yaml_dump known_theme run_app turns config n w alias_file inputs res r
    (yaml_inverse : ∀ d, pv_wf (PDict d) → safe_load (yaml_dump d) = Some (PDict d))
    (app_config : ∀ n args c, with_output (cli_output_format c) (ao_config (run_app n args c)) = c)
    (readable : is_Some (load_aliases py_str safe_load alias_file))
    (Hrun : start_repl answer py_int py_str bracket_ok safe_load yaml_dump known_theme run_app turns config n w alias_file inputs = (res, r)) :
  rtc (shell_change bracket_ok known_theme) config (r_config r) ∧ r_repl_mode r = false ∧ r_tee r = false ∧
  load_aliases py_str safe_load (r_alias_file r) = Some (ss_aliases (r_session r)).
Proof.
  unfold start_repl in Hrun. destruct (load_aliases py_str safe_load alias_file) as [aliases|] eqn:E; [|by destruct readable].
  assert (kept py_str bracket_ok safe_load known_theme config r) as []; [|done].
  replace r with ((res, r).2) by done. rewrite <-Hrun. apply keeps_bind; [apply keeps_refresh|intros _; by apply keeps_loop|].
  split; try done. simpl. unfold load_aliases in E. repeat (case_match; simplify_eq); auto with argus.
Qed.

(** ** Sample sessions *)

Definition echo_app (n : nat) (args : list string) (c : CliConfig) : app_outcome :=
  {| ao_output := dumps None (PDict [("a", PInt 1)]); ao_config := with_output (PStr "json") c; ao_interrupted := false |}.
Definition json_dump (d : odict string pyval) : string := dumps (Some 2%nat) (PDict d).
Definition offline (_ : nat) (_ : http_request) : fault + http_response := inl ConnectError.
Definition no_files : cli_files := {| cf_cwd := None; cf_user := None; cf_source := None |}.
Definition session (inputs : list input) : (client_exn + mode) * repl :=
  start_repl offline as_num (λ _, "") (λ _, true) loads json_dump (λ _, true) echo_app (λ _, 0%nat) client_config
    {| nt_sent := []; nt_slept := [] |} no_files None inputs.

Lemma repl_keeps_witness :
  let '(res, r) := session [Typed "alias ll=backends list"; Typed "ll -o json"; Typed "exit"; Typed "never"] in
  res = inr Ended ∧ r_ran r = [["--token"; "0123456789abcdef"; "--output"; "rich"; "backends"; "list"; "-o"; "json"]] ∧
  cli_output_format (r_config r) = PStr "rich" ∧
  load_aliases (λ _, "") loads (r_alias_file r) = Some [("ll", "backends list")].
Proof.
  destruct (session _) as [res r] eqn:E.
  assert (ss_aliases (r_session r) = [("ll", "backends list")] ∧ res = inr Ended ∧
    r_ran r = [["--token"; "0123456789abcdef"; "--output"; "rich"; "backends"; "list"; "-o"; "json"]] ∧
    cli_output_format (r_config r) = PStr "rich") as (Ha & -> & Hran & Ho).
  { vm_compute in E. simplify_eq. vm_compute. done. }
  destruct (repl_keeps offline as_num (λ _, "") (λ _, true) loads json_dump (λ _, true) echo_app (λ _, 0%nat) client_config _ no_files
    None _ _ r (λ d, loads_dumps (Some 2%nat) (PDict d)) (λ n args c, match c with Build_CliConfig _ _ _ _ _ _ _ _ _ _ _ _ => eq_refl end)
    ltac:(by eexists) E) as (_ & _ & _ & Hal).
  split_and!; [done..|]. by rewrite Hal, Ha.
Defined.

(** The result of the last command is put into the line without quotes, which the
    parser of the line takes away. *)
Example result_loses_quotes :
  last (r_ran (session [Typed "tools list"; Typed "tools call x --args $_"]).2) =
  Some ["--token"; "0123456789abcdef"; "--output"; "rich"; "tools"; "call"; "x"; "--args"; "{a:"; "1}"].
Proof. vm_compute. reflexivity. Qed.

(** After a continuation that begins with an empty line, the alias is cut out of the
    wrong place. *)
Example alias_after_blank :
  r_ran (session [Typed "alias ll=backends list"; Typed "\"; Typed "ll -o json"]).2 =
  [["--token"; "0123456789abcdef"; "--output"; "rich"; "backends"; "listl"; "-o"; "json"]].
Proof. vm_compute. reflexivity. Qed.

(** With a scope the option [--backend] is added to commands that do not have it. *)
Lemma scope_adds_option backend command args : backend ≠ "" → command ∈ ["tools"; "resources"; "prompts"] →
  "--backend" ∉ command :: args →
  scoped_args (Some backend) (command :: args) = command :: args ++ ["--backend"; backend].
Proof.
  intros Hb Hc Hn. unfold scoped_args. simpl. rewrite (bool_decide_false (backend = "")), (bool_decide_true (command ∈ _)) by done.
  by rewrite bool_decide_false by done.
Qed.
