(* ===== verification/RegistrySearch.v ===== *)
(** * Searching the configured registries (handle_registry_search of
      server/management/router.py)

    The endpoint asks the registries of the configuration one after the other,
    through the client of ServerRegistry.v, until one of them has an answer. *)
From S2P Require Import Prelude PyDict Effects PyStr Json ServerRegistry ServerConfig Management.

(** ** The rows of an answer *)

Definition is_str (v : pyval) : bool := match v with PStr _ => true | _ => false end.
Definition is_str_list (v : pyval) : bool := match v with PList l => forallb is_str l | _ => false end.
(** [RegistryServerEntry(...).model_dump()], [None] when the model refuses. *)
Definition server_row (e : ServerEntry) : option pyval :=
  if is_str (se_name e) && is_str (se_description e) && is_str (se_transport e) && is_str (se_url e) && is_str (se_command e) &&
     is_str_list (se_args e) && is_str (se_version e) && is_str_list (se_categories e)
  then Some (PDict [("name", se_name e); ("description", se_description e); ("transport", se_transport e); ("url", se_url e);
    ("command", se_command e); ("args", se_args e); ("version", se_version e); ("categories", se_categories e)])
  else None.
(** The rows before the first entry that is refused, and whether there is none. *)
Fixpoint rows_until (es : list ServerEntry) : list pyval * bool :=
  match es with
  | [] => ([], true)
  | e :: es' => match server_row e with Some r => let '(rs, ok) := rows_until es' in (r :: rs, ok) | None => ([], false) end
  end.

Definition registry_type_of (t : string) : option RegistryType :=
  if bool_decide (t = "glama") then Some Glama else if bool_decide (t = "smithery") then Some Smithery
  else if bool_decide (t = "generic") then Some Generic else None.

Section search.
Context (answer : nat → option pyval) (disk : nat → disk_outcome) (readable : nat → bool) (sha256 : string → string) (clock : nat → Z).
(** [int(s)], [None] for its [ValueError]. *)
Context (py_int : string → option Z).

Definition client_of (r : RegistryEntryConfig) : RegistryClient := new_registry_client (rg_url r) (registry_type_of (rg_type r)) false.

(** One registry: the rows it adds and the name it leaves in [used_registry]. *)
Definition ask_registry (r : RegistryEntryConfig) (q : string) (limit : Z) (used : string) : rm (list pyval * string) :=
  results ← search sha256 answer readable (client_of r) q limit;
  let '(rows, ok) := rows_until results in
  mret (rows, if ok && negb (bool_decide (results = [])) then rg_name r else used).

Fixpoint search_registries (regs : list RegistryEntryConfig) (q : string) (limit : Z) (used : string) : rm (list pyval * string) :=
  match regs with
  | [] => mret ([], used)
  | r :: regs' =>
      if bool_decide (rg_url r = "") then search_registries regs' q limit used
      else
        p ← ask_registry r q limit used;
        match p.1 with
        | [] => search_registries regs' q limit p.2
        | _ => mret p
        end
  end.

Definition search_limit (limit_str : option string) : Z :=
  match py_int (default "20" limit_str) with Some n => Z.max 1 (Z.min n 100) | None => 20 end.

(** [registries] are those of the full configuration; without it the handler
    looks for a list among the dictionaries of the backends and finds none. *)
Definition handle_registry_search (registries : list RegistryEntryConfig) (query : odict string string) : rm mg_response :=
  let q := str_strip (default "" (dget query "q")) in
  if bool_decide (q = "") then mret (_error_json "bad_request" "Query parameter 'q' is required." 400)
  else if (MGMT_QUERY_PARAM_MAX_LEN <? strlen q) || negb (_SAFE_QUERY_RE q)
  then mret (_error_json "bad_request" "Invalid query parameter." 400)
  else
    let limit := search_limit (dget query "limit") in
    let name := str_strip (default "" (dget query "registry")) in
    if bool_decide (registries = []) then mret (_error_json "not_configured" "No registries configured." 404)
    else
      let chosen := if bool_decide (name = "") then registries else keep (λ r, bool_decide (rg_name r = name)) registries in
      if bool_decide (chosen = []) then mret (_error_json "not_found" ("Registry '" +:+ name +:+ "' not found.") 404)
      else
        p ← search_registries chosen q limit "";
        mret (ok (PDict [("servers", PList (take (Z.to_nat limit) p.1)); ("registry", PStr p.2); ("total", PInt (Z.of_nat (length p.1)))])).
End search.

(** ** Theorems *)

Section facts.
Context (answer : nat → option pyval) (readable : nat → bool) (sha256 : string → string).
Local Abbreviation run_search := (search_registries answer readable sha256).

(** What a registry answers to the request at a time. *)
Definition page_at (r : RegistryEntryConfig) (n : nat) : list ServerEntry :=
  match answer n with
  | Some body => match _parse_page (rc_rtype (client_of r)) body with inr page => sp_servers page | inl _ => [] end
  | None => []
  end.
Definition request_to (q : string) (limit : Z) (r : RegistryEntryConfig) : string * odict string pyval :=
  (_server_path (rc_rtype (client_of r)), _search_params (rc_rtype (client_of r)) q limit).
Definition asked (reqs : list (string * odict string pyval)) (s : reg_state) : reg_state :=
  {| r_files := r_files s; r_sent := r_sent s ++ reqs; r_tick := r_tick s + length reqs |}.

(** Without a cache a search sends one request and cannot fail. *)
Lemma search_once r q limit s :
  search sha256 answer readable (client_of r) q limit s = (inr (page_at r (r_tick s)), asked [request_to q limit r] s).
Proof.
  unfold page_at, request_to, asked. cbn [length]. rewrite Nat.add_1_r. assert (Hc : rc_cache (client_of r) = false) by done.
  revert Hc. generalize (client_of r) as c. intros c Hc. unfold search, try_except, http_get, lift_r, _fallback_page. rewrite Hc. unfold_M.
  destruct (answer (r_tick s)) as [body|]; [|done]. simpl. by destruct (_parse_page (rc_rtype c) body).
Qed.

Lemma asked_asked l1 l2 s : asked l2 (asked l1 s) = asked (l1 ++ l2) s.
Proof. unfold asked. cbn. rewrite app_assoc, length_app. f_equal. lia. Qed.

Definition rows_of (r : RegistryEntryConfig) (n : nat) : list pyval := (rows_until (page_at r n)).1.

(** The registries are asked in the order of the configuration, one request
    each and no more than needed, and the rows are those of the first one that
    has any; the search always ends. *)
Theorem registry_search_first regs q limit used s :
  Forall (λ r, rg_url r ≠ "") regs →
  ∃ before rows name,
    run_search regs q limit used s = (inr (rows, name), asked (request_to q limit <$> before) s) ∧
    before `prefix_of` regs ∧
    (∀ i r, before !! i = Some r → S i < length before ∨ rows = [] → rows_of r (r_tick s + i) = [])%nat ∧
    ((rows = [] ∧ before = regs) ∨
     (∃ r, last before = Some r ∧ rows ≠ [] ∧ rows = rows_of r (r_tick s + pred (length before)))).
Proof.
  intros Hu. revert used s. induction Hu as [|r regs Hr Hu IH]; intros used s.
  { exists [], [], used. unfold asked. cbn. rewrite app_nil_r, Nat.add_0_r. split_and!; [by destruct s|done|done|by left]. }
  cbn [search_registries]. rewrite bool_decide_false by done. rewrite run_bind. unfold ask_registry. rewrite run_bind, search_once.
  destruct (rows_until (page_at r (r_tick s))) as [rows ok] eqn:Er. cbn.
  assert (Hrows : rows_of r (r_tick s) = rows) by (unfold rows_of; by rewrite Er). destruct rows as [|row rows].
  - set (used' := if ok && _ then rg_name r else used). destruct (IH used' (asked [request_to q limit r] s)) as (before & rows & name & Hrun & Hpre & Hempty & Hend).
    exists (r :: before), rows, name. rewrite Hrun, asked_asked. cbn in Hempty, Hend.
    assert (Hsh : ∀ i, (r_tick s + 1 + i = r_tick s + S i)%nat) by (intros; lia). split_and!; [done|by apply prefix_cons| |].
    + intros [|i] r' Hi Hlt; simplify_eq/=; [by rewrite Nat.add_0_r|]. rewrite <-Hsh. apply Hempty; [done|]. destruct Hlt; [left; lia|by right].
    + destruct Hend as [[-> ->]|(r' & Hl & Hne & Hrw)]; [by left|]. right. exists r'.
      destruct before as [|b before]; [done|]. split_and!; [done|done|]. rewrite Hrw, Hsh. done.
  - exists [r], (row :: rows), (if ok && negb (bool_decide (page_at r (r_tick s) = [])) then rg_name r else used).
    split_and!; [done|by exists regs| |].
    + intros [|i] r' Hi [Hlt|Hn]; simplify_eq/=; lia.
    + right. exists r. cbn. by rewrite Nat.add_0_r.
Qed.

Lemma search_limit_bounds py_int l : 1 <= search_limit py_int l <= 100.
Proof. unfold search_limit. case_match; lia. Qed.
End facts.
