(* ===== verification/ProcSessions.v ===== *)
(** * Detached servers (sessions.py, cli/_stop.py, the session handling of cli/_server.py)

    A detached server leaves a JSON file with its process id under the state
    directory; the commands list, find and stop servers through these files.
    The files are an instance of the interface [SessionStore]; the commands are
    written against the interface, and a second instance, a map from names to
    records, is the specification the files refine.  [os.kill] is a parameter:
    its answer may depend on every earlier call and on the time. *)
From S2P Require Import Prelude PyDict Effects PyStr Url Json Versions.
From Stdlib Require Import Ascii.

Record SessionInfo := {
  si_name : string; si_pid : Z; si_host : string; si_port : Z; si_config : string; si_log_file : string; si_started_at : string }.
#[export] Instance session_info_eq : EqDecision SessionInfo.
Proof. solve_decision. Defined.

Inductive cli_exn := ValueError (msg : string) | OSError | SystemExit (code : Z).

(** ** Names *)

Definition name_start (c : ascii) : bool := let n := nat_of_ascii c in (Nat.leb 97 n && Nat.leb n 122) || (Nat.leb 48 n && Nat.leb n 57).
Definition name_char (c : ascii) : bool := name_start c || Nat.eqb (nat_of_ascii c) 45.
(** [_NAME_RE] on a string without surrounding blanks *)
Definition _NAME_RE (s : string) : bool :=
  match chars s with [] => false | c :: l => name_start c && forallb name_char l && Nat.leb (length l) 31 end.

Definition validate_name (name : string) : cli_exn + string :=
  let name := str_strip (lower name) in
  if _NAME_RE name then inr name
  else inl (ValueError ("Invalid session name '" +:+ name +:+ "'. Use lowercase alphanumeric + hyphens, 1–32 chars, starting with a letter or digit.")).

Definition auto_name (port default_port : Z) : string :=
  if port =? default_port then "default" else "argus-" +:+ print_int port.

(** ** The store *)

Class SessionStore (S : Type) := {
  st_load : string → S → cli_exn + option SessionInfo;
  st_save : SessionInfo → S → cli_exn + S;
  st_remove : string → S → cli_exn + S;
  st_names : S → list string }.

(** *** Files *)

Definition asdict (i : SessionInfo) : pyval :=
  PDict [("name", PStr (si_name i)); ("pid", PInt (si_pid i)); ("host", PStr (si_host i)); ("port", PInt (si_port i));
         ("config", PStr (si_config i)); ("log_file", PStr (si_log_file i)); ("started_at", PStr (si_started_at i))].

Definition field_names : list string := ["name"; "pid"; "host"; "port"; "config"; "log_file"; "started_at"].

Definition text_field (d : odict string pyval) (k : string) (dflt : option string) : option string :=
  match dget d k with Some (PStr s) => Some s | Some _ => None | None => dflt end.
Definition int_field (d : odict string pyval) (k : string) : option Z :=
  match dget d k with Some (PInt z) => Some z | _ => None end.

(** [SessionInfo(...)] on the members of a file; a missing required field or
    an unknown one is a [TypeError].  The class does not check the types of the
    values; a file with others than its own is taken as corrupt here. *)
Definition info_of (now_text : string) (v : pyval) : option SessionInfo :=
  match v with
  | PDict d =>
      if forallb (λ k, bool_decide (k ∈ field_names)) (dkeys d) then
        n ← text_field d "name" None; p ← int_field d "pid"; h ← text_field d "host" None; po ← int_field d "port";
        c ← text_field d "config" None; l ← text_field d "log_file" (Some ""); s ← text_field d "started_at" (Some now_text);
        Some {| si_name := n; si_pid := p; si_host := h; si_port := po; si_config := c; si_log_file := l; si_started_at := s |}
      else None
  | _ => None
  end.

Abbreviation session_files := (gmap string string) (only parsing).

Section files.
(** [realpath] is [os.path.realpath]; [dir] is the resolved directory. *)
Context (realpath : string → string) (dir now_text : string).

Definition session_path (name : string) : cli_exn + string :=
  let target := realpath (dir +:+ "/" +:+ name +:+ ".json") in
  if startswith target (dir +:+ "/") then inr target
  else inl (ValueError ("Session path escapes sessions directory: " +:+ name)).

Definition save_session (i : SessionInfo) (fs : session_files) : cli_exn + session_files :=
  path ← session_path (si_name i); inr (<[path := dumps (Some 2%nat) (asdict i)]> fs).

Definition load_session (name : string) (fs : session_files) : cli_exn + option SessionInfo :=
  path ← session_path name;
  match fs !! path with
  | None => inr None
  | Some t => inr (match loads t with Some v => info_of now_text v | None => None end)
  end.

Definition remove_session (name : string) (fs : session_files) : cli_exn + session_files :=
  path ← session_path name; inr (delete path fs).

(** [os.listdir]: the entries of the directory. *)
Definition has_slash (s : string) : bool := existsb (λ c, Nat.eqb (nat_of_ascii c) 47) (chars s).
Definition entry_of (path : string) : option string :=
  if startswith path (dir +:+ "/") then
    let f := text (drop (length (chars dir) + 1) (chars path)) in if has_slash f then None else Some f
  else None.
Definition listdir (fs : session_files) : list string := omap entry_of (map_to_list fs).*1.

(** [fname[:-5]] of the sorted entries that end in [.json] *)
Definition strip_json (fname : string) : string := text (take (length (chars fname) - 5) (chars fname)).
Definition session_names (fs : session_files) : list string :=
  strip_json <$> keep (λ f, endswith f ".json") (sorted_names (listdir fs)).

Definition file_store : SessionStore session_files :=
  {| st_load := load_session; st_save := save_session; st_remove := remove_session; st_names := session_names |}.
End files.

(** *** The specification: a map from names to records *)

Abbreviation session_map := (gmap string SessionInfo) (only parsing).
Definition map_store : SessionStore session_map := {|
  st_load name m := inr (m !! name);
  st_save i m := inr (<[si_name i := i]> m);
  st_remove name m := inr (delete name m);
  st_names m := strip_json <$> sorted_names ((λ k, k +:+ ".json") <$> (map_to_list m).*1) |}.

(** ** Processes *)

Inductive kill_reply := KillOk | ProcessLookupError | PermissionError | KillFailed.
Record kill_call := { kc_time : Z; kc_pid : Z; kc_sig : Z }.
Definition SIGKILL : Z := 9.
Definition SIGTERM : Z := 15.

Record world (S : Type) := { w_store : S; w_clock : Z; w_kills : list kill_call; w_pid_file : option string }.
Arguments w_store {_}. Arguments w_clock {_}. Arguments w_kills {_}. Arguments w_pid_file {_}.
Arguments Build_world {_}.

Section commands.
Context {S : Type} (store : SessionStore S) (kill : list kill_call → kill_call → kill_reply).
Definition cmd (A : Type) : Type := M (world S) cli_exn A.
#[local] Existing Instance store.

Definition set_store (s : S) (w : world S) : world S := Build_world s (w_clock w) (w_kills w) (w_pid_file w).
Definition set_pid_file (f : option string) (w : world S) : world S := Build_world (w_store w) (w_clock w) (w_kills w) f.

Definition load (name : string) : cmd (option SessionInfo) := λ w,
  (st_load name (w_store w), w).
Definition update (f : S → cli_exn + S) : cmd () := λ w,
  match f (w_store w) with inl e => (inl e, w) | inr s => (inr (), set_store s w) end.
Definition save (i : SessionInfo) : cmd () := update (st_save i).
Definition remove (name : string) : cmd () := update (st_remove name).

Definition os_kill (pid sig : Z) : cmd kill_reply := λ w,
  let c := {| kc_time := w_clock w; kc_pid := pid; kc_sig := sig |} in
  (inr (kill (w_kills w) c), Build_world (w_store w) (w_clock w) (w_kills w ++ [c]) (w_pid_file w)).
(** [time.sleep], in milliseconds *)
Definition sleep (ms : Z) : cmd () := modify (λ w, Build_world (w_store w) (w_clock w + ms) (w_kills w) (w_pid_file w)).
Definition monotonic : cmd Z := λ w, (inr (w_clock w), w).

Definition is_alive (pid : Z) : cmd bool :=
  r ← os_kill pid 0;
  match r with KillOk | PermissionError => mret true | ProcessLookupError => mret false | KillFailed => raise OSError end.

(** ** Listing and finding *)

Fixpoint list_names (include_dead : bool) (names : list string) : cmd (list SessionInfo) :=
  match names with
  | [] => mret []
  | name :: rest =>
      info ← load name;
      match info with
      | None => list_names include_dead rest
      | Some i =>
          alive ← is_alive (si_pid i);
          if alive || include_dead then (r ← list_names include_dead rest; mret (i :: r))
          else (_ ← remove (si_name i); list_names include_dead rest)
      end
  end.
Definition list_sessions (include_dead : bool) : cmd (list SessionInfo) := λ w,
  list_names include_dead (st_names (w_store w)) w.

Definition find_session (name_or_none : option string) : cmd (option SessionInfo) :=
  match name_or_none with
  | Some name =>
      info ← load name;
      match info with
      | Some i => alive ← is_alive (si_pid i); mret (if alive : bool then Some i else None)
      | None => mret None
      end
  | None => alive ← list_sessions false; mret (match alive with [i] => Some i | _ => None end)
  end.

Definition port_taken (host : string) (port : Z) (i : SessionInfo) : bool :=
  (si_port i =? port) && (bool_decide (si_host i = host) || bool_decide (si_host i = "0.0.0.0")).
Definition check_port_conflict (host : string) (port : Z) : cmd (option SessionInfo) :=
  l ← list_sessions false; mret (head (keep (port_taken host port) l)).

(** ** Stopping *)

(** The polling loop of [stop_session]: whether the process went away. *)
Fixpoint poll_session (fuel : nat) (deadline pid : Z) : cmd bool :=
  match fuel with
  | O => mret false
  | Datatypes.S fuel' =>
      now ← monotonic;
      if now <? deadline then
        alive ← is_alive pid;
        if negb alive then mret true else (_ ← sleep 100; poll_session fuel' deadline pid)
      else mret false
  end.
(** A sleep takes 100 ms, so the loop ends within this many turns. *)
Definition poll_fuel (timeout : Z) : nat := Datatypes.S (Z.to_nat (timeout / 100 + 1)).

Definition stop_session (i : SessionInfo) (timeout : Z) (force : bool) : cmd bool :=
  alive ← is_alive (si_pid i);
  if negb alive then (_ ← remove (si_name i); mret true)
  else
    r ← os_kill (si_pid i) (if force then SIGKILL else SIGTERM);
    match r with
    | KillOk =>
        now ← monotonic;
        gone ← poll_session (poll_fuel timeout) (now + timeout) (si_pid i);
        if gone : bool then (_ ← remove (si_name i); mret true)
        else
          _ ← (if force then mret () else (_ ← os_kill (si_pid i) SIGKILL; sleep 200));
          _ ← remove (si_name i);
          alive ← is_alive (si_pid i);
          mret (negb alive)
    | _ => mret false
    end.

(** The polling loop of [stop_pid], which does not expect other errors. *)
Definition probe_pid (pid : Z) : cmd bool :=
  r ← os_kill pid 0;
  match r with KillOk => mret true | ProcessLookupError => mret false | _ => raise OSError end.
Fixpoint poll_pid (fuel : nat) (deadline pid : Z) : cmd bool :=
  match fuel with
  | O => mret false
  | Datatypes.S fuel' =>
      now ← monotonic;
      if now <? deadline then
        alive ← probe_pid pid;
        if negb alive then mret true else (_ ← sleep 100; poll_pid fuel' deadline pid)
      else mret false
  end.

Definition stop_pid (pid timeout : Z) (force : bool) : cmd bool :=
  r ← os_kill pid (if force then SIGKILL else SIGTERM);
  match r with
  | ProcessLookupError => mret true
  | PermissionError | KillFailed => mret false
  | KillOk =>
      now ← monotonic;
      gone ← poll_pid (poll_fuel timeout) (now + timeout) pid;
      if gone : bool then mret true
      else
        _ ← (if force then mret () else (_ ← os_kill pid SIGKILL; sleep 300));
        alive ← probe_pid pid;
        mret (negb alive)
  end.

(** ** Processes without a session *)

Record OrphanProcess := { or_pid : Z; or_cmdline : string }.

(** [procs]: the numeric entries of [/proc] with the command line as text, or
    [None] when it cannot be read. *)
Definition server_cmdline (parts : string) : bool :=
  negb (bool_decide (parts = "")) && contains parts "argus_mcp" && contains parts "server" &&
  negb (contains parts "pytest" || contains parts "grep" || contains parts "tail ").
Definition discover_server_processes (my_pid : Z) (procs : list (Z * option string)) : cmd (list OrphanProcess) :=
  l ← list_sessions false;
  let tracked := si_pid <$> l in
  mret (omap (λ e : Z * option string,
    if bool_decide (e.1 = my_pid) || bool_decide (e.1 ∈ tracked) then None
    else match e.2 with
         | Some parts => if server_cmdline parts then Some {| or_pid := e.1; or_cmdline := parts |} else None
         | None => None end) procs).

(** ** The commands (cli/_stop.py, cli/_server.py) *)

Definition exit1 {A} : cmd A := raise (SystemExit 1).
Definition _cleanup_pid_file : cmd () := modify (set_pid_file None).

Definition stop_timeout : Z := 3000.

Definition _stop_named_session (session_name : string) : cmd () :=
  info ← load session_name;
  match info with
  | None => exit1
  | Some i =>
      alive ← is_alive (si_pid i);
      if negb alive then remove session_name
      else
        ok ← stop_session i stop_timeout false;
        if ok : bool then _cleanup_pid_file else exit1
  end.

(** [int(s.strip())] for an optional sign and digits *)
Definition py_int (s : string) : option Z :=
  let digits l := if bool_decide (l ≠ []) && forallb is_digit l then Some (int_of_digits l) else None in
  match chars (str_strip s) with
  | c :: l => if Nat.eqb (nat_of_ascii c) 45 then Z.opp <$> digits l
              else if Nat.eqb (nat_of_ascii c) 43 then digits l else digits (c :: l)
  | [] => None
  end.

(** Thirty probes; [true] when the process went away. *)
Fixpoint legacy_wait (turns : nat) (pid : Z) : cmd bool :=
  match turns with
  | O => mret false
  | Datatypes.S n => _ ← sleep 100; alive ← probe_pid pid; if negb alive then mret true else legacy_wait n pid
  end.
Definition _stop_legacy_pid : cmd () := λ w,
  match w_pid_file w with
  | None => exit1 w
  | Some t =>
      match py_int t with
      | None => exit1 w
      | Some pid =>
          (r ← os_kill pid 0;
           match r with
           | ProcessLookupError => _cleanup_pid_file
           | KillFailed => raise OSError
           | _ =>
               r ← os_kill pid SIGTERM;
               match r with
               | KillOk =>
                   gone ← legacy_wait 30 pid;
                   _ ← (if gone : bool then mret () else (_ ← os_kill pid SIGKILL; mret ()));
                   _cleanup_pid_file
               | _ => exit1
               end
           end) w
      end
  end.

Fixpoint stop_each (l : list SessionInfo) (force : bool) : cmd nat :=
  match l with
  | [] => mret 0%nat
  | i :: l' => ok ← stop_session i stop_timeout force; n ← stop_each l' force; mret (if ok : bool then n else Datatypes.S n)
  end.
Fixpoint stop_orphans (l : list OrphanProcess) (force : bool) : cmd nat :=
  match l with
  | [] => mret 0%nat
  | o :: l' => ok ← stop_pid (or_pid o) stop_timeout force; n ← stop_orphans l' force; mret (if ok : bool then n else Datatypes.S n)
  end.

Definition _stop_all_servers (my_pid : Z) (procs : list (Z * option string)) (force : bool) : cmd () :=
  sessions ← list_sessions false;
  orphans ← discover_server_processes my_pid procs;
  match sessions, orphans with
  | [], [] => mret ()
  | _, _ =>
      f1 ← stop_each sessions force;
      f2 ← stop_orphans orphans force;
      _ ← _cleanup_pid_file;
      if Nat.eqb (f1 + f2) 0 then mret () else exit1
  end.

Definition isdigit (s : string) : bool := negb (bool_decide (s = "")) && forallb is_digit (chars s).

Definition _cmd_stop (my_pid : Z) (procs : list (Z * option string)) (stop_all force : bool) (session_name : option string) : cmd () :=
  if stop_all then _stop_all_servers my_pid procs force
  else match (if str_truthy session_name then session_name else None) with
  | Some name =>
      if isdigit name then
        ok ← stop_pid (int_of_digits (chars name)) stop_timeout force;
        if ok : bool then _cleanup_pid_file else exit1
      else _stop_named_session name
  | None =>
      info ← find_session None;
      match info with
      | Some i =>
          ok ← stop_session i stop_timeout force;
          if ok : bool then _cleanup_pid_file else exit1
      | None =>
          alive ← list_sessions false;
          if Nat.ltb 1 (length alive) then exit1
          else
            orphans ← discover_server_processes my_pid procs;
            match orphans with [] => _stop_legacy_pid | _ => exit1 end
      end
  end.

Definition DEFAULT_PORT : Z := 9000.

(** [_detach_server]: [spawn] is the process id of the child; the log file
    name and the time are given. *)
Definition _detach_server (name : option string) (host : string) (port : Z) (config : option string)
    (spawn : Z) (log_path : string → string) (now_text : string) : cmd () := λ w,
  match (if str_truthy name then validate_name (default "" name) else inr (auto_name port DEFAULT_PORT)) with
  | inl e => (inl e, w)
  | inr session_name =>
      (conflict ← check_port_conflict host port;
       match conflict with
       | Some _ => exit1
       | None => save {| si_name := session_name; si_pid := spawn; si_host := host; si_port := port;
                         si_config := default "" config; si_log_file := log_path session_name; si_started_at := now_text |}
       end) w
  end.

Definition _write_pid_file (session_name host : string) (port : Z) (config : string) (pid : Z) (now_text : string) : cmd () :=
  _ ← save {| si_name := session_name; si_pid := pid; si_host := host; si_port := port; si_config := config;
              si_log_file := ""; si_started_at := now_text |};
  modify (set_pid_file (Some (print_int pid))).

Definition _remove_pid_file (session_name : string) (pid : Z) : cmd () :=
  info ← load session_name;
  _ ← match info with
      | Some i => if si_pid i =? pid then remove session_name else mret ()
      | None => mret ()
      end;
  modify (λ w, match w_pid_file w with
               | Some t => match py_int t with
                           | Some p => if p =? pid then set_pid_file None w else w
                           | None => w end
               | None => w end).
End commands.

(** ** Refinement of one store by another *)

(** [st1] behaves as [st2] on the names in [ok] when the stores are related. *)
Record store_refines {S1 S2 : Type} (st1 : SessionStore S1) (st2 : SessionStore S2) (ok : string → Prop) (R : S1 → S2 → Prop) : Prop := {
  ref_load name s1 s2 : ok name → R s1 s2 → st_load name s1 = st_load name s2;
  ref_loaded name s1 s2 i : ok name → R s1 s2 → st_load name s2 = inr (Some i) → ok (si_name i);
  ref_save i s1 s2 : ok (si_name i) → R s1 s2 → ∃ s1' s2', st_save i s1 = inr s1' ∧ st_save i s2 = inr s2' ∧ R s1' s2';
  ref_remove name s1 s2 : ok name → R s1 s2 → ∃ s1' s2', st_remove name s1 = inr s1' ∧ st_remove name s2 = inr s2' ∧ R s1' s2';
  ref_names s1 s2 : R s1 s2 → st_names s1 = st_names s2 ∧ Forall ok (st_names s2) }.

Section refinement.
Context {S1 S2 : Type} (st1 : SessionStore S1) (st2 : SessionStore S2) (ok : string → Prop) (R : S1 → S2 → Prop).
Context (Href : store_refines st1 st2 ok R) (kill : list kill_call → kill_call → kill_reply).
#[local] Set Default Proof Using "All".

Definition wrel (w1 : world S1) (w2 : world S2) : Prop :=
  R (w_store w1) (w_store w2) ∧ w_clock w1 = w_clock w2 ∧ w_kills w1 = w_kills w2 ∧ w_pid_file w1 = w_pid_file w2.

(** The two computations give the same result, which satisfies [Q], and keep
    the worlds related. *)
Definition sim {A} (Q : A → Prop) (c1 : cmd (S := S1) A) (c2 : cmd (S := S2) A) : Prop :=
  ∀ w1 w2, wrel w1 w2 → (c1 w1).1 = (c2 w2).1 ∧ wrel (c1 w1).2 (c2 w2).2 ∧ (∀ a, (c2 w2).1 = inr a → Q a).

Definition any {A} (a : A) : Prop := True.
Definition ok_info (i : SessionInfo) : Prop := ok (si_name i).

Lemma sim_bind {A B} (P : A → Prop) (Q : B → Prop) c1 c2 k1 k2 :
  sim P c1 c2 → (∀ a, P a → sim Q (k1 a) (k2 a)) → sim Q (c1 ≫= k1) (c2 ≫= k2).
Proof.
  intros Hc Hk w1 w2 Hw. destruct (Hc w1 w2 Hw) as (E & Hw' & HP). unfold mbind, M_bind.
  destruct (c1 w1) as [r1 v1], (c2 w2) as [r2 v2]. simpl in *. subst r1. destruct r2 as [e|a]; [done|].
  by apply Hk; [apply HP|].
Qed.
Lemma sim_ret {A} (Q : A → Prop) a : Q a → sim Q (mret a) (mret a).
Proof. intros Ha w1 w2 Hw. split_and!; [done|done|]. intros b Hb. simpl in Hb. by simplify_eq. Qed.
Lemma sim_raise {A} (Q : A → Prop) e : sim Q (raise e) (raise e).
Proof. intros w1 w2 Hw. by split_and!. Qed.
Lemma sim_weaken {A} (P Q : A → Prop) c1 c2 : (∀ a, P a → Q a) → sim P c1 c2 → sim Q c1 c2.
Proof. intros Hi Hc w1 w2 Hw. destruct (Hc w1 w2 Hw) as (? & ? & ?). split_and!; auto. Qed.
Lemma sim_any {A} (P : A → Prop) c1 c2 : sim P c1 c2 → sim any c1 c2.
Proof. by apply sim_weaken. Qed.

Lemma sim_kill pid sig : sim any (os_kill kill pid sig) (os_kill kill pid sig).
Proof. intros [] [] (? & E1 & E2 & E3). simpl in *. subst. by split_and!. Qed.
Lemma sim_sleep ms : sim any (sleep ms) (sleep ms).
Proof. intros [] [] (? & E1 & E2 & E3). simpl in *. subst. by split_and!. Qed.
Lemma sim_now : sim any monotonic monotonic.
Proof. intros [] [] (? & E1 & E2 & E3). simpl in *. subst. by split_and!. Qed.
Lemma sim_pid_file f : sim any (modify (set_pid_file f)) (modify (set_pid_file f)).
Proof. intros [] [] (? & E1 & E2 & E3). simpl in *. subst. by split_and!. Qed.

Lemma sim_load name : ok name → sim (λ o, ∀ i, o = Some i → ok_info i) (load st1 name) (load st2 name).
Proof.
  intros Hn w1 w2 Hw. destruct Hw as [HR Hw]. unfold load. simpl. rewrite (ref_load _ _ _ _ Href name _ _ Hn HR).
  split_and!; [done|done|]. intros o Ho i ->. by apply (ref_loaded _ _ _ _ Href name _ _ _ Hn HR).
Qed.
Lemma sim_save i : ok_info i → sim any (save st1 i) (save st2 i).
Proof.
  intros Hn [] [] (HR & E1 & E2 & E3). simpl in *. subst. unfold save, update. simpl.
  destruct (ref_save _ _ _ _ Href i _ _ Hn HR) as (s1 & s2 & -> & -> & HR'). by split_and!.
Qed.
Lemma sim_remove name : ok name → sim any (remove st1 name) (remove st2 name).
Proof.
  intros Hn [] [] (HR & E1 & E2 & E3). simpl in *. subst. unfold remove, update. simpl.
  destruct (ref_remove _ _ _ _ Href name _ _ Hn HR) as (s1 & s2 & -> & -> & HR'). by split_and!.
Qed.

(** One step of a simulation: split the command at its first call. *)
Ltac sim_step :=
  first
    [ apply sim_raise
    | apply sim_ret; first [exact I | assumption]
    | apply sim_kill | apply sim_sleep | apply sim_now | apply sim_pid_file
    | apply sim_remove; assumption
    | apply sim_save; assumption
    | eapply sim_bind; [solve [eapply sim_any; eauto with sim] | intros ? _]
    | match goal with |- sim _ (if ?b then _ else _) _ => destruct b end
    | match goal with |- sim _ (match ?x with _ => _ end) _ => destruct x end
    | apply (sim_bind any); [|intros ? _] ].
Ltac sim := repeat sim_step.
Create HintDb sim.

Lemma sim_alive pid : sim any (is_alive kill pid) (is_alive kill pid).
Proof. unfold is_alive. sim. Qed.
Lemma sim_probe pid : sim any (probe_pid kill pid) (probe_pid kill pid).
Proof. unfold probe_pid. sim. Qed.
#[local] Hint Resolve sim_alive sim_probe sim_kill sim_now sim_sleep : sim.

Lemma sim_list_names dead names :
  Forall ok names → sim (Forall ok_info) (list_names st1 kill dead names) (list_names st2 kill dead names).
Proof.
  induction 1 as [|name names Hn Hns IH]; cbn [list_names]; [apply sim_ret; constructor|].
  eapply sim_bind; [by apply sim_load|]. intros [i|] Hi; [|done]. specialize (Hi i eq_refl).
  eapply sim_bind; [apply sim_alive|]. intros b _. destruct (b || dead).
  - eapply sim_bind; [done|]. intros l Hl. apply sim_ret. by constructor.
  - eapply sim_bind; [by apply sim_remove|]. intros _ _. done.
Qed.

Lemma sim_list dead : sim (Forall ok_info) (list_sessions st1 kill dead) (list_sessions st2 kill dead).
Proof.
  intros w1 w2 Hw. unfold list_sessions. destruct (ref_names _ _ _ _ Href _ _ (proj1 Hw)) as [-> Hok].
  by apply sim_list_names.
Qed.
#[local] Hint Resolve sim_list : sim.

Lemma sim_find_only : sim (λ o, ∀ i, o = Some i → ok_info i) (find_session st1 kill None) (find_session st2 kill None).
Proof.
  unfold find_session. eapply sim_bind; [apply sim_list|]. intros l Hl. apply sim_ret. intros i.
  destruct l as [|x []]; intros; simplify_eq. by apply Forall_cons in Hl as [? _].
Qed.

Lemma sim_conflict host port : sim any (check_port_conflict st1 kill host port) (check_port_conflict st2 kill host port).
Proof. unfold check_port_conflict. sim. Qed.

Lemma sim_poll n deadline pid : sim any (poll_session kill n deadline pid) (poll_session kill n deadline pid).
Proof.
  induction n as [|n IH]; cbn [poll_session]; [by sim|]. eapply sim_bind; [apply sim_now|]. intros now _.
  destruct (now <? deadline); [|by sim]. eapply sim_bind; [apply sim_alive|]. intros b _. destruct (negb b); [by sim|].
  eapply sim_bind; [apply sim_sleep|]. done.
Qed.
Lemma sim_poll_pid n deadline pid : sim any (poll_pid kill n deadline pid) (poll_pid kill n deadline pid).
Proof.
  induction n as [|n IH]; cbn [poll_pid]; [by sim|]. eapply sim_bind; [apply sim_now|]. intros now _.
  destruct (now <? deadline); [|by sim]. eapply sim_bind; [apply sim_probe|]. intros b _. destruct (negb b); [by sim|].
  eapply sim_bind; [apply sim_sleep|]. done.
Qed.
#[local] Hint Resolve sim_poll sim_poll_pid sim_conflict : sim.

Lemma sim_stop i timeout force : ok_info i → sim any (stop_session st1 kill i timeout force) (stop_session st2 kill i timeout force).
Proof. intros Hi. unfold ok_info in Hi. unfold stop_session. sim. Qed.
Lemma sim_stop_pid pid timeout force : sim any (stop_pid kill pid timeout force) (stop_pid kill pid timeout force).
Proof. unfold stop_pid. sim. Qed.
Lemma sim_discover my procs : sim any (discover_server_processes st1 kill my procs) (discover_server_processes st2 kill my procs).
Proof. unfold discover_server_processes. sim. Qed.
#[local] Hint Resolve sim_stop sim_stop_pid sim_discover : sim.

Lemma sim_stop_named name : ok name → sim any (_stop_named_session st1 kill name) (_stop_named_session st2 kill name).
Proof.
  intros Hn. unfold _stop_named_session. eapply sim_bind; [by apply sim_load|].
  intros [i|] Hi; [|apply sim_raise]. specialize (Hi i eq_refl). unfold _cleanup_pid_file, exit1. sim.
Qed.
Lemma sim_legacy_wait n pid : sim any (legacy_wait kill n pid) (legacy_wait kill n pid).
Proof.
  induction n as [|n IH]; cbn [legacy_wait]; [by sim|]. eapply sim_bind; [apply sim_sleep|]. intros _ _.
  eapply sim_bind; [apply sim_probe|]. intros b _. destruct (negb b); [by sim|done].
Qed.
#[local] Hint Resolve sim_legacy_wait : sim.
Lemma sim_legacy : sim any (_stop_legacy_pid kill) (_stop_legacy_pid kill).
Proof.
  intros w1 w2 Hw. unfold _stop_legacy_pid. assert (E : w_pid_file w1 = w_pid_file w2) by apply Hw. rewrite E.
  destruct (w_pid_file w2) as [t|]; [|by apply sim_raise]. destruct (py_int t) as [pid|]; [|by apply sim_raise].
  revert w1 w2 Hw E. intros w1 w2 Hw _. revert w1 w2 Hw. fold (@sim () any).
  unfold _cleanup_pid_file, exit1. sim.
Qed.
Lemma sim_stop_each l force : Forall ok_info l → sim any (stop_each st1 kill l force) (stop_each st2 kill l force).
Proof. induction 1 as [|i l Hi Hl IH]; cbn [stop_each]; sim; done. Qed.
Lemma sim_stop_orphans l force : sim any (stop_orphans kill l force) (stop_orphans kill l force).
Proof. induction l as [|o l IH]; cbn [stop_orphans]; sim; done. Qed.
#[local] Hint Resolve sim_stop_each sim_stop_orphans sim_legacy sim_stop_named : sim.

Lemma sim_stop_all my procs force : sim any (_stop_all_servers st1 kill my procs force) (_stop_all_servers st2 kill my procs force).
Proof.
  unfold _stop_all_servers. eapply sim_bind; [apply sim_list|]. intros l Hl.
  eapply sim_bind; [apply sim_discover|]. intros os _. unfold _cleanup_pid_file, exit1.
  destruct l as [|i l], os as [|o os]; sim.
Qed.

Lemma sim_cmd_stop my procs all force name : (∀ n, name = Some n → ok n) →
  sim any (_cmd_stop st1 kill my procs all force name) (_cmd_stop st2 kill my procs all force name).
Proof.
  intros Hn. unfold _cmd_stop. destruct all; [apply sim_stop_all|].
  destruct (if str_truthy name then name else None) as [n|] eqn:E.
  - assert (ok n) by (apply Hn; destruct (str_truthy name); congruence).
    destruct (isdigit n); [unfold _cleanup_pid_file, exit1; sim|by apply sim_stop_named].
  - eapply sim_bind; [apply sim_find_only|]. unfold _cleanup_pid_file, exit1.
    intros [i|] Hi; [specialize (Hi i eq_refl); sim|].
    eapply sim_bind; [apply sim_list|]. intros l _. destruct (Nat.ltb 1 (length l)); [by sim|].
    eapply sim_bind; [apply sim_discover|]. intros [|o os] _; [apply sim_legacy|by sim].
Qed.

Lemma sim_detach name host port config spawn log now_text :
  (∀ n, (if str_truthy name then validate_name (default "" name) else inr (auto_name port DEFAULT_PORT)) = inr n → ok n) →
  sim any (_detach_server st1 kill name host port config spawn log now_text) (_detach_server st2 kill name host port config spawn log now_text).
Proof.
  intros Hn w1 w2. revert w2. revert w1. fold (@sim () any). unfold _detach_server.
  destruct (if str_truthy name then _ else _) as [e|n]; [apply sim_raise|]. specialize (Hn n eq_refl).
  apply (sim_bind any any (check_port_conflict st1 kill host port) (check_port_conflict st2 kill host port)); [apply sim_conflict|].
  intros [c|] _; [apply sim_raise|]. by apply sim_save.
Qed.

Lemma sim_write name host port config pid now_text : ok name →
  sim any (_write_pid_file st1 name host port config pid now_text) (_write_pid_file st2 name host port config pid now_text).
Proof. intros Hn. unfold _write_pid_file. eapply sim_bind; [by apply sim_save|]. intros _ _. apply sim_pid_file. Qed.

Lemma sim_remove_pid name pid : ok name → sim any (_remove_pid_file st1 name pid) (_remove_pid_file st2 name pid).
Proof.
  intros Hn. unfold _remove_pid_file. eapply sim_bind; [by apply sim_load|]. intros [i|] _.
  all: apply (sim_bind any any); [repeat case_match; first [by apply sim_remove | apply sim_ret; exact I]|].
  all: intros _ _ [] [] (? & E1 & E2 & E3); simpl in *; subst; split_and!; [done| |done];
    repeat case_match; done.
Qed.
End refinement.

(** ** The files refine the map *)

Definition plain (name : string) : Prop := has_slash name = false.
Definition json_path (dir name : string) : string := dir +:+ "/" +:+ name +:+ ".json".
Definition file_text (i : SessionInfo) : string := dumps (Some 2%nat) (asdict i).

(** The directory holds exactly the files of the records, each under its name. *)
Definition stored (dir : string) (fs : session_files) (m : session_map) : Prop :=
  map_Forall (λ k i, plain k ∧ si_name i = k) m ∧ fs = kmap (json_path dir) (file_text <$> m).

#[export] Instance json_path_inj dir : Inj (=) (=) (json_path dir).
Proof.
  intros k1 k2 H. apply (f_equal chars) in H. unfold json_path in H. rewrite !chars_app in H.
  apply app_inv_head, app_inv_head, app_inv_tail in H. by apply chars_inj.
Qed.

Lemma file_roundtrip now_text i : (v ← loads (file_text i); info_of now_text v) = Some i.
Proof.
  unfold file_text. rewrite loads_dumps.
  - by destruct i.
  - constructor; [apply (bool_decide_unpack _); reflexivity|]. repeat constructor.
Qed.

Lemma sorted_names_proper l1 l2 : l1 ≡ₚ l2 → sorted_names l1 = sorted_names l2.
Proof.
  intros Hp. apply (Sorted_unique String.le).
  - apply sorted_names_sorted.
  - apply sorted_names_sorted.
  - by rewrite !sorted_names_perm.
Qed.

Lemma strip_json_app k : strip_json (k +:+ ".json") = k.
Proof.
  unfold strip_json. rewrite chars_app, length_app. simpl.
  replace (length (chars k) + 5 - 5)%nat with (length (chars k)) by lia. rewrite take_app_length. apply text_chars.
Qed.

Lemma has_slash_app a b : has_slash (a +:+ b) = has_slash a || has_slash b.
Proof. unfold has_slash. by rewrite chars_app, existsb_app. Qed.

Lemma entry_of_json dir k : plain k → entry_of dir (json_path dir k) = Some (k +:+ ".json").
Proof.
  intros Hk. unfold entry_of, json_path.
  assert (Hs : startswith (dir +:+ "/" +:+ k +:+ ".json") (dir +:+ "/") = true).
  { apply startswith_app. exists (k +:+ ".json"). apply chars_inj. by rewrite !chars_app, <-!app_assoc. }
  rewrite Hs, !chars_app. rewrite app_assoc, drop_app_length' by (rewrite length_app; simpl; lia).
  rewrite <-chars_app, text_chars, has_slash_app, Hk. done.
Qed.

Lemma stored_listdir dir fs m : stored dir fs m → listdir dir fs ≡ₚ (λ k, k +:+ ".json") <$> (map_to_list m).*1.
Proof.
  intros [Hm ->]. unfold listdir.
  assert (Hp : (map_to_list (kmap (json_path dir) (file_text <$> m) : session_files)).*1 ≡ₚ json_path dir <$> (map_to_list m).*1).
  { rewrite (map_to_list_kmap (json_path dir)), map_to_list_fmap, <-!list_fmap_compose. done. }
  rewrite Hp. clear Hp.
  assert (Hall : Forall plain (map_to_list m).*1).
  { apply Forall_fmap, Forall_forall. intros [k i] Hin%elem_of_map_to_list. by apply (Hm k i). }
  induction Hall as [|k l Hk Hl IH]; [done|]. simpl. rewrite entry_of_json by done. by rewrite IH.
Qed.

Lemma stored_names dir fs m : stored dir fs m → session_names dir fs = st_names (SessionStore := map_store) m ∧
  Forall plain (session_names dir fs).
Proof.
  intros Hst. assert (Hs := sorted_names_proper _ _ (stored_listdir _ _ _ Hst)).
  assert (Hall : ∀ f, f ∈ sorted_names ((λ k, k +:+ ".json") <$> (map_to_list m).*1) → ∃ k i, f = k +:+ ".json" ∧ m !! k = Some i).
  { intros f (k & -> & Hk)%elem_of_sorted_names%list_elem_of_fmap.
    apply list_elem_of_fmap in Hk as ([k' i] & -> & Hi%elem_of_map_to_list). eauto. }
  unfold session_names. rewrite Hs, keep_all.
  2: { intros f (k & i & -> & _)%Hall. apply endswith_app. eauto. }
  split; [done|]. apply Forall_fmap, Forall_forall. intros f (k & i & -> & Hk)%Hall.
  simpl. rewrite strip_json_app. by apply (proj1 Hst k i).
Qed.

Section stored.
Context (realpath : string → string) (dir now_text : string).
(** No symbolic link lies on the paths of the session files. *)
Context (Hreal : ∀ k, plain k → realpath (json_path dir k) = json_path dir k).
#[local] Set Default Proof Using "All".

Lemma session_path_plain k : plain k → session_path realpath dir k = inr (json_path dir k).
Proof.
  intros Hk. unfold session_path. fold (json_path dir k). rewrite Hreal by done.
  assert (Hs : startswith (json_path dir k) (dir +:+ "/") = true).
  { apply startswith_app. exists (k +:+ ".json"). apply chars_inj. unfold json_path. by rewrite !chars_app, <-!app_assoc. }
  by rewrite Hs.
Qed.

Lemma files_refine_map : store_refines (file_store realpath dir now_text) map_store plain (stored dir).
Proof.
  split.
  - intros k fs m Hk [Hm ->]. simpl. unfold load_session. rewrite session_path_plain by done.
    unfold mbind, sum_bind. rewrite (lookup_kmap (json_path dir)), lookup_fmap.
    destruct (m !! k) as [i|]; [|done]. simpl. f_equal. apply (file_roundtrip now_text i).
  - intros k fs m i Hk [Hm ->] Hl. simpl in Hl. injection Hl as Hl. destruct (Hm k i Hl) as [? Hn]. unfold plain. by rewrite Hn.
  - intros i fs m Hk [Hm ->]. eexists _, _. split; [|split; [reflexivity|]].
    + simpl. unfold save_session. rewrite session_path_plain by done. reflexivity.
    + split; [apply map_Forall_insert_2; [split; [exact Hk|reflexivity]|exact Hm]|]. rewrite fmap_insert. symmetry. apply (kmap_insert (json_path dir)).
  - intros k fs m Hk [Hm ->]. eexists _, _. split; [|split; [reflexivity|]].
    + simpl. unfold remove_session. rewrite session_path_plain by done. reflexivity.
    + split; [by apply map_Forall_delete|]. rewrite fmap_delete. symmetry. apply (kmap_delete (json_path dir)).
  - intros fs m Hst. destruct (stored_names dir fs m Hst) as [E Hf]. simpl in *. split; [done|]. by rewrite <-E.
Qed.
End stored.

(** Names made by the program have no slash. *)
Lemma plain_chars s : Forall (λ c, nat_of_ascii c ≠ 47%nat) (chars s) → plain s.
Proof.
  unfold plain, has_slash. induction 1 as [|c l Hc _ IH]; [done|]. simpl. rewrite IH, orb_false_r. by apply Nat.eqb_neq.
Qed.

Lemma validate_name_plain s n : validate_name s = inr n → plain n ∧ _NAME_RE n = true.
Proof.
  unfold validate_name. destruct (_NAME_RE _) eqn:E; [|done]. intros [= <-]. split; [|done].
  revert E. generalize (str_strip (lower s)). intros x Hx. apply plain_chars. unfold _NAME_RE in Hx.
  destruct (chars x) as [|c l]; [done|]. apply andb_true_iff in Hx as [[Hc Hl]%andb_true_iff _].
  assert (Hn : ∀ d, name_char d = true → nat_of_ascii d ≠ 47%nat).
  { intros d. unfold name_char, name_start. rewrite !orb_true_iff, !andb_true_iff, !Nat.leb_le, Nat.eqb_eq. lia. }
  constructor; [apply Hn; unfold name_char; by rewrite Hc|]. apply Forall_forall. intros d Hd. apply Hn.
  rewrite forallb_forall in Hl. apply Hl. by apply list_elem_of_In.
Qed.

Lemma auto_name_plain port dflt : plain (auto_name port dflt).
Proof.
  unfold auto_name. case_match; [done|]. unfold plain. rewrite has_slash_app. simpl. apply plain_chars.
  eapply Forall_impl; [apply print_int_chars|]. intros c Hc E. assert (c = ascii_of_nat 47) as -> by (rewrite <-E; symmetry; apply ascii_nat_embedding).
  done.
Qed.

(** ** Histories of commands *)

Inductive server_cmd :=
  | CDetach (name : option string) (host : string) (port : Z) (config : option string) (spawn : Z) (log_path : string → string) (now_text : string)
  | CStart (name host : string) (port : Z) (config : string) (pid : Z) (now_text : string)
  | CExit (name : string) (pid : Z)
  | CStop (my_pid : Z) (procs : list (Z * option string)) (stop_all force : bool) (name : option string)
  | CStatus (my_pid : Z) (procs : list (Z * option string))
  | CWait (ms : Z).

Inductive reply := Finished | Status (l : list SessionInfo) (o : list OrphanProcess).

Section histories.
Context {S : Type} (store : SessionStore S) (kill : list kill_call → kill_call → kill_reply).

Definition silent (c : cmd (S := S) ()) : cmd (S := S) reply := c ≫= λ _, mret Finished.
Definition run_cmd (c : server_cmd) : cmd (S := S) reply :=
  match c with
  | CDetach name host port config spawn log now_text => silent (_detach_server store kill name host port config spawn log now_text)
  | CStart name host port config pid now_text => silent (_write_pid_file store name host port config pid now_text)
  | CExit name pid => silent (_remove_pid_file store name pid)
  | CStop my procs all force name => silent (_cmd_stop store kill my procs all force name)
  | CStatus my procs => l ← list_sessions store kill false; o ← discover_server_processes store kill my procs; mret (Status l o)
  | CWait ms => silent (sleep ms)
  end.

(** Each command is a process of its own; what it raises ends only itself. *)
Fixpoint run_cmds (cs : list server_cmd) (w : world S) : list (cli_exn + reply) * world S :=
  match cs with
  | [] => ([], w)
  | c :: cs' => let '(r, w1) := run_cmd c w in let '(rs, w2) := run_cmds cs' w1 in (r :: rs, w2)
  end.
End histories.

(** The names given on a command line have no slash. *)
Definition cmd_plain (c : server_cmd) : Prop :=
  match c with
  | CStart name _ _ _ _ _ | CExit name _ => plain name
  | CStop _ _ _ _ (Some name) => plain name
  | _ => True
  end.
Definition fresh_world {S : Type} (s : S) (now : Z) : world S := Build_world s now [] None.

(** C18: the session files implement a table.  For every behaviour of processes
    and signals, every history of the commands that start, stop and list
    servers, with names without a slash, runs on the directory of JSON files
    exactly as on a map from names to records: the same answers and exit codes,
    the same signals to the same processes at the same times, and at the end
    the directory holds exactly the records of the map, each under its name. *)
Theorem session_files_refine_map realpath dir now_text kill cmds now :
  (∀ k, plain k → realpath (json_path dir k) = json_path dir k) →
  Forall cmd_plain cmds →
  let '(r1, w1) := run_cmds (file_store realpath dir now_text) kill cmds (fresh_world ∅ now) in
  let '(r2, w2) := run_cmds map_store kill cmds (fresh_world ∅ now) in
  r1 = r2 ∧ w_kills w1 = w_kills w2 ∧ w_pid_file w1 = w_pid_file w2 ∧ stored dir (w_store w1) (w_store w2).
Proof.
  intros Hreal Hcmds. assert (Href := files_refine_map realpath dir now_text Hreal).
  assert (H0 : wrel (stored dir) (fresh_world ∅ now) (fresh_world ∅ now)).
  { by split_and!. }
  revert H0. generalize (fresh_world (∅ : session_files) now) (fresh_world (∅ : session_map) now).
  induction Hcmds as [|c cmds Hc _ IH]; intros w1 w2 Hw; [by destruct Hw as (? & ? & ? & ?)|]. cbn [run_cmds].
  assert (Hsim : sim (stored dir) any (run_cmd (file_store realpath dir now_text) kill c) (run_cmd map_store kill c)).
  { destruct c; cbn [run_cmd]; unfold silent; (eapply (sim_bind _ _ _ _ Href kill any any)); try (intros ? _; apply (sim_ret _ _ _ _ Href kill); exact I).
    - eapply (sim_detach _ _ _ _ Href). intros n. destruct (str_truthy _); [intros Hv; by apply validate_name_plain in Hv as [? _]|].
      intros [= <-]. apply auto_name_plain.
    - by apply (sim_write _ _ _ _ Href kill).
    - by apply (sim_remove_pid _ _ _ _ Href kill).
    - apply (sim_cmd_stop _ _ _ _ Href). intros n ->. done.
    - eapply (sim_any _ _ _ _ Href kill). apply (sim_list _ _ _ _ Href).
    - intros l _. eapply (sim_bind _ _ _ _ Href kill any any); [apply (sim_discover _ _ _ _ Href)|].
      intros o _. apply (sim_ret _ _ _ _ Href kill). exact I.
    - apply (sim_sleep _ _ _ _ Href kill). }
  destruct (Hsim w1 w2 Hw) as (Er & Hw' & _). destruct (run_cmd _ _ c w1) as [r1 v1], (run_cmd _ _ c w2) as [r2 v2].
  simpl in Er, Hw'. subst r1. specialize (IH v1 v2 Hw').
  destruct (run_cmds _ _ cmds v1) as [rs1 u1], (run_cmds _ _ cmds v2) as [rs2 u2].
  destruct IH as (-> & ? & ? & ?). done.
Qed.

(** A process that runs until it gets SIGTERM or SIGKILL. *)
Definition obedient (pid : Z) (h : list kill_call) (c : kill_call) : kill_reply :=
  if bool_decide (kc_pid c = pid) && forallb (λ k, negb (bool_decide (kc_pid k = pid)) || bool_decide (kc_sig k = 0)) h
  then KillOk else ProcessLookupError.
Definition demo_cmds : list server_cmd :=
  [CDetach (Some " Web ") "127.0.0.1" 9100 None 42 (λ n, n) "t0"; CStatus 1 []; CDetach None "127.0.0.1" 9100 None 43 (λ n, n) "t1";
   CStop 1 [] false false (Some "web"); CStatus 1 []].

Lemma session_files_refine_map_witness :
  let '(r1, w1) := run_cmds (file_store id "/s" "now") (obedient 42) demo_cmds (fresh_world ∅ 0) in
  let '(r2, w2) := run_cmds map_store (obedient 42) demo_cmds (fresh_world ∅ 0) in
  r1 = r2 ∧ w_kills w1 = w_kills w2 ∧ w_pid_file w1 = w_pid_file w2 ∧ stored "/s" (w_store w1) (w_store w2).
Proof.
  apply (session_files_refine_map id "/s" "now" (obedient 42) demo_cmds 0); [reflexivity|].
  repeat constructor.
Defined.

(** The history of the witness, evaluated on the files. *)
Example demo_history :
  (run_cmds (file_store id "/s" "now") (obedient 42) demo_cmds (fresh_world ∅ 0)).1 =
  [inr Finished;
   inr (Status [{| si_name := "web"; si_pid := 42; si_host := "127.0.0.1"; si_port := 9100; si_config := "";
                   si_log_file := "web"; si_started_at := "t0" |}] []);
   inl (SystemExit 1); inr Finished; inr (Status [] [])].
Proof. vm_compute. reflexivity. Qed.

(** ** What stopping does *)

Section stopping.
Context {S : Type} (store : SessionStore S) (kill : list kill_call → kill_call → kill_reply).
#[local] Set Default Proof Using "Type".

(** The probes of the polling loop, and why it ends: the process is gone or
    the deadline has passed. *)
Lemma poll_session_probes n deadline pid (w w' : world S) b :
  deadline <= w_clock w + 100 * Z.of_nat n → poll_session kill n deadline pid w = (inr b, w') →
  ∃ h, w_kills w' = w_kills w ++ h ∧ Forall (λ c, kc_pid c = pid ∧ kc_sig c = 0) h ∧ w_clock w <= w_clock w' ∧
    (b = true → ∃ h0 c, h = h0 ++ [c] ∧ kill (w_kills w ++ h0) c = ProcessLookupError) ∧
    (b = false → deadline <= w_clock w').
Proof.
  revert w. induction n as [|n IH]; intros w Hn H; cbn [poll_session] in H.
  { injection H as <- <-. exists []. rewrite app_nil_r. split_and!; [done|done|lia|done|lia]. }
  cbv [mbind M_bind monotonic] in H. destruct (w_clock w <? deadline) eqn:El.
  2: { injection H as <- <-. exists []. rewrite app_nil_r. split_and!; [done|done|lia|done|]. intros _. apply Z.ltb_ge in El. lia. }
  cbv [is_alive os_kill mbind M_bind] in H. set (c := Build_kill_call _ _ _) in H.
  destruct (kill (w_kills w) c) eqn:Ek; simpl in H; [| |..]; try discriminate.
  2: { injection H as <- <-. exists [c]. split_and!; [done|by repeat constructor|simpl; lia| |done].
       intros _. exists [], c. by rewrite app_nil_r. }
  all: apply IH in H as (h & Hk & Hf & Hc & Ht & Hb); [|simpl; lia]; simpl in *; exists (c :: h);
    (split_and!; [by rewrite Hk, <-app_assoc|by constructor|lia| |done]);
    intros Hbt; destruct (Ht Hbt) as (h0 & c' & -> & E); exists (c :: h0), c'; split; [done|by rewrite <-app_assoc in E].
Qed.

Lemma bind_inr {A B} (m : cmd (S := S) A) (k : A → cmd (S := S) B) w b w' :
  (m ≫= k) w = (inr b, w') → ∃ a v, m w = (inr a, v) ∧ k a v = (inr b, w').
Proof. unfold mbind, M_bind. destruct (m w) as [[e|a] v]; [done|]. eauto. Qed.

Lemma remove_run name (w w' : world S) u : remove store name w = (inr u, w') → w_kills w' = w_kills w ∧ w_clock w' = w_clock w.
Proof. unfold remove, update. destruct (st_remove name (w_store w)); intros; simplify_eq. done. Qed.

Definition probe_of (pid : Z) (w : world S) : kill_call := {| kc_time := w_clock w; kc_pid := pid; kc_sig := 0 |}.
Lemma alive_run pid (w w' : world S) b : is_alive kill pid w = (inr b, w') →
  w_kills w' = w_kills w ++ [probe_of pid w] ∧ w_clock w' = w_clock w ∧
  (b = false → kill (w_kills w) (probe_of pid w) = ProcessLookupError).
Proof.
  cbv [is_alive os_kill mbind M_bind]. change (Build_kill_call (w_clock w) pid 0) with (probe_of pid w).
  destruct (kill (w_kills w) (probe_of pid w)) eqn:E; simpl; intros [= <- <-]; by split_and!.
Qed.
Lemma kill_run pid sig (w w' : world S) r : os_kill kill pid sig w = (inr r, w') →
  w_kills w' = w_kills w ++ [{| kc_time := w_clock w; kc_pid := pid; kc_sig := sig |}] ∧ w_clock w' = w_clock w.
Proof. unfold os_kill. intros; simplify_eq. done. Qed.

(** Stopping a session.  Whatever the processes do, every signal goes to the
    process of the session; the answer [true] means that the last thing asked
    of the system was whether the process exists, and it did not; and without
    the force option SIGKILL is sent only after SIGTERM, once the whole timeout
    has passed. *)
Theorem stop_session_verdict i timeout force (w w' : world S) b :
  0 <= timeout → stop_session store kill i timeout force w = (inr b, w') →
  ∃ h, w_kills w' = w_kills w ++ h ∧ Forall (λ c, kc_pid c = si_pid i) h ∧
    (b = true → ∃ h0 c, h = h0 ++ [c] ∧ kc_sig c = 0 ∧ kill (w_kills w ++ h0) c = ProcessLookupError) ∧
    (force = false → ∀ c, c ∈ h → kc_sig c = SIGKILL →
       w_clock w + timeout <= kc_time c ∧ ∃ c', c' ∈ h ∧ kc_sig c' = SIGTERM).
Proof.
  intros Ht H. unfold stop_session in H. apply bind_inr in H as (a & v & Ha & H).
  apply alive_run in Ha as (Ka & Ca & Hd). set (c0 := probe_of (si_pid i) w) in *.
  destruct a; cbn [negb] in H.
  2: { apply bind_inr in H as (u & v1 & Hr & [= <- <-]). apply remove_run in Hr as [Kr _].
       exists [c0]. rewrite Kr, Ka. split_and!; [done|by repeat constructor| |].
       - intros _. exists [], c0. rewrite app_nil_r. split_and!; auto.
       - intros _ c Hc%list_elem_of_singleton. by subst. }
  apply bind_inr in H as (r & v1 & Hk & H). apply kill_run in Hk as [Kk Ck].
  set (c1 := Build_kill_call (w_clock v) (si_pid i) _) in *.
  assert (Hone : ∀ x : bool, x = false → w' = v1 → b = x →
    ∃ h, w_kills w' = w_kills w ++ h ∧ Forall (λ c, kc_pid c = si_pid i) h ∧
    (b = true → ∃ h0 c, h = h0 ++ [c] ∧ kc_sig c = 0 ∧ kill (w_kills w ++ h0) c = ProcessLookupError) ∧
    (force = false → ∀ c, c ∈ h → kc_sig c = SIGKILL → w_clock w + timeout <= kc_time c ∧ ∃ c', c' ∈ h ∧ kc_sig c' = SIGTERM)).
  { intros x -> -> ->. exists [c0; c1]. rewrite Kk, Ka, <-app_assoc. split_and!; [done|by repeat constructor|done|].
    intros -> c Hc Hs. apply elem_of_cons in Hc as [->|Hc%list_elem_of_singleton]; [done|]. subst c. done. }
  destruct r; [|injection H as <- <-; by apply (Hone false)..]. clear Hone.
  apply bind_inr in H as (now & v2 & [= <- <-] & H). apply bind_inr in H as (gone & v3 & Hp & H).
  apply poll_session_probes in Hp as (h & Kh & Hh & Ch & Hgone & Hlate).
  2: { unfold poll_fuel. pose proof (Z.div_pos timeout 100 Ht). pose proof (Z.mul_succ_div_gt timeout 100). lia. }
  assert (Hzero : ∀ c, c ∈ h → kc_pid c = si_pid i ∧ kc_sig c = 0) by (by apply Forall_forall).
  assert (Hpid : Forall (λ c, kc_pid c = si_pid i) h) by (eapply Forall_impl; [exact Hh|]; by intros c []).
  assert (Hbase : w_kills v3 = w_kills w ++ c0 :: c1 :: h) by (by rewrite Kh, Kk, Ka, <-!app_assoc).
  destruct gone.
  - apply bind_inr in H as (u & v4 & Hr & [= <- <-]). apply remove_run in Hr as [Kr _].
    exists (c0 :: c1 :: h). rewrite Kr, Hbase. split_and!; [done|by repeat constructor| |].
    + intros _. destruct (Hgone eq_refl) as (h0 & c & -> & E). exists (c0 :: c1 :: h0), c. split; [done|].
      split; [apply Hzero; rewrite elem_of_app, elem_of_cons; auto|]. by rewrite Kk, Ka, <-!app_assoc in E.
    + intros -> c [->|[->|Hc]%elem_of_cons]%elem_of_cons Hs; [done|done|]. destruct (Hzero c Hc). by rewrite Hs in *.
  - apply bind_inr in H as (u & v4 & Hs & H). apply bind_inr in H as (u' & v5 & Hr & H).
    apply remove_run in Hr as [Kr Cr]. apply bind_inr in H as (a & v6 & Ha & [= <- <-]). apply alive_run in Ha as (Kf & _ & Hdead).
    specialize (Hlate eq_refl).
    assert (Hext : ∃ e, w_kills v4 = w_kills v3 ++ e ∧ Forall (λ c, kc_pid c = si_pid i) e ∧ (force = true ∨
      ∀ c, c ∈ e → w_clock w + timeout <= kc_time c)).
    { destruct force; [injection Hs as _ <-; exists []; rewrite app_nil_r; auto|].
      apply bind_inr in Hs as (r' & v' & Hk' & Hs). apply kill_run in Hk' as [Kk' _]. injection Hs as _ <-.
      eexists. split; [exact Kk'|]. split; [by repeat constructor|]. right. intros c Hc%list_elem_of_singleton. subst c. simpl.
      rewrite <-Ca, <-Ck. lia. }
    destruct Hext as (e & Ke & He & Htime). set (cf := probe_of (si_pid i) v5) in *.
    exists (c0 :: c1 :: h ++ e ++ [cf]). rewrite Kf, Kr, Ke, Hbase. split_and!.
    + by rewrite <-!app_assoc.
    + repeat constructor. apply Forall_app. split; [done|]. apply Forall_app. split; [done|by repeat constructor].
    + intros Hb. exists (c0 :: c1 :: h ++ e), cf. rewrite app_assoc. split_and!; [done|done|].
      destruct a; [done|]. rewrite Kr, Ke, Hbase, <-app_assoc in Hdead. by apply Hdead.
    + intros -> c Hc Hsig. split; [|exists c1; split; [rewrite !elem_of_cons; auto|done]].
      rewrite !elem_of_cons, !elem_of_app, list_elem_of_singleton in Hc.
      destruct Hc as [->|[->|[Hc|[Hc| ->]]]]; try done; [destruct (Hzero c Hc); by rewrite Hsig in *|].
      destruct Htime as [?|Htime]; [done|by apply Htime].
Qed.
End stopping.

(** ** Where the commands surprise *)

Definition info_at (name host : string) (pid port : Z) : SessionInfo :=
  {| si_name := name; si_pid := pid; si_host := host; si_port := port; si_config := ""; si_log_file := ""; si_started_at := "" |}.
Definition always (r : kill_reply) : list kill_call → kill_call → kill_reply := λ _ _, r.

(** A valid session name of digits is taken as a process id. *)
Lemma digit_name_is_pid my procs force (w : world (gmap string SessionInfo)) :
  validate_name "8080" = inr "8080" ∧
  _cmd_stop map_store (always KillOk) my procs false force (Some "8080") w =
    (ok ← stop_pid (always KillOk) 8080 stop_timeout force; if ok : bool then _cleanup_pid_file else exit1) w.
Proof.
  split; [vm_compute; reflexivity|]. unfold _cmd_stop.
  replace (str_truthy (Some "8080")) with true by reflexivity. replace (isdigit "8080") with true by reflexivity.
  by replace (int_of_digits (chars "8080")) with 8080 by reflexivity.
Qed.

(** The force option has no effect when a session is named. *)
Lemma named_stop_ignores_force {S : Type} (store : SessionStore S) kill my procs name w :
  name ≠ "" → isdigit name = false →
  _cmd_stop store kill my procs false true (Some name) w = _cmd_stop store kill my procs false false (Some name) w.
Proof. intros Hn Hd. unfold _cmd_stop. simpl. rewrite bool_decide_eq_false_2 by done. cbn [negb]. by rewrite Hd. Qed.

(** The file of a process that survives every signal is removed. *)
Lemma stubborn_process_forgotten :
  let i := info_at "web" "127.0.0.1" 42 9000 in
  let '(r, w) := stop_session map_store (always KillOk) i 3000 false (fresh_world {["web" := i]} 0) in
  r = inr false ∧ w_store w = ∅.
Proof. vm_compute. split; reflexivity. Qed.

(** A server on every address does not conflict with one on the same port. *)
Lemma wildcard_conflict_missed :
  let i := info_at "web" "127.0.0.1" 42 9000 in
  (check_port_conflict map_store (always KillOk) "0.0.0.0" 9000 (fresh_world {["web" := i]} 0)).1 = inr None ∧
  (check_port_conflict map_store (always KillOk) "127.0.0.1" 9000 (fresh_world {["web" := info_at "web" "0.0.0.0" 42 9000]} 0)).1 =
    inr (Some (info_at "web" "0.0.0.0" 42 9000)).
Proof. split; vm_compute; reflexivity. Qed.

(** Listing removes the file named inside a stale file, not the stale file. *)
Lemma stale_copy_removes_original :
  let fs := {["/s/copy.json" := file_text (info_at "web" "h" 7 9000); "/s/web.json" := file_text (info_at "web" "h" 42 9000)]} in
  let w := (list_sessions (file_store id "/s" "now") (obedient 42) false (fresh_world fs 0)).2 in
  w_store w = {["/s/copy.json" := file_text (info_at "web" "h" 7 9000)]}.
Proof. vm_compute. reflexivity. Qed.

(** When the child registers itself, the log file its parent recorded is lost. *)
Lemma log_file_lost :
  let '(_, w) := run_cmds map_store (always KillOk)
    [CDetach (Some "web") "127.0.0.1" 9000 None 42 (λ n, "/log/" +:+ n) "t0"; CStart "web" "127.0.0.1" 9000 "" 42 "t1"] (fresh_world ∅ 0) in
  si_log_file <$> w_store w !! "web" = Some "".
Proof. vm_compute. reflexivity. Qed.
